(* ===== verification/_CoqProject ===== *)
-Q . S2P
Prelude.v
Util.v
MarkupIn.v
Message.v
Log.v
World.v
Dcc.v
Effects.v
Auth.v
Sock.v
SockProps.v
Caca.v
CacaProps.v
Media.v
MediaProps.v
Main.v
MainProps.v
Url.v
Nick.v
Http.v
HttpProps.v
CoinCoin.v
BoardProps.v
GayAttitude.v
GaProps.v
Wrap.v
Accounts.v
WrapProps.v
Demo.v
Logic.v
Channel.v
Registry.v
Members.v
Closing.v
Kinds.v
Irc.v
Cmds.v
CmdsChannels.v
CmdsAccounts.v
ImLayer.v
ImConv.v
ImAccount.v
Calm.v
Queries.v
Dispatch.v
Safety.v
Talk.v
Session.v
ImSafety.v
ImProps.v
ImAccountProps.v
ImStatus.v
ImXfer.v
XferProps.v
Defects.v
AuthSession.v
Transfer.v
TransferProps.v
IconNick.v
IconNickProps.v
Ipc.v
IpcSystem.v
IpcRefine.v
IpcSim.v
IpcSpec.v
Config.v
ConfigProofs.v
ConfigProps.v
Request.v
RequestProofs.v
RequestProps.v
