(* ===== verification/Prelude.v ===== *)
(** * Minbif, an IRC gateway to instant-messaging networks

    A user connects to minbif with an ordinary IRC client.  The program plays the
    part of an IRC server: the accounts of libpurple appear as remote servers, the
    buddies as nicks, the conversations as channels or private messages.  This
    library models the program's own logic as it is written in C++ (and, for two
    plugins, in C) under src/, and proves what makes it correct.  Where the code does
    something wrong, a theorem or an example shows it instead.

    ** Parts of the program and where they are

    Texts and messages.
    - Util: core/util.cpp.  The tokenizer stringtok, the case functions, the
      translation of IRC colours to markup.  MarkupIn: markup2irc, the way back.
    - Message: irc/message.{h,cpp}.  The IRC message, its parser, its printer, and
      the words between quotes.
    - Log: core/log.{h,cpp}.  The flags, and what becomes of a line.

    One session (irc/): the objects of a client and its commands.
    - World: the nicks, channel users, channels and servers as heaps indexed by
      pointers, the [irc::IRC] object, the socket, the trace of what leaves the
      process, and the monad in which the methods run.
    - Nick, Channel, Registry, Kinds, Irc: irc/nick.cpp and its derived classes,
      irc/channel.cpp, the tables of irc/irc.cpp, irc/status_channel.cpp and
      irc/conversation_channel.cpp, and the life of [irc::IRC] with irc/user.cpp.
    - Cmds, CmdsChannels, CmdsAccounts: every handler of irc/cmds.cpp,
      irc/cmds_channels.cpp, irc/cmds_accounts.cpp and irc/settings.cpp.
    - Dispatch: [IRC::readIO], its table of commands and its checks.
    - Dcc: the text of a DCC request (irc/dcc.cpp).

    The layer above libpurple (im/), in a session.
    - ImLayer: what this layer asks libpurple, the nicks it makes, im/buddy.cpp.
    - ImConv: im/conversation.cpp, the conversations and the chats.
    - ImAccount: im/account.cpp, the status channels, reconnections, the chats to
      join, the names of new accounts (im/purple.cpp), the options of a protocol.
    - ImXfer: im/ft.cpp and im/roomlist.cpp.

    The layer above libpurple, by itself.
    - Wrap: the preferences and directories of im/im.cpp, the lists and the start of
      im/purple.cpp, im/plugin.cpp, im/protocol.cpp, the getters of buddies.
    - Accounts: the rest of im/account.cpp: commands, privacy, icons, the requests of
      authorization and the data they own.
    - Auth: im/auth.cpp, im/auth_local.cpp, im/auth_connection.cpp and im/auth_pam.cpp.
    - Request: im/request.cpp, the questions libpurple asks to the user, and
      check_write_file of core/util.cpp.
    - Media: im/media.cpp, the video calls, their pictures and their DCC chats.

    Around the session.
    - Main: core/minbif.cpp, core/sighandler.cpp, server_poll/poll.cpp and
      server_poll/inetd.cpp: options, pid file, signals, the choice of the poll.
    - Ipc: server_poll/daemon_fork.cpp, the master and its children; IpcSystem puts
      these processes and the bytes of their sockets together.
    - Sock: sockwrap/, the socket of a client in the clear or through GnuTLS.
    - Config: core/config.{h,cpp} and the declarations of core/minbif.cpp.
    - Transfer: the DCC transfers of irc/dcc.cpp, in both directions.
    - IconNick: irc/buddy_icon.cpp, the nick that takes the picture of the user; it
      puts a transfer of Transfer and the icons of Accounts together.
    - Caca: core/caca_image.cpp, pictures shared by reference counts.

    The plugins.
    - Url, Http: plugins/lib/http.c.  The encoding of a form, connections, cookies.
    - CoinCoin: plugins/coincoin (message.c and coincoin.c), a board.
    - GayAttitude: plugins/gayattitude, threads of messages and buddies.

    The other files hold proofs: Logic, Calm and Effects the program logics; Members
    the links between nicks and channels, Closing the deletion of a channel; Queries,
    Safety and Talk the commands by what they may change; Session the whole of a
    session, Defects what goes wrong, AuthSession the session with its
    authentication; ImSafety, ImProps, ImAccountProps, ImStatus and XferProps the
    callbacks of libpurple in a session; IpcRefine, IpcSim and IpcSpec the daemon;
    RequestProofs and ConfigProofs the invariants behind RequestProps and
    ConfigProps; and the files in Props the properties of the parts they are named
    after (WrapProps those of Wrap and Accounts, BoardProps those of CoinCoin, GaProps
    those of GayAttitude).  Demo is one concrete session, at which theorems are
    evaluated.  This file holds the notations, the tactics and the lemmas on strings,
    lists and integers that the parts share.

    ** How the parts interact, and how this is modelled

    A method is a function of its arguments in the monad of its part.  A run
    ends with a value, with a C++ exception, or in undefined behaviour ([Stuck] in a
    session, [Crash] elsewhere: a dangling or NULL pointer, an index out of range, an
    uninitialised read, a failed assertion).  Fields are read and written where the
    code does it.

    The session calls src/im and libpurple.  A call that changes something there is
    an event of the trace; an answer is a function of the events so far, so that two
    calls may answer differently and the theorems hold for every behaviour of the
    library.  The callbacks libpurple may run inside such a call are not run: they
    are operations of their own (a message received, a user that enters a chat, a
    transfer that ends), in ImConv, ImLayer, ImAccount and ImXfer, over the same heap
    as the commands.  The results of the write system call are an input: a write may
    fail or be short at any point; Sock models the wrapper that makes it.

    The answers of [im::Auth] are parameters of the session; Auth models them from
    the mechanisms, and AuthSession instantiates the first with the second.
    A log line of a child becomes a line on its socket to the master; Ipc has both
    ends of the socket.  The transfers, the video calls and the requests have their
    own state machines, whose steps are libpurple's callbacks, timers and the messages
    of the user.  The configuration is a parameter of the session; Config models how
    it is read, Main when.  Both plugins ask pages through the requests of Http
    and are called with the answers.  Http names a callback by a number and a function
    of the environment says what requests the callback makes in turn; what a page
    says, once libxml2 or libpurple's XML parser has read it, is an input of the
    plugins.

    ** What is proved

    - The session.  [Members.wf] says that every pointer of the heap leads to a
      living object and that each channel user is known, once, by its nick and by
      its channel.  Joining, leaving, quitting, being kicked and the removal of
      nicks and servers keep it and do what they are meant to (Members).  So do the
      commands (Safety, Talk), and the ones that ask change nothing (Queries).
      [Session.lines_safe] puts them together: on any lines of a client, outside of
      three cases, the loop of [readIO] meets no undefined behaviour.  The three
      cases are real: Defects runs them.  Before it is registered a client reaches
      four commands only, and it is registered only after a mechanism of the
      configuration accepted its password or made its account.
    - The callbacks of libpurple keep the same invariant (ImProps): messages of any
      text and kind, the users of a chat, conversations and chats that open and close,
      nodes of the buddy list, transfers and rooms; no DCC follows a transfer that
      libpurple destroyed (XferProps).  A message is
      delivered line by line; a status channel goes with its last account (ImStatus);
      an account has one timer of reconnection at most, the delay of which doubles until
      it overflows, and the chats it waits for are joined in order (ImAccountProps).
    - The settings of a user are a record that the preferences implement; what is
      listed can be reached; no request of authorization uses freed data (WrapProps).
    - The texts.  The message parser ends on every line and reads back what the
      printer writes; stringtok visits the words of the text; nickize makes a valid
      nickname; markup2irc ends inside its text; DCC requests and log flags are read
      back.
    - The process.  A pid file that is there is respected, and the one that is written
      goes with the process unless a signal kills it (MainProps).
    - The configuration.  Reading ends on every file, keeps the tree of the sections,
      leaves every item it met with a value of its type and bounds, and reads back
      the text of a section.
    - The sockets.  A name comes from a certificate that was verified (SockProps).
    - The transfers.  The blocks given to send are the beginning of the file, each once,
      and nothing repeats what send did not take; the acknowledgements may be cut anywhere; a received file is what the other side
      sent, up to the announced size.  The path of an icon is freed once, by the
      callback that holds it; the names of files are not looked at (IconNickProps).
    - The requests.  No step reaches a freed question, unless the callback of an answer
      closed the question it answers; a form whose questions the
      user answers sets the fields in order and calls its callback once.
    - Pictures and calls.  An image is freed by the last object that holds it
      (CacaProps); a DCC chat belongs to one call and is deleted once (MediaProps).
    - The daemon.  The processes with their bytes refine an abstract system whose
      queues hold whole messages.  The children the master lists are bounded; every user
      sees the broadcasts in the order in which the master read them; and of two sessions
      of one user one is told to quit (IpcSpec).
    - The plugins.  No event, which comes whenever its callback is registered, makes a
      connection that was destroyed be used, and a handler that is freed has released
      everything; an answer cut anywhere is given
      whole to its callback; a form is encoded inside its buffer and decoded to the
      text (HttpProps, Url).  A board shows each message once, in order, with its text, and
      a written reference is resolved to the newest message with its time of day and
      number (BoardProps); a thread
      is asked for once and answered once (GaProps).

    ** Fuel, bounds and integers

    Loops that are not structural take fuel, and a theorem says that it is enough.
    - stringtok gets the length of the text plus one: each turn eats a character
      ([Util.Tok.tokens_reference]); the message parser eats one as well
      ([Message.parse_total]).  The loops of markup2irc get the length of what is
      left of their text ([MarkupIn.markup2irc_total]).
    - The search of a free nick gets the number of nicks plus one: the candidates
      differ ([first_free] below).  The search of a free name for a channel gets the
      number of channels, in the same way ([ImProps.createChannel_opens]); that of an
      ID for an account, the number of accounts ([ImAccountProps.new_name_fresh]).
    - The three loops of the configuration get the number of sections, which bounds
      the depth and the width of the tree ([ConfigProps.load_typed]).
    - [Registry.remove_users] gets the number of users of the server plus one.
    - [Request.fuel] is four times the questions that can be reached, plus five, and
      a deletion uses the number of nested fields ([RequestProps.requests_safe]).
    - The reads of a socket of the daemon take at most the 511 characters of the
      buffer of [ipc_read], one per unit of fuel; the loops of Sock end with the
      answers of the system they are given.
    - The loops over the calls of Media get the length of the list.
    - The cookies of an answer get the length of its headers: each turn leaves a
      shorter text ([HttpProps.cookies_fuel] says that more changes nothing).  The
      loops over the text of a message of a board get its length; [readable] says
      that the loop did not stop for want of it, and is shown of every text of
      printable ASCII ([BoardProps.ascii_readable]).
    Machine integers are in Z, with their conversions ([s2t] saturates as the C++
    streams do, acknowledgements are 32 bits in network order, the references of a
    board have 32 bits, sizes are the declared C types) written out where the code has
    them.

    ** Hypotheses

    They are named, and a witness of each theorem shows them met.
    - [generate_ok]: [Auth::generate] makes the account or throws, but does not
      answer false ([Auth.generated_makes] shows it of the mechanisms of Auth).
    - [icons_below]: the icons that libpurple keeps are below the directory of the user.
    - Callbacks of chats: [node_ok], [ready] and [call_fits] say that libpurple and the
      session agree on who is known and who is on a channel; ImProps shows what
      happens when they do not.  [im_ready] and [chat_chan]: the nick or the channel of a
      conversation is one of the session; [stranger]: nobody of the session speaks for it.
      [UiInts] and [OptStore]: an integer or an option that was stored is read back.
    - XferProps: [no_null], a room has no NULL text; [fits], the nick that leaves is not
      the user himself; [steady], libpurple listens and no client lets a transfer time out.
    - Members: [listed_once], for one conclusion about a nick that was not renamed.
    - MarkupIn: [whole], the text has no sequence of UTF-8 that is cut.
    - Main: [pid_int], a process number is an [int] that is not negative.
    - Sock: [again_not_fatal], an answer of GnuTLS to try again is not a fatal one.
    - Caca: [loads_sound], an image that is loaded has a width and a height;
      [legal_run], objects are used between their construction and their destruction.
    - Media: [given], libpurple gives no NULL call.
    - Ipc: [Hwhole], the sockets take a line at once (when they do not, the code
      throws the rest away); [Hsock], they report no error;
      [Hirc], the session of a child was built without an exception.
    - IconNick: [parses], the numbers of a DCC request can be read (s2t leaves the others
      uninitialised); [readable_icons], a picture can be read when there is no
      temporary file.
    - Transfer: [growing], the file to send only grows; fwrite writes all it is given.
    - Request: [calls_ok], libpurple gives a callback to each input it asks for;
      [step_ok], a PRIVMSG has an argument.  Callbacks may ask and close anything.
    - Http: [good_request] and [asks_well], a POST has data (all the calls of the
      plugins do).  What libpurple holds for a handler (descriptors, secure connections,
      attempts to connect, watches) is the set [held], which the calls of purple_* change
      as they are documented.  Url: g_realloc has memory.  BoardProps: [sound], a post that
      has all its children has the parts that the code reads without a test (the others are
      skipped); the numbers of the messages are those that the reading gives.  GaProps: [roomy], the counters of threads do not wrap.
    A theorem about a run says nothing after an uncaught exception, because the
    process ends there; the exceptions that do escape are in Defects and in the
    examples of the parts.

    ** Not modelled

    - In im/: the tables of callbacks that are given to libpurple, the casts between
      its types, and the set-up of GStreamer of im/media.cpp (init, uninit and the two
      functions that make video sources).
    - core/mutex.cpp, core/callback.h and the use of glib_input_add: locks and objects
      that wrap a call; the callbacks are steps of the models.  core/version.h,
      irc/replies.h: constants.
    - EndSessionCleanup of the TLS wrapper, which nothing calls; is_ip of
      core/util.cpp, which nothing calls either; http_gunzip of plugins/lib/http.c,
      which is not built because nothing defines HAVE_ZLIB.
    - The declarations of the two plugins to libpurple, the parsers of XML and HTML
      they call and their queries.
    - The scripts and the tests: clients in other languages. *)

From Stdlib Require Export ZArith Lia Ascii.
From Stdlib Require Finite.
From stdpp Require Export base decidable list gmap strings sorting.
From stdpp Require Import options.

#[global] Open Scope Z_scope.
#[global] Set Default Goal Selector "1".

(** * Notations and automation shared by every component *)

#[global] Arguments Ascii.eqb : simpl never.

Declare Scope minbif_scope.
Delimit Scope minbif_scope with minbif.

(** [c ∈c s]: the character [c] occurs in the C string [s] (strchr). *)
Fixpoint has_char (c : ascii) (s : string) : bool :=
  match s with
  | EmptyString => false
  | String x s' => Ascii.eqb x c || has_char c s'
  end.

Notation "c ∈c s" := (has_char c s) (at level 70) : minbif_scope.
#[global] Open Scope minbif_scope.

Ltac dm :=
  match goal with
  | |- context [match ?x with _ => _ end] => destruct x eqn:?
  end.
Ltac dmh H :=
  match type of H with
  | context [match ?x with _ => _ end] => destruct x eqn:?
  end.

Ltac ascii_cases :=
  repeat match goal with
  | H : Ascii.eqb _ _ = true |- _ => apply Ascii.eqb_eq in H; subst
  | H : Ascii.eqb ?x ?y = false |- _ => apply Ascii.eqb_neq in H
  | H : orb _ _ = false |- _ => apply orb_false_iff in H as [? ?]
  | H : andb _ _ = true |- _ => apply andb_true_iff in H as [? ?]
  end.

Create HintDb minbif discriminated.
#[export] Hint Constants Opaque : minbif.
Create Rewrite HintDb minbif_str.

(** * std::string *)

Fixpoint slen (s : string) : nat :=
  match s with EmptyString => 0%nat | String _ s' => S (slen s') end.

(** [s.substr(n)] for [n <= size] (the code never passes a larger one). *)
Fixpoint sdrop (n : nat) (s : string) : string :=
  match n, s with
  | O, _ => s
  | S _, EmptyString => EmptyString
  | S n', String _ s' => sdrop n' s'
  end.

(** [s.substr(0, n)]. *)
Fixpoint stake (n : nat) (s : string) : string :=
  match n, s with
  | O, _ => EmptyString
  | S _, EmptyString => EmptyString
  | S n', String c s' => String c (stake n' s')
  end.

(** [s.substr(pos, len)]. *)
Definition substr (pos len : nat) (s : string) : string := stake len (sdrop pos s).

Definition sempty (s : string) : bool :=
  match s with EmptyString => true | _ => false end.

(** [s[0]]: the terminating NUL when the string is empty. *)
Definition shead (s : string) : ascii :=
  match s with EmptyString => "000"%char | String c _ => c end.

(** [s[s.size()-1]]; [None] is the read before the buffer of an empty string. *)
Fixpoint slast (s : string) : option ascii :=
  match s with
  | EmptyString => None
  | String c EmptyString => Some c
  | String _ s' => slast s'
  end.

(** [find_first_of(delims, 0)] and [find_first_not_of(delims, 0)]. *)
Fixpoint find_if (p : ascii -> bool) (s : string) : option nat :=
  match s with
  | EmptyString => None
  | String c s' => if p c then Some 0%nat else S <$> find_if p s'
  end.

Definition find_first_not_of (delims s : string) (i : nat) : option nat :=
  (fun k => (i + k)%nat) <$> find_if (fun c => negb (has_char c delims)) (sdrop i s).
Definition find_first_of (delims s : string) (i : nat) : option nat :=
  (fun k => (i + k)%nat) <$> find_if (fun c => has_char c delims) (sdrop i s).

(** [s.find(pat)] as a boolean test of the position 0 ([find(pat) == 0]) and as
    a membership test ([find(pat) != npos]). *)
Definition prefix_of (p s : string) : bool := String.prefix p s.
Fixpoint contains (p s : string) : bool :=
  String.prefix p s ||
  match s with EmptyString => false | String _ s' => contains p s' end.

Fixpoint smap (f : ascii -> ascii) (s : string) : string :=
  match s with EmptyString => EmptyString | String c s' => String (f c) (smap f s') end.
Fixpoint sfilter (p : ascii -> bool) (s : string) : string :=
  match s with
  | EmptyString => EmptyString
  | String c s' => if p c then String c (sfilter p s') else sfilter p s'
  end.
Fixpoint sall (p : ascii -> bool) (s : string) : bool :=
  match s with EmptyString => true | String c s' => p c && sall p s' end.

Definition code (c : ascii) : Z := Z.of_nat (nat_of_ascii c).
Definition isdigit (c : ascii) : bool := (48 <=? code c) && (code c <=? 57).
Definition chr (z : Z) : ascii := ascii_of_nat (Z.to_nat z).

(** Decimal printing of [operator<<] on an integer ([t2s]). *)
Fixpoint dec_digits (fuel : nat) (z : Z) (acc : string) : string :=
  match fuel with
  | O => acc
  | S k =>
    let acc' := String (chr (48 + z mod 10)) acc in
    if z <? 10 then acc' else dec_digits k (z / 10) acc'
  end.
(** 20 digits hold every integer below 10^20, hence every 64-bit value. *)
Definition t2s (z : Z) : string :=
  if z <? 0 then String "-" (dec_digits 20 (- z) "") else dec_digits 20 z "".

(** Upper-case hexadecimal ([%X]). *)
Fixpoint hex_digits (fuel : nat) (z : Z) (acc : string) : string :=
  match fuel with
  | O => acc
  | S k =>
    let d := z mod 16 in
    let acc' := String (chr (if d <? 10 then 48 + d else 55 + d)) acc in
    if z <? 16 then acc' else hex_digits k (z / 16) acc'
  end.
Definition t2hex (z : Z) : string := hex_digits 16 z EmptyString.

(** ** Lemmas on strings *)

Lemma app_nil_s s : (s +:+ "")%string = s.
Proof. induction s; cbn; [done|]. by rewrite <- IHs at 2. Qed.
Lemma app_cons_s c s t : String c s +:+ t = String c (s +:+ t).
Proof. done. Qed.
Lemma app_nil_l_s s : "" +:+ s = s.
Proof. done. Qed.
Lemma app_assoc_s s t u : (s +:+ t) +:+ u = s +:+ (t +:+ u).
Proof. induction s; [done|]. rewrite !app_cons_s. by f_equal. Qed.

Lemma slen_app s t : slen (s +:+ t) = (slen s + slen t)%nat.
Proof. induction s; [done|]. rewrite app_cons_s. cbn. lia. Qed.
Lemma has_char_app c s t : has_char c (s +:+ t) = has_char c s || has_char c t.
Proof.
  induction s; [done|]. rewrite app_cons_s. cbn. rewrite IHs. by rewrite orb_assoc.
Qed.
Lemma sall_app p s t : sall p (s +:+ t) = sall p s && sall p t.
Proof.
  induction s; [done|]. rewrite app_cons_s. cbn. rewrite IHs. by rewrite andb_assoc.
Qed.
Lemma sempty_spec s : sempty s = true <-> s = "".
Proof. destruct s; naive_solver. Qed.
Lemma sempty_app s t : sempty (s +:+ t) = sempty s && sempty t.
Proof. by destruct s. Qed.
Lemma stake_drop n s : stake n s +:+ sdrop n s = s.
Proof.
  revert s. induction n; intros [|c s]; try done. cbn [stake sdrop].
  rewrite app_cons_s. by rewrite IHn.
Qed.
Lemma stake_app s t : stake (slen s) (s +:+ t) = s.
Proof. induction s as [|c s IH]; [by destruct t|]. rewrite app_cons_s. cbn. by rewrite IH. Qed.
Lemma stake_app_r n s t : stake (slen s + n) (s +:+ t) = s +:+ stake n t.
Proof. induction s as [|c s IH]; [done|]. rewrite !app_cons_s. cbn. by rewrite <- IH. Qed.
Lemma sdrop_app_s s t : sdrop (slen s) (s +:+ t) = t.
Proof. induction s as [|c s IH]; [done|]. by rewrite app_cons_s. Qed.
Lemma stake_all s : stake (slen s) s = s.
Proof. induction s as [|c s IH]; [done|]. cbn. by rewrite IH. Qed.
(** Names made free by underscores: among one more of them than there are names in
    use, one is free. *)
Fixpoint underscores (k : nat) : string :=
  match k with O => "" | S k => String "_" (underscores k) end.
Lemma underscores_snoc k s : (s +:+ "_") +:+ underscores k = s +:+ underscores (S k).
Proof. rewrite app_assoc_s. done. Qed.
Lemma slen_underscores k : slen (underscores k) = k.
Proof. induction k; cbn; auto. Qed.
Lemma first_free (f : string -> string) (keys : list string) (s : string) :
  (forall s, slen (f s) = slen s) ->
  exists k, (k <= length keys)%nat /\ (f (s +:+ underscores k) ∉ keys)
    /\ forall j, (j < k)%nat -> f (s +:+ underscores j) ∈ keys.
Proof.
  intros Hf. set (cand := fun k => f (s +:+ underscores k)).
  assert (H : forall n, (exists k, (k < n)%nat /\ (cand k ∉ keys) /\ forall j, (j < k)%nat -> cand j ∈ keys)
                        \/ forall j, (j < n)%nat -> cand j ∈ keys).
  { induction n as [|n [IH|IH]]; [right; lia|left; destruct IH as (k & ? & ? & ?); exists k; split; [lia|by split]|].
    destruct (decide (cand n ∈ keys)) as [Hn|Hn]; [|left; exists n; split; [lia|by split]].
    right. intros j Hj. destruct (decide (j = n)) as [->|]; [done|]. apply IH. lia. }
  destruct (H (S (length keys))) as [(k & Hk & ? & ?)|Hall]; [exists k; split; [lia|by split]|exfalso].
  assert (ND : NoDup (map cand (seq 0 (S (length keys))))).
  { apply NoDup_ListNoDup, Finite.Injective_map_NoDup; [|apply List.seq_NoDup].
    intros a b Hab%(f_equal slen). unfold cand in Hab. rewrite !Hf, !slen_app, !slen_underscores in Hab. lia. }
  assert (Hinc : map cand (seq 0 (S (length keys))) ⊆ keys).
  { intros x Hx%list_elem_of_In. apply List.in_map_iff in Hx as (k & <- & Hk%List.in_seq). apply Hall. lia. }
  apply NoDup_submseteq in Hinc; [|done].
  apply submseteq_length in Hinc. rewrite List.length_map, List.length_seq in Hinc. lia.
Qed.
Lemma slen_stake n s : slen (stake n s) = Nat.min n (slen s).
Proof. revert s. induction n; intros [|c s]; cbn; auto. Qed.
Lemma slen_drop n s : slen (sdrop n s) = (slen s - n)%nat.
Proof. revert s. induction n; intros [|c s]; cbn; auto. Qed.
Lemma sdrop_add n m s : sdrop (n + m) s = sdrop m (sdrop n s).
Proof. revert s. induction n; intros [|c s]; cbn; auto. by destruct m. Qed.
Lemma find_if_drop p s k c t :
  find_if p s = Some k -> sdrop k s = String c t -> p c = true.
Proof.
  revert k. induction s as [|x s IH]; [done|]. intros [|k] Hk Hd; cbn in *.
  - injection Hd as -> ->. destruct (p c); [done|]. by destruct (find_if p t).
  - destruct (p x); [done|]. destruct (find_if p s) as [k'|]; [|done].
    injection Hk as ->. eauto.
Qed.
Lemma sall_stake p n s : sall p s = true -> sall p (stake n s) = true.
Proof.
  revert s. induction n; intros [|c s]; cbn; auto.
  intros [-> ?]%andb_true_iff. by rewrite IHn.
Qed.
Lemma sall_filter p s : sall p (sfilter p s) = true.
Proof. induction s; cbn; [done|]. destruct (p a) eqn:E; cbn; [by rewrite E|done]. Qed.
Lemma sall_has_char p c s : sall p s = true -> p c = false -> has_char c s = false.
Proof.
  induction s; cbn; [done|]. intros [Ha Hs]%andb_true_iff Hc.
  rewrite IHs by done. rewrite orb_false_r. apply Ascii.eqb_neq. intros ->. congruence.
Qed.
Lemma slast_app s t : t <> "" -> slast (s +:+ t) = slast t.
Proof.
  intros Ht. induction s; [done|]. rewrite app_cons_s. rewrite <- IHs.
  destruct (s +:+ t) eqn:E; [|done]. by destruct s, t.
Qed.

#[export] Hint Rewrite app_nil_s app_cons_s app_assoc_s slen_app has_char_app
  sall_app sempty_app : minbif_str.
Ltac ssimp := autorewrite with minbif_str in *; cbn in *.

(** * Outcomes

    What a C++ call does: return, throw one of the program's exceptions, or run
    into behaviour C++ does not define (a failed [assert], a null or dangling
    pointer, a read before a buffer), which [Stuck] names. *)

Inductive exn :=
| MalformedMessage
| SockError (reason : string).

Inductive outcome (A : Type) :=
| Ret (a : A)
| Throw (e : exn)
| Stuck (why : string).
Arguments Ret {A} a.
Arguments Throw {A} e.
Arguments Stuck {A} why.

Definition obind {A B} (m : outcome A) (k : A -> outcome B) : outcome B :=
  match m with Ret a => k a | Throw e => Throw e | Stuck w => Stuck w end.
Notation "'olet' x := m ; k" := (obind m (fun x => k))
  (at level 10, x binder, m at level 100, k at level 200) : minbif_scope.

Definition returns {A} (m : outcome A) : bool :=
  match m with Ret _ => true | _ => false end.
(** The call did not run into undefined behaviour. *)
Definition defined {A} (m : outcome A) : bool :=
  match m with Stuck _ => false | _ => true end.

Lemma obind_ret {A B} (a : A) (k : A -> outcome B) : obind (Ret a) k = k a.
Proof. done. Qed.
Lemma obind_assoc {A B C} (m : outcome A) (k : A -> outcome B) (h : B -> outcome C) :
  obind (obind m k) h = obind m (fun a => obind (k a) h).
Proof. by destruct m. Qed.
Lemma obind_inv {A B} (m : outcome A) (k : A -> outcome B) b :
  obind m k = Ret b -> exists a, m = Ret a /\ k a = Ret b.
Proof. destruct m; cbn; [eauto|done..]. Qed.
