(* ===== verification/Util.v ===== *)
(** core/util.cpp: the tokenizer every parser of the program is built on, the
    case conversions and the IRC-to-markup translation. *)

From S2P Require Import Prelude.

(** * stringtok *)

Module Tok.

(** [string stringtok(string &in, const char* delimiters)]: the token and the
    new value of [in]. *)
Definition stringtok (in_ delimiters : string) : string * string :=
  let i := find_first_not_of delimiters in_ 0 in
  let j := match i with Some i => find_first_of delimiters in_ i | None => None end in
  match j with
  | None =>
    (match i with None => "" | Some i => sdrop i in_ end, "")
  | Some j =>
    let i := default 0%nat i in
    (substr i (j - i) in_, sdrop (j + 1) in_)
  end.

(** [while((tok = stringtok(in, delimiters)).empty() == false) ...]: the
    tokens the loop visits; [slen in + 1] iterations are enough
    ([tokens_eq]). *)
Fixpoint tokens_fuel (n : nat) (delimiters in_ : string) : list string :=
  match n with
  | O => []
  | S n =>
    let '(tok, rest) := stringtok in_ delimiters in
    if sempty tok then [] else tok :: tokens_fuel n delimiters rest
  end.
Definition tokens (delimiters in_ : string) : list string :=
  tokens_fuel (S (slen in_)) delimiters in_.

(** Reference: skip the delimiters, take the run up to the next one, eat it. *)
Fixpoint skip_delims (ds s : string) : string :=
  match s with
  | EmptyString => EmptyString
  | String c s' => if has_char c ds then skip_delims ds s' else s
  end.
Fixpoint take_run (ds s : string) : string :=
  match s with
  | EmptyString => EmptyString
  | String c s' => if has_char c ds then EmptyString else String c (take_run ds s')
  end.
Fixpoint after_run (ds s : string) : string :=
  match s with
  | EmptyString => EmptyString
  | String c s' => if has_char c ds then s' else after_run ds s'
  end.
(** The words of [s]: its maximal runs of characters outside [ds]. *)
Fixpoint words (ds s cur : string) : list string :=
  match s with
  | EmptyString => if sempty cur then [] else [cur]
  | String c s' =>
    if has_char c ds
    then if sempty cur then words ds s' "" else cur :: words ds s' ""
    else words ds s' (cur +:+ String c "")
  end.

Definition free_of (ds s : string) : Prop := sall (fun c => negb (has_char c ds)) s = true.

(** ** The positions computed by the code are those of the reference *)

Lemma find_if_run ds s :
  match find_if (fun c => has_char c ds) s with
  | None => take_run ds s = s /\ after_run ds s = ""
  | Some j => take_run ds s = stake j s /\ after_run ds s = sdrop (S j) s
  end.
Proof.
  induction s as [|c s IH]; [done|]. cbn.
  destruct (has_char c ds) eqn:E; cbn; [done|].
  destruct (find_if _ s) eqn:F; cbn; destruct IH as [-> ->]; done.
Qed.

Lemma skip_find ds s :
  match find_if (fun c => negb (has_char c ds)) s with
  | None => skip_delims ds s = ""
  | Some i => skip_delims ds s = sdrop i s /\ sdrop i s <> ""
              /\ has_char (shead (sdrop i s)) ds = false
  end.
Proof.
  induction s as [|c s IH]; [done|]. cbn.
  destruct (has_char c ds) eqn:E; cbn; [|done].
  destruct (find_if _ s) eqn:F; cbn; done.
Qed.

Lemma stringtok_ref in_ ds :
  stringtok in_ ds =
    (take_run ds (skip_delims ds in_), after_run ds (skip_delims ds in_)).
Proof.
  unfold stringtok, find_first_not_of, find_first_of.
  pose proof (skip_find ds in_) as Hs. cbn [sdrop].
  destruct (find_if (fun c => negb _) in_) as [i|]; cbn; [|by rewrite Hs].
  destruct Hs as (-> & _ & _).
  pose proof (find_if_run ds (sdrop i in_)) as Hr.
  destruct (find_if _ (sdrop i in_)) as [k|]; cbn; destruct Hr as [-> ->]; [|done].
  unfold substr. replace (i + k - i)%nat with k by lia. f_equal.
  rewrite <- Nat.add_assoc, sdrop_add. f_equal. lia.
Qed.

Lemma take_run_free ds s : free_of ds (take_run ds s).
Proof.
  unfold free_of. induction s as [|c s IH]; [done|]. cbn.
  destruct (has_char c ds) eqn:E; cbn; [done|]. by rewrite E.
Qed.

Lemma skip_idem_run ds s :
  skip_delims ds s = "" \/
  exists c s', skip_delims ds s = String c s' /\ has_char c ds = false.
Proof.
  induction s as [|c s IH]; [by left|]. cbn.
  destruct (has_char c ds) eqn:E; [done|]. right. eauto.
Qed.

Lemma slen_skip ds s : (slen (skip_delims ds s) <= slen s)%nat.
Proof. induction s; cbn; [done|]. destruct (has_char a ds); cbn; lia. Qed.
Lemma slen_after ds s : (slen (after_run ds s) <= slen s)%nat.
Proof. induction s; cbn; [done|]. destruct (has_char a ds); cbn; lia. Qed.

(** A non-empty token leaves a strictly shorter rest. *)
Lemma stringtok_shrinks in_ ds tok rest :
  stringtok in_ ds = (tok, rest) -> tok <> "" -> (slen rest < slen in_)%nat.
Proof.
  rewrite stringtok_ref. intros [= <- <-] Hne.
  pose proof (slen_skip ds in_).
  destruct (skip_idem_run ds in_) as [Hs|(c & s' & Hs & Hc)]; rewrite Hs in *; [done|].
  cbn in *. rewrite Hc.
  pose proof (slen_after ds s'). lia.
Qed.

Lemma tokens_fuel_enough ds n m s :
  (slen s < n)%nat -> (slen s < m)%nat -> tokens_fuel n ds s = tokens_fuel m ds s.
Proof.
  revert m s. induction n as [|n IH]; intros [|m] s Hn Hm; try lia. cbn.
  destruct (stringtok s ds) as [tok rest] eqn:E.
  destruct (sempty tok) eqn:Et; [done|]. f_equal.
  assert (slen rest < slen s)%nat.
  { eapply stringtok_shrinks; [done|]. by intros ->. }
  apply IH; lia.
Qed.

(** The loop equation: [tokens] unfolds exactly as the [while] does. *)
Lemma tokens_eq ds s :
  tokens ds s =
    let '(tok, rest) := stringtok s ds in
    if sempty tok then [] else tok :: tokens ds rest.
Proof.
  unfold tokens. cbn [tokens_fuel]. destruct (stringtok s ds) as [tok rest] eqn:E.
  destruct (sempty tok) eqn:Et; [done|]. f_equal.
  change (tokens_fuel (slen s) ds rest = tokens_fuel (S (slen rest)) ds rest).
  apply tokens_fuel_enough; [|lia].
  assert (slen rest < slen s)%nat; [|lia].
  eapply stringtok_shrinks; [done|]. by intros ->.
Qed.

(** *** The tokens are the words *)

Lemma words_cur ds s cur :
  free_of ds cur ->
  words ds s cur =
    if sempty (cur +:+ take_run ds s) then words ds (after_run ds s) ""
    else (cur +:+ take_run ds s) :: words ds (after_run ds s) "".
Proof.
  revert cur. induction s as [|c s IH]; intros cur Hc.
  - cbn. rewrite app_nil_s. by destruct cur.
  - cbn. destruct (has_char c ds) eqn:E; cbn.
    + rewrite app_nil_s. by destruct cur.
    + rewrite IH.
      * rewrite app_assoc_s. cbn. done.
      * unfold free_of. rewrite sall_app. cbn. rewrite E. unfold free_of in Hc.
        by rewrite Hc.
Qed.

Lemma words_skip ds s : words ds s "" = words ds (skip_delims ds s) "".
Proof. induction s as [|c s IH]; [done|]. cbn.
  destruct (has_char c ds) eqn:E; [exact IH|]. cbn. by rewrite E.
Qed.

Lemma tokens_words ds s : tokens ds s = words ds s "".
Proof.
  remember (slen s) as n eqn:Hn. revert s Hn.
  induction n as [n IH] using lt_wf_ind. intros s ->.
  rewrite tokens_eq, words_skip, words_cur by done.
  destruct (stringtok s ds) as [tok rest] eqn:E.
  pose proof (stringtok_shrinks s ds tok rest E) as Hsh.
  rewrite stringtok_ref in E. injection E as <- <-. cbn [String.app].
  destruct (sempty (take_run ds (skip_delims ds s))) eqn:Et.
  - apply sempty_spec in Et. rewrite app_nil_l_s, Et. cbn.
    destruct (skip_idem_run ds s) as [->|(c & s' & Hs & Hc)]; [done|].
    rewrite Hs in Et. cbn in Et. by rewrite Hc in Et.
  - rewrite app_nil_l_s, Et. f_equal. eapply IH; [|done]. apply Hsh.
    intros Hn. by rewrite Hn in Et.
Qed.

Lemma tokens_free ds s : Forall (fun t => t <> "" /\ free_of ds t) (tokens ds s).
Proof.
  remember (slen s) as n eqn:Hn. revert s Hn.
  induction n as [n IH] using lt_wf_ind. intros s ->.
  rewrite tokens_eq. destruct (stringtok s ds) as [tok rest] eqn:E.
  destruct (sempty tok) eqn:Et; [done|]. constructor.
  - split; [by intros ->|]. rewrite stringtok_ref in E. injection E as <- _.
    apply take_run_free.
  - eapply IH; [|done]. eapply stringtok_shrinks; [done|]. by intros ->.
Qed.

(** The loop on [stringtok] ends and visits the words of the text, its maximal
    runs of characters which are no delimiters, in order. *)
Theorem tokens_reference (ds s : string) :
  tokens ds s = words ds s "" /\ Forall (fun t => t <> "" /\ free_of ds t) (tokens ds s)
  /\ forall n, (slen s < n)%nat -> tokens_fuel n ds s = tokens ds s.
Proof.
  split; [apply tokens_words|]. split; [apply tokens_free|]. intros n Hn.
  unfold tokens. apply tokens_fuel_enough; lia.
Qed.
Lemma tokens_reference_witness : tokens_fuel 9 " " " to be " = tokens " " " to be ".
Proof. apply (tokens_reference " " " to be "). cbn. lia. Defined.
End Tok.

(** * strupper, strlower *)

Module Case.
(** [toupper] and [tolower] of the C locale on one byte. *)
Definition toupper (c : ascii) : ascii :=
  if (97 <=? code c) && (code c <=? 122) then chr (code c - 32) else c.
Definition tolower (c : ascii) : ascii :=
  if (65 <=? code c) && (code c <=? 90) then chr (code c + 32) else c.

Definition strupper (s : string) : string := smap toupper s.
Definition strlower (s : string) : string := smap tolower s.

Lemma tolower_idem c : tolower (tolower c) = tolower c.
Proof. by destruct c as [[] [] [] [] [] [] [] []]. Qed.
Lemma strlower_idem s : strlower (strlower s) = strlower s.
Proof. unfold strlower. induction s; cbn; [done|]. by rewrite tolower_idem, IHs. Qed.
Lemma toupper_idem c : toupper (toupper c) = toupper c.
Proof. by destruct c as [[] [] [] [] [] [] [] []]. Qed.
Lemma toupper_space c : toupper c = " "%char -> c = " "%char.
Proof. destruct c as [[] [] [] [] [] [] [] []]; cbn; intros [=]; done. Qed.
Lemma strupper_idem s : strupper (strupper s) = strupper s.
Proof. unfold strupper. induction s; cbn; [done|]. by rewrite toupper_idem, IHs. Qed.
Lemma strupper_empty s : strupper s = "" <-> s = "".
Proof. by destruct s. Qed.
Lemma strupper_no_space s : has_char " " s = false -> has_char " " (strupper s) = false.
Proof.
  unfold strupper. induction s as [|c s IH]; cbn; [done|]. intros [Hc Hs]%orb_false_iff.
  rewrite IH by done. rewrite orb_false_r. apply Ascii.eqb_neq. intros E.
  apply toupper_space in E. by apply Ascii.eqb_neq in Hc.
Qed.
End Case.

(** * irc2markup *)

Module Markup.

Definition irc_colors : list (string * string) :=
  [("00", "white"); ("01", "black"); ("02", "blue"); ("03", "dark green");
   ("04", "red"); ("05", "brown"); ("06", "purple"); ("07", "orange");
   ("08", "yellow"); ("09", "green"); ("10", "teal"); ("11", "cyan");
   ("12", "light blue"); ("13", "pink"); ("14", "grey"); ("15", "light grey")]%string.
Definition color_name (n : Z) : string :=
  match nth_error irc_colors (Z.to_nat n) with Some (_, name) => name | None => "" end.

(** The local variables of the loop. *)
Record st := St {
  font : bool; bold : bool; underline : bool; italic : bool; decoded : string }.

Definition append (t : string) (s : st) : st :=
  St (font s) (bold s) (underline s) (italic s) (decoded s +:+ t).

Definition dquote : string := String "034" EmptyString.

Definition ctl : string := (* "\002\003\007\017\026\037" *)
  String "002" (String "003" (String "007" (String "015" (String "022" (String "031" ""))))).

(** [if(isdigit( *cur)) buf[k] = *cur++;] *)
Definition opt_digit (cur : string) : string * string :=
  match cur with
  | String c cur' => if isdigit c then (String c "", cur') else ("", cur)
  | _ => ("", cur)
  end.

(** [atoi] on a buffer of at most two digits. *)
Fixpoint atoi_acc (acc : Z) (s : string) : Z :=
  match s with String c s' => atoi_acc (10 * acc + (code c - 48)) s' | _ => acc end.
Definition atoi := atoi_acc 0.

(** The [case '\003'] of the switch; [cur] is past the control character. *)
Definition color_case (cur : string) (s : st) : string * st :=
  let '(fg0, cur) := opt_digit cur in
  let '(fg1, cur) := opt_digit cur in
  let '(bg, cur) :=
    match cur with
    | String c cur' =>
      if Ascii.eqb c ","
      then let '(bg0, cur) := opt_digit cur' in
           let '(bg1, cur) := opt_digit cur in ((bg0, bg1), cur)
      else (("", ""), cur)
    | _ => (("", ""), cur)
    end in
  let s := if font s
           then St false (bold s) (underline s) (italic s) (decoded s +:+ "</FONT>")
           else s in
  if sempty fg0 then (cur, s)
  else
    let fgnum := atoi (fg0 +:+ fg1) in
    if (fgnum <? 0) || (15 <? fgnum) then (cur, s)
    else
      let s := St true (bold s) (underline s) (italic s)
                  (decoded s +:+ "<FONT COLOR=" +:+ dquote +:+ color_name fgnum +:+ dquote) in
      let s := if sempty bg.1 then s
               else let bgnum := atoi (bg.1 +:+ bg.2) in
                    if (0 <=? bgnum) && (bgnum <? 16)
                    then append (" BACK=" +:+ dquote +:+ color_name bgnum +:+ dquote) s
                    else s in
      (cur, append ">" s).

(** The closing tags of [case '\017'] and of the end of the text. *)
Definition close_all (s : st) : st :=
  let t := (if bold s then "</B>" else "") +:+ (if italic s then "</I>" else "")
           +:+ (if underline s then "</U>" else "")
           +:+ (if font s then "</FONT>" else "") in
  append t s.

Section Loop.
(** [g_markup_escape_text] (GLib). *)
Variable escape : string -> string.

Definition toggle (on : bool) (open close : string) : string :=
  if on then close else open.

(** One iteration of the [do ... while] from the position [cur]: the
    position it leaves and the variables.  A control character is consumed
    ([cur++]); at the terminating NUL the position stays. *)
Definition step (cur : string) (s : st) : string * st :=
  let s := append (escape (Tok.take_run ctl cur)) s in
  let k := find_if (fun c => has_char c ctl) cur in
  let cur := match k with Some k => sdrop k cur | None => "" end in
  match cur with
  | EmptyString => ("", close_all s)
  | String c cur' =>
    if Ascii.eqb c "002" then
      (cur', St (font s) (negb (bold s)) (underline s) (italic s)
                (decoded s +:+ toggle (bold s) "<B>" "</B>"))
    else if Ascii.eqb c "003" then color_case cur' s
    else if Ascii.eqb c "009" then
      (cur', St (font s) (bold s) (underline s) (negb (italic s))
                (decoded s +:+ toggle (italic s) "<I>" "</I>"))
    else if Ascii.eqb c "031" then
      (cur', St (font s) (bold s) (negb (underline s)) (italic s)
                (decoded s +:+ toggle (underline s) "<U>" "</U>"))
    else if Ascii.eqb c "007" || Ascii.eqb c "022" then (cur', s)
    else if Ascii.eqb c "015" then (cur', close_all s)
    else (cur, s)
  end.

Fixpoint loop (fuel : nat) (cur : string) (s : st) : option st :=
  match fuel with
  | O => None
  | S fuel =>
    let '(cur, s) := step cur s in
    if sempty cur then Some s else loop fuel cur s
  end.

(** [gchar* irc2markup(const gchar* string)]; [None] is a loop still running
    after [strlen + 1] iterations, which never happens ([irc2markup_total]). *)
Definition irc2markup (string_ : string) : option string :=
  decoded <$> loop (S (slen string_)) string_ (St false false false false "").

(** ** Termination *)

Lemma opt_digit_len cur : (slen (opt_digit cur).2 <= slen cur)%nat.
Proof. destruct cur; cbn; [done|]. destruct (isdigit a); cbn; lia. Qed.

Lemma color_case_len cur s : (slen (color_case cur s).1 <= slen cur)%nat.
Proof.
  unfold color_case.
  pose proof (opt_digit_len cur) as H1. destruct (opt_digit cur) as [fg0 c1].
  pose proof (opt_digit_len c1) as H2. destruct (opt_digit c1) as [fg1 c2]. cbn in *.
  assert (H : exists bg c3, (slen c3 <= slen c2)%nat /\
    match c2 with
    | String c cur' =>
      if Ascii.eqb c ","
      then let '(bg0, cur) := opt_digit cur' in
           let '(bg1, cur) := opt_digit cur in ((bg0, bg1), cur)
      else (("", ""), c2)
    | _ => (("", ""), c2)
    end = (bg, c3)).
  { destruct c2 as [|c c2]; [by eexists _, _|].
    destruct (Ascii.eqb c ","); [|by eexists _, _].
    pose proof (opt_digit_len c2) as H3. destruct (opt_digit c2) as [b0 c4].
    pose proof (opt_digit_len c4) as H4. destruct (opt_digit c4) as [b1 c5].
    eexists _, _. split; [|done]. cbn in *. lia. }
  destruct H as (bg & c3 & Hl & ->).
  repeat (case_match; cbn); lia.
Qed.

Lemma step_shrinks cur s :
  (step cur s).1 = "" \/ (slen (step cur s).1 < slen cur)%nat.
Proof.
  unfold step. pose proof (Tok.find_if_run ctl cur) as _.
  destruct (find_if _ cur) as [k|] eqn:Hk; [|by left].
  destruct (sdrop k cur) as [|c cur'] eqn:Hd; [by left|]. right.
  assert (Hl : (slen cur' < slen cur)%nat).
  { apply (f_equal slen) in Hd. rewrite slen_drop in Hd. cbn in Hd. lia. }
  assert (Hc : has_char c ctl = true).
  { by apply (find_if_drop _ _ _ _ _ Hk Hd). }
  pose proof (color_case_len cur' (append (escape (Tok.take_run ctl cur)) s)).
  unfold ctl in Hc. cbn in Hc.
  rewrite (Ascii.eqb_sym c "002"), (Ascii.eqb_sym c "003"), (Ascii.eqb_sym c "009"),
    (Ascii.eqb_sym c "031"), (Ascii.eqb_sym c "007"), (Ascii.eqb_sym c "022"),
    (Ascii.eqb_sym c "015").
  repeat (case_match; cbn; try lia).
  repeat match goal with H : orb _ _ = false |- _ => apply orb_false_iff in H as [? ?] end.
  repeat match goal with H : Ascii.eqb _ c = _ |- _ => rewrite H in Hc; clear H end. done.
Qed.

Lemma loop_total fuel cur s :
  (slen cur < fuel)%nat -> exists s', loop fuel cur s = Some s'.
Proof.
  revert cur s. induction fuel as [|fuel IH]; intros cur s Hf; [lia|]. cbn.
  pose proof (step_shrinks cur s) as Hs. destruct (step cur s) as [cur' s'].
  cbn in Hs. destruct (sempty cur') eqn:E; [by eexists|]. apply IH.
  destruct Hs as [->|Hs]; [done|lia].
Qed.

Lemma plain_step cur s :
  Tok.free_of ctl cur -> step cur s = ("", close_all (append (escape cur) s)).
Proof.
  unfold Tok.free_of. intros H.
  assert (Hk : find_if (fun c => has_char c ctl) cur = None /\ Tok.take_run ctl cur = cur).
  { induction cur as [|c cur IH]; [done|]. cbn [sall] in H.
    apply andb_true_iff in H as [Hc Hs]. cbn [find_if Tok.take_run].
    apply negb_true_iff in Hc. rewrite Hc. destruct (IH Hs) as [-> ->]. done. }
  unfold step. destruct Hk as [-> ->]. done.
Qed.

(** [irc2markup] ends on every text: every iteration of its loop eats a
    character or stops at the end, and a text without control characters is only
    escaped. *)
Theorem irc2markup_total (s : string) :
  exists t, irc2markup s = Some t /\ (Tok.free_of ctl s -> t = escape s).
Proof.
  unfold irc2markup. destruct (loop_total (S (slen s)) s (St false false false false "")) as [s' Hs'];
    [lia|]. rewrite Hs'. exists (decoded s'). split; [done|]. intros Hf.
  cbn [loop] in Hs'. rewrite (plain_step s _ Hf) in Hs'. cbn in Hs'. injection Hs' as <-. cbn.
  by rewrite !app_nil_s.
Qed.
End Loop.

Lemma irc2markup_total_witness : exists t, irc2markup (fun s => s) "hello" = Some t /\ t = "hello".
Proof.
  destruct (irc2markup_total (fun s => s) "hello") as (t & Ht & Hf).
  exists t. split; [exact Ht|apply Hf; reflexivity].
Defined.
End Markup.
