(* ===== verification/MarkupIn.v ===== *)
(** core/util.cpp: [markup2irc], the way from the markup of libpurple to the colours
    of IRC.  The pointers of the C code are the texts they point to. *)

From S2P Require Import Prelude Util.

Module M2I.
Section M2I.
(** [purple_strdup_withhtml] and [purple_markup_strip_html]. *)
Context (strdup_withhtml strip_html : string -> string).

(** [g_utf8_skip] and [g_utf8_next_char], which reads the first byte only: a
    sequence that is cut makes it jump over the final NUL. *)
Definition utf8_skip (c : ascii) : nat :=
  let z := code c in
  if z <? 192 then 1 else if z <? 224 then 2 else if z <? 240 then 3
  else if z <? 248 then 4 else if z <? 252 then 5 else if z <? 254 then 6 else 1.
Definition next_char (p : string) : outcome string :=
  if (utf8_skip (shead p) <=? slen p)%nat then Ret (sdrop (utf8_skip (shead p)) p)
  else Stuck "past the final NUL".
Definition at_nul (p : string) : bool := Ascii.eqb (shead p) "000".

(** [while( *p && !stop( *p)) p = g_utf8_next_char(p)] *)
Fixpoint scan_fuel (fuel : nat) (stop : ascii -> bool) (p : string) : outcome string :=
  match fuel with
  | O => Stuck "fuel"
  | S fuel =>
    if at_nul p || stop (shead p) then Ret p
    else olet p := next_char p; scan_fuel fuel stop p
  end.
Definition scan (stop : ascii -> bool) (p : string) : outcome string :=
  scan_fuel (S (slen p)) stop p.

(** The bytes from [p] to [q], a later place of the same text. *)
Definition between (p q : string) : string := stake (slen p - slen q) p.
(** [!strncasecmp(s, a, strlen(a))] *)
Definition iprefix (a s : string) : bool := prefix_of (Case.strlower a) (Case.strlower s).
Definition isc (c x : ascii) : bool := Ascii.eqb x c.

(** One attribute of a FONT tag, [color=] or [back=]: where its value starts. *)
Definition attribute (ptr : string) : option (bool * string) :=
  let unquote p := if isc "034" (shead p) then sdrop 1 p else p in
  if iprefix "color=" ptr then Some (true, unquote (sdrop 6 ptr))
  else if iprefix "back=" ptr then Some (false, unquote (sdrop 5 ptr))
  else None.

(** The loop over the attributes: the numbers of the foreground and background. *)
Fixpoint attributes (fuel : nat) (ptr : string) (foreground background : option string)
    : outcome (option string * option string) :=
  match fuel with
  | O => Stuck "fuel"
  | S fuel =>
    if at_nul ptr || isc ">" (shead ptr) then Ret (foreground, background)
    else
      match attribute ptr with
      | None => Ret (foreground, background)
      | Some (is_foreground, ptr) =>
        olet space := scan (isc "034") ptr;
        let num := fst <$> List.find (fun '(_, name) => iprefix (between ptr space) name)
                             Markup.irc_colors in
        let set last := match num with Some n => Some n | None => last end in
        let space := if isc "034" (shead space) then sdrop 1 space else space in
        olet ptr := scan (fun c => negb (isc " " c)) space;
        if (is_foreground : bool) then attributes fuel ptr (set foreground) background
        else attributes fuel ptr foreground (set background)
      end
  end.

(** The tag that starts after [<]: what is appended, and the text after it. *)
Definition tag (rest : string) : outcome (string * string) :=
  let closed := isc "/" (shead rest) in
  let ptr := if closed then sdrop 1 rest else rest in
  olet next := scan (isc ">") rest;
  olet next := (if at_nul next then Ret next else next_char next);
  let alone := (slen ptr =? slen next + 2)%nat in
  let literal := "<" +:+ (if closed then "/" else "") +:+ between ptr next in
  let c := Case.tolower (shead ptr) in
  if isc "i" c then Ret (if alone then String "031" (String "002" "") else "", next)
  else if isc "u" c then Ret (if alone then String "031" "" else "", next)
  else if isc "b" c then Ret (if alone then String "002" "" else literal, next)
  else if isc "f" c && closed && iprefix "FONT" ptr then Ret (String "003" "", next)
  else if isc "f" c && negb closed && iprefix "FONT " ptr then
    olet c := attributes (S (slen ptr)) (sdrop 5 ptr) None None;
    Ret (match c with
         | (Some fg, Some bg) => String "003" (fg +:+ "," +:+ bg)
         | (Some fg, None) => String "003" fg
         | (None, _) => ""
         end, next)
  else Ret (literal, next).

Fixpoint loop (fuel : nat) (ptr s : string) : outcome string :=
  match fuel with
  | O => Stuck "fuel"
  | S fuel =>
    if at_nul ptr then Ret s
    else
      olet next := next_char ptr;
      if isc "<" (shead ptr) then
        olet r := tag next; loop fuel r.2 (s +:+ r.1)
      else loop fuel next (s +:+ between ptr next)
  end.

Definition markup2irc (markup : string) : outcome string :=
  let newline := strdup_withhtml markup in
  olet s := loop (S (slen newline)) newline "";
  Ret (strip_html s).

(** ** Termination, inside the text *)

(** Every multibyte sequence of the text is whole. *)
Inductive whole : string -> Prop :=
| whole_end p : at_nul p = true -> whole p
| whole_next p q : next_char p = Ret q -> whole q -> whole p.

Lemma utf8_skip_pos c : (1 <= utf8_skip c)%nat.
Proof. unfold utf8_skip. repeat case_match; lia. Qed.
Lemma next_char_len p q : at_nul p = false -> next_char p = Ret q -> (slen q < slen p)%nat.
Proof.
  unfold next_char. case_match; [|done]. intros Hp [= <-]. rewrite slen_drop.
  pose proof (utf8_skip_pos (shead p)). destruct p; cbn in *; [done|lia].
Qed.
Lemma whole_inv p : whole p -> at_nul p = false -> exists q, next_char p = Ret q /\ whole q.
Proof. intros [? ->|? q]; [done|]. by exists q. Qed.

(** A character of one byte. *)
Definition plain (c : ascii) : bool := (0 <? code c) && (code c <? 192).
Lemma whole_plain c p : plain c = true -> whole (String c p) -> whole p.
Proof.
  intros [H1%Z.ltb_lt H2]%andb_true_iff W. destruct (whole_inv _ W) as (q & Hq & Wq).
  { unfold at_nul. cbn. apply Ascii.eqb_neq. by intros ->. }
  unfold next_char, utf8_skip in Hq. cbn [shead] in Hq. rewrite H2 in Hq. cbn in Hq. by injection Hq as <-.
Qed.
Lemma plain_lower c : plain (Case.tolower c) = true -> plain c = true.
Proof. by destruct c as [[] [] [] [] [] [] [] []]. Qed.
Lemma whole_tail c p : plain c = true -> isc c (shead p) = true -> whole p -> whole (sdrop 1 p).
Proof.
  unfold isc. intros Hc E%Ascii.eqb_eq W. destruct p as [|x p]; [done|]. cbn in E. subst.
  by apply whole_plain in W.
Qed.
Lemma whole_prefix a p :
  sall plain (Case.strlower a) = true -> iprefix a p = true -> whole p -> whole (sdrop (slen a) p).
Proof.
  unfold iprefix, prefix_of, Case.strlower. revert p. induction a as [|x a IH]; intros p Ha Hp W; [done|].
  destruct p as [|y p]; [done|]. cbn in *. apply andb_true_iff in Ha as [Hx Ha].
  destruct (ascii_dec _ _) as [E|]; [|done]. apply IH; [done|done|].
  eapply whole_plain; [|done]. apply plain_lower. by rewrite <- E.
Qed.

Lemma scan_total stop fuel p :
  whole p -> (slen p < fuel)%nat ->
  exists q, scan_fuel fuel stop p = Ret q /\ whole q /\ (slen q <= slen p)%nat
    /\ at_nul q || stop (shead q) = true.
Proof.
  revert p. induction fuel as [|fuel IH]; intros p W Hf; [lia|]. cbn [scan_fuel].
  destruct (at_nul p || stop (shead p)) eqn:E; [by exists p|].
  apply orb_false_iff in E as [E _]. destruct (whole_inv p W E) as (q & Hq & Wq).
  pose proof (next_char_len p q E Hq). rewrite Hq. cbn.
  destruct (IH q) as (r & Hr & Wr & Hl & Hs); [done|lia|]. exists r. split; [done|]. split; [done|].
  split; [lia|done].
Qed.
Lemma scan_ok stop p :
  whole p -> exists q, scan stop p = Ret q /\ whole q /\ (slen q <= slen p)%nat
    /\ at_nul q || stop (shead q) = true.
Proof. intros W. apply scan_total; [done|lia]. Qed.

Lemma slen_tail (b : bool) p : (slen (if b then sdrop 1 p else p) <= slen p)%nat.
Proof. destruct b; rewrite ?slen_drop; lia. Qed.
Lemma whole_if c p : plain c = true -> whole p -> whole (if isc c (shead p) then sdrop 1 p else p).
Proof. intros Hc W. destruct (isc c (shead p)) eqn:E; [by apply (whole_tail c)|done]. Qed.

Lemma attribute_ok p b q :
  whole p -> at_nul p = false -> attribute p = Some (b, q) -> whole q /\ (slen q < slen p)%nat.
Proof.
  unfold attribute. intros W E.
  assert (Hl : (0 < slen p)%nat) by (destruct p; cbn; [done|lia]).
  pose proof (slen_tail (isc "034" (shead (sdrop 6 p))) (sdrop 6 p)) as H6.
  pose proof (slen_tail (isc "034" (shead (sdrop 5 p))) (sdrop 5 p)) as H5.
  rewrite slen_drop in H5, H6.
  pose proof (whole_prefix "color=" p eq_refl) as P6. pose proof (whole_prefix "back=" p eq_refl) as P5.
  cbn [slen] in P5, P6. generalize dependent (sdrop 6 p). generalize dependent (sdrop 5 p).
  intros p5 H5 P5 p6 H6 P6. destruct (iprefix "color=" p); [|destruct (iprefix "back=" p); [|done]];
    intros [= _ <-]; (split; [apply whole_if; auto|eapply Nat.le_lt_trans; [apply H6 || apply H5|lia]]).
Qed.

Lemma attributes_total fuel p fg bg :
  whole p -> (slen p < fuel)%nat -> exists r, attributes fuel p fg bg = Ret r.
Proof.
  revert p fg bg. induction fuel as [|fuel IH]; intros p fg bg W Hf; [lia|]. cbn [attributes].
  destruct (at_nul p || isc ">" (shead p)) eqn:E; [by eexists|]. apply orb_false_iff in E as [E _].
  destruct (attribute p) as [[b q]|] eqn:Ea; [|by eexists].
  destruct (attribute_ok p b q W E Ea) as [Wq Hq].
  destruct (scan_ok (isc "034") q Wq) as (s & -> & Ws & Hs & _). cbn [obind].
  pose proof (slen_tail (isc "034" (shead s)) s). pose proof (whole_if "034" s eq_refl Ws) as Wt.
  destruct (scan_ok (fun c => negb (isc " " c)) _ Wt) as (t & -> & Wt' & Ht & _). cbn [obind].
  destruct b; apply IH; (done || lia).
Qed.

Lemma tag_total p : whole p -> exists t q, tag p = Ret (t, q) /\ whole q /\ (slen q <= slen p)%nat.
Proof.
  intros W. unfold tag. set (closed := isc "/" (shead p)).
  pose proof (whole_if "/" p eq_refl W) as Wp. fold closed in Wp.
  set (ptr := if closed then _ else _) in *.
  destruct (scan_ok (isc ">") p W) as (n & -> & Wn & Hn & Hs). cbn [obind].
  assert (H : exists q, (if at_nul n then Ret n else next_char n) = Ret q /\ whole q /\ (slen q <= slen p)%nat).
  { destruct (at_nul n) eqn:E; [by exists n|]. destruct (whole_inv n Wn E) as (q & Hq & Wq).
    exists q. pose proof (next_char_len n q E Hq). repeat split; [done|done|lia]. }
  destruct H as (q & -> & Wq & Hq). cbn [obind].
  repeat (case_match; [by eexists _, q|]).
  case_match; [|by eexists _, q].
  match goal with H : _ && iprefix "FONT " ptr = true |- _ => apply andb_true_iff in H as [_ Hf] end.
  destruct (attributes_total (S (slen ptr)) (sdrop 5 ptr) None None) as (r & ->).
  { by apply (whole_prefix "FONT "). } { rewrite slen_drop. lia. }
  by eexists _, q.
Qed.

Lemma m2i_loop_total fuel p s : whole p -> (slen p < fuel)%nat -> exists t, loop fuel p s = Ret t.
Proof.
  revert p s. induction fuel as [|fuel IH]; intros p s W Hf; [lia|]. cbn [loop].
  destruct (at_nul p) eqn:E; [by eexists|]. destruct (whole_inv p W E) as (q & Hq & Wq).
  pose proof (next_char_len p q E Hq). rewrite Hq. cbn [obind].
  destruct (isc "<" (shead p)); [|apply IH; [done|lia]].
  destruct (tag_total q Wq) as (t & r & -> & Wr & Hr). cbn. apply IH; [done|lia].
Qed.

Lemma has_char_drop c n p : has_char c p = false -> has_char c (sdrop n p) = false.
Proof.
  intros H. rewrite <- (stake_drop n p), has_char_app in H. by apply orb_false_iff in H as [_ H].
Qed.
Lemma loop_text fuel p s :
  whole p -> (slen p < fuel)%nat -> has_char "<" p = false -> has_char "000" p = false ->
  loop fuel p s = Ret (s +:+ p).
Proof.
  revert p s. induction fuel as [|fuel IH]; intros p s W Hf Hl Hz; [lia|]. cbn [loop].
  destruct p as [|c p]; [cbn; by rewrite app_nil_s|].
  assert (E : at_nul (String c p) = false) by (cbn in Hz; by apply orb_false_iff in Hz as [Hz _]).
  destruct (whole_inv _ W E) as (q & Hq & Wq). pose proof (next_char_len _ q E Hq) as Hlen.
  rewrite E, Hq. cbn [obind]. unfold next_char in Hq. case_match eqn:Hk; [|done]. injection Hq as <-.
  apply Nat.leb_le in Hk. unfold isc. cbn [shead] in *. cbn in Hl. apply orb_false_iff in Hl as [Hc Hl].
  rewrite Hc. rewrite IH; [|done|lia|apply has_char_drop; cbn; by rewrite Hc|by apply has_char_drop].
  unfold between. rewrite slen_drop. replace (_ - (_ - _))%nat with (utf8_skip c) by lia.
  by rewrite app_assoc_s, stake_drop.
Qed.
End M2I.
End M2I.
Import M2I.

(** C37: on every text whose multibyte sequences are whole, [markup2irc] ends and
    never reads past the final NUL, whatever its tags, closed or not; a text without
    tags goes through as it is, up to the stripping of libpurple. *)
Theorem markup2irc_total (strdup_withhtml strip_html : string -> string) (markup : string) :
  whole (strdup_withhtml markup) ->
  exists t, markup2irc strdup_withhtml strip_html markup = Ret (strip_html t)
    /\ (has_char "<" (strdup_withhtml markup) = false ->
        has_char "000" (strdup_withhtml markup) = false -> t = strdup_withhtml markup).
Proof.
  intros W. unfold markup2irc. set (p := strdup_withhtml markup) in *.
  destruct (m2i_loop_total (S (slen p)) p "" W) as [t Ht]; [lia|]. exists t. rewrite Ht. split; [done|].
  intros Hl Hz. rewrite loop_text in Ht by (done || lia). by injection Ht as <-.
Qed.
Lemma markup2irc_total_witness :
  exists t, markup2irc (fun s => s) (fun s => s) "caf" = Ret t /\ t = "caf".
Proof.
  destruct (markup2irc_total (fun s => s) (fun s => s) "caf") as (t & Ht & Hp).
  - do 3 (eapply whole_next; [reflexivity|]). by apply whole_end.
  - exists t. split; [exact Ht|apply Hp; reflexivity].
Defined.

(** What it makes of tags; [in_ s] is [s] read with quotes for double quotes. *)
Definition in_ (s : string) : outcome string :=
  markup2irc (smap (fun c => if isc "039" c then "034"%char else c)) (fun s => s) s.
Definition bold (s : string) : string := String "002" s.
Example tag_bold : in_ "<B>hi</B>!" = Ret (bold ("hi" +:+ bold "!")).
Proof. reflexivity. Qed.
Example tag_font :
  in_ "<FONT COLOR='red' BACK='blue'>x</FONT>" = Ret (String "003" "04,02x" +:+ String "003" "").
Proof. reflexivity. Qed.
Example tag_unclosed : in_ "1 < 2 <font color=red" = Ret "1 < 2 <font color=red".
Proof. reflexivity. Qed.
(** An empty colour is a prefix of every name: it is white. *)
Example tag_no_color : in_ "<font color=''>x" = Ret (String "003" "00x").
Proof. reflexivity. Qed.
(** Italics become underline and bold, which [irc2markup] reads back as such. *)
Example tag_italic :
  in_ "<i>x</i>" = Ret (String "031" (bold "x") +:+ String "031" (bold ""))
  /\ Markup.irc2markup (fun s => s) (String "031" (bold "x") +:+ String "031" (bold ""))
     = Some "<U><B>x</U></B>".
Proof. split; reflexivity. Qed.
(** A cut sequence jumps over the end of the text. *)
Example cut_sequence : in_ (String "195" "") = Stuck "past the final NUL".
Proof. reflexivity. Qed.
