(* ===== verification/Message.v ===== *)
(** irc/message.{h,cpp}: the IRC message, its parser and its printer.  Messages
    also travel on the sockets between the master process and its children
    (server_poll/daemon_fork.cpp). *)

From S2P Require Import Prelude Util.

Module Msg.
Section Msg.
(** The objects a message may refer to ([const Entity*]). *)
Context {E : Type}.

(** [Message::StoredEntity]: a pointer, or a name when the pointer is NULL. *)
Record stored_entity := SE { entity : option E; name : string }.
Definition se_empty : stored_entity := SE None "".
Definition setEntity (e : E) (_ : stored_entity) : stored_entity := SE (Some e) "".
Definition setName (n : string) (_ : stored_entity) : stored_entity := SE None n.
Definition isSet (se : stored_entity) : bool :=
  match entity se with Some _ => true | None => negb (sempty (name se)) end.

Record message := Message {
  cmd : string;
  sender : stored_entity;
  receiver : stored_entity;
  args : list string
}.

(** [Message(string)] and the default constructor. *)
Definition mk (c : string) : message := Message c se_empty se_empty [].
Definition mk0 : message := mk "".

Definition with_args (m : message) (l : list string) : message :=
  Message (cmd m) (sender m) (receiver m) l.

Definition setCommand (c : string) (m : message) : outcome message :=
  if sempty c then Stuck "assert(r.empty() == false)"
  else Ret (Message c (sender m) (receiver m) (args m)).
Definition setSender (e : E) (m : message) : message :=
  Message (cmd m) (setEntity e (sender m)) (receiver m) (args m).
Definition setSenderName (n : string) (m : message) : message :=
  Message (cmd m) (setName n (sender m)) (receiver m) (args m).
Definition setReceiver (e : E) (m : message) : message :=
  Message (cmd m) (sender m) (setEntity e (receiver m)) (args m).
Definition setReceiverName (n : string) (m : message) : message :=
  Message (cmd m) (sender m) (setName n (receiver m)) (args m).

(** [args.back().find(' ') != npos] on a non-empty vector. *)
Definition back_has_space (l : list string) : bool :=
  match last l with Some s => has_char " " s | None => false end.

Definition addArg (s : string) (m : message) : outcome message :=
  if back_has_space (args m) then Throw MalformedMessage
  else Ret (with_args m (args m ++ [s])).

Definition setArg (i : nat) (s : string) (m : message) : outcome message :=
  if (i =? length (args m))%nat then addArg s m
  else if negb (i <? length (args m))%nat then Stuck "assert(i < args.size())"
  else if (i + 1 <? length (args m))%nat && back_has_space (args m)
       then Throw MalformedMessage
       else Ret (with_args m (<[i := s]> (args m))).

Definition getArg (n : nat) (m : message) : outcome string :=
  match args m !! n with
  | Some s => Ret s
  | None => Stuck "assert(n < args.size())"
  end.
Definition countArgs (m : message) : nat := length (args m).

(** [Message::parse]: the [while] on [stringtok(line, " ")]; every iteration
    shortens [line], so [slen line + 1] of them are enough. *)
Fixpoint parse_loop (n : nat) (line : string) (m : message) : outcome message :=
  match n with
  | O => Stuck "fuel"
  | S n =>
    let '(s, line) := Tok.stringtok line " " in
    if sempty s then Ret m
    else if sempty (cmd m) then
      olet m := setCommand (Case.strupper s) m; parse_loop n line m
    else if Ascii.eqb (shead s) ":" then
      addArg (sdrop 1 s +:+ (if sempty line then "" else " " +:+ line)) m
    else
      olet m := addArg s m; parse_loop n line m
  end.
Definition parse (line : string) : outcome message :=
  parse_loop (S (slen line)) line mk0.

(** ** Printing *)
Section Format.
(** Virtual calls on the entities: [Entity::getName] (not virtual: the
    stored name) and [getLongName]. *)
Variables getName getLongName : E -> string.

Definition se_getName (se : stored_entity) : string :=
  match entity se with Some e => getName e | None => name se end.
Definition se_getLongName (se : stored_entity) : string :=
  match entity se with Some e => getLongName e | None => name se end.

Definition format_arg (a : string) : string :=
  " " +:+ (if has_char " " a || Ascii.eqb (shead a) ":" then ":" else "") +:+ a.
Fixpoint format_args (l : list string) : string :=
  match l with [] => "" | a :: l => format_arg a +:+ format_args l end.

Definition crlf : string := String "013" (String "010" "").

(** [Message::format] up to the final ["\r\n"]. *)
Definition format_line (m : message) : string :=
  (if isSet (sender m) then ":" +:+ se_getLongName (sender m) +:+ " " else "")
  +:+ cmd m
  +:+ (if isSet (receiver m) then " " +:+ se_getName (receiver m) else "")
  +:+ format_args (args m).
Definition format (m : message) : string := format_line m +:+ crlf.
End Format.

(** ** rebuildWithQuotes *)

Definition dq : ascii := "034".

(** The inner [while]: [acc] is [*s], [last_] is [*next]; the words appended
    to [*s] are erased from the vector.  The result is [*s] and the rest. *)
Fixpoint collect (acc last_ : string) (rest : list string)
    : outcome (string * list string) :=
  match slast last_ with
  | None => Stuck "( *next)[next->size()-1] of an empty string"
  | Some c =>
    if Ascii.eqb c dq then Ret (acc, rest)
    else match rest with
         | [] => Ret (acc, [])
         | x :: rest => collect (acc +:+ " " +:+ x) x rest
         end
  end.
(** The removal of the closing quote. *)
Definition strip_quote (s : string) : outcome string :=
  match slast s with
  | None => Stuck "( *s)[s->size()-1] of an empty string"
  | Some c => Ret (if Ascii.eqb c dq then stake (slen s - 1) s else s)
  end.

Fixpoint rebuild (n : nat) (l : list string) : outcome (list string) :=
  match n, l with
  | _, [] => Ret []
  | O, _ => Stuck "fuel"
  | S n, a :: l =>
    if Ascii.eqb (shead a) dq && negb (has_char " " a) then
      let h := sdrop 1 a in
      olet p := collect h h l;
      olet h := strip_quote p.1;
      olet t := rebuild n p.2;
      Ret (h :: t)
    else
      olet t := rebuild n l; Ret (a :: t)
  end.
Definition rebuildWithQuotes (m : message) : outcome message :=
  olet l := rebuild (length (args m)) (args m); Ret (with_args m l).
(** ** Lemmas *)

Lemma stringtok_word w r :
  w <> "" -> has_char " " w = false ->
  Tok.stringtok (w +:+ " " +:+ r) " " = (w, r).
Proof.
  intros Hne Hw. rewrite Tok.stringtok_ref.
  assert (Hs : Tok.skip_delims " " (w +:+ " " +:+ r) = w +:+ " " +:+ r).
  { destruct w as [|c w]; [done|]. rewrite app_cons_s. cbn in *.
    apply orb_false_iff in Hw as [Hc _]. rewrite Ascii.eqb_sym, Hc. done. }
  rewrite Hs. clear Hs Hne. induction w as [|c w IH]; [done|].
  rewrite !app_cons_s. cbn in *. apply orb_false_iff in Hw as [Hc Hw].
  rewrite Ascii.eqb_sym, Hc. cbn. rewrite app_cons_s in IH.
  specialize (IH Hw). injection IH as -> ->. done.
Qed.
Lemma stringtok_last w :
  w <> "" -> has_char " " w = false -> Tok.stringtok w " " = (w, "").
Proof.
  intros Hne Hw. rewrite Tok.stringtok_ref.
  assert (Hs : Tok.skip_delims " " w = w).
  { destruct w as [|c w]; [done|]. cbn in *.
    apply orb_false_iff in Hw as [Hc _]. rewrite Ascii.eqb_sym, Hc. done. }
  rewrite Hs. clear Hs Hne. induction w as [|c w IH]; [done|].
  cbn in *. apply orb_false_iff in Hw as [Hc Hw].
  rewrite Ascii.eqb_sym, Hc. cbn. specialize (IH Hw). injection IH as -> ->. done.
Qed.

(** The tokens of [stringtok(line, " ")] contain no space. *)
Lemma stringtok_no_space line s rest :
  Tok.stringtok line " " = (s, rest) -> has_char " " s = false.
Proof.
  rewrite Tok.stringtok_ref. intros [= <- _].
  apply sall_has_char with (p := fun c => negb (has_char c " ")); [|done].
  apply Tok.take_run_free.
Qed.

(** The messages [addArg] builds: only the last argument may hold a space. *)
Definition well_spaced (l : list string) : Prop :=
  forall i s, l !! i = Some s -> (i + 1 < length l)%nat -> has_char " " s = false.

Lemma well_spaced_snoc l s :
  well_spaced l -> back_has_space l = false -> well_spaced (l ++ [s]).
Proof.
  intros Hl Hb i t Hi Hlt. rewrite length_app in Hlt. cbn in Hlt.
  destruct (decide (i + 1 < length l)%nat) as [Hs|Hs].
  - rewrite lookup_app_l in Hi by lia. by eapply Hl.
  - rewrite lookup_app_l in Hi by lia.
    unfold back_has_space in Hb. rewrite last_lookup in Hb.
    replace (pred (length l)) with i in Hb by lia. by rewrite Hi in Hb.
Qed.

Lemma addArg_well_spaced s m m' :
  addArg s m = Ret m' -> well_spaced (args m) -> well_spaced (args m').
Proof.
  unfold addArg. destruct (back_has_space _) eqn:Hbk; [done|].
  intros [= <-] ?. cbn. by apply well_spaced_snoc.
Qed.

Lemma back_snoc l s : back_has_space (l ++ [s]) = has_char " " s.
Proof. unfold back_has_space. by rewrite last_snoc. Qed.

Lemma parse_loop_ok n line m :
  (slen line < n)%nat -> well_spaced (args m) -> back_has_space (args m) = false ->
  exists m', parse_loop n line m = Ret m' /\ well_spaced (args m')
             /\ sender m' = sender m /\ receiver m' = receiver m.
Proof.
  revert line m. induction n as [|n IH]; intros line m Hn Hw Hb; [lia|]. cbn [parse_loop].
  destruct (Tok.stringtok line " ") as [s rest] eqn:Ht.
  destruct (sempty s) eqn:Es; [by exists m|].
  assert (Hne : s <> "") by (by intros ->).
  pose proof (Tok.stringtok_shrinks _ _ _ _ Ht Hne).
  pose proof (stringtok_no_space _ _ _ Ht) as Hsp.
  destruct (sempty (cmd m)) eqn:Ec.
  - unfold setCommand. destruct (sempty (Case.strupper s)) eqn:Eu.
    { by apply sempty_spec, (proj1 (Case.strupper_empty s)) in Eu. }
    cbn [obind]. apply (IH rest (Message _ _ _ _)); [lia|done..].
  - unfold addArg. rewrite Hb. case_match.
    + eexists. split; [done|]. split; [|done]. by apply well_spaced_snoc.
    + cbn [obind]. edestruct (IH rest (with_args m (args m ++ [s]))) as (m' & -> & ?).
      * lia.
      * by apply well_spaced_snoc.
      * cbn. by rewrite back_snoc.
      * by exists m'.
Qed.
End Msg.
Arguments stored_entity E : clear implicits.
Arguments message E : clear implicits.
End Msg.

(** * The IPC wire format

    daemon_fork.cpp formats a message on one side of the socket and parses the
    line, without its ["\r\n"], on the other; sender and receiver are not set. *)

Module Wire.
Import Msg.

(** An argument which is not the last one. *)
Definition wire_word (a : string) : bool :=
  negb (sempty a) && negb (has_char " " a) && negb (Ascii.eqb (shead a) ":").
(** The last argument: not empty, and not a word with a single space after it. *)
Definition wire_last (a : string) : bool :=
  negb (sempty a) && (negb (has_char " " a) || negb (sempty (Tok.after_run " " a))).
Fixpoint wire_args (l : list string) : bool :=
  match l with
  | [] => true
  | [a] => wire_last a
  | a :: l => wire_word a && wire_args l
  end.
Definition wire_cmd (c : string) : bool :=
  negb (sempty c) && negb (has_char " " c) && String.eqb (Case.strupper c) c.
Definition sendable {E} (m : message E) : bool :=
  negb (isSet (sender m)) && negb (isSet (receiver m)) && wire_cmd (cmd m)
  && wire_args (args m).

(** The text of the arguments as the parser finds it: the space in front of the
    first one is eaten with the previous token. *)
Definition wire_text (l : list string) : string := sdrop 1 (format_args l).

Lemma format_args_cons a l :
  format_args (a :: l) =
    " " +:+ (if has_char " " a || Ascii.eqb (shead a) ":" then ":" else "") +:+ a
    +:+ format_args l.
Proof. cbn. unfold format_arg. by rewrite !app_assoc_s. Qed.

Lemma after_run_split s :
  has_char " " s = true ->
  Tok.take_run " " s +:+ " " +:+ Tok.after_run " " s = s.
Proof.
  induction s as [|c s IH]; [done|]. cbn. rewrite (Ascii.eqb_sym c " "), orb_false_r.
  destruct (Ascii.eqb_spec " " c) as [<-|Hc]; cbn; [done|].
  intros H. rewrite app_cons_s. f_equal. by apply IH.
Qed.

Lemma take_run_no_space s : has_char " " (Tok.take_run " " s) = false.
Proof.
  apply sall_has_char with (p := fun c => negb (has_char c " ")); [|done].
  apply Tok.take_run_free.
Qed.

Lemma stringtok_nil : Tok.stringtok "" " " = ("", "").
Proof. done. Qed.

Lemma after_run_in w r :
  has_char " " w = false -> Tok.after_run " " (w +:+ " " +:+ r) = r.
Proof.
  induction w as [|c w IH]; [done|]. rewrite app_cons_s. cbn.
  intros [Hc Hw]%orb_false_iff. rewrite (Ascii.eqb_sym " " c), Hc. by apply IH.
Qed.

Lemma has_char_false_after s :
  has_char " " s = false -> Tok.after_run " " s = "".
Proof.
  induction s as [|c s IH]; [done|]. cbn. intros [Hc Hw]%orb_false_iff.
  rewrite (Ascii.eqb_sym " " c), Hc. by apply IH.
Qed.

Section Loop.
Context {E : Type}.
Implicit Type m : message E.

(** The last argument, as ":text", is taken whole. *)
Lemma loop_trailing n a m :
  cmd m <> "" -> wire_last a = true ->
  has_char " " a || Ascii.eqb (shead a) ":" = true ->
  back_has_space (args m) = false ->
  parse_loop (S n) (":" +:+ a) m = Ret (with_args m (args m ++ [a])).
Proof.
  unfold wire_last. intros Hc [Hne Hlast]%andb_true_iff Hcol Hb.
  assert (Ht : exists s r, Tok.stringtok (":" +:+ a) " " = (":" +:+ s, r)
               /\ s +:+ (if sempty r then "" else " " +:+ r) = a).
  { destruct (has_char " " a) eqn:Hsp; cbn in Hlast.
    - exists (Tok.take_run " " a), (Tok.after_run " " a).
      pose proof (after_run_split a Hsp) as Ha. split.
      + rewrite <- Ha at 1. rewrite <- app_assoc_s.
        rewrite stringtok_word; [done|done|]. rewrite has_char_app.
        by rewrite take_run_no_space.
      + apply negb_true_iff in Hlast. rewrite Hlast. exact Ha.
    - exists a, "". split; [|by rewrite app_nil_s].
      rewrite stringtok_last; [done|done|]. by rewrite has_char_app, Hsp. }
  destruct Ht as (s & r & Ht & Ha). cbn [parse_loop]. rewrite Ht.
  rewrite app_cons_s, app_nil_l_s. cbn [sempty shead sdrop].
  destruct (sempty (cmd m)) eqn:Ec; [by apply sempty_spec in Ec|].
  rewrite Ascii.eqb_refl, Ha. unfold addArg. by rewrite Hb.
Qed.

Lemma loop_args l n m :
  cmd m <> "" -> back_has_space (args m) = false -> wire_args l = true ->
  (length l < n)%nat ->
  parse_loop n (wire_text l) m = Ret (with_args m (args m ++ l)).
Proof.
  revert n m. induction l as [|a l IH]; intros n m Hc Hb Hw Hn.
  - destruct n as [|n]; [lia|]. destruct m. cbn. by rewrite app_nil_r.
  - destruct n as [|n]; [cbn in Hn; lia|].
    unfold wire_text. rewrite format_args_cons, app_cons_s. cbn [sdrop].
    rewrite app_nil_l_s.
    destruct (has_char " " a || Ascii.eqb (shead a) ":") eqn:Hcol.
    + assert (l = []) as ->.
      { destruct l; [done|]. cbn in Hw. apply andb_true_iff in Hw as [Hw _].
        unfold wire_word in Hw. exfalso. destruct (has_char " " a), (Ascii.eqb (shead a) ":");
        cbn in *; by rewrite ?andb_false_r in Hw. }
      cbn [format_args]. rewrite app_nil_s. by apply loop_trailing.
    + apply orb_false_iff in Hcol as [Hsp Hco]. rewrite app_nil_l_s.
      assert (Hne : a <> "").
      { intros ->. destruct l; cbn in Hw; done. }
      assert (Hwl : wire_args l = true).
      { destruct l; [done|]. cbn in Hw. by apply andb_true_iff in Hw as [_ Hw]. }
      assert (Ht : Tok.stringtok (a +:+ format_args l) " " = (a, wire_text l)).
      { destruct l as [|b l]; [cbn; rewrite app_nil_s; by apply stringtok_last|].
        unfold wire_text. rewrite format_args_cons.
        rewrite stringtok_word by done. by rewrite app_cons_s. }
      cbn [parse_loop]. rewrite Ht.
      destruct (sempty a) eqn:Ea; [by apply sempty_spec in Ea|].
      destruct (sempty (cmd m)) eqn:Ec; [by apply sempty_spec in Ec|].
      rewrite Hco. unfold addArg. rewrite Hb. cbn [obind].
      rewrite IH; [|done|cbn; by rewrite back_snoc|done|cbn in Hn; lia].
      cbn. by rewrite <- app_assoc.
Qed.
End Loop.
End Wire.

(** * Quoted arguments *)

Module Quotes.
Import Msg.

Definition quoted_free (a : string) : bool := negb (Ascii.eqb (shead a) dq).
(** A word inside the quotes: not empty and not ending with a quote. *)
Definition inner_word (a : string) : bool :=
  match slast a with Some c => negb (Ascii.eqb c dq) | None => false end.

(** [w1 w2 ... wn] with a single space between the words. *)
Fixpoint unwords (w : string) (ws : list string) : string :=
  match ws with [] => w | x :: ws => w +:+ " " +:+ unwords x ws end.
(** The same words, the last one followed by the closing quote. *)
Fixpoint close_quote (w : string) (ws : list string) : list string :=
  match ws with [] => [w +:+ String dq ""] | x :: ws => w :: close_quote x ws end.

Lemma collect_closed acc l rest :
  slast l = Some dq -> collect acc l rest = Ret (acc, rest).
Proof. intros H. destruct rest; cbn; by rewrite H. Qed.

Lemma collect_inner acc l x rest :
  inner_word l = true -> collect acc l (x :: rest) = collect (acc +:+ " " +:+ x) x rest.
Proof.
  unfold inner_word. cbn. destruct (slast l); [|done]. intros H%negb_true_iff. by rewrite H.
Qed.

Lemma collect_words acc w x ws rest :
  inner_word w = true -> forallb inner_word (removelast (x :: ws)) = true ->
  collect acc w (close_quote x ws ++ rest)
    = Ret (acc +:+ " " +:+ unwords x ws +:+ String dq "", rest).
Proof.
  revert acc w x. induction ws as [|y ws IH]; intros acc w x Hw Hi; cbn [close_quote].
  - cbn [app]. rewrite collect_inner by done. cbn [unwords].
    apply collect_closed. by apply slast_app.
  - cbn [app]. rewrite collect_inner by done.
    cbn [removelast forallb] in Hi. apply andb_true_iff in Hi as [Hx Hi].
    rewrite IH by done. cbn [unwords]. by rewrite !app_assoc_s.
Qed.

Lemma strip_closing s : strip_quote (s +:+ String dq "") = Ret s.
Proof.
  unfold strip_quote. rewrite slast_app by done. cbn [slast].
  rewrite Ascii.eqb_refl, slen_app. replace (_ + _ - 1)%nat with (slen s) by (cbn; lia).
  by rewrite stake_app.
Qed.

Lemma rebuild_skip n l r :
  forallb quoted_free l = true -> (length l <= n)%nat ->
  rebuild n (l ++ r) = olet t := rebuild (n - length l) r; Ret (l ++ t).
Proof.
  revert n. induction l as [|a l IH]; intros n Hl Hn.
  - cbn [app length]. rewrite Nat.sub_0_r. by destruct (rebuild n r).
  - destruct n as [|n]; [cbn in Hn; lia|].
    cbn [forallb] in Hl. apply andb_true_iff in Hl as [Ha Hl].
    cbn [app rebuild]. unfold quoted_free in Ha. apply negb_true_iff in Ha.
    rewrite Ha. cbn [andb]. rewrite IH; [|done|cbn in Hn; lia].
    cbn [length Nat.sub]. by destruct (rebuild (n - length l) r).
Qed.

Lemma rebuild_plain n l :
  forallb quoted_free l = true -> (length l <= n)%nat -> rebuild n l = Ret l.
Proof.
  intros Hl Hn. rewrite <- (app_nil_r l) at 1. rewrite rebuild_skip by done.
  destruct (n - length l)%nat; cbn; by rewrite app_nil_r.
Qed.

Lemma rebuild_close n w ws post :
  forallb quoted_free post = true -> has_char " " w = false ->
  forallb inner_word (removelast (w :: ws)) = true ->
  (length (close_quote (String dq w) ws ++ post) <= n)%nat ->
  rebuild n (close_quote (String dq w) ws ++ post) = Ret (unwords w ws :: post).
Proof.
  intros Hpost Hw Hi Hn. destruct n as [|n]; [by destruct ws; cbn in Hn; lia|].
  destruct ws as [|x ws]; cbn [close_quote app rebuild].
  - rewrite app_cons_s. cbn [shead has_char sdrop].
    rewrite Ascii.eqb_refl, has_char_app, Hw.
    change (Ascii.eqb dq " " || (false || has_char " " (String dq ""))) with false.
    cbn [andb negb]. rewrite collect_closed by (by apply slast_app). cbn [obind fst snd].
    rewrite strip_closing. cbn [obind]. cbn in Hn. rewrite rebuild_plain by (done || lia). done.
  - cbn [shead has_char sdrop]. rewrite Ascii.eqb_refl, Hw.
    change (Ascii.eqb dq " " || false) with false. cbn [andb negb].
    cbn [removelast forallb] in Hi. apply andb_true_iff in Hi as [Hiw Hi].
    rewrite collect_words by done. cbn [obind fst snd].
    rewrite <- !app_assoc_s, strip_closing. cbn [obind].
    cbn [close_quote app length] in Hn. rewrite length_app in Hn.
    rewrite rebuild_plain by (done || lia). cbn [obind unwords]. by rewrite !app_assoc_s.
Qed.

(** The rebuilt vector never grows. *)
Lemma collect_length acc l rest p :
  collect acc l rest = Ret p -> (length p.2 <= length rest)%nat.
Proof.
  revert acc l. induction rest as [|x rest IH]; intros acc l; cbn.
  - destruct (slast l) as [c|]; [|done]. destruct (Ascii.eqb c dq); by intros [= <-].
  - destruct (slast l) as [c|]; [|done]. destruct (Ascii.eqb c dq).
    + intros [= <-]. cbn. lia.
    + intros H%IH. lia.
Qed.
End Quotes.

(** * Properties *)

Import Msg Wire Quotes.

Lemma parse_ret {E} (line : string) : exists m : message E, parse line = Ret m.
Proof.
  destruct (parse_loop_ok (E := E) (S (slen line)) line mk0) as (m & Hm & _);
    [lia|by intros i s|done|]. by exists m.
Qed.

(** [Message::parse] is total: on every line the [while] loop ends, no
    exception is thrown and no assertion fails, and the message it returns has
    no sender, no receiver, and a space in its last argument at most. *)
Theorem parse_total {E} (line : string) :
  exists m : message E, parse line = Ret m /\ well_spaced (args m)
    /\ isSet (sender m) = false /\ isSet (receiver m) = false.
Proof.
  destruct (parse_loop_ok (E := E) (S (slen line)) line mk0) as (m & Hm & Hw & Hs & Hr);
    [lia|by intros i s|done|].
  exists m. by rewrite Hs, Hr.
Qed.

Lemma parse_format_line {E} (gn gl : E -> string) (m : message E) :
  sendable m = true -> parse (format_line gn gl m) = Ret m.
Proof.
  unfold sendable. intros [[[Hs Hr]%andb_true_iff Hc]%andb_true_iff Ha]%andb_true_iff.
  unfold wire_cmd in Hc. apply andb_true_iff in Hc as [[Hc1 Hc2]%andb_true_iff Hc3].
  apply negb_true_iff in Hs, Hr, Hc1, Hc2. apply String.eqb_eq in Hc3.
  destruct m as [c [[]sn] [[]rn] l]; cbn in Hs, Hr; try done.
  destruct sn, rn; try done. cbn [cmd args] in *.
  assert (Hne : c <> "") by (by intros ->).
  unfold parse, format_line. cbn [isSet entity name negb sempty cmd args sender receiver].
  rewrite !app_nil_l_s.
  assert (Ht : Tok.stringtok (c +:+ format_args l) " " = (c, wire_text l)).
  { destruct l as [|b l]; [cbn; rewrite app_nil_s; by apply stringtok_last|].
    unfold wire_text. rewrite format_args_cons, stringtok_word by done. done. }
  cbn [parse_loop]. rewrite Ht, Hc1. cbn [mk0 mk cmd sempty].
  unfold setCommand. rewrite Hc3, Hc1. cbn [obind].
  rewrite loop_args; [done|done|done|done|].
  rewrite slen_app. destruct c as [|c0 c]; [done|]. cbn [slen].
  assert (Hl : (length l <= slen (format_args l))%nat); [|lia].
  clear. induction l as [|a l IH]; [done|]. rewrite format_args_cons, !slen_app.
  cbn [length]. cbn [slen]. lia.
Qed.

(** C36: the IPC wire format loses nothing: parsing the line [format] prints for
    a message without sender and receiver gives the message back, when the
    command is an upper-case word, the arguments before the last are non-empty
    words, and the last is neither empty nor a word with one space after it. *)
Theorem parse_format {E} (gn gl : E -> string) (m : message E) :
  sendable m = true -> parse (format_line gn gl m) = Ret m.
Proof. apply parse_format_line. Qed.

Theorem parse_format_witness :
  sendable (E := unit) (Message "DIE" se_empty se_empty ["romain"; "bye bye"]) = true
  /\ parse (E := unit) (format_line (fun _ : unit => "") (fun _ => "")
       (Message "DIE" se_empty se_empty ["romain"; "bye bye"]))
     = Ret (Message "DIE" se_empty se_empty ["romain"; "bye bye"]).
Proof. split; [done|]. by apply parse_format. Defined.

(** [rebuildWithQuotes] puts a quoted text back together: the words cut from
    ["w1 w2 ... wn"] become the single argument [w1 w2 ... wn], the arguments
    before and after it unchanged. *)
Theorem rebuild_quoted (pre post : list string) (w : string) (ws : list string) :
  forallb quoted_free pre = true -> forallb quoted_free post = true ->
  has_char " " w = false -> forallb inner_word (removelast (w :: ws)) = true ->
  rebuild (length (pre ++ close_quote (String dq w) ws ++ post))
          (pre ++ close_quote (String dq w) ws ++ post)
  = Ret (pre ++ [unwords w ws] ++ post).
Proof.
  intros Hpre Hpost Hw Hi. rewrite rebuild_skip; [|done|rewrite length_app; lia].
  rewrite rebuild_close; [done|done|done|done|].
  rewrite !length_app. lia.
Qed.

Theorem rebuild_quoted_witness :
  rebuild 6 ["DCC"; "SEND"; String dq "my"; "holiday"; "pic.png" +:+ String dq ""; "42"]
  = Ret ["DCC"; "SEND"; "my holiday pic.png"; "42"].
Proof.
  exact (rebuild_quoted ["DCC"; "SEND"] ["42"] "my" ["holiday"; "pic.png"]
           eq_refl eq_refl eq_refl eq_refl).
Defined.
