(* ===== verification/Log.v ===== *)
(** core/log.{h,cpp}: the logging flags, the choice of what a log line becomes
    when the [flux] object dies, and the textual form of the flags. *)

From S2P Require Import Prelude Util.

Module Log.

Definition W_DEBUG : Z := 1.
Definition W_PARSE : Z := 2.
Definition W_PURPLE : Z := 4.
Definition W_DESYNCH : Z := 8.
Definition W_WARNING : Z := 16.
Definition W_ERR : Z := 32.
Definition W_INFO : Z := 64.
Definition W_SNO : Z := 128.
Definition W_SOCK : Z := 256.

Definition DEFAULT_LOGGED_FLAGS : Z :=
  Z.lor W_DESYNCH (Z.lor W_WARNING (Z.lor W_ERR (Z.lor W_INFO W_SNO))).

(** syslog(3) levels. *)
Inductive level := LOG_ERR | LOG_WARNING | LOG_NOTICE | LOG_DEBUG.

Record flag_entry := FE {
  flag : Z; lvl : level; text : string; sys_log : bool; propagate_to_user : bool }.

Definition all_flags : list flag_entry :=
  [FE W_SNO LOG_NOTICE "" false true;
   FE W_DEBUG LOG_DEBUG "DEBUG" false true;
   FE W_PARSE LOG_DEBUG "PARSE" false true;
   FE W_PURPLE LOG_DEBUG "PURPLE" false true;
   FE W_DESYNCH LOG_WARNING "DESYNCH" false true;
   FE W_WARNING LOG_WARNING "WARNING" false true;
   FE W_ERR LOG_ERR "ERR" true true;
   FE W_INFO LOG_NOTICE "INFO" false true;
   FE W_SOCK LOG_DEBUG "SOCK" false false].

(** [Log]: the fields of the global [b_log] ([poll] is the server poll of the
    process, always set once the IRC object exists). *)
Record log := Log { logged_flags : Z; to_syslog : bool }.

Definition hasb (a b : Z) : bool := negb (Z.land a b =? 0).

(** The loops go from the last entry down to the first one. *)
Definition find_flag (flags : Z) : option flag_entry :=
  List.find (fun e => hasb flags (flag e)) (rev all_flags).

(** What [Log::flux::~flux] does with the text: lines for syslog(3) and at most
    one text for [ServerPoll::log]. *)
Definition flux (l : log) (flags : Z) (str : string)
    : list (level * string) * option (Z * string) :=
  if negb (hasb flags (logged_flags l)) then ([], None)
  else
    match find_flag flags with
    | None => ([(LOG_WARNING, "[SYSLOG] (" +:+ t2hex (flags mod 2 ^ 32)
                              +:+ ") Unable to find how to log this message: " +:+ str)], None)
    | Some e =>
      let sys := if sys_log e && to_syslog l
                 then [(lvl e, "[" +:+ text e +:+ "] " +:+ str)] else [] in
      if negb (propagate_to_user e) then (sys, None)
      else
        let category := if hasb flags W_SNO then "*** Notice -- "
                        else "[" +:+ text e +:+ "] " in
        (sys, Some (flags, category +:+ str))
    end.

(** [Log::formatLoggedFlags]. *)
Definition formatLoggedFlags (l : log) : string :=
  foldl (fun s e =>
           if hasb (logged_flags l) (flag e)
           then (if sempty s then s else s +:+ " ") +:+ text e
           else s)
        "" (rev all_flags).

(** [(uint32_t) -1]. *)
Definition ALL_FLAGS : Z := 2 ^ 32 - 1.

(** The [while] of [Log::setLoggedFlags] over the tokens. *)
Fixpoint set_tokens (toks : list string) (flags : Z) : Z :=
  match toks with
  | [] => flags
  | tok :: toks =>
    if String.eqb tok "ALL" then ALL_FLAGS
    else
      match List.find (fun e => String.eqb tok (text e)) (rev all_flags) with
      | Some e => set_tokens toks (Z.lor flags (flag e))
      | None => set_tokens toks flags
      end
  end.
Definition setLoggedFlags (s : string) (to_syslog : bool) : log :=
  Log (set_tokens (Tok.tokens " " s) 0) to_syslog.

(** ** Lemmas *)

(** Every set of flags below 2^9, as the set-bits of an index. *)
Definition flag_sets : list Z := map Z.of_nat (List.seq 0 512).

Lemma flag_sets_all l : 0 <= l < 512 -> List.In l flag_sets.
Proof.
  intros H. unfold flag_sets. apply List.in_map_iff. exists (Z.to_nat l).
  split; [lia|]. apply List.in_seq. lia.
Qed.

Lemma flag_sets_forall (p : Z -> bool) :
  forallb p flag_sets = true -> forall l, 0 <= l < 512 -> p l = true.
Proof.
  intros H l Hl. rewrite forallb_forall in H. apply H. by apply flag_sets_all.
Qed.
End Log.

(** * Properties *)

Import Log.

(** Writing the flags with [formatLoggedFlags] and reading them back with
    [setLoggedFlags] keeps every flag except [W_SNO], whose name is the empty
    string: [/ADMIN log_level] shown and set again silently drops the server
    notices. *)
Theorem flags_roundtrip (flags : Z) (sys sys' : bool) :
  0 <= flags < 512 ->
  logged_flags (setLoggedFlags (formatLoggedFlags (Log flags sys)) sys')
  = Z.ldiff flags W_SNO.
Proof.
  intros H.
  assert (Hp : (logged_flags (setLoggedFlags (formatLoggedFlags (Log flags true)) true)
                =? Z.ldiff flags W_SNO) = true).
  { revert flags H. apply (flag_sets_forall (fun f =>
      logged_flags (setLoggedFlags (formatLoggedFlags (Log f true)) true)
      =? Z.ldiff f W_SNO)). vm_compute. done. }
  apply Z.eqb_eq in Hp. exact Hp.
Qed.

Theorem flags_roundtrip_witness :
  logged_flags (setLoggedFlags (formatLoggedFlags (Log DEFAULT_LOGGED_FLAGS true)) false)
  = Z.ldiff DEFAULT_LOGGED_FLAGS W_SNO.
Proof. apply flags_roundtrip. vm_compute. done. Defined.
