(* ===== verification/World.v ===== *)
(** The objects of one IRC session and the monad its methods run in: the heaps of
    [irc::Nick], [irc::ChanUser], [irc::Channel] and [irc::Server] objects, the
    fields of the [irc::IRC] object, the user's socket and the trace of what
    leaves the process. *)

From S2P Require Import Prelude Util Message Log.

(** Pointers: an index in the heap of the pointed class. *)
#[global] Abbreviation nid := nat (only parsing).
#[global] Abbreviation uid := nat (only parsing).
#[global] Abbreviation cid := nat (only parsing).
#[global] Abbreviation sid := nat (only parsing).
(** Handles of the instant-messaging layer (src/im): a [PurpleBuddy*], a
    [PurpleAccount*], a [PurpleConversation*], a [PurpleConvChatBuddy*], a file
    transfer. *)
#[global] Abbreviation bid := nat (only parsing).
#[global] Abbreviation aid := nat (only parsing).
#[global] Abbreviation vid := nat (only parsing).
#[global] Abbreviation kid := nat (only parsing).
#[global] Abbreviation fid := nat (only parsing).

Module W.

(** ** Objects *)

(** [irc::ConvEntity]: the conversation ([None] when not valid) and the messages
    waiting for the send delay. *)
Record conv_entity := CE { conv : option vid; enqueued : list string }.

(** The class of a nick: one of those derived from [irc::Nick], or [irc::Nick]
    itself, which is what a nick is once the destructors of the derived classes
    have run. *)
Inductive nick_kind :=
| KNick
| KUser (password : string) (last_read : Z) (sockw : bool)
| KBuddy (im_buddy : bid) (public_msgs : bool) (public_msgs_last : Z) (ce : conv_entity)
| KChatBuddy (im_cbuddy : kid) (ce : conv_entity)
| KUnknownBuddy (ce : conv_entity).

(** [irc::Nick]; [name] is the field of [Entity], [channels] the vector of
    [ChanUser*]. *)
Record nick := Nick {
  nk_name : string; identname : string; hostname : string; realname : string;
  away : string; nk_server : sid; nk_flags : Z; channels : list uid;
  nk_kind : nick_kind }.

(** [irc::ChanUser]; [cu_name] is the [Entity] name, fixed at construction. *)
Record chanuser := ChanUser {
  cu_name : string; cu_nick : nid; cu_chan : cid; cu_status : Z }.

(** The classes derived from [irc::Channel]. *)
Inductive chan_kind :=
| KStatus (accounts : list aid)
| KConversation (ce : conv_entity) (upserver : option sid) (cbuddies : list (kid * uid)).

Record channel := Channel {
  ch_name : string; topic : string; users : list uid; ch_kind : chan_kind }.

(** [irc::Server]: the IRC object itself or a [RemoteServer] with its account. *)
Inductive server_kind := SIrc | SRemote (account : aid).
Record server := Server {
  sv_name : string; info : string; sv_users : list nid; sv_kind : server_kind }.

(** [irc::DCC] as far as [irc::IRC] sees it. *)
Inductive dcc_kind := DServer | DGet.
Record dcc := Dcc {
  d_kind : dcc_kind; d_finished : bool; d_peer : option nid; d_ft : option fid }.

(** A pointer to an [Entity]. *)
Inductive ent := ENick (n : nid) | ECu (u : uid) | EChan (c : cid) | EServer (s : sid).
#[export] Instance ent_eq_dec : EqDecision ent.
Proof. solve_decision. Defined.

Abbreviation message := (Msg.message ent).

(** [Nick] flags and [ChanUser::mode_t] (libpurple's [PurpleConvChatBuddyFlags]). *)
Definition REGISTERED : Z := 1.
Definition PING : Z := 2.
Definition OPER : Z := 4.
Definition VOICE : Z := 1.
Definition HALFOP : Z := 2.
Definition OP : Z := 4.
Definition FOUNDER : Z := 8.
Definition TYPING : Z := 16.

(** ** Effects *)

(** Calls into libpurple from src/im: the [ui_data] of a chat and of the settings
    of an account ([purple_account_set_ui_...]), options of protocols, statuses,
    chats, the main loop of GLib. *)
Inductive purple_call :=
| ChatSetChannel (v : vid) (c : option cid)
| ChatWantRejoin (v : vid)
| UiString (a : aid) (key value : string)
| UiInt (a : aid) (key : string) (value : Z)
| UiBool (a : aid) (key : string) (value : bool)
| OptString (a : aid) (key value : string)
| OptInt (a : aid) (key : string) (value : Z)
| OptBool (a : aid) (key : string) (value : bool)
| SetPassword (a : aid) (value : string)
| RememberPassword (a : aid) (value : bool)
| SetEnabled (a : aid) (value : bool)
| SetStatus (a : aid) (id text : string)
| ServJoinChat (a : aid) (parameters : list (string * string))
| ServRejoinChat (v : vid)
| MenuAction (b : bid) (label : string)
| RequestClose (b : bid)
| TimeoutAdd (a : aid) (ms : Z)                  (* of Account::reconnect *)
| SourceRemove (id : Z)
| ConvWrite (v : vid) (who text : string)
| DoCommand (v : vid) (cmd args : string)
| SendIm (v : vid) (text : string)
| SendChat (v : vid) (text : string)
| SendTyping (v : vid) (typing : bool)
| StopTypedTimeout (v : vid)
| IdleTouch.

(** Calls into src/im and libpurple that change something there. *)
Inductive imcall :=
| ConvSend (v : vid) (text : string)
| ConvLeave (v : vid)
| ConvInvite (v : vid) (buddy text : string)
| ConvSetTopic (v : vid) (text : string)
| ConvSendCommand (v : vid) (text : string)
| ConvOpenBuddy (b : bid)
| ConvOpenChatBuddy (k : kid)
| ConvPresent (v : vid)
| ConvSetNick (v : vid) (n : option nid)
| BuddySetNick (b : bid) (n : option nid)
| BuddySetAlias (b : bid) (alias : string) (server_side : bool)
| BuddySendFile (b : bid) (file : string)
| AccSetStatus (a : aid) (available : bool) (text : string)
| AccAddBuddy (a : aid) (username group : string)
| AccRemoveBuddy (a : aid) (b : bid)
| AccDeny (a : aid) (who : string)
| AccAllow (a : aid) (who : string)
| AccJoinChat (a : aid) (name param : string)
| AccEnqueueChannelJoin (a : aid) (name : string)
| AccDisplayRoomList (a : aid)
| ImSetStatus (away : string)
| ImRestore
| AuthValidate (username password : string)
| AuthGenerate (username password : string)
| AuthSetPassword (password : string)
| BuddyRetrieveInfo (b : bid)
| AccConnect (a : aid)
| AccDisconnect (a : aid)
| AccAdd (proto username : string) (options : list (string * string)) (register_account : bool)
| AccDelete (a : aid)
| AccSetOptions (a : aid) (options : list (string * string))
| AccCallCommand (a : aid) (name : string)
| ImSet (key value : string)                     (* im->set...(value) *)
| PrefSet (key value : string)                   (* purple_prefs, proxy info *)
| PluginLoad (id : string)
| PluginUnload (id : string)
| Purple (c : purple_call).

(** What leaves the session, in order. *)
Inductive event :=
| Write (bytes : string)             (* write(2) on the user's socket *)
| CloseSock                          (* delete sockw *)
| Syslog (l : Log.level) (text : string)
| IpcSend (m : message)              (* poll->ipc_send *)
| PollKill                           (* poll->kill(this) *)
| PollRehash                         (* poll->rehash() *)
| Timer (delay : Z) (what : string)  (* g_timeout_add *)
| ImCall (c : imcall).

(** Results of write(2). *)
Inductive wresult := WOk | WClosed | WAgain | WError (strerror : string).

(** ** The session *)

(** The heaps; [h_next] is the next free address. *)
Record heap := Heap {
  h_nicks : gmap nat nick;
  h_cus : gmap nat chanuser;
  h_chans : gmap nat channel;
  h_servers : gmap nat server;
  h_next : nat }.

(** The fields of the [irc::IRC] object: [i_self] is [this] as a [Server*], [i_im]
    says that [im] and [im_auth] are set, [i_counts] are the [count] fields of
    [commands]. *)
Record irc := Irc {
  i_self : sid;
  i_user : nid;
  i_users : gmap string nid;
  i_channels : gmap string cid;
  i_servers : gmap string sid;
  i_dccs : list dcc;
  i_motd : list string;
  i_im : bool;
  i_ping_freq : Z;
  i_uptime : Z;
  i_counts : gmap string Z }.

(** The socket wrapper ([o_sockw]: not deleted), the results of the next write(2)
    calls ([WOk] once the list is used up), the log, the time, and what left the
    session, oldest first. *)
Record io := Io {
  o_sockw : bool;
  o_sock_ok : bool;
  o_writes : list wresult;
  o_log : Log.log;
  o_now : Z;
  o_trace : list event }.

Record world := World { w_heap : heap; w_irc : irc; w_io : io }.

Definition up_h_nicks (f : gmap nat nick -> gmap nat nick) (r : heap) : heap :=
  Heap (f (h_nicks r)) (h_cus r) (h_chans r) (h_servers r) (h_next r).
Definition up_h_cus (f : gmap nat chanuser -> gmap nat chanuser) (r : heap) : heap :=
  Heap (h_nicks r) (f (h_cus r)) (h_chans r) (h_servers r) (h_next r).
Definition up_h_chans (f : gmap nat channel -> gmap nat channel) (r : heap) : heap :=
  Heap (h_nicks r) (h_cus r) (f (h_chans r)) (h_servers r) (h_next r).
Definition up_h_servers (f : gmap nat server -> gmap nat server) (r : heap) : heap :=
  Heap (h_nicks r) (h_cus r) (h_chans r) (f (h_servers r)) (h_next r).
Definition up_h_next (f : nat -> nat) (r : heap) : heap :=
  Heap (h_nicks r) (h_cus r) (h_chans r) (h_servers r) (f (h_next r)).

Definition up_i_self (f : sid -> sid) (r : irc) : irc :=
  Irc (f (i_self r)) (i_user r) (i_users r) (i_channels r) (i_servers r) (i_dccs r) (i_motd r) (i_im r) (i_ping_freq r) (i_uptime r) (i_counts r).
Definition up_i_user (f : nid -> nid) (r : irc) : irc :=
  Irc (i_self r) (f (i_user r)) (i_users r) (i_channels r) (i_servers r) (i_dccs r) (i_motd r) (i_im r) (i_ping_freq r) (i_uptime r) (i_counts r).
Definition up_i_users (f : gmap string nid -> gmap string nid) (r : irc) : irc :=
  Irc (i_self r) (i_user r) (f (i_users r)) (i_channels r) (i_servers r) (i_dccs r) (i_motd r) (i_im r) (i_ping_freq r) (i_uptime r) (i_counts r).
Definition up_i_channels (f : gmap string cid -> gmap string cid) (r : irc) : irc :=
  Irc (i_self r) (i_user r) (i_users r) (f (i_channels r)) (i_servers r) (i_dccs r) (i_motd r) (i_im r) (i_ping_freq r) (i_uptime r) (i_counts r).
Definition up_i_servers (f : gmap string sid -> gmap string sid) (r : irc) : irc :=
  Irc (i_self r) (i_user r) (i_users r) (i_channels r) (f (i_servers r)) (i_dccs r) (i_motd r) (i_im r) (i_ping_freq r) (i_uptime r) (i_counts r).
Definition up_i_dccs (f : list dcc -> list dcc) (r : irc) : irc :=
  Irc (i_self r) (i_user r) (i_users r) (i_channels r) (i_servers r) (f (i_dccs r)) (i_motd r) (i_im r) (i_ping_freq r) (i_uptime r) (i_counts r).
Definition up_i_motd (f : list string -> list string) (r : irc) : irc :=
  Irc (i_self r) (i_user r) (i_users r) (i_channels r) (i_servers r) (i_dccs r) (f (i_motd r)) (i_im r) (i_ping_freq r) (i_uptime r) (i_counts r).
Definition up_i_im (f : bool -> bool) (r : irc) : irc :=
  Irc (i_self r) (i_user r) (i_users r) (i_channels r) (i_servers r) (i_dccs r) (i_motd r) (f (i_im r)) (i_ping_freq r) (i_uptime r) (i_counts r).
Definition up_i_ping_freq (f : Z -> Z) (r : irc) : irc :=
  Irc (i_self r) (i_user r) (i_users r) (i_channels r) (i_servers r) (i_dccs r) (i_motd r) (i_im r) (f (i_ping_freq r)) (i_uptime r) (i_counts r).
Definition up_i_uptime (f : Z -> Z) (r : irc) : irc :=
  Irc (i_self r) (i_user r) (i_users r) (i_channels r) (i_servers r) (i_dccs r) (i_motd r) (i_im r) (i_ping_freq r) (f (i_uptime r)) (i_counts r).
Definition up_i_counts (f : gmap string Z -> gmap string Z) (r : irc) : irc :=
  Irc (i_self r) (i_user r) (i_users r) (i_channels r) (i_servers r) (i_dccs r) (i_motd r) (i_im r) (i_ping_freq r) (i_uptime r) (f (i_counts r)).

Definition up_o_sockw (f : bool -> bool) (r : io) : io :=
  Io (f (o_sockw r)) (o_sock_ok r) (o_writes r) (o_log r) (o_now r) (o_trace r).
Definition up_o_sock_ok (f : bool -> bool) (r : io) : io :=
  Io (o_sockw r) (f (o_sock_ok r)) (o_writes r) (o_log r) (o_now r) (o_trace r).
Definition up_o_writes (f : list wresult -> list wresult) (r : io) : io :=
  Io (o_sockw r) (o_sock_ok r) (f (o_writes r)) (o_log r) (o_now r) (o_trace r).
Definition up_o_log (f : Log.log -> Log.log) (r : io) : io :=
  Io (o_sockw r) (o_sock_ok r) (o_writes r) (f (o_log r)) (o_now r) (o_trace r).
Definition up_o_now (f : Z -> Z) (r : io) : io :=
  Io (o_sockw r) (o_sock_ok r) (o_writes r) (o_log r) (f (o_now r)) (o_trace r).
Definition up_o_trace (f : list event -> list event) (r : io) : io :=
  Io (o_sockw r) (o_sock_ok r) (o_writes r) (o_log r) (o_now r) (f (o_trace r)).

Definition on_heap (f : heap -> heap) (w : world) : world :=
  World (f (w_heap w)) (w_irc w) (w_io w).
Definition on_irc (f : irc -> irc) (w : world) : world :=
  World (w_heap w) (f (w_irc w)) (w_io w).
Definition on_io (f : io -> io) (w : world) : world :=
  World (w_heap w) (w_irc w) (f (w_io w)).

(** [im::Protocol::Option] and [im::Protocol]; [im::Plugin]. *)
Inductive option_type :=
| ONone | OStr | OInt | OBool | OStrList (choices : list string) | OAccid | OServerAliases
| OPassword | OStatusChannel.
Record proto_option := POption { o_name : string; o_type : option_type; o_value : string }.
Record protocol := Protocol { p_id : string; p_name : string; p_options : list proto_option }.
Record plugin := Plugin {
  pl_id : string; pl_name : string; pl_summary : string; pl_desc : string; pl_loaded : bool }.
(** The icon of a nick as text, or the exceptions of [CacaImage::getIRCBuffer]. *)
Inductive icon := IconText (buf : string) | CacaError | CacaNotLoaded.

(** ** The environment

    What the session reads from the outside, as functions of everything that left
    the session so far: libpurple and src/im (buddies, accounts, conversations,
    authentication), the configuration, the C library. *)
Class Env := {
  (* im::Buddy *)
  b_name : list event -> bid -> string;
  b_account : list event -> bid -> aid;
  b_online : list event -> bid -> bool;
  b_available : list event -> bid -> bool;
  b_status : list event -> bid -> string;
  b_realname : list event -> bid -> string;
  b_group : list event -> bid -> string;
  b_alias : list event -> bid -> string;
  b_iconpath : list event -> bid -> string;
  (* im::ChatBuddy *)
  k_name : list event -> kid -> string;
  k_realname : list event -> kid -> string;
  k_account : list event -> kid -> aid;
  k_isme : list event -> kid -> bool;
  k_status : list event -> kid -> Z;
  (* im::Account *)
  a_list : list event -> list aid;               (* im->getAccountsList(), in order *)
  a_id : list event -> aid -> string;
  a_servername : list event -> aid -> string;
  a_channel : list event -> aid -> string;       (* getStatusChannelName() *)
  a_connected : list event -> aid -> bool;
  a_connecting : list event -> aid -> bool;
  a_username : list event -> aid -> string;
  a_protoname : list event -> aid -> string;
  a_denylist : list event -> aid -> list string;
  a_options : list event -> aid -> list proto_option;
  a_commands : list event -> aid -> list string;
  a_chat_params : list event -> aid -> list (string * string);
  (* im::Conversation *)
  v_name : list event -> vid -> string;
  v_topic : list event -> vid -> string;
  v_nick : list event -> vid -> option nid;
  v_channame : list event -> vid -> string;
  v_account : list event -> vid -> aid;
  (* im::IM *)
  im_send_delay : list event -> Z;
  im_away : list event -> bool;
  im_exists : list event -> string -> bool;
  im_protocols : list event -> list protocol;
  im_plugins : list event -> list plugin;
  im_setting : list event -> string -> string;   (* the getters of IM, by ADMIN key *)
  im_proxy : list event -> bool;                 (* purple_global_proxy_get_info() *)
  im_password : list event -> string;            (* im_auth->getPassword() *)
  im_user_path : string;
  im_username : string;
  (* results of the calls of [imcall], in the state after the call *)
  call_ok : list event -> bool;
  call_status : list event -> Z;
  call_conv : list event -> vid;
  call_acc : list event -> aid;
  call_error : list event -> option string;      (* the reason of the exception thrown *)
  (* im::Auth: [inr] is the IMError thrown *)
  auth_result : list event -> bool + string;
  (* what poll->ipc_send returns *)
  ipc_result : list event -> bool;
  (* configuration *)
  conf_password : string;                        (* irc/password *)
  conf_icons_url : string;                       (* irc/buddy_icons_url *)
  conf_opers : list (string * string * string);  (* login, password, email *)
  conf_file_transfers : bool;
  conf_motd : option (list string);              (* the lines of path/motd *)
  (* C library, GLib, libpurple *)
  fnmatch : string -> string -> bool;            (* matches, FNM_NOESCAPE|FNM_CASEFOLD *)
  url_decode : string -> string;
  translit : string -> option string;            (* g_convert_with_iconv to ASCII *)
  primitives : list (string * string);           (* ids and names of the status primitives *)
  icon_of : list event -> option bid -> Z -> icon; (* libcaca and imlib2 *)
  write_file_ok : list event -> string -> bool;  (* check_write_file, fopen, connect *)
  version : string; build : string; created : string; infotxt : list string
}.

(** ** The monad *)

Inductive res (A : Type) :=
| Ok (a : A) (w : world)
| Exc (e : exn) (w : world)      (* the state when the exception is thrown *)
| UB (why : string).
Arguments Ok {A} a w.
Arguments Exc {A} e w.
Arguments UB {A} why.

Definition M (A : Type) : Type := world -> res A.

Definition ret {A} (a : A) : M A := fun w => Ok a w.
Definition bind {A B} (m : M A) (k : A -> M B) : M B := fun w =>
  match m w with Ok a w => k a w | Exc e w => Exc e w | UB s => UB s end.
Definition throw {A} (e : exn) : M A := fun w => Exc e w.
Definition stuck {A} (why : string) : M A := fun _ => UB why.
Definition get {A} (f : world -> A) : M A := fun w => Ok (f w) w.
Definition put (f : world -> world) : M unit := fun w => Ok tt (f w).
Definition lift {A} (o : outcome A) : M A := fun w =>
  match o with Prelude.Ret a => Ok a w | Throw e => Exc e w | Stuck s => UB s end.
(** [try m catch (SockError &e) h]. *)
Definition catch_sock (m : M unit) (h : string -> M unit) : M unit := fun w =>
  match m w with Exc (SockError r) w => h r w | r => r end.

Fixpoint mapM_ {A} (f : A -> M unit) (l : list A) : M unit :=
  match l with [] => ret tt | x :: l => bind (f x) (fun _ => mapM_ f l) end.
Definition when (b : bool) (m : M unit) : M unit := if b then m else ret tt.
End W.

Notation "'let!' x := m ; k" := (W.bind m (fun x => k))
  (at level 10, x binder, m at level 100, k at level 200) : minbif_scope.
Notation "m ;; k" := (W.bind m (fun _ => k))
  (at level 100, right associativity) : minbif_scope.

Module Obj.
Import W.
Section Obj.
Context {env : Env}.

Definition trace : M (list event) := get (fun w => o_trace (w_io w)).
Definition emit (e : event) : M unit :=
  put (on_io (up_o_trace (fun t => t ++ [e]))).
Definition im_call (c : imcall) : M unit := emit (ImCall c).
(** A view of the environment at this point. *)
Definition ask {A} (f : list event -> A) : M A := let! t := trace; ret (f t).

(** ** Pointers *)

Definition deref {A} (what : string) (o : option A) : M A :=
  match o with Some a => ret a | None => stuck ("dangling " +:+ what) end.
Definition get_nick (n : nid) : M nick := fun w =>
  deref "Nick" (h_nicks (w_heap w) !! n) w.
Definition get_cu (u : uid) : M chanuser := fun w =>
  deref "ChanUser" (h_cus (w_heap w) !! u) w.
Definition get_chan (c : cid) : M channel := fun w =>
  deref "Channel" (h_chans (w_heap w) !! c) w.
Definition get_server (s : sid) : M server := fun w =>
  deref "Server" (h_servers (w_heap w) !! s) w.

Definition put_nick (n : nid) (x : nick) : M unit := put (on_heap (up_h_nicks (insert n x))).
Definition put_cu (u : uid) (x : chanuser) : M unit := put (on_heap (up_h_cus (insert u x))).
Definition put_chan (c : cid) (x : channel) : M unit := put (on_heap (up_h_chans (insert c x))).
Definition put_server (s : sid) (x : server) : M unit :=
  put (on_heap (up_h_servers (insert s x))).
Definition delete_nick (n : nid) : M unit := put (on_heap (up_h_nicks (delete n))).
Definition delete_cu (u : uid) : M unit := put (on_heap (up_h_cus (delete u))).
Definition delete_chan (c : cid) : M unit := put (on_heap (up_h_chans (delete c))).
Definition delete_server (s : sid) : M unit := put (on_heap (up_h_servers (delete s))).

(** [new]: an address no object has. *)
Definition alloc : M nat :=
  let! n := get (fun w => h_next (w_heap w));
  put (on_heap (up_h_next S));; ret n.

(** Field updates. *)
Definition with_channels (x : nick) (l : list uid) : nick :=
  Nick (nk_name x) (identname x) (hostname x) (realname x) (away x) (nk_server x)
       (nk_flags x) l (nk_kind x).
Definition with_name (x : nick) (s : string) : nick :=
  Nick s (identname x) (hostname x) (realname x) (away x) (nk_server x)
       (nk_flags x) (channels x) (nk_kind x).
Definition with_flags (x : nick) (f : Z) : nick :=
  Nick (nk_name x) (identname x) (hostname x) (realname x) (away x) (nk_server x)
       f (channels x) (nk_kind x).
Definition with_away (x : nick) (s : string) : nick :=
  Nick (nk_name x) (identname x) (hostname x) (realname x) s (nk_server x)
       (nk_flags x) (channels x) (nk_kind x).
Definition with_ident (x : nick) (s : string) : nick :=
  Nick (nk_name x) s (hostname x) (realname x) (away x) (nk_server x)
       (nk_flags x) (channels x) (nk_kind x).
Definition with_host (x : nick) (s : string) : nick :=
  Nick (nk_name x) (identname x) s (realname x) (away x) (nk_server x)
       (nk_flags x) (channels x) (nk_kind x).
Definition with_real (x : nick) (s : string) : nick :=
  Nick (nk_name x) (identname x) (hostname x) s (away x) (nk_server x)
       (nk_flags x) (channels x) (nk_kind x).
Definition with_kind (x : nick) (k : nick_kind) : nick :=
  Nick (nk_name x) (identname x) (hostname x) (realname x) (away x) (nk_server x)
       (nk_flags x) (channels x) k.
Definition with_users (x : channel) (l : list uid) : channel :=
  Channel (ch_name x) (topic x) l (ch_kind x).
Definition with_topic (x : channel) (s : string) : channel :=
  Channel (ch_name x) s (users x) (ch_kind x).
Definition with_ckind (x : channel) (k : chan_kind) : channel :=
  Channel (ch_name x) (topic x) (users x) k.
Definition with_status (x : chanuser) (s : Z) : chanuser :=
  ChanUser (cu_name x) (cu_nick x) (cu_chan x) s.
Definition with_svusers (x : server) (l : list nid) : server :=
  Server (sv_name x) (info x) l (sv_kind x).

(** ** Entities *)

Definition longname (x : nick) : string :=
  nk_name x +:+ "!" +:+ identname x +:+ "@" +:+ hostname x.

(** [Entity::getName], which is not virtual, and the virtual [getLongName]. *)
Definition ent_name (h : heap) (e : ent) : option string :=
  match e with
  | ENick n => nk_name <$> h_nicks h !! n
  | ECu u => cu_name <$> h_cus h !! u
  | EChan c => ch_name <$> h_chans h !! c
  | EServer s => sv_name <$> h_servers h !! s
  end.
Definition ent_long (h : heap) (e : ent) : option string :=
  match e with
  | ENick n => longname <$> h_nicks h !! n
  | ECu u => h_cus h !! u ≫= fun x => longname <$> h_nicks h !! cu_nick x
  | EChan c => ch_name <$> h_chans h !! c
  | EServer s => sv_name <$> h_servers h !! s
  end.
(** [format] on the objects of the heap; a dangling sender or receiver is stuck. *)
Definition format (m : message) : M string := fun w =>
  let h := w_heap w in
  let alive f se := match Msg.entity se with Some e => bool_decide (is_Some (f h e)) | None => true end in
  if alive ent_long (Msg.sender m) && alive ent_name (Msg.receiver m)
  then Ok (Msg.format (fun e => default "" (ent_name h e)) (fun e => default "" (ent_long h e)) m) w
  else UB "dangling Entity".

(** ** Writing to the user *)

(** [SockWrapperPlain::Write]. *)
Definition sock_write (s : string) : M unit :=
  let! ok := get (fun w => o_sock_ok (w_io w));
  if negb ok then ret tt
  else
    let! rs := get (fun w => o_writes (w_io w));
    put (on_io (up_o_writes tail));;
    match rs with
    | [] | WOk :: _ => emit (Write s)
    | WClosed :: _ =>
      put (on_io (up_o_sock_ok (fun _ => false)));;
      throw (SockError "Connection reset by peer...")
    | WAgain :: _ => ret tt
    | WError e :: _ =>
      put (on_io (up_o_sock_ok (fun _ => false)));;
      throw (SockError ("Read error: " +:+ e))
    end.

(** [User::send]; [sockw] is the pointer of the [User] object. *)
Definition user_send (sockw : bool) (m : message) : M unit :=
  if sockw then let! s := format m; sock_write s else ret tt.

(** [ServerPoll::log] of a process which serves an IRC user (inetd.cpp, and
    daemon_fork.cpp in the child). *)
Definition poll_log (level : Z) (msg : string) : M unit :=
  let cmd := if Log.hasb level Log.W_DEBUG then "PRIVMSG" else "NOTICE" in
  let! i := get w_irc;
  mapM_ (fun line =>
           let! u := get_nick (i_user i);
           let! m := lift (Msg.addArg line
                      (Msg.setReceiver (ENick (i_user i))
                      (Msg.setSender (EServer (i_self i)) (Msg.mk cmd))));
           match nk_kind u with
           | KUser _ _ sockw => user_send sockw m
           | _ => stuck "getUser() is not a User"
           end)
        (Tok.tokens (String "010" (String "013" "")) msg).

(** [b_log[flags] << str]. *)
Definition b_log (flags : Z) (str : string) : M unit :=
  let! l := get (fun w => o_log (w_io w));
  let '(sys, usr) := Log.flux l flags str in
  mapM_ (fun '(lv, t) => emit (Syslog lv t)) sys;;
  match usr with Some (lv, t) => poll_log lv t | None => ret tt end.
End Obj.
End Obj.

(** What libpurple keeps of the settings of an account: the value set last by the
    events, [d] at first. *)
Module Ui.
Import W.
Definition last_set {A} (f : event -> option A) (d : A) (t : list event) : A :=
  foldl (fun v e => default v (f e)) d t.
Definition of_account {A} (a b : aid) (k key : string) (v : A) : option A :=
  if (b =? a)%nat && String.eqb k key then Some v else None.
Definition set_int (a : aid) (key : string) (e : event) : option Z :=
  match e with ImCall (Purple (UiInt b k v)) => of_account a b k key v | _ => None end.
Definition set_string (a : aid) (key : string) (e : event) : option string :=
  match e with ImCall (Purple (UiString b k v)) => of_account a b k key v | _ => None end.
Definition set_bool (a : aid) (key : string) (e : event) : option bool :=
  match e with ImCall (Purple (UiBool b k v)) => of_account a b k key v | _ => None end.
Definition opt_string (a : aid) (key : string) (e : event) : option string :=
  match e with ImCall (Purple (OptString b k v)) => of_account a b k key v | _ => None end.
Definition opt_int (a : aid) (key : string) (e : event) : option Z :=
  match e with ImCall (Purple (OptInt b k v)) => of_account a b k key v | _ => None end.
Definition opt_bool (a : aid) (key : string) (e : event) : option bool :=
  match e with ImCall (Purple (OptBool b k v)) => of_account a b k key v | _ => None end.
Definition set_password (a : aid) (e : event) : option string :=
  match e with ImCall (Purple (SetPassword b v)) => if (b =? a)%nat then Some v else None | _ => None end.
Definition last_int (a : aid) (key : string) : Z -> list event -> Z := last_set (set_int a key).
Definition last_string (a : aid) (key : string) : string -> list event -> string := last_set (set_string a key).
(** How many sources were made. *)
Definition timers (t : list event) : nat :=
  length (List.filter (fun e => match e with ImCall (Purple (TimeoutAdd _ _)) => true | _ => false end) t).
End Ui.
