(* ===== verification/Dcc.v ===== *)
(** irc/dcc.cpp: the text of a DCC SEND request, as [DCCServer::listen_cb] writes
    it and as [DCCGet::parseDCCSEND] reads it, and [s2t] (core/util.h). *)

From S2P Require Import Prelude Util Message.

Module Num.

(** [s2t<T>]: [istringstream >> Dest] for an integer type.  [None] is the empty
    (or blank) text, on which the extraction leaves [Dest] uninitialised. *)
Definition isspace (c : ascii) : bool :=
  (code c =? 32) || ((9 <=? code c) && (code c <=? 13)).
Fixpoint skip_ws (s : string) : string :=
  match s with String c s' => if isspace c then skip_ws s' else s | _ => s end.
Fixpoint digits (acc : Z) (s : string) : Z :=
  match s with
  | String c s' => if isdigit c then digits (10 * acc + (code c - 48)) s' else acc
  | _ => acc
  end.
(** Sign, presence of a digit, value of the digits. *)
Definition scan (s : string) : bool * bool * Z :=
  let '(neg, s) :=
    match s with
    | String c s' => if Ascii.eqb c "-" then (true, s') else if Ascii.eqb c "+" then (false, s')
                     else (false, s)
    | _ => (false, s)
    end in
  (neg, isdigit (shead s), digits 0 s).

(** An unsigned type of [w] bits: too large gives the maximum, a minus sign wraps. *)
Definition s2t_unsigned (w : Z) (s : string) : option Z :=
  let s := skip_ws s in
  if sempty s then None
  else let '(neg, some, v) := scan s in
       Some (if negb some then 0
             else if 2 ^ w - 1 <? v then 2 ^ w - 1
             else if neg then (- v) mod 2 ^ w else v).
(** A signed type of [w] bits. *)
Definition s2t_signed (w : Z) (s : string) : option Z :=
  let s := skip_ws s in
  if sempty s then None
  else let '(neg, some, v) := scan s in
       Some (if negb some then 0
             else if neg then (if 2 ^ (w - 1) <? v then - 2 ^ (w - 1) else - v)
             else if 2 ^ (w - 1) - 1 <? v then 2 ^ (w - 1) - 1 else v).

Lemma code_chr z : 0 <= z < 256 -> code (chr z) = z.
Proof.
  intros H. unfold code, chr. rewrite nat_ascii_embedding by lia. lia.
Qed.
Lemma isdigit_chr z : 0 <= z <= 9 -> isdigit (chr (48 + z)) = true.
Proof. intros H. unfold isdigit. rewrite code_chr by lia. lia. Qed.

(** ** Decimal round trip *)

Lemma dec_digits_app n z acc : dec_digits n z acc = dec_digits n z "" +:+ acc.
Proof.
  revert z acc. induction n as [|n IH]; intros z acc; [done|]. cbn [dec_digits].
  destruct (z <? 10); [done|]. rewrite IH, (IH _ (String _ _)), app_assoc_s. done.
Qed.

Lemma digits_app acc s t :
  sall isdigit s = true -> digits acc (s +:+ t) = digits (digits acc s) t.
Proof.
  revert acc. induction s as [|c s IH]; intros acc; [done|]. rewrite app_cons_s. cbn.
  intros [-> Hs]%andb_true_iff. by apply IH.
Qed.

Lemma dec_digits_spec n z :
  0 <= z < 10 ^ Z.of_nat n -> (0 < n)%nat ->
  sall isdigit (dec_digits n z "") = true /\ dec_digits n z "" <> ""
  /\ digits 0 (dec_digits n z "") = z.
Proof.
  revert z. induction n as [|n IH]; intros z Hz Hn; [lia|]. cbn [dec_digits].
  pose proof (Z.mod_pos_bound z 10). pose proof (Z.div_mod z 10).
  destruct (Z.ltb_spec z 10) as [Hlt|Hge].
  - rewrite Z.mod_small by lia. split; [|split]; [|done|].
    + cbn [sall]. rewrite isdigit_chr by lia. done.
    + cbn [digits]. rewrite isdigit_chr, code_chr by lia. lia.
  - destruct n as [|n]; [cbn in Hz; lia|].
    assert (Hq : 0 <= z / 10 < 10 ^ Z.of_nat (S n)).
    { split; [apply Z.div_pos; lia|]. apply Z.div_lt_upper_bound; [lia|].
      rewrite <- Z.pow_succ_r, <- Nat2Z.inj_succ by lia. lia. }
    destruct (IH (z / 10) Hq ltac:(lia)) as (Ha & Hb & Hc).
    rewrite dec_digits_app. split; [|split].
    + rewrite sall_app, Ha. cbn [sall]. rewrite isdigit_chr by lia. done.
    + by destruct (dec_digits (S n) (z / 10) "").
    + rewrite digits_app, Hc by done. cbn [digits].
      rewrite isdigit_chr, code_chr by lia. lia.
Qed.

Lemma t2s_spec z :
  0 <= z < 10 ^ 20 ->
  sall isdigit (t2s z) = true /\ t2s z <> "" /\ digits 0 (t2s z) = z.
Proof.
  intros Hz. unfold t2s. destruct (Z.ltb_spec z 0); [lia|].
  apply dec_digits_spec; [done|lia].
Qed.

Lemma digit_props c : isdigit c = true ->
  isspace c = false /\ Ascii.eqb c "-" = false /\ Ascii.eqb c "+" = false
  /\ Ascii.eqb c "034" = false /\ Ascii.eqb c " " = false.
Proof. destruct c as [[] [] [] [] [] [] [] []]; vm_compute; intuition congruence. Qed.

Lemma scan_digits s :
  sall isdigit s = true -> s <> "" ->
  skip_ws s = s /\ scan s = (false, true, digits 0 s).
Proof.
  destruct s as [|c s]; [done|]. cbn [sall]. intros [Hc Hs]%andb_true_iff _.
  destruct (digit_props c Hc) as (H1 & H2 & H3 & _). split; [cbn; by rewrite H1|].
  unfold scan. rewrite H2, H3. cbn [shead]. by rewrite Hc.
Qed.

Lemma s2t_unsigned_t2s w z :
  0 <= z < 2 ^ w -> z < 10 ^ 20 -> s2t_unsigned w (t2s z) = Some z.
Proof.
  intros Hz Hb. destruct (t2s_spec z) as (Hd & Hne & Hv); [lia|].
  destruct (scan_digits _ Hd Hne) as [Hws Hsc]. unfold s2t_unsigned.
  rewrite Hws, Hsc, Hv. destruct (sempty (t2s z)) eqn:E; [by apply sempty_spec in E|].
  cbn. destruct (Z.ltb_spec (2 ^ w - 1) z); [lia|done].
Qed.
Lemma s2t_signed_t2s w z :
  0 <= z < 2 ^ (w - 1) -> z < 10 ^ 20 -> s2t_signed w (t2s z) = Some z.
Proof.
  intros Hz Hb. destruct (t2s_spec z) as (Hd & Hne & Hv); [lia|].
  destruct (scan_digits _ Hd Hne) as [Hws Hsc]. unfold s2t_signed.
  rewrite Hws, Hsc, Hv. destruct (sempty (t2s z)) eqn:E; [by apply sempty_spec in E|].
  cbn. destruct (Z.ltb_spec (2 ^ (w - 1) - 1) z); [lia|done].
Qed.
Lemma digits_no_space s : sall isdigit s = true -> has_char " " s = false.
Proof. intros H. by eapply sall_has_char. Qed.
End Num.

Module Dcc.
Import Msg.

Definition soh : ascii := "001".

(** The result of a successful [parseDCCSEND]. *)
Record request := Request { filename : string; addr : Z; port : Z; size : Z }.

(** [Message args; while(...) args.addArg(word)]. *)
Fixpoint addArgs {E} (l : list string) (m : message E) : outcome (message E) :=
  match l with [] => Ret m | s :: l => olet m := addArg s m; addArgs l m end.

Definition init (o : option Z) : outcome Z :=
  match o with Some z => Ret z | None => Stuck "uninitialised" end.

(** [DCCGet::parseDCCSEND]. *)
Definition parseDCCSEND (line : string) : outcome (option request) :=
  if negb (Ascii.eqb (shead line) soh)
     || match slast line with Some c => negb (Ascii.eqb c soh) | None => true end
  then Ret None
  else
    let line := substr 1 (slen line - 2) line in
    olet m := addArgs (E := unit) (Tok.tokens " " line) mk0;
    olet m := rebuildWithQuotes m;
    match args m with
    | [a0; a1; a2; a3; a4; a5] =>
      if String.eqb a0 "DCC" && String.eqb a1 "SEND" then
        olet addr := init (Num.s2t_unsigned 32 a3);
        olet port := init (Num.s2t_unsigned 16 a4);
        olet size := init (Num.s2t_signed 64 a5);
        Ret (Some (Request a2 addr port size))
      else Ret None
    | _ => Ret None
    end.

(** The argument of the PRIVMSG [DCCServer::listen_cb] sends for a file: the
    escaped copy of the name it computes is not the one it writes. *)
Definition request_text (type filename : string) (addr port total_size : Z) : string :=
  String soh "DCC " +:+ type +:+ " " +:+ String dq "" +:+ filename +:+ String dq "" +:+ " "
  +:+ t2s addr +:+ " " +:+ t2s port
  +:+ (if total_size =? 0 then "" else " " +:+ t2s total_size) +:+ String soh "".
Definition escaped_filename (filename : string) : string :=
  smap (fun c => if Ascii.eqb c dq then "'"%char else c) filename.

(** ** Lemmas *)

Lemma addArgs_ok {E} l (m : message E) :
  back_has_space (args m) = false -> forallb (fun a => negb (has_char " " a)) l = true ->
  addArgs l m = Ret (with_args m (args m ++ l)).
Proof.
  revert m. induction l as [|a l IH]; intros m Hb Hl.
  - cbn. destruct m. by rewrite app_nil_r.
  - cbn [forallb] in Hl. apply andb_true_iff in Hl as [Ha Hl]. cbn [addArgs].
    unfold addArg. rewrite Hb. cbn [obind]. apply negb_true_iff in Ha.
    rewrite IH; [|cbn; by rewrite back_snoc|done]. cbn. by rewrite <- app_assoc.
Qed.

Lemma tokens_word w r :
  w <> "" -> has_char " " w = false ->
  Tok.tokens " " (w +:+ " " +:+ r) = w :: Tok.tokens " " r.
Proof.
  intros Hne Hw. rewrite Tok.tokens_eq, stringtok_word by done. by destruct w.
Qed.
Lemma tokens_last w :
  w <> "" -> has_char " " w = false -> Tok.tokens " " w = [w].
Proof.
  intros Hne Hw. rewrite Tok.tokens_eq, stringtok_last by done. by destruct w.
Qed.

Lemma substr_inner c d m : substr 1 (slen (String c (m +:+ String d "")) - 2)
                             (String c (m +:+ String d "")) = m.
Proof.
  unfold substr. cbn [slen sdrop]. rewrite slen_app. cbn [slen].
  replace (S (slen m + 1) - 2)%nat with (slen m) by lia.
  apply stake_app.
Qed.

(** A file name the request can carry: words without quotes, separated by single
    spaces. *)
Definition plain_word (w : string) : bool :=
  negb (sempty w) && negb (has_char " " w) && negb (has_char dq w).

Lemma slast_in s c : slast s = Some c -> has_char c s = true.
Proof.
  induction s as [|x s IH]; [done|]. cbn [slast has_char]. destruct s.
  - intros [= ->]. by rewrite Ascii.eqb_refl.
  - intros H%IH. rewrite H. by rewrite orb_true_r.
Qed.

Lemma plain_inner w : plain_word w = true -> Quotes.inner_word w = true.
Proof.
  unfold plain_word, Quotes.inner_word. intros [[Hne _]%andb_true_iff Hq]%andb_true_iff.
  destruct (slast w) as [c|] eqn:E.
  - apply slast_in in E. destruct (Ascii.eqb_spec c dq) as [->|]; [|done].
    by rewrite E in Hq.
  - destruct w as [|c w]; [done|]. exfalso. clear Hne Hq. revert c E.
    induction w as [|d w IH]; intros c E; [done|]. by apply (IH d).
Qed.

Lemma tokens_quoted w ws r :
  plain_word w = true -> forallb plain_word ws = true ->
  Tok.tokens " " (String dq (Quotes.unwords w ws) +:+ String dq "" +:+ " " +:+ r)
  = Quotes.close_quote (String dq w) ws ++ Tok.tokens " " r.
Proof.
  intros Hw Hws.
  assert (Hgen : forall v, v <> "" -> has_char " " v = false ->
    forall ws, forallb plain_word ws = true ->
    Tok.tokens " " (Quotes.unwords v ws +:+ String dq "" +:+ " " +:+ r)
    = Quotes.close_quote v ws ++ Tok.tokens " " r).
  { clear. intros v Hne Hv ws. revert v Hne Hv. induction ws as [|x ws IH]; intros v Hne Hv Hws.
    - cbn [Quotes.unwords Quotes.close_quote app]. rewrite <- app_assoc_s.
      rewrite tokens_word; [done|by destruct v|]. by rewrite has_char_app, Hv.
    - cbn [forallb] in Hws. apply andb_true_iff in Hws as [Hx Hws].
      cbn [Quotes.unwords Quotes.close_quote app]. rewrite !app_assoc_s.
      rewrite tokens_word by done. f_equal. unfold plain_word in Hx. ascii_cases.
      apply IH; [|by apply negb_true_iff|done]. by intros ->. }
  replace (String dq (Quotes.unwords w ws)) with (Quotes.unwords (String dq w) ws)
    by (by destruct ws).
  apply Hgen; [done| |done]. unfold plain_word in Hw. cbn.
  change (Ascii.eqb dq " ") with false. ascii_cases. by apply negb_true_iff.
Qed.

Lemma forall_removelast {A} (p : A -> bool) l :
  forallb p l = true -> forallb p (removelast l) = true.
Proof.
  induction l as [|x l IH]; [done|]. cbn. intros [Hx Hl]%andb_true_iff.
  destruct l; [done|]. cbn in *. rewrite Hx. by apply IH.
Qed.
Lemma close_quote_no_space w ws :
  has_char " " w = false -> forallb plain_word ws = true ->
  forallb (fun a => negb (has_char " " a)) (Quotes.close_quote w ws) = true.
Proof.
  revert w. induction ws as [|x ws IH]; intros w Hw Hws; cbn.
  - by rewrite has_char_app, Hw.
  - cbn in Hws. apply andb_true_iff in Hws as [Hx Hws]. rewrite Hw. cbn.
    apply IH; [|done]. unfold plain_word in Hx. ascii_cases. by apply negb_true_iff.
Qed.
End Dcc.

(** * Properties *)

Import Msg Dcc.

(** What is read of a request whose last arguments are the numbers [nums]. *)
Lemma parse_request (w : string) (ws : list string) (text : string) (nums : list Z) :
  forallb plain_word (w :: ws) = true -> Forall (fun z => 0 <= z < 10 ^ 20) nums -> nums <> [] ->
  Tok.tokens " " text = map t2s nums ->
  parseDCCSEND (String soh "DCC " +:+ "SEND" +:+ " " +:+ String dq "" +:+ Quotes.unwords w ws +:+ String dq "" +:+ " "
                +:+ text +:+ String soh "")
  = match nums with
    | [a; p; n] =>
      olet addr := init (Num.s2t_unsigned 32 (t2s a));
      olet port := init (Num.s2t_unsigned 16 (t2s p));
      olet size := init (Num.s2t_signed 64 (t2s n));
      Ret (Some (Request (Quotes.unwords w ws) addr port size))
    | _ => Ret None
    end.
Proof.
  intros Hws Hnums Hne Htext. cbn [forallb] in Hws. apply andb_true_iff in Hws as [Hw Hws].
  assert (Hs : forallb (fun a => negb (has_char " " a)) (map t2s nums) = true).
  { apply forallb_forall. intros x (z & <- & Hz)%in_map_iff. apply negb_true_iff.
    rewrite Forall_forall in Hnums. destruct (Num.t2s_spec z) as (D & _ & _); [apply Hnums; by apply list_elem_of_In|].
    by apply Num.digits_no_space. }
  assert (Hq : forallb Quotes.quoted_free (map t2s nums) = true).
  { apply forallb_forall. intros x (z & <- & Hz)%in_map_iff. rewrite Forall_forall in Hnums.
    destruct (Num.t2s_spec z) as (Dz & Nz & _); [apply Hnums; by apply list_elem_of_In|].
    destruct (t2s z) as [|c s]; [done|]. cbn in Dz. apply andb_true_iff in Dz as [Dz _].
    destruct (Num.digit_props c Dz) as (_ & _ & _ & H & _). unfold Quotes.quoted_free, dq. cbn. by rewrite H. }
  set (mid := "DCC SEND " +:+ String dq (Quotes.unwords w ws) +:+ String dq "" +:+ " " +:+ text).
  replace (String soh "DCC " +:+ _) with (String soh (mid +:+ String soh "")).
  2:{ unfold mid. repeat (rewrite ?app_assoc_s, ?app_cons_s, ?app_nil_l_s). done. }
  unfold parseDCCSEND. rewrite <- (app_nil_l_s (mid +:+ _)), <- app_cons_s, <- app_assoc_s.
  rewrite slast_app by done. cbn [slast]. rewrite !app_assoc_s, app_cons_s. cbn [shead].
  rewrite Ascii.eqb_refl. cbn [negb orb]. rewrite app_nil_l_s, substr_inner.
  assert (Ht : Tok.tokens " " mid = ["DCC"; "SEND"] ++ Quotes.close_quote (String dq w) ws ++ map t2s nums).
  { unfold mid. change ("DCC SEND " +:+ ?x) with ("DCC" +:+ " " +:+ "SEND" +:+ " " +:+ x).
    rewrite !tokens_word by done. rewrite tokens_quoted by done. by rewrite Htext. }
  rewrite Ht, addArgs_ok; [|done|].
  2:{ rewrite !forallb_app, close_quote_no_space; [|cbn|done].
      - by rewrite Hs.
      - unfold plain_word in Hw. ascii_cases. by apply negb_true_iff. }
  cbn [obind]. unfold rebuildWithQuotes. cbn [args mk0 mk with_args].
  rewrite app_nil_l, Quotes.rebuild_skip; [|done|rewrite length_app; lia].
  rewrite Quotes.rebuild_close.
  - cbn [obind args with_args app]. by destruct nums as [|a [|p [|n [|? ?]]]].
  - done.
  - unfold plain_word in Hw. ascii_cases. by apply negb_true_iff.
  - apply forall_removelast. cbn [forallb]. rewrite plain_inner by done. cbn.
    clear -Hws. induction ws as [|x ws IH]; [done|]. cbn in *.
    apply andb_true_iff in Hws as [Hx Hws]. rewrite plain_inner by done. by apply IH.
  - cbn. lia.
Qed.

(** C39: a DCC SEND request survives the text form: [parseDCCSEND] reads from the
    request [listen_cb] writes the file name, the address, the port and the size
    it was written with, when the name is made of quote-free words separated by single
    spaces (the quotes of a name are not replaced) and the values are in the ranges of
    the fields; but for a file of size 0, whose request has no size and is refused. *)
Theorem dcc_roundtrip (w : string) (ws : list string) (a p n : Z) :
  forallb plain_word (w :: ws) = true ->
  0 <= a < 2 ^ 32 -> 0 <= p < 2 ^ 16 -> 0 <= n < 2 ^ 63 ->
  parseDCCSEND (request_text "SEND" (Quotes.unwords w ws) a p n)
  = Ret (if n =? 0 then None else Some (Request (Quotes.unwords w ws) a p n)).
Proof.
  intros Hws Ha Hp Hn.
  assert (Hd : forall z, 0 <= z < 10 ^ 20 -> has_char " " (t2s z) = false /\ t2s z <> "").
  { intros z Hz. destruct (Num.t2s_spec z Hz) as (D & N & _). split; [by apply Num.digits_no_space|done]. }
  destruct (Hd a) as [Sa Na]; [lia|]. destruct (Hd p) as [Sp Np]; [lia|]. destruct (Hd n) as [Sn Nn]; [lia|].
  unfold request_text. destruct (Z.eqb_spec n 0) as [->|Hn0].
  - pose proof (parse_request w ws (t2s a +:+ " " +:+ t2s p) [a; p] Hws) as H. rewrite !app_assoc_s, app_nil_l_s in *.
    apply H; [repeat constructor; lia|done|]. rewrite tokens_word by done. by rewrite tokens_last.
  - pose proof (parse_request w ws (t2s a +:+ " " +:+ t2s p +:+ " " +:+ t2s n) [a; p; n] Hws) as H. rewrite !app_assoc_s in *.
    rewrite H; [|repeat constructor; lia|done|].
    + rewrite !Num.s2t_unsigned_t2s, Num.s2t_signed_t2s by lia. done.
    + rewrite !tokens_word by done. by rewrite tokens_last.
Qed.

Theorem dcc_roundtrip_witness :
  parseDCCSEND (request_text "SEND" "my pic.png" 3232235777 5000 123456)
  = Ret (Some (Request "my pic.png" 3232235777 5000 123456))
  /\ parseDCCSEND (request_text "SEND" "my pic.png" 3232235777 5000 0) = Ret None.
Proof.
  split; [by apply (dcc_roundtrip "my" ["pic.png"] 3232235777 5000 123456)|].
  by apply (dcc_roundtrip "my" ["pic.png"] 3232235777 5000 0).
Defined.
(** A quote at the end of a word is not escaped, whatever the comment says; two spaces
    are read as one. *)
Example quoted_name :
  parseDCCSEND (request_text "SEND" ("a" +:+ String dq " b") 1 2 3) = Ret None
  /\ parseDCCSEND (request_text "SEND" "a  b" 1 2 3) = Ret (Some (Request "a b" 1 2 3)).
Proof. vm_compute. done. Qed.
