(* ===== verification/Effects.v ===== *)
(** The monad of the components outside the session: a state, exceptions and
    undefined behaviour, with its weakest preconditions.  Authentication, the
    daemon, the configuration and the transfers each fix the state and the
    exceptions. *)

From S2P Require Import Prelude.

Module Eff.

(** How a computation ends: it returns, throws, or the behaviour is undefined. *)
Inductive out (E A : Type) := Done (a : A) | Raise (e : E) | Crash (what : string).
Arguments Done {E A} _.
Arguments Raise {E A} _.
Arguments Crash {E A} _.

Section Eff.
Context {S E : Type}.

Definition M (A : Type) : Type := S -> S * out E A.
Definition ret {A} (a : A) : M A := fun s => (s, Done a).
Definition bind {A B} (m : M A) (k : A -> M B) : M B := fun s =>
  match m s with
  | (s, Done a) => k a s
  | (s, Raise e) => (s, Raise e)
  | (s, Crash w) => (s, Crash w)
  end.
Definition throw {A} (e : E) : M A := fun s => (s, Raise e).
Definition crash {A} (w : string) : M A := fun s => (s, Crash w).
Definition get {A} (f : S -> A) : M A := fun s => (s, Done (f s)).
Definition put (f : S -> S) : M unit := fun s => (f s, Done tt).
(** [try m catch(...) h]: [h e] is [None] for an exception it does not take. *)
Definition catch {A} (m : M A) (h : E -> option (M A)) : M A := fun s =>
  match m s with
  | (s, Raise e) => match h e with Some k => k s | None => (s, Raise e) end
  | r => r
  end.
Definition when (b : bool) (m : M unit) : M unit := if b then m else ret tt.
Definition deref {A} (what : string) (o : option A) : M A :=
  match o with Some a => ret a | None => crash what end.
Fixpoint mapM_ {A} (f : A -> M unit) (l : list A) : M unit :=
  match l with [] => ret tt | a :: l => bind (f a) (fun _ => mapM_ f l) end.

(** [wp m Q R s]: from [s], [m] has no undefined behaviour; [Q] holds when it
    returns, [R] when it throws. *)
Definition wp {A} (m : M A) (Q : A -> S -> Prop) (R : E -> S -> Prop) (s : S) : Prop :=
  match m s with
  | (s', Done a) => Q a s'
  | (s', Raise e) => R e s'
  | (_, Crash _) => False
  end.

Lemma ewp_mono {A} (m : M A) (Q Q' : A -> S -> Prop) (R R' : E -> S -> Prop) s :
  wp m Q R s -> (forall a s', Q a s' -> Q' a s') -> (forall e s', R e s' -> R' e s') ->
  wp m Q' R' s.
Proof. unfold wp. destruct (m s) as [s' []]; auto. Qed.
Lemma ewp_bind {A B} (m : M A) (k : A -> M B) Q R s :
  wp m (fun a s' => wp (k a) Q R s') R s -> wp (bind m k) Q R s.
Proof. unfold wp, bind. by destruct (m s) as [s' []]. Qed.
Lemma ewp_ret {A} (a : A) (Q : A -> S -> Prop) R s : Q a s -> wp (ret a) Q R s.
Proof. done. Qed.
Lemma ewp_throw {A} e (Q : A -> S -> Prop) (R : E -> S -> Prop) s : R e s -> wp (throw e) Q R s.
Proof. done. Qed.
Lemma ewp_get {A} (f : S -> A) (Q : A -> S -> Prop) R s : Q (f s) s -> wp (get f) Q R s.
Proof. done. Qed.
Lemma ewp_put f (Q : unit -> S -> Prop) R s : Q tt (f s) -> wp (put f) Q R s.
Proof. done. Qed.
Lemma ewp_when (b : bool) (m : M unit) Q R s :
  (b = true -> wp m Q R s) -> (b = false -> Q tt s) -> wp (when b m) Q R s.
Proof. intros H1 H2. destruct b; [by apply H1|by apply (H2 eq_refl)]. Qed.
Lemma ewp_catch {A} (m : M A) h (Q : A -> S -> Prop) (R : E -> S -> Prop) s :
  wp m Q (fun e s' => match h e with Some k => wp k Q R s' | None => R e s' end) s ->
  wp (catch m h) Q R s.
Proof.
  unfold wp, catch. destruct (m s) as [s' [a|e|w]]; try done. by destruct (h e).
Qed.
Lemma ewp_mapM_ {A} (f : A -> M unit) l (I : S -> Prop) R s :
  I s -> (forall a s, a ∈ l -> I s -> wp (f a) (fun _ => I) R s) -> wp (mapM_ f l) (fun _ => I) R s.
Proof.
  revert s. induction l as [|a l IH]; intros s Hs Hf; [done|]. cbn [mapM_].
  apply ewp_bind. eapply ewp_mono; [apply Hf; [left|done]| |done].
  intros [] s' Hs'. apply IH; [done|]. intros b s2 Hb. apply Hf. by right.
Qed.

(** The same, where the undefined behaviour [C] is allowed. *)
Definition wpc (C : string -> Prop) {A} (m : M A) (Q : A -> S -> Prop) (R : E -> S -> Prop) (s : S) : Prop :=
  match m s with
  | (s', Done a) => Q a s'
  | (s', Raise e) => R e s'
  | (_, Crash w) => C w
  end.
Section Allowed.
Context (C : string -> Prop).
Lemma wpc_mono {A} (m : M A) (Q Q' : A -> S -> Prop) (R R' : E -> S -> Prop) s :
  wpc C m Q R s -> (forall a s', Q a s' -> Q' a s') -> (forall e s', R e s' -> R' e s') ->
  wpc C m Q' R' s.
Proof. unfold wpc. destruct (m s) as [s' []]; auto. Qed.
Lemma wpc_bind {A B} (m : M A) (k : A -> M B) Q R s :
  wpc C m (fun a s' => wpc C (k a) Q R s') R s -> wpc C (bind m k) Q R s.
Proof. unfold wpc, bind. by destruct (m s) as [s' []]. Qed.
Lemma wpc_ret {A} (a : A) (Q : A -> S -> Prop) R s : Q a s -> wpc C (ret a) Q R s.
Proof. done. Qed.
Lemma wpc_throw {A} e (Q : A -> S -> Prop) (R : E -> S -> Prop) s : R e s -> wpc C (throw e) Q R s.
Proof. done. Qed.
Lemma wpc_get {A} (f : S -> A) (Q : A -> S -> Prop) R s : Q (f s) s -> wpc C (get f) Q R s.
Proof. done. Qed.
Lemma wpc_put f (Q : unit -> S -> Prop) R s : Q tt (f s) -> wpc C (put f) Q R s.
Proof. done. Qed.
Lemma wpc_crash {A} w (Q : A -> S -> Prop) (R : E -> S -> Prop) s : C w -> wpc C (crash w) Q R s.
Proof. done. Qed.
Lemma wpc_when (b : bool) (m : M unit) (Q : unit -> S -> Prop) R s :
  (b = true -> wpc C m Q R s) -> (b = false -> Q tt s) -> wpc C (when b m) Q R s.
Proof. intros H1 H2. destruct b; [by apply H1|by apply (H2 eq_refl)]. Qed.
Lemma wpc_catch {A} (m : M A) h (Q : A -> S -> Prop) (R : E -> S -> Prop) s :
  wpc C m Q (fun e s' => match h e with Some k => wpc C k Q R s' | None => R e s' end) s ->
  wpc C (catch m h) Q R s.
Proof. unfold wpc, catch. destruct (m s) as [s' [a|e|w]]; try done. by destruct (h e). Qed.
Lemma wpc_mapM_ {A} (f : A -> M unit) l (I : S -> Prop) R s :
  I s -> (forall a s, a ∈ l -> I s -> wpc C (f a) (fun _ => I) R s) -> wpc C (mapM_ f l) (fun _ => I) R s.
Proof.
  revert s. induction l as [|a l IH]; intros s Hs Hf; [done|]. cbn [mapM_].
  apply wpc_bind. eapply wpc_mono; [apply Hf; [left|done]| |done].
  intros [] s' Hs'. apply IH; [done|]. intros b s2 Hb. apply Hf. by right.
Qed.
End Allowed.
End Eff.
Arguments M : clear implicits.
End Eff.

Declare Scope eff_scope.
Delimit Scope eff_scope with eff.
Notation "'eff!' x := m ; k" := (Eff.bind m (fun x => k))
  (at level 10, x binder, m at level 100, k at level 200) : eff_scope.
Notation "m ;; k" := (Eff.bind m (fun _ => k)) (at level 100, right associativity) : eff_scope.

(** One step of a proof about a computation. *)
Ltac eff1 :=
  match goal with
  | |- Eff.wp (Eff.bind _ _) _ _ _ => apply Eff.ewp_bind
  | |- Eff.wp (Eff.ret _) _ _ _ => apply Eff.ewp_ret
  | |- Eff.wp (Eff.throw _) _ _ _ => apply Eff.ewp_throw
  | |- Eff.wp (Eff.get _) _ _ _ => apply Eff.ewp_get
  | |- Eff.wp (Eff.put _) _ _ _ => apply Eff.ewp_put
  | |- Eff.wp (match ?x with _ => _ end) _ _ _ => destruct x eqn:?
  | |- Eff.wp (Eff.when _ _) _ _ _ => apply Eff.ewp_when; intros ?
  end.
Ltac eff := repeat (eff1; cbn beta).
