(* ===== verification/Auth.v ===== *)
(** im/auth.cpp, im/auth_local.cpp, im/auth_connection.cpp and im/auth_pam.cpp: the
    mechanisms which accept a user or make his account, and the two loops over
    them.  What [Auth] answers to a session ([auth_result] of World.v) is
    [answer]. *)

From S2P Require Import Prelude Util Message Log World Effects.

Module Auth.
Import Eff.
#[local] Open Scope eff_scope.

(** The subclasses of [Auth]. *)
Inductive mech := AuthConnection | AuthPAM | AuthLocal.
#[export] Instance mech_eq_dec : EqDecision mech.
Proof. solve_decision. Defined.

(** struct _pam_conv_func_data, what the conversation function answers with. *)
Record conv_data := Conv { cd_update : bool; cd_password : string; cd_new_password : string }.

(** An object: [im] and [pamh] are not NULL, and the data of the conversation. *)
Record obj := Obj { ob_mech : mech; ob_im : bool; ob_pamh : bool; ob_data : conv_data }.
Definition new_obj (m : mech) : obj := Obj m false false (Conv false "" "").

Inductive exn := UnableToCreate (reason : string) | IMError (reason : string).

(** The calls to libpurple, to PAM and to the session. *)
Inductive ev :=
| NewIM (username : string)
| ImSetPassword (password : string)
| Notice (text : string)
| Logged (flags : Z) (text : string)
| PamStart | PamAuthenticate (data : conv_data) | PamAcctMgmt | PamChauthtok (data : conv_data)
| PamEnd (retval : Z)
| Setuid (uid : Z).

(** The configuration (section aaa), the build, and what the calls answer after
    the past ones. *)
Class AuthEnv := {
  have_pam : bool;
  use : mech -> bool;
  pam_setuid : bool;
  user_exists : list ev -> bool;          (* im::IM::exists(username) *)
  im_init : list ev -> option string;     (* why the constructor of IM throws *)
  im_getPassword : list ev -> string;
  client_username : list ev -> string;    (* SockWrapper::GetClientUsername *)
  pam_result : list ev -> Z;              (* 0 is PAM_SUCCESS *)
  getpwnam : string -> option Z;
  setuid_ok : list ev -> bool;
  pam_strerror : Z -> string }.

Record st := St { tr : list ev; ob : obj }.
Definition M (A : Type) : Type := Eff.M st exn A.
Definition emit (e : ev) : M unit := put (fun s => St (tr s ++ [e]) (ob s)).
Definition this : M obj := get ob.
Definition put_this (o : obj) : M unit := put (fun s => St (tr s) o).
Definition ask {A} (f : list ev -> A) : M A := get (fun s => f (tr s)).
(** [throw IMError(reason)], which logs its reason. *)
Definition im_error {A} (reason : string) : M A :=
  emit (Logged Log.W_ERR reason);; throw (IMError reason).

Section Auth.
Context {aenv : AuthEnv} (username : string).

(** [im = new im::IM(irc, username)]; the exception logs itself. *)
Definition new_IM : M unit :=
  eff! e := ask im_init;
  match e with
  | Some reason => im_error reason
  | None => emit (NewIM username);; eff! o := this; put_this (Obj (ob_mech o) true (ob_pamh o) (ob_data o))
  end.

(** ** AuthPAM *)

(** [pam_conv_func] on the messages of PAM, with their styles: the replies, of
    which one is NULL for a message that asks nothing; [None] is PAM_CONV_ERR,
    everything freed.   *)
Inductive style := PAM_PROMPT_ECHO_OFF | PAM_PROMPT_ECHO_ON | PAM_ERROR_MSG | PAM_TEXT_INFO | OtherStyle (n : Z).
Definition PAM_MAX_MSG_SIZE : nat := 512.
Fixpoint pam_conv_func (data : conv_data) (msgs : list (style * string)) : option (list (option string)) :=
  match msgs with
  | [] => Some []
  | (sty, msg) :: msgs =>
    let reply r := match pam_conv_func data msgs with Some rs => Some (r :: rs) | None => None end in
    match sty with
    | PAM_PROMPT_ECHO_OFF | PAM_PROMPT_ECHO_ON =>
      let reply_msg := if cd_update data && bool_decide (String.index 0 " new " msg <> None)
                       then cd_new_password data else cd_password data in
      reply (Some (String.substring 0 PAM_MAX_MSG_SIZE reply_msg))
    | PAM_ERROR_MSG | PAM_TEXT_INFO => reply None
    | OtherStyle _ => None
    end
  end.

(** [AuthPAM::close]. *)
Definition pam_close (retval : Z) : M unit :=
  eff! o := this;
  if negb (ob_pamh o) then ret tt
  else
    emit (PamEnd retval);;
    eff! r := ask pam_result;
    if negb (r =? 0)
    then im_error ("PAM: Could not release authenticator: " +:+ pam_strerror r)
    else put_this (Obj (ob_mech o) (ob_im o) false (ob_data o)).

(** The end of [AuthPAM::checkPassword], from the result of the last call. *)
Definition pam_finish (retval : Z) : M bool :=
  if negb (retval =? 0) then pam_close retval;; ret false else ret true.
Definition checkPassword (password : string) : M bool :=
  eff! o := this;
  (if ob_pamh o then pam_close 0 else ret tt);;
  eff! o := this;
  let data := Conv false password (cd_new_password (ob_data o)) in
  emit PamStart;;
  eff! r := ask pam_result;
  put_this (Obj (ob_mech o) (ob_im o) (r =? 0) data);;
  if negb (r =? 0) then pam_finish r
  else
    eff! go :=
      (if pam_setuid then
         match getpwnam username with
         | None => crash "pwd->pw_uid of a NULL pointer"
         | Some uid =>
           emit (Setuid uid);;
           eff! ok := ask setuid_ok;
           if (ok : bool) then ret true
           else emit (Logged Log.W_ERR "Minbif needs to be launched in root for setuid_pam: ");;
                pam_close 0;; ret false
         end
       else ret true);
    if negb go then ret false
    else
      emit (PamAuthenticate data);;
      eff! r := ask pam_result;
      if negb (r =? 0) then pam_finish r
      else
        emit PamAcctMgmt;;
        eff! r := ask pam_result;
        pam_finish r.

(** ** The virtual methods *)

Definition exists_ : M bool :=
  eff! o := this;
  match ob_mech o with AuthLocal => ask user_exists | _ => ret true end.

Definition local_authenticate (password : string) : M bool :=
  eff! known := ask user_exists;
  if negb known then ret false
  else
    new_IM;;
    emit (Logged Log.W_DEBUG ("Authenticating user " +:+ username +:+ " using local database"));;
    eff! pw := ask im_getPassword;
    ret (String.eqb pw password).
Definition connection_authenticate (password : string) : M bool :=
  eff! known := ask user_exists;
  if negb known then ret false
  else
    emit (Logged Log.W_DEBUG
            ("Authenticating user " +:+ username +:+ " using connection information"));;
    eff! client := ask client_username;
    if String.eqb client username then new_IM;; ret true else ret false.
Definition pam_authenticate (password : string) : M bool :=
  emit (Logged Log.W_DEBUG ("Authenticating user " +:+ username +:+ " using PAM mechanism"));;
  eff! ok := checkPassword password;
  if (ok : bool) then new_IM;; ret true else ret false.
Definition authenticate (password : string) : M bool :=
  eff! o := this;
  match ob_mech o with
  | AuthLocal => local_authenticate password
  | AuthConnection => connection_authenticate password
  | AuthPAM => pam_authenticate password
  end.

Definition local_setPassword (password : string) : M bool :=
  if has_char " " password || (slen password <? 8)%nat then
    emit (Notice "Password must be at least 8 characters, and cannot contain whitespaces.");;
    ret false
  else
    eff! o := this;
    if negb (ob_im o) then crash "NULL im" else emit (ImSetPassword password);; ret true.
Definition connection_setPassword (password : string) : M bool :=
  emit (Logged Log.W_ERR
    "PAM: Password change failed: you are not authenticated using a password ");; ret false.
Definition pam_setPassword (password : string) : M bool :=
  eff! o := this;
  if negb (ob_pamh o)
  then im_error "Cannot change password if not authenticated"
  else
    let data := Conv true (cd_password (ob_data o)) password in
    put_this (Obj (ob_mech o) (ob_im o) (ob_pamh o) data);;
    emit (PamChauthtok data);;
    eff! r := ask pam_result;
    (if negb (r =? 0)
     then emit (Logged Log.W_ERR ("PAM: Password change failed: " +:+ pam_strerror r))
     else ret tt);;
    ret (r =? 0).
Definition setPassword (password : string) : M bool :=
  eff! o := this;
  match ob_mech o with
  | AuthLocal => local_setPassword password
  | AuthConnection => connection_setPassword password
  | AuthPAM => pam_setPassword password
  end.

(** [Auth::create] of the base class. *)
Definition auth_create (password : string) : M unit :=
  eff! known := exists_;
  if (known : bool) then throw (UnableToCreate "Already exists.")
  else
    emit (Logged Log.W_DEBUG ("Creating user " +:+ username));;
    new_IM;;
    eff! _r := setPassword password;
    ret tt.
(** [create]; the IM it returns is never NULL. *)
Definition local_create (password : string) : M unit :=
  if sempty password then throw (UnableToCreate "Please set a password for this new account")
  else auth_create password.
Definition connection_create (password : string) : M unit :=
  eff! client := ask client_username;
  if negb (String.eqb client username) then im_error "No connection authentication"
  else auth_create password.
Definition pam_create (password : string) : M unit :=
  eff! ok := checkPassword password;
  if negb ok then im_error "PAM: Incorrect login/password" else auth_create password.
Definition create (password : string) : M unit :=
  eff! o := this;
  match ob_mech o with
  | AuthLocal => local_create password
  | AuthConnection => connection_create password
  | AuthPAM => pam_create password
  end.
(** The destructor. *)
Definition delete_ : M unit :=
  eff! o := this; match ob_mech o with AuthPAM => pam_close 0 | _ => ret tt end.

(** ** The loops *)

(** [Auth::getMechanisms], in the order of the table. *)
Definition getMechanisms : list mech :=
  List.filter use
    ([AuthConnection] ++ (if have_pam then [AuthPAM] else []) ++ [AuthLocal]).

Fixpoint validate_loop (password : string) (l : list mech) (ok : option obj) : M (option obj) :=
  match l with
  | [] => ret ok
  | m :: l =>
    put_this (new_obj m);;
    eff! good :=
      (match ok with
       | Some _ => ret false
       | None => eff! known := exists_;
                 if (known : bool) then authenticate password else ret false
       end);
    if (good : bool) then eff! o := this; validate_loop password l (Some o)
    else delete_;; validate_loop password l ok
  end.
Definition validate (password : string) : M (option obj) :=
  match getMechanisms with
  | [] => im_error "Login disabled (please consult your administrator)"
  | l => validate_loop password l None
  end.

Fixpoint generate_loop (password : string) (l : list mech) (ok : option obj) (err : string)
    : M (option obj * string) :=
  match l with
  | [] => ret (ok, err)
  | m :: l =>
    put_this (new_obj m);;
    eff! r :=
      (match ok with
       | Some _ => ret (inl err)
       | None =>
         catch (create password;; eff! o := this; ret (inr o))
               (fun e => match e with UnableToCreate r => Some (ret (inl r)) | IMError _ => None end)
       end);
    match r with
    | inr o => generate_loop password l (Some o) err
    | inl err => delete_;; generate_loop password l ok err
    end
  end.
Definition generate (password : string) : M (option obj) :=
  match getMechanisms with
  | [] => im_error "Private server: account creation disabled"
  | l =>
    eff! r := generate_loop password l None "";
    match r with
    | (None, err) => if sempty err then ret None else im_error ("Unable to create account: " +:+ err)
    | (ok, _) => ret ok
    end
  end.

Definition local_getPassword : M string :=
  eff! o := this; if negb (ob_im o) then crash "NULL im" else ask im_getPassword.
Definition connection_getPassword : M string :=
  emit (Logged Log.W_WARNING "Cannot fetch current password, you are not authenticated using a password");;
  ret "".
Definition pam_getPassword : M string :=
  emit (Logged Log.W_WARNING "Cannot fetch current password, it is hidden");; ret "".
Definition getPassword : M string :=
  eff! o := this;
  match ob_mech o with
  | AuthLocal => local_getPassword
  | AuthConnection => connection_getPassword
  | AuthPAM => pam_getPassword
  end.

(** ** What a mechanism accepts *)

(** What the system said to the mechanism on the way to [t]. *)
Definition accepted (m : mech) (password : string) (t : list ev) : Prop :=
  exists t0, match m with
  | AuthLocal => t0 `prefix_of` t /\ im_getPassword t0 = password
  | AuthConnection => t0 `prefix_of` t /\ client_username t0 = username
  | AuthPAM => exists new, let t1 := t0 ++ [PamAuthenticate (Conv false password new)] in
     t1 ++ [PamAcctMgmt] `prefix_of` t /\ pam_result t1 = 0 /\ pam_result (t1 ++ [PamAcctMgmt]) = 0
  end.
(** With pam_setuid the user is known to the system. *)
Definition pam_user_ok : Prop := use AuthPAM = true -> pam_setuid = true -> getpwnam username <> None.

Lemma accepted_mono m pw t t' : accepted m pw t -> t `prefix_of` t' -> accepted m pw t'.
Proof.
  intros (t0 & H) Ht. exists t0. destruct m; cbn in *.
  - destruct H. split; [by etransitivity|done].
  - destruct H as (new & H & ?). exists new. split; [by etransitivity|done].
  - destruct H. split; [by etransitivity|done].
Qed.

(** The object is of class [m], has an IM if [i], and [t] happened before. *)
Definition at_ (m : mech) (i : bool) (t : list ev) (s : st) : Prop :=
  ob_mech (ob s) = m /\ ob_im (ob s) = i /\ t `prefix_of` tr s.
Definition is_IMError (e : exn) (_ : st) : Prop := exists r, e = IMError r.
Hint Extern 2 (is_IMError _ _) => eexists; reflexivity : core.
Lemma at_emit m i t e s : at_ m i t s -> at_ m i t (St (tr s ++ [e]) (ob s)).
Proof. intros (? & ? & ?). split_and!; [done..|]. by apply prefix_app_r. Qed.
Hint Resolve at_emit : core.
Lemma at_tr m i t s : at_ m i t s -> at_ m i (tr s) s.
Proof. by intros (? & ? & _). Qed.
Lemma at_le m i t t' s : at_ m i t s -> t' `prefix_of` t -> at_ m i t' s.
Proof. intros (? & ? & ?) ?. split_and!; [done..|]. by etransitivity. Qed.

Lemma wp_pam_close m i t r s : at_ m i t s -> wp (pam_close r) (fun _ => at_ m i t) is_IMError s.
Proof.
  intros H. unfold pam_close. apply ewp_bind, ewp_get. destruct (negb _); [by apply ewp_ret|].
  apply ewp_bind, ewp_put, ewp_bind, ewp_get. destruct (negb _).
  - apply ewp_bind, ewp_put, ewp_throw. eauto.
  - apply ewp_put. destruct H as (? & ? & ?). split_and!; [done..|]. by apply prefix_app_r.
Qed.
Lemma wp_pam_finish m i t r s :
  at_ m i t s ->
  wp (pam_finish r) (fun ok s' => at_ m i t s' /\ (ok = true -> r = 0)) is_IMError s.
Proof.
  intros H. unfold pam_finish. destruct (Z.eqb_spec r 0); cbn [negb]; [by apply ewp_ret|].
  apply ewp_bind. eapply ewp_mono; [by apply wp_pam_close| |done]. intros [] s' Hs. by apply ewp_ret.
Qed.
Lemma wp_pam_failed m i t r (P : st -> Prop) s :
  at_ m i t s -> r <> 0 ->
  wp (pam_finish r) (fun ok s' => at_ m i t s' /\ (ok = true -> P s')) is_IMError s.
Proof.
  intros H Hr. eapply ewp_mono; [by apply wp_pam_finish| |done].
  intros ok s' [? E]. split; [done|]. intros ?. by destruct Hr; apply E.
Qed.
Lemma wp_pam_setuid m i t s :
  use AuthPAM = true -> pam_user_ok -> at_ m i t s ->
  wp (if pam_setuid then
         match getpwnam username with
         | None => crash "pwd->pw_uid of a NULL pointer"
         | Some uid =>
           emit (Setuid uid);;
           eff! ok := ask setuid_ok;
           if (ok : bool) then ret true
           else emit (Logged Log.W_ERR "Minbif needs to be launched in root for setuid_pam: ");;
                pam_close 0;; ret false
         end
       else ret true) (fun _ => at_ m i t) is_IMError s.
Proof.
  intros Hu Hp H. destruct pam_setuid eqn:Es; [|by apply ewp_ret].
  destruct (getpwnam username) eqn:Eg; [|by destruct (Hp Hu Es)].
  apply ewp_bind, ewp_put, ewp_bind, ewp_get. destruct (setuid_ok _); [by apply ewp_ret, at_emit|].
  apply ewp_bind, ewp_put, ewp_bind. eapply ewp_mono; [apply (wp_pam_close m i t); auto| |done].
  intros [] s' Hs'. by apply ewp_ret.
Qed.
Lemma wp_checkPassword m i t pw s :
  use AuthPAM = true -> pam_user_ok -> at_ m i t s ->
  wp (checkPassword pw) (fun ok s' => at_ m i t s' /\ (ok = true -> accepted AuthPAM pw (tr s')))
    is_IMError s.
Proof.
  intros Hu Hp Hs. unfold checkPassword. apply ewp_bind, ewp_get, ewp_bind.
  eapply (ewp_mono _ (fun _ => at_ m i t)); [destruct (ob_pamh _); [by apply wp_pam_close|done]| |done].
  intros [] s1 Hs1. apply ewp_bind, ewp_get, ewp_bind, ewp_put, ewp_bind, ewp_get, ewp_bind, ewp_put.
  cbn [tr ob]. set (s2 := St _ _). assert (Hs2 : at_ m i t s2).
  { destruct Hs1 as (? & ? & ?). split_and!; [done..|]. by apply prefix_app_r. }
  clearbody s2. destruct (Z.eqb_spec (pam_result (tr s1 ++ [PamStart])) 0); cbn [negb tr];
    [|by apply wp_pam_failed]. apply ewp_bind. eapply ewp_mono; [by apply (wp_pam_setuid m i t)| |done].
  intros [] s3 Hs3; cbn [negb]; [|by apply ewp_ret].
  apply ewp_bind, ewp_put, ewp_bind, ewp_get. cbn [tr]. set (r1 := pam_result _). destruct (Z.eqb_spec r1 0);
    cbn [negb]; [|apply wp_pam_failed; auto].
  apply ewp_bind, ewp_put, ewp_bind, ewp_get. cbn [tr ob].
  set (data := Conv _ _ _) in *. set (t' := (tr s3 ++ [PamAuthenticate data]) ++ [PamAcctMgmt]).
  eapply ewp_mono; [apply (wp_pam_finish m i t')| |done].
  { destruct Hs3 as (? & ? & _). done. }
  intros ok s' [H1 H2]. split; [eapply at_le; [done|]|].
  - destruct Hs3 as (_ & _ & ?). by do 2 apply prefix_app_r.
  - intros ?. exists (tr s3), (cd_new_password (ob_data (ob s1))). cbn.
    split_and!; [apply H1|done|by apply H2].
Qed.
Lemma wp_new_IM m i t s : at_ m i t s -> wp new_IM (fun _ => at_ m true t) is_IMError s.
Proof.
  intros (? & ? & ?). unfold new_IM. apply ewp_bind, ewp_get. destruct (im_init _).
  - apply ewp_bind, ewp_put, ewp_throw. eauto.
  - apply ewp_bind, ewp_put, ewp_bind, ewp_get, ewp_put. split_and!; [done..|]. by apply prefix_app_r.
Qed.

(** An object that may be returned: it has its IM, and its mechanism accepted. *)
Definition granted (pw : string) (t : list ev) (o : obj) : Prop :=
  ob_im o = true /\ use (ob_mech o) = true /\ accepted (ob_mech o) pw t.
Lemma granted_mono pw t t' o : granted pw t o -> t `prefix_of` t' -> granted pw t' o.
Proof. intros (? & ? & ?) ?. split_and!; [done..|]. by eapply accepted_mono. Qed.

Lemma wp_authenticate m t pw s :
  use m = true -> pam_user_ok -> at_ m false t s ->
  wp (authenticate pw)
    (fun ok s' => t `prefix_of` tr s' /\ ob_mech (ob s') = m
       /\ (ok = true -> granted pw (tr s') (ob s'))) is_IMError s.
Proof.
  intros Hu Hp H. unfold authenticate. apply ewp_bind, ewp_get. assert (H0 := H).
  destruct H0 as (Hm & _ & Ht). rewrite Hm. destruct m.
  - apply ewp_bind, ewp_get. destruct (user_exists _); cbn [negb]; [|by apply ewp_ret].
    apply ewp_bind, ewp_put, ewp_bind, ewp_get. set (s1 := St _ _).
    assert (H1 : at_ AuthConnection false t s1) by by apply at_emit.
    clearbody s1. clear H Hm. destruct (String.eqb_spec (client_username (tr s1)) username) as [E|].
    2:{ apply ewp_ret. destruct H1 as (? & ? & ?). split_and!; done. }
    apply ewp_bind. eapply ewp_mono; [apply (wp_new_IM AuthConnection false (tr s1)); by eapply at_tr| |done].
    intros [] s' (H2 & H3 & H4). apply ewp_ret. destruct H1 as (_ & _ & ?).
    split_and!; [by etransitivity|done|]. intros _. split_and!; [done|by rewrite H2|].
    rewrite H2. by exists (tr s1).
  - apply ewp_bind, ewp_put, ewp_bind.
    eapply ewp_mono; [apply (wp_checkPassword AuthPAM false t); auto| |done].
    intros [] s1 [H1 H2].
    2:{ apply ewp_ret. destruct H1 as (? & ? & ?). split_and!; done. }
    apply ewp_bind. eapply ewp_mono; [apply (wp_new_IM AuthPAM false (tr s1)); by eapply at_tr| |done].
    intros [] s' (H3 & H4 & H5). apply ewp_ret. destruct H1 as (_ & _ & ?).
    split_and!; [by etransitivity|done|]. intros _. split_and!; [done|by rewrite H3|].
    rewrite H3. eapply accepted_mono; [by apply H2|done].
  - apply ewp_bind, ewp_get. destruct (user_exists _); cbn [negb]; [|by apply ewp_ret].
    apply ewp_bind. eapply ewp_mono; [apply (wp_new_IM AuthLocal false t); auto| |done].
    intros [] s1 H1. apply ewp_bind, ewp_put, ewp_bind, ewp_get, ewp_ret. cbn [tr ob].
    set (t1 := tr s1 ++ _). destruct H1 as (H2 & H3 & H4).
    split_and!; [by apply prefix_app_r|done|]. intros E%String.eqb_eq.
    split_and!; [done|by rewrite H2|]. rewrite H2. by exists t1.
Qed.
Lemma wp_delete t s :
  t `prefix_of` tr s -> wp delete_ (fun _ s' => t `prefix_of` tr s') is_IMError s.
Proof.
  intros H. unfold delete_. apply ewp_bind, ewp_get. destruct (ob_mech _); try by apply ewp_ret.
  eapply ewp_mono; [by apply (wp_pam_close (ob_mech (ob s)) (ob_im (ob s)) t)| |done].
  by intros [] s' (_ & _ & ?).
Qed.

Lemma wp_validate_loop pw l ok s :
  pam_user_ok -> (forall m, m ∈ l -> use m = true) ->
  (forall o, ok = Some o -> granted pw (tr s) o) ->
  wp (validate_loop pw l ok) (fun r s' => forall o, r = Some o -> granted pw (tr s') o) is_IMError s.
Proof.
  intros Hp. revert ok s. induction l as [|m l IH]; intros ok s Hl Hok; cbn [validate_loop];
    [by apply ewp_ret|].
  apply ewp_bind, ewp_put, ewp_bind. assert (Hm : use m = true) by (apply Hl; left).
  assert (Hl' : forall m, m ∈ l -> use m = true) by (intros ? ?; apply Hl; by right).
  assert (Skip : forall s', tr s `prefix_of` tr s' -> wp (delete_;; validate_loop pw l ok)%eff
      (fun r s' => forall o, r = Some o -> granted pw (tr s') o) is_IMError s').
  { intros s' H. apply ewp_bind. eapply ewp_mono; [by apply (wp_delete (tr s))| |done].
    intros [] s2 H2. apply IH; [done|]. intros o Ho. eapply granted_mono; [by apply Hok|done]. }
  destruct ok as [o|]; [by apply ewp_ret, Skip|].
  apply ewp_bind. eapply (ewp_mono _ (fun _ => at_ m false (tr s))); [| |done].
  { unfold exists_. apply ewp_bind, ewp_get. by destruct (ob_mech _). }
  intros [] s1 H1; [|apply ewp_ret, Skip, H1].
  eapply ewp_mono; [by apply (wp_authenticate m (tr s))| |done].
  intros [] s2 (H2 & H3 & H4); [|by apply Skip].
  apply ewp_bind, ewp_get. apply IH; [done|]. intros o [= <-]. by apply H4.
Qed.

(** No mechanism but AuthLocal makes an account: the others say that it exists. *)
Definition refused (e : exn) (_ : st) : Prop :=
  match e with UnableToCreate r => sempty r = false | IMError _ => True end.
Lemma wp_auth_create_exists pw s :
  ob_mech (ob s) <> AuthLocal -> wp (auth_create pw) (fun _ _ => False) refused s.
Proof.
  intros H. unfold auth_create. apply ewp_bind. unfold exists_. apply ewp_bind, ewp_get.
  by destruct (ob_mech _).
Qed.
Lemma is_IMError_refused e s : is_IMError e s -> refused e s.
Proof. by intros [r ->]. Qed.
(** An account that was made: by AuthLocal, with a password. *)
Definition made (pw : string) (o : obj) (t : list ev) : Prop :=
  ob_mech o = AuthLocal /\ ob_im o = true /\ sempty pw = false /\ In (NewIM username) t.
Lemma made_mono pw o t t' : made pw o t -> t `prefix_of` t' -> made pw o t'.
Proof. intros (? & ? & ? & ?) [k ->]. split_and!; [done..|]. apply in_or_app. by left. Qed.

Lemma wp_create m t pw s :
  use m = true -> pam_user_ok -> at_ m false t s ->
  wp (create pw) (fun _ s' => made pw (ob s') (tr s')) refused s.
Proof.
  intros Hu Hp H. unfold create. apply ewp_bind, ewp_get. assert (H0 := H). destruct H0 as (Hm & Hi & _).
  rewrite Hm. destruct m.
  - apply ewp_bind, ewp_get. destruct (negb _).
    + apply ewp_bind, ewp_put, ewp_throw. done.
    + eapply ewp_mono; [apply wp_auth_create_exists; by rewrite Hm|done|done].
  - apply ewp_bind. eapply ewp_mono; [by apply (wp_checkPassword AuthPAM false t)| |intros; by apply is_IMError_refused].
    intros [] s' [(H1 & _ & _) _]; cbn [negb].
    + eapply ewp_mono; [apply wp_auth_create_exists; by rewrite H1|done|done].
    + by apply ewp_bind, ewp_put, ewp_throw.
  - unfold local_create. destruct (sempty pw) eqn:Ep; [by apply ewp_throw|]. unfold auth_create, exists_.
    apply ewp_bind, ewp_bind, ewp_get. rewrite Hm. apply ewp_get.
    destruct (user_exists _); [by apply ewp_throw|]. apply ewp_bind, ewp_put, ewp_bind.
    unfold new_IM. apply ewp_bind, ewp_get. destruct (im_init _).
    { by apply ewp_bind, ewp_put, ewp_throw. }
    apply ewp_bind, ewp_put, ewp_bind, ewp_get, ewp_put. cbn [tr ob]. set (s2 := St _ _).
    assert (H2 : made pw (ob s2) (tr s2)).
    { split_and!; [done..|]. cbn. apply in_or_app. right. by left. }
    clearbody s2. clear -H2. assert (H3 := H2). destruct H3 as (H4 & H5 & _).
    apply ewp_bind. unfold setPassword. apply ewp_bind, ewp_get. rewrite H4.
    unfold local_setPassword. destruct (_ || _).
    { apply ewp_bind, ewp_put, ewp_ret, ewp_ret. eapply made_mono; [done|]. cbn. by apply prefix_app_r. }
    apply ewp_bind, ewp_get. rewrite H5. cbn [negb]. apply ewp_bind, ewp_put, ewp_ret, ewp_ret.
    eapply made_mono; [done|]. cbn. by apply prefix_app_r.
Qed.

Lemma wp_generate_loop pw l ok err s :
  pam_user_ok -> (forall m, m ∈ l -> use m = true) ->
  (forall o, ok = Some o -> made pw o (tr s)) -> (l = [] -> ok = None -> sempty err = false) ->
  wp (generate_loop pw l ok err)
    (fun r s' => (forall o, r.1 = Some o -> made pw o (tr s')) /\ (r.1 = None -> sempty r.2 = false))
    is_IMError s.
Proof.
  intros Hp. revert ok err s. induction l as [|m l IH]; intros ok err s Hl Hok Herr;
    cbn [generate_loop]; [apply ewp_ret; auto|].
  apply ewp_bind, ewp_put, ewp_bind. cbn [tr ob].
  assert (Hl' : forall m, m ∈ l -> use m = true) by (intros ? ?; apply Hl; by right).
  destruct ok as [o|].
  { apply ewp_ret, ewp_bind. eapply ewp_mono; [by apply (wp_delete (tr s))| |done].
    intros [] s2 H2. apply IH; [done| |done]. intros o' Ho. eapply made_mono; [by apply Hok|done]. }
  apply ewp_catch, ewp_bind.
  eapply ewp_mono; [apply (wp_create m (tr s)); [apply Hl; left|done|done]| |].
  - intros [] s1 H1. apply ewp_bind, ewp_get, ewp_ret. apply IH; [done| |done]. by intros o' [= <-].
  - intros [r|r] s1 H1; [|by eexists]. apply ewp_ret, ewp_bind.
    eapply ewp_mono; [by apply (wp_delete (tr s1))| |done].
    intros [] s2 H2. by apply IH.
Qed.
Lemma getMechanisms_use m : m ∈ getMechanisms -> use m = true.
Proof. unfold getMechanisms. intros H%list_elem_of_In%filter_In. by destruct H. Qed.
Lemma wp_generate pw s :
  pam_user_ok ->
  wp (generate pw) (fun r s' => exists o, r = Some o /\ made pw o (tr s')) is_IMError s.
Proof.
  intros Hp. unfold generate. destruct getMechanisms as [|m l] eqn:El.
  { apply ewp_bind, ewp_put, ewp_throw. by eexists. }
  apply ewp_bind. eapply ewp_mono; [apply wp_generate_loop; try done| |done].
  { intros m' H. apply getMechanisms_use. by rewrite El. }
  intros [ok err] s' [H1 H2]. destruct ok as [o|]; [apply ewp_ret; eauto|].
  cbn in H2. rewrite (H2 eq_refl). apply ewp_bind, ewp_put, ewp_throw. by eexists.
Qed.
Lemma wp_validate pw s :
  pam_user_ok ->
  wp (validate pw) (fun r s' => forall o, r = Some o -> granted pw (tr s') o) is_IMError s.
Proof.
  intros Hp. unfold validate. destruct getMechanisms as [|m l] eqn:El.
  { apply ewp_bind, ewp_put, ewp_throw. by eexists. }
  apply wp_validate_loop; try done. intros m' H. apply getMechanisms_use. by rewrite El.
Qed.
End Auth.

(** What a session sees of the end of [Auth::validate] or [Auth::generate]; nothing
    is said of a run without a defined end, nor of the exception they do not throw. *)
Definition answer (r : out exn (option obj)) : option (bool + string) :=
  match r with
  | Done o => Some (inl (bool_decide (o <> None)))
  | Raise (IMError reason) => Some (inr reason)
  | Raise (UnableToCreate _) | Crash _ => None
  end.
Definition start : st := St [] (new_obj AuthLocal).
Definition validated {aenv : AuthEnv} (u p : string) := answer (validate u p start).2.
Definition generated {aenv : AuthEnv} (u p : string) := answer (generate u p start).2.

(** The runs which answer yes, with the object they return and what was called. *)
Definition accepts {aenv : AuthEnv} (u p : string) (s : st) (o : obj) : Prop :=
  validate u p start = (s, Done (Some o)) /\ granted u p (tr s) o.
Definition makes {aenv : AuthEnv} (u p : string) (s : st) (o : obj) : Prop :=
  generate u p start = (s, Done (Some o)) /\ made u p o (tr s).

Lemma validated_accepts {aenv : AuthEnv} u p :
  pam_user_ok u -> exists r, validated u p = Some r /\ (r = inl true -> exists s o, accepts u p s o).
Proof.
  intros Hp. pose proof (wp_validate u p start Hp) as H. unfold accepts, validated, wp in *.
  destruct (validate u p start) as [s [[o|]|e|]]; try done; cbn [answer snd].
  - eexists. split; [done|]. intros _. exists s, o. split; [done|]. by apply H.
  - eexists. split; [done|]. by intros [= ].
  - destruct H as [r ->]. eexists. split; [done|]. done.
Qed.
Lemma generated_makes {aenv : AuthEnv} u p :
  pam_user_ok u -> exists r, generated u p = Some r /\ r <> inl false
    /\ (r = inl true -> exists s o, makes u p s o).
Proof.
  intros Hp. pose proof (wp_generate u p start Hp) as H. unfold makes, generated, wp in *.
  destruct (generate u p start) as [s [o|[e|e]|]]; try done.
  - destruct H as (o' & -> & H). exists (inl true). split_and!; [done..|]. intros _. by exists s, o'.
  - by destruct H.
  - by exists (inr e).
Qed.
End Auth.
