(* ===== verification/Sock.v ===== *)
(** sockwrap/sockwrap.cpp, sockwrap_plain.cpp and sockwrap_tls.cpp: the wrapper of a
    client's socket, in the clear or through GnuTLS, and the name that the
    certificate of the client gives.  The answers of read(2), write(2),
    gnutls_record_recv, gnutls_record_send and gnutls_handshake are a list, in the
    order of the calls; once it is used up each of them answers 0. *)

From S2P Require Import Prelude Util Effects.
Local Open Scope eff_scope.

Module Sock.
Import Eff.

(** What a call answers: bytes, or a code which is not positive. *)
Inductive answer := Data (s : string) | Code (r : Z).
Definition result (a : answer) : Z := match a with Data s => Z.of_nat (slen s) | Code r => r end.
Definition bytes (a : answer) : string := match a with Data s => s | Code _ => "" end.
Inductive call := Recv | Send (s : string) | Handshake.

(** A [TLSError] is a [SockError] whose reason starts with "[TLS] ". *)
Inductive exn := SockError (reason : string) | TLSError (reason : string).

(** The fields of [SockWrapper] and [SockWrapperTLS]. *)
Record wrapper := Wrapper {
  sock_ok : bool; tls_ok : bool; tls_handshake : bool; trust_check : bool;
  answers : list answer; calls : list call }.
Definition up_sock_ok (b : bool) (w : wrapper) : wrapper :=
  Wrapper b (tls_ok w) (tls_handshake w) (trust_check w) (answers w) (calls w).
Definition up_tls_ok (b : bool) (w : wrapper) : wrapper :=
  Wrapper (sock_ok w) b (tls_handshake w) (trust_check w) (answers w) (calls w).
Definition up_handshake (b : bool) (w : wrapper) : wrapper :=
  Wrapper (sock_ok w) (tls_ok w) b (trust_check w) (answers w) (calls w).
Definition up_trust (b : bool) (w : wrapper) : wrapper :=
  Wrapper (sock_ok w) (tls_ok w) (tls_handshake w) b (answers w) (calls w).
Definition M (A : Type) : Type := Eff.M wrapper exn A.

(** The next answer. *)
Definition pop (w : wrapper) : wrapper :=
  Wrapper (sock_ok w) (tls_ok w) (tls_handshake w) (trust_check w) (tail (answers w)) (calls w).
Definition ask (c : call) : M answer :=
  eff! a := get (fun w => default (Code 0) (hd_error (answers w)));
  put pop;;
  put (fun w => Wrapper (sock_ok w) (tls_ok w) (tls_handshake w) (trust_check w) (answers w) (calls w ++ [c]));;
  ret a.
(** Enough turns for every answer, and one for the end. *)
Definition turns : M nat := get (fun w => S (length (answers w))).

(** [sbuf = buf], after [buf[r] = 0]. *)
Definition c_str (s : string) : string :=
  match find_if (fun c => Ascii.eqb c "000") s with Some i => stake i s | None => s end.

(** ** Names, callbacks and the end *)

(** The descriptors and the sources of events of the process, with the fields of a wrapper. *)
Record base := Base {
  recv_fd : Z; send_fd : Z; callback_ids : list Z; base_ok : bool; sources : list Z; closed : list Z }.
(** [getpeername], [getsockname], [getnameinfo]: the result and the buffer. *)
Definition GetClientHostname (getpeername getnameinfo : Z) (buf : string) : string :=
  if getpeername =? 0 then if getnameinfo =? 0 then buf else "localhost.localdomain" else "localhost.localdomain".
Definition GetServerHostname (getsockname getnameinfo : Z) (buf : string) : string :=
  if getsockname =? 0 then if getnameinfo =? 0 then buf else "localhost.localdomain" else "localhost.localdomain".
(** [id] is what [glib_input_add] answers, a source when it is positive. *)
Definition AttachCallback (id : Z) (b : base) : base :=
  if 0 <? id then Base (recv_fd b) (send_fd b) (callback_ids b ++ [id]) (base_ok b) (sources b ++ [id]) (closed b)
  else b.
Definition source_remove (id : Z) (b : base) : base :=
  Base (recv_fd b) (send_fd b) (callback_ids b) (base_ok b) (filter (fun i => i <> id) (sources b)) (closed b).
Definition EndSessionCleanup (b : base) : base := fold_left (fun b id => source_remove id b) (callback_ids b) b.
Definition destroy (b : base) : base :=
  let b := EndSessionCleanup b in
  Base (recv_fd b) (send_fd b) (callback_ids b) false (sources b)
    (closed b ++ recv_fd b :: (if send_fd b =? recv_fd b then [] else [send_fd b])).

(** ** In the clear *)

Section Plain.
(** [strerror]; [sockerr_again] of an [errno], whose opposite is the code. *)
Context (strerror : Z -> string).
Definition EINTR : Z := 4.
Definition EINPROGRESS : Z := 115.
Definition sockerr_again (errno : Z) : bool := (errno =? EINPROGRESS) || (errno =? EINTR).
Definition plain_Read : M string :=
  eff! ok := get sock_ok;
  if negb ok then ret ""
  else
    eff! a := ask Recv;
    let r := result a in
    if r <=? 0 then
      if r =? 0 then throw (SockError "Connection reset by peer...")
      else if negb (sockerr_again (- r)) then throw (SockError ("Read error: " +:+ strerror (- r)))
      else ret ""
    else ret (c_str (bytes a)).
Definition plain_Write (s : string) : M unit :=
  eff! ok := get sock_ok;
  if negb ok then ret tt
  else
    eff! a := ask (Send s);
    let r := result a in
    if r <=? 0 then
      if r =? 0 then put (up_sock_ok false);; throw (SockError "Connection reset by peer...")
      else if negb (sockerr_again (- r)) then
        put (up_sock_ok false);; throw (SockError ("Read error: " +:+ strerror (- r)))
      else ret tt
    else ret tt.
End Plain.

(** ** Through GnuTLS *)

Definition E_SUCCESS : Z := 0.
Definition E_AGAIN : Z := -28.
Definition E_REHANDSHAKE : Z := -37.
Definition E_INVALID_REQUEST : Z := -50.
Definition E_INTERRUPTED : Z := -52.
Definition tlserr_again (r : Z) : bool := (r =? E_INTERRUPTED) || (r =? E_AGAIN).

(** The certificate of the client, as GnuTLS answers about it. *)
Record peer := Peer {
  is_x509 : bool; cert_list_size : Z; verify : Z; status : Z; crt_init : Z; crt_import : Z;
  get_dn : Z; dn : string }.
(** The section of the configuration, and what the calls of the set-up answer. *)
Record setup := Setup {
  found : bool; trust_file : string; crl_file : string;
  r_global_init : Z; r_allocate : Z; r_trust : Z; r_crl : Z; r_key : Z; r_dh_init : Z; r_dh_generate : Z;
  r_init : Z; r_priority : Z; r_credentials : Z }.

Section Tls.
(** [gnutls_strerror], [gnutls_error_is_fatal]. *)
Context (strerror : Z -> string) (error_is_fatal : Z -> bool).

Definition CheckTLSError (tls_err : Z) : M unit :=
  if tls_err =? E_SUCCESS then ret tt else throw (TLSError (strerror tls_err)).

Fixpoint handshake_loop (fuel : nat) : M unit :=
  match fuel with
  | O => crash "fuel"
  | S fuel =>
    eff! a := ask Handshake;
    let tls_err := result a in
    if error_is_fatal tls_err then throw (TLSError "TLS initialization failed")
    else if tls_err =? E_SUCCESS then ret tt else handshake_loop fuel
  end.
Definition ProcessTLSHandshake : M unit :=
  put (up_handshake false);;
  eff! n := turns; handshake_loop n;;
  put (up_handshake true).

Fixpoint read_loop (fuel : nat) : M string :=
  match fuel with
  | O => crash "fuel"
  | S fuel =>
    eff! a := ask Recv;
    let r := result a in
    if r <=? 0 then
      put (up_sock_ok false);;
      if r =? 0 then put (up_tls_ok false);; throw (SockError "Connection reset by peer...")
      else if error_is_fatal r then CheckTLSError r;; ret ""
      else if r =? E_REHANDSHAKE then ProcessTLSHandshake;; ret ""
      else if tlserr_again r then read_loop fuel else ret ""
    else ret (c_str (bytes a))
  end.
Definition tls_ready : M bool := get (fun w => sock_ok w && tls_ok w && tls_handshake w).
Definition tls_Read : M string :=
  eff! ok := tls_ready;
  if negb ok then ret "" else eff! n := turns; read_loop n.

Fixpoint write_loop (fuel : nat) (s : string) : M unit :=
  match fuel with
  | O => crash "fuel"
  | S fuel =>
    eff! a := ask (Send s);
    let r := result a in
    if r <=? 0 then
      put (up_sock_ok false);;
      if r =? 0 then put (up_tls_ok false);; throw (SockError "Connection reset by peer...")
      else if error_is_fatal r then CheckTLSError r
      else if tlserr_again r then write_loop fuel s else ret tt
    else ret tt
  end.
Definition tls_Write (s : string) : M unit :=
  eff! ok := tls_ready;
  if negb ok then ret tt else eff! n := turns; write_loop n s.

(** [dn.find(t, pos)] for the texts that are looked for. *)
Fixpoint find_text (t s : string) : option nat :=
  if prefix_of t s then Some 0%nat
  else match s with "" => None | String _ s => S <$> find_text t s end.
(** The text between "CN=" and the next comma. *)
Definition common_name (dn : string) : string :=
  match find_text "CN=" dn with
  | None => ""
  | Some pos1 =>
    match find_if (fun c => Ascii.eqb c ",") (sdrop pos1 dn) with
    | None => ""
    | Some k => stake (k - 3) (sdrop (pos1 + 3) dn)
    end
  end.
Definition GetClientUsername (p : peer) : M string :=
  eff! w := get id;
  if negb (trust_check w) || negb (tls_ok w) then ret ""
  else if negb (is_x509 p) then ret ""
  else if cert_list_size p <=? 0 then ret ""
  else
    CheckTLSError (verify p);;
    if negb (status p =? 0) then ret ""
    else
      CheckTLSError (crt_init p);;
      let '(tls_err, username) :=
        if crt_import p =? E_SUCCESS then (get_dn p, common_name (dn p)) else (crt_import p, "") in
      CheckTLSError tls_err;;
      ret username.

(** [SockWrapperTLS::SockWrapperTLS] *)
Definition set_trust (c : setup) : M unit :=
  when (negb (String.eqb (trust_file c) " "))
    ((if r_trust c =? E_SUCCESS
      then throw (TLSError "trust file is empty or does not contain any valid CA certificate")
      else when (r_trust c <? 0) (CheckTLSError (r_trust c)));;
     put (up_trust true)).
Definition set_crl (c : setup) : M unit :=
  eff! t := get trust_check;
  when (t && negb (String.eqb (crl_file c) " ")) (when (r_crl c <? 0) (CheckTLSError (r_crl c))).
Definition new_tls (c : setup) : M unit :=
  put (up_sock_ok true);; put (up_tls_ok false);; put (up_trust false);;
  if negb (found c) then throw (TLSError "Missing section <inetd|daemon>/tls")
  else
    CheckTLSError (r_global_init c);; CheckTLSError (r_allocate c);;
    set_trust c;; set_crl c;;
    CheckTLSError (r_key c);; CheckTLSError (r_dh_init c);; CheckTLSError (r_dh_generate c);;
    CheckTLSError (r_init c);;
    (if r_priority c =? E_INVALID_REQUEST then throw (TLSError "syntax error in tls_priority parameter")
     else CheckTLSError (r_priority c));;
    CheckTLSError (r_credentials c);;
    ProcessTLSHandshake;;
    put (up_tls_ok true).
End Tls.

(** [SockWrapper::Builder]; [have_tls] is HAVE_TLS. *)
Definition Builder (strerror : Z -> string) (error_is_fatal : Z -> bool) (have_tls : bool)
    (security : string) (c : setup) (recv_fd send_fd : Z) : M bool :=
  let base : M unit :=
    if recv_fd <? 0 then throw (SockError "Wrong input file descriptor")
    else if send_fd <? 0 then throw (SockError "Wrong output file descriptor")
    else put (up_sock_ok true) in
  if String.eqb security "none" then base;; ret false
  else if have_tls && String.eqb security "tls" then base;; new_tls strerror error_is_fatal c;; ret true
  else if have_tls && (String.eqb security "starttls" || String.eqb security "starttls-mandatory")
  then throw (SockError "Security mode not yet implemented")
  else throw (SockError "unknown security mode").
End Sock.
