(* ===== verification/SockProps.v ===== *)
(** The wrapper of a client's socket: its loops end, the name of a client comes from a
    certificate that was verified, and what an answer to try again leaves of it. *)

From S2P Require Import Prelude Util Effects Sock.
Import Eff Sock.

Module SockP.
Section SockP.
Context (strerror : Z -> string) (error_is_fatal : Z -> bool).

(** What the session does with its wrapper. *)
Inductive op := ORead | OWrite (s : string).
Definition run (o : op) : M string :=
  match o with
  | ORead => tls_Read strerror error_is_fatal
  | OWrite s => bind (tls_Write strerror error_is_fatal s) (fun _ => ret "")
  end.

(** ** The loops end, and never change what was decided about certificates *)

Definition same_trust (w w' : wrapper) : Prop := trust_check w' = trust_check w.

Lemma wp_answer c (Q : answer -> wrapper -> Prop) R w :
  (forall w', trust_check w' = trust_check w -> answers w' = tail (answers w) ->
     Q (default (Code 0) (hd_error (answers w))) w') -> wp (ask c) Q R w.
Proof. intros HQ. unfold ask. apply ewp_bind, ewp_get, ewp_bind, ewp_put, ewp_bind, ewp_put, ewp_ret. by apply HQ. Qed.
Lemma wp_check e (Q : unit -> wrapper -> Prop) (R : exn -> wrapper -> Prop) w :
  (e = E_SUCCESS -> Q tt w) -> (forall x, R x w) -> wp (CheckTLSError strerror e) Q R w.
Proof.
  intros HQ HR. unfold CheckTLSError. destruct (Z.eqb_spec e E_SUCCESS); [by apply ewp_ret, HQ|by apply ewp_throw].
Qed.

(** After the last answer the turn is the last. *)
Definition ends {A} (loop : nat -> M A) : Prop := forall fuel w,
  (length (answers w) < fuel)%nat -> wp (loop fuel) (fun _ => same_trust w) (fun _ => same_trust w) w.
Lemma next_turn (w w' : wrapper) (P : Prop) fuel :
  (length (answers w) < S fuel)%nat -> answers w' = tail (answers w) ->
  (result (default (Code 0) (hd_error (answers w))) = 0 -> P) ->
  ((length (answers w') < fuel)%nat -> P) -> P.
Proof.
  intros Hf Ha H0 H1. destruct (answers w) as [|a l]; [by apply H0|]. apply H1. rewrite Ha. cbn in *. lia.
Qed.

Lemma handshake_ends : ends (handshake_loop error_is_fatal).
Proof.
  intros fuel. induction fuel as [|fuel IH]; intros w Hf; [lia|]. cbn [handshake_loop].
  apply ewp_bind, wp_answer. intros w' Ht Ha. destruct (error_is_fatal _); [by apply ewp_throw|].
  destruct (Z.eqb_spec (result (default (Code 0) (hd_error (answers w)))) E_SUCCESS) as [E|E]; [by apply ewp_ret|].
  apply (next_turn w w' _ fuel Hf Ha); [done|]. intros Hf'.
  eapply ewp_mono; [by apply IH| |]; unfold same_trust; congruence.
Qed.
Lemma wp_handshake w :
  wp (ProcessTLSHandshake error_is_fatal) (fun _ w' => same_trust w w' /\ tls_handshake w' = true)
    (fun _ => same_trust w) w.
Proof.
  unfold ProcessTLSHandshake. apply ewp_bind, ewp_put, ewp_bind, ewp_get, ewp_bind.
  eapply ewp_mono; [apply handshake_ends; lia| |done]. intros ? w' H. by apply ewp_put.
Qed.
Lemma read_ends : ends (read_loop strerror error_is_fatal).
Proof.
  intros fuel. induction fuel as [|fuel IH]; intros w Hf; [lia|]. cbn [read_loop].
  apply ewp_bind, wp_answer. intros w' Ht Ha. set (r := result _).
  destruct (r <=? 0); [|by apply ewp_ret]. apply ewp_bind, ewp_put.
  destruct (Z.eqb_spec r 0) as [E|E]; [by apply ewp_bind, ewp_put, ewp_throw|].
  destruct (error_is_fatal r). { apply ewp_bind, wp_check; [intros _; by apply ewp_ret|done]. }
  destruct (r =? E_REHANDSHAKE).
  { apply ewp_bind. eapply ewp_mono; [apply wp_handshake| |].
    - intros ? w2 [H _]. apply ewp_ret. unfold same_trust in *. cbn in H. congruence.
    - intros ? w2 H. unfold same_trust in *. cbn in H. congruence. }
  destruct (tlserr_again r); [|by apply ewp_ret].
  apply (next_turn w w' _ fuel Hf Ha); [done|]. intros Hf'.
  eapply ewp_mono; [by apply IH| |]; unfold same_trust; cbn; congruence.
Qed.
Lemma write_ends s : ends (fun fuel => write_loop strerror error_is_fatal fuel s).
Proof.
  intros fuel. induction fuel as [|fuel IH]; intros w Hf; [lia|]. cbn [write_loop].
  apply ewp_bind, wp_answer. intros w' Ht Ha. set (r := result _).
  destruct (r <=? 0); [|by apply ewp_ret]. apply ewp_bind, ewp_put.
  destruct (Z.eqb_spec r 0) as [E|E]; [by apply ewp_bind, ewp_put, ewp_throw|].
  destruct (error_is_fatal r); [by apply wp_check|].
  destruct (tlserr_again r); [|by apply ewp_ret].
  apply (next_turn w w' _ fuel Hf Ha); [done|]. intros Hf'.
  eapply ewp_mono; [by apply IH| |]; unfold same_trust; cbn; congruence.
Qed.
Lemma op_ends o w : wp (run o) (fun _ => same_trust w) (fun _ => same_trust w) w.
Proof.
  destruct o as [|s]; cbn [run]; [unfold tls_Read|unfold tls_Write; apply ewp_bind];
    apply ewp_bind, ewp_get; (destruct (negb _); [by repeat apply ewp_ret|]); apply ewp_bind, ewp_get.
  - apply read_ends. lia.
  - eapply ewp_mono; [apply (write_ends s); lia|intros; by apply ewp_ret|done].
Qed.

(** ** After an answer to try again *)

(** The results of some operations, an exception ending them. *)
Fixpoint runs (os : list op) : M (list string) :=
  match os with
  | [] => ret []
  | o :: os => bind (run o) (fun s => bind (runs os) (fun l => ret (s :: l)))
  end.
Definition mute (w : wrapper) : Prop := forall os, runs os w = (w, Done (map (fun _ => "") os)).
Lemma closed_mute w : sock_ok w = false -> mute w.
Proof.
  intros H os. induction os as [|o os IH]; [done|]. cbn [runs map].
  assert (E : run o w = (w, Done "")).
  { destruct o; cbn; unfold tls_Read, tls_Write, tls_ready, bind, get; cbn; by rewrite H. }
  unfold bind at 1. rewrite E. unfold bind. by rewrite IH.
Qed.

Context (again_not_fatal : forall r, tlserr_again r = true -> error_is_fatal r = false).

(** When GnuTLS answers once that it has to be called again, the call is made again
    and the text is read or written; but the wrapper takes the socket for closed: from
    then on nothing is read, nothing is written, GnuTLS is not called, and no exception
    tells the session. *)
Theorem again_closes w r b rest s :
  tls_ok w = true -> tls_handshake w = true -> sock_ok w = true ->
  answers w = Code r :: Data b :: rest -> tlserr_again r = true -> b <> "" ->
  (exists w', run ORead w = (w', Done (c_str b)) /\ mute w' /\ answers w' = rest
     /\ calls w' = calls w ++ [Recv; Recv])
  /\ (exists w', run (OWrite s) w = (w', Done "") /\ mute w' /\ answers w' = rest
     /\ calls w' = calls w ++ [Send s; Send s]).
Proof.
  intros Ht Hh Hs Ha Hr Hb. pose proof (again_not_fatal r Hr) as Hf.
  assert (Hr' : (r <=? 0) = true /\ (r =? 0) = false /\ (r =? E_REHANDSHAKE) = false).
  { unfold tlserr_again in Hr. apply orb_true_iff in Hr as [->%Z.eqb_eq| ->%Z.eqb_eq]; done. }
  destruct Hr' as (H1 & H2 & H3).
  assert (Hl : (Z.of_nat (slen b) <=? 0) = false) by (destruct b; [done|]; apply Z.leb_gt; cbn; lia).
  destruct w as [so to th tc an cl]. cbn in *. subst.
  split; (eexists; split; [|split; [|split]]).
  - cbn -[c_str]. unfold tls_Read, tls_ready, turns, bind, get. cbn -[c_str]. rewrite H1. cbn -[c_str].
    rewrite H2, Hf, H3, Hr. cbn -[c_str]. rewrite Hl. reflexivity.
  - by apply closed_mute.
  - done.
  - cbn. by rewrite <- app_assoc.
  - unfold run, tls_Write, tls_ready, turns, bind, get. cbn. rewrite H1. cbn.
    rewrite H2, Hf, Hr. cbn. rewrite Hl. reflexivity.
  - by apply closed_mute.
  - done.
  - cbn. by rewrite <- app_assoc.
Qed.

(** ** The name of the client *)

Lemma prefix_split t s : prefix_of t s = true -> exists post, s = t +:+ post.
Proof.
  unfold prefix_of. revert s. induction t as [|c t IH]; intros s H; [by exists s|].
  destruct s as [|x s]; [done|]. cbn in H. destruct (ascii_dec c x) as [->|]; [|done].
  destruct (IH s H) as [post ->]. by exists post.
Qed.
Lemma find_text_split t s k : find_text t s = Some k -> exists post, s = stake k s +:+ t +:+ post.
Proof.
  revert k. induction s as [|c s IH]; intros k; cbn [find_text].
  - destruct (prefix_of t "") eqn:E; [|done]. intros [= <-]. apply prefix_split in E as [post E]. by exists post.
  - destruct (prefix_of t (String c s)) eqn:E.
    + intros [= <-]. apply prefix_split in E as [post ->]. by exists post.
    + destruct (find_text t s) as [j|] eqn:F; [|done]. intros [= <-]. destruct (IH j eq_refl) as [post Hp].
      exists post. cbn. rewrite app_cons_s. by rewrite <- Hp.
Qed.
Lemma find_if_split p s k : find_if p s = Some k ->
  exists c post, s = stake k s +:+ String c post /\ p c = true /\ sall (fun c => negb (p c)) (stake k s) = true.
Proof.
  revert k. induction s as [|x s IH]; intros k; cbn; [done|]. destruct (p x) eqn:E; [intros [= <-]; by exists x, s|].
  destruct (find_if p s) as [j|]; [|done]. intros [= <-]. destruct (IH j eq_refl) as (c & post & H1 & H2 & H3).
  exists c, post. cbn. rewrite app_cons_s, <- H1, E. by split_and!.
Qed.

(** The name is what stands between CN= and a comma. *)
Lemma common_name_between dn : common_name dn <> "" ->
  exists pre post, dn = pre +:+ "CN=" +:+ common_name dn +:+ "," +:+ post
    /\ sall (fun c => negb (Ascii.eqb c ",")) (common_name dn) = true.
Proof.
  unfold common_name. destruct (find_text "CN=" dn) as [pos|] eqn:E; [|done].
  destruct (find_text_split _ _ _ E) as [post Hp].
  assert (Hl : slen (stake pos dn) = pos).
  { pose proof (f_equal slen Hp) as H. rewrite !slen_app, slen_stake in H. rewrite slen_stake. cbn in H. lia. }
  assert (Hd : sdrop pos dn = "CN=" +:+ post) by (rewrite Hp at 1; rewrite <- Hl at 1; apply sdrop_app_s).
  rewrite sdrop_add, Hd.
  assert (Hf : find_if (fun c => Ascii.eqb c ",") ("CN=" +:+ post)
    = (fun k => S (S (S k))) <$> find_if (fun c => Ascii.eqb c ",") post).
  { change ("CN=" +:+ post) with (String "C" (String "N" (String "=" post))). cbn.
    by destruct (find_if _ post). }
  rewrite Hf. destruct (find_if _ post) as [k|] eqn:F; [|done]. cbn [fmap option_fmap option_map Nat.sub].
  change (sdrop 3 ("CN=" +:+ post)) with post.
  rewrite Nat.sub_0_r. destruct (find_if_split _ _ _ F) as (c & post' & H1 & H2 & H3). intros _.
  apply Ascii.eqb_eq in H2 as ->. exists (stake pos dn), post'. split; [|done]. by rewrite Hp at 1; rewrite H1 at 1.
Qed.

(** ** The wrapper that the constructor leaves *)

(** Certificates are checked when a trust file is given, and GnuTLS found something in it. *)
Definition built (c : setup) (w : wrapper) : Prop :=
  tls_ok w = true /\ tls_handshake w = true /\ trust_check w = negb (String.eqb (trust_file c) " ")
  /\ (trust_check w = true -> 0 < r_trust c).

Lemma wp_step e (Q : unit -> wrapper -> Prop) w :
  Q tt w -> wp (CheckTLSError strerror e) Q (fun _ _ => True) w.
Proof. intros HQ. by apply wp_check. Qed.
Lemma wp_trust c w : trust_check w = false ->
  wp (set_trust strerror c)
    (fun _ w' => trust_check w' = negb (String.eqb (trust_file c) " ") /\ (trust_check w' = true -> 0 < r_trust c))
    (fun _ _ => True) w.
Proof.
  intros Hw. unfold set_trust, when. destruct (String.eqb (trust_file c) " "); cbn [negb].
  { apply ewp_ret. rewrite Hw. by split. }
  apply ewp_bind. unfold E_SUCCESS. destruct (Z.eqb_spec (r_trust c) 0) as [E|E]; [by apply ewp_throw|].
  unfold when. destruct (Z.ltb_spec (r_trust c) 0) as [L|L].
  - apply wp_check; [unfold E_SUCCESS; lia|done].
  - apply ewp_ret, ewp_put. split; [done|lia].
Qed.
Lemma wp_crl c (Q : unit -> wrapper -> Prop) w :
  Q tt w -> wp (set_crl strerror c) Q (fun _ _ => True) w.
Proof.
  intros HQ. unfold set_crl. apply ewp_bind, ewp_get. unfold when.
  destruct (_ && _); [|by apply ewp_ret]. destruct (r_crl c <? 0); [by apply wp_step|by apply ewp_ret].
Qed.
Lemma new_tls_built c w :
  wp (new_tls strerror error_is_fatal c) (fun _ w' => built c w') (fun _ _ => True) w.
Proof.
  unfold new_tls. do 3 apply ewp_bind, ewp_put. destruct (negb (found c)); [by apply ewp_throw|].
  do 2 apply ewp_bind, wp_step. apply ewp_bind.
  eapply ewp_mono; [by apply wp_trust| |done]. intros ? w1 [H1 H2].
  apply ewp_bind, wp_crl. do 4 apply ewp_bind, wp_step. apply ewp_bind.
  destruct (r_priority c =? E_INVALID_REQUEST); [by apply ewp_throw|].
  apply wp_step, ewp_bind, wp_step, ewp_bind.
  eapply ewp_mono; [apply wp_handshake| |done]. intros ? w2 [H3 H4]. apply ewp_put.
  unfold same_trust in H3. split_and!; cbn; [done|done|congruence|rewrite H3; exact H2].
Qed.

(** What makes a certificate the client's own. *)
Definition verified (p : peer) : Prop :=
  is_x509 p = true /\ 0 < cert_list_size p /\ verify p = E_SUCCESS /\ status p = 0
  /\ crt_import p = E_SUCCESS /\ get_dn p = E_SUCCESS.
Lemma username_of p w :
  wp (GetClientUsername strerror p)
    (fun s w' => s = "" \/ trust_check w = true /\ verified p /\ s = common_name (dn p)) (fun _ _ => True) w.
Proof.
  unfold GetClientUsername. apply ewp_bind, ewp_get. unfold id.
  destruct (trust_check w) eqn:Ht; [|apply ewp_ret; by left]. destruct (tls_ok w); [|apply ewp_ret; by left].
  cbn [negb orb]. destruct (is_x509 p) eqn:Hx; [|apply ewp_ret; by left]. cbn [negb].
  destruct (Z.leb_spec (cert_list_size p) 0) as [L|L]; [apply ewp_ret; by left|].
  apply ewp_bind, wp_check; [intros Hv|done].
  destruct (Z.eqb_spec (status p) 0) as [Hs|Hs]; [|apply ewp_ret; by left]. cbn [negb].
  apply ewp_bind, wp_step. destruct (Z.eqb_spec (crt_import p) E_SUCCESS) as [Hi|Hi];
    (apply ewp_bind, wp_check; [intros Hd|done]); apply ewp_ret; [|by left]. right. by split_and!.
Qed.

(** A session: the wrapper is built, used, and asked for the name. *)
Definition session (c : setup) (os : list op) (p : peer) : M string :=
  bind (new_tls strerror error_is_fatal c) (fun _ =>
  bind (runs os) (fun _ => GetClientUsername strerror p)).
Lemma runs_trust os w : wp (runs os) (fun _ => same_trust w) (fun _ => same_trust w) w.
Proof.
  revert w. induction os as [|o os IH]; intros w; cbn [runs]; [by apply ewp_ret|].
  apply ewp_bind. eapply ewp_mono; [apply op_ends| |done]. intros s w1 H1. apply ewp_bind.
  eapply ewp_mono; [apply IH| |]; unfold same_trust in *; [|congruence].
  intros l w2 H2. apply ewp_ret. congruence.
Qed.

(** C22: a client gets a name from its certificate only when a trust file was configured
    and GnuTLS found authorities in it, and the certificate is an X.509 one that the
    verification accepts with no reserve; the name is then what stands in its
    distinguished name between "CN=" and the next comma. *)
Theorem username_verified c os p w w' name :
  session c os p w = (w', Done name) -> name <> "" ->
  trust_file c <> " " /\ 0 < r_trust c /\ verified p
  /\ exists pre post, dn p = pre +:+ "CN=" +:+ name +:+ "," +:+ post
       /\ sall (fun ch => negb (Ascii.eqb ch ",")) name = true.
Proof.
  intros Hrun Hn.
  assert (H : wp (session c os p)
    (fun s _ => s = "" \/ (trust_file c <> " " /\ 0 < r_trust c) /\ verified p /\ s = common_name (dn p))
    (fun _ _ => True) w).
  { apply ewp_bind. eapply ewp_mono; [apply new_tls_built| |done]. intros _ w1 (_ & _ & H1 & H2).
    apply ewp_bind. eapply ewp_mono; [apply runs_trust| |done]. intros l w2 H3.
    eapply ewp_mono; [apply username_of| |done]. intros s w3 [->|(Ht & Hv & ->)]; [by left|]. right.
    rewrite H3 in Ht. split_and!; auto. rewrite H1 in Ht. by apply negb_true_iff, String.eqb_neq in Ht. }
  unfold wp in H. rewrite Hrun in H. destruct H as [->|([H1 H2] & H3 & ->)]; [done|].
  split_and!; try done. by apply common_name_between.
Qed.
End SockP.

(** ** The end of a wrapper *)

Lemma filter_every {A} (P : A -> Prop) `{!forall x, Decision (P x)} l : Forall P l -> filter P l = l.
Proof. induction 1; [done|]. rewrite filter_cons_True; congruence. Qed.
Lemma filter_no {A} (P : A -> Prop) `{!forall x, Decision (P x)} l : Forall (fun x => ~ P x) l -> filter P l = [].
Proof. induction 1; [done|]. by rewrite filter_cons_False. Qed.
Lemma cleanup_sources ids b :
  sources (fold_left (fun b id => source_remove id b) ids b) = filter (fun i => i ∉ ids) (sources b).
Proof.
  revert b. induction ids as [|i ids IH]; intros b; cbn [fold_left].
  - symmetry. apply filter_every, Forall_true. set_solver.
  - rewrite IH. cbn. rewrite list_filter_filter. apply list_filter_iff. intros x. rewrite not_elem_of_cons. tauto.
Qed.
Lemma cleanup_rest ids b :
  closed (fold_left (fun b id => source_remove id b) ids b) = closed b
  /\ recv_fd (fold_left (fun b id => source_remove id b) ids b) = recv_fd b
  /\ send_fd (fold_left (fun b id => source_remove id b) ids b) = send_fd b.
Proof. revert b. induction ids as [|i ids IH]; intros b; [done|]. cbn. destruct (IH (source_remove i b)) as (-> & -> & ->). done. Qed.
(** A wrapper that goes leaves no source behind, removes no other, and closes each of its descriptors once. *)
Lemma destroy_clean r s src ids :
  let b := destroy (fold_right AttachCallback (Base r s [] true src []) ids) in
  Forall (fun i => 0 < i /\ i ∉ src) ids -> sources b = src /\ NoDup (closed b)
  /\ forall d, d ∈ closed b <-> d = r \/ d = s.
Proof.
  intros b Hids. set (b0 := fold_right AttachCallback (Base r s [] true src []) ids).
  assert (H : callback_ids b0 = rev ids /\ sources b0 = src ++ rev ids /\ closed b0 = []
              /\ recv_fd b0 = r /\ send_fd b0 = s).
  { subst b0. clear b. induction ids as [|i ids IH]; [by rewrite app_nil_r|]. cbn [fold_right rev].
    apply Forall_cons in Hids as [[Hi _] Hids]. destruct (IH Hids) as (H1 & H2 & H3 & H4 & H5).
    unfold AttachCallback at 1 3 5 7 9. apply Z.ltb_lt in Hi. rewrite Hi. cbn.
    by rewrite H1, H2, app_assoc. }
  destruct H as (H1 & H2 & H3 & H4 & H5). unfold b, destroy, EndSessionCleanup. cbn. fold b0.
  rewrite cleanup_sources. destruct (cleanup_rest (callback_ids b0) b0) as (-> & -> & ->).
  rewrite H1, H2, H3, H4, H5. split.
  - rewrite filter_app, (filter_every _ src), (filter_no _ (rev ids)); [by rewrite app_nil_r| |].
    + apply Forall_forall. auto.
    + apply Forall_forall. intros x Hx Hr. rewrite list_elem_of_In, <- in_rev, <- list_elem_of_In in Hr. rewrite Forall_forall in Hids.
      by destruct (Hids x Hr).
  - destruct (Z.eqb_spec s r) as [->|]; cbn; (split; [repeat constructor; set_solver|set_solver]).
Qed.

(** ** On concrete sessions *)

Definition reason (r : Z) : string := "error".
Definition fatal (r : Z) : bool := (r <? 0) && negb (tlserr_again r) && negb (r =? E_REHANDSHAKE).
Definition blank (l : list answer) : wrapper := Wrapper false false false false l [].
Definition conf : setup := Setup true "ca.pem" "crl.pem" 0 0 1 1 0 0 0 0 0 0.
Definition cert (dn : string) : peer := Peer true 1 0 0 0 0 0 dn.
Definition dn_ann : string := "C=FR,O=minbif,CN=ann,OU=users".

Lemma again_closes_witness :
  let w := Wrapper true true true false [Code E_AGAIN; Data "PING :x"; Data "NICK ann"] [] in
  (exists w', run reason fatal ORead w = (w', Done "PING :x") /\ mute reason fatal w' /\ answers w' = [Data "NICK ann"]
     /\ calls w' = calls w ++ [Recv; Recv])
  /\ (exists w', run reason fatal (OWrite "PONG") w = (w', Done "") /\ mute reason fatal w'
     /\ answers w' = [Data "NICK ann"] /\ calls w' = calls w ++ [Send "PONG"; Send "PONG"]).
Proof.
  intros w. change (Done "PING :x") with (@Done exn string (c_str "PING :x")).
  apply (again_closes reason fatal) with (r := E_AGAIN); try reflexivity; [|discriminate].
  intros r Hr. unfold fatal. rewrite Hr. cbn. by rewrite andb_false_r.
Defined.

Lemma username_verified_witness :
  "ca.pem" <> " " /\ 0 < 1 /\ verified (cert dn_ann)
  /\ exists pre post, dn_ann = pre +:+ "CN=" +:+ "ann" +:+ "," +:+ post
       /\ sall (fun ch => negb (Ascii.eqb ch ",")) "ann" = true.
Proof.
  refine (username_verified reason fatal conf [ORead; OWrite "PONG"] (cert dn_ann)
    (blank [Code 0; Data "NICK ann"; Data "x"]) _ "ann" _ _); [vm_compute; reflexivity|discriminate].
Defined.

(** The last attribute of a distinguished name gives no user name. *)
Example common_name_last : common_name "C=FR,CN=ann" = "".
Proof. reflexivity. Qed.
Example common_name_other : common_name "OU=users+CN=ann,C=FR" = "ann".
Proof. reflexivity. Qed.
(** A socket in the clear is read again after an interruption. *)
Example plain_again :
  let w := Wrapper true false false false [Code (- EINTR); Data "NICK ann"] [] in
  bind (plain_Read reason) (fun _ => plain_Read reason) w
  = (Wrapper true false false false [] [Recv; Recv], Done "NICK ann").
Proof. reflexivity. Qed.
(** A renegotiation that the client asks for closes the socket too. *)
Example rehandshake_closes :
  let w := Wrapper true true true false [Code E_REHANDSHAKE; Code 0; Data "NICK ann"] [] in
  bind (tls_Read reason fatal) (fun _ => tls_Read reason fatal) w
  = (Wrapper false true true false [Data "NICK ann"] [Recv; Handshake], Done "").
Proof. reflexivity. Qed.
End SockP.
