(* ===== verification/Caca.v ===== *)
(** core/caca_image.{h,cpp}: the pictures drawn with libcaca.  An image is shared by
    the [CacaImage] objects that were copied from each other and counts them; an
    object keeps the text it was drawn as. *)

From S2P Require Import Prelude Util Effects.
Local Open Scope eff_scope.

Module Caca.
Import Eff.

(** [struct CacaImage::image], [CacaImage]. *)
Record image := Image {
  im_pixels : string; im_w : Z; im_h : Z; im_dither : bool; im_priv : bool; im_ref : Z }.
Record caca := CacaImage {
  c_buf : string; c_width : Z; c_height : Z; c_font_width : Z; c_font_height : Z; c_img : option nat }.
Inductive ev := CreateCanvas | FreeCanvas | CreateDither | FreeDither | Imlib_free_image.
Inductive exn := CacaError | CacaNotLoaded.

(** The images, the objects by name, the calls to the libraries. *)
Record st := St { images : gmap nat image; next : nat; objs : gmap nat caca; trace : list ev }.
Definition up_images (f : gmap nat image -> gmap nat image) (s : st) : st := St (f (images s)) (next s) (objs s) (trace s).
Definition up_objs (f : gmap nat caca -> gmap nat caca) (s : st) : st := St (images s) (next s) (f (objs s)) (trace s).
Definition emit_ev (e : ev) (s : st) : st := St (images s) (next s) (objs s) (trace s ++ [e]).
Definition M (A : Type) : Type := Eff.M st exn A.

(** What libcaca and imlib2 answer after the past calls. *)
Class CacaEnv := {
  have_caca : bool;
  load_image : list ev -> string -> option (Z * Z * string);
  create_dither_ok : list ev -> Z -> Z -> Z -> bool;     (* bpp, width, height *)
  create_canvas : list ev -> bool;
  set_algorithm : list ev -> Z;
  (* caca_export_canvas_to_memory of the drawn pixels: the size, the type *)
  export : list ev -> image -> Z -> Z -> string -> option string }.

Section Caca.
Context {env : CacaEnv}.

Definition u32 (z : Z) : Z := z mod 2 ^ 32.
Definition with_ref (r : Z) (im : image) : image :=
  Image (im_pixels im) (im_w im) (im_h im) (im_dither im) (im_priv im) r.
Definition call (e : ev) : M unit := put (emit_ev e).
Definition ask {A} (f : list ev -> A) : M A := get (fun s => f (trace s)).
Definition get_image (i : nat) : M image :=
  eff! o := get (fun s => images s !! i); deref "a freed image" o.
Definition get_obj (o : nat) : M caca := eff! c := get (fun s => objs s !! o); deref "no object" c.
Definition put_obj (o : nat) (c : caca) : M unit := put (up_objs (insert o c)).
(** [new image()]. *)
Definition new_image (im : image) : M nat :=
  eff! i := get next;
  put (fun s => St (<[i := im]> (images s)) (S i) (objs s) (trace s));;
  ret i.
(** [image::~image]. *)
Definition delete_image (i : nat) : M unit :=
  eff! im := get_image i;
  when (im_priv im) (call Imlib_free_image);;
  when (im_dither im) (call FreeDither);;
  put (up_images (delete i)).

(** [image::create_dither]. *)
Definition create_dither (bpp : Z) (im : image) : M image :=
  call CreateDither;;
  eff! ok := ask (fun t => create_dither_ok t bpp (im_w im) (im_h im));
  ret (Image (im_pixels im) (im_w im) (im_h im) ok (im_priv im) (im_ref im)).
(** [image::load_file]. *)
Definition load_file (name : string) : M (option nat) :=
  eff! image := ask (fun t => load_image t name);
  match image with
  | None => ret None
  | Some (w, h, pixels) =>
    eff! im := create_dither 32 (Image pixels w h false false 1);
    if negb (im_dither im) then ret None
    else eff! i := new_image (Image pixels w h true true 1); ret (Some i)
  end.
(** [g_strndup]: up to the first zero byte, and zero bytes up to the size. *)
Fixpoint strndup (s : string) : string :=
  match s with
  | "" => ""
  | String c s => String c (if Ascii.eqb c "000" then smap (fun _ => "000"%char) s else strndup s)
  end.

(** The constructors and the destructor; [o] is the object. *)
Definition new_default (o : nat) : M unit := put_obj o (CacaImage "" 0 0 16 10 None).
Definition new_file (o : nat) (path : string) : M unit :=
  eff! img := (if have_caca then load_file path else ret None);
  put_obj o (CacaImage "" 0 0 6 10 img).
Definition new_buf (o : nat) (buf : string) (w h bpp : Z) : M unit :=
  if have_caca then
    eff! im := create_dither bpp (Image (strndup buf) w h false false 1);
    eff! i := new_image im;
    put_obj o (CacaImage "" 0 0 6 10 (Some i))
  else put_obj o (CacaImage "" 0 0 6 10 None).
(** [img->ref++]. *)
Definition hold (img : option nat) : M unit :=
  if have_caca then
    eff! i := deref "img is NULL" img;
    eff! im := get_image i;
    put (up_images (insert i (with_ref (u32 (im_ref im + 1)) im)))
  else ret tt.
Definition deinit (img : option nat) : M unit :=
  if have_caca then
    match img with
    | None => ret tt
    | Some i =>
      eff! im := get_image i;
      let r := u32 (im_ref im - 1) in
      put (up_images (insert i (with_ref r im)));;
      when (r <? 1) (delete_image i)
    end
  else ret tt.
Definition with_img (img : option nat) (c : caca) : caca :=
  CacaImage (c_buf c) (c_width c) (c_height c) (c_font_width c) (c_font_height c) img.
Definition copy (o from : nat) : M unit :=
  eff! c := get_obj from;
  hold (c_img c);;
  put_obj o c.
(** [operator=]; the argument may be the object itself. *)
Definition assign (o from : nat) : M unit :=
  eff! c := get_obj o;
  deinit (c_img c);;
  put_obj o (with_img (if have_caca then None else c_img c) c);;
  eff! c' := get_obj from;
  put_obj o c';;
  hold (c_img c').
Definition destroy (o : nat) : M unit :=
  eff! c := get_obj o;
  deinit (c_img c);;
  put (up_objs (delete o)).

(** A division of unsigned integers. *)
Definition udiv (a b : Z) : M Z := if b =? 0 then crash "division by zero" else ret (a / b).
(** The size of the picture, from the ones that are given. *)
Definition fit (im : image) (w h fw fh : Z) : M (Z * Z) :=
  if (w =? 0) && (h =? 0) then
    eff! a := udiv (u32 (u32 (10 * im_w im) * fh)) (im_h im);
    eff! w := udiv a fw; ret (w, 10)
  else if negb (w =? 0) && (h =? 0) then
    eff! a := udiv (u32 (u32 (w * im_h im) * fw)) (im_w im);
    eff! h := udiv a fh; ret (w, h)
  else if (w =? 0) && negb (h =? 0) then
    eff! a := udiv (u32 (u32 (h * im_w im) * fh)) (im_h im);
    eff! w := udiv a fw; ret (w, h)
  else ret (w, h).
Definition with_size (w h fw fh : Z) (c : caca) : caca := CacaImage (c_buf c) w h fw fh (c_img c).
Definition with_buf (s : string) (c : caca) : caca :=
  CacaImage s (c_width c) (c_height c) (c_font_width c) (c_font_height c) (c_img c).
(** [buf = tmp], after [tmp[len] = 0]. *)
Definition c_str (s : string) : string :=
  match find_if (fun c => Ascii.eqb c "000") s with Some i => stake i s | None => s end.
Definition cached (c : caca) (w h fw fh : Z) : bool :=
  negb (sempty (c_buf c)) && (c_width c =? w) && (c_height c =? h)
  && (c_font_width c =? fw) && (c_font_height c =? fh).
Definition getIRCBuffer_size (o : nat) (w h : Z) (output_type : string) (fw fh : Z) : M string :=
  if negb have_caca then throw CacaNotLoaded
  else
    eff! c := get_obj o;
    match c_img c with
    | None => throw CacaError
    | Some i =>
      if cached c w h fw fh then ret (c_buf c)
      else
        put_obj o (with_size w h fw fh c);;
        call CreateCanvas;;
        eff! cv := ask create_canvas;
        if negb cv then throw CacaError
        else
          eff! im := get_image i;
          eff! wh := fit im w h fw fh;
          put_obj o (with_size wh.1 wh.2 fw fh c);;
          if negb (im_dither im) then crash "the dither is NULL"
          else
            eff! r := ask set_algorithm;
            if negb (r =? 0) then call FreeCanvas;; throw CacaError
            else
              eff! tmp := ask (fun t => export t im wh.1 wh.2 output_type);
              match tmp with
              | None => throw CacaError
              | Some s =>
                put_obj o (with_buf (c_str s) (with_size wh.1 wh.2 fw fh c));;
                call FreeCanvas;;
                ret (c_str s)
              end
    end.
Definition getIRCBuffer (o : nat) : M string :=
  eff! c := get_obj o;
  if sempty (c_buf c) then
    getIRCBuffer_size o (c_width c) (c_height c) "irc" (c_font_width c) (c_font_height c)
  else ret (c_buf c).
End Caca.
End Caca.
