(* ===== verification/CacaProps.v ===== *)
(** The images of core/caca_image.cpp: their counts are those of the objects that hold
    them, so that none is used after it is freed and the last object frees it; a
    picture of a given size is drawn once. *)

From stdpp Require Import functions.
From S2P Require Import Prelude Util Effects Caca.
Import Eff Caca.

Module CacaP.
Section CacaP.
Context {env : CacaEnv}.

(** ** The life of the objects *)

Inductive op :=
| NewDefault (o : nat) | NewFile (o : nat) (path : string) | NewBuf (o : nat) (buf : string) (w h bpp : Z)
| Copy (o from : nat) | Assign (o from : nat) | Destroy (o : nat)
| Render (o : nat) (w h : Z) (output_type : string) (fw fh : Z) | Show (o : nat).
Definition step (a : op) : M unit :=
  match a with
  | NewDefault o => new_default o
  | NewFile o path => new_file o path
  | NewBuf o buf w h bpp => new_buf o buf w h bpp
  | Copy o from => copy o from
  | Assign o from => assign o from
  | Destroy o => destroy o
  | Render o w h t fw fh => bind (getIRCBuffer_size o w h t fw fh) (fun _ => ret tt)
  | Show o => bind (getIRCBuffer o) (fun _ => ret tt)
  end.
(** The callers catch what a drawing throws. *)
Fixpoint run (l : list op) : M unit :=
  match l with
  | [] => ret tt
  | a :: l => bind (catch (step a) (fun _ => Some (ret tt))) (fun _ => run l)
  end.

Definition has_image (o : nat) (s : st) : Prop := exists c, objs s !! o = Some c /\ c_img c <> None.
(** What the language and the libraries ask of the caller: a new name for a new
    object, a living one to use; a copied object has an image; an image that is given
    has a size and libcaca takes it. *)
Definition legal (a : op) (s : st) : Prop :=
  match a with
  | NewDefault o | NewFile o _ => objs s !! o = None
  | NewBuf o _ w h bpp => objs s !! o = None /\ 0 < w /\ 0 < h
      /\ create_dither_ok (trace s ++ [CreateDither]) bpp w h = true
  | Copy o from => objs s !! o = None /\ has_image from s
  | Assign o from => o <> from /\ is_Some (objs s !! o) /\ has_image from s
  | Destroy o | Show o => is_Some (objs s !! o)
  | Render o _ _ _ fw fh => is_Some (objs s !! o) /\ 0 < fw /\ 0 < fh
  end.
Fixpoint legal_run (l : list op) (s : st) : Prop :=
  match l with
  | [] => True
  | a :: l => legal a s /\ legal_run l (catch (step a) (fun _ => Some (ret tt)) s).1
  end.

(** ** The number of objects that hold an image *)

Definition holds (i : nat) (c : caca) : bool := bool_decide (c_img c = Some i).
Definition users (i : nat) (m : gmap nat caca) : nat := size (filter (fun oc => c_img oc.2 = Some i) m).

Lemma users_empty i : users i ∅ = 0%nat.
Proof. unfold users. by rewrite map_filter_empty, map_size_empty. Qed.
Lemma users_new i m o c : m !! o = None -> users i (<[o:=c]> m) = (Nat.b2n (holds i c) + users i m)%nat.
Proof.
  intros H. unfold users, holds. case_bool_decide as E.
  - rewrite map_filter_insert_True by done. rewrite map_size_insert_None; [done|].
    apply map_lookup_filter_None. by left.
  - rewrite map_filter_insert_False by done. by rewrite delete_id.
Qed.
Lemma users_delete i m o c : m !! o = Some c -> users i m = (Nat.b2n (holds i c) + users i (delete o m))%nat.
Proof.
  intros H. rewrite <- (insert_delete_id m o c H) at 1. by rewrite users_new by apply lookup_delete_eq.
Qed.
Lemma users_set i m o c : users i (<[o:=c]> m) = (Nat.b2n (holds i c) + users i (delete o m))%nat.
Proof. rewrite <- insert_delete_eq. by rewrite users_new by apply lookup_delete_eq. Qed.
Lemma users_size i m : (users i m <= size m)%nat.
Proof. unfold users. apply map_size_filter. Qed.

(** ** The counts *)

Definition sound (im : image) : Prop := 0 < im_w im /\ 0 < im_h im /\ im_dither im = true.
(** The image [i] is held [u i] times, and exists when that is not 0. *)
Record counted (u : nat -> nat) (s : st) : Prop := {
  ct_some i im : images s !! i = Some im -> sound im /\ im_ref im = Z.of_nat (u i) /\ (0 < u i)%nat;
  ct_none i : images s !! i = None -> u i = 0%nat;
  ct_next i : (next s <= i)%nat -> images s !! i = None }.
Lemma counted_ext u u' s : counted u s -> (forall i, u' i = u i) -> counted u' s.
Proof.
  intros [H1 H2 H3] E. constructor; [intros i im Hi|intros i Hi|done]; rewrite E; [by apply H1|by apply H2].
Qed.
Lemma counted_ref u s i im n :
  counted u s -> images s !! i = Some im -> (0 < n)%nat ->
  counted (<[i := n]> u) (up_images (insert i (with_ref (Z.of_nat n) im)) s).
Proof.
  intros [H1 H2 H3] Hi Hn. destruct (H1 _ _ Hi) as [Hs _]. constructor; cbn [images next up_images].
  - intros j im'. destruct (decide (i = j)) as [<-|Hj].
    + rewrite lookup_insert_eq, fn_lookup_insert. by intros [= <-].
    + rewrite lookup_insert_ne, fn_lookup_insert_ne by done. apply H1.
  - intros j. destruct (decide (i = j)) as [<-|Hj]; [by rewrite lookup_insert_eq|].
    rewrite lookup_insert_ne, fn_lookup_insert_ne by done. apply H2.
  - intros j Hj. rewrite lookup_insert_ne; [by apply H3|]. intros <-. by rewrite H3 in Hi.
Qed.
Lemma counted_gone u s i :
  counted u s -> counted (<[i := 0%nat]> u) (up_images (delete i) s).
Proof.
  intros [H1 H2 H3]. constructor; cbn [images next up_images].
  - intros j im. rewrite lookup_delete_Some. intros [Hj H]. rewrite fn_lookup_insert_ne by done. by apply H1.
  - intros j. destruct (decide (i = j)) as [<-|Hj]; [by rewrite fn_lookup_insert|].
    rewrite lookup_delete_ne, fn_lookup_insert_ne by done. apply H2.
  - intros j Hj. apply lookup_delete_None. right. by apply H3.
Qed.
Lemma counted_same u s s' : counted u s -> images s' = images s -> next s' = next s -> counted u s'.
Proof. intros [H1 H2 H3] E1 E2. constructor; rewrite ?E1, ?E2; auto. Qed.
Lemma counted_new u s im :
  counted u s -> sound im -> im_ref im = 1 ->
  counted (<[next s := 1%nat]> u) (St (<[next s := im]> (images s)) (S (next s)) (objs s) (trace s)).
Proof.
  intros [H1 H2 H3] Hs Hr. constructor; cbn [images next].
  - intros j im'. destruct (decide (next s = j)) as [<-|Hj].
    + rewrite lookup_insert_eq, fn_lookup_insert. intros [= <-]. split_and!; [done..|lia].
    + rewrite lookup_insert_ne, fn_lookup_insert_ne by done. apply H1.
  - intros j. destruct (decide (next s = j)) as [<-|Hj]; [by rewrite lookup_insert_eq|].
    rewrite lookup_insert_ne, fn_lookup_insert_ne by done. apply H2.
  - intros j Hj. rewrite lookup_insert_ne by lia. apply H3. lia.
Qed.

Context (caca_there : have_caca = true).
Context (loads_sound : forall t p w h px, load_image t p = Some (w, h, px) -> 0 < w /\ 0 < h).

Notation "'wp!' m 'with' Q 'at' s" := (wp m Q (fun _ _ => False) s) (at level 20, m at level 9, Q at level 99, s at level 9, only parsing).

Lemma u32_small z : 0 <= z < 2 ^ 32 -> u32 z = z.
Proof. apply Z.mod_small. Qed.
(** The sharing operations, by the counts they leave. *)
Lemma wp_hold u i (Q : unit -> st -> Prop) R s :
  counted u s -> (0 < u i)%nat -> Z.of_nat (u i) + 1 < 2 ^ 32 ->
  (forall s', counted (<[i := S (u i)]> u) s' -> objs s' = objs s -> Q tt s') -> wp (hold (Some i)) Q R s.
Proof.
  intros C Hu Hb HQ. unfold hold. rewrite caca_there. cbn [deref]. apply ewp_bind, ewp_ret, ewp_bind.
  unfold get_image. apply ewp_bind, ewp_get. destruct (images s !! i) as [im|] eqn:E; [|rewrite (ct_none _ _ C _ E) in Hu; lia].
  destruct (ct_some _ _ C _ _ E) as (_ & Hr & _). apply ewp_ret, ewp_put, HQ; [|done].
  rewrite Hr, u32_small by lia. replace (Z.of_nat (u i) + 1) with (Z.of_nat (S (u i))) by lia.
  apply counted_ref; [done..|lia].
Qed.
Lemma wp_deinit u img (Q : unit -> st -> Prop) R s :
  counted u s -> (forall i, img = Some i -> 0 < u i)%nat -> (forall i, Z.of_nat (u i) < 2 ^ 32) ->
  (forall s', counted (match img with Some i => <[i := pred (u i)]> u | None => u end) s' -> objs s' = objs s -> Q tt s') ->
  wp (deinit img) Q R s.
Proof.
  intros C Hu Hb HQ. unfold deinit. rewrite caca_there. destruct img as [i|]; [|by apply ewp_ret, HQ].
  specialize (Hu i eq_refl). specialize (Hb i). apply ewp_bind. unfold get_image at 1. apply ewp_bind, ewp_get.
  destruct (images s !! i) as [im|] eqn:E; [|rewrite (ct_none _ _ C _ E) in Hu; lia].
  destruct (ct_some _ _ C _ _ E) as (_ & Hr & _). apply ewp_ret, ewp_bind, ewp_put.
  rewrite Hr, u32_small by lia. replace (Z.of_nat (u i) - 1) with (Z.of_nat (pred (u i))) by lia.
  apply ewp_when; intros Hl; [apply Z.ltb_lt in Hl|apply Z.ltb_ge in Hl].
  2: { apply HQ; [|done]. apply counted_ref; [done..|lia]. }
  unfold delete_image, get_image. apply ewp_bind, ewp_bind, ewp_get.
  cbn [images up_images]. rewrite lookup_insert_eq. apply ewp_ret.
  set (s1 := up_images _ s).
  assert (C1 : counted (<[i := pred (u i)]> u) (up_images (delete i) s1)).
  { replace (pred (u i)) with 0%nat by lia. subst s1. unfold up_images. cbn.
    rewrite delete_insert_eq. by apply (counted_gone u s i). }
  apply ewp_bind, ewp_when; intros _; [apply ewp_put|]; (apply ewp_bind, ewp_when; intros _; [apply ewp_put|]);
    apply ewp_put; (apply HQ; [|done]); by apply (counted_same _ _ _ C1).
Qed.

(** ** The objects *)

(** At most [k] objects, which hold the images. *)
Definition fonts (c : caca) : Prop := 0 < c_font_width c /\ 0 < c_font_height c.
Record inv (k : nat) (s : st) : Prop := {
  inv_counted : counted (fun i => users i (objs s)) s;
  inv_fonts : map_Forall (fun _ => fonts) (objs s);
  inv_size : (size (objs s) <= k)%nat }.
Lemma inv_mono k k' s : inv k s -> (k <= k')%nat -> inv k' s.
Proof. intros [H1 H2 H3] H. split; [done..|lia]. Qed.
Lemma inv_bound k s i : inv k s -> Z.of_nat k < 2 ^ 32 -> Z.of_nat (users i (objs s)) < 2 ^ 32.
Proof. intros [_ _ H] Hk. pose proof (users_size i (objs s)). lia. Qed.
Lemma inv_held k s o c i : inv k s -> objs s !! o = Some c -> c_img c = Some i -> (0 < users i (objs s))%nat.
Proof. intros _ Ho Hi. rewrite (users_delete i _ _ _ Ho). unfold holds. rewrite bool_decide_eq_true_2 by done. cbn. lia. Qed.
Lemma wp_obj o (Q : caca -> st -> Prop) R s : is_Some (objs s !! o) ->
  (forall c, objs s !! o = Some c -> Q c s) -> wp (get_obj o) Q R s.
Proof. intros [c Hc] HQ. unfold get_obj. apply ewp_bind, ewp_get. rewrite Hc. by apply ewp_ret, HQ. Qed.

(** A new object, and one that changes its size or its text. *)
Lemma inv_new k s s' o c u :
  inv k s -> objs s !! o = None -> objs s' = objs s -> fonts c ->
  counted u s' -> (forall i, u i = Nat.b2n (holds i c) + users i (objs s))%nat ->
  inv (S k) (up_objs (insert o c) s').
Proof.
  intros [_ F Hk] Ho E Hf C Hu. split; cbn [objs up_objs]; rewrite E.
  - eapply counted_ext; [by apply (counted_same _ _ _ C)|]. intros i. rewrite users_new by done. symmetry. apply Hu.
  - by apply map_Forall_insert_2.
  - rewrite map_size_insert_None by done. lia.
Qed.
Lemma inv_set k s s' o c c' :
  inv k s -> objs s !! o = Some c -> c_img c' = c_img c -> fonts c' -> objs s' = objs s -> images s' = images s -> next s' = next s ->
  inv k (up_objs (insert o c') s').
Proof.
  intros [C F Hk] Ho E Hf E1 E2 E3. split; cbn [objs up_objs]; rewrite E1.
  - eapply counted_ext; [by apply (counted_same _ _ _ C)|]. intros i. cbn beta.
    rewrite users_set, (users_delete i (objs s) o c Ho). unfold holds. by rewrite E.
  - by apply map_Forall_insert_2.
  - by rewrite map_size_insert_Some by eauto.
Qed.
Lemma inv_same k s s' : inv k s -> objs s' = objs s -> images s' = images s -> next s' = next s -> inv k s'.
Proof. intros [C F Hk] E1 E2 E3. split; rewrite E1; [|done..]. by apply (counted_same _ _ _ C). Qed.

(** ** The operations *)

Lemma wp_create_dither bpp im (Q : image -> st -> Prop) R s :
  Q (Image (im_pixels im) (im_w im) (im_h im) (create_dither_ok (trace s ++ [CreateDither]) bpp (im_w im) (im_h im))
       (im_priv im) (im_ref im)) (emit_ev CreateDither s) -> wp (create_dither bpp im) Q R s.
Proof. intros HQ. unfold create_dither, call, ask. by apply ewp_bind, ewp_put, ewp_bind, ewp_get, ewp_ret. Qed.
Lemma wp_give_image k o im b w h fw fh R s :
  inv k s -> objs s !! o = None -> 0 < fw -> 0 < fh -> sound im -> im_ref im = 1 ->
  wp (new_image im) (fun i s' => wp (put_obj o (CacaImage b w h fw fh (Some i))) (fun _ => inv (S k)) R s') R s.
Proof.
  intros I Ho Hw Hh Hs Hr. unfold new_image. apply ewp_bind, ewp_get, ewp_bind, ewp_put, ewp_ret, ewp_put.
  eapply (inv_new k s); [done..| |].
  - apply (counted_new _ s _ (inv_counted _ _ I)); done.
  - intros i. unfold holds. cbn [c_img]. destruct (decide (next s = i)) as [<-|Hi].
    + rewrite fn_lookup_insert, bool_decide_eq_true_2 by done.
      assert (E : images s !! next s = None) by exact (ct_next _ _ (inv_counted _ _ I) _ (le_n _)).
      by rewrite (ct_none _ _ (inv_counted _ _ I) _ E).
    + rewrite fn_lookup_insert_ne, bool_decide_eq_false_2 by congruence. done.
Qed.
Lemma inv_no_image k s s' o b w h fw fh :
  inv k s -> objs s !! o = None -> 0 < fw -> 0 < fh ->
  objs s' = objs s -> images s' = images s -> next s' = next s ->
  inv (S k) (up_objs (insert o (CacaImage b w h fw fh None)) s').
Proof.
  intros I Ho Hw Hh E1 E2 E3. eapply inv_new; [done..| |].
  - by apply (counted_same _ _ _ (inv_counted _ _ I)).
  - intros i. unfold holds. by rewrite bool_decide_eq_false_2.
Qed.
Lemma new_file_inv k o p s : inv k s -> objs s !! o = None ->
  wp (new_file o p) (fun _ => inv (S k)) (fun _ => inv (S k)) s.
Proof.
  intros I Ho. unfold new_file. rewrite caca_there. apply ewp_bind. unfold load_file, ask. apply ewp_bind, ewp_get.
  destruct (load_image (trace s) p) as [[[w h] px]|] eqn:E.
  2: { apply ewp_ret, ewp_put. by eapply inv_no_image. }
  destruct (loads_sound _ _ _ _ _ E) as [Hw Hh]. apply ewp_bind, wp_create_dither. cbn [im_dither im_w im_h].
  destruct (create_dither_ok _ _ _ _); cbn [negb].
  - apply ewp_bind. eapply (ewp_mono _ _ _ (fun _ _ => False)); [|intros i s' H; apply ewp_ret, H|done].
    apply (wp_give_image k); [by apply (inv_same k s)|done..].
  - apply ewp_ret, ewp_put. by eapply inv_no_image.
Qed.
Lemma new_buf_inv k o buf w h bpp s : inv k s -> legal (NewBuf o buf w h bpp) s ->
  wp (new_buf o buf w h bpp) (fun _ => inv (S k)) (fun _ => inv (S k)) s.
Proof.
  intros I (Ho & Hw & Hh & Hd). unfold new_buf. rewrite caca_there. apply ewp_bind, wp_create_dither.
  cbn [im_w im_h im_pixels im_priv im_ref]. rewrite Hd. apply ewp_bind.
  apply (wp_give_image k); [by apply (inv_same k s)|done..].
Qed.
Lemma copy_inv k o from s : inv k s -> Z.of_nat k + 1 < 2 ^ 32 -> legal (Copy o from) s ->
  wp (copy o from) (fun _ => inv (S k)) (fun _ => inv (S k)) s.
Proof.
  intros I Hk [Ho (c & Hc & Hi)]. unfold copy. apply ewp_bind, wp_obj; [by eexists|]. rewrite Hc. intros _ [= <-].
  destruct (c_img c) as [i|] eqn:E; [|done]. apply ewp_bind. pose proof (inv_bound _ _ i I).
  pose proof (users_size i (objs s)). pose proof (inv_size _ _ I).
  eapply wp_hold; [exact (inv_counted _ _ I)|by eapply inv_held|lia|]. intros s' C' E'. apply ewp_put.
  eapply inv_new; [done..|by eapply (inv_fonts _ _ I)|done|]. intros j. unfold holds. rewrite E. destruct (decide (i = j)) as [<-|Hj].
  - by rewrite fn_lookup_insert, bool_decide_eq_true_2.
  - rewrite fn_lookup_insert_ne, bool_decide_eq_false_2 by congruence. done.
Qed.
(** An object that lets its image go. *)
Lemma wp_release k o c (Q : unit -> st -> Prop) R s :
  inv k s -> Z.of_nat k < 2 ^ 32 -> objs s !! o = Some c ->
  (forall s', counted (fun i => users i (delete o (objs s))) s' -> objs s' = objs s -> Q tt s') ->
  wp (deinit (c_img c)) Q R s.
Proof.
  intros I Hk Hc HQ. eapply wp_deinit; [exact (inv_counted _ _ I)|intros i Hi; by eapply inv_held|intros i; by eapply inv_bound|].
  intros s' C E. apply HQ; [|done]. eapply counted_ext; [exact C|]. intros j. cbn beta.
  pose proof (users_delete j (objs s) o c Hc) as Hu. unfold holds in Hu. destruct (c_img c) as [i|].
  - destruct (decide (i = j)) as [<-|Hj].
    + rewrite fn_lookup_insert. rewrite bool_decide_eq_true_2 in Hu by done. rewrite Hu. by cbn.
    + rewrite fn_lookup_insert_ne by done. rewrite bool_decide_eq_false_2 in Hu by congruence. by rewrite Hu.
  - rewrite bool_decide_eq_false_2 in Hu by done. by rewrite Hu.
Qed.
Lemma destroy_inv k o s : inv k s -> Z.of_nat k < 2 ^ 32 -> is_Some (objs s !! o) ->
  wp (destroy o) (fun _ => inv k) (fun _ => inv k) s.
Proof.
  intros I Hk Ho. unfold destroy. apply ewp_bind, wp_obj; [done|]. intros c Hc.
  apply ewp_bind. eapply wp_release; [done..|]. intros s' C E. apply ewp_put. split; cbn [objs up_objs]; rewrite E.
  - by apply (counted_same _ _ _ C).
  - apply map_Forall_delete, (inv_fonts _ _ I).
  - rewrite map_size_delete_Some by done. pose proof (inv_size _ _ I). lia.
Qed.
Lemma assign_inv k o from s : inv k s -> Z.of_nat k + 1 < 2 ^ 32 -> legal (Assign o from) s ->
  wp (assign o from) (fun _ => inv k) (fun _ => inv k) s.
Proof.
  intros I Hk (Hne & Ho & c' & Hc' & Hi). unfold assign. apply ewp_bind, wp_obj; [done|]. intros c Hc.
  apply ewp_bind. eapply wp_release; [done|lia|done|]. intros s1 C E. apply ewp_bind, ewp_put, ewp_bind, wp_obj;
    cbn [objs up_objs]; rewrite lookup_insert_ne, E, Hc' by done; [by eexists|]. intros _ [= <-].
  destruct (c_img c') as [i|] eqn:Ei; [|done]. apply ewp_bind, ewp_put.
  pose proof (users_size i (delete o (objs s))) as H1. pose proof (map_size_delete_Some _ _ Ho) as H2.
  pose proof (inv_size _ _ I) as H3.
  eapply wp_hold; [by apply (counted_same _ _ _ C)| |lia|].
  { cbn beta. rewrite (users_delete i _ from c') by (by rewrite lookup_delete_ne). unfold holds.
    rewrite bool_decide_eq_true_2 by done. cbn. lia. }
  intros s2 C2 E2. cbn [objs up_objs] in E2. rewrite insert_insert_eq, E in E2. split; rewrite ?E2.
  - eapply counted_ext; [exact C2|]. intros j. cbn beta. rewrite users_set. unfold holds. rewrite Ei.
    destruct (decide (i = j)) as [<-|Hj].
    + by rewrite fn_lookup_insert, bool_decide_eq_true_2.
    + by rewrite fn_lookup_insert_ne, bool_decide_eq_false_2 by congruence.
  - apply map_Forall_insert_2; [by eapply (inv_fonts _ _ I)|apply (inv_fonts _ _ I)].
  - by rewrite map_size_insert_Some by eauto.
Qed.

Lemma wp_udiv a b (Q : Z -> st -> Prop) R s : 0 < b -> Q (a / b) s -> wp (udiv a b) Q R s.
Proof. intros Hb HQ. unfold udiv. destruct (Z.eqb_spec b 0); [lia|]. by apply ewp_ret. Qed.
(** A size is found, and costs nothing. *)
Lemma wp_fit im w h fw fh (Q : Z * Z -> st -> Prop) R s :
  sound im -> 0 < fw -> 0 < fh -> (forall wh, Q wh s) -> wp (fit im w h fw fh) Q R s.
Proof.
  intros (Hw & Hh & _) Hf Hf' HQ. unfold fit.
  repeat case_match; try by apply ewp_ret.
  all: by apply ewp_bind, wp_udiv, ewp_bind, wp_udiv, ewp_ret.
Qed.
(** [o] holds the image of [c]. *)
Definition holding (k o : nat) (c : caca) (s : st) : Prop :=
  inv k s /\ exists c', objs s !! o = Some c' /\ c_img c' = c_img c.
Lemma holding_emit k o c e s : holding k o c s -> holding k o c (emit_ev e s).
Proof. intros [I H]. split; [by eapply inv_same|done]. Qed.
Lemma holding_image k o c s i : holding k o c s -> c_img c = Some i -> exists im, images s !! i = Some im /\ sound im.
Proof.
  intros [I (c' & Hc & E)] Hi. rewrite Hi in E. pose proof (inv_counted _ _ I) as C.
  destruct (images s !! i) as [im|] eqn:Ei; [exists im; split; [done|by eapply ct_some]|].
  pose proof (ct_none _ _ C _ Ei). pose proof (inv_held _ _ _ _ _ I Hc E). lia.
Qed.
Lemma render_inv k o w h t fw fh s : inv k s -> is_Some (objs s !! o) -> 0 < fw -> 0 < fh ->
  wp (getIRCBuffer_size o w h t fw fh) (fun _ => inv k) (fun _ => inv k) s.
Proof.
  intros I Ho Hw Hh. unfold getIRCBuffer_size. rewrite caca_there. cbn [negb]. apply ewp_bind, wp_obj; [done|].
  intros c Hc. destruct (c_img c) as [i|] eqn:Ei; [|by apply ewp_throw].
  destruct (cached _ _ _ _ _); [by apply ewp_ret|].
  assert (Hset : forall c' s' (Q : unit -> st -> Prop) R, c_img c' = c_img c -> fonts c' -> holding k o c s' ->
    (forall s2, holding k o c s2 -> Q tt s2) -> wp (put_obj o c') Q R s').
  { intros c' s' Q R E F [I' (c1 & Hc1 & E1)] HQ. apply ewp_put, HQ. split;
      [apply (inv_set k s' s' o c1); [done|done|congruence|done..]|].
    exists c'. split; [apply lookup_insert_eq|done]. }
  apply ewp_bind, Hset; [done|done|by split; [|exists c]|]. intros s1 H1.
  apply ewp_bind, ewp_put, ewp_bind, ewp_get. destruct (create_canvas _); cbn [negb].
  2: { apply ewp_throw. eapply inv_same; [apply H1|done..]. }
  apply ewp_bind. unfold get_image. apply ewp_bind, ewp_get. cbn [images emit_ev].
  destruct (holding_image _ _ _ _ _ H1 Ei) as (im & Him & Hs). rewrite Him. apply ewp_ret, ewp_bind, wp_fit; [done..|].
  intros wh. apply ewp_bind, Hset; [done|done|by apply holding_emit|]. intros s2 H2.
  destruct Hs as (_ & _ & ->). cbn [negb]. apply ewp_bind, ewp_get.
  destruct (negb _); [apply ewp_bind, ewp_put, ewp_throw; exact (proj1 (holding_emit _ _ _ _ _ H2))|].
  apply ewp_bind, ewp_get. destruct (export _ _ _ _ _); [|by apply ewp_throw, H2].
  apply ewp_bind, Hset; [done|done|done|]. intros s3 H3. apply ewp_bind, ewp_put, ewp_ret. exact (proj1 (holding_emit _ _ _ _ _ H3)).
Qed.
Lemma step_inv k a s : inv k s -> Z.of_nat k + 1 < 2 ^ 32 -> legal a s ->
  wp (step a) (fun _ => inv (S k)) (fun _ => inv (S k)) s.
Proof.
  intros I Hk L. destruct a; cbn [step legal] in *.
  - apply ewp_put. by eapply inv_no_image.
  - by apply new_file_inv.
  - by apply new_buf_inv.
  - by apply copy_inv.
  - eapply ewp_mono; [by apply (assign_inv k)|..]; intros; (apply (inv_mono k); [assumption|lia]).
  - eapply ewp_mono; [apply (destroy_inv k); [done|lia|done]|..]; intros; (apply (inv_mono k); [assumption|lia]).
  - destruct L as (Ho & Hw & Hh). apply ewp_bind. eapply ewp_mono; [by apply (render_inv k)|..]; intros;
      [apply ewp_ret|]; (apply (inv_mono k); [assumption|lia]).
  - apply ewp_bind. unfold getIRCBuffer. apply ewp_bind, wp_obj; [done|]. intros c Hc.
    destruct (sempty _); [|by apply ewp_ret, ewp_ret; apply (inv_mono k); [assumption|lia]].
    destruct (inv_fonts _ _ I _ _ Hc) as [Hw Hh].
    eapply ewp_mono; [by apply (render_inv k)|..]; intros; [apply ewp_ret|]; (apply (inv_mono k); [assumption|lia]).
Qed.
Lemma run_inv l k s : inv k s -> Z.of_nat (k + length l) < 2 ^ 32 -> legal_run l s ->
  wp (run l) (fun _ => inv (k + length l)) (fun _ _ => False) s.
Proof.
  revert k s. induction l as [|a l IH]; intros k s I Hk L; cbn [run length] in *; [by rewrite Nat.add_0_r; apply ewp_ret|].
  destruct L as [La L]. rewrite Nat.add_succ_r in *. pose proof (step_inv k a s I ltac:(lia) La) as Hs.
  assert (Hc : wp (catch (step a) (fun _ => Some (ret tt))) (fun _ => inv (S k)) (fun _ _ => False) s)
    by (by apply ewp_catch; eapply ewp_mono; [exact Hs|..]).
  unfold wp, bind in *. destruct (catch _ _ s) as [s1 [[]|e|w]]; [|done..].
  by apply (IH (S k)); [|lia|].
Qed.

(** Before the first object. *)
Definition blank (t : list ev) : st := St ∅ 0 ∅ t.

(** C29: through any life of CacaImage objects, made, copied, assigned, drawn and
    destroyed while they live, none of the images of which is NULL when it is copied,
    no image is used after it was freed and nothing is divided by zero; every image
    counts the objects that hold it, and is there as long as there is one: when the
    last object is gone no image is left. *)
Theorem images_counted l t :
  Z.of_nat (length l) < 2 ^ 32 -> legal_run l (blank t) ->
  wp (run l) (fun _ s' =>
    (forall i im, images s' !! i = Some im -> im_ref im = Z.of_nat (users i (objs s')) /\ 0 < im_ref im)
    /\ (forall o c i, objs s' !! o = Some c -> c_img c = Some i -> is_Some (images s' !! i))
    /\ (objs s' = ∅ -> images s' = ∅)) (fun _ _ => False) (blank t).
Proof.
  intros Hl L. eapply ewp_mono; [apply (run_inv l 0); [|done..]| |done].
  { split; [split|apply map_Forall_empty|done].
    - intros i im H. cbn [images blank] in H. by rewrite lookup_empty in H.
    - intros i _. apply users_empty.
    - intros i _. apply lookup_empty. }
  intros u s' I. pose proof (inv_counted _ _ I) as C. split_and!.
  - intros i im Hi. destruct (ct_some _ _ C _ _ Hi) as (_ & -> & Hu). split; [done|lia].
  - intros o c i Hc Hi. destruct (images s' !! i) eqn:E; [by eexists|].
    pose proof (ct_none _ _ C _ E). pose proof (inv_held _ _ _ _ _ I Hc Hi). lia.
  - intros E. apply map_eq. intros i. rewrite lookup_empty. destruct (images s' !! i) as [im|] eqn:Ei; [|done].
    destruct (ct_some _ _ C _ _ Ei) as (_ & _ & Hu). rewrite E, users_empty in Hu. lia.
Qed.

(** ** The drawing *)

(** The object keeps the text it returned, with its size. *)
Lemma drawn o w h t fw fh s : w <> 0 -> h <> 0 ->
  wpc (fun _ => True) (getIRCBuffer_size o w h t fw fh)
    (fun text s' => exists c, objs s' !! o = Some c /\ c_img c <> None /\ c_buf c = text
       /\ c_width c = w /\ c_height c = h /\ c_font_width c = fw /\ c_font_height c = fh) (fun _ _ => True) s.
Proof.
  intros Hw Hh. unfold getIRCBuffer_size. rewrite caca_there. cbn [negb].
  apply wpc_bind. unfold get_obj. apply wpc_bind, wpc_get. destruct (objs s !! o) as [c|] eqn:Hc; [|by apply wpc_crash].
  apply wpc_ret. destruct (c_img c) as [i|] eqn:Ei; [|by apply wpc_throw].
  destruct (cached c w h fw fh) eqn:E.
  { apply wpc_ret. exists c. unfold cached in E. rewrite !andb_true_iff, !Z.eqb_eq in E.
    rewrite Ei. destruct E as ((((_ & ?) & ?) & ?) & ?). by split_and!. }
  apply wpc_bind, wpc_put, wpc_bind, wpc_put, wpc_bind, wpc_get. destruct (negb _); [by apply wpc_throw|].
  apply wpc_bind. unfold get_image. apply wpc_bind, wpc_get. destruct (images _ !! i) as [im|]; [|by apply wpc_crash].
  apply wpc_ret, wpc_bind. unfold fit. apply Z.eqb_neq in Hw as Hw', Hh as Hh'. rewrite Hw', Hh'. cbn [andb negb].
  apply wpc_ret, wpc_bind, wpc_put. destruct (negb _); [by apply wpc_crash|]. apply wpc_bind, wpc_get.
  destruct (negb _); [by apply wpc_bind, wpc_put, wpc_throw|]. apply wpc_bind, wpc_get.
  destruct (export _ _ _ _ _) as [text|]; [|by apply wpc_throw]. apply wpc_bind, wpc_put, wpc_bind, wpc_put, wpc_ret.
  eexists. split; [apply lookup_insert_eq|]. cbn. by rewrite Ei.
Qed.
(** A picture that was drawn at a size is not drawn again at that size: no library is called. *)
Lemma drawn_once o w h t fw fh s s1 text :
  getIRCBuffer_size o w h t fw fh s = (s1, Done text) -> w <> 0 -> h <> 0 -> text <> "" ->
  forall t', getIRCBuffer_size o w h t' fw fh s1 = (s1, Done text).
Proof.
  intros H Hw Hh Ht t'. pose proof (drawn o w h t fw fh s Hw Hh) as D. unfold wpc in D. rewrite H in D.
  destruct D as (c & Hc & Hi & E1 & E2 & E3 & E4 & E5). unfold getIRCBuffer_size. rewrite caca_there. cbn [negb].
  unfold get_obj, bind, get, deref. rewrite Hc. cbn. destruct (c_img c); [|done].
  unfold cached. rewrite E1, E2, E3, E4, E5, !Z.eqb_refl. destruct (sempty text) eqn:E; [|done].
  by apply sempty_spec in E.
Qed.
(** With one size given, the other keeps the proportions of the image in cells of the font. *)
Lemma fit_width im w fw fh s : sound im -> 0 < w -> 0 < fw -> 0 < fh ->
  w * im_h im * fw < 2 ^ 32 ->
  fit im w 0 fw fh s = (s, Done (w, w * im_h im * fw / (im_w im * fh))).
Proof.
  intros (Hw & Hh & _) H0 H1 H2 Hb. unfold fit, udiv. rewrite (proj2 (Z.eqb_neq w 0)) by lia.
  cbn [andb negb Z.eqb]. rewrite (proj2 (Z.eqb_neq (im_w im) 0)), (proj2 (Z.eqb_neq fh 0)) by lia.
  unfold bind, ret. rewrite (u32_small (w * im_h im)) by nia. rewrite u32_small by nia. by rewrite Z.div_div by lia.
Qed.
End CacaP.

(** ** On concrete objects *)

Definition page (w h : Z) : string := t2s w +:+ "x" +:+ t2s h.
#[export] Instance demo_caca : CacaEnv := {|
  have_caca := true;
  load_image := fun _ p => if String.eqb p "ann.png" then Some (100, 50, "pixels") else None;
  create_dither_ok := fun _ bpp _ _ => (0 <? bpp) && (bpp <=? 32);
  create_canvas := fun _ => true; set_algorithm := fun _ => 0;
  export := fun _ _ w h _ => Some (page w h) |}.
Definition demo_ops : list op :=
  [NewFile 0 "ann.png"; NewBuf 1 "frame" 4 2 8; Copy 2 0; Render 2 0 20 "ansi" 6 10; Assign 1 2; Destroy 0; Show 1;
   NewFile 3 "absent.png"; Render 3 10 10 "irc" 6 10; Destroy 2; Destroy 3; NewDefault 0; Destroy 1; Destroy 0].
Lemma images_counted_witness :
  wp (run demo_ops) (fun _ s' =>
    (forall i im, images s' !! i = Some im -> im_ref im = Z.of_nat (users i (objs s')) /\ 0 < im_ref im)
    /\ (forall o c i, objs s' !! o = Some c -> c_img c = Some i -> is_Some (images s' !! i))
    /\ (objs s' = ∅ -> images s' = ∅)) (fun _ _ => False) (blank []).
Proof.
  apply images_counted; [reflexivity|..|reflexivity|].
  - intros t p w h px H. cbn in H. destruct (String.eqb p "ann.png"); [|discriminate]. injection H as <- <- _. lia.
  - repeat split; try discriminate; try reflexivity; try (eexists; split; [reflexivity|discriminate]); by eexists.
Defined.

(** A copy of an object without an image uses a pointer that is NULL. *)
Example copy_of_nothing :
  (run [NewDefault 0; Copy 1 0] (blank [])).2 = Crash "img is NULL".
Proof. reflexivity. Qed.
(** The bytes of a frame after the first zero byte are lost. *)
Example dark_frame : strndup (String "a" (String "000" "bc")) = String "a" (String "000" (String "000" (String "000" ""))).
Proof. reflexivity. Qed.
(** The type is not compared: what was drawn for IRC is given for a terminal. *)
Example other_type :
  let env := {| have_caca := true; load_image := load_image; create_dither_ok := create_dither_ok;
    create_canvas := fun _ => true; set_algorithm := fun _ => 0; export := fun _ _ _ _ t => Some t |} in
  (bind (@new_file env 0 "ann.png") (fun _ => bind (@getIRCBuffer_size env 0 40 20 "irc" 6 10) (fun _ =>
     @getIRCBuffer_size env 0 40 20 "ansi" 6 10)) (blank [])).2 = Done "irc".
Proof. reflexivity. Qed.
(** A drawing that fails leaves the old text under the new size. *)
Example stale_text :
  let env := {| have_caca := true; load_image := load_image; create_dither_ok := create_dither_ok;
    create_canvas := fun _ => true; set_algorithm := fun _ => 0;
    export := fun _ _ w h _ => if w =? 99 then None else Some (page w h) |} in
  (run (env := env) [NewFile 0 "ann.png"; Render 0 40 20 "irc" 6 10; Render 0 99 20 "irc" 6 10] (blank [])).2 = Done tt
  /\ (bind (run (env := env) [NewFile 0 "ann.png"; Render 0 40 20 "irc" 6 10; Render 0 99 20 "irc" 6 10])
        (fun _ => @getIRCBuffer_size env 0 99 20 "irc" 6 10) (blank [])).2 = Done "40x20".
Proof. split; reflexivity. Qed.
End CacaP.
