(* ===== verification/Media.v ===== *)
(** im/media.{h,cpp}: the video calls.  A list of calls, each with the pictures that
    wait and the DCC chat they are shown in, a timer that shows them, a thread of
    GStreamer that brings them, libpurple's callbacks.  The vector of calls copies
    its elements as [Media]'s copy constructor and assignment say. *)

From S2P Require Import Prelude Util Log Effects.
Local Open Scope eff_scope.

Module Media.
Import Eff.

Section Media.
(** The pictures, CacaImage objects (Caca.v). *)
Context {img : Type}.

(** [Media]: the call of libpurple (0 for NULL), the buddy when it is valid, the
    pictures, the chat. *)
Record media := Mk { m_media : Z; m_buddy : option nat; m_queue : list img; m_dcc : option nat }.
Inductive ev :=
| TimeoutAdd (id : Z) | SourceRemove (id : Z)
| NewChat (d : nat) (sender : option nat)    (* new DCCChat(sender, irc->getUser()) *)
| ChatSend (d : nat) (text : string)         (* DCCChat::dcc_send *)
| DeleteChat (d : nat)
| StreamInfo (m : Z) (accept : bool)         (* purple_media_stream_info *)
| OutputWindow (m : Z)                       (* purple_media_set_output_window *)
| ReadyTimer (m : Z)                         (* minbif_media_ready_cb in 500 ms *)
| AcceptCancel (m : Z) (text who : string)   (* purple_request_accept_cancel *)
| Logged (flags : Z) (text : string).
Inductive exn := DCCListenError.

(** [MediaList], and the chats that are alive. *)
Record st := St {
  medias : list media; capacity : nat; check_id : Z; alive : list nat; next : nat; trace : list ev }.
Definition up_medias (f : list media -> list media) (s : st) : st :=
  St (f (medias s)) (capacity s) (check_id s) (alive s) (next s) (trace s).
Definition emit_ev (e : ev) (s : st) : st :=
  St (medias s) (capacity s) (check_id s) (alive s) (next s) (trace s ++ [e]).
Definition M (A : Type) : Type := Eff.M st exn A.
Definition emit (e : ev) : M unit := put (emit_ev e).

(** The answers of GLib, libpurple, libcaca and of the session; [grow] is how much
    [std::vector] takes when it is full. *)
Class MediaEnv := {
  grow : nat -> nat;
  timer_id : list ev -> Z;
  getNick : list ev -> option nat -> option nat;  (* irc->getNick(buddy) *)
  listens : list ev -> bool;                      (* else DCCListenError *)
  getIRCBuffer : img -> option string;            (* (0, 20, "ansi"); else CacaError *)
  buddy_alias : nat -> string;
  find_buddy : string -> option nat;
  contact_alias : nat -> string;
  is_initiator : Z -> string -> bool }.
Context {env : MediaEnv}.

Definition delete_chat (d : option nat) : M unit :=
  match d with
  | None => ret tt
  | Some d =>
    eff! l := get alive;
    if bool_decide (d ∈ l) then
      emit (DeleteChat d);;
      put (fun s => St (medias s) (capacity s) (check_id s) (List.filter (fun x => negb (x =? d)%nat) (alive s)) (next s) (trace s))
    else crash "a chat deleted twice"
  end.
(** [Media::Media(const Media&)]. *)
Definition copy_media (m : media) : media := Mk (m_media m) (m_buddy m) [] None.
Definition eqb_media (a b : media) : bool := negb (m_media a =? 0) && (m_media a =? m_media b).
Definition neqb_media (a b : media) : bool := (m_media a =? 0) || negb (m_media a =? m_media b).

(** [vector::push_back]: a full vector copies its elements and destroys the old ones. *)
Definition push_back (m : media) : M unit :=
  eff! old := get medias;
  eff! c := get capacity;
  if (length old =? c)%nat then
    put (fun s => St (map copy_media old ++ [copy_media m]) (grow c) (check_id s) (alive s) (next s) (trace s));;
    mapM_ (fun x => delete_chat (m_dcc x)) old
  else put (up_medias (fun l => l ++ [copy_media m])).
(** [Media::operator=] on the element [i]. *)
Definition assign (i : nat) (m : media) : M unit :=
  eff! x := get (fun s => medias s !! i);
  match x with
  | None => crash "past the end"
  | Some x =>
    delete_chat (m_dcc x);;
    put (up_medias (fun l => <[i := Mk (m_media m) (m_buddy m) (m_queue x) None]> l))
  end.
(** [vector::erase]: the elements behind are assigned one place down, the last is destroyed. *)
Fixpoint shift_down (n i : nat) : M unit :=
  match n with
  | O => ret tt
  | S n =>
    eff! y := get (fun s => medias s !! S i);
    match y with
    | None => ret tt
    | Some y => assign i y;; shift_down n (S i)
    end
  end.
Definition erase (i : nat) : M unit :=
  eff! n := get (fun s => length (medias s));
  shift_down n i;;
  eff! x := get (fun s => last (medias s));
  put (up_medias (fun l => take (pred (length l)) l));;
  match x with None => ret tt | Some x => delete_chat (m_dcc x) end.

(** The operations of [MediaList], each under its mutex. *)
Definition addMedia (m : media) : M unit :=
  eff! c := get check_id;
  when (c <? 0)
    (eff! id := get (fun s => timer_id (trace s));
     emit (TimeoutAdd id);;
     put (fun s => St (medias s) (capacity s) id (alive s) (next s) (trace s)));;
  push_back m.
Definition getMedia (m : Z) : M media :=
  eff! l := get medias;
  ret (match List.find (fun x => m_media x =? m) l with
       | None => Mk 0 None [] None
       | Some x => copy_media x
       end).
Fixpoint remove_loop (fuel i : nat) (m : media) : M unit :=
  match fuel with
  | O => ret tt
  | S fuel =>
    eff! x := get (fun s => medias s !! i);
    match x with
    | None => ret tt
    | Some x => if eqb_media x m then erase i;; remove_loop fuel i m else remove_loop fuel (S i) m
    end
  end.
Definition removeMedia (m : media) : M unit :=
  eff! n := get (fun s => length (medias s)); remove_loop n 0 m.
Fixpoint enqueue_first (m : media) (buf : img) (l : list media) : option (list media) :=
  match l with
  | [] => None
  | x :: l =>
    if neqb_media x m then cons x <$> enqueue_first m buf l
    else Some (Mk (m_media x) (m_buddy x) (m_queue x ++ [buf]) (m_dcc x) :: l)
  end.
Definition enqueueBuffer (m : media) (buf : img) : M unit :=
  eff! l := get medias;
  match enqueue_first m buf l with
  | None => emit (Logged Log.W_WARNING "Trying to enqueue data to an unknown stream.")
  | Some l' => put (up_medias (fun _ => l'))
  end.

(** [Media::checkBuffer]: the chat is made for the first picture. *)
Definition the_chat (i : nat) : M nat :=
  eff! x := get (fun s => medias s !! i);
  match x with
  | None => crash "past the end"
  | Some x =>
    match m_dcc x with
    | Some d => ret d
    | None =>
      eff! sender := get (fun s => getNick (trace s) (m_buddy x));
      eff! ok := get (fun s => listens (trace s));
      if negb ok then throw DCCListenError
      else
        eff! d := get next;
        emit (NewChat d sender);;
        put (fun s => St (<[i := Mk (m_media x) (m_buddy x) (m_queue x) (Some d)]> (medias s))
                         (capacity s) (check_id s) (alive s ++ [d]) (S d) (trace s));;
        ret d
    end
  end.
Definition pop_queue (i : nat) : M unit :=
  put (up_medias (alter (fun x => Mk (m_media x) (m_buddy x) (tail (m_queue x)) (m_dcc x)) i)).
Fixpoint check_queue (i : nat) (q : list img) : M unit :=
  match q with
  | [] => ret tt
  | p :: q =>
    eff! d := the_chat i;
    match getIRCBuffer p with
    | None => emit (Logged Log.W_ERR "Caca error while sending to user")
    | Some buf => emit (ChatSend d buf)
    end;;
    pop_queue i;;
    check_queue i q
  end.
Definition checkBuffer (i : nat) : M unit :=
  eff! x := get (fun s => medias s !! i);
  match x with None => ret tt | Some x => check_queue i (m_queue x) end.
Definition check : M unit :=
  eff! n := get (fun s => length (medias s)); mapM_ checkBuffer (seq 0 n).
(** [MediaList::~MediaList]. *)
Definition destroy_list : M unit :=
  eff! c := get check_id;
  when (0 <=? c) (emit (SourceRemove c));;
  eff! l := get medias;
  put (up_medias (fun _ => []));;
  mapM_ (fun x => delete_chat (m_dcc x)) l.

(** The callbacks. *)
Inductive media_state := StateNew | StateConnected | StateEnd.
Definition minbif_media_accept_cb (m : Z) : M unit := emit (StreamInfo m true).
Definition minbif_media_reject_cb (m : Z) : M unit := emit (StreamInfo m false).
Definition minbif_media_ready_cb (m : Z) : M unit :=
  eff! x := getMedia m;
  match m_buddy x with
  | None => crash "assert(isValid())"
  | Some b =>
    emit (AcceptCancel m (buddy_alias b +:+ " wishes to start a video session with you.") (buddy_alias b))
  end.
Definition minbif_media_state_changed_cb (m : Z) (state : media_state) (sid name : option string) : M unit :=
  match sid, name with
  | None, None =>
    match state with
    | StateEnd => removeMedia (Mk m None [] None);; emit (Logged Log.W_INFO "The call has been terminated.")
    | _ => ret tt
    end
  | Some sid, Some name =>
    match state with
    | StateNew => when (negb (is_initiator m sid)) (emit (ReadyTimer m);; emit (OutputWindow m))
    | _ => ret tt
    end
  | _, _ => ret tt
  end.
Definition minbif_media_stream_info_cb (reject accept : bool) : M unit :=
  if reject then emit (Logged Log.W_INFO "You have rejected the call.")
  else when accept (emit (Logged Log.W_INFO "Call in progress")).
Definition media_new_cb (m : Z) (screenname : string) : M unit :=
  let buddy := find_buddy screenname in
  let alias := match buddy with Some b => contact_alias b | None => screenname end in
  emit (Logged Log.W_INFO ("Started video with " +:+ alias));;
  addMedia (Mk m buddy [] None).
(** [got_data], on the thread of GStreamer; [None] when the picture can not be made. *)
Definition got_data (m : Z) (frame : option img) : M unit :=
  match frame with None => ret tt | Some p => enqueueBuffer (Mk m None [] None) p end.
End Media.
Arguments st : clear implicits.
Arguments media : clear implicits.
Arguments MediaEnv : clear implicits.
Arguments M : clear implicits.
End Media.
