(* ===== verification/MediaProps.v ===== *)
(** The video calls of im/media.cpp: a chat belongs to one call and is deleted once; what
    the end of a call does to the calls behind it; what the timer shows. *)

From S2P Require Import Prelude Util Log Effects Media.
Import Eff Media.

Module MediaP.
Section MediaP.
Context {img : Type} {env : MediaEnv img}.
Implicit Types (s : st img) (x y m : media img) (l : list (media img)).

(** ** Who owns the chats *)

Definition opened (t : list ev) : list nat := omap (fun e => match e with NewChat d _ => Some d | _ => None end) t.
Definition closed (t : list ev) : list nat := omap (fun e => match e with DeleteChat d => Some d | _ => None end) t.
Definition chats (l : list (media img)) : list nat := omap m_dcc l.
(** The chats [L] are alive and nobody else's; every one that was made is alive or was
    deleted, once. *)
Record own (L : list nat) (s : st img) : Prop := {
  own_alive : L ≡ₚ alive s;
  own_opened : opened (trace s) = seq 0 (next s);
  own_once : closed (trace s) ++ alive s ≡ₚ seq 0 (next s) }.
Definition inv (s : st img) : Prop := own (chats (medias s)) s.
Definition only_ready (what : string) : Prop := what = "assert(isValid())".

Lemma opened_app t t' : opened (t ++ t') = opened t ++ opened t'.
Proof. apply omap_app. Qed.
Lemma closed_app t t' : closed (t ++ t') = closed t ++ closed t'.
Proof. apply omap_app. Qed.
Lemma chats_app l l' : chats (l ++ l') = chats l ++ chats l'.
Proof. apply omap_app. Qed.
Lemma own_perm L L' s : own L s -> L ≡ₚ L' -> own L' s.
Proof. intros [H1 H2 H3] E. split; [by rewrite <- E|done..]. Qed.
Lemma own_same L s s' : own L s -> alive s' = alive s -> next s' = next s ->
  opened (trace s') = opened (trace s) -> closed (trace s') = closed (trace s) -> own L s'.
Proof. intros [H1 H2 H3] E1 E2 E3 E4. split; by rewrite ?E1, ?E2, ?E3, ?E4. Qed.
Lemma own_nodup L s : own L s -> NoDup L /\ forall d, d ∈ closed (trace s) -> d ∉ L.
Proof.
  intros [H1 _ H3]. assert (N : NoDup (closed (trace s) ++ alive s)) by (rewrite H3; apply NoDup_seq).
  apply NoDup_app in N as (_ & Hd & Hn). split; [by rewrite H1|]. intros d. rewrite H1. apply Hd.
Qed.
Lemma own_next L s d : own L s -> d ∈ L -> (d < next s)%nat.
Proof.
  intros [H1 _ H3] Hd. rewrite H1 in Hd. assert (H : d ∈ seq 0 (next s)) by (rewrite <- H3; set_solver).
  apply elem_of_seq in H. lia.
Qed.

Context (C : string -> Prop).
Lemma wp_say e (Q : unit -> st img -> Prop) R s : Q tt (emit_ev e s) -> wpc C (emit e) Q R s.
Proof. intros HQ. by apply wpc_put. Qed.

Lemma wp_delete_chat L d (Q : unit -> st img -> Prop) R s :
  own (option_list d ++ L) s ->
  (forall s', own L s' -> medias s' = medias s -> Q tt s') -> wpc C (delete_chat d) Q R s.
Proof.
  intros O HQ. destruct d as [d|]; [|by apply HQ]. cbn [delete_chat]. change (option_list (Some d) ++ L) with (d :: L) in O.
  apply wpc_bind, wpc_get. destruct (own_nodup _ _ O) as [N _]. destruct O as [H1 H2 H3].
  assert (Hd : d ∈ alive s) by (rewrite <- H1; left). rewrite bool_decide_eq_true_2 by done.
  apply wpc_bind, wp_say, wpc_put, HQ; [|done].
  assert (E : L ≡ₚ List.filter (fun x : nat => negb (Nat.eqb x d)) (alive s)).
  { rewrite H1 in N. assert (N' := N). rewrite <- H1 in N'. apply NoDup_cons in N' as [Hn NL].
    apply NoDup_Permutation; [done|by apply NoDup_ListNoDup, List.NoDup_filter, NoDup_ListNoDup|].
    intros x. rewrite !list_elem_of_In, filter_In, <- !list_elem_of_In, <- H1, negb_true_iff, Nat.eqb_neq, elem_of_cons.
    split; [intros Hx; split; [by right|by intros ->]|tauto]. }
  split; cbn [alive trace next emit_ev].
  - done.
  - rewrite opened_app. cbn. by rewrite app_nil_r.
  - rewrite closed_app. cbn. rewrite <- E, <- app_assoc. cbn. by rewrite H1.
Qed.
Lemma wp_delete_all ds L (Q : unit -> st img -> Prop) R s :
  own (chats ds ++ L) s ->
  (forall s', own L s' -> medias s' = medias s -> Q tt s') ->
  wpc C (mapM_ (fun x => delete_chat (m_dcc x)) ds) Q R s.
Proof.
  revert s. induction ds as [|x ds IH]; intros s O HQ; cbn [mapM_]; [by apply HQ|].
  apply wpc_bind. eapply (wp_delete_chat (chats ds ++ L)).
  { unfold chats in O. cbn in O. by destruct (m_dcc x). }
  intros s1 O1 E1. apply IH; [done|]. intros s2 O2 E2. apply HQ; [done|congruence].
Qed.

(** ** The vector *)

(** An element is taken for the call behind it and keeps its own pictures. *)
Definition as_next x y : media img := Mk (m_media y) (m_buddy y) (m_queue x) None.
Fixpoint erased l : list (media img) :=
  match l with x :: (y :: _) as l' => as_next x y :: erased l' | _ => [] end.
Definition calls l : list (Z * option nat) := map (fun x => (m_media x, m_buddy x)) l.

Lemma erased_calls x l : calls (erased (x :: l)) = calls l.
Proof. revert x. induction l as [|y l IH]; intros x; [done|]. cbn [erased]. cbn [calls map]. f_equal. apply (IH y). Qed.
Lemma erased_queues l : map m_queue (erased l) = take (pred (length l)) (map m_queue l).
Proof.
  induction l as [|x l IH]; [done|]. destruct l as [|y l]; [done|]. cbn [erased map]. cbn [length pred take].
  f_equal. exact IH.
Qed.
Lemma erased_chats l : chats (erased l) = [].
Proof. induction l as [|x l IH]; [done|]. by destruct l. Qed.
Lemma chats_fresh l : chats (map copy_media l) = [].
Proof. by induction l. Qed.

Lemma wp_push_back m (Q : unit -> st img -> Prop) R s : inv s ->
  (forall s', inv s' -> calls (medias s') = calls (medias s) ++ [(m_media m, m_buddy m)] -> Q tt s') ->
  wpc C (push_back m) Q R s.
Proof.
  intros I HQ. unfold push_back. apply wpc_bind, wpc_get, wpc_bind, wpc_get.
  assert (Ec : calls (map copy_media (medias s) ++ [copy_media m]) = calls (medias s) ++ [(m_media m, m_buddy m)])
    by (unfold calls; by rewrite map_app, map_map).
  destruct (_ =? _)%nat.
  - apply wpc_bind, wpc_put. apply (wp_delete_all _ []).
    { rewrite app_nil_r. by eapply own_same. }
    intros s' O E. apply HQ; [|by rewrite E]. unfold inv. rewrite E. cbn [medias].
    by rewrite chats_app, chats_fresh.
  - apply wpc_put, HQ; cbn [medias up_medias].
    + unfold inv. cbn [medias up_medias]. rewrite chats_app. cbn. rewrite app_nil_r. by eapply own_same.
    + unfold calls. by rewrite map_app.
Qed.

(** Assigning the elements one place down, from a known one on. *)
Fixpoint shifted x l : list (media img) :=
  match l with [] => [x] | y :: l' => as_next x y :: shifted y l' end.
Lemma shifted_erased x l : exists z, shifted x l = erased (x :: l) ++ [z].
Proof.
  revert x. induction l as [|y l IH]; intros x; [by exists x|]. destruct (IH y) as [z Hz]. exists z.
  cbn [shifted]. by rewrite Hz.
Qed.

Lemma wp_shift n pre x l (Q : unit -> st img -> Prop) R s :
  inv s -> medias s = pre ++ x :: l -> (length l <= n)%nat ->
  (forall s', inv s' -> medias s' = pre ++ shifted x l -> Q tt s') -> wpc C (shift_down n (length pre)) Q R s.
Proof.
  revert pre x l s. induction n as [|n IH]; intros pre x l s I E Hn HQ; cbn [shift_down].
  { destruct l; [|cbn in Hn; lia]. by apply HQ. }
  apply wpc_bind, wpc_get. rewrite E, lookup_app_r by lia. replace (S (length pre) - length pre)%nat with 1%nat by lia.
  destruct l as [|y l]; cbn [lookup list_lookup]; [by apply wpc_ret, HQ|].
  apply wpc_bind. unfold assign. apply wpc_bind, wpc_get. rewrite E, list_lookup_middle by done.
  apply wpc_bind. eapply (wp_delete_chat (chats pre ++ chats (y :: l))).
  { unfold inv in I. rewrite E, chats_app in I. eapply own_perm; [exact I|]. unfold chats. cbn.
    destruct (m_dcc x); cbn; [by rewrite Permutation_middle|done]. }
  intros s1 O1 E1. apply wpc_put. fold (as_next x y).
  assert (E2 : <[length pre := as_next x y]> (medias s1) = (pre ++ [as_next x y]) ++ y :: l).
  { rewrite E1, E, insert_app_r_alt, Nat.sub_diag by done. cbn. by rewrite <- app_assoc. }
  replace (S (length pre)) with (length (pre ++ [as_next x y])) by (rewrite length_app; cbn; lia).
  apply (IH _ y l); cbn [medias up_medias].
  - unfold inv. cbn [medias up_medias]. rewrite E2, !chats_app. cbn. rewrite app_nil_r. by eapply own_same.
  - exact E2.
  - cbn in Hn. lia.
  - intros s2 I2 E3. apply HQ; [done|]. by rewrite E3, <- app_assoc.
Qed.
Lemma wp_erase pre x l (Q : unit -> st img -> Prop) R s :
  inv s -> medias s = pre ++ x :: l ->
  (forall s', inv s' -> medias s' = pre ++ erased (x :: l) -> Q tt s') -> wpc C (erase (length pre)) Q R s.
Proof.
  intros I E HQ. unfold erase. apply wpc_bind, wpc_get, wpc_bind. eapply wp_shift; [done..| |].
  { rewrite E, length_app. cbn. lia. }
  intros s1 I1 E1. destruct (shifted_erased x l) as [z Hz]. rewrite Hz in E1.
  apply wpc_bind, wpc_get, wpc_bind, wpc_put. rewrite E1, app_assoc, last_snoc.
  assert (E2 : take (pred (length (medias s1))) (medias s1) = pre ++ erased (x :: l)).
  { rewrite E1, app_assoc, length_app. cbn. rewrite Nat.add_1_r. cbn [pred]. by rewrite take_app_length. }
  apply (wp_delete_chat (chats (pre ++ erased (x :: l)))).
  - unfold inv in I1. rewrite E1, app_assoc, chats_app in I1. eapply own_perm.
    + by eapply own_same.
    + rewrite (Permutation_app_comm (chats _)). unfold chats. cbn. by destruct (m_dcc z).
  - intros s2 O2 E3. cbn [medias up_medias] in E3. rewrite E2 in E3. apply HQ; [|done]. unfold inv. by rewrite E3.
Qed.

(** ** The end of a call *)

Definition other (m : Z) (c : Z * option nat) : bool := negb (fst c =? m).
(** The calls that stay are the others; the pictures that stay are those of the first
    places of the vector. *)
Definition removed (m : Z) l l' : Prop :=
  calls l' = List.filter (other m) (calls l) /\ map m_queue l' = take (length l') (map m_queue l).

Lemma removed_step (pre : list (media img)) x l (m : Z) : m_media x = m ->
  calls (pre ++ erased (x :: l)) = calls pre ++ calls l
  /\ map m_queue (pre ++ erased (x :: l)) = take (length pre + length l) (map m_queue (pre ++ x :: l)).
Proof.
  intros _. unfold calls. rewrite !map_app. split.
  - f_equal. apply (erased_calls x l).
  - rewrite erased_queues, take_app. rewrite length_map. f_equal; [by rewrite take_ge by (rewrite length_map; lia)|].
    f_equal. cbn. lia.
Qed.
Lemma wp_remove_loop n (pre : list (media img)) l (m : Z) b (Q : unit -> st img -> Prop) R s :
  m <> 0 -> inv s -> medias s = pre ++ l -> (length l <= n)%nat ->
  (forall s' l', inv s' -> medias s' = pre ++ l' -> calls l' = List.filter (other m) (calls l) ->
     map m_queue (pre ++ l') = take (length (pre ++ l')) (map m_queue (pre ++ l)) -> Q tt s') ->
  wpc C (remove_loop n (length pre) (Mk m b [] None)) Q R s.
Proof.
  intros Hm. revert pre l s. induction n as [|n IH]; intros pre l s I E Hn HQ; cbn [remove_loop].
  { destruct l; [|cbn in Hn; lia]. apply (HQ s []); [done..|]. by rewrite app_nil_r, firstn_all2 by (by rewrite length_map). }
  apply wpc_bind, wpc_get. rewrite E. destruct l as [|x l].
  { rewrite app_nil_r, lookup_ge_None_2 by lia. apply wpc_ret, (HQ s []); [done..|].
    by rewrite app_nil_r, firstn_all2 by (by rewrite length_map). }
  rewrite list_lookup_middle by done. unfold eqb_media. cbn [m_media].
  destruct (Z.eqb_spec (m_media x) m) as [Ex|Ex].
  - rewrite Ex. rewrite (proj2 (Z.eqb_neq m 0)) by done. cbn [negb andb]. apply wpc_bind. eapply wp_erase; [done..|].
    intros s1 I1 E1. destruct (removed_step pre x l m Ex) as [R1 R2].
    assert (Hl : length (erased (x :: l)) = length l).
    { pose proof (f_equal length (erased_calls x l)) as H. unfold calls in H. by rewrite !length_map in H. }
    eapply IH; [done|exact E1|rewrite Hl; cbn in Hn; lia|]. intros s2 l' I2 E2 C2 Q2. eapply HQ; [done|exact E2| |].
    + rewrite C2. rewrite (erased_calls x l). cbn [calls map]. unfold calls at 1. cbn [List.filter].
      unfold other at 2. cbn [fst]. rewrite Ex, Z.eqb_refl. done.
    + rewrite Q2, R2, take_take. f_equal. apply (f_equal length) in C2.
      rewrite Nat.min_l; [done|]. apply (f_equal length) in Q2.
      rewrite length_map, length_take, length_map, !length_app, Hl in Q2. rewrite length_app. lia.
  - rewrite andb_false_r. replace (S (length pre)) with (length (pre ++ [x])) by (rewrite length_app; cbn; lia).
    apply (IH (pre ++ [x]) l); [done|by rewrite E, <- app_assoc|cbn in Hn; lia|].
    intros s1 l' I1 E1 C1 Q1. rewrite <- !app_assoc in *. eapply (HQ s1 (x :: l')); [done|exact E1| |exact Q1].
    cbn [calls map]. cbn [List.filter]. unfold other at 1. cbn [fst]. rewrite (proj2 (Z.eqb_neq _ _)) by done.
    cbn [negb]. f_equal. exact C1.
Qed.
Lemma wp_removeMedia (m : Z) b (Q : unit -> st img -> Prop) R s : m <> 0 -> inv s ->
  (forall s', inv s' -> removed m (medias s) (medias s') -> Q tt s') ->
  wpc C (removeMedia (Mk m b [] None)) Q R s.
Proof.
  intros Hm I HQ. unfold removeMedia. apply wpc_bind, wpc_get.
  apply (wp_remove_loop _ [] (medias s)); [done..|]. intros s' l' I' E C1 Q1. apply HQ; [done|]. by rewrite E.
Qed.

(** ** The timer *)

Definition sends (d : nat) (t : list ev) : list string :=
  omap (fun e => match e with ChatSend d' b => if (d' =? d)%nat then Some b else None | _ => None end) t.
Lemma chat_sends_app d t t' : sends d (t ++ t') = sends d t ++ sends d t'.
Proof. apply omap_app. Qed.
(** What the pictures [q] of a call give in its chat. *)
Definition drawn (q : list img) : list string := omap getIRCBuffer q.
(** From [s] to [s'] the pictures of [x] went, in order, to its chat, made if there was
    none, and nothing to another; [x] became [x']. *)
Record shows (x x' : media img) (s s' : st img) : Prop := {
  sh_inv : inv s';
  sh_media : m_media x' = m_media x; sh_buddy : m_buddy x' = m_buddy x; sh_queue : m_queue x' = [];
  sh_next : (next s <= next s')%nat;
  sh_chat : m_dcc x' = m_dcc x \/ m_dcc x = None /\ m_dcc x' = Some (next s);
  sh_has : m_queue x <> [] -> m_dcc x' <> None;
  sh_sends d : sends d (trace s')
    = sends d (trace s) ++ (if bool_decide (m_dcc x' = Some d) then drawn (m_queue x) else []) }.

Lemma inv_queue s i x q :
  inv s -> medias s !! i = Some x -> inv (up_medias (insert i (Mk (m_media x) (m_buddy x) q (m_dcc x))) s).
Proof.
  intros I Hx. unfold inv in *. cbn [medias up_medias]. eapply own_perm; [by eapply own_same|].
  rewrite <- (list_insert_id _ _ _ Hx) at 1. pose proof (lookup_lt_Some _ _ _ Hx).
  rewrite !insert_take_drop, !chats_app by done. unfold chats. cbn. by destruct (m_dcc x).
Qed.
Lemma wp_picture i x d p q (Q : unit -> st img -> Prop) R s :
  inv s -> medias s !! i = Some x -> m_queue x = p :: q ->
  (forall s', inv s' -> medias s' = <[i := Mk (m_media x) (m_buddy x) q (m_dcc x)]> (medias s) -> next s' = next s ->
     (forall d', sends d' (trace s') = sends d' (trace s) ++ (if (d =? d')%nat then drawn [p] else [])) -> Q tt s') ->
  wpc C (bind (match getIRCBuffer p with
               | None => emit (Logged Log.W_ERR "Caca error while sending to user")
               | Some buf => emit (ChatSend d buf)
               end) (fun _ => pop_queue i)) Q R s.
Proof.
  intros I Hx Hq HQ. unfold drawn in HQ. cbn in HQ.
  assert (Ha : forall s1, medias s1 = medias s ->
    alter (fun x => Mk (m_media x) (m_buddy x) (tail (m_queue x)) (m_dcc x)) i (medias s1)
    = <[i := Mk (m_media x) (m_buddy x) q (m_dcc x)]> (medias s1)).
  { intros s1 E. apply list_eq. intros j. rewrite E. destruct (decide (i = j)) as [<-|Hj].
    - rewrite list_lookup_alter_eq, Hx, list_lookup_insert_eq by eauto using lookup_lt_Some. cbn. by rewrite Hq.
    - by rewrite list_lookup_alter_ne, list_lookup_insert_ne. }
  destruct (getIRCBuffer p) as [buf|]; apply wpc_bind, wp_say, wpc_put, HQ; cbn [medias up_medias next trace emit_ev];
    try (by rewrite Ha); try done.
  1,3: unfold inv; cbn [medias up_medias emit_ev]; rewrite (Ha s) by done;
    (eapply own_same; [exact (inv_queue s i x q I Hx)|..]); cbn [up_medias emit_ev alive next trace];
    rewrite ?opened_app, ?closed_app; cbn; by rewrite ?app_nil_r.
  - intros d'. rewrite chat_sends_app. cbn. by destruct (d =? d')%nat.
  - intros d'. rewrite chat_sends_app. cbn. by destruct (d =? d')%nat.
Qed.
Lemma wp_show q i x d (Q : unit -> st img -> Prop) R s :
  inv s -> medias s !! i = Some x -> m_dcc x = Some d -> m_queue x = q ->
  (forall s' x', shows x x' s s' -> medias s' = <[i := x']> (medias s) -> Q tt s') ->
  wpc C (check_queue i q) Q R s.
Proof.
  revert x s Q. induction q as [|p q IH]; intros x s Q I Hx Hd Hq HQ; cbn [check_queue].
  - apply wpc_ret, (HQ s x); [|by rewrite list_insert_id]. split; auto.
    intros d'. rewrite Hq. cbn. by destruct (bool_decide _); rewrite app_nil_r.
  - apply wpc_bind. unfold the_chat. apply wpc_bind, wpc_get. rewrite Hx, Hd. apply wpc_ret.
    match goal with |- wpc _ (bind ?a (fun _ => bind ?b (fun _ => ?c))) _ _ _ =>
      enough (H : wpc C (bind (bind a (fun _ => b)) (fun _ => c)) Q R s) end.
    { revert H. unfold wpc, bind. by destruct (match getIRCBuffer p with _ => _ end s) as [s1 []]. }
    apply wpc_bind. eapply wp_picture; [done..|]. intros s1 I1 E1 En S1.
    pose proof (lookup_lt_Some _ _ _ Hx) as Hl.
    apply (IH (Mk (m_media x) (m_buddy x) q (m_dcc x))); [done|by rewrite E1, list_lookup_insert_eq|done|done|].
    intros s2 x2 H E2. apply (HQ s2 x2); [|by rewrite E2, E1, list_insert_insert_eq].
    destruct H as [H1 H2 H3 H4 H5 H6 H7 H8]. cbn in *. split; [done|done|done|done|lia|..].
    + rewrite En in H6. by destruct H6 as [|[? _]]; [left|congruence].
    + intros _. destruct H6 as [->|[? _]]; congruence.
    + intros d'. rewrite H8, S1, <- app_assoc, Hq. f_equal. destruct H6 as [->|[? _]]; [|congruence]. rewrite Hd.
      destruct (Nat.eqb_spec d d') as [<-|Hne].
      * rewrite bool_decide_eq_true_2 by done. unfold drawn. cbn. by destruct (getIRCBuffer p).
      * by rewrite bool_decide_eq_false_2 by congruence.
Qed.
(** A call shows its pictures, or the chat can not be made and nothing changed. *)
Lemma wp_checkBuffer i x (Q : unit -> st img -> Prop) (R : exn -> st img -> Prop) s :
  inv s -> medias s !! i = Some x ->
  (forall s' x', shows x x' s s' -> medias s' = <[i := x']> (medias s) -> Q tt s') ->
  (listens (trace s) = false -> R DCCListenError s) ->
  wpc C (checkBuffer i) Q R s.
Proof.
  intros I Hx HQ HR. unfold checkBuffer. apply wpc_bind, wpc_get. rewrite Hx.
  destruct (m_dcc x) as [d|] eqn:Hd; [by eapply wp_show|].
  destruct (m_queue x) as [|p q] eqn:Hq; cbn [check_queue].
  { apply wpc_ret, (HQ s x); [|by rewrite list_insert_id]. split; auto.
    intros d'. rewrite Hq, Hd, bool_decide_eq_false_2, app_nil_r by done. done. }
  set (s1 := St (<[i := Mk (m_media x) (m_buddy x) (m_queue x) (Some (next s))]> (medias s))
                (capacity s) (check_id s) (alive s ++ [next s]) (S (next s)) (trace s ++ [NewChat (next s) (getNick (trace s) (m_buddy x))])).
  destruct (listens (trace s)) eqn:Hl.
  2: { apply wpc_bind. unfold the_chat. apply wpc_bind, wpc_get. rewrite Hx, Hd.
       apply wpc_bind, wpc_get, wpc_bind, wpc_get. rewrite Hl. by apply wpc_throw, HR. }
  assert (Hlt := lookup_lt_Some _ _ _ Hx).
  assert (Hx1 : medias s1 !! i = Some (Mk (m_media x) (m_buddy x) (m_queue x) (Some (next s)))) by (by apply list_lookup_insert_eq).
  assert (E : wpc C (check_queue i (p :: q)) Q R s1 -> wpc C (check_queue i (p :: q)) Q R s).
  { assert (T : the_chat i s = (s1, Done (next s))).
    { unfold the_chat, bind, get. rewrite Hx, Hd, Hl. reflexivity. }
    assert (T1 : the_chat i s1 = (s1, Done (next s))).
    { unfold the_chat, bind, get. by rewrite Hx1. }
    cbn [check_queue]. unfold wpc, bind. by rewrite T, T1. }
  apply E. eapply wp_show; [|exact Hx1|done|done|].
  - destruct I as [O1 O2 O3]. split; cbn [alive trace next medias s1].
    + rewrite <- O1, insert_take_drop by done. rewrite !chats_app. unfold chats. cbn.
      rewrite <- (take_drop_middle _ _ _ Hx) at 3. unfold chats. rewrite omap_app. cbn. rewrite Hd.
      rewrite <- app_assoc. apply Permutation_app_head. by rewrite <- Permutation_cons_append.
    + by rewrite opened_app, O2, seq_S.
    + rewrite closed_app, seq_S. change (closed [NewChat _ _]) with (@nil nat). by rewrite app_nil_r, app_assoc, O3.
  - intros s' x' [H1 H2 H3 H4 H5 H6 H7 H8] E'. cbn [m_media m_buddy m_queue m_dcc] in *.
    change (next s1) with (S (next s)) in *. apply (HQ s' x'); [|by rewrite E'; cbn; rewrite list_insert_insert_eq].
    split; [done|done|done|done|lia|..].
    + right. split; [done|]. by destruct H6 as [->|[? _]].
    + intros _. by destruct H6 as [->|[? _]].
    + intros d'. rewrite H8. subst s1. cbn [trace]. by rewrite chat_sends_app, app_nil_r.
Qed.

(** After the timer each call has an empty queue, and its chat got its pictures in order. *)
Definition shown x (s : st img) x' (s' : st img) : Prop :=
  m_queue x' = [] /\
  (m_queue x <> [] -> exists d, m_dcc x' = Some d
     /\ sends d (trace s') = sends d (trace s) ++ drawn (m_queue x)).
(** The first [k] calls of [s] were shown. *)
Record upto (k : nat) (s s' : st img) : Prop := {
  up_inv : inv s';
  up_length : length (medias s') = length (medias s);
  up_calls : calls (medias s') = calls (medias s);
  up_next : (next s <= next s')%nat;
  up_rest i : (k <= i)%nat -> medias s' !! i = medias s !! i;
  up_done i x : (i < k)%nat -> medias s !! i = Some x -> exists x', medias s' !! i = Some x' /\ shown x s x' s';
  up_quiet d : (forall i x, (i < k)%nat -> medias s' !! i = Some x -> m_dcc x <> Some d) -> sends d (trace s') = sends d (trace s) }.

Lemma chats_distinct L s i j x y d : own L s -> L = chats (medias s) ->
  medias s !! i = Some x -> medias s !! j = Some y -> m_dcc x = Some d -> m_dcc y = Some d -> i = j.
Proof.
  intros O -> Hx Hy Dx Dy. destruct (own_nodup _ _ O) as [N _]. revert N Hx Hy. clear O. generalize (medias s) as l. intros l.
  revert i j. induction l as [|z l IH]; intros i j N Hx Hy; [by rewrite lookup_nil in Hx|].
  assert (Hin : forall k w, l !! k = Some w -> m_dcc w = Some d -> d ∈ chats l).
  { intros k w Hw Hd. unfold chats. apply list_elem_of_omap. exists w. split; [by eapply list_elem_of_lookup_2|done]. }
  unfold chats in N. cbn in N. destruct i as [|i], j as [|j]; cbn in Hx, Hy; simplify_eq; [done|..].
  - rewrite Dx in N. apply NoDup_cons in N as [Hn _]. destruct Hn. by eapply Hin.
  - rewrite Dy in N. apply NoDup_cons in N as [Hn _]. destruct Hn. by eapply Hin.
  - f_equal. apply IH; [|done..]. destruct (m_dcc z); [by apply NoDup_cons in N as [_ ?]|done].
Qed.
Lemma upto_step k s s1 s2 x x' :
  upto k s s1 -> medias s1 !! k = Some x -> shows x x' s1 s2 -> medias s2 = <[k := x']> (medias s1) -> upto (S k) s s2.
Proof.
  intros [U1 U2 U3 U4 U5 U6 U7] Hx [H1 H2 H3 H4 H5 H6 H7 H8] E. pose proof (lookup_lt_Some _ _ _ Hx) as Hk.
  assert (Hat : medias s2 !! k = Some x') by (rewrite E; by apply list_lookup_insert_eq).
  assert (Helse : forall i, i <> k -> medias s2 !! i = medias s1 !! i) by (intros i Hi; rewrite E; by apply list_lookup_insert_ne).
  split; auto.
  - rewrite E. by rewrite length_insert.
  - rewrite <- U3, E. unfold calls. rewrite list_fmap_insert. apply list_insert_id. rewrite list_lookup_fmap, Hx. cbn. by rewrite H2, H3.
  - lia.
  - intros i Hi. rewrite Helse by lia. apply U5. lia.
  - intros i y Hi Hy. destruct (decide (i = k)) as [->|Hne].
    + rewrite <- (U5 k (le_n k)), Hx in Hy. injection Hy as <-. exists x'. split; [done|]. split; [done|].
      intros Hq. destruct (m_dcc x') as [d|] eqn:Hd; [|by destruct (H7 Hq)]. exists d. split; [done|].
      rewrite H8, bool_decide_eq_true_2 by done. f_equal. apply U7. intros i y Hi' Hy Hyd.
      assert (i = k); [|lia]. rewrite <- (Helse i) in Hy by lia. by eapply (chats_distinct _ s2).
    + destruct (U6 i y ltac:(lia) Hy) as (y' & Hy' & Sq & Sd). exists y'. split; [by rewrite Helse|]. split; [done|].
      intros Hq. destruct (Sd Hq) as (d & Hd & Hs). exists d. split; [done|]. rewrite H8, Hs.
      rewrite bool_decide_eq_false_2, app_nil_r; [done|]. intros Hx'. rewrite <- (Helse i Hne) in Hy'. apply Hne.
      by eapply (chats_distinct _ s2).
  - intros d Hd. rewrite H8. rewrite bool_decide_eq_false_2 by (eapply Hd; [|exact Hat]; lia). rewrite app_nil_r.
    apply U7. intros i y Hi Hy. apply (Hd i); [lia|]. rewrite Helse by lia. done.
Qed.
Lemma wp_check_from n k s0 (R : exn -> st img -> Prop) s :
  upto k s0 s -> (k + n = length (medias s0))%nat ->
  (forall s', inv s' -> calls (medias s') = calls (medias s0) -> listens (trace s') = false -> R DCCListenError s') ->
  wpc C (mapM_ checkBuffer (seq k n)) (fun _ s' => upto (k + n) s0 s') R s.
Proof.
  revert k s. induction n as [|n IH]; intros k s U Hn HR; cbn [seq mapM_]; [by rewrite Nat.add_0_r; apply wpc_ret|].
  apply wpc_bind. destruct (medias s !! k) as [x|] eqn:Hx.
  2: { apply lookup_ge_None in Hx. rewrite (up_length _ _ _ U) in Hx. lia. }
  eapply wp_checkBuffer; [by apply (up_inv _ _ _ U)|exact Hx| |].
  - intros s' x' Hs E. rewrite Nat.add_succ_r. apply (IH (S k)); [by eapply upto_step|lia|done].
  - intros Hl. apply HR; [apply (up_inv _ _ _ U)|apply (up_calls _ _ _ U)|done].
Qed.
Lemma upto_0 s : inv s -> upto 0 s s.
Proof. intros I. split; auto. intros i x Hi. lia. Qed.
Lemma wp_tick (R : exn -> st img -> Prop) s : inv s ->
  (forall s', inv s' -> calls (medias s') = calls (medias s) -> listens (trace s') = false -> R DCCListenError s') ->
  wpc C check (fun _ s' => upto (length (medias s)) s s') R s.
Proof. intros I HR. unfold check. apply wpc_bind, wpc_get. by apply (wp_check_from _ 0 s); [apply upto_0|..]. Qed.
End MediaP.

(** ** The life of the list *)
Section Life.
Context {img : Type} {env : MediaEnv img}.

Inductive op :=
| New (m : Z) (screenname : string) | State (m : Z) (state : media_state) (sid name : option string)
| Ready (m : Z) | Data (m : Z) (frame : option img) | Tick | StreamInfoCb (reject accept : bool)
| Accept (m : Z) | Reject (m : Z).
Definition step (o : op) : M img unit :=
  match o with
  | New m n => media_new_cb m n
  | State m state sid name => minbif_media_state_changed_cb m state sid name
  | Ready m => minbif_media_ready_cb m
  | Data m f => got_data m f
  | Tick => check
  | StreamInfoCb r a => minbif_media_stream_info_cb r a
  | Accept m => minbif_media_accept_cb m
  | Reject m => minbif_media_reject_cb m
  end.
Fixpoint run (l : list op) : M img unit :=
  match l with [] => ret tt | o :: l => bind (step o) (fun _ => run l) end.
Definition blank (t : list ev) : st img := St [] 0 (-1) [] 0 t.
(** The callbacks give a call, not NULL. *)
Definition given (o : op) : Prop := match o with State m _ _ _ => m <> 0 | _ => True end.

Lemma inv_logged e (s : st img) : inv s -> opened [e] = [] -> closed [e] = [] -> inv (emit_ev e s).
Proof.
  intros I E1 E2. eapply own_same; [exact I|done|done|..]; cbn [trace emit_ev];
    rewrite ?opened_app, ?closed_app, ?E1, ?E2; by rewrite app_nil_r.
Qed.
Ltac quiet := repeat first [apply wpc_bind | apply wpc_ret | apply wp_say]; repeat apply inv_logged; try done.

Lemma enqueue_chats m p (l l' : list (media img)) : enqueue_first m p l = Some l' -> chats l' = chats l.
Proof.
  revert l'. induction l as [|x l IH]; intros l'; cbn; [done|]. destruct (neqb_media x m).
  - destruct (enqueue_first m p l) as [l1|]; [|done]. intros [= <-]. unfold chats in *. cbn. by rewrite (IH l1).
  - intros [= <-]. done.
Qed.
Lemma media_step_inv o (s : st img) : inv s -> given o -> wpc only_ready (step o) (fun _ => inv) (fun _ => inv) s.
Proof.
  intros I G. destruct o as [m n|m st sid nm|m|m f| |r a|m|m]; cbn [step given] in *.
  - unfold media_new_cb. apply wpc_bind, wp_say. unfold addMedia. apply wpc_bind, wpc_get, wpc_bind, wpc_when; intros _.
    + apply wpc_bind, wpc_get, wpc_bind, wp_say, wpc_put. apply wp_push_back; [|done]. eapply own_same; [exact I|done|done|..];
        cbn [trace emit_ev]; rewrite ?opened_app, ?closed_app; cbn; by rewrite !app_nil_r.
    + apply wp_push_back; [by apply inv_logged|done].
  - unfold minbif_media_state_changed_cb. destruct sid, nm; try by apply wpc_ret.
    + destruct st; try by apply wpc_ret. apply wpc_when; intros _; [|done]. quiet.
    + destruct st; try by apply wpc_ret. apply wpc_bind, wp_removeMedia; [done..|]. intros s' I' _. quiet.
  - unfold minbif_media_ready_cb, getMedia. apply wpc_bind, wpc_bind, wpc_get, wpc_ret.
    destruct (m_buddy _); [quiet|by apply wpc_crash].
  - destruct f as [p|]; [|by apply wpc_ret]. cbn [got_data]. unfold enqueueBuffer. apply wpc_bind, wpc_get.
    destruct (enqueue_first _ p (medias s)) as [l'|] eqn:E; [|quiet]. apply wpc_put. unfold inv. cbn [medias up_medias].
    rewrite (enqueue_chats _ _ _ _ E). by eapply own_same.
  - eapply wpc_mono; [by apply (wp_tick _ (fun _ => inv))|intros ? s' U; apply (up_inv _ _ _ U)|done].
  - unfold minbif_media_stream_info_cb, when. destruct r; [|destruct a]; quiet.
  - unfold minbif_media_accept_cb. quiet.
  - unfold minbif_media_reject_cb. quiet.
Qed.
Lemma media_run_inv l (s : st img) : inv s -> Forall given l -> wpc only_ready (run l) (fun _ => inv) (fun _ => inv) s.
Proof.
  intros I G. revert s I. induction G as [|o l Go G IH]; intros s I; [done|]. cbn [run]. apply wpc_bind.
  eapply wpc_mono; [by apply media_step_inv|intros ? s' I'; by apply IH|done].
Qed.

(** C30: whatever calls begin and end, whatever pictures come between two turns of the
    timer and whatever the vector copies, every DCC chat that was made belongs to one
    call or was deleted, once; when the list goes every chat has been deleted, once. *)
Theorem chats_owned l t :
  opened t = [] -> closed t = [] -> Forall given l ->
  wpc only_ready (run l)
    (fun _ s => chats (medias s) ≡ₚ alive s /\ NoDup (closed (trace s) ++ alive s)
       /\ closed (trace s) ++ alive s ≡ₚ opened (trace s)
       /\ wpc only_ready destroy_list (fun _ s' => closed (trace s') ≡ₚ opened (trace s') /\ alive s' = [])
            (fun _ _ => False) s)
    (fun _ s => chats (medias s) ≡ₚ alive s) (blank t).
Proof.
  intros E1 E2 G. eapply wpc_mono; [apply media_run_inv; [|done]|intros u s I|intros e s I; apply (own_alive _ _ I)].
  { unfold inv. by split; cbn [alive next trace blank]; rewrite ?E1, ?E2. }
  destruct I as [I1 I2 I3]. split_and!; [done|by rewrite I3; apply NoDup_seq|by rewrite I2|].
  unfold destroy_list. apply wpc_bind, wpc_get, wpc_bind.
  assert (D : forall s1, medias s1 = medias s -> own (chats (medias s)) s1 ->
    wpc only_ready (bind (get medias) (fun l => bind (put (up_medias (fun _ => []))) (fun _ => mapM_ (fun x => delete_chat (m_dcc x)) l)))
     (fun _ s' => closed (trace s') ≡ₚ opened (trace s') /\ alive s' = []) (fun _ _ => False) s1).
  { intros s1 Em O. apply wpc_bind, wpc_get, wpc_bind, wpc_put. rewrite Em. apply (wp_delete_all _ _ []).
    { rewrite app_nil_r. by eapply own_same. }
    intros s2 [O1 O2 O3] _. apply Permutation_nil in O1. rewrite O1, app_nil_r in O3. by rewrite O2. }
  apply wpc_when; intros _; [apply wp_say|]; apply D; try done; by apply inv_logged.
Qed.

(** C31: at the end of a call the vector keeps the other calls, in their order, but a
    place of it keeps its pictures: the calls behind the one that ended get the pictures
    of the call before them, and those of the last are lost. *)
Theorem end_shifts_pictures l m t :
  opened t = [] -> closed t = [] -> Forall given l -> m <> 0 ->
  wpc only_ready (run l) (fun _ s =>
    wpc only_ready (run [State m StateEnd None None]) (fun _ s' =>
      calls (medias s') = List.filter (other m) (calls (medias s))
      /\ map m_queue (medias s') = take (length (medias s')) (map m_queue (medias s))) (fun _ _ => False) s)
    (fun _ _ => True) (blank t).
Proof.
  intros E1 E2 G Hm. eapply wpc_mono; [apply media_run_inv; [|done]|intros u s I|done].
  { unfold inv. by split; cbn [alive next trace blank]; rewrite ?E1, ?E2. }
  cbn [run step minbif_media_state_changed_cb]. apply wpc_bind, wpc_bind, wp_removeMedia; [done..|].
  intros s' I' R. by apply wp_say, wpc_ret.
Qed.
(** The timer: each call's pictures went to its chat in order, when the chats can be made. *)
Lemma tick_shows l t : (forall t, listens t = true) ->
  opened t = [] -> closed t = [] -> Forall given l ->
  wpc only_ready (run l) (fun _ s => wpc only_ready check (fun _ s' =>
    forall i x, medias s !! i = Some x -> exists x', medias s' !! i = Some x' /\ shown x s x' s') (fun _ _ => False) s)
    (fun _ _ => True) (blank t).
Proof.
  intros Hl E1 E2 G. eapply wpc_mono; [apply media_run_inv; [|done]|intros u s I|done].
  { unfold inv. by split; cbn [alive next trace blank]; rewrite ?E1, ?E2. }
  eapply wpc_mono; [apply (wp_tick _ (fun _ _ => False)); [done|]| |done].
  - intros s' _ _ H. by rewrite Hl in H.
  - intros u' s' U i x Hx. apply (up_done _ _ _ U); [by eapply lookup_lt_Some|done].
Qed.
End Life.

(** ** Concrete calls *)

#[export] Instance demo_media : MediaEnv string := {|
  grow := fun n => (S n)%nat; timer_id := fun _ => 7; getNick := fun _ b => b; listens := fun _ => true;
  getIRCBuffer := fun p => if String.eqb p "" then None else Some p;
  buddy_alias := fun _ => "ann"; find_buddy := fun n => if String.eqb n "ann" then Some 3%nat else if String.eqb n "bob" then Some 4%nat else None;
  contact_alias := fun _ => "ann"; is_initiator := fun _ _ => false |}.
Definition demo_calls : list (op (img := string)) :=
  [New 1 "ann"; New 2 "bob"; New 3 "cid"; State 1 StateNew (Some "s") (Some "n"); Ready 1; Data 1 (Some "a1"); Data 2 (Some "b1"); Tick;
   Data 1 (Some "a2"); Data 2 (Some ""); Data 2 (Some "b2"); Data 3 None].
Lemma chats_owned_witness :
  wpc only_ready (run demo_calls)
    (fun _ s => chats (medias s) ≡ₚ alive s /\ NoDup (closed (trace s) ++ alive s)
       /\ closed (trace s) ++ alive s ≡ₚ opened (trace s)
       /\ wpc only_ready destroy_list (fun _ s' => closed (trace s') ≡ₚ opened (trace s') /\ alive s' = [])
            (fun _ _ => False) s)
    (fun _ s => chats (medias s) ≡ₚ alive s) (blank []).
Proof. apply (chats_owned demo_calls []); [reflexivity|reflexivity|repeat constructor; discriminate]. Defined.
Lemma end_shifts_pictures_witness :
  wpc only_ready (run demo_calls) (fun _ s =>
    wpc only_ready (run [State 1 StateEnd None None]) (fun _ s' =>
      calls (medias s') = List.filter (other 1) (calls (medias s))
      /\ map m_queue (medias s') = take (length (medias s')) (map m_queue (medias s))) (fun _ _ => False) s)
    (fun _ _ => True) (blank []).
Proof. apply (end_shifts_pictures demo_calls 1 []); [reflexivity|reflexivity|repeat constructor; discriminate|discriminate]. Defined.

(** After the end of Ann's call Bob is shown in a new chat, with her picture, and the
    third call, of a stranger, is shown his. *)
Example bob_sees_ann :
  let s := (run (demo_calls ++ [State 1 StateEnd None None; Tick]) (blank [])).1 in
  List.filter (fun e => match e with NewChat _ _ | ChatSend _ _ | DeleteChat _ => true | _ => false end) (trace s)
  = [NewChat 0 (Some 3%nat); ChatSend 0 "a1"; NewChat 1 (Some 4%nat); ChatSend 1 "b1";
     DeleteChat 0; DeleteChat 1; NewChat 2 (Some 4%nat); ChatSend 2 "a2"; NewChat 3 None; ChatSend 3 "b2"].
Proof. vm_compute. reflexivity. Qed.

(** A call that ends before its question, and one with a stranger: the assertion fails. *)
Example ended_before_question :
  (run [New 1 "ann"; State 1 StateNew (Some "s") (Some "n"); State 1 StateEnd None None; Ready 1] (blank [])).2 = Crash "assert(isValid())".
Proof. reflexivity. Qed.
Example call_of_a_stranger :
  (run [New 1 "zoe"; State 1 StateNew (Some "s") (Some "n"); Ready 1] (blank [])).2 = Crash "assert(isValid())".
Proof. reflexivity. Qed.
End MediaP.
