(* ===== verification/Main.v ===== *)
(** core/minbif.cpp, core/sighandler.cpp, server_poll/poll.cpp and
    server_poll/inetd.cpp: the start of the process, its pid file, its signals and the
    session it runs when inetd starts it. *)

From S2P Require Import Prelude Util Message Log Dcc Effects.
Local Open Scope eff_scope.

Module Main.
Import Eff.

(** What getopt_long gives; [optind] is behind them. *)
Inductive opt := OMode (arg : string) | OHelp | OVersion | OPid (path : string) | OOther.
Inductive poll_type := INETD | DAEMON | DAEMON_FORK.
Inductive signal := SIGCHLD | SIGPIPE | SIGHUP | SIGINT | SIGILL | SIGBUS | SIGFPE | SIGSEGV | SIGTERM | SIGQUIT | SIGXCPU.
#[export] Instance signal_eq : EqDecision signal.
Proof. solve_decision. Defined.
(** How a signal is taken: by default the process dies, unless it is SIGCHLD. *)
Inductive disposition := Default | Handled (reset : bool).
(** [g_timeout_add(0, g_callback_delete, ...)]. *)
Inductive source := Rehash | Quit.
Inductive ev :=
| Cout (s : string) | Cerr (s : string) | Logged (flags : Z) (text : string)
| SetLogFlags | SetPoll | Built (t : poll_type) | DeletePoll | PollRehash
| Reaped | LoopStarted.
Inductive exn := ErrorExc (reason : string) | IMError (reason : string) | ServerPollError.

Record st := St {
  files : gmap string string;    (* of the pid files *)
  pidfile : string; server_poll : option poll_type;
  handlers : signal -> disposition; sources : list source; loop_quit : bool; dead : bool;
  trace : list ev }.
Definition M (A : Type) : Type := Eff.M st exn A.
Definition emit (e : ev) : M unit :=
  put (fun s => St (files s) (pidfile s) (server_poll s) (handlers s) (sources s) (loop_quit s) (dead s) (trace s ++ [e])).
Definition up_files (f : gmap string string -> gmap string string) (s : st) : st :=
  St (f (files s)) (pidfile s) (server_poll s) (handlers s) (sources s) (loop_quit s) (dead s) (trace s).
Definition up_pidfile (p : string) (s : st) : st :=
  St (files s) p (server_poll s) (handlers s) (sources s) (loop_quit s) (dead s) (trace s).
Definition up_poll (p : option poll_type) (s : st) : st :=
  St (files s) (pidfile s) p (handlers s) (sources s) (loop_quit s) (dead s) (trace s).
Definition up_handlers (h : signal -> disposition) (s : st) : st :=
  St (files s) (pidfile s) (server_poll s) h (sources s) (loop_quit s) (dead s) (trace s).
Definition up_sources (f : list source -> list source) (s : st) : st :=
  St (files s) (pidfile s) (server_poll s) (handlers s) (f (sources s)) (loop_quit s) (dead s) (trace s).
Definition up_loop (q d : bool) (s : st) : st :=
  St (files s) (pidfile s) (server_poll s) (handlers s) (sources s) q d (trace s).

(** The process, its configuration (Config.v) and what the parts it starts answer. *)
Class MainEnv := {
  pid : Z;
  program : string; infotxt : list string;
  load : list ev -> bool + string;           (* conf.Load(); the error it throws *)
  conf_type : Z;                             (* irc/type *)
  setPath : option string;                   (* im::IM::setPath: the error it throws *)
  new_poll : poll_type -> bool;              (* the constructor of the poll: else ServerPollError *)
  can_write : string -> bool;
  atoi : string -> Z }.

Section Main.
Context {env : MainEnv}.

Definition EXIT_SUCCESS : Z := 0.
Definition EXIT_FAILURE : Z := 1.

Definition usage : M unit :=
  emit (Cerr ("Usage: " +:+ program +:+ " [OPTIONS]... CONFIG_PATH"));;
  emit (Cerr "");;
  emit (Cerr "Options:");;
  emit (Cerr "  -h, --help             Display this notice");;
  emit (Cerr "  -v, --version          Version of minbif");;
  emit (Cerr "  -m, --mode=MODE        Mode to run (MODE is a number)");;
  emit (Cerr "  -p, --pidfile=PIDFILE  Path to pid file").
Definition version : M unit := mapM_ (fun l => emit (Cout l)) infotxt.

(** The loop over the options: the mode, or the code the process ends with. *)
Fixpoint options (l : list opt) (mode : Z) : M (Z + Z) :=
  match l with
  | [] => ret (inl mode)
  | OMode arg :: l => options l (atoi arg)
  | OHelp :: _ => usage;; ret (inr EXIT_SUCCESS)
  | OVersion :: _ => version;; ret (inr EXIT_SUCCESS)
  | OPid path :: l =>
    eff! fi := get (fun s => files s !! path);
    match fi with
    | Some _ =>
      emit (Cerr ("It seems that minbif is already launched. Perhaps try to erase file " +:+ path));;
      ret (inr EXIT_FAILURE)
    | None => put (up_pidfile path);; options l mode
    end
  | OOther :: _ => ret (inr EXIT_FAILURE)
  end.

(** [ServerPoll::build]. *)
Definition poll_of (t : Z) : option poll_type :=
  if t =? 0 then Some INETD else if t =? 2 then Some DAEMON_FORK else None.
Definition build (t : Z) : M poll_type :=
  match poll_of t with
  | Some p => if new_poll p then emit (Built p);; ret p else throw ServerPollError
  | None =>
    emit (Logged Log.W_ERR ("Type " +:+ t2s t +:+ " is not implemented yet."));;
    throw ServerPollError
  end.

(** [SigHandler::setApplication]. *)
Definition taken (g : signal) : disposition :=
  match g with SIGCHLD | SIGPIPE | SIGHUP => Handled false | _ => Handled true end.
Definition setApplication : M unit := put (up_handlers taken).
(** [SigHandler::handler], for a signal that [Handled] names. *)
Definition handler (g : signal) : M unit :=
  match g with
  | SIGCHLD => emit Reaped
  | SIGPIPE => ret tt
  | SIGHUP => put (up_sources (fun l => l ++ [Rehash]))
  | SIGTERM => put (up_sources (fun l => l ++ [Quit]))
  | _ =>
    (* raise(r): taken by its disposition once the handler is over *)
    eff! d := get (fun s => handlers s g);
    match d with Default => put (up_loop false true) | Handled _ => crash "raised again" end
  end.
(** The kernel gives a signal: SA_RESETHAND resets its disposition first. *)
Definition deliver (g : signal) : M unit :=
  eff! d := get (fun s => handlers s g);
  match d with
  | Default =>
    match g with SIGCHLD => ret tt | _ => put (up_loop false true) end
  | Handled reset =>
    when reset (put (fun s => up_handlers (fun g' => if decide (g' = g) then Default else handlers s g') s));;
    handler g
  end.

Definition quit : M unit := put (fun s => up_loop true (dead s) s).
Definition rehash : M unit :=
  eff! r := get (fun s => load (trace s));
  match r with
  | inr e => throw (ErrorExc e)
  | inl ok =>
    when (negb ok) (emit (Logged Log.W_ERR "Unable to load configuration, exiting..");; quit);;
    emit SetLogFlags;;
    eff! p := get server_poll;
    match p with None => ret tt | Some _ => emit PollRehash end
  end.

(** [Minbif::main] up to the loop: [Some] code when the process ends before it. *)
Definition start (opts : list opt) (rest : list string) : M (option Z) :=
  eff! r := options opts (-1);
  match r with
  | inr code => ret (Some code)
  | inl mode =>
    match rest with
    | [] =>
      emit (Cerr (program +:+ ": wrong argument count"));;
      usage;; ret (Some EXIT_FAILURE)
    | _ :: _ =>
      eff! ok := get (fun s => load (trace s));
      match ok with
      | inr e => throw (ErrorExc e)
      | inl false => emit (Logged Log.W_ERR "Unable to load configuration, exiting..");; ret (Some EXIT_FAILURE)
      | inl true =>
        emit SetLogFlags;;
        match setPath with Some e => throw (IMError e) | None => ret tt end;;
        eff! p := build (if mode <? 0 then conf_type else mode);
        put (up_poll (Some p));;
        emit SetPoll;;
        eff! path := get pidfile;
        if negb (sempty path) then
          if can_write path then
            put (up_files (insert path (t2s pid +:+ String "010" "")));;
            setApplication;; emit LoopStarted;; ret None
          else
            emit (Cerr ("Unable to create file '" +:+ path +:+ "'"));; ret (Some EXIT_FAILURE)
        else setApplication;; emit LoopStarted;; ret None
      end
    end
  end.
(** The three handlers of [main]. *)
Definition started (opts : list opt) (rest : list string) : M (option Z) :=
  catch (start opts rest) (fun e => Some (
    match e with
    | ErrorExc r => emit (Logged Log.W_ERR "Error while loading:");; emit (Logged Log.W_ERR r)
    | IMError r => emit (Logged Log.W_ERR ("Unable to load IM settings: " +:+ r))
    | ServerPollError => emit (Logged Log.W_ERR "Unable to load the server poll.")
    end;; ret (Some EXIT_FAILURE))).

(** The loop of glib: signals come, the sources run in turn, and the poll may end the
    application. *)
Inductive turn := Signal (g : signal) | Dispatch | AppQuit.
Definition loop_turn (t : turn) : M unit :=
  match t with
  | Signal g => deliver g
  | AppQuit => quit
  | Dispatch =>
    eff! l := get sources;
    match l with
    | [] => ret tt
    | x :: l =>
      put (up_sources (fun _ => l));;
      match x with Rehash => rehash | Quit => quit end
    end
  end.
(** [g_main_run]: [true] when it returns, [false] when it is still running. *)
Fixpoint loop (l : list turn) : M bool :=
  eff! over := get (fun s => loop_quit s || dead s);
  if over then ret true
  else match l with [] => ret false | t :: l => loop_turn t;; loop l end.

(** [remove_pidfile]: [fp >> i] of what the file holds; an [int] that nothing is read
    into is not the process. *)
Definition remove_pidfile : M unit :=
  eff! path := get pidfile;
  if sempty path then ret tt
  else
    eff! fp := get (fun s => files s !! path);
    match fp with
    | None => ret tt
    | Some text =>
      match Num.s2t_signed 32 text with
      | Some i => if i =? pid then put (up_files (delete path)) else ret tt
      | None => ret tt
      end
    end.
(** [Minbif::~Minbif]. *)
Definition destroy : M unit :=
  emit DeletePoll;; put (up_poll None);; remove_pidfile.
(** The whole process: its code, or [None] when a signal killed it. *)
Definition main (opts : list opt) (rest : list string) (turns : list turn) : M (option Z) :=
  eff! r := started opts rest;
  match r with
  | Some code => destroy;; ret (Some code)
  | None =>
    eff! over := loop turns;
    eff! d := get dead;
    if d || negb over then ret None
    else destroy;; ret (Some EXIT_SUCCESS)
  end.
End Main.
End Main.

(** ** server_poll/inetd.cpp

    One session on the standard input and output.  [ServerPoll::log] is [Obj.poll_log]
    (World.v) while there is a session. *)
Module Inetd.
Import Eff.
Inductive ev := DeleteIrc | AppQuit | IrcRehash | CloseStderr | Logged (flags : Z) (text : string) | UserLog (level : Z) (msg : string).
(** [irc], and the stops that wait in the main loop. *)
Record st := St { irc : option nat; stops : nat; trace : list ev }.
Definition M (A : Type) : Type := Eff.M st unit A.
Definition emit (e : ev) : M unit := put (fun s => St (irc s) (stops s) (trace s ++ [e])).

(** The constructor: the session, or the reason of the exception it throws. *)
Definition InetdServerPoll (debug : bool) (fileno_stderr : Z) (made : nat + string) : M unit :=
  match made with
  | inl i =>
    put (fun s => St (Some i) (stops s) (trace s));;
    when (negb debug && (0 <=? fileno_stderr)) (emit CloseStderr)
  | inr reason =>
    emit (Logged Log.W_ERR ("Unable to start the IRC daemon: " +:+ reason));; throw tt
  end.
Definition delete_irc : M unit :=
  eff! i := get irc; match i with None => ret tt | Some _ => emit DeleteIrc end.
Definition rehash : M unit :=
  eff! i := get irc; match i with None => ret tt | Some _ => emit IrcRehash end.
Definition log (level : Z) (msg : string) : M unit :=
  eff! i := get irc; match i with None => crash "irc is NULL" | Some _ => emit (UserLog level msg) end.
Definition kill (i : nat) : M unit :=
  eff! j := get irc;
  if bool_decide (j = Some i) then put (fun s => St (irc s) (S (stops s)) (trace s)) else crash "assert(irc == this->irc)".
Definition stopServer_cb : M unit :=
  delete_irc;;
  put (fun s => St None (pred (stops s)) (trace s));;
  emit AppQuit.
End Inetd.
