(* ===== verification/MainProps.v ===== *)
(** The start and the end of the process: the pid file that is there is respected, the one
    that is written goes with the process unless a signal kills it. *)

From S2P Require Import Prelude Util Message Log Dcc Effects Main.
Import Eff Main.

Module MainP.
Section MainP.
Context {env : MainEnv}.
Context (pid_int : 0 <= pid < 2 ^ 31).

(** ** The pid in its file *)

Definition pid_text : string := t2s pid +:+ String "010" "".
Lemma own_pid : Num.s2t_signed 32 pid_text = Some pid.
Proof.
  unfold pid_text, Num.s2t_signed. destruct (Num.t2s_spec pid) as (Hd & Hne & Hv); [lia|].
  destruct (t2s pid) as [|c s] eqn:E; [done|]. rewrite app_cons_s. assert (Hd' := Hd).
  cbn [sall] in Hd'. apply andb_true_iff in Hd' as [Hc _].
  destruct (Num.digit_props c Hc) as (H1 & H2 & H3 & _). cbn [Num.skip_ws]. rewrite H1. cbn [sempty].
  unfold Num.scan. rewrite H2, H3. cbn [shead]. rewrite Hc. cbn [negb].
  rewrite <- (app_cons_s c), Num.digits_app, Hv by done.
  change (Num.digits pid (String "010" "")) with pid. destruct (Z.ltb_spec (2 ^ (32 - 1) - 1) pid); [lia|done].
Qed.

(** ** What the process does to the files *)

(** Besides the one it may have written at [path], which was not there. *)
Definition kept (s0 s : st) : Prop := files s = files s0.
Definition wrote (s0 s : st) : Prop :=
  kept s0 s /\ pidfile s = ""
  \/ pidfile s <> "" /\ files s0 !! pidfile s = None /\ files s = <[pidfile s := pid_text]> (files s0).
(** Before it is written. *)
Definition fresh (s0 s : st) : Prop :=
  kept s0 s /\ (pidfile s = "" \/ files s0 !! pidfile s = None).
(** A signal is taken as [setApplication] says, or was reset. *)
Definition tame (s : st) : Prop := forall g, handlers s g = Default \/ handlers s g = taken g.
Definition running (s0 s : st) : Prop := wrote s0 s /\ tame s.

Lemma fresh_emit s0 e (Q : unit -> st -> Prop) R s :
  fresh s0 s -> (forall s', fresh s0 s' -> Q tt s') -> wp (emit e) Q R s.
Proof. intros F HQ. apply ewp_put, HQ. exact F. Qed.
Lemma fresh_mapM {A} s0 (f : A -> M unit) l R s :
  fresh s0 s -> (forall a s, fresh s0 s -> wp (f a) (fun _ => fresh s0) R s) -> wp (mapM_ f l) (fun _ => fresh s0) R s.
Proof. intros F Hf. apply ewp_mapM_; auto. Qed.
Ltac say := apply ewp_bind; eapply fresh_emit; [eassumption|]; intros ? ?.
Ltac says := repeat say.
Lemma wp_usage s0 R s : fresh s0 s -> wp usage (fun _ => fresh s0) R s.
Proof. intros F. unfold usage. says. eapply fresh_emit; eauto. Qed.

Lemma wp_options s0 l mode s : fresh s0 s -> wp (options l mode) (fun _ => fresh s0) (fun _ => fresh s0) s.
Proof.
  revert mode s. induction l as [|o l IH]; intros mode s F; cbn [options]; [by apply ewp_ret|].
  destruct o as [arg| | |path|].
  - by apply IH.
  - apply ewp_bind. eapply ewp_mono; [by apply (wp_usage s0 (fun _ _ => False))|intros ? ? HH; by apply ewp_ret|done].
  - apply ewp_bind. eapply ewp_mono; [apply (fresh_mapM s0 _ _ (fun _ _ => False)); [done|]|intros ? ? HH; by apply ewp_ret|done].
    intros a s' F'. eapply fresh_emit; eauto.
  - apply ewp_bind, ewp_get. destruct (files s !! path) as [t|] eqn:E.
    + says. by apply ewp_ret.
    + apply ewp_bind, ewp_put, IH. destruct F as [K _]. split; [done|]. right. cbn. by rewrite <- K.
  - by apply ewp_ret.
Qed.
Lemma wp_build s0 t s :
  fresh s0 s -> wp (build t) (fun _ => fresh s0) (fun _ => fresh s0) s.
Proof.
  intros F. unfold build. destruct (poll_of t) as [p|]; [destruct (new_poll p)|]; says; eff; done.
Qed.
Lemma sempty_false s : sempty s = false -> s <> "".
Proof. by destruct s. Qed.
(** The start ends with nothing written, or runs the loop. *)
Lemma wp_start s0 opts rest s : fresh s0 s ->
  wp (start opts rest) (fun r s' => match r with Some _ => fresh s0 s' | None => running s0 s' end)
    (fun _ => fresh s0) s.
Proof.
  intros F. unfold start. apply ewp_bind. eapply ewp_mono; [by apply wp_options| |done].
  intros [mode|code] s1 F1; [|by apply ewp_ret]. destruct rest as [|file rest].
  { say. apply ewp_bind. eapply ewp_mono; [by eapply (wp_usage s0 (fun _ _ => False))|intros ? ? HH; by apply ewp_ret|done]. }
  apply ewp_bind, ewp_get. destruct (load _) as [[]|e]; [|says; by apply ewp_ret|by apply ewp_throw].
  says. apply ewp_bind. destruct setPath; [by apply ewp_throw|]. apply ewp_ret, ewp_bind.
  eapply ewp_mono; [by eapply wp_build| |done]. intros p s2 F2. apply ewp_bind, ewp_put, ewp_bind, ewp_put, ewp_bind, ewp_get.
  cbn [pidfile up_poll]. set (s3 := St _ _ _ _ _ _ _ _). destruct F2 as [K2 P2].
  destruct (sempty (pidfile s2)) eqn:E; cbn [negb].
  - apply sempty_spec in E. apply ewp_bind, ewp_put, ewp_bind, ewp_put, ewp_ret. split; [left; by split|].
    intros g. by right.
  - destruct (can_write _); [|apply ewp_bind, ewp_put, ewp_ret; by split].
    apply ewp_bind, ewp_put, ewp_bind, ewp_put, ewp_bind, ewp_put, ewp_ret. split; [right|intros g; by right].
    destruct P2 as [P2|P2]; [by rewrite P2 in E|]. split_and!; [by apply sempty_false|done|]. cbn. by rewrite K2.
Qed.

(** ** The loop *)

Lemma running_loop s0 q d s : running s0 s -> running s0 (up_loop q d s).
Proof. done. Qed.
Lemma running_handled s0 g s : running s0 s ->
  running s0 (up_handlers (fun g' => if decide (g' = g) then Default else handlers s g') s).
Proof. intros [W T]. split; [done|]. intros g'. cbn. destruct (decide (g' = g)); [by left|apply T]. Qed.
Lemma wp_deliver s0 g s : running s0 s -> wp (deliver g) (fun _ => running s0) (fun _ _ => False) s.
Proof.
  intros Rn. unfold deliver. apply ewp_bind, ewp_get. destruct (handlers s g) as [|reset] eqn:E.
  { destruct g; try (by apply ewp_put); by apply ewp_ret. }
  destruct (proj2 Rn g) as [E'|E']; rewrite E in E'; [done|]. apply ewp_bind, ewp_when; intros Hr.
  - apply ewp_put. assert (Rn' := running_handled s0 g s Rn). revert Rn'. set (s1 := up_handlers _ s). intros Rn'.
    assert (Hd : handlers s1 g = Default) by (cbn; by rewrite decide_True).
    destruct g; cbn [handler]; try (by apply ewp_put); try (by apply ewp_ret).
    all: apply ewp_bind, ewp_get; rewrite Hd; by apply ewp_put.
  - subst reset. destruct g; try discriminate; cbn [handler]; try (by apply ewp_put); by apply ewp_ret.
Qed.
Lemma wp_rehash s0 s : running s0 s -> wp rehash (fun _ => running s0) (fun _ => running s0) s.
Proof.
  intros Rn. unfold rehash. apply ewp_bind, ewp_get. destruct (load _) as [ok|e]; [|by apply ewp_throw].
  apply ewp_bind, ewp_when; intros _; [apply ewp_bind, ewp_put, ewp_put|]; apply ewp_bind, ewp_put, ewp_bind, ewp_get;
    (destruct (server_poll _); [by apply ewp_put|by apply ewp_ret]).
Qed.
Lemma wp_loop s0 l s : running s0 s -> wp (loop l) (fun _ => running s0) (fun _ => running s0) s.
Proof.
  revert s. induction l as [|t l IH]; intros s Rn; cbn [loop]; apply ewp_bind, ewp_get;
    (destruct (_ || _); [by apply ewp_ret|]); [by apply ewp_ret|].
  apply ewp_bind. apply (ewp_mono _ (fun _ => running s0) _ (fun _ => running s0)); [|intros ? s' H; by apply IH|done].
  destruct t as [g| |]; cbn [loop_turn].
  - eapply ewp_mono; [by apply wp_deliver|done|done].
  - apply ewp_bind, ewp_get. destruct (sources s) as [|x xs]; [by apply ewp_ret|].
    apply ewp_bind, ewp_put. destruct x; [by apply wp_rehash|by apply ewp_put].
  - by apply ewp_put.
Qed.

(** ** The whole process *)

Lemma wp_destroy s0 s : fresh s0 s \/ wrote s0 s -> wp destroy (fun _ => kept s0) (fun _ _ => False) s.
Proof.
  intros H. unfold destroy. apply ewp_bind, ewp_put, ewp_bind, ewp_put. unfold remove_pidfile. apply ewp_bind, ewp_get.
  cbn [pidfile up_poll]. destruct (sempty (pidfile s)) eqn:E.
  { apply sempty_spec in E. apply ewp_ret. destruct H as [[K _]|[[K _]|[Hne _]]]; [done|done|by rewrite E in Hne]. }
  apply sempty_false in E. apply ewp_bind, ewp_get. cbn [files up_poll].
  destruct H as [[K [P|P]]|[[_ P]|(_ & P & K)]]; [done| |done|].
  - rewrite K, P. by apply ewp_ret.
  - rewrite K, lookup_insert_eq. rewrite own_pid, Z.eqb_refl. apply ewp_put.
    unfold kept. cbn [files up_files up_poll].
    by apply delete_insert_id.
Qed.

(** Before main. *)
Definition blank (f : gmap string string) (t : list ev) : st := St f "" None (fun _ => Default) [] false false t.

(** C6: whatever the options, the configuration and the signals, a pid file that is there
    when its option is read is never touched; when the process ends by itself the files are
    as they were; when a signal kills it, or an exception in the loop, at most its own pid
    file is left, at a path where there was none. *)
Theorem pidfile_respected opts rest turns f t :
  wp (main opts rest turns)
    (fun r s => match r with
                | Some _ => files s = f
                | None => files s = f \/ exists path, f !! path = None /\ files s = <[path := pid_text]> f
                end)
    (fun _ s => files s = f \/ exists path, f !! path = None /\ files s = <[path := pid_text]> f) (blank f t).
Proof.
  set (s0 := blank f t). assert (F0 : fresh s0 s0) by (split; [done|by left]).
  assert (Hw : forall s, wrote s0 s -> files s = f \/ exists path, f !! path = None /\ files s = <[path := pid_text]> f).
  { intros s [[K _]|(_ & P & K)]; [by left|right; by eexists]. }
  unfold main. apply ewp_bind. unfold started.
  apply (ewp_mono _ (fun r s => match r with Some _ => fresh s0 s | None => running s0 s end) _ (fun _ => fresh s0)).
  - apply ewp_catch. eapply ewp_mono; [by apply wp_start|done|].
    intros e s F. apply ewp_bind. eapply (ewp_mono _ (fun _ => fresh s0) _ (fun _ _ => False)); [|intros ? ? HH; by apply ewp_ret|done].
    destruct e; says; eapply fresh_emit; eauto.
  - intros [code|] s H.
    + apply ewp_bind. eapply ewp_mono; [apply (wp_destroy s0); by left|intros ? ? K; by apply ewp_ret|done].
    + apply ewp_bind. eapply ewp_mono; [by apply (wp_loop s0)|intros over s1 [W _]|intros e s1 [W _]; by apply Hw].
      apply ewp_bind, ewp_get. destruct (_ || _); [by apply ewp_ret, Hw|].
      apply ewp_bind. eapply ewp_mono; [apply (wp_destroy s0); by right|intros ? ? K; by apply ewp_ret|done].
  - intros e s [K _]. by left.
Qed.
End MainP.

(** ** Concrete runs *)

#[export] Instance demo_main : MainEnv := {|
  pid := 4242; program := "minbif"; infotxt := ["minbif 1.0"];
  load := fun t => inl (negb (existsb (fun e => match e with LoopStarted => true | _ => false end) t));
  conf_type := 2; setPath := None; new_poll := fun _ => true; can_write := fun _ => true; atoi := fun _ => 1 |}.
Definition pids : gmap string string := {[ "other.pid" := pid_text ]}.
Definition opts : list opt := [OPid "minbif.pid"].

Lemma pidfile_respected_witness :
  wp (main opts ["minbif.conf"] [Signal SIGCHLD; Signal SIGTERM; Dispatch])
    (fun r s => match r with
                | Some _ => files s = pids
                | None => files s = pids \/ exists path, pids !! path = None /\ files s = <[path := pid_text]> pids
                end)
    (fun _ s => files s = pids \/ exists path, pids !! path = None /\ files s = <[path := pid_text]> pids) (blank pids []).
Proof. apply pidfile_respected. split; [discriminate|reflexivity]. Defined.

Definition run (o : list opt) (turns : list turn) : st * out exn (option Z) := main o ["minbif.conf"] turns (blank pids []).
(** SIGTERM is the clean end; SIGINT kills the process and the pid file stays, which
    refuses the next start. *)
Example sigterm_clean :
  (run opts [Signal SIGTERM; Dispatch]).2 = Done (Some 0)
  /\ map_to_list (files (run opts [Signal SIGTERM; Dispatch]).1) = [("other.pid", pid_text)].
Proof. split; reflexivity. Qed.
Example sigint_leaves :
  let s := (run opts [Signal SIGINT]).1 in
  files s !! "minbif.pid" = Some pid_text
  /\ (main opts ["minbif.conf"] [] (blank (files s) [])).2 = Done (Some EXIT_FAILURE).
Proof. split; reflexivity. Qed.
(** A configuration that does not load when SIGHUP comes ends the process. *)
Example sighup_ends : (run opts [Signal SIGHUP; Dispatch]).2 = Done (Some 0).
Proof. reflexivity. Qed.
(** The type 1 that the configuration accepts has no poll. *)
Example type_daemon : (run [OMode "1"] []).2 = Done (Some EXIT_FAILURE).
Proof. reflexivity. Qed.
End MainP.

(** Inetd: the session is deleted once, however often it asks to be killed. *)
Module InetdP.
Import Inetd.
Fixpoint stops_run (n : nat) : Inetd.M unit :=
  match n with O => ret tt | S n => bind stopServer_cb (fun _ => stops_run n) end.
Definition deletions (t : list Inetd.ev) : nat := length (List.filter (fun e => match e with DeleteIrc => true | _ => false end) t).
Lemma gone n s : irc s = None ->
  irc (stops_run n s).1 = None /\ deletions (trace (stops_run n s).1) = deletions (trace s) /\ (stops_run n s).2 = Done tt.
Proof.
  revert s. induction n as [|n IH]; intros s H; [done|]. cbn [stops_run]. unfold bind at 1.
  unfold stopServer_cb, delete_irc, emit, bind, get, put, ret. rewrite H. cbn -[deletions stops_run].
  destruct (IH (St None (pred (stops s)) (trace s ++ [AppQuit])) eq_refl) as (H1 & H2 & H3).
  rewrite H1, H2, H3. split_and!; try done. unfold deletions. cbn. rewrite List.filter_app. cbn. by rewrite app_nil_r.
Qed.
Lemma deleted_once n i s : irc s = Some i ->
  let r := stops_run (S n) s in
  irc r.1 = None /\ deletions (trace r.1) = S (deletions (trace s)) /\ r.2 = Done tt.
Proof.
  intros H. cbn zeta. cbn [stops_run]. unfold bind at 1 2 3. unfold stopServer_cb, delete_irc, emit, bind, get, put, ret. rewrite H.
  cbn -[deletions stops_run]. destruct (gone n (St None (pred (stops s)) ((trace s ++ [DeleteIrc]) ++ [AppQuit])) eq_refl) as (H1 & H2 & H3).
  rewrite H1, H2, H3. split_and!; try done. unfold deletions. cbn. rewrite !List.filter_app, !length_app. cbn. lia.
Qed.
(** A line that is logged after the end of the session uses a pointer that is NULL. *)
Example log_after_stop : (bind (kill 1) (fun _ => bind stopServer_cb (fun _ => log 4 "bye")) (St (Some 1%nat) 0 [])).2 = Crash "irc is NULL".
Proof. reflexivity. Qed.
End InetdP.
