(* ===== verification/Url.v ===== *)
(** http_url_encode of plugins/lib/http.c, with the buffer it writes to. *)

From S2P Require Import Prelude.

Module Url.
(** What the call does: a text, NULL when the memory is short, or a write outside the
    buffer or beyond an [int]. *)
Inductive result := Encoded (s : string) | Null | Undefined (why : string).
(** [ns] up to [index], [alloc] and [newlen]. *)
Record buf := Buf { ns : string; alloc : Z; newlen : Z }.
Definition index (b : buf) : Z := Z.of_nat (slen (ns b)).

Definition INT_MAX : Z := 2 ^ 31 - 1.
Definition alnum (c : ascii) : bool :=
  ((97 <=? code c) && (code c <=? 122)) || ((65 <=? code c) && (code c <=? 90)) || ((48 <=? code c) && (code c <=? 57)).
Definition hex_digit (d : Z) : ascii := chr (if d <? 10 then 48 + d else 55 + d).
(** [%02X] of a byte. *)
Definition hex2 (c : ascii) : string := String (hex_digit (code c / 16)) (String (hex_digit (code c mod 16)) "").

Section Url.
(** Whether [realloc] gives that many bytes. *)
Context (memory : Z -> bool) (use_plus : bool).
(** A write of the byte [c] at [index++]. *)
Definition put (c : ascii) (b : buf) : buf + result :=
  if index b <? alloc b then inl (Buf (ns b +:+ String c "") (alloc b) (newlen b)) else inr (Undefined "write after the buffer").
(** [newlen += 2] and the growth of the buffer. *)
Definition grow (b : buf) : buf + result :=
  let newlen := newlen b + 2 in
  if INT_MAX <? newlen then inr (Undefined "overflow")
  else if alloc b <? newlen then
    let alloc := alloc b * 2 in
    if INT_MAX <? alloc then inr (Undefined "overflow")
    else if memory alloc then inl (Buf (ns b) alloc newlen) else inr Null
  else inl (Buf (ns b) (alloc b) newlen).
(** [sprintf] writes three characters and a NUL; [index] moves by 3. *)
Definition put_hex (c : ascii) (b : buf) : buf + result :=
  if index b + 3 <? alloc b then inl (Buf (ns b +:+ String "%" (hex2 c)) (alloc b) (newlen b))
  else inr (Undefined "write after the buffer").
Definition encode_char (c : ascii) (b : buf) : buf + result :=
  if Ascii.eqb c " " && use_plus then put "+" b
  else if negb (alnum c) then match grow b with inl b => put_hex c b | inr r => inr r end
  else put c b.
Fixpoint encode_loop (s : string) (b : buf) : buf + result :=
  match s with
  | "" => inl b
  | String c s => match encode_char c b with inl b => encode_loop s b | inr r => inr r end
  end.
Definition http_url_encode (s : string) : result :=
  let alloc := Z.of_nat (slen s) + 1 in
  if INT_MAX <? alloc then Undefined "overflow"
  else match encode_loop s (Buf "" alloc alloc) with
       | inl b => if index b <? Url.alloc b then Encoded (ns b) else Undefined "write after the buffer"
       | inr r => r
       end.
End Url.

(** ** What it means *)

(** The text of a byte, and of all of them. *)
Definition quote (use_plus : bool) (c : ascii) : string :=
  if Ascii.eqb c " " && use_plus then "+" else if alnum c then String c "" else String "%" (hex2 c).
Fixpoint quoted (use_plus : bool) (s : string) : string :=
  match s with "" => "" | String c s => quote use_plus c +:+ quoted use_plus s end.
(** What a server reads in a form. *)
Definition unhex (c : ascii) : Z := if isdigit c then code c - 48 else code c - 55.
Fixpoint decode (s : string) : string :=
  match s with
  | String "%" (String a (String b s)) => String (chr (16 * unhex a + unhex b)) (decode s)
  | String c s => String (if Ascii.eqb c "+" then " "%char else c) (decode s)
  | "" => ""
  end.

Lemma code_range c : 0 <= code c < 256.
Proof. unfold code. pose proof (nat_ascii_bounded c). lia. Qed.
Lemma unhex_chars c : let a := hex_digit (code c / 16) in let b := hex_digit (code c mod 16) in
  chr (16 * unhex a + unhex b) = c.
Proof. by destruct c as [[] [] [] [] [] [] [] []]; vm_compute. Qed.
Lemma decode_quote use_plus c s : decode (quote use_plus c +:+ s) = String c (decode s).
Proof.
  unfold quote. destruct (Ascii.eqb c " ") eqn:E; cbn [andb].
  - ascii_cases. by destruct use_plus.
  - destruct (alnum c) eqn:Ea.
    + assert (Ascii.eqb c "%" = false /\ Ascii.eqb c "+" = false) as [H1 H2]
        by (by destruct c as [[] [] [] [] [] [] [] []]).
      rewrite app_cons_s, app_nil_l_s. cbn [decode]. rewrite H2.
      ascii_cases. destruct c as [[] [] [] [] [] [] [] []]; done.
    + unfold hex2. rewrite !app_cons_s, app_nil_l_s. cbn [decode]. by rewrite unhex_chars.
Qed.
Lemma decode_quoted use_plus s : decode (quoted use_plus s) = s.
Proof. induction s as [|c s IH]; [done|]. cbn [quoted]. by rewrite decode_quote, IH. Qed.
(** Only letters, digits, [%] and [+] are in the text. *)
Definition plain (c : ascii) : bool := alnum c || Ascii.eqb c "%" || Ascii.eqb c "+".
Lemma quoted_plain use_plus s : sall plain (quoted use_plus s) = true.
Proof.
  induction s as [|c s IH]; [done|]. cbn [quoted]. rewrite sall_app, IH, andb_true_r.
  by destruct c as [[] [] [] [] [] [] [] []], use_plus.
Qed.

(** The buffer holds what is written, what is left of the text and the NUL. *)
Definition fits (s : string) (b : buf) : Prop :=
  1 <= alloc b /\ index b + Z.of_nat (slen s) + 1 <= newlen b <= alloc b
  /\ alloc b <= 2 * newlen b.
Lemma encode_loop_ok memory use_plus s b :
  fits s b -> 2 * (newlen b + 2 * Z.of_nat (slen s)) <= INT_MAX ->
  (forall n, memory n = true) ->
  exists b', encode_loop memory use_plus s b = inl b' /\ ns b' = ns b +:+ quoted use_plus s /\ fits "" b'.
Proof.
  intros Hf Hb Hm. revert b Hf Hb. induction s as [|c s IH]; intros b (H1 & [H2 H3] & H4) Hb; cbn [encode_loop quoted].
  { exists b. split; [done|]. by rewrite app_nil_s. }
  cbn [slen] in *.
  assert (G : forall b1, fits s b1 -> newlen b1 <= newlen b + 2 -> ns b1 = ns b +:+ quote use_plus c ->
     exists b', encode_loop memory use_plus s b1 = inl b' /\ ns b' = ns b +:+ quote use_plus c +:+ quoted use_plus s /\ fits "" b').
  { intros b1 Hf1 Hn Hs. destruct (IH b1 Hf1) as (b' & Hr & Hs' & Hf'); [lia|]. exists b'. split; [done|].
    split; [|done]. by rewrite Hs', Hs, app_assoc_s. }
  unfold encode_char, quote in *. destruct (Ascii.eqb c " " && use_plus).
  { unfold put. destruct (Z.ltb_spec (index b) (alloc b)); [|lia]. apply G; [|cbn; lia|done].
    unfold fits, index in *. cbn. rewrite slen_app. cbn. lia. }
  destruct (alnum c); cbn [negb].
  { unfold put. destruct (Z.ltb_spec (index b) (alloc b)); [|lia]. apply G; [|cbn; lia|done].
    unfold fits, index in *. cbn. rewrite slen_app. cbn. lia. }
  unfold grow. destruct (Z.ltb_spec INT_MAX (newlen b + 2)); [lia|].
  assert (P : forall a, 1 <= a -> newlen b + 2 <= a <= 2 * (newlen b + 2) ->
    exists b', match put_hex c (Buf (ns b) a (newlen b + 2)) with inl b => encode_loop memory use_plus s b | inr r => inr r end
       = inl b' /\ ns b' = ns b +:+ String "%" (hex2 c) +:+ quoted use_plus s /\ fits "" b').
  { intros a Ha [Hl Hu]. unfold put_hex, index in *. cbn [ns alloc].
    destruct (Z.ltb_spec (Z.of_nat (slen (ns b)) + 3) a); [|lia]. apply G; [|cbn; lia|done].
    unfold fits, index. cbn. rewrite slen_app. cbn. lia. }
  destruct (Z.ltb_spec (alloc b) (newlen b + 2)); [|apply P; lia].
  destruct (Z.ltb_spec INT_MAX (alloc b * 2)); [lia|]. rewrite Hm. apply P; unfold index in *; lia.
Qed.

Lemma url_encode_runs (memory : Z -> bool) (use_plus : bool) (s : string) :
  (forall n, memory n = true) -> Z.of_nat (slen s) < 2 ^ 28 -> http_url_encode memory use_plus s = Encoded (quoted use_plus s).
Proof.
  intros Hm Hs.
  unfold http_url_encode. destruct (Z.ltb_spec INT_MAX (Z.of_nat (slen s) + 1)); [unfold INT_MAX in *; lia|].
  destruct (encode_loop_ok memory use_plus s (Buf "" (Z.of_nat (slen s) + 1) (Z.of_nat (slen s) + 1)))
    as (b & -> & Hb & _ & Hf & _); [|unfold INT_MAX; cbn [newlen]; lia|done|].
  - unfold fits, index. cbn. lia.
  - cbn [slen] in Hf. destruct (Z.ltb_spec (index b) (alloc b)); [|lia]. by rewrite Hb.
Qed.
(** C28: The encoding of a text shorter than 2^28 bytes, when memory is not short, never
    writes after its buffer, is made of letters, digits, [%] and [+] only, and a server
    that decodes it gets the text back. *)
Theorem url_encode_roundtrip (memory : Z -> bool) (use_plus : bool) (s : string) :
  (forall n, memory n = true) -> Z.of_nat (slen s) < 2 ^ 28 ->
  exists e, http_url_encode memory use_plus s = Encoded e /\ decode e = s /\ sall plain e = true.
Proof.
  intros Hm Hs. exists (quoted use_plus s).
  split; [by apply url_encode_runs|split; [apply decode_quoted|apply quoted_plain]].
Qed.
Lemma url_encode_roundtrip_witness :
  Z.of_nat (slen "a b&c") < 2 ^ 28 /\ exists e, http_url_encode (fun _ => true) true "a b&c" = Encoded e
    /\ decode e = "a b&c" /\ sall plain e = true.
Proof. split; [reflexivity|]. apply (url_encode_roundtrip (fun _ => true) true "a b&c"); [done|reflexivity]. Defined.
Example encoded : http_url_encode (fun _ => true) true "a b&c" = Encoded "a+b%26c"
  /\ http_url_encode (fun _ => true) false "a b" = Encoded "a%20b".
Proof. split; reflexivity. Qed.
(** NULL comes out when memory is short; coincoin_chat_send does not look. *)
Example encoded_null : http_url_encode (fun _ => false) true "a&b" = Null.
Proof. reflexivity. Qed.
End Url.
