(* ===== verification/Nick.v ===== *)
(** irc/nick.{h,cpp} (nicknames), irc/conv_entity.cpp, and the virtual
    [Nick::send] with its overriders: irc/user.cpp, irc/buddy.cpp,
    irc/chat_buddy.cpp, irc/unknown_buddy.cpp. *)

From S2P Require Import Prelude Util Message Log World Dcc.

Module Names.

Definition nick_lc_chars : string := "0123456789abcdefghijklmnopqrstuvwxyz{}^`-_|".
Definition nick_uc_chars : string := "0123456789ABCDEFGHIJKLMNOPQRSTUVWXYZ[]~`-_\".
Definition MAX_LENGTH : nat := 29.

(** [strchr(chars, c)], which also finds the terminating NUL. *)
Definition strchr (chars : string) (c : ascii) : bool :=
  has_char c chars || Ascii.eqb c "000".
Definition nick_char (c : ascii) : bool := strchr nick_lc_chars c || strchr nick_uc_chars c.

(** [Nick::isValidNickname]. *)
Definition isValidNickname (nick : string) : bool :=
  negb (sempty nick || isdigit (shead nick) || (MAX_LENGTH <? slen nick)%nat)
  && sall nick_char nick.

(** The text up to its first NUL: what a [const char*] shows of a string. *)
Fixpoint c_str (s : string) : string :=
  match s with
  | String c s' => if Ascii.eqb c "000" then EmptyString else String c (c_str s')
  | _ => EmptyString
  end.

(** The copying loop of [nickize]. *)
Fixpoint nickize_loop (s : string) : string :=
  match s with
  | EmptyString => EmptyString
  | String c s' =>
    if Ascii.eqb c " " then String "_" (nickize_loop s')
    else if nick_char c then String c (nickize_loop s')
    else nickize_loop s'
  end.

(** [Nick::nickize]; [conv] is the result of the transliteration, NULL when it
    fails. *)
Definition nickize_from (conv : option string) (n : string) : string :=
  let nick := nickize_loop (c_str (default n conv)) in
  let nick := if isdigit (shead nick) then "_" +:+ nick else nick in
  let nick := if (MAX_LENGTH <? slen nick)%nat then stake MAX_LENGTH nick else nick in
  if sempty nick then "Invalid" else nick.
Definition nickize {env : W.Env} (n : string) : string := nickize_from (W.translit n) n.

Definition fix_ident (n : string) : string :=
  smap (fun c => if Ascii.eqb c " " then "_"%char else c) n.
Definition fix_host (n : string) : string :=
  smap (fun c => if Ascii.eqb c " " then "."%char else c) n.

Lemma nickize_loop_valid s : sall nick_char (nickize_loop s) = true.
Proof.
  induction s as [|c s IH]; [done|]. cbn [nickize_loop].
  destruct (Ascii.eqb c " "); [exact IH|].
  destruct (nick_char c) eqn:E; [|done]. cbn [sall]. by rewrite E.
Qed.

Lemma smap_no_char f c s :
  (forall x, f x <> c) -> has_char c (smap f s) = false.
Proof.
  intros Hf. induction s as [|x s IH]; [done|]. cbn. rewrite IH, orb_false_r.
  apply Ascii.eqb_neq. apply Hf.
Qed.

Lemma nickize_loop_id s :
  sall nick_char s = true -> has_char "000" s = false -> nickize_loop (c_str s) = s.
Proof.
  induction s as [|c s IH]; [done|]. cbn [sall has_char c_str].
  intros [Hc Hs]%andb_true_iff [Hz Hr]%orb_false_iff. rewrite Hz.
  cbn [nickize_loop]. rewrite Hc. destruct (Ascii.eqb_spec c " ") as [->|_]; [done|].
  f_equal. by apply IH.
Qed.

(** Every name [Nick::nickize] makes is a valid nickname, whatever the text and
    its transliteration; a valid nickname is left as it is. *)
Theorem nickize_valid (conv : option string) (n nick : string) :
  isValidNickname (nickize_from conv n) = true
  /\ (isValidNickname nick && negb (has_char "000" nick) = true ->
      nickize_from (Some nick) n = nick).
Proof.
  split.
  - unfold nickize_from. set (s0 := nickize_loop _).
    assert (H0 : sall nick_char s0 = true) by apply nickize_loop_valid. clearbody s0.
    set (s1 := if isdigit (shead s0) then "_" +:+ s0 else s0).
    assert (H1 : sall nick_char s1 = true /\ isdigit (shead s1) = false).
    { unfold s1. destruct (isdigit (shead s0)) eqn:E; [|by split]. split; [exact H0|done]. }
    clearbody s1. destruct H1 as [Ha Hd]. set (s2 := if (MAX_LENGTH <? slen s1)%nat then _ else _).
    assert (H2 : sall nick_char s2 = true /\ isdigit (shead s2) = false
                 /\ (slen s2 <= MAX_LENGTH)%nat).
    { unfold s2. destruct (Nat.ltb_spec MAX_LENGTH (slen s1)) as [Hl|Hl]; [|by repeat split].
      split; [by apply sall_stake|]. split; [by destruct s1|]. rewrite slen_stake; lia. }
    clearbody s2. destruct H2 as (Hb & He & Hl). destruct (sempty s2) eqn:E; [done|].
    unfold isValidNickname. by rewrite E, He, Hb, (proj2 (Nat.ltb_ge _ _) Hl).
  - intros [Hv Hz%negb_true_iff]%andb_true_iff. unfold isValidNickname in Hv.
    apply andb_true_iff in Hv as [Hv Ha]. apply negb_true_iff in Hv.
    apply orb_false_iff in Hv as [Hv Hl]. apply orb_false_iff in Hv as [He Hd].
    unfold nickize_from. cbn [default]. unfold default, id. rewrite (nickize_loop_id nick Ha Hz).
    by rewrite Hd, Hl, He.
Qed.
Lemma nickize_valid_witness : nickize_from (Some "Bob_[x]") "" = "Bob_[x]".
Proof. apply (nickize_valid None "" "Bob_[x]"). reflexivity. Defined.
End Names.

Module Send.
Import W Obj Names.
Section Send.
Context {env : Env}.

(** [Nick::setIdentname], [Nick::setHostname]. *)
Definition setIdentname (n : nid) (s : string) : M unit :=
  let! x := get_nick n; put_nick n (with_ident x (fix_ident s)).
Definition setHostname (n : nid) (s : string) : M unit :=
  let! x := get_nick n; put_nick n (with_host x (fix_host s)).

(** The [ConvEntity] base of a nick or of a channel. *)
Inductive entity_ref := RNick (n : nid) | RChan (c : cid).

Definition kind_ce (k : nick_kind) : option conv_entity :=
  match k with
  | KNick | KUser _ _ _ => None
  | KBuddy _ _ _ ce | KChatBuddy _ ce | KUnknownBuddy ce => Some ce
  end.
Definition kind_with_ce (k : nick_kind) (ce : conv_entity) : nick_kind :=
  match k with
  | KNick | KUser _ _ _ => k
  | KBuddy b p l _ => KBuddy b p l ce
  | KChatBuddy b _ => KChatBuddy b ce
  | KUnknownBuddy _ => KUnknownBuddy ce
  end.
Definition get_ce (r : entity_ref) : M conv_entity :=
  match r with
  | RNick n => let! x := get_nick n; deref "ConvEntity" (kind_ce (nk_kind x))
  | RChan c =>
    let! x := get_chan c;
    match ch_kind x with KConversation ce _ _ => ret ce | _ => stuck "dangling ConvEntity" end
  end.
Definition put_ce (r : entity_ref) (ce : conv_entity) : M unit :=
  match r with
  | RNick n => let! x := get_nick n; put_nick n (with_kind x (kind_with_ce (nk_kind x) ce))
  | RChan c =>
    let! x := get_chan c;
    match ch_kind x with
    | KConversation _ up cb => put_chan c (with_ckind x (KConversation ce up cb))
    | _ => stuck "dangling ConvEntity"
    end
  end.

(** [conv.sendMessage(text)]: asserts that the conversation is valid. *)
Definition conv_sendMessage (ce : conv_entity) (text : string) : M unit :=
  match conv ce with
  | Some v => im_call (ConvSend v text)
  | None => stuck "assert(isValid())"
  end.

(** [ConvEntity::enqueueMessage]. *)
Definition enqueueMessage (r : entity_ref) (text : string) (delay : Z) : M unit :=
  let! ce := get_ce r;
  if delay =? 0 then conv_sendMessage ce text
  else
    let q := enqueued ce ++ [text] in
    put_ce r (CE (conv ce) q);;
    when (length q =? 1)%nat (emit (Timer delay "ConvEntity::flush_messages")).

(** [ConvEntity::flush_messages]: [buf] gathers the lines; a CTCP message (\001)
    is sent alone. *)
Fixpoint flush_loop (ce : conv_entity) (q : list string) (buf : string) : M unit :=
  match q with
  | [] => when (negb (sempty buf)) (conv_sendMessage ce buf)
  | s :: q =>
    if Ascii.eqb (shead s) "001" then
      when (negb (sempty buf)) (conv_sendMessage ce buf);;
      conv_sendMessage ce s;;
      flush_loop ce q ""
    else
      flush_loop ce q ((if sempty buf then "" else buf +:+ String "010" "") +:+ s)
  end.
Definition flush_messages (r : entity_ref) : M bool :=
  let! ce := get_ce r;
  flush_loop ce (enqueued ce) "";;
  put_ce r (CE (conv ce) []);; ret false.

(** [Channel::isStatusChannel()] and [isRemoteChannel()]. *)
Definition isStatusChannel (name : string) : bool :=
  negb (sempty name) && Ascii.eqb (shead name) "&".
Definition isRemoteChannel (name : string) : bool :=
  negb (sempty name) && Ascii.eqb (shead name) "#".
Definition isChanName (name : string) : bool :=
  negb (sempty name) && negb (has_char " " name)
  && (isStatusChannel name || isRemoteChannel name).

(** [DCCGet]'s constructor and [IRC::createDCCGet]: opens the file and connects;
    failing either is a [DCCGetError], which [process_dcc_get] swallows. *)
Definition createDCCGet (from : nid) : M unit :=
  put (on_irc (up_i_dccs (fun l => l ++ [Dcc DGet false (Some from) None]))).

(** [Buddy::process_dcc_get]. *)
Definition process_dcc_get (n : nid) (text : string) : M bool :=
  if negb conf_file_transfers then
    b_log Log.W_ERR "File transfers are disabled on this server.";; ret true
  else
    let! r := lift (Dcc.parseDCCSEND text);
    match r with
    | None => ret false
    | Some rq =>
      let! x := get_nick n;
      let! s := get_server (nk_server x);
      match sv_kind s with
      | SIrc => ret true
      | SRemote _ =>
        let! ok := ask write_file_ok;
        (if ok (Dcc.filename rq) then createDCCGet n
         else b_log Log.W_ERR
                ("Unable to write into the upload directory '" +:+ im_user_path +:+ "/upload/'"));;
        ret true
      end
    end.

(** [Buddy::setConversation]. *)
Definition buddy_setConversation (n : nid) (c : option vid) : M unit :=
  let! ce := get_ce (RNick n);
  (match conv ce with
   | Some v =>
     let! o := ask v_nick;
     when (bool_decide (o v = Some n)) (im_call (ConvSetNick v None))
   | None => ret tt
   end);;
  let! ce := get_ce (RNick n);
  put_ce (RNick n) (CE c (enqueued ce)).

(** [Buddy::check_conv]. *)
Definition check_conv (n : nid) (b : bid) : M unit :=
  let! ce := get_ce (RNick n);
  match conv ce with
  | Some _ => ret tt
  | None =>
    im_call (ConvOpenBuddy b);;
    let! v := ask call_conv;
    im_call (ConvPresent v);;
    im_call (ConvSetNick v (Some n));;
    buddy_setConversation n (Some v)
  end.

Definition set_public (n : nid) (pub : bool) (last : Z) : M unit :=
  let! x := get_nick n;
  match nk_kind x with
  | KBuddy b _ _ ce => put_nick n (with_kind x (KBuddy b pub last ce))
  | _ => stuck "not a Buddy"
  end.

(** [m.getReceiver()] as a channel. *)
Definition receiver_chan (m : message) : M (option string) :=
  match Msg.entity (Msg.receiver m) with
  | Some (EChan c) => let! x := get_chan c; ret (Some (ch_name x))
  | _ => ret None
  end.

(** [Buddy::send]. *)
Definition buddy_send (n : nid) (b : bid) (m : message) : M unit :=
  if negb (String.eqb (Msg.cmd m) "PRIVMSG") then ret tt
  else
    let! text := lift (Msg.getArg 0 m);
    let! chan := receiver_chan m;
    let status := match chan with Some c => isStatusChannel c | None => false end in
    let! x := get_nick n;
    if bool_decide (Msg.entity (Msg.receiver m) = Some (ENick n))
       || (status && prefix_of (nk_name x +:+ ": ") text)
    then
      let! now := get (fun w => o_now (w_io w));
      set_public n status now;;
      let text := if status then (Tok.stringtok text " ").2 else text in
      let! dcc := process_dcc_get n text;
      if (dcc : bool) then ret tt
      else
        check_conv n b;;
        let! delay := ask im_send_delay;
        enqueueMessage (RNick n) text delay
    else ret tt.

(** [ChatBuddy::send]. *)
Definition chatbuddy_send (n : nid) (k : kid) (m : message) : M unit :=
  if negb (String.eqb (Msg.cmd m) "PRIVMSG") then ret tt
  else
    let! text := lift (Msg.getArg 0 m);
    if bool_decide (Msg.entity (Msg.receiver m) = Some (ENick n)) then
      let! ce := get_ce (RNick n);
      (match conv ce with
       | Some _ => ret tt
       | None =>
         im_call (ConvOpenChatBuddy k);;
         let! v := ask call_conv;
         im_call (ConvPresent v);;
         im_call (ConvSetNick v (Some n));;
         let! ce := get_ce (RNick n);
         put_ce (RNick n) (CE (Some v) (enqueued ce))
       end);;
      let! delay := ask im_send_delay;
      enqueueMessage (RNick n) text delay
    else ret tt.

(** [UnknownBuddy::send]. *)
Definition unknown_send (n : nid) (m : message) : M unit :=
  if negb (String.eqb (Msg.cmd m) "PRIVMSG") then ret tt
  else
    let! text := lift (Msg.getArg 0 m);
    let! ce := get_ce (RNick n);
    if bool_decide (Msg.entity (Msg.receiver m) = Some (ENick n))
       && match conv ce with Some _ => true | None => false end
    then
      let! delay := ask im_send_delay;
      enqueueMessage (RNick n) text delay
    else ret tt.

(** The virtual call [nick->send(m)]. *)
Definition send (n : nid) (m : message) : M unit :=
  let! x := get_nick n;
  match nk_kind x with
  | KNick => ret tt
  | KUser _ _ sockw => user_send sockw m
  | KBuddy b _ _ _ => buddy_send n b m
  | KChatBuddy k _ => chatbuddy_send n k m
  | KUnknownBuddy _ => unknown_send n m
  end.

(** [Buddy::isOnline] and the base [Nick::isOnline]; [isAway]; [getAwayMessage]. *)
Definition isOnline (x : nick) : M bool :=
  match nk_kind x with
  | KBuddy b _ _ _ => let! f := ask b_online; ret (f b)
  | _ => ret true
  end.
Definition isAway (x : nick) : M bool :=
  match nk_kind x with
  | KBuddy b _ _ _ =>
    let! on := ask b_online; let! av := ask b_available; ret (negb (on b) || negb (av b))
  | KNick | KUser _ _ _ => ret (negb (sempty (away x)))
  | _ => ret false
  end.
Definition getAwayMessage (x : nick) : M string :=
  match nk_kind x with
  | KBuddy b _ _ _ =>
    let! on := ask b_online; let! st := ask b_status;
    ret (if on b then st b else "User is offline")
  | KNick | KUser _ _ _ => ret (away x)
  | _ => ret ""
  end.
Definition getRealName (x : nick) : M string :=
  match nk_kind x with
  | KBuddy b _ _ _ =>
    let! r := ask b_realname; let! g := ask b_group;
    ret (r b +:+ " [Group: " +:+ g b +:+ "]")
  | KChatBuddy k _ => let! f := ask k_name; ret (f k)
  | KUnknownBuddy ce =>
    match conv ce with
    | Some v => let! f := ask v_name; ret (f v)
    | None => stuck "assert(isValid())"
    end
  | KNick | KUser _ _ _ => ret (realname x)
  end.
Definition getStatusMessage (x : nick) (away_ : bool) : M string :=
  match nk_kind x with
  | KBuddy b _ _ _ =>
    let! aw := isAway x;
    if negb away_ && aw then ret "" else let! st := ask b_status; ret (st b)
  | _ => ret ""
  end.
End Send.
End Send.
