(* ===== verification/Http.v ===== *)
(** plugins/lib/http.c: the connections of a handler, the requests they send, the
    answers they receive, the cookies and the names that were resolved. *)

From S2P Require Import Prelude World Nick Effects.
Local Open Scope eff_scope.

(** ** Searching texts *)
Module Find.
(** strstr and strchr. *)
Fixpoint strstr (p s : string) : option nat :=
  if prefix_of p s then Some O
  else match s with "" => None | String _ s => S <$> strstr p s end.
Definition strchr (c : ascii) (s : string) : option nat := find_if (fun x => Ascii.eqb x c) s.
End Find.

Module Http.
Import Eff Find.

Definition HTTP_METHOD_GET : Z := 1.
Definition HTTP_METHOD_POST : Z := 2.
Definition HTTP_METHOD_SSL : Z := 4.
Definition is_post (m : Z) : bool := negb (Z.land m HTTP_METHOD_POST =? 0).
Definition is_ssl (m : Z) : bool := negb (Z.land m HTTP_METHOD_SSL =? 0).
Definition CR : ascii := "013".
Definition LF : ascii := "010".
Definition CRLF : string := String CR (String LF "").

(** A request of a plugin: the arguments of [http_post_or_get]; [callback] names the
    function it gives, with its data, unless it is NULL. *)
Record request := Request {
  rq_method : Z; rq_host : option string; rq_url : string; rq_postdata : option string; rq_callback : option nat }.

(** [HttpConnection]; [rx] is [rx_buf] up to [rx_len], [fd], [connecting] (the pointer
    [connect_data]), [ssl_conn] and [input_watcher] whether they are set. *)
Record conn := Conn {
  method : Z; hostname : string; request_text : string; callback : option nat; rx : option string;
  fd : bool; connecting : bool; ssl_conn : bool; input_watcher : bool }.

Inductive ev :=
| DnsQuery (q : nat) (host : string) | DnsDestroy (q : nat)
| ProxyConnect (c : nat) (host : string) | ProxyCancel (c : nat) | SslConnect (c : nat) (host : string) | SslClose (c : nat)
| Written (c : nat) (text : string) | InputAdd (c : nat) | InputRemove (c : nat) | SslInputAdd (c : nat) | CloseFd (c : nat)
| Called (callback : nat) (data : option string) (len : nat)
| ConnectionError (text : string) | ConnectionSslError.

(** What libpurple and the kernel hold for a connection, until it is given back: the
    attempt to connect, the three callbacks of a secure connection, the watch of the
    descriptor and the descriptor; and a DNS query.  The data of all of them is a bare
    pointer to the connection, or the handler. *)
Inductive resource :=
| OnConnect (c : nat) | OnSslConnect (c : nat) | OnSslError (c : nat) | OnSslInput (c : nat)
| OnInput (c : nat) | Descriptor (c : nat) | OnLookup (q : nat).
#[export] Instance resource_eq : EqDecision resource.
Proof. solve_decision. Defined.
Definition resource_code (r : resource) : nat * nat :=
  match r with
  | OnConnect c => (0, c) | OnSslConnect c => (1, c) | OnSslError c => (2, c) | OnSslInput c => (3, c)
  | OnInput c => (4, c) | Descriptor c => (5, c) | OnLookup q => (6, q)
  end%nat.
Definition resource_decode (n : nat * nat) : resource :=
  match fst n with
  | 0 => OnConnect (snd n) | 1 => OnSslConnect (snd n) | 2 => OnSslError (snd n) | 3 => OnSslInput (snd n)
  | 4 => OnInput (snd n) | 5 => Descriptor (snd n) | _ => OnLookup (snd n)
  end%nat.
#[export] Instance resource_countable : Countable resource.
Proof. apply (inj_countable' resource_code resource_decode). by intros []. Defined.

(** [HttpHandler]: its connections in their order, with the block of each, the DNS
    queries with their host, the cookies, the addresses ([None] is a NULL one); and what
    is held outside. *)
Record st := St {
  conns : list nat; blocks : gmap nat conn; next : nat;
  dns_queries : list nat; lookups : gmap nat string;
  cookie_table : gmap string string; hostname_ip_cache : gmap string (option string);
  freed : bool; held : gset resource; trace : list ev }.
Definition M (A : Type) : Type := Eff.M st Empty_set A.

(** What the code gets from libpurple, the settings and the plugin: the requests that a
    callback makes on the handler. *)
Class HttpEnv := {
  is_proxy : bool;                              (* an HTTP proxy *)
  has_account : bool; disconnecting : list ev -> bool;
  user_agent : string; language_names : string; (* joined, with [-] for [_] *)
  listed : gmap string string -> list (string * string); (* g_hash_table_foreach *)
  calls : list ev -> nat -> option string -> nat -> list request }.

Section Http.
Context {env : HttpEnv}.

Definition up_trace (e : ev) (s : st) : st :=
  St (conns s) (blocks s) (next s) (dns_queries s) (lookups s) (cookie_table s) (hostname_ip_cache s) (freed s) (held s) (trace s ++ [e]).
Definition emit (e : ev) : M unit := Eff.put (up_trace e).
Definition up_blocks (f : gmap nat conn -> gmap nat conn) (s : st) : st :=
  St (conns s) (f (blocks s)) (next s) (dns_queries s) (lookups s) (cookie_table s) (hostname_ip_cache s) (freed s) (held s) (trace s).
Definition up_conns (f : list nat -> list nat) (s : st) : st :=
  St (f (conns s)) (blocks s) (next s) (dns_queries s) (lookups s) (cookie_table s) (hostname_ip_cache s) (freed s) (held s) (trace s).
Definition up_queries (f : list nat -> list nat) (s : st) : st :=
  St (conns s) (blocks s) (next s) (f (dns_queries s)) (lookups s) (cookie_table s) (hostname_ip_cache s) (freed s) (held s) (trace s).
Definition up_lookups (f : gmap nat string -> gmap nat string) (s : st) : st :=
  St (conns s) (blocks s) (next s) (dns_queries s) (f (lookups s)) (cookie_table s) (hostname_ip_cache s) (freed s) (held s) (trace s).
Definition up_cookies (f : gmap string string -> gmap string string) (s : st) : st :=
  St (conns s) (blocks s) (next s) (dns_queries s) (lookups s) (f (cookie_table s)) (hostname_ip_cache s) (freed s) (held s) (trace s).
Definition up_cache (f : gmap string (option string) -> gmap string (option string)) (s : st) : st :=
  St (conns s) (blocks s) (next s) (dns_queries s) (lookups s) (cookie_table s) (f (hostname_ip_cache s)) (freed s) (held s) (trace s).
Definition up_held (f : gset resource -> gset resource) (s : st) : st :=
  St (conns s) (blocks s) (next s) (dns_queries s) (lookups s) (cookie_table s) (hostname_ip_cache s) (freed s) (f (held s)) (trace s).
Definition take (l : list resource) : M unit := Eff.put (up_held (fun h => h ∪ list_to_set l)).
Definition give_back (l : list resource) : M unit := Eff.put (up_held (fun h => h ∖ list_to_set l)).

(** The calls of libpurple: each one starts or stops the callbacks it documents. *)
Definition purple_proxy_connect (c : nat) (host : string) : M unit := take [OnConnect c];; emit (ProxyConnect c host).
Definition purple_proxy_connect_cancel (c : nat) : M unit := give_back [OnConnect c];; emit (ProxyCancel c).
Definition purple_ssl_connect (c : nat) (host : string) : M unit :=
  take [OnSslConnect c; OnSslError c];; emit (SslConnect c host).
Definition purple_ssl_input_add (c : nat) : M unit := take [OnSslInput c];; emit (SslInputAdd c).
Definition purple_ssl_close (c : nat) : M unit :=
  give_back [OnSslConnect c; OnSslError c; OnSslInput c];; emit (SslClose c).
Definition purple_input_add (c : nat) : M unit := take [OnInput c];; emit (InputAdd c).
Definition purple_input_remove (c : nat) : M unit := give_back [OnInput c];; emit (InputRemove c).
Definition purple_dnsquery (q : nat) (host : string) : M unit := take [OnLookup q];; emit (DnsQuery q host).
Definition purple_dnsquery_destroy (q : nat) : M unit := give_back [OnLookup q];; emit (DnsDestroy q).
Definition close_fd (c : nat) : M unit := give_back [Descriptor c];; emit (CloseFd c).

(** A pointer to the handler. *)
Definition get_handler : M unit := eff! f := Eff.get freed; if f then crash "freed HttpHandler" else ret tt.
Definition new_id : M nat :=
  eff! n := Eff.get next;
  Eff.put (fun s => St (conns s) (blocks s) (S n) (dns_queries s) (lookups s) (cookie_table s) (hostname_ip_cache s) (freed s) (held s) (trace s));;
  ret n.
(** A pointer to a connection. *)
Definition get_conn (c : nat) : M conn := eff! b := Eff.get blocks; deref "HttpConnection" (b !! c).
Definition put_conn (c : nat) (x : conn) : M unit := Eff.put (up_blocks (insert c x)).

Definition http_handler_new : st := St [] ∅ 0 [] ∅ ∅ ∅ false ∅ [].

Definition http_connection_destroy (c : nat) : M unit :=
  eff! x := get_conn c;
  get_handler;;
  Eff.put (up_conns (List.filter (fun d => negb (d =? c)%nat)));;
  when (connecting x) (purple_proxy_connect_cancel c);;
  when (ssl_conn x) (purple_ssl_close c);;
  when (fd x) (close_fd c);;
  when (input_watcher x) (purple_input_remove c);;
  Eff.put (up_blocks (base.delete c)).
(** The loops run once for each connection and each query. *)
Definition http_handler_free : M unit :=
  eff! l := Eff.get conns;
  mapM_ http_connection_destroy l;;
  eff! q := Eff.get dns_queries;
  mapM_ (fun i => Eff.put (up_queries (List.filter (fun d => negb (d =? i)%nat)));;
                  purple_dnsquery_destroy i) q;;
  Eff.put (fun s => St (conns s) (blocks s) (next s) (dns_queries s) (lookups s) ∅ ∅ true (held s) (trace s)).

(** ** Cookies *)
Definition set_cookie : string := CRLF +:+ "Set-Cookie: ".
(** The cookies of the headers, in their order; [None] is [g_strndup] with the distance
    to a NULL pointer, which no memory has. *)
Fixpoint cookies_of (fuel : nat) (headers : string) : option (list (string * string)) :=
  match fuel with
  | O => Some []
  | S fuel =>
    match strstr set_cookie headers with
    | None => Some []
    | Some i =>
      let start := sdrop (i + 14) headers in
      match strchr "=" start with
      | None => None
      | Some j =>
        let value := sdrop (j + 1) start in
        match strchr ";" value with
        | None => None
        | Some k => cons (stake j start, stake k value) <$> cookies_of fuel (sdrop k value)
        end
      end
    end
  end.
Definition http_update_cookies (headers : string) : M unit :=
  match cookies_of (slen headers) headers with
  | None => crash "g_strndup"
  | Some l => mapM_ (fun kv => Eff.put (up_cookies (insert (fst kv) (snd kv)))) l
  end.
Definition http_cookies_to_string (m : gmap string string) : string :=
  foldr (fun kv s => fst kv +:+ "=" +:+ snd kv +:+ ";" +:+ s) "" (listed m).

(** ** Requests *)
Definition request_of (method : Z) (host real_url : string) (cookies : string) (postdata : option string) : string :=
  (if is_post method then "POST" else "GET") +:+ " " +:+ real_url +:+ " HTTP/1.0" +:+ CRLF
  +:+ "Host: " +:+ host +:+ CRLF
  +:+ "Connection: close" +:+ CRLF
  +:+ "User-Agent: " +:+ user_agent +:+ CRLF
  +:+ (if is_post method
       then "Content-Type: application/x-www-form-urlencoded" +:+ CRLF
            +:+ "Content-length: " +:+ t2s (Z.of_nat (slen (default "" postdata))) +:+ CRLF
       else "")
  +:+ "Accept: */*" +:+ CRLF
  +:+ "Referer: http://" +:+ host +:+ real_url +:+ "/" +:+ CRLF
  +:+ "Cookie: " +:+ cookies +:+ CRLF
  +:+ "Accept-Language: " +:+ language_names +:+ CRLF
  +:+ CRLF
  +:+ (if is_post method then default "" postdata else "").

(** [http_host_lookup_cb]: the addresses of the hosts, [None] the one that is 0.  Its
    data, which a query that is cancelled leaves behind, holds the handler. *)
Definition http_host_lookup_cb (q : nat) (error : bool) (hosts : list (option string)) : M unit :=
  eff! l := Eff.get lookups;
  match l !! q with
  | None => crash "host_lookup_list"
  | Some host =>
    get_handler;;
    Eff.put (up_queries (List.filter (fun d => negb (d =? q)%nat)));;
    Eff.put (up_lookups (base.delete q));;
    if error then ret tt
    else match hosts with
         | [] => ret tt
         | _ => Eff.put (up_cache (insert host (List.hd_error (omap id hosts))))
         end
  end.
Definition lookup_host (host : string) : M string :=
  eff! cache := Eff.get hostname_ip_cache;
  match cache !! host with
  | Some (Some ip) => ret ip
  | _ =>
    eff! d := Eff.get (fun s => disconnecting (trace s));
    if has_account && negb d then
      eff! q := new_id;
      purple_dnsquery q host;;
      Eff.put (up_lookups (insert q host));;
      Eff.put (up_queries (cons q));;
      ret host
    else ret host
  end.
Definition http_attempt_connection (c : nat) : M unit :=
  eff! x := get_conn c;
  if is_ssl (method x) then
    put_conn c (Conn (method x) (hostname x) (request_text x) (callback x) (rx x) (fd x) (connecting x) true (input_watcher x));;
    purple_ssl_connect c (hostname x)
  else
    put_conn c (Conn (method x) (hostname x) (request_text x) (callback x) (rx x) (fd x) true (ssl_conn x) (input_watcher x));;
    purple_proxy_connect c (hostname x).
Definition http_post_or_get (r : request) : M unit :=
  get_handler;;
  let host := default "linuxfr.org" (rq_host r) in
  let real_url := if is_proxy then "http://" +:+ host +:+ rq_url r else rq_url r in
  eff! cookies := Eff.get (fun s => http_cookies_to_string (cookie_table s));
  if is_post (rq_method r) && bool_decide (rq_postdata r = None) then crash "strlen(NULL)"
  else
    let text := request_of (rq_method r) host real_url cookies (rq_postdata r) in
    eff! host := (if negb is_proxy then lookup_host host else ret host);
    eff! c := new_id;
    put_conn c (Conn (rq_method r) host text (rq_callback r) None false false false false);;
    Eff.put (up_conns (cons c));;
    http_attempt_connection c.

(** ** Answers *)

(** [http_connection_process_data]: what it gives the callback. *)
Definition split_answer (buf : string) : option (string * string) :=
  (fun i => (stake (i + 4) buf, sdrop (i + 4) buf)) <$> strstr (CRLF +:+ CRLF) (Names.c_str buf).
Fixpoint zeros (n : nat) : string := match n with O => "" | S n => String "000" (zeros n) end.
Definition http_connection_process_data (c : nat) : M unit :=
  eff! x := get_conn c;
  let len := slen (default "" (rx x)) in
  eff! r :=
    match rx x with
    | None => ret (None, 0%nat)
    | Some buf =>
      match split_answer buf with
      | None => ret (Some (Names.c_str buf +:+ zeros (len - slen (Names.c_str buf))), len)
      | Some (headers, body) => http_update_cookies headers;; ret (Some body, slen body)
      end
    end;
  put_conn c (Conn (method x) (hostname x) (request_text x) (callback x) None (fd x) (connecting x) (ssl_conn x) (input_watcher x));;
  match callback x with
  | None => ret tt
  | Some cb =>
    emit (Called cb (fst r) (snd r));;
    eff! rs := Eff.get (fun s => calls (trace s) cb (fst r) (snd r));
    mapM_ http_post_or_get rs
  end.
Definition http_fatal_connection_cb (c : nat) : M unit :=
  http_connection_destroy c;; emit (ConnectionError "Server closed the connection.").

(** What reading gives: data, the end, EAGAIN and the like, another error. *)
Inductive read := RData (s : string) | REof | RAgain | RError.
Definition is_error (r : read) : bool := match r with RError => true | _ => false end.
Definition http_post_or_get_readdata_cb (c : nat) (r : read) : M unit :=
  eff! x := get_conn c;
  match r with
  | RAgain => ret tt
  | RData (String _ _ as d) =>
    put_conn c (Conn (method x) (hostname x) (request_text x) (callback x) (Some (default "" (rx x) +:+ d)) (fd x) (connecting x) (ssl_conn x) (input_watcher x))
  | _ =>
    if is_error r && negb (is_ssl (method x) && negb (sempty (default "" (rx x))))
    then http_fatal_connection_cb c
    else http_connection_process_data c;; http_connection_destroy c
  end.
(** What writing the request gives: a number of bytes, EAGAIN, another error. *)
Inductive write := WBytes (n : nat) | WAgain | WError.
Definition http_post_or_get_connect_cb (c : nat) (error : bool) (w : write) : M unit :=
  eff! x := get_conn c;
  put_conn c (Conn (method x) (hostname x) (request_text x) (callback x) (rx x) (fd x) false (ssl_conn x) (input_watcher x));;
  if error then http_fatal_connection_cb c
  else
    put_conn c (Conn (method x) (hostname x) (request_text x) (callback x) (rx x) true false (ssl_conn x) (input_watcher x));;
    take [Descriptor c];;
    match w with
    | WAgain => ret tt
    | WError | WBytes O => http_fatal_connection_cb c
    | WBytes n =>
      emit (Written c (stake n (request_text x)));;
      put_conn c (Conn (method x) (hostname x) (request_text x) (callback x) (rx x) true false (ssl_conn x) true);;
      purple_input_add c
    end.
Definition http_post_or_get_ssl_connect_cb (c : nat) (w : write) : M unit :=
  eff! x := get_conn c;
  match w with
  | WAgain => ret tt
  | WError | WBytes O => http_fatal_connection_cb c
  | WBytes n => emit (Written c (stake n (request_text x)));; purple_ssl_input_add c
  end.
Definition http_ssl_connection_error (c : nat) : M unit :=
  eff! x := get_conn c;
  put_conn c (Conn (method x) (hostname x) (request_text x) (callback x) (rx x) (fd x) (connecting x) false (input_watcher x));;
  http_connection_destroy c;;
  emit ConnectionSslError.

(** ** What the main loop delivers: whatever is registered *)
Inductive event :=
| Connected (c : nat) (error : bool) (w : write) | SslConnected (c : nat) (w : write) | SslFailed (c : nat)
| Readable (c : nat) (r : read) | SslReadable (c : nat) (r : read)
| Resolved (q : nat) (error : bool) (hosts : list (option string))
| Asked (r : request).
(** The callback that runs for an event; a plugin asks while it has its handler. *)
Definition source (e : event) : option resource :=
  match e with
  | Connected c _ _ => Some (OnConnect c)
  | SslConnected c _ => Some (OnSslConnect c)
  | SslFailed c => Some (OnSslError c)
  | Readable c _ => Some (OnInput c)
  | SslReadable c _ => Some (OnSslInput c)
  | Resolved q _ _ => Some (OnLookup q)
  | Asked _ => None
  end.
(** It does not depend on what the connection has become. *)
Definition waits (s : st) (e : event) : bool :=
  match source e with Some r => bool_decide (r ∈ held s) | None => negb (freed s) end.
(** What libpurple lets go of when it runs the callback: an attempt, which ends once; a
    secure connection that failed, which it frees. *)
Definition ends (e : event) : list resource :=
  match e with
  | Connected c _ _ => [OnConnect c]
  | SslConnected c _ => [OnSslConnect c]
  | SslFailed c => [OnSslConnect c; OnSslError c; OnSslInput c]
  | Resolved q _ _ => [OnLookup q]
  | Readable _ _ | SslReadable _ _ | Asked _ => []
  end.
Definition handle (e : event) : M unit :=
  match e with
  | Connected c err w => http_post_or_get_connect_cb c err w
  | SslConnected c w => http_post_or_get_ssl_connect_cb c w
  | SslFailed c => http_ssl_connection_error c
  | Readable c r | SslReadable c r => http_post_or_get_readdata_cb c r
  | Resolved q err l => http_host_lookup_cb q err l
  | Asked r => http_post_or_get r
  end.
Definition deliver (e : event) : M unit :=
  eff! b := Eff.get (fun s => waits s e); when b (give_back (ends e);; handle e).
End Http.
End Http.
