(* ===== verification/HttpProps.v ===== *)
(** What the connections of the plugins promise: no event makes a connection that is
    destroyed be used, a handler that is freed has released everything, an answer is
    given to the callback without its headers, and a request can be read back. *)

From S2P Require Import Prelude World Nick Effects Http.
Local Open Scope eff_scope.
Import Eff Find Http.

(** ** Safety *)
Module HttpP.
Section HttpP.
Context {env : HttpEnv}.

(** [ok m Q s]: from [s], [m] ends in [Q], unless a cookie cannot be read, when [B]
    lets that happen. *)
Context (B : Prop).
Definition ok {A} (m : M A) (Q : A -> st -> Prop) (s : st) : Prop :=
  match m s with
  | (s', Done a) => Q a s'
  | (_, Raise e) => False
  | (_, Crash w) => B /\ w = "g_strndup"
  end.
Lemma ok_bind {A C} (m : M A) (k : A -> M C) Q s : ok m (fun a s' => ok (k a) Q s') s -> ok (bind m k) Q s.
Proof. unfold ok, bind. by destruct (m s) as [s' [a|e|w]]. Qed.
Lemma ok_mono {A} (m : M A) (Q Q' : A -> st -> Prop) s : ok m Q s -> (forall a s', Q a s' -> Q' a s') -> ok m Q' s.
Proof. unfold ok. destruct (m s) as [s' [a|e|w]]; auto. Qed.
Lemma ok_ret {A} (a : A) (Q : A -> st -> Prop) s : Q a s -> ok (ret a) Q s.
Proof. done. Qed.
Lemma ok_get {A} (f : st -> A) (Q : A -> st -> Prop) s : Q (f s) s -> ok (Eff.get f) Q s.
Proof. done. Qed.
Lemma ok_put f (Q : unit -> st -> Prop) s : Q tt (f s) -> ok (Eff.put f) Q s.
Proof. done. Qed.
Lemma ok_when (b : bool) (m : M unit) Q s : (b = true -> ok m Q s) -> (b = false -> Q tt s) -> ok (when b m) Q s.
Proof. intros H1 H2. destruct b; [by apply H1|by apply (H2 eq_refl)]. Qed.
Lemma ok_mapM_ {A} (f : A -> M unit) l (I : st -> Prop) s :
  I s -> (forall a s, a ∈ l -> I s -> ok (f a) (fun _ => I) s) -> ok (mapM_ f l) (fun _ => I) s.
Proof.
  revert s. induction l as [|a l IH]; intros s Hs Hf; [done|]. cbn [mapM_]. apply ok_bind.
  eapply ok_mono; [apply Hf; [left|done]|]. intros [] s' Hs'. apply IH; [done|].
  intros b s0 Hb H0. apply Hf; [by right|done].
Qed.

(** Who a resource points to, and the field that says it is held. *)
Definition owner (r : resource) : option nat :=
  match r with
  | OnConnect c | OnSslConnect c | OnSslError c | OnSslInput c | OnInput c | Descriptor c => Some c
  | OnLookup _ => None
  end.
Definition flag (r : resource) (x : conn) : bool :=
  match r with
  | OnConnect _ => connecting x
  | OnSslConnect _ | OnSslError _ | OnSslInput _ => ssl_conn x
  | OnInput _ => input_watcher x
  | Descriptor _ => fd x
  | OnLookup _ => true
  end.
Definition backed (b : gmap nat conn) (r : resource) : Prop :=
  forall c, owner r = Some c -> exists x, b !! c = Some x /\ flag r x = true.

(** The list of the connections is the blocks that are allocated; what is held outside
    belongs to one of them, which knows it, or is a query that is listed; a handler that
    is freed has none. *)
Record inv (s : st) : Prop := {
  v_nodup : NoDup (conns s);
  v_conns c : c ∈ conns s <-> is_Some (blocks s !! c);
  v_fresh c : is_Some (blocks s !! c) -> (c < next s)%nat;
  v_held r : r ∈ held s -> backed (blocks s) r;
  v_input c x : blocks s !! c = Some x -> input_watcher x = true -> OnInput c ∈ held s;
  v_queries q : q ∈ dns_queries s <-> OnLookup q ∈ held s;
  v_lookup q : OnLookup q ∈ held s -> is_Some (lookups s !! q);
  v_freed : freed s = true -> conns s = [] /\ dns_queries s = [] }.
Arguments v_nodup {s}. Arguments v_conns {s}. Arguments v_fresh {s}. Arguments v_queries {s}.
Arguments v_held {s}. Arguments v_input {s}. Arguments v_lookup {s}. Arguments v_freed {s}.
Lemma handler_inv_new : inv http_handler_new.
Proof.
  split; cbn; intros *; rewrite ?lookup_empty, ?elem_of_nil; try set_solver; try done.
  - constructor.
Qed.
(** Nothing of the connections went. *)
Definition grows (s s' : st) : Prop :=
  inv s' /\ freed s' = freed s /\ forall c, is_Some (blocks s !! c) -> is_Some (blocks s' !! c).
Lemma grows_refl s : inv s -> grows s s.
Proof. by split. Qed.
Lemma grows_then s1 s2 s3 : grows s1 s2 -> grows s2 s3 -> grows s1 s3.
Proof. intros (?&?&?) (?&?&?). split; [done|]. split; [congruence|auto]. Qed.
Lemma inv_trace e s : inv s -> inv (up_trace e s).
Proof. intros []. by split. Qed.
Lemma grows_emit e s : inv s -> ok (emit e) (fun _ => grows s) s.
Proof. intros H. apply ok_put. split; [by apply inv_trace|done]. Qed.
(** A connection changes and keeps what it needs to know. *)
Lemma inv_insert c x x' s : inv s -> blocks s !! c = Some x ->
  (forall r, r ∈ held s -> owner r = Some c -> flag r x = true -> flag r x' = true) ->
  (input_watcher x' = true -> OnInput c ∈ held s) -> inv (up_blocks (insert c x') s).
Proof.
  intros H Hc Hr Hw.
  assert (G : forall d, is_Some (<[c := x']> (blocks s) !! d) <-> is_Some (blocks s !! d)).
  { intros d. rewrite lookup_insert_is_Some. split; [intros [<-|[_ ?]]; [by eexists|done]|]. destruct (decide (c = d)); auto. }
  split; cbn; try apply H.
  - intros d. rewrite G. apply H.
  - intros d. rewrite G. apply H.
  - intros r Hrs d Hd. destruct (v_held H r Hrs d Hd) as (y & Hy & Hf). destruct (decide (c = d)) as [<-|Hne].
    + exists x'. rewrite lookup_insert_eq. split; [done|]. apply Hr; [done..|]. congruence.
    + exists y. by rewrite lookup_insert_ne.
  - intros d y. destruct (decide (c = d)) as [<-|Hne].
    + rewrite lookup_insert_eq. by intros [= <-].
    + rewrite lookup_insert_ne by done. apply (v_input H).
Qed.
Lemma grows_put c x x' s : inv s -> blocks s !! c = Some x ->
  (forall r, r ∈ held s -> owner r = Some c -> flag r x = true -> flag r x' = true) ->
  (input_watcher x' = true -> OnInput c ∈ held s) ->
  ok (put_conn c x') (fun _ s' => grows s s' /\ blocks s' !! c = Some x' /\ held s' = held s) s.
Proof.
  intros H Hc Hr Hw. apply ok_put. split; [|split; [apply lookup_insert_eq|done]].
  split; [by eapply inv_insert|]. split; [done|]. cbn. intros d ?.
  apply lookup_insert_is_Some. destruct (decide (c = d)); auto.
Qed.
(** The same fields, or more of them. *)
Definition more (x x' : conn) : Prop :=
  (connecting x = true -> connecting x' = true) /\ (ssl_conn x = true -> ssl_conn x' = true)
  /\ (fd x = true -> fd x' = true) /\ input_watcher x' = input_watcher x.
Lemma grows_more c x x' s : inv s -> blocks s !! c = Some x -> more x x' ->
  ok (put_conn c x') (fun _ s' => grows s s' /\ blocks s' !! c = Some x' /\ held s' = held s) s.
Proof.
  intros H Hc (H1 & H2 & H3 & H4). apply (grows_put c x); [done|done| |].
  - intros [] _ _ Hf; cbn in *; auto. by rewrite H4.
  - rewrite H4. by apply (v_input H).
Qed.
(** Holding more for a connection that knows it. *)
Lemma inv_take l s : inv s -> (forall r, r ∈ l -> (exists c, owner r = Some c) /\ backed (blocks s) r) ->
  inv (up_held (fun h => h ∪ list_to_set l) s).
Proof.
  intros H Hl.
  assert (Q : forall q, OnLookup q ∈ held s ∪ list_to_set l <-> OnLookup q ∈ held s).
  { intros q. rewrite elem_of_union, elem_of_list_to_set. split; [|by left]. intros [?|Hq]; [done|].
    by destruct (Hl _ Hq) as [[c Hc] _]. }
  split; cbn; try apply H.
  - intros r [Hr|Hr]%elem_of_union; [by apply (v_held H)|]. apply Hl. by apply elem_of_list_to_set in Hr.
  - intros c x Hx Hw. apply elem_of_union. left. by eapply (v_input H).
  - intros q. rewrite Q. apply (v_queries H).
  - intros q. rewrite Q. apply (v_lookup H).
Qed.
Lemma grows_take l e s : inv s -> (forall r, r ∈ l -> (exists c, owner r = Some c) /\ backed (blocks s) r) ->
  ok (take l;; emit e) (fun _ => grows s) s.
Proof.
  intros H Hl. apply ok_bind, ok_put, ok_put. split; [by apply inv_trace, inv_take|]. split; [done|]. auto.
Qed.
(** An attempt that ends, or a secure connection that failed. *)
Lemma inv_ends l s : inv s -> (forall q, OnLookup q ∉ l) -> (forall c, OnInput c ∉ l) ->
  inv (up_held (fun h => h ∖ list_to_set l) s).
Proof.
  intros H Hq Hw.
  assert (Q : forall q, OnLookup q ∈ held s ∖ list_to_set l <-> OnLookup q ∈ held s).
  { intros q. rewrite elem_of_difference, elem_of_list_to_set. naive_solver. }
  split; cbn; try apply H.
  - intros r [Hr _]%elem_of_difference. by apply (v_held H).
  - intros c x Hx Hx'. apply elem_of_difference. split; [by eapply (v_input H)|]. rewrite elem_of_list_to_set. auto.
  - intros q. rewrite Q. apply (v_queries H).
  - intros q. rewrite Q. apply (v_lookup H).
Qed.
Lemma ok_conn c (Q : conn -> st -> Prop) s x : blocks s !! c = Some x -> Q x s -> ok (get_conn c) Q s.
Proof. intros H HQ. unfold ok, get_conn, bind, Eff.get, deref. by rewrite H. Qed.
Lemma ok_handler Q s : freed s = false -> Q tt s -> ok get_handler Q s.
Proof. intros H HQ. apply ok_bind, ok_get. by rewrite H. Qed.
Lemma elem_of_purge c d (l : list nat) : d ∈ List.filter (fun d => negb (d =? c)%nat) l <-> d ∈ l /\ d <> c.
Proof. rewrite !list_elem_of_In, List.filter_In, negb_true_iff, Nat.eqb_neq. done. Qed.
Lemma not_freed c s : inv s -> is_Some (blocks s !! c) -> freed s = false.
Proof.
  intros H Hc%(v_conns H). destruct (freed s) eqn:E; [|done]. destruct (v_freed H E) as [Hn _].
  rewrite Hn in Hc. by apply elem_of_nil in Hc.
Qed.

(** Destroying a connection. *)
Definition without (c : nat) (s s' : st) : Prop :=
  inv s' /\ freed s' = freed s /\ conns s' = List.filter (fun d => negb (d =? c)%nat) (conns s)
  /\ dns_queries s' = dns_queries s.
(** What is left in a state but for what was given back. *)
Definition rest (l : list resource) (s s' : st) : Prop :=
  conns s' = conns s /\ blocks s' = blocks s /\ next s' = next s /\ dns_queries s' = dns_queries s
  /\ lookups s' = lookups s /\ freed s' = freed s /\ forall r, r ∈ held s' <-> r ∈ held s /\ r ∉ l.
Lemma ok_back (b : bool) l e k s0 s :
  rest k s0 s -> ok (when b (give_back l;; emit e)) (fun _ => rest (k ++ if b then l else []) s0) s.
Proof.
  intros (H1 & H2 & H3 & H4 & H5 & H6 & H7). destruct b; cbn [when]; [|by rewrite app_nil_r].
  apply ok_bind, ok_put, ok_put. split_and!; try done. intros r. cbn.
  rewrite elem_of_difference, elem_of_list_to_set, H7, elem_of_app. tauto.
Qed.
Lemma ok_destroy c s : inv s -> is_Some (blocks s !! c) -> ok (http_connection_destroy c) (fun _ => without c s) s.
Proof.
  intros H [x Hx]. unfold http_connection_destroy. apply ok_bind. eapply ok_conn; [done|].
  apply ok_bind, ok_handler; [apply (not_freed c); eauto|]. apply ok_bind, ok_put. set (s0 := up_conns _ s).
  assert (R : rest [] s0 s0).
  { split_and!; try done. intros r. split; [|by intros []]. split; [done|]. by intros ?%elem_of_nil. }
  apply ok_bind. eapply ok_mono; [apply ok_back, R|]. intros [] s1 R1.
  apply ok_bind. eapply ok_mono; [apply ok_back, R1|]. intros [] s2 R2.
  apply ok_bind. eapply ok_mono; [apply ok_back, R2|]. intros [] s3 R3.
  apply ok_bind. eapply ok_mono; [apply ok_back, R3|]. intros [] s4 (Hc & Hb & Hn & Hq & Hl & Hf & Hh).
  apply ok_put. split; [|cbn; rewrite Hf, Hc, Hq; done]. cbn [s0 up_conns conns blocks next dns_queries lookups freed held] in *.
  assert (Hr : forall r, r ∈ held s4 -> r ∈ held s /\ owner r <> Some c).
  { intros r [Hr Hk]%Hh. split; [done|]. intros Ho. destruct (v_held H r Hr c Ho) as (y & Hy & Hfl).
    assert (y = x) as -> by congruence. apply Hk. cbn [app]. rewrite !elem_of_app.
    destruct r; cbn in Ho, Hfl; try done; injection Ho as ->; rewrite Hfl, ?elem_of_cons; tauto. }
  assert (Hr' : forall r, r ∈ held s -> owner r <> Some c -> r ∈ held s4).
  { intros r Hrs Ho. apply Hh. split; [done|]. cbn [app]. rewrite !elem_of_app.
    intros [[[Hk|Hk]|Hk]|Hk]; case_match; try (by apply elem_of_nil in Hk); rewrite ?elem_of_cons, ?elem_of_nil in Hk;
      naive_solver. }
  split; cbn; rewrite ?Hc, ?Hb, ?Hn, ?Hq, ?Hl, ?Hf.
  - apply NoDup_ListNoDup, List.NoDup_filter, NoDup_ListNoDup, (v_nodup H).
  - intros d. rewrite elem_of_purge, lookup_delete_is_Some, (v_conns H). naive_solver.
  - intros d [_ Hd]%lookup_delete_is_Some. by apply (v_fresh H).
  - intros r [Hrs Ho]%Hr d Hd. destruct (v_held H r Hrs d Hd) as (y & Hy & Hfl). exists y.
    rewrite lookup_delete_ne; [done|congruence].
  - intros d y [Hne Hy]%lookup_delete_Some Hw. apply Hr'; [by eapply (v_input H)|]. cbn. congruence.
  - intros q. rewrite (v_queries H). split; [intros ?; by apply Hr'|by intros [? _]%Hr].
  - intros q [Hrs _]%Hr. by apply (v_lookup H).
  - intros Hfr. destruct (v_freed H Hfr) as [-> ->]. done.
Qed.

(** Asking: a new connection, and maybe a query. *)
Lemma ok_lookup host s : inv s -> freed s = false -> ok (lookup_host host) (fun _ => grows s) s.
Proof.
  intros H Hf. unfold lookup_host. apply ok_bind, ok_get.
  assert (G : ok (eff! d := Eff.get (fun s => disconnecting (trace s));
    if has_account && negb d then
      eff! q := new_id; purple_dnsquery q host;; Eff.put (up_lookups (insert q host));;
      Eff.put (up_queries (cons q));; ret host
    else ret host) (fun _ => grows s) s).
  { apply ok_bind, ok_get. destruct (has_account && _); [|by apply ok_ret, grows_refl].
    apply ok_bind. unfold new_id. apply ok_bind, ok_get, ok_bind, ok_put, ok_ret, ok_bind, ok_bind, ok_put, ok_put,
      ok_bind, ok_put, ok_bind, ok_put, ok_ret. split; [|done]. split; cbn.
    - apply (v_nodup H).
    - apply (v_conns H).
    - intros c Hc%(v_fresh H). lia.
    - intros r [Hr|Hr]%elem_of_union; [by apply (v_held H)|].
      by assert (r = OnLookup (next s)) as -> by set_solver.
    - intros c x Hx Hw. apply elem_of_union. left. by eapply (v_input H).
    - intros q. rewrite elem_of_cons, (v_queries H). set_solver.
    - intros q [Hq%(v_lookup H)|Hq]%elem_of_union.
      + apply lookup_insert_is_Some. destruct (decide (next s = q)); auto.
      + assert (q = next s) as -> by set_solver. rewrite lookup_insert_eq. by eexists.
    - congruence. }
  destruct (hostname_ip_cache s !! host) as [[ip|]|]; [by apply ok_ret, grows_refl|done|done].
Qed.
(** A request of a plugin has a text to post when it posts. *)
Definition good_request (r : request) : Prop := is_post (rq_method r) = true -> rq_postdata r <> None.
Lemma ok_ask r s : inv s -> freed s = false -> good_request r -> ok (http_post_or_get r) (fun _ => grows s) s.
Proof.
  intros H Hf Hr. unfold http_post_or_get. apply ok_bind, ok_handler; [done|]. apply ok_bind, ok_get.
  destruct (is_post (rq_method r) && bool_decide (rq_postdata r = None)) eqn:E.
  { apply andb_true_iff in E as [E1 E2%bool_decide_eq_true]. by destruct (Hr E1). }
  apply ok_bind. eapply (ok_mono _ (fun _ => grows s)).
  { destruct (negb is_proxy); [by apply ok_lookup|by apply ok_ret, grows_refl]. }
  intros host s1 G1. destruct G1 as (H1 & Hf1 & Hg1).
  unfold new_id. apply ok_bind, ok_bind, ok_get, ok_bind, ok_put, ok_ret, ok_bind, ok_put, ok_bind, ok_put.
  set (c := next s1). set (x := Conn _ _ _ _ _ _ _ _ _).
  set (s2 := up_conns (cons c) _).
  assert (H2 : inv s2 /\ blocks s2 !! c = Some x /\ freed s2 = freed s1 /\ forall d, is_Some (blocks s1 !! d) -> is_Some (blocks s2 !! d)).
  { split; [|split; [apply lookup_insert_eq|split; [done|]]].
    - assert (Hn : blocks s1 !! c = None).
      { apply eq_None_not_Some. intros Hs%(v_fresh H1). unfold c in Hs. lia. }
      split; cbn.
      + apply NoDup_cons. split; [|apply (v_nodup H1)]. rewrite (v_conns H1), Hn. by intros [? ?].
      + intros d. rewrite elem_of_cons, lookup_insert_is_Some, (v_conns H1). destruct (decide (c = d)); naive_solver.
      + intros d [<-|[_ Hd%(v_fresh H1)]]%lookup_insert_is_Some; unfold c; lia.
      + intros k Hk d Hd. destruct (v_held H1 k Hk d Hd) as (y & Hy & Hfl). exists y.
        rewrite lookup_insert_ne; [done|congruence].
      + intros d y [[<- <-]|[_ Hy]]%lookup_insert_Some; [done|]. by apply (v_input H1).
      + apply (v_queries H1).
      + apply (v_lookup H1).
      + congruence.
    - intros d Hd. cbn. apply lookup_insert_is_Some. destruct (decide (c = d)); auto. }
  destruct H2 as (H2 & Hx & Hf2 & Hg2). unfold http_attempt_connection. apply ok_bind. eapply ok_conn; [exact Hx|].
  assert (G2 : grows s s2) by (split; [done|]; split; [congruence|auto]).
  destruct (is_ssl _); (apply ok_bind; eapply ok_mono; [by eapply grows_more|]; intros [] s3 (G3 & Hx3 & _);
    eapply ok_mono; [apply grows_take; [apply G3|]|intros [] s4 G4; do 2 (eapply grows_then; [done|]); done]).
  - intros k Hl. assert (owner k = Some c) as Ho by (rewrite !elem_of_cons, elem_of_nil in Hl; naive_solver).
    split; [by eexists|]. intros d Hd. assert (d = c) as -> by congruence. eexists. split; [done|].
    rewrite !elem_of_cons, elem_of_nil in Hl. naive_solver.
  - intros k ->%list_elem_of_singleton. split; [by eexists|]. intros d [= <-]. by eexists.
Qed.
Lemma ok_asks l s : inv s -> freed s = false -> Forall good_request l -> ok (mapM_ http_post_or_get l) (fun _ => grows s) s.
Proof.
  intros H Hf Hl. apply (ok_mapM_ _ _ (grows s)); [by apply grows_refl|]. intros r s' Hr G.
  rewrite Forall_forall in Hl. eapply ok_mono; [apply ok_ask; [apply G|destruct G as (_ & -> & _); done|by apply Hl]|].
  intros [] s'' G'. by eapply grows_then.
Qed.
Lemma ok_cookies h s : (cookies_of (slen h) h = None -> B) -> inv s ->
  ok (http_update_cookies h) (fun _ s' => grows s s' /\ blocks s' = blocks s) s.
Proof.
  intros HB H. unfold http_update_cookies. destruct (cookies_of _ h) as [l|]; [|split; [by apply HB|done]].
  apply (ok_mapM_ _ _ (fun s' => grows s s' /\ blocks s' = blocks s)); [split; [by apply grows_refl|done]|].
  intros kv s' _ [G Hb]. apply ok_put. split; [|done]. eapply grows_then; [done|]. destruct G as [[] _]. by split.
Qed.
(** The plugins ask well. *)
Context (asks_well : forall t cb data len, Forall good_request (calls t cb data len)) (may : B).
Lemma ok_process c s : inv s -> is_Some (blocks s !! c) -> ok (http_connection_process_data c) (fun _ => grows s) s.
Proof.
  intros H [x Hx]. unfold http_connection_process_data. apply ok_bind. eapply ok_conn; [done|]. apply ok_bind.
  eapply (ok_mono _ (fun _ s' => grows s s' /\ blocks s' !! c = Some x)).
  { destruct (rx x) as [buf|]; [|apply ok_ret; split; [by apply grows_refl|done]].
    destruct (split_answer buf) as [[h b]|]; [|apply ok_ret; split; [by apply grows_refl|done]].
    apply ok_bind. eapply ok_mono; [by apply ok_cookies|]. intros [] s' [G Hb]. apply ok_ret. split; [done|congruence]. }
  intros [data len] s1 [G1 Hx1]. apply ok_bind.
  eapply ok_mono; [eapply grows_more; [apply G1|done|by split_and!]|]. intros [] s2 (G2 & _).
  destruct (callback x) as [cb|]; [|apply ok_ret; by eapply grows_then]. apply ok_bind.
  eapply ok_mono; [apply grows_emit, G2|]. intros [] s3 G3. apply ok_bind, ok_get.
  assert (Hf : freed s3 = false).
  { destruct G1 as (_ & F1 & _), G2 as (_ & F2 & _), G3 as (_ & F3 & _). rewrite F3, F2, F1.
    apply (not_freed c); [done|eauto]. }
  eapply ok_mono; [apply ok_asks; [apply G3|done|apply asks_well]|]. intros [] s4 G4.
  do 3 (eapply grows_then; [done|]). done.
Qed.
Lemma ok_fatal c s : inv s -> is_Some (blocks s !! c) -> ok (http_fatal_connection_cb c) (fun _ => inv) s.
Proof.
  intros H Hc. apply ok_bind. eapply ok_mono; [by apply ok_destroy|]. intros [] s' (H' & _). by apply ok_put, inv_trace.
Qed.
Lemma ok_read c r s : inv s -> is_Some (blocks s !! c) -> ok (http_post_or_get_readdata_cb c r) (fun _ => inv) s.
Proof.
  intros H [x Hx]. unfold http_post_or_get_readdata_cb. apply ok_bind. eapply ok_conn; [done|].
  assert (E : ok (http_connection_process_data c;; http_connection_destroy c) (fun _ => inv) s).
  { apply ok_bind. eapply ok_mono; [apply ok_process; eauto|]. intros [] s' G.
    eapply ok_mono; [apply ok_destroy; [apply G|apply G; eauto]|]. by intros [] s'' [? _]. }
  destruct r as [[|a d]| | |]; cbn [is_error andb].
  - exact E.
  - eapply ok_mono; [eapply grows_more; [done..|by split_and!]|]. by intros [] s' [[? _] _].
  - exact E.
  - by apply ok_ret.
  - case_match; [apply ok_fatal; eauto|exact E].
Qed.
(** The watch of a connection, with its field. *)
Lemma ok_watch c x x' s : inv s -> blocks s !! c = Some x ->
  (connecting x = true -> connecting x' = true) -> (ssl_conn x = true -> ssl_conn x' = true) ->
  (fd x = true -> fd x' = true) -> input_watcher x' = true ->
  ok (put_conn c x';; purple_input_add c) (fun _ => inv) s.
Proof.
  intros H Hx H1 H2 H3 H4. apply ok_bind, ok_put, ok_bind, ok_put, ok_put, inv_trace.
  set (s1 := up_held (fun h => h ∪ list_to_set [OnInput c]) s).
  assert (Hin : OnInput c ∈ held s1) by (cbn; set_solver).
  change (inv (up_blocks (insert c x') s1)).
  assert (G : forall d, is_Some (<[c := x']> (blocks s) !! d) <-> is_Some (blocks s !! d)).
  { intros d. rewrite lookup_insert_is_Some. split; [intros [<-|[_ ?]]; [by eexists|done]|]. destruct (decide (c = d)); auto. }
  assert (Q : forall q, OnLookup q ∈ held s1 <-> OnLookup q ∈ held s) by (intros q; cbn; set_solver).
  split; cbn -[s1]; try apply H; try change (blocks s1) with (blocks s).
  - intros d. rewrite G. apply H.
  - intros d. rewrite G. apply H.
  - intros r Hr d Hd. destruct (decide (c = d)) as [<-|Hne].
    + exists x'. rewrite lookup_insert_eq. split; [done|].
      assert (r ∈ held s \/ r = OnInput c) as [Hrs| ->] by (cbn in Hr; set_solver); [|done].
      destruct (v_held H r Hrs c Hd) as (y & Hy & Hf). assert (y = x) as -> by congruence.
      destruct r; cbn in *; auto.
    + assert (r ∈ held s) as Hrs.
      { cbn in Hr. assert (r ∈ held s \/ r = OnInput c) as [?| ->] by set_solver; [done|]. cbn in Hd. congruence. }
      destruct (v_held H r Hrs d Hd) as (y & Hy & Hf). exists y. by rewrite lookup_insert_ne.
  - intros d y [[<- <-]|[_ Hy]]%lookup_insert_Some Hw; [done|]. cbn. apply elem_of_union. left. by eapply (v_input H).
  - intros q. rewrite Q. apply (v_queries H).
  - intros q. rewrite Q. apply (v_lookup H).
Qed.
Lemma ok_connected c err w x s : inv s -> blocks s !! c = Some x -> OnConnect c ∉ held s ->
  ok (http_post_or_get_connect_cb c err w) (fun _ => inv) s.
Proof.
  intros H Hx Hh. unfold http_post_or_get_connect_cb. apply ok_bind. eapply ok_conn; [done|]. apply ok_bind.
  eapply ok_mono; [eapply (grows_put c x); [done..| |]; cbn|].
  { intros [] Hr Ho Hf; cbn in *; try done. by injection Ho as ->. }
  { by apply (v_input H). }
  intros [] s1 (G1 & Hx1 & Hh1). destruct err; [apply ok_fatal; [apply G1|by eexists]|]. apply ok_bind.
  eapply ok_mono; [eapply grows_more; [apply G1|done|by split_and!]|]. intros [] s2 (G2 & Hx2 & _). apply ok_bind, ok_put.
  assert (H3 : inv (up_held (fun h => h ∪ list_to_set [Descriptor c]) s2)).
  { apply inv_take; [apply G2|]. intros r ->%list_elem_of_singleton. split; [by eexists|].
    intros d [= <-]. by eexists. }
  set (s3 := up_held _ s2) in *. assert (Hx3 : blocks s3 !! c = blocks s2 !! c) by done. rewrite Hx2 in Hx3. clearbody s3.
  destruct w as [[|n]| |]; [apply ok_fatal; [done|by eexists]| |by apply ok_ret|apply ok_fatal; [done|by eexists]].
  apply ok_bind, ok_put. by eapply ok_watch; [apply inv_trace| |..].
Qed.
Lemma ok_ssl_connected c w x s : inv s -> blocks s !! c = Some x -> ssl_conn x = true ->
  ok (http_post_or_get_ssl_connect_cb c w) (fun _ => inv) s.
Proof.
  intros H Hx Hs. unfold http_post_or_get_ssl_connect_cb. apply ok_bind. eapply ok_conn; [done|].
  destruct w as [[|n]| |]; [apply ok_fatal; eauto| |by apply ok_ret|apply ok_fatal; eauto].
  apply ok_bind, ok_put. eapply ok_mono; [apply (grows_take [OnSslInput c]); [by apply inv_trace|]|by intros [] s' [? _]].
  intros r ->%list_elem_of_singleton. split; [by eexists|]. intros d [= <-]. by exists x.
Qed.
Lemma ok_ssl_failed c x s : inv s -> blocks s !! c = Some x ->
  (forall r, r ∈ held s -> owner r = Some c -> flag r (Conn (method x) (hostname x) (request_text x) (callback x) (rx x) (fd x) (connecting x) false (input_watcher x)) = flag r x) ->
  ok (http_ssl_connection_error c) (fun _ => inv) s.
Proof.
  intros H Hx Hh. unfold http_ssl_connection_error. apply ok_bind. eapply ok_conn; [done|]. apply ok_bind.
  eapply ok_mono; [eapply (grows_put c x); [done..| |]|].
  { intros r Hr Ho Hf. by rewrite Hh. }
  { cbn. by apply (v_input H). }
  intros [] s1 (G1 & Hx1 & _). apply ok_bind. eapply ok_mono; [apply ok_destroy; [apply G1|by eexists]|].
  intros [] s2 [H2 _]. by apply ok_put, inv_trace.
Qed.
Lemma ok_resolved q err l s : inv s -> OnLookup q ∈ held s ->
  ok (http_host_lookup_cb q err l) (fun _ => inv) (up_held (fun h => h ∖ list_to_set [OnLookup q]) s).
Proof.
  intros H Hq. unfold http_host_lookup_cb. apply ok_bind, ok_get. cbn [up_held lookups].
  destruct (v_lookup H q Hq) as [host ->]. apply ok_bind, ok_handler.
  { cbn. destruct (freed s) eqn:Hf; [|done]. destruct (v_freed H Hf) as [_ Hn]. apply (v_queries H) in Hq.
    rewrite Hn in Hq. by apply elem_of_nil in Hq. }
  apply ok_bind, ok_put, ok_bind, ok_put. set (s1 := up_lookups _ _). assert (H1 : inv s1).
  { split; cbn; try apply H.
    - intros r [Hr _]%elem_of_difference. by apply (v_held H).
    - intros c x Hx Hw. apply elem_of_difference. split; [by eapply (v_input H)|]. set_solver.
    - intros q'. rewrite elem_of_purge, (v_queries H). set_solver.
    - intros q' [Hq' Hn]%elem_of_difference. apply lookup_delete_is_Some. split; [set_solver|by apply (v_lookup H)].
    - intros Hf. destruct (v_freed H Hf) as [-> ->]. done. }
  destruct err; [by apply ok_ret|]. destruct l; [by apply ok_ret|]. apply ok_put. destruct H1. by split.
Qed.
Lemma ok_handle e s : inv s -> waits s e = true -> (forall r, e = Asked r -> good_request r) ->
  ok (give_back (ends e);; handle e) (fun _ => inv) s.
Proof.
  intros H Hw Hr. apply ok_bind, ok_put. unfold waits in Hw.
  assert (Hb : forall r, source e = Some r -> r ∈ held s /\ backed (blocks s) r).
  { intros r Hs. rewrite Hs in Hw. apply bool_decide_eq_true in Hw. split; [done|by apply (v_held H)]. }
  assert (Hi : (forall q, OnLookup q ∉ ends e) -> inv (up_held (fun h => h ∖ list_to_set (ends e)) s)).
  { intros Hq. apply inv_ends; [done..|]. intros c. destruct e; cbn; set_solver. }
  destruct e as [c err w|c w|c|c r|c r|q err l|r]; cbn [handle source ends] in *;
    try (destruct (Hb _ eq_refl) as [Hh Hb']; try (destruct (Hb' c eq_refl) as (x & Hx & Hf)));
    try (specialize (Hi ltac:(intros q; set_solver))).
  - apply (ok_connected c err w x); [done..|]. cbn. set_solver.
  - by apply (ok_ssl_connected c w x).
  - apply (ok_ssl_failed c x); [done..|]. intros r Hr' Ho. cbn [up_held held] in Hr'.
    destruct r; cbn in Ho |- *; try done; injection Ho as ->; set_solver.
  - apply ok_read; [done|by exists x].
  - apply ok_read; [done|by exists x].
  - by apply ok_resolved.
  - apply negb_true_iff in Hw. eapply ok_mono; [apply ok_ask; [done|done|by apply Hr]|]. by intros [] s' [? _].
Qed.
Definition asked_well (e : event) : Prop := forall r, e = Asked r -> good_request r.
Lemma ok_deliver l s : inv s -> Forall asked_well l -> ok (mapM_ deliver l) (fun _ => inv) s.
Proof.
  intros H Hl. apply ok_mapM_; [done|]. intros e s' He H'. rewrite Forall_forall in Hl. unfold deliver.
  apply ok_bind, ok_get, ok_when; [|done]. intros Hw. apply ok_handle; [done|done|by apply Hl].
Qed.
Lemma free_queries q s : inv s -> conns s = [] -> (forall i, i ∈ dns_queries s -> i ∈ q) ->
  ok (mapM_ (fun i => Eff.put (up_queries (List.filter (fun d => negb (d =? i)%nat)));;
                      purple_dnsquery_destroy i) q)
     (fun _ s' => inv s' /\ conns s' = [] /\ dns_queries s' = []) s.
Proof.
  revert s. induction q as [|i q IH]; intros s H Hc Hq; cbn [mapM_].
  - apply ok_ret. split_and!; [done..|]. destruct (dns_queries s) as [|i l]; [done|].
    destruct (not_elem_of_nil i). apply Hq. by left.
  - apply ok_bind, ok_bind, ok_put, ok_bind, ok_put, ok_put. apply IH; [|done|].
    + split; cbn; try apply H.
      * intros r [Hr _]%elem_of_difference. by apply (v_held H).
      * intros c x Hx Hw. apply elem_of_difference. split; [by eapply (v_input H)|]. set_solver.
      * intros q'. rewrite elem_of_purge, (v_queries H). set_solver.
      * intros q' [Hq' _]%elem_of_difference. by apply (v_lookup H).
      * intros Hf. destruct (v_freed H Hf) as [-> ->]. done.
    + cbn. intros j [Hj Hn]%elem_of_purge. apply Hq in Hj. by apply elem_of_cons in Hj as [->|].
Qed.
(** Freeing the handler: each connection and each query. *)
Lemma ok_free s : inv s -> ok http_handler_free (fun _ s' => inv s' /\ freed s' = true /\ conns s' = [] /\ blocks s' = ∅
  /\ dns_queries s' = [] /\ held s' = ∅) s.
Proof.
  intros H. unfold http_handler_free. apply ok_bind, ok_get, ok_bind.
  assert (L : forall l s, inv s -> conns s = l -> ok (mapM_ http_connection_destroy l) (fun _ s' => inv s' /\ conns s' = []) s).
  { clear. induction l as [|c l IH]; intros s H Hc; [by apply ok_ret|]. cbn [mapM_]. apply ok_bind.
    eapply ok_mono; [apply ok_destroy; [done|]|].
    - apply (v_conns H). rewrite Hc. by left.
    - intros [] s' (H' & _ & Hc' & _). apply IH; [done|]. rewrite Hc', Hc. pose proof (v_nodup H) as Hn. rewrite Hc in Hn.
      apply NoDup_cons in Hn as [Hn _]. cbn. rewrite Nat.eqb_refl. cbn. rewrite <- (app_nil_r l) at 2.
      clear -Hn. induction l as [|d l IH]; [done|]. apply not_elem_of_cons in Hn as [Hd Hn]. cbn.
      destruct (Nat.eqb_spec d c); [by subst|]. cbn. f_equal. by apply IH. }
  eapply ok_mono; [by apply (L (conns s))|]. intros [] s1 [H1 Hc1]. apply ok_bind, ok_get, ok_bind.
  eapply ok_mono; [by apply (free_queries (dns_queries s1))|]. intros [] s2 (H2 & Hc2 & Hq2). apply ok_put.
  assert (Hb : blocks s2 = ∅).
  { apply map_empty. intros c. apply eq_None_not_Some. intros Hc%(v_conns H2). rewrite Hc2 in Hc. by apply elem_of_nil in Hc. }
  assert (Hl : held s2 = ∅).
  { apply leibniz_equiv, elem_of_equiv_empty. intros r Hr. pose proof (v_held H2 r Hr) as Hb'. rewrite Hb in Hb'.
    assert (Ho : owner r = None).
    { destruct (owner r) as [c|] eqn:Ho; [|done]. destruct (Hb' c Ho) as (x & Hx & _). by rewrite lookup_empty in Hx. }
    destruct r as [| | | | | |q]; try done. apply (v_queries H2) in Hr. rewrite Hq2 in Hr. by apply elem_of_nil in Hr. }
  destruct H2. cbn. split_and!; [by split|done..].
Qed.

End HttpP.
Section Served.
Context {env : HttpEnv} (asks_well : forall t cb data len, Forall good_request (calls t cb data len)).

(** C23: A handler serves any sequence of requests and of events of its connections and of
    the DNS, in any order, and is freed.  The main loop delivers an event whenever its
    callback is registered, whatever has become of the connection or the handler its data
    points to.  Unless an answer has a cookie that cannot be read, nothing is used after it
    was destroyed; and in the end every connection is destroyed, every query is cancelled,
    no callback is registered and no descriptor or secure connection is left open. *)
Theorem handler_released (l : list event) : Forall asked_well l ->
  match (mapM_ deliver l;; http_handler_free) http_handler_new with
  | (s, Done _) => conns s = [] /\ blocks s = ∅ /\ dns_queries s = [] /\ held s = ∅ /\ forall e, waits s e = false
  | (_, Raise _) => False
  | (_, Crash w) => w = "g_strndup"
  end.
Proof.
  intros Hl.
  assert (G : ok True (mapM_ deliver l;; http_handler_free) (fun _ s => conns s = [] /\ blocks s = ∅ /\ dns_queries s = []
     /\ held s = ∅ /\ forall e, waits s e = false) http_handler_new).
  2: { unfold ok in G. destruct ((mapM_ deliver l;; http_handler_free) http_handler_new) as [s [a|e|w]]; [exact G|done|apply G]. }
  apply ok_bind. eapply ok_mono; [apply ok_deliver; [exact asks_well|exact I|exact handler_inv_new|done]|].
  intros [] s H. eapply ok_mono; [by apply ok_free|]. intros [] s' (_ & Hf & Hc & Hb & Hq & Hh).
  do 4 (split; [done|]). intros e. unfold waits. rewrite Hh, Hf. destruct (source e); [|done].
  by apply bool_decide_eq_false, not_elem_of_empty.
Qed.
End Served.
End HttpP.

(** ** Searching *)
Module FindP.
Lemma prefix_app p s t : prefix_of p s = true -> prefix_of p (s +:+ t) = true.
Proof.
  unfold prefix_of. revert s. induction p as [|c p IH]; intros s; [by destruct s, t|].
  destruct s as [|d s]; [done|]. rewrite app_cons_s. cbn. destruct (ascii_dec c d); [apply IH|done].
Qed.
Lemma prefix_self p t : prefix_of p (p +:+ t) = true.
Proof.
  unfold prefix_of. induction p as [|c p IH]; [by destruct t|]. rewrite app_cons_s. cbn.
  destruct (ascii_dec c c); [exact IH|done].
Qed.
(** A text that starts with a character that another one has not is not in it. *)
Lemma strstr_skip c p s t : has_char c s = false -> strstr (String c p) (s +:+ t) = Nat.add (slen s) <$> strstr (String c p) t.
Proof.
  induction s as [|d s IH]; intros H.
  - rewrite app_nil_l_s. by destruct (strstr (String c p) t).
  - cbn in H. apply orb_false_iff in H as [Hd Hs]. rewrite app_cons_s. cbn [strstr].
    assert (Hp : prefix_of (String c p) (String d (s +:+ t)) = false).
    { unfold prefix_of. cbn. destruct (ascii_dec c d); [|done]. subst. by rewrite Ascii.eqb_refl in Hd. }
    rewrite Hp, IH by done. cbn [slen]. by destruct (strstr (String c p) t).
Qed.
Lemma strstr_here p t : strstr p (p +:+ t) = Some O.
Proof. destruct p as [|c p]; [by destruct t|]. cbn [strstr]. rewrite app_cons_s. cbn [strstr]. rewrite <- app_cons_s. by rewrite prefix_self. Qed.
Lemma strstr_blank s t : has_char CR s = false ->
  strstr (CRLF +:+ CRLF) (s +:+ t) = Nat.add (slen s) <$> strstr (CRLF +:+ CRLF) t.
Proof. apply (strstr_skip CR (String LF CRLF)). Qed.
(** A line of a header that does not end the headers. *)
Lemma strstr_line s t : has_char CR s = false -> prefix_of CRLF t = false ->
  strstr (CRLF +:+ CRLF) (s +:+ CRLF +:+ t) = Nat.add (slen s + 2) <$> strstr (CRLF +:+ CRLF) t.
Proof.
  intros Hs Ht. change (CRLF +:+ CRLF) with (String CR (String LF CRLF)). rewrite strstr_skip by done.
  change (CRLF +:+ t) with (String CR (String LF t)). cbn [strstr].
  assert (H1 : prefix_of (String CR (String LF CRLF)) (String CR (String LF t)) = false).
  { unfold prefix_of in *. cbn [String.prefix]. by repeat (destruct (ascii_dec _ _); [|done]). }
  assert (H2 : prefix_of (String CR (String LF CRLF)) (String LF t) = false) by done.
  rewrite H1, H2. destruct (strstr _ t); [|done]. cbn. f_equal. lia.
Qed.
Lemma strchr_here c s t : has_char c s = false -> strchr c (s +:+ String c t) = Some (slen s).
Proof.
  unfold strchr. induction s as [|d s IH]; intros H.
  - rewrite app_nil_l_s. cbn [find_if]. by rewrite Ascii.eqb_refl.
  - cbn in H. apply orb_false_iff in H as [Hd Hs]. rewrite app_cons_s. cbn. by rewrite Hd, IH.
Qed.
Lemma strchr_none c s : has_char c s = false -> strchr c s = None.
Proof.
  unfold strchr. induction s as [|d s IH]; [done|]. cbn. intros [Hd Hs]%orb_false_iff. by rewrite Hd, IH.
Qed.
Lemma c_str_id s : has_char "000" s = false -> Names.c_str s = s.
Proof. induction s as [|c s IH]; [done|]. cbn. intros [-> Hs]%orb_false_iff. by rewrite IH. Qed.
Lemma c_str_app s t : has_char "000" s = false -> Names.c_str (s +:+ t) = s +:+ Names.c_str t.
Proof. induction s as [|c s IH]; [done|]. rewrite app_cons_s. cbn. intros [Hc Hs]%orb_false_iff. by rewrite Hc, IH. Qed.
Lemma sdrop_more s t n : sdrop (slen s + n) (s +:+ t) = sdrop n t.
Proof. by rewrite sdrop_add, sdrop_app_s. Qed.
Lemma strstr_bound p s i : strstr p s = Some i -> (i + slen p <= slen s)%nat.
Proof.
  revert i. induction s as [|c s IH]; intros i; cbn [strstr].
  - destruct (prefix_of p "") eqn:E; [|done]. intros [= <-]. by destruct p.
  - destruct (prefix_of p (String c s)) eqn:E.
    + intros [= <-]. clear IH. revert E. generalize (String c s). clear. unfold prefix_of.
      induction p as [|d p IH]; intros [|e s]; cbn; [lia|lia|done|]. destruct (ascii_dec d e); [|done]. intros H%IH. lia.
    + intros (j & Hj%IH & ->)%fmap_Some. cbn. lia.
Qed.
End FindP.

(** ** Answers and requests *)
Module AnswerP.
Import FindP.
(** A line of headers: no CR and no NUL. *)
Definition line (s : string) : Prop := has_char CR s = false /\ has_char "000" s = false.
Fixpoint lines (l : list string) : string :=
  match l with [] => "" | h :: l => CRLF +:+ h +:+ lines l end.
Definition good_lines (l : list string) : Prop := Forall (fun h => line h /\ h <> "") l.

Lemma lines_end l body : good_lines l ->
  strstr (CRLF +:+ CRLF) (lines l +:+ CRLF +:+ CRLF +:+ body) = Some (slen (lines l)).
Proof.
  induction 1 as [|h l [[Hc Hz] Hne] Hl IH].
  - cbn [lines]. rewrite app_nil_l_s, <- app_assoc_s. apply strstr_here.
  - cbn [lines]. rewrite !app_assoc_s.
    pose proof (strstr_line "" (h +:+ lines l +:+ CRLF +:+ CRLF +:+ body)) as L. rewrite app_nil_l_s in L. rewrite L; [|done|].
    + rewrite strstr_blank by done. rewrite IH. cbn. rewrite !slen_app. cbn. do 3 f_equal.
    + destruct h as [|c h]; [done|]. rewrite !app_cons_s.
      assert (Hn : CR <> c) by (intros <-; cbn in Hc; by rewrite Ascii.eqb_refl in Hc).
      unfold prefix_of, CRLF. cbn [String.prefix]. by destruct (ascii_dec CR c).
Qed.
Lemma lines_no_nul l : good_lines l -> has_char "000" (lines l) = false.
Proof. induction 1 as [|h l [[Hc Hz] Hne] Hl IH]; [done|]. cbn [lines]. rewrite !has_char_app, Hz, IH. done. Qed.
(** An answer is split at the end of its headers, whatever bytes the body has. *)
Lemma split_ok status l body : line status -> good_lines l ->
  split_answer (status +:+ lines l +:+ CRLF +:+ CRLF +:+ body)
    = Some (status +:+ lines l +:+ CRLF +:+ CRLF, body).
Proof.
  intros [Hc Hz] Hl. unfold split_answer.
  rewrite c_str_app, c_str_app by (done || by apply lines_no_nul).
  rewrite <- (app_assoc_s CRLF CRLF body). rewrite c_str_app by done.
  rewrite strstr_blank by done. rewrite (app_assoc_s CRLF CRLF (Names.c_str body)), lines_end by done. cbn [fmap option_fmap option_map].
  assert (E : (slen status + slen (lines l) + 4 = slen (status +:+ lines l +:+ CRLF +:+ CRLF))%nat).
  { rewrite !slen_app. cbn. lia. }
  assert (A : status +:+ lines l +:+ (CRLF +:+ CRLF) +:+ body = (status +:+ lines l +:+ CRLF +:+ CRLF) +:+ body).
  { by rewrite !app_assoc_s. }
  rewrite A, E, stake_app, sdrop_app_s. done.
Qed.

(** *** Cookies *)
(** The loop needs no more turns than there are characters. *)
Lemma cookies_fuel n m h : (slen h <= n)%nat -> (slen h <= m)%nat -> cookies_of n h = cookies_of m h.
Proof.
  revert m h. induction n as [|n IH]; intros m h Hn Hm.
  - destruct h; [|cbn in Hn; lia]. by destruct m.
  - destruct m as [|m]; [destruct h; [done|cbn in Hm; lia]|]. cbn [cookies_of].
    destruct (strstr set_cookie h) as [i|] eqn:E; [|done]. apply strstr_bound in E.
    destruct (strchr _ _) as [j|]; [|done]. destruct (strchr ";" _) as [k|]; [|done].
    rewrite (IH m); [done| |]; rewrite !slen_drop; cbn in E; lia.
Qed.
(** A cookie of an answer, with the attributes that follow it. *)
Definition cookie_line (name value attrs : string) : string := "Set-Cookie: " +:+ name +:+ "=" +:+ value +:+ ";" +:+ attrs.
Lemma cookies_step name value attrs rest :
  has_char "=" name = false -> has_char ";" value = false ->
  cookies_of (slen (CRLF +:+ cookie_line name value attrs +:+ rest)) (CRLF +:+ cookie_line name value attrs +:+ rest)
  = cons (name, value) <$> cookies_of (slen (";" +:+ attrs +:+ rest)) (";" +:+ attrs +:+ rest).
Proof.
  intros Hn Hv. unfold cookie_line. rewrite !app_assoc_s. rewrite <- (app_assoc_s CRLF "Set-Cookie: ").
  change (CRLF +:+ "Set-Cookie: ") with set_cookie.
  set (r := name +:+ "=" +:+ value +:+ ";" +:+ attrs +:+ rest).
  destruct (slen (set_cookie +:+ r)) as [|n] eqn:En; [by rewrite slen_app in En|]. cbn [cookies_of].
  rewrite strstr_here. change (0 + 14)%nat with (slen set_cookie). rewrite sdrop_app_s. unfold r at 1 2 3 4 5.
  change ("=" +:+ value +:+ ";" +:+ attrs +:+ rest) with (String "=" (value +:+ ";" +:+ attrs +:+ rest)).
  rewrite strchr_here by done. rewrite sdrop_more, stake_app. cbn [sdrop].
  change (";" +:+ attrs +:+ rest) with (String ";" (attrs +:+ rest)). rewrite strchr_here by done.
  rewrite stake_app, sdrop_app_s. f_equal.
  rewrite (cookies_fuel n (slen (String ";" (attrs +:+ rest)))); [done| |done].
  rewrite slen_app in En. change (slen set_cookie) with 14%nat in En. unfold r in En. cbn [slen].
  repeat rewrite slen_app in En. repeat rewrite slen_app. change (slen ";") with 1%nat in En. lia.
Qed.

(** *** Requests *)
Lemma line_app s t : line s -> line t -> line (s +:+ t).
Proof. intros [H1 H2] [H3 H4]. unfold line. by rewrite !has_char_app, H1, H2, H3, H4. Qed.
Lemma dec_digits_line n z acc : line acc -> line (dec_digits n z acc).
Proof.
  revert z acc. induction n as [|n IH]; intros z acc H; [done|]. cbn [dec_digits].
  assert (G : line (String (chr (48 + z mod 10)) acc)).
  { assert (Hd : 0 <= z mod 10 < 10) by (apply Z.mod_pos_bound; lia). destruct H as [H1 H2].
    generalize dependent (z mod 10). intros d Hd. assert (Hc : d ∈ [0;1;2;3;4;5;6;7;8;9]) by (rewrite !elem_of_cons; lia).
    split; cbn; rewrite ?H1, ?H2, orb_false_r; clear -Hc; set_unfold; naive_solver. }
  destruct (z <? 10); [done|by apply IH].
Qed.
Lemma t2s_line z : 0 <= z -> line (t2s z).
Proof. intros H. unfold t2s. destruct (Z.ltb_spec z 0); [lia|]. by apply dec_digits_line. Qed.

(** The request that is sent for a text to post, when nothing that it is made of has
    a line break or a NUL, is read by a server as its headers and that very text, and
    one of the headers announces its length. *)
Theorem request_read {env : HttpEnv} (method : Z) (host url cookies data : string) :
  is_post method = true -> line host -> line url -> line cookies -> line user_agent -> line language_names ->
  exists status l, split_answer (request_of method host url cookies (Some data))
      = Some (status +:+ lines l +:+ CRLF +:+ CRLF, data)
    /\ ("Content-length: " +:+ t2s (Z.of_nat (slen data))) ∈ l.
Proof.
  intros Hm Hh Hu Hc Ha Hl.
  set (status := "POST" +:+ " " +:+ url +:+ " HTTP/1.0").
  set (l := ["Host: " +:+ host; "Connection: close"; "User-Agent: " +:+ user_agent;
             "Content-Type: application/x-www-form-urlencoded";
             "Content-length: " +:+ t2s (Z.of_nat (slen data)); "Accept: */*";
             "Referer: http://" +:+ host +:+ url +:+ "/"; "Cookie: " +:+ cookies; "Accept-Language: " +:+ language_names]).
  exists status, l. split; [|unfold l; rewrite !elem_of_cons; auto 10].
  rewrite <- (split_ok status l data).
  - f_equal. unfold request_of, status, l. rewrite Hm. cbn [lines default from_option id]. by rewrite !app_assoc_s, app_nil_l_s.
  - unfold status. by repeat apply line_app.
  - assert (Hd : line (t2s (Z.of_nat (slen data)))) by (apply t2s_line; lia).
    unfold l, good_lines. repeat (apply Forall_cons; split; [split; [repeat apply line_app; done|done]|]). by apply Forall_nil.
Qed.
End AnswerP.

(** ** An answer reaches its callback *)
Module Delivered.
Import HttpP AnswerP.
Section Delivered.
Context {env : HttpEnv}.

(** What is done is only added to. *)
Definition mono {A} (m : M A) : Prop := forall s, exists u, trace (fst (m s)) = trace s ++ u.
Lemma mono_ret {A} (a : A) : mono (ret a).
Proof. intros s. exists []. by rewrite app_nil_r. Qed.
Lemma mono_get {A} (f : st -> A) : mono (Eff.get f).
Proof. intros s. exists []. by rewrite app_nil_r. Qed.
Lemma mono_crash {A} w : mono (@crash st Empty_set A w).
Proof. intros s. exists []. by rewrite app_nil_r. Qed.
Lemma mono_put f : (forall s, trace (f s) = trace s) -> mono (Eff.put f).
Proof. intros H s. exists []. by rewrite app_nil_r, <- (H s). Qed.
Lemma mono_emit e : mono (emit e).
Proof. intros s. by exists [e]. Qed.
Lemma mono_bind {A B} (m : M A) (k : A -> M B) : mono m -> (forall a, mono (k a)) -> mono (bind m k).
Proof.
  intros Hm Hk s. destruct (Hm s) as [u Hu]. unfold bind. destruct (m s) as [s' [a|e|w]]; cbn in *; [|by exists u..].
  destruct (Hk a s') as [v Hv]. exists (u ++ v). by rewrite Hv, Hu, app_assoc.
Qed.
Lemma mono_when (b : bool) m : mono m -> mono (when b m).
Proof. intros H. destruct b; [done|apply mono_ret]. Qed.
Lemma mono_mapM_ {A} (f : A -> M unit) l : (forall a, mono (f a)) -> mono (mapM_ f l).
Proof. intros H. induction l; [apply mono_ret|]. cbn [mapM_]. by apply mono_bind. Qed.
Lemma mono_get_conn c : mono (get_conn c).
Proof. apply mono_bind; [apply mono_get|]. intros b. unfold deref. destruct (b !! c); [apply mono_ret|apply mono_crash]. Qed.
Lemma mono_put_conn c x : mono (put_conn c x).
Proof. by apply mono_put. Qed.
Lemma mono_new_id : mono new_id.
Proof. apply mono_bind; [apply mono_get|]. intros n. apply mono_bind; [by apply mono_put|]. intros _. apply mono_ret. Qed.
Ltac mono :=
  repeat (intros; first
    [ apply mono_get_conn | apply mono_put_conn | apply mono_new_id | apply mono_emit | apply mono_ret | apply mono_get
    | apply mono_crash | by apply mono_put | apply mono_when | apply mono_mapM_ | apply mono_bind | case_match ]).
Lemma mono_ask r : mono (http_post_or_get r).
Proof.
  unfold http_post_or_get, lookup_host, http_attempt_connection, get_handler, purple_dnsquery, purple_ssl_connect,
    purple_proxy_connect, take. mono.
Qed.
Lemma mono_destroy c : mono (http_connection_destroy c).
Proof.
  unfold http_connection_destroy, get_handler, purple_proxy_connect_cancel, purple_ssl_close, close_fd,
    purple_input_remove, give_back. mono.
Qed.

Context (asks_well : forall t cb data len, Forall good_request (calls t cb data len)).
Definition with_rx (x : conn) (b : option string) : conn :=
  Conn (method x) (hostname x) (request_text x) (callback x) b (fd x) (connecting x) (ssl_conn x) (input_watcher x).
Fixpoint concat_s (l : list string) : string := match l with [] => "" | d :: l => d +:+ concat_s l end.
(** Data that is read: the watch stays. *)
Lemma deliver_readable c r s : OnInput c ∈ held s -> deliver (Readable c r) s = http_post_or_get_readdata_cb c r s.
Proof.
  intros H. unfold deliver, waits, bind, Eff.get. cbn [source]. rewrite bool_decide_true by done.
  cbn [when ends handle]. unfold give_back, Eff.put, up_held. cbn [list_to_set].
  destruct s. cbn in *. by rewrite difference_empty_L.
Qed.
(** The data that arrives is kept in its order. *)
Lemma read_all c l s x : inv s -> blocks s !! c = Some x -> input_watcher x = true -> Forall (fun d => d <> "") l ->
  exists s', mapM_ (fun d => deliver (Readable c (RData d))) l s = (s', Done tt) /\ inv s' /\ trace s' = trace s
    /\ blocks s' !! c = Some (match l with [] => x | _ => with_rx x (Some (default "" (rx x) +:+ concat_s l)) end)
    /\ cookie_table s' = cookie_table s.
Proof.
  intros H Hx Hw Hl. revert s x H Hx Hw. induction Hl as [|d l Hd Hl IH]; intros s x H Hx Hw; [by exists s|].
  cbn [mapM_ concat_s]. unfold bind at 1. rewrite deliver_readable by (by eapply (v_input s H)).
  unfold http_post_or_get_readdata_cb, bind, get_conn, bind, Eff.get, deref. rewrite Hx. destruct d as [|a d]; [done|].
  cbn [ret]. unfold put_conn, Eff.put.
  set (y := with_rx x (Some (default "" (rx x) +:+ String a d))).
  destruct (IH (up_blocks (insert c y) s) y) as (s' & Hr & Hi & Ht & Hb & Hk).
  - eapply inv_insert; [done|done| |intros _; by eapply (v_input s H)]. by intros [].
  - apply lookup_insert_eq.
  - done.
  - exists s'. split; [exact Hr|]. split; [done|]. split; [done|]. split; [|done]. rewrite Hb. cbn.
    destruct l; [by rewrite app_nil_s|]. by rewrite app_assoc_s.
Qed.
Lemma set_cookies l s : mapM_ (fun kv : string * string => Eff.put (up_cookies (insert (fst kv) (snd kv)))) l s
  = (up_cookies (fun m => foldl (fun m kv => <[fst kv := snd kv]> m) m l) s, Done (E := Empty_set) tt).
Proof.
  revert s. induction l as [|kv l IH]; intros s; [by destruct s|]. cbn [mapM_]. unfold bind, Eff.put. rewrite IH.
  done.
Qed.
Lemma ok_run {A} (m : M A) Q s : ok False m Q s -> exists a s', m s = (s', Done a) /\ Q a s'.
Proof. unfold ok. destruct (m s) as [s' [a|e|w]]; [eauto|done|by intros []]. Qed.
(** The end of an answer whose headers are good. *)
Lemma process_run c s x cb status hs body : inv s -> blocks s !! c = Some x -> callback x = Some cb ->
  rx x = Some (status +:+ lines hs +:+ CRLF +:+ CRLF +:+ body) -> line status -> good_lines hs ->
  cookies_of (slen (status +:+ lines hs +:+ CRLF +:+ CRLF)) (status +:+ lines hs +:+ CRLF +:+ CRLF) <> None ->
  exists s' u, (http_connection_process_data c;; http_connection_destroy c) s = (s', Done tt) /\ inv s'
    /\ trace s' = trace s ++ Called cb (Some body) (slen body) :: u /\ blocks s' !! c = None.
Proof.
  intros H Hx Hcb Hrx Hs Hh Hk. unfold http_connection_process_data, http_update_cookies. unfold bind, get_conn, bind, deref, Eff.get.
  rewrite Hx. cbn [ret]. rewrite Hrx, split_ok by done. destruct (cookies_of _ _) as [ks|]; [|done].
  rewrite set_cookies. cbn [ret fst snd]. rewrite Hcb. unfold put_conn, emit, Eff.put.
  set (s1 := up_trace _ _).
  assert (H1 : inv s1 /\ is_Some (blocks s1 !! c)).
  { split; [|eexists; apply lookup_insert_eq]. apply inv_trace. eapply inv_insert; [destruct H; by split|done|..].
    - by intros [].
    - intros Hw. exact (v_input s H c x Hx Hw). }
  destruct H1 as [H1 Hx1].
  set (rs := calls _ _ _ _). assert (Hrs : Forall good_request rs) by apply asks_well.
  destruct (ok_run _ _ _ (ok_asks False rs s1 H1 (not_freed c s1 H1 Hx1) Hrs)) as ([] & s2 & Hr2 & G2).
  destruct (mono_mapM_ http_post_or_get rs mono_ask s1) as [u Hu]. rewrite Hr2 in *. cbn [fst] in Hu.
  destruct (ok_run _ _ _ (ok_destroy False c s2 (proj1 G2) ltac:(apply G2; exact Hx1))) as ([] & s3 & Hr3 & (H3 & _ & Hc & _)).
  destruct (mono_destroy c s2) as [v Hv]. rewrite Hr3 in *. cbn [fst] in Hv.
  exists s3, (u ++ v). split; [done|]. split; [done|]. split.
  - rewrite Hv, Hu. cbn. by rewrite <- !app_assoc.
  - apply eq_None_not_Some. intros Hs3. apply (v_conns s3 H3) in Hs3. rewrite Hc in Hs3.
    by apply elem_of_purge in Hs3 as [_ ?].
Qed.
(** C24: An answer that arrives in any number of pieces, with good headers and any bytes in
    its body, is given once it ended to the callback of its request: exactly its body
    and the length of it; and the connection is destroyed. *)
Theorem answer_delivered c l s x cb status hs body :
  inv s -> blocks s !! c = Some x -> input_watcher x = true -> rx x = None -> callback x = Some cb ->
  Forall (fun d => d <> "") l -> concat_s l = status +:+ lines hs +:+ CRLF +:+ CRLF +:+ body ->
  line status -> good_lines hs ->
  cookies_of (slen (status +:+ lines hs +:+ CRLF +:+ CRLF)) (status +:+ lines hs +:+ CRLF +:+ CRLF) <> None ->
  exists s' u, (mapM_ (fun d => deliver (Readable c (RData d))) l;; deliver (Readable c REof)) s = (s', Done tt)
    /\ inv s' /\ trace s' = trace s ++ Called cb (Some body) (slen body) :: u /\ blocks s' !! c = None.
Proof.
  intros H Hx Hw Hrx Hcb Hl Hc Hs Hh Hk.
  destruct (read_all c l s x H Hx Hw Hl) as (s1 & Hr & H1 & Ht & Hx1 & _).
  destruct l as [|d l]; [destruct status, hs; done|]. rewrite Hrx in Hx1. cbn [default from_option] in Hx1.
  rewrite app_nil_l_s, Hc in Hx1.
  destruct (process_run c s1 _ cb status hs body H1 Hx1 Hcb eq_refl Hs Hh Hk) as (s2 & u & Hr2 & H2 & Ht2 & Hb2).
  exists s2, u. rewrite Ht in Ht2. split; [|done]. unfold bind at 1. rewrite Hr.
  rewrite deliver_readable by (by eapply (v_input s1 H1)).
  unfold http_post_or_get_readdata_cb, bind at 1, get_conn, bind at 1, deref, Eff.get. rewrite Hx1. cbn [ret is_error andb].
  exact Hr2.
Qed.
End Delivered.
End Delivered.

(** ** Concrete exchanges *)
Module HttpDemo.
Import HttpP AnswerP Delivered.
(** No proxy; the only callback asks for nothing. *)
Definition demo_http : HttpEnv := {|
  is_proxy := false; has_account := true; disconnecting := fun _ => false; user_agent := "minbif"; language_names := "fr, en";
  listed := map_to_list; calls := fun _ _ _ _ => [] |}.
Definition asked : request := Request HTTP_METHOD_GET (Some "linuxfr.org") "/board" None (Some 1%nat).
Definition text_of (l : list string) : string := foldr (fun h s => h +:+ CRLF +:+ s) "" l.
Definition answer : string := text_of ["HTTP/1.0 200 OK"; "Set-Cookie: id=42; path=/"; ""] +:+ "<board/>".

Lemma handler_released_witness :
  Forall asked_well [Asked asked; Resolved 0 false [Some "10.0.0.1"]; Connected 1 false (WBytes 500); Readable 1 REof]
  /\ match (mapM_ (@deliver demo_http) [Asked asked; Resolved 0 false [Some "10.0.0.1"]; Connected 1 false (WBytes 500); Readable 1 REof];;
          http_handler_free) http_handler_new with
     | (s, Done _) => conns s = [] /\ blocks s = ∅ /\ dns_queries s = [] /\ held s = ∅ /\ forall e, waits s e = false
     | (_, Raise _) => False
     | (_, Crash w) => w = "g_strndup"
     end.
Proof.
  assert (H : Forall asked_well [Asked asked; Resolved 0 false [Some "10.0.0.1"]; Connected 1 false (WBytes 500); Readable 1 REof]).
  { repeat (apply Forall_cons; split; [intros r [=]; by subst r|]). by apply Forall_nil. }
  split; [exact H|]. exact (@handler_released demo_http (fun _ _ _ _ => @Forall_nil_2 _ good_request) _ H).
Defined.
Lemma request_read_witness :
  exists status l, split_answer (@request_of demo_http HTTP_METHOD_POST "linuxfr.org" "/board" "login=romain;" (Some "board[message]=hi"))
      = Some (status +:+ lines l +:+ CRLF +:+ CRLF, "board[message]=hi")
    /\ ("Content-length: " +:+ t2s (Z.of_nat (slen "board[message]=hi"))) ∈ l.
Proof. by apply (@request_read demo_http HTTP_METHOD_POST "linuxfr.org" "/board" "login=romain;" "board[message]=hi"). Defined.
(** A connection that waits for its answer. *)
Definition waiting : st := fst (mapM_ (@deliver demo_http) [Asked asked; Connected 1 false (WBytes 500)] http_handler_new).
Definition pieces : list string := ["HTTP/1.0 200 OK"; CRLF +:+ "Set-Cookie: id=42; path=/" +:+ CRLF; CRLF +:+ "<board/>"].
Lemma waiting_inv : inv waiting.
Proof.
  pose proof (@ok_deliver demo_http True (fun _ _ _ _ => @Forall_nil_2 _ good_request) I
    [Asked asked; Connected 1 false (WBytes 500)] http_handler_new) as H.
  unfold ok in H. change (inv (fst (mapM_ (@deliver demo_http) [Asked asked; Connected 1 false (WBytes 500)] http_handler_new))).
  destruct (mapM_ _ _ http_handler_new) as [s [a|e|w]] eqn:E; [apply H| |]; try (vm_compute in E; discriminate).
  - exact handler_inv_new.
  - repeat (apply Forall_cons; split; [intros r [=]; by subst r|]). by apply Forall_nil.
Qed.
Lemma answer_delivered_witness :
  exists s' u, (mapM_ (fun d => @deliver demo_http (Readable 1 (RData d))) pieces;; @deliver demo_http (Readable 1 REof)) waiting = (s', Done tt)
    /\ inv s' /\ trace s' = trace waiting ++ Called 1 (Some "<board/>") 8 :: u /\ blocks s' !! 1%nat = None.
Proof.
  destruct (blocks waiting !! 1%nat) as [x|] eqn:Hx; [|vm_compute in Hx; discriminate].
  assert (Hc : callback x = Some 1%nat /\ input_watcher x = true /\ rx x = None).
  { vm_compute in Hx. injection Hx as <-. done. }
  destruct Hc as (Hc & Hw & Hr).
  destruct (@answer_delivered demo_http (fun _ _ _ _ => @Forall_nil_2 _ good_request) 1 pieces waiting x 1
    "HTTP/1.0 200 OK" ["Set-Cookie: id=42; path=/"] "<board/>" waiting_inv Hx Hw Hr Hc) as (s' & u & H1 & H2 & H3 & H4).
  - by repeat (apply Forall_cons; split; [done|]).
  - reflexivity.
  - done.
  - by repeat (apply Forall_cons; split; [done|]).
  - vm_compute. discriminate.
  - exists s', u. split; [exact H1|]. split; [exact H2|]. split; [exact H3|exact H4].
Defined.
(** The cookies that an answer sets; the one whose line has no [;] takes what follows up
    to the next one, or has no end. *)
Example cookies_set :
  cookies_of 100 (text_of ["HTTP/1.0 200 OK"; "Set-Cookie: id=42; path=/"; "Set-Cookie: a=b;"; ""]) = Some [("id", "42"); ("a", "b")].
Proof. vm_compute. reflexivity. Qed.
Example cookie_without_attributes :
  cookies_of 100 (text_of ["HTTP/1.0 200 OK"; "Set-Cookie: id=42"; ""]) = None.
Proof. vm_compute. reflexivity. Qed.
(** When the socket cannot take the request yet, or takes a part of it, the rest is not
    sent: in the first case the connection waits for nothing. *)
Example request_lost :
  let s := fst (mapM_ (@deliver demo_http) [Asked asked; Connected 1 false WAgain] http_handler_new) in
  conns s = [1%nat] /\ forallb (fun e => negb (waits s e)) [Connected 1 false WAgain; SslConnected 1 WAgain; SslFailed 1; Readable 1 REof; SslReadable 1 REof] = true.
Proof. vm_compute. done. Qed.
Example request_cut :
  let s := fst (mapM_ (@deliver demo_http) [Asked asked; Connected 1 false (WBytes 4)] http_handler_new) in
  forallb (fun e => match e with Written _ t => String.eqb t "GET " | _ => true end) (trace s) = true.
Proof. vm_compute. done. Qed.
End HttpDemo.
