(* ===== verification/CoinCoin.v ===== *)
(** plugins/coincoin: the messages of a board (message.c) and the account that reads and
    posts them through the connections of Http.v (coincoin.c). *)

From S2P Require Import Prelude Util Dcc Effects Url Http.
Local Open Scope eff_scope.

(** ** UTF-8 texts of GLib *)
Module Utf8.
(** [g_utf8_next_char] moves by what the first byte announces; [None] is past the NUL. *)
Definition skip (c : ascii) : nat :=
  if code c <? 192 then 1%nat else if code c <? 224 then 2%nat else if code c <? 240 then 3%nat
  else if code c <? 248 then 4%nat else if code c <? 252 then 5%nat else if code c <? 254 then 6%nat else 1%nat.
Definition next (s : string) : option string :=
  if (slen s <? skip (shead s))%nat then None else Some (sdrop (skip (shead s)) s).
(** A loop that moves to the first character [stop] holds of, or to the end. *)
Fixpoint skip_to (fuel : nat) (stop : ascii -> bool) (s : string) : option string :=
  match fuel, s with
  | S fuel, String c _ => if stop c then Some s else s' ← next s; skip_to fuel stop s'
  | _, _ => Some s
  end.
(** The text from [s] up to the place [t] of it. *)
Definition upto (s t : string) : string := stake (slen s - slen t) s.
End Utf8.

(** ** The messages of a board (message.c) *)
Module Board.
Import Eff Utf8.
(** [CoinCoinMessage]; the texts are NULL where the element of the post is empty. *)
Record msg := Msg {
  m_message : option string; m_info : option string; m_from : option string;
  m_timestamp : Z; m_ref : Z; m_multiple : bool; m_id : Z }.
(** A post of the XML of a board: its attributes, and its children with their data. *)
Record post := Post {
  p_id : option string; p_time : option string;
  p_message : option (option string); p_info : option (option string); p_login : option (option string) }.
Inductive ev :=
| AddUser (name : string) (info : option string) | RemoveUser (name : string)
| GotChat (from : string) (text : option string) (timestamp : Z).
Record st := St { messages : list msg; trace : list ev }.
Definition M (A : Type) : Type := Eff.M st Empty_set A.

Definition CC_LAST_MESSAGE_MAX : nat := 100.
Definition to_int64 (z : Z) : Z := (z + 2 ^ 63) mod 2 ^ 64 - 2 ^ 63.
Definition to_int32 (z : Z) : Z := (z + 2 ^ 31) mod 2 ^ 32 - 2 ^ 31.
Definition strtoul (s : string) : Z := default 0 (Num.s2t_unsigned 64 s).

(** What libpurple and the C library answer. *)
Class BoardEnv := {
  no_reformat_messages : bool;
  display_name : string;
  in_chat : list ev -> string -> bool;             (* purple_conv_chat_cb_find *)
  strip_html : string -> string;                   (* purple_markup_strip_html *)
  now : list ev -> Z;
  mktime : Z -> Z -> Z -> Z -> Z -> Z -> Z;        (* of the fields of a struct tm, from the year *)
  localtime : Z -> Z * Z * Z;                      (* the hour, the minute, the second *)
  same_nick : string -> string -> bool }.          (* strcasecmp *)

(** *** Scanning *)
Fixpoint take_digits (w : nat) (acc : Z) (s : string) : Z * string :=
  match w, s with
  | S w, String c s' => if isdigit c then take_digits w (10 * acc + (code c - 48)) s' else (acc, s)
  | _, _ => (acc, s)
  end.
(** [%wd] of sscanf. *)
Definition scan_d (w : nat) (s : string) : option (Z * string) :=
  let s := Num.skip_ws s in
  let '(neg, w, s) := match s with
                      | String c s' => if Ascii.eqb c "-" then (true, pred w, s') else if Ascii.eqb c "+" then (false, pred w, s') else (false, w, s)
                      | "" => (false, w, s)
                      end in
  if (0 <? w)%nat && isdigit (shead s)
  then let (v, rest) := take_digits w 0 s in Some (if neg : bool then - v else v, rest)
  else None.
Definition lit (c : ascii) (s : string) : option string :=
  match s with String d s' => if Ascii.eqb c d then Some s' else None | "" => None end.
(** ["%4d%2d%2d%2d%2d%2d"]. *)
Definition scan_time (s : string) : option (Z * Z * Z * Z * Z * Z) :=
  '(y, s) ← scan_d 4 s; '(mo, s) ← scan_d 2 s; '(d, s) ← scan_d 2 s;
  '(h, s) ← scan_d 2 s; '(mi, s) ← scan_d 2 s; '(sec, _) ← scan_d 2 s;
  Some (y, mo, d, h, mi, sec).
(** What the three [sscanf] of a reference find: hour, minute, and the second and the
    number where they are. *)
Definition scan_clock (s : string) : option (Z * Z * option (Z * option Z)) :=
  '(h, s) ← scan_d 2 s; s ← lit ":" s; '(m, s) ← scan_d 2 s;
  Some (h, m,
    '(sec, s) ← (s ← lit ":" s; scan_d 2 s);
    Some (sec, s ← lit ":" s; if isdigit (shead s) then Some (strtoul s mod 2 ^ 32) else None)).
(** The number that a superscript character gives. *)
Definition superscript (s : string) (ref : Z) : Z :=
  match s with
  | String c (String d _) =>
    if Ascii.eqb c "194" then if Ascii.eqb d "185" then 1 else if Ascii.eqb d "178" then 2 else if Ascii.eqb d "179" then 3 else ref
    else ref
  | _ => ref
  end.
Definition pad2 (z : Z) : string := if z <? 10 then "0" +:+ t2s z else t2s z.

Section Board.
Context {env : BoardEnv}.
Definition emit (e : ev) : M unit := Eff.put (fun s => St (messages s) (trace s ++ [e])).

(** *** [coincoin_message_new] *)
Fixpoint skip_blank (s : string) : string :=
  match s with
  | String c s' => if Ascii.eqb c "009" || Ascii.eqb c "010" || Ascii.eqb c "013" then skip_blank s' else s
  | "" => ""
  end.
Definition coincoin_message_new (id : Z) (p : post) : M (option msg) :=
  match p_message p, p_info p, p_login p with
  | Some message, Some info, Some login =>
    eff! time := deref "time" (p_time p);
    eff! t := get (fun s => now (trace s));
    let tt := match scan_time time with
              | Some (y, mo, d, h, mi, sec) => mktime (y - 1900) (mo - 1) d h mi sec
              | None => t
              end in
    ret (Some (Msg (skip_blank <$> message) info login tt 1 false id))
  | _, _, _ => ret None
  end.

(** *** [coincoin_message_ref] *)

Definition font (color : string) : string := "<FONT COLOR=" +:+ String "034" color +:+ String "034" ">".
(** The message that a reference of the text names. *)
Definition refers (h m : Z) (sec : option Z) (ref : Z) (cur : msg) : bool :=
  let '(h', m', s') := localtime (m_timestamp cur) in
  (h =? h') && (m =? m')
  && match sec with None => true | Some s => (s =? s') && (m_ref cur =? ref) end.
Definition format_clock (clock rest : string) (l : list msg) : string :=
  match scan_clock clock with
  | None => clock
  | Some (h, m, sec) =>
    let ref := superscript rest 1 in
    let ref := match sec with Some (_, Some r) => r | _ => ref end in
    match List.find (refers h m (fst <$> sec) ref) l with
    | Some cur => match m_from cur with Some n => n | None => "" end +:+ ": "
    | None => ""
    end +:+ font "blue" +:+ clock +:+ "</FONT>"
  end.
(** [None] is a read after the end of the text. *)
Fixpoint format_loop (fuel : nat) (s : string) (l : list msg) : option string :=
  match fuel, s with
  | S fuel, String c s' =>
    next_ ← next s;
    if Ascii.eqb c "[" && Ascii.eqb (shead s') ":" then
      end_ ← skip_to (slen s) (Ascii.eqb "]") s;
      if Ascii.eqb (shead end_) "]" then
        rest ← format_loop fuel (sdrop 1 end_) l;
        Some (font "dark green" +:+ upto s (sdrop 1 end_) +:+ "</FONT>" +:+ rest)
      else rest ← format_loop fuel next_ l; Some (upto s next_ +:+ rest)
    else if isdigit c || Ascii.eqb c ":" then
      end_ ← skip_to (slen s) (fun c => negb (isdigit c || Ascii.eqb c ":")) s;
      rest ← format_loop fuel end_ l;
      Some (format_clock (upto s end_) end_ l +:+ rest)
    else rest ← format_loop fuel next_ l; Some (upto s next_ +:+ rest)
  | _, _ => Some ""
  end.
Definition coincoin_message_ref (m : msg) (l : list msg) : M msg :=
  eff! text := deref "strlen(NULL)" (m_message m);
  eff! t := deref "read after the text" (format_loop (slen text) text l);
  ret (Msg (Some t) (m_info m) (m_from m) (m_timestamp m) (m_ref m) (m_multiple m) (m_id m)).

(** *** [coincoin_parse_message] *)

(** The new posts, the last one first in the result, up to one that is known. *)
Fixpoint collect (posts : list post) (known : list msg) (found : list msg) : M (list msg) :=
  match posts with
  | [] => ret found
  | p :: posts =>
    eff! id := deref "id" (p_id p);
    let id := to_int64 (strtoul id) in
    if existsb (fun m => m_id m =? id) known then ret found
    else
      eff! m := coincoin_message_new id p;
      match m with
      | None => collect posts known found
      | Some m =>
        eff! from := deref "strcmp(NULL)" (m_from m);
        eff! inside := get (fun s => in_chat (trace s) from);
        when (negb (String.eqb from display_name) && negb inside) (emit (AddUser from (m_info m)));;
        collect posts known (m :: found)
      end
  end.
(** The message [m] before [l]: two that follow with one time are marked. *)
Definition enter (m : msg) (l : list msg) : list msg :=
  match l with
  | cur :: l' =>
    if m_timestamp cur =? m_timestamp m then
      Msg (m_message m) (m_info m) (m_from m) (m_timestamp m) ((m_ref cur + 1) mod 2 ^ 32) true (m_id m)
      :: Msg (m_message cur) (m_info cur) (m_from cur) (m_timestamp cur) (m_ref cur) true (m_id cur) :: l'
    else m :: l
  | [] => [m]
  end.
Fixpoint flush (l : list msg) : M unit :=
  match l with
  | [] => ret tt
  | m :: l =>
    eff! ms := get messages;
    eff! m := (if no_reformat_messages then ret m else coincoin_message_ref m ms);
    emit (GotChat (default "" (m_from m)) (m_message m) (m_timestamp m));;
    put (fun s => St (enter m (messages s)) (trace s));;
    flush l
  end.
(** The loop over what goes: [kept] is the list that stays. *)
Fixpoint forget (kept : list msg) (l : list msg) : M unit :=
  match l with
  | [] => ret tt
  | cur :: l =>
    eff! from := deref "strcmp(NULL)" (m_from cur);
    eff! inside := get (fun s => in_chat (trace s) from);
    when (negb (String.eqb from display_name) && inside
          && negb (existsb (fun m => bool_decide (m_from m = Some from)) kept)) (emit (RemoveUser from));;
    forget kept l
  end.
(** [last_msg] is the place in the list of the messages that were there. *)
Definition purge (n_new : nat) : M unit :=
  eff! l := get messages;
  let kept := take (n_new + S CC_LAST_MESSAGE_MAX) l in
  put (fun s => St kept (trace s));;
  forget kept (drop (n_new + S CC_LAST_MESSAGE_MAX) l).
(** [convo]: the chat of the board is open; [None] is XML that is not read. *)
Definition coincoin_parse_message (convo : bool) (posts : option (list post)) : M unit :=
  if negb convo then ret tt
  else match posts with
       | None => ret tt
       | Some posts =>
         eff! old := get messages;
         eff! found := collect posts old [];
         flush found;;
         purge (length found)
       end.

(** *** [coincoin_convert_message] *)
Fixpoint nth_from (l : list msg) (nickname : string) (found ref : Z) : option msg :=
  match l with
  | [] => None
  | m :: l =>
    if same_nick (default "" (m_from m)) nickname
    then let found := (found + 1) mod 2 ^ 32 in if found =? ref then Some m else nth_from l nickname found ref
    else nth_from l nickname found ref
  end.
Definition clock_of (m : msg) : string :=
  let '(h, mi, s) := localtime (m_timestamp m) in
  pad2 h +:+ ":" +:+ pad2 mi +:+ ":" +:+ pad2 s
  +:+ (if m_multiple m then ":" +:+ t2s (to_int32 (m_ref m)) else "").
(** The nickname at the start of the word, and the number after it. *)
Definition address (start : string) : option (string * Z) :=
  end_ ← skip_to (slen start) (fun c => Ascii.eqb c ":" || Ascii.eqb c "194") start;
  let nickname := upto start end_ in
  let end_ := if Ascii.eqb (shead end_) ":" then sdrop 1 end_ else end_ in
  Some (nickname, if isdigit (shead end_) then strtoul end_ mod 2 ^ 32 else superscript end_ 1).
Fixpoint convert_loop (fuel : nat) (start : string) (l : list msg) : option string :=
  match fuel, start with
  | S fuel, String _ _ =>
    next_ ← next start;
    next_ ← skip_to (slen next_) (Ascii.eqb " ") next_;
    let word := upto start next_ in
    to_who ← (if (2 <? slen word)%nat && negb (sempty next_) && bool_decide (slast word = Some ":"%char)
              then '(nickname, ref) ← address start; Some (nth_from l nickname 0 ref)
              else Some None);
    match to_who with
    | Some m => rest ← convert_loop fuel next_ l; Some (clock_of m +:+ rest)
    | None =>
      let next_ := if Ascii.eqb (shead next_) " " then sdrop 1 next_ else next_ in
      rest ← convert_loop fuel next_ l; Some (upto start next_ +:+ rest)
    end
  | _, _ => Some ""
  end.
Definition coincoin_convert_message (l : list msg) (text : string) : option string :=
  let text := strip_html text in
  if no_reformat_messages then Some text else convert_loop (slen text) text l.
End Board.

(** *** [strutf8]: GLib's reading of UTF-8 is given. *)
Class Utf8Env := {
  utf8_valid : string -> bool;                     (* g_utf8_validate *)
  utf8_char : string -> option nat }.              (* the bytes of the valid character at the head *)
Section Strutf8.
Context {env : Utf8Env}.
(** A character of ISO-8859-1 above 127, in UTF-8. *)
Definition latin1 (b : ascii) : string := String (chr (192 + code b / 64)) (String (chr (128 + code b mod 64)) "").
Definition clean_ascii (b : ascii) : ascii :=
  if (31 <? code b) && negb (code b =? 127) then b
  else if Ascii.eqb b "010" || Ascii.eqb b "013" || Ascii.eqb b "009" then b else " "%char.
Fixpoint strutf8_loop (max : nat) (pc : string) : string :=
  match max, pc with
  | S max, String b rest =>
    if code b <? 128 then String (clean_ascii b) (strutf8_loop max rest)
    else match utf8_char pc with
         | Some n => stake n pc +:+ strutf8_loop max (sdrop n pc)
         | None => (if 159 <? code b then latin1 b else " ") +:+ strutf8_loop max rest
         end
  | _, _ => ""
  end.
(** [n] characters of a valid text. *)
Fixpoint utf8_take (n : nat) (s : string) : string :=
  match n, s with
  | S n, String c _ => stake (skip c) s +:+ utf8_take n (sdrop (skip c) s)
  | _, _ => ""
  end.
(** [None] is NULL; [uMaxChar] is not 0, or means no limit. *)
Definition strutf8 (pc : option string) (uMaxChar : nat) : option string :=
  match pc with
  | None | Some "" => None
  | Some pc =>
    let max := if (uMaxChar =? 0)%nat then slen pc else uMaxChar in
    Some (if utf8_valid pc then utf8_take max pc else strutf8_loop max pc)
  end.
End Strutf8.
End Board.

(** ** The account (coincoin.c) *)
Module CoinCoin.
Import Http.
Definition CC_DEFAULT_BOARD : string := "/board/index.xml".
Definition CC_DEFAULT_POST : string := "/board".
Definition CC_DEFAULT_TEMPLATE : string := "board[message]=%s".
Definition CC_CHECK_INTERVAL : Z := 30.
(** The settings of an account. *)
Record account := Account {
  ca_username : string; ca_password : option string; ca_ssl : bool;
  ca_board : string; ca_post : string; ca_template : string }.
(** The callbacks that the requests of the account name. *)
Definition LOGIN : nat := 1.
Definition PARSE : nat := 2.
Definition POSTED : nat := 3.
Inductive ev :=
| DisplayName (n : string) | Progress (text : string) (step : Z) | Connecting | Connected
| LoginError (text : string) | SetCookie (name value : string) | Ask (r : request)
| JoinedChat (id : Z) (name : string) | ParseMessage | TimerAdded (seconds : Z).
(** What a part of the account does, until something that C does not define. *)
Inductive run := Run (l : list ev) | Undefined (l : list ev) (why : string).
Definition before (l : list ev) (r : run) : run :=
  match r with Run l' => Run (l ++ l') | Undefined l' w => Undefined (l ++ l') w end.

(** [g_strsplit(s, c, -1)] and [g_strsplit(s, c, 2)]. *)
Fixpoint split (c : ascii) (s : string) : list string :=
  match s with
  | "" => [""]
  | String d s' =>
    if Ascii.eqb c d then "" :: split c s'
    else match split c s' with [] => [String d ""] | w :: l => String d w :: l end
  end.
Definition g_strsplit (c : ascii) (s : string) : list string := if sempty s then [] else split c s.
Definition g_strsplit2 (c : ascii) (s : string) : list string :=
  if sempty s then []
  else match find_if (Ascii.eqb c) s with
       | Some i => [stake i s; sdrop (S i) s]
       | None => [s]
       end.

Definition with_ssl (a : account) (method : Z) : Z := if ca_ssl a then Z.lor method HTTP_METHOD_SSL else method.
(** The host of the account, NULL without a [@] in the username. *)
Definition hostname (a : account) : option string := g_strsplit2 "@" (ca_username a) !! 1%nat.
Definition display_name (a : account) : string := default "" (g_strsplit2 "@" (ca_username a) !! 0%nat).
Definition ask (a : account) (method : Z) (url : string) (data : option string) (cb : nat) : request :=
  Request (with_ssl a method) (hostname a) url data (Some cb).
Definition coincoin_check_new_messages (a : account) : list ev := [Ask (ask a HTTP_METHOD_GET (ca_board a) None PARSE)].

(** The cookies of the password; a value without a [=] is printed as NULL is. *)
Fixpoint cookies (parts : list string) : run :=
  match parts with
  | [] => Run []
  | part :: parts =>
    match g_strsplit2 "=" part with
    | k :: v => before [SetCookie k (default "(null)" (v !! 0%nat))] (cookies parts)
    | [] => Undefined [] "keys[1]"
    end
  end.
Definition coincoin_login (ssl_supported : bool) (a : account) : run :=
  before [DisplayName (display_name a)]
    (if ca_ssl a && negb ssl_supported
     then Run [LoginError "Server requires TLS/SSL for login.  No TLS/SSL support found."]
     else
       before [Connecting; Progress "Connecting" 1; SetCookie "login" (display_name a)]
         (match cookies (match ca_password a with Some p => g_strsplit ";" p | None => [] end) with
          | Run l => Run (l ++ [Ask (ask a HTTP_METHOD_GET (ca_board a) None LOGIN)])
          | r => r
          end)).
(** [node] is the name of the root of the XML, when it is read. *)
Definition coincoin_login_cb (node : option string) : list ev :=
  Progress "Authenticating" 2
  :: (if bool_decide (node = Some "board")
      then [Connected; JoinedChat 1 "board"; ParseMessage; TimerAdded CC_CHECK_INTERVAL]
      else [LoginError "This is not a DaCode board. (check 'board' and 'post' settings)"]).
Definition coincoin_message_posted (a : account) (len : nat) : list ev :=
  if (0 <? len)%nat then [] else coincoin_check_new_messages a.
(** The template with the text for each [%s]; [None] reads after the template. *)
Fixpoint fill (fuel : nat) (start encoded : string) : option string :=
  match fuel, start with
  | S fuel, String c rest =>
    next ← Utf8.next start;
    if Ascii.eqb c "%" && Ascii.eqb (shead rest) "s"
    then s ← fill fuel (sdrop 1 next) encoded; Some (encoded +:+ s)
    else s ← fill fuel next encoded; Some (Utf8.upto start next +:+ s)
  | _, _ => Some ""
  end.
(** [convert] is [coincoin_convert_message]; a NULL that [http_url_encode] gives is
    appended as nothing. *)
Definition coincoin_chat_send (memory : Z -> bool) (convert : string -> option string) (a : account) (what : string) : run :=
  match convert what with
  | None => Undefined [] "read after the text"
  | Some text =>
    match Url.http_url_encode memory true text with
    | Url.Undefined w => Undefined [] w
    | r =>
      let encoded := match r with Url.Encoded e => e | _ => "" end in
      match fill (slen (ca_template a)) (ca_template a) encoded with
      | None => Undefined [] "read after the text"
      | Some data => Run [Ask (ask a HTTP_METHOD_POST (ca_post a) (Some data) POSTED)]
      end
    end
  end.
End CoinCoin.
