(* ===== verification/BoardProps.v ===== *)
(** What the board promises: a message is shown once, in order, and the list of those
    that are kept is bounded; a reply to a message is read back as the newest one of its time; what is
    posted is the text that was typed. *)

From S2P Require Import Prelude Util Dcc Effects Url Http HttpProps CoinCoin.
Local Open Scope eff_scope.

Module BoardP.
Import Eff Utf8 Board.
Section BoardP.
Context {env : BoardEnv}.

(** ** The number of a message among those of one second *)

(** The list has its last message first: times do not grow, and messages of one time
    have numbers that decrease by one. *)
Definition follows (m cur : msg) : Prop :=
  m_timestamp cur < m_timestamp m \/ (m_timestamp m = m_timestamp cur /\ m_ref m = m_ref cur + 1
                                      /\ m_multiple m = true /\ m_multiple cur = true).
Fixpoint numbered (l : list msg) : Prop :=
  match l with
  | m :: (cur :: _) as l' => follows m cur /\ numbered l'
  | _ => True
  end.
(** The messages that stand alone have the number 1. *)
Definition single_one (l : list msg) : Prop := forall m, m ∈ l -> m_multiple m = false -> m_ref m = 1.
Definition bounded_refs (n : Z) (l : list msg) : Prop := forall m, m ∈ l -> 1 <= m_ref m <= n.

(** What the parser makes of it: messages of one time that are next to each other. *)
Fixpoint linked (l : list msg) : Prop :=
  match l with
  | m :: (cur :: _) as l' =>
    (m_timestamp cur = m_timestamp m -> m_ref m = m_ref cur + 1 /\ m_multiple m = true /\ m_multiple cur = true)
    /\ linked l'
  | _ => True
  end.
Definition newest_first : list msg -> Prop := Sorted (fun m cur => m_timestamp cur <= m_timestamp m).
Lemma linked_numbered l : linked l -> newest_first l -> numbered l.
Proof.
  induction l as [|m [|cur l] IH]; intros Hl Hs; [done..|]. destruct Hl as [Hm Hl].
  apply Sorted_inv in Hs as [Hs Hh]. apply HdRel_inv in Hh. split; [|by apply IH].
  destruct (decide (m_timestamp cur = m_timestamp m)) as [E|E]; [|left; lia].
  right. by destruct (Hm E) as (? & ? & ?).
Qed.
Lemma enter_linked m l n : linked l -> bounded_refs n l -> n < 2 ^ 32 - 1 -> linked (enter m l).
Proof.
  intros Hl Hb Hn. destruct l as [|cur l]; [done|]. cbn [enter].
  destruct (Z.eqb_spec (m_timestamp cur) (m_timestamp m)) as [E|E]; [|by split].
  pose proof (Hb cur ltac:(by left)). split; cbn.
  - intros _. split; [|done]. by rewrite Z.mod_small by lia.
  - destruct l as [|c l]; [done|]. destruct Hl as [Hc Hl]. split; [|done]. intros Ec. by destruct (Hc Ec) as (? & ? & ?).
Qed.
Lemma enter_elem m l x : x ∈ enter m l ->
  x = m \/ x ∈ l \/ (m_multiple x = true /\ ((exists cur, head l = Some cur /\ m_ref x = (m_ref cur + 1) mod 2 ^ 32)
                                             \/ (exists cur, cur ∈ l /\ m_ref x = m_ref cur))).
Proof.
  destruct l as [|cur l]; cbn [enter]; [intros ?%list_elem_of_singleton; by left|].
  destruct (_ =? _).
  - intros [->|[->|Hx]%elem_of_cons]%elem_of_cons.
    + right. right. split; [done|]. left. by exists cur.
    + right. right. split; [done|]. right. exists cur. split; [left|done].
    + right. left. by right.
  - intros [->|Hx]%elem_of_cons; [by left|right; by left].
Qed.
(** Numbers stay bounded, and those of messages alone 1. *)
Lemma enter_bounded m l n : bounded_refs n l -> 1 <= n < 2 ^ 32 - 1 -> m_ref m = 1 -> bounded_refs (n + 1) (enter m l).
Proof.
  intros Hb Hn Hm x [->|[Hx|[_ [(cur & Hc & ->)|(cur & Hc & ->)]]]]%enter_elem; [lia|specialize (Hb x Hx); lia| |].
  - destruct l as [|c l]; [done|]. injection Hc as ->. specialize (Hb cur ltac:(by left)). rewrite Z.mod_small; lia.
  - specialize (Hb cur Hc). lia.
Qed.
Lemma enter_single m l : single_one l -> m_ref m = 1 -> single_one (enter m l).
Proof.
  intros Hs Hm x [->|[Hx|[Hmu _]]]%enter_elem Hf; [done|by apply Hs|congruence].
Qed.
(** A prefix of the list, which is what stays of it, keeps all of that. *)
Lemma linked_take k l : linked l -> linked (take k l).
Proof.
  revert k. induction l as [|m l IH]; intros [|k] H; try done. destruct l as [|c l]; [by destruct k|].
  destruct H as [H Hl]. cbn [take]. destruct k as [|k]; [done|]. specialize (IH (S k) Hl). cbn [take] in *. by split.
Qed.
Lemma numbered_suffix k l : numbered (k ++ l) -> numbered l.
Proof.
  induction k as [|m k IH]; [done|]. intros H. apply IH. by destruct k, l; cbn in *; try done; destruct H.
Qed.
(** Time and number tell a message from the ones before it. *)
Lemma numbered_older m l x : numbered (m :: l) -> x ∈ l ->
  m_timestamp x < m_timestamp m \/ (m_timestamp x = m_timestamp m /\ m_ref x < m_ref m).
Proof.
  revert m. induction l as [|c l IH]; intros m H Hx; [by apply elem_of_nil in Hx|]. destruct H as [H Hl].
  assert (G : m_timestamp c < m_timestamp m \/ (m_timestamp c = m_timestamp m /\ m_ref c < m_ref m)).
  { destruct H as [?|(?&?&_)]; [by left|right; lia]. }
  apply elem_of_cons in Hx as [->|Hx]; [done|]. destruct (IH c Hl Hx); destruct G; lia.
Qed.
(** What a reference tells of a message: its time of day, and its number. *)
Definition same_ref (m x : msg) : Prop :=
  localtime (m_timestamp x) = localtime (m_timestamp m) /\ m_ref x = m_ref m.
Lemma refers_spec m x : let '(h, mi, s) := localtime (m_timestamp m) in
  refers h mi (Some s) (m_ref m) x = true <-> same_ref m x.
Proof.
  unfold refers, same_ref. destruct (localtime (m_timestamp m)) as [[h mi] s].
  destruct (localtime (m_timestamp x)) as [[h' mi'] s']. rewrite !andb_true_iff, !Z.eqb_eq. naive_solver.
Qed.
Lemma find_first (p : msg -> bool) (l : list msg) m : m ∈ l -> p m = true ->
  exists newer x older, l = newer ++ x :: older /\ List.find p l = Some x /\ p x = true
    /\ forall y, y ∈ newer -> p y = false.
Proof.
  intros Hm Hp. induction l as [|c l IH]; [by apply elem_of_nil in Hm|]. cbn [List.find]. destruct (p c) eqn:Hc.
  - exists [], c, l. split_and!; try done. by intros y ?%elem_of_nil.
  - apply elem_of_cons in Hm as [->|Hm]; [congruence|]. destruct (IH Hm) as (k & x & o & -> & Hf & Hx & Hk).
    exists (c :: k), x, o. split_and!; try done. intros y [->|Hy]%elem_of_cons; auto.
Qed.
(** In order, with one day of each time, only the message itself has its reference. *)
Lemma ref_unique m newer x older : numbered (newer ++ x :: older) -> m ∈ newer ++ x :: older -> same_ref m x ->
  (forall y, y ∈ newer -> ~ same_ref m y) -> (same_ref m x -> m_timestamp x = m_timestamp m) -> x = m.
Proof.
  intros Hn [Hm|[->|Hm]%elem_of_cons]%elem_of_app Hx Hnew Ht; [by destruct (Hnew m Hm)|done|].
  destruct (numbered_older x older m (numbered_suffix _ _ Hn) Hm); destruct Hx; specialize (Ht ltac:(done)); lia.
Qed.

(** ** A reference in the text *)
Lemma take_digits_2 a b acc rest : 0 <= a <= 9 -> 0 <= b <= 9 ->
  take_digits 2 acc (String (chr (48 + a)) (String (chr (48 + b)) rest)) = (100 * acc + 10 * a + b, rest).
Proof.
  intros Ha Hb. cbn [take_digits]. rewrite !Num.isdigit_chr by lia. rewrite !Num.code_chr by lia. f_equal. lia.
Qed.
Lemma digit_char a : 0 <= a <= 9 -> let c := chr (48 + a) in
  Num.isspace c = false /\ Ascii.eqb c "-" = false /\ Ascii.eqb c "+" = false.
Proof.
  intros H. assert (Hc : a ∈ [0;1;2;3;4;5;6;7;8;9]) by (rewrite !elem_of_cons; lia). clear H. set_unfold.
  naive_solver.
Qed.
Lemma scan_d_pad2 z rest : 0 <= z <= 99 -> scan_d 2 (pad2 z +:+ rest) = Some (z, rest).
Proof.
  intros Hz.
  assert (Hp : pad2 z = String (chr (48 + z / 10)) (String (chr (48 + z mod 10)) "")).
  { unfold pad2, t2s. destruct (Z.ltb_spec z 10).
    - destruct (Z.ltb_spec z 0); [lia|]. cbn [dec_digits]. destruct (Z.ltb_spec z 10); [|lia].
      by rewrite Z.div_small by lia.
    - destruct (Z.ltb_spec z 0); [lia|]. cbn [dec_digits]. destruct (Z.ltb_spec z 10); [lia|].
      destruct (Z.ltb_spec (z / 10) 10) as [|Hd]; [|exfalso; pose proof (Z.div_lt_upper_bound z 10 10); lia].
      by rewrite (Z.mod_small (z / 10)) by (split; [apply Z.div_pos; lia|lia]). }
  assert (H1 : 0 <= z / 10 <= 9) by (split; [apply Z.div_pos; lia|pose proof (Z.div_lt_upper_bound z 10 10); lia]).
  assert (H2 : 0 <= z mod 10 <= 9) by (pose proof (Z.mod_pos_bound z 10); lia).
  rewrite Hp, !app_cons_s, app_nil_l_s. unfold scan_d.
  destruct (digit_char _ H1) as (Ha & Hb & Hc). cbn [Num.skip_ws]. rewrite Ha, Hb, Hc. cbn [shead].
  rewrite Num.isdigit_chr by lia. cbn [andb]. rewrite (take_digits_2 _ _ 0) by lia.
  cbn. do 2 f_equal. pose proof (Z.div_mod z 10). lia.
Qed.

Lemma t2s_head z : 0 <= z < 10 ^ 20 -> isdigit (shead (t2s z)) = true.
Proof. intros H. destruct (Num.t2s_spec z H) as (Hd & Hn & _). destruct (t2s z); [done|]. by apply andb_true_iff in Hd as [? _]. Qed.
Definition in_day (t : Z * Z * Z) : Prop := let '(h, mi, s) := t in 0 <= h <= 99 /\ 0 <= mi <= 99 /\ 0 <= s <= 99.
Lemma scan_clock_of m h mi s : localtime (m_timestamp m) = (h, mi, s) -> in_day (h, mi, s) -> 0 <= m_ref m < 2 ^ 31 ->
  scan_clock (clock_of m) = Some (h, mi, Some (s, if m_multiple m then Some (m_ref m) else None)).
Proof.
  intros Hl (Hh & Hm & Hs) Hr. unfold clock_of. rewrite Hl. unfold scan_clock.
  rewrite scan_d_pad2 by done. cbn [mbind option_bind]. rewrite ?app_cons_s, ?app_nil_l_s. cbn [lit]. rewrite ?Ascii.eqb_refl. cbn [mbind option_bind].
  rewrite scan_d_pad2 by done. cbn [mbind option_bind lit]. rewrite ?app_cons_s, ?app_nil_l_s. cbn [lit]. rewrite ?Ascii.eqb_refl. cbn [mbind option_bind].
  rewrite scan_d_pad2 by done. cbn [mbind option_bind]. destruct (m_multiple m); [|done].
  rewrite ?app_cons_s, ?app_nil_l_s. cbn [lit]. rewrite ?Ascii.eqb_refl. cbn [mbind option_bind].
  assert (Ht : to_int32 (m_ref m) = m_ref m) by (unfold to_int32; rewrite Z.mod_small; lia).
  rewrite Ht, t2s_head by lia. unfold strtoul. rewrite Num.s2t_unsigned_t2s by lia. cbn [default from_option id].
  by rewrite Z.mod_small by lia.
Qed.
Lemma format_clock_found m x from rest l : in_day (localtime (m_timestamp m)) -> 0 <= m_ref m < 2 ^ 31 ->
  (m_multiple m = false -> m_ref m = 1 /\ superscript rest 1 = 1) ->
  (let '(h, mi, s) := localtime (m_timestamp m) in List.find (refers h mi (Some s) (m_ref m)) l = Some x) ->
  m_from x = Some from ->
  format_clock (clock_of m) rest l = from +:+ ": " +:+ font "blue" +:+ clock_of m +:+ "</FONT>".
Proof.
  intros Hday Hr Hs Hfind Hf. unfold format_clock. destruct (localtime (m_timestamp m)) as [[h mi] s] eqn:El.
  rewrite (scan_clock_of m h mi s) by done. cbn [fmap option_fmap option_map fst].
  assert (E : (match (if m_multiple m then Some (m_ref m) else None) with Some r => r | None => superscript rest 1 end) = m_ref m).
  { destruct (m_multiple m) eqn:Em; [done|]. destruct (Hs eq_refl) as [-> ->]. done. }
  rewrite E, Hfind, Hf. by rewrite app_assoc_s.
Qed.

(** ** A board that is read *)

(** The formatting stays in the text, whatever the messages are; so it does when the
    text is in ASCII. *)
Definition readable (text : string) : Prop := forall l, format_loop (slen text) text l <> None.
Definition ascii_text (s : string) : Prop := sall (fun c => code c <? 128) s = true.
Lemma ascii_next c s : ascii_text (String c s) -> next (String c s) = Some s.
Proof.
  intros [H _]%andb_true_iff. apply Z.ltb_lt in H. unfold next, skip. cbn [shead].
  destruct (Z.ltb_spec (code c) 192); [|lia]. done.
Qed.
Lemma ascii_skip_to n stop s : ascii_text s -> exists t, skip_to n stop s = Some t /\ ascii_text t /\ (slen t <= slen s)%nat
  /\ (s = "" \/ stop (shead s) = true -> t = s).
Proof.
  revert s. induction n as [|n IH]; intros s H; [by exists s|]. destruct s as [|c s]; [by exists ""|]. cbn [skip_to].
  destruct (stop c) eqn:E; [by exists (String c s)|]. rewrite ascii_next by done. cbn [mbind option_bind].
  destruct (IH s) as (t & Ht & Ha & Hl & _); [by apply andb_true_iff in H as [_ ?]|]. exists t.
  split; [done|]. split; [done|]. split; [cbn; lia|]. intros [?|Hs]; [done|]. cbn in Hs. congruence.
Qed.
Lemma ascii_sdrop n s : ascii_text s -> ascii_text (sdrop n s).
Proof. revert s. induction n as [|n IH]; intros [|c s] H; try done. apply andb_true_iff in H as [_ H]. by apply IH. Qed.
Lemma ascii_readable_at fuel s l : ascii_text s -> format_loop fuel s l <> None.
Proof.
  revert s. induction fuel as [|fuel IH]; intros s H; [done|]. destruct s as [|c s]; [done|]. cbn [format_loop].
  rewrite ascii_next by done. cbn [mbind option_bind].
  assert (Hs : ascii_text s) by (by apply andb_true_iff in H as [_ ?]).
  assert (G : forall f (t : string), ascii_text t -> (rest ← format_loop fuel t l; Some (f +:+ rest)) <> None).
  { intros f t Ht. specialize (IH t Ht). by destruct (format_loop fuel t l). }
  destruct (_ && _).
  - destruct (ascii_skip_to (slen (String c s)) (Ascii.eqb "]") (String c s) H) as (t & -> & Ht & _). cbn [mbind option_bind].
    destruct (Ascii.eqb _ _); [|by apply G]. specialize (IH (sdrop 1 t) ltac:(by apply ascii_sdrop)). by destruct (format_loop fuel _ l).
  - destruct (_ || _); [|by apply G].
    destruct (ascii_skip_to (slen (String c s)) (fun c => negb (isdigit c || Ascii.eqb c ":")) (String c s) H) as (t & -> & Ht & _).
    cbn [mbind option_bind]. by apply G.
Qed.
Lemma ascii_readable s : ascii_text s -> readable s.
Proof. intros H l. by apply ascii_readable_at. Qed.

(** A post, with what it says of its message. *)
Definition post_id (p : post) : Z := to_int64 (strtoul (default "" (p_id p))).
Definition post_from (p : post) : string := match p_login p with Some (Some n) => n | _ => "" end.
Definition post_text (p : post) : string := match p_message p with Some (Some t) => skip_blank t | _ => "" end.
Definition dated (p : post) (t : Z) : Prop :=
  match p_time p ≫= scan_time with
  | Some (y, mo, d, h, mi, sec) => t = mktime (y - 1900) (mo - 1) d h mi sec
  | None => exists past, t = now past
  end.
Definition message_of (p : post) (text : string) (t : Z) : msg :=
  Msg (Some text) (default None (p_info p)) (Some (post_from p)) t 1 false (post_id p).
(** It has the three children that make a message; then neither its login nor its text
    is empty, it has a time, and its text is UTF-8.  Any post has an id. *)
Definition whole (p : post) : bool :=
  bool_decide (is_Some (p_message p)) && bool_decide (is_Some (p_info p)) && bool_decide (is_Some (p_login p)).
Definition sound (p : post) : Prop :=
  is_Some (p_id p)
  /\ (whole p = true -> is_Some (p_time p) /\ (exists n, p_login p = Some (Some n))
                        /\ (exists t, p_message p = Some (Some t)) /\ readable (post_text p)).
(** The posts up to one that is known, which make a message. *)
Fixpoint fresh (posts : list post) (known : list msg) : list post :=
  match posts with
  | [] => []
  | p :: posts =>
    if existsb (fun m => m_id m =? post_id p) known then []
    else if whole p then p :: fresh posts known else fresh posts known
  end.
(** The text of a message as it is shown: references to the messages [l] are expanded. *)
Definition reformat (l : list msg) (text : string) : option string :=
  if no_reformat_messages then Some text else format_loop (slen text) text l.
(** The posts, the oldest first, shown one after the other: each with its author, its
    text and its time, and entered in the list before the next one is. *)
Inductive told : list post -> list msg -> list (string * option string * Z) -> list msg -> Prop :=
| told_nil l : told [] l [] l
| told_cons p posts l text t es l' :
  dated p t -> reformat l (post_text p) = Some text ->
  told posts (enter (message_of p text t) l) es l' ->
  told (p :: posts) l ((post_from p, Some text, t) :: es) l'.
Definition made (p : post) (m : msg) : Prop := exists t, dated p t /\ m = message_of p (post_text p) t.
Definition joins (t : list ev) : Prop := Forall (fun e => match e with AddUser _ _ => True | _ => False end) t.
Definition leaves (t : list ev) : Prop := Forall (fun e => match e with RemoveUser _ => True | _ => False end) t.

Lemma new_run p s : sound p ->
  if whole p then exists m, coincoin_message_new (post_id p) p s = (s, Done (Some m)) /\ made p m /\ m_info m = default None (p_info p)
  else coincoin_message_new (post_id p) p s = (s, Done None).
Proof.
  intros [_ H]. destruct (whole p) eqn:Ew.
  - destruct (H eq_refl) as ([ti Ht] & [n Hn] & [te Hm] & _). unfold whole in Ew.
    apply andb_true_iff in Ew as [[_ [i Hi]%bool_decide_eq_true]%andb_true_iff _].
    unfold coincoin_message_new. rewrite Hi, Hn, Hm, Ht. eexists. split; [reflexivity|]. split; [|done].
    exists (match scan_time ti with Some (y, mo, d, h, mi, sec) => mktime (y - 1900) (mo - 1) d h mi sec | None => now (trace s) end).
    split.
    + unfold dated. rewrite Ht. cbn. destruct (scan_time ti) as [[[[[[? ?] ?] ?] ?] ?]|]; [done|by eexists].
    + unfold message_of, post_from, post_text. rewrite Hi, Hn, Hm. done.
  - unfold whole in Ew. unfold coincoin_message_new.
    destruct (p_message p); [|done]. destruct (p_info p); [|done]. by destruct (p_login p).
Qed.
Lemma collect_run posts known found s : Forall sound posts ->
  exists ms t, collect posts known found s = (St (messages s) (trace s ++ t), Done (rev ms ++ found))
    /\ Forall2 made (fresh posts known) ms /\ joins t.
Proof.
  intros H. revert found s. induction H as [|p posts Hp Hposts IH]; intros found s.
  { exists [], []. rewrite app_nil_r. destruct s. split; [done|]. split; constructor. }
  pose proof (new_run p s Hp) as Hm. pose proof Hp as [[i Hi] _].
  cbn [collect fresh]. rewrite Hi. unfold deref at 1, bind at 1. cbn [ret].
  assert (Hid : to_int64 (strtoul i) = post_id p) by (unfold post_id; by rewrite Hi). rewrite Hid.
  destruct (existsb (fun m => m_id m =? post_id p) known).
  { exists [], []. rewrite app_nil_r. destruct s. split; [done|]. split; constructor. }
  destruct (whole p); [|unfold bind at 1; rewrite Hm; apply IH].
  destruct Hm as (m & Hm & Hmade & _). unfold bind at 1. rewrite Hm.
  assert (Hmf : m_from m = Some (post_from p)) by by destruct Hmade as (t & _ & ->). rewrite Hmf.
  unfold bind at 1. cbn [deref ret]. unfold bind at 1, get. unfold bind at 1.
  assert (G : forall s1 t1, messages s1 = messages s -> trace s1 = trace s ++ t1 -> joins t1 ->
    exists ms t, collect posts known (m :: found) s1 = (St (messages s) (trace s ++ t), Done (rev ms ++ found))
    /\ Forall2 made (p :: fresh posts known) ms /\ joins t).
  { intros s1 t1 Hs1 Ht1 Hj. destruct (IH (m :: found) s1) as (ms & t & -> & Hms & Ht). exists (m :: ms), (t1 ++ t).
    rewrite Hs1, Ht1, <- app_assoc. cbn [rev]. rewrite <- app_assoc. split; [done|]. split; [|by apply Forall_app].
    constructor; [|done]. done. }
  destruct (negb _ && negb _); cbn [when].
  - unfold emit, put. apply (G _ [AddUser (post_from p) (m_info m)]); [done|done|]. by repeat constructor.
  - cbn [ret]. apply (G s []); [done|by rewrite app_nil_r|constructor].
Qed.
Lemma enter_ids m l : map m_id (enter m l) = m_id m :: map m_id l.
Proof. destruct l as [|c l]; [done|]. cbn. by destruct (_ =? _). Qed.
Lemma enter_from m l : map m_from (enter m l) = m_from m :: map m_from l.
Proof. destruct l as [|c l]; [done|]. cbn. by destruct (_ =? _). Qed.
(** The messages that are shown: who wrote them, their text and their time. *)
Fixpoint shown (t : list ev) : list (string * option string * Z) :=
  match t with [] => [] | GotChat n x d :: t => (n, x, d) :: shown t | _ :: t => shown t end.
Lemma shown_app t u : shown (t ++ u) = shown t ++ shown u.
Proof. induction t as [|[]]; cbn; [done|done|done|]. by f_equal. Qed.
Lemma shown_joins t : joins t -> shown t = [].
Proof. by induction 1 as [|[] ? ? ? IH]. Qed.
Lemma shown_leaves t : leaves t -> shown t = [].
Proof. by induction 1 as [|[] ? ? ? IH]. Qed.
Lemma flush_run posts l s : Forall2 made posts l -> Forall (fun p => readable (post_text p)) posts ->
  exists s' t, flush l s = (s', Done tt) /\ trace s' = trace s ++ t
    /\ told posts (messages s) (shown t) (messages s').
Proof.
  intros H. revert s. induction H as [|p m posts l (ti & Hd & ->) Hl IH]; intros s Hr.
  { exists s, []. rewrite app_nil_r. split_and!; [done..|constructor]. }
  apply Forall_cons in Hr as [Hr Hrs]. cbn [flush]. unfold bind at 1, get.
  assert (G : exists text, reformat (messages s) (post_text p) = Some text
    /\ (if no_reformat_messages then ret (message_of p (post_text p) ti)
        else coincoin_message_ref (message_of p (post_text p) ti) (messages s)) s = (s, Done (message_of p text ti))).
  { unfold reformat. destruct no_reformat_messages; [by eexists|]. unfold coincoin_message_ref. cbn [m_message message_of].
    unfold bind, deref. cbn [ret]. specialize (Hr (messages s)).
    destruct (format_loop _ _ _) as [u|] eqn:Eu; [|done]. eexists. split; [done|]. done. }
  destruct G as (text & Ht & G). unfold bind at 1. rewrite G. unfold emit, put, bind at 1, bind at 1.
  destruct (IH (St (enter (message_of p text ti) (messages s)) (trace s ++ [GotChat (post_from p) (Some text) ti])) Hrs)
    as (s' & t & Hr' & Ht' & Hsh).
  exists s', (GotChat (post_from p) (Some text) ti :: t). split; [exact Hr'|].
  cbn [trace] in Ht'. split; [by rewrite Ht', <- app_assoc|]. by apply (told_cons p posts _ text ti).
Qed.
Lemma told_ids posts l es l' : told posts l es l' ->
  map m_id l' = rev (map post_id posts) ++ map m_id l
  /\ map m_from l' = rev (map (fun p => Some (post_from p)) posts) ++ map m_from l.
Proof.
  induction 1 as [|p posts l text t es l' Hd Ht H [IH1 IH2]]; [done|].
  rewrite IH1, IH2, enter_ids, enter_from. cbn. by rewrite <- !app_assoc.
Qed.
Lemma forget_run kept l s : Forall (fun m => is_Some (m_from m)) l ->
  exists t, forget kept l s = (St (messages s) (trace s ++ t), Done tt) /\ leaves t.
Proof.
  intros H. revert s. induction H as [|m l [n Hn] Hl IH]; intros s.
  { exists []. rewrite app_nil_r. destruct s. split; [done|constructor]. }
  cbn [forget]. rewrite Hn. unfold bind at 1. cbn [deref ret]. unfold bind at 1, get, bind at 1.
  destruct (_ && _ && _); cbn [when].
  - unfold emit, put. edestruct (IH (St (messages s) (trace s ++ [RemoveUser n]))) as (t & -> & Ht).
    exists (RemoveUser n :: t). cbn. rewrite <- app_assoc. split; [done|]. by constructor.
  - cbn [ret]. apply IH.
Qed.
(** Every message of the list has an author. *)
Definition authored (l : list msg) : Prop := Forall (fun m => is_Some (m_from m)) l.
Lemma authored_map l : authored l <-> Forall (fun o => is_Some o) (map m_from l).
Proof. unfold authored. by rewrite Forall_fmap. Qed.
Lemma fresh_sound posts known : Forall sound posts -> Forall (fun p => readable (post_text p)) (fresh posts known).
Proof.
  induction 1 as [|p posts [_ Hp] H IH]; [constructor|]. cbn [fresh]. destruct (existsb _ _); [constructor|].
  destruct (whole p); [|done]. constructor; [|done]. by apply Hp.
Qed.
Lemma parse_run (posts : list post) (s : st) : Forall sound posts -> authored (messages s) ->
  let fr := fresh posts (messages s) in
  exists s' t l, coincoin_parse_message true (Some posts) s = (s', Done tt) /\ trace s' = trace s ++ t
    /\ told (rev fr) (messages s) (shown t) l /\ messages s' = take (length fr + 101) l.
Proof.
  intros Hp Ha fr. unfold coincoin_parse_message. cbn [negb]. unfold bind at 1, get.
  destruct (collect_run posts (messages s) [] s Hp) as (ms & t1 & Hc & Hms & Hj). rewrite app_nil_r in Hc.
  unfold bind at 1. rewrite Hc. fold fr in Hms.
  assert (Hlen : length ms = length fr) by (symmetry; by eapply Forall2_length).
  destruct (flush_run (rev fr) (rev ms) (St (messages s) (trace s ++ t1))) as (s2 & t2 & Hf & Ht2 & Htold).
  { rewrite !rev_alt. by apply Forall2_reverse. }
  { by apply Forall_rev, fresh_sound. }
  unfold bind at 1. rewrite Hf. unfold purge, bind at 1, get, bind at 1, put.
  cbn [messages trace] in *. destruct (told_ids _ _ _ _ Htold) as [_ Hfr2].
  assert (Ha2 : authored (messages s2)).
  { apply authored_map. rewrite Hfr2. apply Forall_app. split; [|by apply authored_map].
    apply Forall_rev, Forall_fmap, Forall_true. intros p. cbn. eauto. }
  rewrite length_rev, Hlen. set (k := (length fr + S CC_LAST_MESSAGE_MAX)%nat).
  destruct (forget_run (take k (messages s2)) (drop k (messages s2)) (St (take k (messages s2)) (trace s2))) as (t3 & Hg & Hl).
  { by apply Forall_drop. }
  rewrite Hg. eexists _, (t1 ++ t2 ++ t3), (messages s2). split; [done|]. cbn [messages trace].
  split; [by rewrite Ht2, <- !app_assoc|]. split; [|done].
  by rewrite !shown_app, (shown_joins _ Hj), (shown_leaves _ Hl), app_nil_r.
Qed.
Lemma told_kept fr l es l' : told (rev fr) l es l' -> authored l ->
  map m_id (take (length fr + 101) l') = map post_id fr ++ take 101 (map m_id l)
  /\ authored (take (length fr + 101) l').
Proof.
  intros H Ha. destruct (told_ids _ _ _ _ H) as [H1 H2]. rewrite map_rev, rev_involutive in H1, H2. split.
  - rewrite <- firstn_map, H1. rewrite <- (length_map post_id fr) at 1. by rewrite take_app_add.
  - apply Forall_take, authored_map. rewrite H2. apply Forall_app. split; [|by apply authored_map].
    apply Forall_fmap, Forall_true. intros p. cbn. eauto.
Qed.
(** C25: Reading a board shows its new posts (those before one that is kept from before)
    once, the oldest first, each with its own author, text and time, the text with its
    references expanded among the messages there are by then; it keeps the new ones and
    at most 101 of the others, in their order, each with its author.  A post that lacks a
    child is skipped; in the others neither the login nor the text is empty (an empty one
    is a NULL that the code reads), the text is UTF-8, and the attributes are there. *)
Theorem board_read (posts : list post) (s : st) : Forall sound posts -> authored (messages s) ->
  let fr := fresh posts (messages s) in
  exists s' t l, coincoin_parse_message true (Some posts) s = (s', Done tt) /\ trace s' = trace s ++ t
    /\ told (rev fr) (messages s) (shown t) l /\ messages s' = take (length fr + 101) l
    /\ map m_id (messages s') = map post_id fr ++ take 101 (map m_id (messages s))
    /\ authored (messages s').
Proof.
  intros Hp Ha fr. destruct (parse_run posts s Hp Ha) as (s' & t & l & H1 & H2 & H3 & H4).
  exists s', t, l. rewrite H4. destruct (told_kept _ _ _ _ H3 Ha). by split_and!.
Qed.

(** *** A board that was read from the start *)

Definition read_boards (boards : list (list post)) : M unit :=
  mapM_ (fun posts => coincoin_parse_message true (Some posts)) boards.
(** What its list of messages is like, after [n] posts. *)
Record kept_well (n : Z) (l : list msg) : Prop := {
  k_authored : authored l; k_linked : linked l; k_single : single_one l; k_refs : bounded_refs (n + 1) l }.
Lemma told_well posts l es l' n : told posts l es l' -> 0 <= n -> n + Z.of_nat (length posts) < 2 ^ 31 ->
  kept_well n l -> kept_well (n + Z.of_nat (length posts)) l'.
Proof.
  intros H. revert n. induction H as [|p posts l text t es l' Hd Ht H IH]; intros n Hn Hm W; [by rewrite Z.add_0_r|].
  cbn [length] in *. rewrite Nat2Z.inj_succ in *. replace (n + Z.succ _) with (n + 1 + Z.of_nat (length posts)) by lia.
  apply IH; [lia..|]. destruct W as [W1 W2 W3 W4]. split.
  - apply authored_map. rewrite enter_from. constructor; [by eexists|by apply authored_map].
  - apply (enter_linked _ _ (n + 1)); [done..|lia].
  - by apply enter_single.
  - apply enter_bounded; [done|lia|done].
Qed.
Lemma well_take n k l : kept_well n l -> kept_well n (take k l).
Proof.
  intros [W1 W2 W3 W4]. split.
  - by apply Forall_take.
  - by apply linked_take.
  - intros m Hm. apply W3. eapply subseteq_take, Hm.
  - intros m Hm. apply W4. eapply subseteq_take, Hm.
Qed.
Lemma fresh_length posts known : (length (fresh posts known) <= length posts)%nat.
Proof. induction posts as [|p posts IH]; [done|]. cbn. destruct (existsb _ _); [cbn; lia|]. destruct (whole p); cbn; lia. Qed.
Lemma well_mono n n' l : n <= n' -> kept_well n l -> kept_well n' l.
Proof. intros Hn [W1 W2 W3 W4]. split; try done. intros m Hm. specialize (W4 m Hm). lia. Qed.
Lemma boards_well boards n s : Forall (Forall sound) boards -> 0 <= n ->
  n + Z.of_nat (length (concat boards)) < 2 ^ 31 -> kept_well n (messages s) ->
  kept_well (n + Z.of_nat (length (concat boards))) (messages (fst (read_boards boards s))).
Proof.
  intros H. revert n s. induction H as [|posts boards Hp H IH]; intros n s Hn Hm W; [by rewrite Z.add_0_r|].
  cbn [concat] in *. rewrite length_app, Nat2Z.inj_add in *. pose proof (fresh_length posts (messages s)).
  destruct (parse_run posts s Hp (k_authored _ _ W)) as (s' & t & l & H1 & _ & H3 & H4).
  unfold read_boards. cbn [mapM_]. unfold bind at 1. rewrite H1. replace (n + _) with (n + Z.of_nat (length posts) + Z.of_nat (length (concat boards))) by lia.
  apply IH; [lia..|]. rewrite H4. apply well_take.
  apply (well_mono (n + Z.of_nat (length (fresh posts (messages s))))); [lia|].
  rewrite <- (length_rev (fresh posts (messages s))). apply (told_well _ _ _ _ n H3); [done|rewrite length_rev; lia|done].
Qed.
(** C26: A reply is read back, on a board that was read from the start in any number of
    times: the reference that is written for a message of the list, its time and its number
    among those of one second, is resolved to the newest message of the list with that time
    of day and that number, and shown with the name of who wrote it.  When the times of the
    list are in order and a time of day is of one day only, this is the message itself (on
    a board of several days the newer one is meant).  The text after the reference does not
    begin with a superscript when the message is alone in its second. *)
Theorem reference_read (boards : list (list post)) (m : msg) (rest : string) :
  let l := messages (fst (read_boards boards (St [] []))) in
  Forall (Forall sound) boards -> Z.of_nat (length (concat boards)) < 2 ^ 31 - 1 ->
  m ∈ l -> in_day (localtime (m_timestamp m)) -> (m_multiple m = false -> superscript rest 1 = 1) ->
  exists newer x older from, l = newer ++ x :: older /\ same_ref m x /\ (forall y, y ∈ newer -> ~ same_ref m y)
    /\ m_from x = Some from
    /\ format_clock (clock_of m) rest l = from +:+ ": " +:+ font "blue" +:+ clock_of m +:+ "</FONT>"
    /\ (newest_first l -> (forall y, y ∈ l -> same_ref m y -> m_timestamp y = m_timestamp m) -> x = m).
Proof.
  intros l Hs Hlt Hm Hday Hrest.
  assert (W : kept_well (0 + Z.of_nat (length (concat boards))) l).
  { apply boards_well; [done|lia|lia|]. split; [constructor|done|by intros ? ?%elem_of_nil..]. }
  destruct W as [Wa Wl Ws Wb]. clearbody l. pose proof (Wb m Hm) as Hr. pose proof (refers_spec m) as Hspec.
  destruct (localtime (m_timestamp m)) as [[h mi] s] eqn:El.
  destruct (find_first (refers h mi (Some s) (m_ref m)) l m Hm) as (newer & x & older & Hsplit & Hf & Hx & Hnew).
  { by apply Hspec. }
  destruct (proj1 (Forall_forall _ _) Wa x) as [from Hfrom]; [rewrite Hsplit; set_solver|].
  assert (Hnew' : forall y, y ∈ newer -> ~ same_ref m y).
  { intros y Hy Hyr%Hspec. rewrite Hnew in Hyr by done. done. }
  exists newer, x, older, from. split; [done|]. split; [by apply Hspec|]. split; [done|]. split; [done|]. split.
  - apply (format_clock_found m x); [by rewrite El|lia| |by rewrite El|done]. intros Hmu. split; [by apply Ws|auto].
  - intros Ho Hd. apply (ref_unique m newer x older); [|by rewrite <- Hsplit|by apply Hspec|done|].
    + rewrite <- Hsplit. by apply linked_numbered.
    + apply Hd. rewrite Hsplit. set_solver.
Qed.
End BoardP.
End BoardP.

(** ** What is posted *)
Module PostedP.
Import Http CoinCoin.
(** The callbacks of the account ask only for requests that have what they post. *)
Lemma check_good a : Forall (fun e => match e with Ask r => HttpP.good_request r | _ => True end) (coincoin_check_new_messages a).
Proof.
  repeat constructor. unfold HttpP.good_request, ask, with_ssl. cbn. by destruct (ca_ssl a).
Qed.
Lemma upto_char c s : Utf8.upto (String c s) s = String c "".
Proof. unfold Utf8.upto. cbn [slen]. replace (S (slen s) - slen s)%nat with 1%nat by lia. done. Qed.
(** The default template is filled by the text behind its name. *)
Lemma fill_default encoded : fill (slen CC_DEFAULT_TEMPLATE) CC_DEFAULT_TEMPLATE encoded = Some ("board[message]=" +:+ encoded).
Proof. rewrite <- (app_nil_s encoded) at 2. reflexivity. Qed.
(** What is typed on a board that has the default template is posted whole: one
    request, to the host of the account, whose form gives the server, after the name of
    the field, a text that it decodes to the converted message. *)
Theorem posted_whole (memory : Z -> bool) (convert : string -> option string) (a : account) (what text : string) :
  (forall n, memory n = true) -> ca_template a = CC_DEFAULT_TEMPLATE -> convert what = Some text ->
  Z.of_nat (slen text) < 2 ^ 28 ->
  exists r e, coincoin_chat_send memory convert a what = Run [Ask r]
    /\ is_post (rq_method r) = true /\ is_ssl (rq_method r) = ca_ssl a /\ rq_host r = hostname a
    /\ rq_postdata r = Some ("board[message]=" +:+ e) /\ Url.decode e = text.
Proof.
  intros Hm Ht Hc Hs. pose proof (Url.url_encode_runs memory true text Hm Hs) as He. pose proof (Url.decode_quoted true text) as Hd.
  unfold coincoin_chat_send. rewrite Hc, He, Ht, fill_default. eexists _, (Url.quoted true text). split; [reflexivity|].
  unfold ask, with_ssl. cbn. by destruct (ca_ssl a).
Qed.
Definition romain : account := Account "romain@linuxfr.org" (Some "id=42") false CC_DEFAULT_BOARD CC_DEFAULT_POST CC_DEFAULT_TEMPLATE.
Lemma posted_whole_witness :
  Z.of_nat (slen "plop & co") < 2 ^ 28 /\ exists r e, coincoin_chat_send (fun _ => true) Some romain "plop & co" = Run [Ask r]
    /\ is_post (rq_method r) = true /\ is_ssl (rq_method r) = ca_ssl romain /\ rq_host r = hostname romain
    /\ rq_postdata r = Some ("board[message]=" +:+ e) /\ Url.decode e = "plop & co".
Proof. split; [reflexivity|]. by apply (posted_whole (fun _ => true) Some romain "plop & co" "plop & co"). Defined.
Example login_run : coincoin_login true romain
  = Run [DisplayName "romain"; Connecting; Progress "Connecting" 1; SetCookie "login" "romain"; SetCookie "id" "42";
         Ask (Request 1 (Some "linuxfr.org") "/board/index.xml" None (Some 1%nat))].
Proof. reflexivity. Qed.
(** A password that ends with a [;]. *)
Example login_semicolon :
  coincoin_login true (Account "romain@linuxfr.org" (Some "id=42;") false CC_DEFAULT_BOARD CC_DEFAULT_POST CC_DEFAULT_TEMPLATE)
  = Undefined [DisplayName "romain"; Connecting; Progress "Connecting" 1; SetCookie "login" "romain"; SetCookie "id" "42"] "keys[1]".
Proof. reflexivity. Qed.
End PostedP.

(** ** A board *)
Module BoardDemo.
Import Eff Board BoardP.
Definition demo_board : BoardEnv := {|
  no_reformat_messages := false; display_name := "romain"; in_chat := fun _ _ => false; strip_html := fun s => s;
  now := fun _ => 0; mktime := fun _ _ _ h m s => 3600 * h + 60 * m + s;
  localtime := fun t => ((t / 3600) mod 24, (t / 60) mod 60, t mod 60); same_nick := String.eqb |}.
Definition of_alice (id time text : string) : post := Post (Some id) (Some time) (Some (Some text)) (Some (Some "Mozilla")) (Some (Some "alice")).
Definition posts : list post := [of_alice "3" "20100102121502" "plop"; of_alice "2" "20100102121501" "hi"; of_alice "1" "20100102121501" "hello"].
Lemma of_alice_sound id time text : @readable demo_board (skip_blank text) -> @sound demo_board (of_alice id time text).
Proof. intros H. split; [by eexists|]. intros _. split; [by eexists|]. split; [by eexists|]. split; [by eexists|done]. Qed.
(** The board, with a post that has no login. *)
Definition on_board : list post := posts ++ [Post (Some "0") None (Some None) (Some None) None].
Lemma posts_sound : Forall (@sound demo_board) on_board.
Proof.
  repeat (apply Forall_cons; split; [first [apply of_alice_sound, (@ascii_readable demo_board); reflexivity|split; [by eexists|done]]|]).
  by apply Forall_nil.
Qed.
Lemma board_read_witness :
  Forall (@sound demo_board) on_board /\ authored (messages (St [] []))
  /\ exists s' t l, @coincoin_parse_message demo_board true (Some on_board) (St [] []) = (s', Done tt) /\ trace s' = [] ++ t
    /\ @told demo_board (rev (fresh on_board [])) [] (shown t) l /\ messages s' = take (length (fresh on_board []) + 101) l
    /\ map m_id (messages s') = map post_id (fresh on_board []) ++ take 101 (map m_id [])
    /\ authored (messages s').
Proof.
  assert (Ha : authored (messages (St [] []))) by constructor.
  split; [exact posts_sound|]. split; [exact Ha|]. exact (@board_read demo_board on_board (St [] []) posts_sound Ha).
Defined.
(** The list of that board: the two messages of one second have the numbers 1 and 2. *)
Definition board : list msg := Eval vm_compute in messages (fst (@coincoin_parse_message demo_board true (Some posts) (St [] []))).
Example board_refs : map (fun m => (m_id m, m_ref m, m_multiple m)) board = [(3, 1, false); (2, 2, true); (1, 1, true)].
Proof. vm_compute. reflexivity. Qed.
Definition second : msg := Msg (Some "hi") (Some "Mozilla") (Some "alice") 44101 2 true 2.
Lemma board_read_from_start : messages (fst (@read_boards demo_board [posts] (St [] []))) = board.
Proof. vm_compute. reflexivity. Qed.
Lemma reference_read_witness :
  let l := messages (fst (@read_boards demo_board [posts] (St [] []))) in
  second ∈ l
  /\ exists newer x older from, l = newer ++ x :: older /\ @same_ref demo_board second x
    /\ (forall y, y ∈ newer -> ~ @same_ref demo_board second y) /\ m_from x = Some from
    /\ @format_clock demo_board (@clock_of demo_board second) " yes" l
       = from +:+ ": " +:+ font "blue" +:+ @clock_of demo_board second +:+ "</FONT>"
    /\ (newest_first l -> (forall y, y ∈ l -> @same_ref demo_board second y -> m_timestamp y = m_timestamp second) -> x = second).
Proof.
  intros l. assert (Hin : second ∈ l) by (unfold l; rewrite board_read_from_start; right; left).
  split; [exact Hin|]. apply (@reference_read demo_board [posts] second " yes").
  - constructor; [|constructor]. pose proof posts_sound as H. by apply Forall_app in H as [H _].
  - done.
  - exact Hin.
  - vm_compute. intuition discriminate.
  - done.
Defined.
(** The board of two days: the reference to the message of the first one, the time of
    which is that of a newer one, is shown as a reference to the newer one. *)
Definition two_days : BoardEnv := {|
  no_reformat_messages := false; display_name := "romain"; in_chat := fun _ _ => false; strip_html := fun s => s;
  now := fun _ => 0; mktime := fun _ _ d h m s => 86400 * d + 3600 * h + 60 * m + s;
  localtime := fun t => ((t / 3600) mod 24, (t / 60) mod 60, t mod 60); same_nick := String.eqb |}.
Definition by_bob (id time text : string) : post := Post (Some id) (Some time) (Some (Some text)) (Some None) (Some (Some "bob")).
Example other_day :
  let l := messages (fst (@read_boards two_days [[by_bob "2" "20100103121501" "new"; of_alice "1" "20100102121501" "old"]] (St [] []))) in
  match nth_error l 1 with
  | Some m => m_from m = Some "alice"
      /\ @format_clock two_days (@clock_of two_days m) "" l = "bob: " +:+ font "blue" +:+ "12:15:01</FONT>"
  | None => False
  end.
Proof. vm_compute. done. Qed.
(** What alice's neighbour types, and what the board shows of it. *)
Example reply_round :
  @coincoin_convert_message demo_board board "alice:2 yes" = Some "alice:2 yes"
  /\ @coincoin_convert_message demo_board board "alice: yes" = Some "12:15:02 yes"
  /\ @format_loop demo_board 40 "12:15:02 yes" board = Some ("alice: " +:+ font "blue" +:+ "12:15:02</FONT> yes").
Proof. vm_compute. done. Qed.
(** An element without text. *)
Example empty_login :
  snd (@coincoin_parse_message demo_board true (Some [Post (Some "1") (Some "") (Some (Some "x")) (Some None) (Some None)]) (St [] []))
  = Crash "strcmp(NULL)"
  /\ snd (@coincoin_parse_message demo_board true (Some [Post (Some "1") (Some "") (Some None) (Some None) (Some (Some "bob"))]) (St [] []))
  = Crash "strlen(NULL)".
Proof. vm_compute. done. Qed.
End BoardDemo.
