(* ===== verification/GayAttitude.v ===== *)
(** plugins/gayattitude: the account, its buddies and the threads of messages, through the
    connections of Http.v.  The pages of the server are given as what the XPath queries
    find in them. *)

From S2P Require Import Prelude Util Dcc Effects Url Http CoinCoin.
Local Open Scope eff_scope.

Module Ga.
Import Eff.
Definition GA_HOSTNAME : string := "www.gayattitude.com".
Definition GA_HOSTNAME_PERSO : string := "perso.gayattitude.com".
Definition GA_CHECK_INTERVAL : Z := 30.

(** [GayAttitudeBuddy]: the name of its buddy, and [ref_id].  [real_gabuddy] is never set. *)
Record gabuddy := Gabuddy { gb_name : string; gb_ref_id : option string }.
(** [GayAttitudeConversationInfo]; [ci_conv] is the name of the conversation. *)
Record conv_info := ConvInfo {
  ci_conv : string; ci_latest_msg_id : Z; ci_url_path : option string; ci_checksum : option string;
  ci_timestamp : Z; ci_replied : bool }.
(** The callback of a request with its data. *)
Inductive callback :=
| NoCallback | LoginCb | ListCb (group : option string) | ReceivedCb
| InfoCb (g : nat) (advertise : bool) (delayed : option string)
| ExtraInfoCb (id : Z) (sender msg conv_name : string).
Inductive ev :=
| Ask (r : Http.request) (cb : callback)
| Write (conv who text : string) (sent : bool) (timestamp : Z) | System (conv who text : string)
| Progress (text : string) (step : Z) | LoginError | Connecting | Connected | Disconnected | TimerAdded (seconds : Z)
| GroupNew (name : string) | BuddyAdded (name : string) (group : option string) | Status (name : string) (online : bool)
| UserInfo (name : string).
(** [GayAttitudeAccount]: the threads by name, how many there were with each sender, the
    last message; the blocks of the buddies, those that libpurple lists, by name, and its
    groups. *)
Record st := St {
  conv_infos : gmap string conv_info; conv_with_buddy_count : gmap string Z; latest_msg_id : Z;
  gabuddies : gmap nat gabuddy; next : nat; listed : gmap string nat; groups : list string; trace : list ev }.
Definition M (A : Type) : Type := Eff.M st Empty_set A.
(** http_url_encode has the memory it asks for; [mktime] of the parsed date. *)
Class GaEnv := { memory : Z -> bool; parse_date : string -> Z; user : string; password : string }.

Section Ga.
Context {env : GaEnv}.
Definition emit (e : ev) : M unit :=
  put (fun s => St (conv_infos s) (conv_with_buddy_count s) (latest_msg_id s) (gabuddies s) (next s) (listed s) (groups s) (trace s ++ [e])).
Definition up_convs (f : gmap string conv_info -> gmap string conv_info) : M unit :=
  put (fun s => St (f (conv_infos s)) (conv_with_buddy_count s) (latest_msg_id s) (gabuddies s) (next s) (listed s) (groups s) (trace s)).
Definition up_counts (f : gmap string Z -> gmap string Z) : M unit :=
  put (fun s => St (conv_infos s) (f (conv_with_buddy_count s)) (latest_msg_id s) (gabuddies s) (next s) (listed s) (groups s) (trace s)).
Definition set_latest (n : Z) : M unit :=
  put (fun s => St (conv_infos s) (conv_with_buddy_count s) n (gabuddies s) (next s) (listed s) (groups s) (trace s)).
Definition up_gabuddies (f : gmap nat gabuddy -> gmap nat gabuddy) : M unit :=
  put (fun s => St (conv_infos s) (conv_with_buddy_count s) (latest_msg_id s) (f (gabuddies s)) (next s) (listed s) (groups s) (trace s)).
Definition up_listed (f : gmap string nat -> gmap string nat) : M unit :=
  put (fun s => St (conv_infos s) (conv_with_buddy_count s) (latest_msg_id s) (gabuddies s) (next s) (f (listed s)) (groups s) (trace s)).
Definition add_group (g : string) : M unit :=
  put (fun s => St (conv_infos s) (conv_with_buddy_count s) (latest_msg_id s) (gabuddies s) (next s) (listed s) (groups s ++ [g]) (trace s)).
Definition get_gabuddy (g : nat) : M gabuddy := eff! h := get gabuddies; deref "use after free" (h !! g).
Definition encode (s : string) : M string :=
  match Url.http_url_encode memory true s with
  | Url.Encoded e => ret e
  | Url.Null => ret "(null)"                       (* printed with %s *)
  | Url.Undefined w => crash w
  end.
Definition ask_get (host url : string) (cb : callback) : M unit :=
  emit (Ask (Http.Request Http.HTTP_METHOD_GET (Some host) url None None) cb).
Definition ask_post (url data : string) (cb : callback) : M unit :=
  emit (Ask (Http.Request Http.HTTP_METHOD_POST (Some GA_HOSTNAME) url (Some data) None) cb).

(** ** ga_buddy.c *)
Definition new_gabuddy (name : string) : M nat :=
  eff! g := get next;
  put (fun s => St (conv_infos s) (conv_with_buddy_count s) (latest_msg_id s)
                   (<[g := Gabuddy name None]> (gabuddies s)) (S g) (listed s) (groups s) (trace s));;
  ret g.
(** [None] is a name that libpurple does not list. *)
Definition ga_gabuddy_find (name : string) : M (option nat) := get (fun s => listed s !! name).
Definition find_or_new (name : string) : M nat :=
  eff! g := ga_gabuddy_find name; match g with Some g => ret g | None => new_gabuddy name end.
Definition ga_gabuddy_request_info (g : nat) (advertise : bool) (delayed : option string) : M unit :=
  eff! b := get_gabuddy g;
  ask_get GA_HOSTNAME_PERSO ("/" +:+ gb_name b) (InfoCb g advertise delayed).
(** [buddy_free] of libpurple. *)
Definition ga_plugin_buddy_free (name : string) : M unit :=
  eff! l := get listed;
  match l !! name with
  | Some g => up_gabuddies (base.delete g);; up_listed (base.delete name)
  | None => ret tt
  end.

(** ** ga_message.c *)
Definition ga_message_send_real (g : nat) (what : string) : M Z :=
  eff! b := get_gabuddy g;
  eff! infos := get conv_infos;
  let info := infos !! gb_name b in
  eff! msg := encode what;
  let thread := match info with Some i => if negb (ci_latest_msg_id i =? 0) then Some i else None | None => None end in
  let finish :=
    match info with
    | None => crash "conv_info->conv"
    | Some i => emit (Write (ci_conv i) (gb_name b) what true 0);; ret 0
    end in
  match thread with
  | Some i =>
    ask_post (default "(null)" (ci_url_path i))
      ("host=&id=" +:+ t2s (ci_latest_msg_id i) +:+ "&checksum=" +:+ default "(null)" (ci_checksum i) +:+ "&text=" +:+ msg
       +:+ "&submit=Envoyer&fond=") NoCallback;;
    up_convs (insert (gb_name b) (ConvInfo (ci_conv i) (ci_latest_msg_id i) (ci_url_path i) (ci_checksum i) (ci_timestamp i) true));;
    finish
  | None =>
    match gb_ref_id b with
    | None => ret 1
    | Some ref =>
      ask_post ("/html/portrait/message?p=" +:+ gb_name b +:+ "&pid=" +:+ ref +:+ "&host=&smallheader=&popup=0")
        ("msg=" +:+ msg +:+ "&sendchat=Envoyer+(Shift-Entr%82e)&fond=&sendmail=0") NoCallback;;
      finish
    end
  end.
Definition ga_message_send (g : nat) (what : string) : M Z :=
  eff! b := get_gabuddy g;
  eff! infos := get conv_infos;
  match infos !! gb_name b with
  | Some i =>
    if ci_replied i then
      emit (System (ci_conv i) (gb_name b) "You cannot reply again to this thread. Wait for a reply or open a new thread.");;
      ret 1
    else ga_message_send_real g what;; ret 0
  | None =>
    match gb_ref_id b with
    | None => ga_gabuddy_request_info g false (Some what);; ret 0
    | Some _ => ga_message_send_real g what;; ret 0
    end
  end.
(** The page of a person: its [ref_id], when the query finds it. *)
Definition ga_gabuddy_parse_info_cb (page : bool) (ref_id : option string) (g : nat) (advertise : bool) (delayed : option string) : M unit :=
  eff! b := get_gabuddy g;
  if negb page then ret tt
  else
    (match gb_ref_id b, ref_id with
     | None, Some r => up_gabuddies (insert g (Gabuddy (gb_name b) (Some r)))
     | _, _ => ret tt
     end);;
    when advertise (emit (UserInfo (gb_name b)));;
    match delayed with Some what => ga_message_send_real g what;; ret tt | None => ret tt end.
(** The page of a message: its date, the path and the checksum of the form. *)
Definition ga_message_extra_info_cb (page : option (option string * option string * option string))
    (sender msg conv_name : string) : M unit :=
  match page with
  | Some (Some date, Some url, Some checksum) =>
    eff! infos := get conv_infos;
    eff! i := deref "conv_info->url_path" (infos !! conv_name);
    up_convs (insert conv_name (ConvInfo (ci_conv i) (ci_latest_msg_id i) (Some url) (Some checksum) (parse_date date) (ci_replied i)));;
    emit (Write (ci_conv i) sender msg false (parse_date date))
  | _ => ret tt
  end.
(** A row of the list of received messages. *)
Record row := Row { r_id : option string; r_sender : option string; r_content : option string }.
Definition row_id (r : row) : Z :=
  match r_id r with
  | Some s => if prefix_of "msg" s then Board.strtoul (sdrop 3 s) else 0
  | None => 0
  end.
(** The loop over the rows; [new_latest] is [new_latest_msg_id]. *)
Fixpoint received (rows : list row) (new_latest : Z) : M Z :=
  match rows with
  | [] => ret new_latest
  | r :: rows =>
    let id := row_id r in
    eff! latest := get latest_msg_id;
    match r_sender r, r_content r with
    | Some sender, Some content =>
      if negb (id =? 0) && (latest <? id) then
        eff! counts := get conv_with_buddy_count;
        let count := (default 0 (counts !! sender) + 1) mod 2 ^ 32 in
        up_counts (insert sender count);;
        let conv_name := sender +:+ "@" +:+ t2s count in
        up_convs (insert conv_name (ConvInfo conv_name id None None 0 false));;
        ask_get GA_HOSTNAME ("/html/perso/chat/message?id=" +:+ t2s id +:+ "&popup=NONLUS") (ExtraInfoCb id sender content conv_name);;
        received rows (if new_latest <? id then id else new_latest)
      else received rows new_latest
    | _, _ => received rows new_latest
    end
  end.
(** [None] is a page without rows. *)
Definition ga_message_received_cb (rows : option (list row)) : M unit :=
  match rows with
  | None => ret tt
  | Some rows =>
    eff! latest := get latest_msg_id;
    eff! n := received rows latest;
    set_latest n
  end.
Definition ga_message_check_received : M unit := ask_get GA_HOSTNAME "/html/perso/chat/nonlus/?mode=to" ReceivedCb.
Definition ga_message_close_conversation (conv_name : string) : M unit := up_convs (base.delete conv_name).

(** ** ga_buddylist.c: the persons of a page, with their class. *)
Fixpoint list_rows (rows : list (option string * option string)) (group : option string) : M unit :=
  match rows with
  | [] => ret tt
  | (Some cl, Some name) :: rows =>
    when (prefix_of "ITEM" cl)
      (eff! g := ga_gabuddy_find name;
       (match g with
        | Some _ => ret tt
        | None => eff! g := new_gabuddy name; up_listed (insert name g);; emit (BuddyAdded name group)
        end);;
       emit (Status name (contains "ITEMONLINE" cl)));;
    list_rows rows group
  | _ :: rows => list_rows rows group
  end.
Definition ga_buddylist_parse_cb (rows : option (list (option string * option string))) (group : option string) : M unit :=
  match rows with
  | None => ret tt
  | Some rows =>
    match group with
    | Some g => eff! gs := get groups; when (negb (bool_decide (g ∈ gs))) (add_group g;; emit (GroupNew g))
    | None => ret tt
    end;;
    list_rows rows group
  end.
Definition ask_list (name : string) (group : option string) : M unit :=
  ask_get GA_HOSTNAME ("/html/annuaire/liste?liste=contacts-" +:+ name) (ListCb group).
Definition ga_buddylist_update : M unit :=
  mapM_ (fun ng => ask_list (fst ng) (Some (snd ng)))
    [("checklist", "Checklist"); ("friendlist", "Friendlist"); ("hotlist", "Hotlist"); ("blogolist", "Blogolist");
     ("blacklist", "Blacklist"); ("whitelist", "Whitelist")].
Definition ga_buddylist_check_status : M unit := ask_list "online" None.

(** ** ga_account.c *)
Definition ga_account_new : st := St ∅ ∅ 0 ∅ 0 ∅ [] [].
Definition ga_account_check_changes : M unit := ga_buddylist_check_status;; ga_message_check_received.
Definition ga_account_login : M unit :=
  emit Connecting;;
  emit (Progress "Connecting" 1);;
  eff! e := encode password;
  ask_post "/html/login" ("login=" +:+ user +:+ "&passw=" +:+ e) LoginCb.
(** [cookie]: the server has set [cookielogin]. *)
Definition ga_account_login_cb (cookie : bool) : M unit :=
  emit (Progress "Authenticating" 2);;
  if negb cookie then emit LoginError
  else
    emit Connected;;
    ga_buddylist_update;;
    ga_account_check_changes;;
    emit (TimerAdded GA_CHECK_INTERVAL).
Definition ga_account_logout : M unit := emit Disconnected.

(** ** gayattitude.c *)
Definition ga_plugin_get_info (who : string) : M unit :=
  eff! g := find_or_new who; ga_gabuddy_request_info g true None.
Definition ga_plugin_send_im (who what : string) : M Z :=
  eff! g := find_or_new who; ga_message_send g what.
Definition ga_plugin_conv_closed (who : string) : M unit := ga_message_close_conversation who.
End Ga.
End Ga.
