(* ===== verification/GaProps.v ===== *)
(** The threads of gayattitude: one is opened for each new message and none is lost, a
    message is asked for once, and a thread is answered once. *)

From S2P Require Import Prelude Util Dcc Effects Url Http CoinCoin GayAttitude.
Local Open Scope eff_scope.

Module GaP.
Import Eff Ga.
Section GaP.
Context {env : GaEnv}.

(** ** Names of threads *)
Lemma app_inj_char c s t a b : has_char c s = false -> has_char c t = false ->
  a +:+ String c s = b +:+ String c t -> a = b /\ s = t.
Proof.
  intros Hs Ht. revert b. induction a as [|d a IH]; intros [|e b]; rewrite ?app_nil_l_s, ?app_cons_s.
  - by intros [= ->].
  - intros [= -> ->]. by rewrite has_char_app in Hs; cbn in Hs; rewrite Ascii.eqb_refl, orb_true_r in Hs.
  - intros [= -> <-]. by rewrite has_char_app in Ht; cbn in Ht; rewrite Ascii.eqb_refl, orb_true_r in Ht.
  - intros [= -> H]. by destruct (IH _ H) as [-> ->].
Qed.
Lemma digits_no_at s : sall isdigit s = true -> has_char "@" s = false.
Proof.
  induction s as [|c s IH]; [done|]. cbn. intros [Hc Hs]%andb_true_iff. rewrite IH by done.
  destruct (Ascii.eqb_spec c "@"); [by subst|done].
Qed.
Lemma thread_name_inj a b i j : 0 <= i < 2 ^ 32 -> 0 <= j < 2 ^ 32 -> a +:+ "@" +:+ t2s i = b +:+ "@" +:+ t2s j -> a = b /\ i = j.
Proof.
  intros Hi Hj H. destruct (Num.t2s_spec i) as (Hdi & _ & Hvi); [lia|]. destruct (Num.t2s_spec j) as (Hdj & _ & Hvj); [lia|].
  destruct (app_inj_char "@" (t2s i) (t2s j) a b) as [-> Ht]; [by apply digits_no_at..|done|]. split; [done|]. congruence.
Qed.

(** A thread has the name of its sender and a number that was counted. *)
Definition counted (s : st) : Prop :=
  forall name, is_Some (conv_infos s !! name) ->
    exists sender k, name = sender +:+ "@" +:+ t2s k /\ 1 <= k <= default 0 (conv_with_buddy_count s !! sender).
(** No sender has so many threads that their number wraps. *)
Definition roomy (n : nat) (s : st) : Prop :=
  forall sender, 0 <= default 0 (conv_with_buddy_count s !! sender) < 2 ^ 32 - 1 - Z.of_nat n.
Definition whole_row (r : row) : Prop := row_id r <> 0 /\ r_sender r <> None /\ r_content r <> None.
(** What a page adds: the messages that are asked for, in the order of its rows. *)
Definition asked (e : ev) : option Z := match e with Ask _ (ExtraInfoCb id _ _ _) => Some id | _ => None end.
Definition is_new (latest : Z) (r : row) : bool :=
  negb (row_id r =? 0) && bool_decide (r_sender r <> None) && bool_decide (r_content r <> None) && (latest <? row_id r).
Definition new_ids (latest : Z) (rows : list row) : list Z := map row_id (List.filter (is_new latest) rows).

Lemma received_run rows n s : counted s -> roomy (length rows) s ->
  exists s' t, received rows n s = (s', Done (foldl Z.max n (new_ids (latest_msg_id s) rows)))
    /\ counted s' /\ conv_infos s ⊆ conv_infos s' /\ latest_msg_id s' = latest_msg_id s
    /\ trace s' = trace s ++ t /\ omap asked t = new_ids (latest_msg_id s) rows
    /\ size (conv_infos s') = (size (conv_infos s) + length (new_ids (latest_msg_id s) rows))%nat.
Proof.
  revert n s. induction rows as [|r rows IH]; intros n s Hc Hr.
  { exists s, []. rewrite app_nil_r. cbn. by rewrite Nat.add_0_r. }
  assert (Hr' : roomy (length rows) s) by (intros sender; specialize (Hr sender); cbn in Hr; lia).
  cbn [received]. unfold bind at 1, get.
  assert (Hskip : is_new (latest_msg_id s) r = false ->
    exists s' t, received rows n s = (s', Done (foldl Z.max n (new_ids (latest_msg_id s) (r :: rows))))
    /\ counted s' /\ conv_infos s ⊆ conv_infos s' /\ latest_msg_id s' = latest_msg_id s
    /\ trace s' = trace s ++ t /\ omap asked t = new_ids (latest_msg_id s) (r :: rows)
    /\ size (conv_infos s') = (size (conv_infos s) + length (new_ids (latest_msg_id s) (r :: rows)))%nat).
  { intros E. unfold new_ids. cbn [List.filter]. rewrite E. by apply IH. }
  destruct (r_sender r) as [sender|] eqn:Es; [|apply Hskip; unfold is_new; by rewrite Es, andb_false_r].
  destruct (r_content r) as [content|] eqn:Ec; [|apply Hskip; unfold is_new; by rewrite Ec, !andb_false_r].
  assert (En : is_new (latest_msg_id s) r = negb (row_id r =? 0) && (latest_msg_id s <? row_id r)).
  { unfold is_new. rewrite Es, Ec. by rewrite !bool_decide_eq_true_2, !andb_true_r by done. }
  destruct (negb (row_id r =? 0) && (latest_msg_id s <? row_id r)); [|by apply Hskip].
  unfold bind at 1. set (count := (default 0 (conv_with_buddy_count s !! sender) + 1) mod 2 ^ 32).
  assert (Hcount : count = default 0 (conv_with_buddy_count s !! sender) + 1).
  { unfold count. specialize (Hr sender). rewrite Z.mod_small; [done|lia]. }
  set (name := sender +:+ "@" +:+ t2s count).
  assert (Hfresh : conv_infos s !! name = None).
  { apply eq_None_not_Some. intros (sender' & k & Hk & Hb)%Hc. specialize (Hr sender). specialize (Hr' sender').
    apply thread_name_inj in Hk as [<- <-]; lia. }
  set (e := Ask (Http.Request Http.HTTP_METHOD_GET (Some GA_HOSTNAME)
    ("/html/perso/chat/message?id=" +:+ t2s (row_id r) +:+ "&popup=NONLUS") None None) (ExtraInfoCb (row_id r) sender content name)).
  set (s1 := St (<[name := ConvInfo name (row_id r) None None 0 false]> (conv_infos s))
    (<[sender := count]> (conv_with_buddy_count s)) (latest_msg_id s) (gabuddies s) (next s) (listed s) (groups s) (trace s ++ [e])).
  assert (Hget : forall x, default 0 (<[sender := count]> (conv_with_buddy_count s) !! x)
    = if decide (sender = x) then count else default 0 (conv_with_buddy_count s !! x)).
  { intros x. destruct (decide (sender = x)) as [<-|]; [by rewrite lookup_insert_eq|by rewrite lookup_insert_ne]. }
  destruct (IH (if n <? row_id r then row_id r else n) s1) as (s' & t & Hrun & Hc' & Hsub & Hl & Ht & Ha & Hsz).
  - intros nm. cbn [conv_infos s1]. intros [<-|[_ Hnm]]%lookup_insert_is_Some.
    + exists sender, count. split; [done|]. cbn. rewrite Hget, decide_True by done. specialize (Hr sender). lia.
    + destruct (Hc nm Hnm) as (x & k & Hk & Hb). exists x, k. split; [done|]. cbn. rewrite Hget.
      destruct (decide (sender = x)) as [<-|]; lia.
  - intros x. cbn. rewrite Hget. specialize (Hr sender) as H1. specialize (Hr x) as H2. cbn [length] in *.
    destruct (decide (sender = x)); lia.
  - exists s', (e :: t). unfold new_ids in *. cbn [List.filter]. rewrite En. cbn [map foldl latest_msg_id s1] in *.
    split; [|split; [done|split; [|split; [done|split; [|split]]]]].
    + assert (E : Z.max n (row_id r) = if n <? row_id r then row_id r else n) by (destruct (Z.ltb_spec n (row_id r)); lia).
      rewrite E. exact Hrun.
    + etrans; [|exact Hsub]. by apply insert_subseteq.
    + rewrite Ht. cbn. by rewrite <- app_assoc.
    + cbn. by rewrite Ha.
    + rewrite Hsz. unfold s1. cbn [conv_infos length]. rewrite map_size_insert_None by done. lia.
Qed.

Lemma foldl_max l n : n <= foldl Z.max n l /\ forall x, x ∈ l -> x <= foldl Z.max n l.
Proof.
  revert n. induction l as [|y l IH]; intros n; cbn [foldl]; [split; [lia|by intros x ?%elem_of_nil]|].
  destruct (IH (n `max` y)) as [H1 H2]. split; [lia|]. intros x [->|Hx]%elem_of_cons; [lia|by apply H2].
Qed.
Lemma new_ids_again n m rows : n <= m -> (forall x, x ∈ new_ids n rows -> x <= m) -> new_ids m rows = [].
Proof.
  intros Hnm H. unfold new_ids in *. induction rows as [|r rows IH]; [done|]. cbn [List.filter] in *.
  destruct (is_new m r) eqn:Em.
  - exfalso. assert (En : is_new n r = true).
    { unfold is_new in *. apply andb_true_iff in Em as [-> Hl%Z.ltb_lt]. apply Z.ltb_lt. lia. }
    rewrite En in H. specialize (H (row_id r) ltac:(by left)).
    unfold is_new in Em. apply andb_true_iff in Em as [_ Hl%Z.ltb_lt]. lia.
  - apply IH. intros x Hx. apply H. destruct (is_new n r); [by right|done].
Qed.

(** Reading the page of received messages asks for each message that is newer than the
    last one known, in the order of the page, opens a thread for each and loses none;
    and reading the same page again asks for nothing. *)
Theorem received_once (rows : list row) (s : st) : counted s -> roomy (length rows) s ->
  exists s' t, ga_message_received_cb (Some rows) s = (s', Done tt) /\ trace s' = trace s ++ t
    /\ omap asked t = new_ids (latest_msg_id s) rows
    /\ conv_infos s ⊆ conv_infos s'
    /\ size (conv_infos s') = (size (conv_infos s) + length (new_ids (latest_msg_id s) rows))%nat
    /\ latest_msg_id s <= latest_msg_id s'
    /\ new_ids (latest_msg_id s') rows = []
    /\ counted s'.
Proof.
  intros Hc Hr. destruct (received_run rows (latest_msg_id s) s Hc Hr) as (s' & t & Hrun & Hc' & Hsub & Hl & Ht & Ha & Hsz).
  unfold ga_message_received_cb, bind at 1, get. unfold bind. rewrite Hrun. unfold set_latest, put.
  eexists _, t. split; [reflexivity|]. cbn [trace conv_infos latest_msg_id]. split_and!; try done.
  - apply (proj1 (foldl_max _ _)).
  - apply (new_ids_again (latest_msg_id s)); [apply (proj1 (foldl_max _ _))|]. intros x Hx. by apply (proj2 (foldl_max _ _)).
Qed.

(** ** Replies *)

(** C27: A thread is answered once: the first answer posts the number of its message with
    the text that a server decodes, and is written in the conversation of the thread;
    until a new message opens a thread, any further answer is refused, with a notice. *)
Theorem answered_once (g : nat) (b : gabuddy) (i : conv_info) (url sum what what' : string) (s : st) :
  (forall n, memory n = true) -> Z.of_nat (slen what) < 2 ^ 28 ->
  gabuddies s !! g = Some b -> conv_infos s !! gb_name b = Some i -> ci_latest_msg_id i <> 0 -> ci_replied i = false ->
  ci_url_path i = Some url -> ci_checksum i = Some sum ->
  exists s1 e r, ga_message_send g what s = (s1, Done 0)
    /\ trace s1 = trace s ++ [Ask r NoCallback; Write (ci_conv i) (gb_name b) what true 0]
    /\ Http.rq_url r = url /\ Url.decode e = what
    /\ Http.rq_postdata r = Some ("host=&id=" +:+ t2s (ci_latest_msg_id i) +:+ "&checksum=" +:+ sum +:+ "&text=" +:+ e +:+ "&submit=Envoyer&fond=")
    /\ exists s2 text, ga_message_send g what' s1 = (s2, Done 1)
       /\ trace s2 = trace s1 ++ [System (ci_conv i) (gb_name b) text] /\ conv_infos s2 = conv_infos s1.
Proof.
  intros Hm Hw Hg Hi Hne Hr Hu Hs. pose proof (Url.url_encode_runs memory true what Hm Hw) as He.
  set (data := "host=&id=" +:+ t2s (ci_latest_msg_id i) +:+ "&checksum=" +:+ sum +:+ "&text=" +:+ Url.quoted true what +:+ "&submit=Envoyer&fond=").
  set (r := Http.Request Http.HTTP_METHOD_POST (Some GA_HOSTNAME) url (Some data) None).
  set (i' := ConvInfo (ci_conv i) (ci_latest_msg_id i) (ci_url_path i) (ci_checksum i) (ci_timestamp i) true).
  set (s1 := St (<[gb_name b := i']> (conv_infos s)) (conv_with_buddy_count s) (latest_msg_id s) (gabuddies s) (next s) (listed s)
    (groups s) ((trace s ++ [Ask r NoCallback]) ++ [Write (ci_conv i) (gb_name b) what true 0])).
  exists s1, (Url.quoted true what), r.
  assert (Hg1 : forall x s', gabuddies s' !! g = Some x -> get_gabuddy g s' = (s', Done x)).
  { intros x s' Hx. unfold get_gabuddy, bind, get, deref. by rewrite Hx. }
  split; [|split; [cbn; by rewrite <- app_assoc|split; [done|split; [apply Url.decode_quoted|split; [done|]]]]].
  - unfold ga_message_send, bind at 1. rewrite (Hg1 b) by done. unfold bind at 1, get at 1. rewrite Hi, Hr.
    unfold bind at 1, ga_message_send_real. unfold bind at 1. rewrite (Hg1 b) by done.
    unfold bind at 1, get at 1. unfold bind at 1, encode. rewrite He. cbn [ret]. rewrite Hi.
    destruct (Z.eqb_spec (ci_latest_msg_id i) 0); [done|]. cbn [negb]. rewrite Hu, Hs. cbn [default from_option id].
    unfold s1, i', r, data. rewrite Hu, Hs. reflexivity.
  - eexists (St (conv_infos s1) (conv_with_buddy_count s1) (latest_msg_id s1) (gabuddies s1) (next s1) (listed s1) (groups s1) _), _.
    split; [|split; reflexivity].
    unfold ga_message_send, bind at 1. rewrite (Hg1 b) by done. unfold bind at 1, get at 1. cbn [conv_infos s1].
    rewrite lookup_insert_eq. reflexivity.
Qed.
End GaP.

(** A session of gayattitude; bob is 0 and has sent the message 12. *)
Definition demo_ga : GaEnv := {| memory := fun _ => true; parse_date := fun _ => 0; user := "romain"; password := "a b" |}.
Definition page : list row := [Row (Some "msg12") (Some "bob") (Some "hi"); Row (Some "msg11") (Some "bob") (Some "hello"); Row None None None].
Lemma received_once_witness :
  counted ga_account_new /\ roomy (length page) ga_account_new
  /\ exists s' t, @ga_message_received_cb (Some page) ga_account_new = (s', Done tt) /\ trace s' = [] ++ t
    /\ omap asked t = new_ids 0 page /\ conv_infos ga_account_new ⊆ conv_infos s'
    /\ size (conv_infos s') = (size (conv_infos ga_account_new) + length (new_ids 0 page))%nat
    /\ 0 <= latest_msg_id s' /\ new_ids (latest_msg_id s') page = [] /\ counted s'.
Proof.
  assert (Hc : counted ga_account_new) by (intros nm [? H]; cbn in H; by rewrite lookup_empty in H).
  assert (Hr : roomy (length page) ga_account_new) by (intros x; cbn; rewrite lookup_empty; cbn; lia).
  split; [exact Hc|]. split; [exact Hr|]. exact (received_once page ga_account_new Hc Hr).
Defined.
Example page_ids : new_ids 0 page = [12; 11] /\ new_ids 11 page = [12].
Proof. vm_compute. done. Qed.
Definition thread : conv_info := ConvInfo "bob@1" 12 (Some "/reply") (Some "abc") 0 false.
Definition demo_st : st := St {["bob@1" := thread]} {["bob" := 1]} 12 {[0%nat := Gabuddy "bob@1" None]} 1 {["bob@1" := 0%nat]} [] [].
Lemma answered_once_witness :
  exists s1 e r, @ga_message_send demo_ga 0 "plop" demo_st = (s1, Done 0)
    /\ trace s1 = trace demo_st ++ [Ask r NoCallback; Write "bob@1" "bob@1" "plop" true 0]
    /\ Http.rq_url r = "/reply" /\ Url.decode e = "plop"
    /\ Http.rq_postdata r = Some ("host=&id=" +:+ t2s 12 +:+ "&checksum=" +:+ "abc" +:+ "&text=" +:+ e +:+ "&submit=Envoyer&fond=")
    /\ exists s2 text, @ga_message_send demo_ga 0 "again" s1 = (s2, Done 1)
       /\ trace s2 = trace s1 ++ [System "bob@1" "bob@1" text] /\ conv_infos s2 = conv_infos s1.
Proof. by apply (@answered_once demo_ga 0 (Gabuddy "bob@1" None) thread "/reply" "abc" "plop" "again" demo_st). Defined.
(** A new thread with a person whose page was read: the request is sent, then the
    conversation of a thread that is not there is read. *)
Example new_thread :
  let r := @ga_message_send demo_ga 0 "plop" (St ∅ ∅ 0 {[0%nat := Gabuddy "bob" (Some "77")]} 1 ∅ [] []) in
  snd r = Crash "conv_info->conv" /\ length (trace (fst r)) = 1%nat.
Proof. vm_compute. done. Qed.
(** A conversation that is closed while the page of its message is on its way. *)
Example closed_too_early :
  snd ((ga_message_close_conversation "bob@1";;
        @ga_message_extra_info_cb demo_ga (Some (Some "01/02/10 - 12:00", Some "/reply", Some "abc")) "bob" "hi" "bob@1") demo_st)
  = Crash "conv_info->url_path".
Proof. vm_compute. done. Qed.
(** A buddy that is removed while its page is on its way. *)
Example removed_too_early :
  snd ((ga_plugin_buddy_free "bob@1";; @ga_gabuddy_parse_info_cb demo_ga true (Some "77") 0 true None) demo_st) = Crash "use after free".
Proof. vm_compute. done. Qed.
End GaP.
