(* ===== verification/Wrap.v ===== *)
(** The wrappers that src/im puts around the structures of libpurple: the preferences and
    the directories of im/im.cpp, the lists of im/purple.cpp, im/plugin.cpp and
    im/protocol.cpp, the buddies of im/buddy.cpp and im/conversation.cpp.  What
    libpurple holds is a record or a map here, with the functions of its interface that
    the code calls. *)

From S2P Require Import Prelude Util Effects Nick.
Local Open Scope eff_scope.

(** ** The preferences (im/im.cpp, im/purple.cpp) *)
Module Prefs.
Inductive pref := PString (s : string) | PInt (z : Z) | PBool (b : bool).
Abbreviation store := (gmap string pref).
(** [purple_prefs_add_*]: a preference that is there keeps its value;
    [purple_prefs_set_*]: one that is not there, or of another type, is not set. *)
Definition add (k : string) (v : pref) (m : store) : store :=
  match m !! k with Some _ => m | None => <[k := v]> m end.
Definition same_type (a b : pref) : bool :=
  match a, b with PString _, PString _ | PInt _, PInt _ | PBool _, PBool _ => true | _, _ => false end.
Definition set (k : string) (v : pref) (m : store) : store :=
  match m !! k with Some old => if same_type old v then <[k := v]> m else m | None => m end.
Definition get_string (k : string) (m : store) : string := match m !! k with Some (PString s) => s | _ => "" end.
Definition get_int (k : string) (m : store) : Z := match m !! k with Some (PInt z) => z | _ => 0 end.
Definition get_bool (k : string) (m : store) : bool := match m !! k with Some (PBool b) => b | _ => false end.

Definition minbif_prefs_init (m : store) : store :=
  add "/minbif/server_aliases" (PBool true)
  (add "/minbif/voiced_buddies" (PBool true)
  (add "/minbif/send_delay" (PInt 300)
  (add "/minbif/accept_nobuddies_messages" (PBool true)
  (add "/minbif/typing_notice" (PInt 0)
  (add "/minbif/password" (PString "") m))))).

Definition setPassword (password : string) : store -> store := set "/minbif/password" (PString password).
Definition getPassword : store -> string := get_string "/minbif/password".
Definition setTypingNotice (enabled : bool) : store -> store := set "/minbif/typing_notice" (PInt (if enabled then 1 else 0)).
Definition hasTypingNotice (m : store) : bool := negb (get_int "/minbif/typing_notice" m =? 0).
Definition setAcceptNoBuddiesMessages (enabled : bool) : store -> store := set "/minbif/accept_nobuddies_messages" (PBool enabled).
Definition hasAcceptNoBuddiesMessages : store -> bool := get_bool "/minbif/accept_nobuddies_messages".
Definition setSendDelay (delay : Z) : store -> store := set "/minbif/send_delay" (PInt delay).
Definition getSendDelay : store -> Z := get_int "/minbif/send_delay".
(** The loop of [setVoicedBuddies] over the accounts is in ImAccount.v. *)
Definition setVoicedBuddies (enabled : bool) : store -> store := set "/minbif/voiced_buddies" (PBool enabled).
Definition hasVoicedBuddies : store -> bool := get_bool "/minbif/voiced_buddies".
Definition setServerAliases (enabled : bool) : store -> store := set "/minbif/server_aliases" (PBool enabled).
Definition hasServerAliases : store -> bool := get_bool "/minbif/server_aliases".
Definition setAwayIdle (enabled : bool) : store -> store := set "/purple/away/away_when_idle" (PBool enabled).
Definition hasAwayIdle : store -> bool := get_bool "/purple/away/away_when_idle".
End Prefs.

(** ** The directories and the instance of libpurple (im/im.cpp, im/purple.cpp) *)
Module Dirs.
Import Eff.
Inductive ev := SetUserDir (path : string) | CoreInit | LoadBlist | CoreQuit | ActivateStartup | RestoreStatuses
| SetLogging (conv_logs : bool) | InitPart (part : string) | UninitPart (part : string) | AddBuddyIconNick | DestroyUiInfo.
(** The directories that can be opened, [IM::path], whether [Purple::im] and
    [Purple::ui_info] are set, the calls. *)
Record st := St { dirs : gset string; path : string; instance : bool; ui_info : bool; trace : list ev }.
Inductive exn := IMError (reason : string) | PurpleError (reason : string).
Definition M (A : Type) : Type := Eff.M st exn A.
Class DirsEnv := {
  mkdir : gset string -> string -> option string;   (* the error *)
  core_init : list ev -> bool;                      (* purple_core_init *)
  single_instance : list ev -> bool;                (* purple_core_ensure_single_instance *)
  startup_current : bool;                           (* /purple/savedstatus/startup_current_status *)
  conv_logs : bool }.
Section Dirs.
Context {env : DirsEnv}.
Definition emit (e : ev) : M unit := put (fun s => St (dirs s) (path s) (instance s) (ui_info s) (trace s ++ [e])).
(** [opendir] else [mkdir], which throws with [what]. *)
Definition make_dir (what dir : string) : M unit :=
  eff! d := get dirs;
  if bool_decide (dir ∈ d) then ret tt
  else match mkdir d dir with
       | Some err => throw (IMError ("Unable to create " +:+ what +:+ "'" +:+ dir +:+ "': " +:+ err))
       | None => put (fun s => St ({[dir]} ∪ dirs s) (path s) (instance s) (ui_info s) (trace s))
       end.
Definition setPath (_path : string) : M unit :=
  put (fun s => St (dirs s) _path (instance s) (ui_info s) (trace s));;
  make_dir "directory " _path.
Definition user_path (s : st) (username : string) : string := path s +:+ "/" +:+ username.
Definition exists_ (username : string) : M bool :=
  get (fun s => bool_decide (user_path s username ∈ dirs s)).

(** [Purple::inited] and [Purple::uninit], that [purple_core_init] and
    [purple_core_quit] call through [core_ops]. *)
Definition parts : list string := ["Account"; "RoomList"; "Buddy"; "Conversation"; "Request"; "FileTransfert"; "Media"].
Definition inited : M unit :=
  mapM_ (fun p => emit (InitPart p)) parts;;
  emit AddBuddyIconNick;;
  emit (SetLogging conv_logs).
Definition uninit : M unit :=
  eff! i := get instance;
  if negb i then crash "assert(im != NULL)"
  else
    eff! u := get ui_info;
    when u (emit DestroyUiInfo);;
    mapM_ (fun p => emit (UninitPart p)) parts.
(** [Purple::init]. *)
Definition purple_init (user_path : string) : M unit :=
  eff! i := get instance;
  if i then throw (PurpleError "These is already a purple instance!")
  else
    emit (SetUserDir user_path);;
    put (fun s => St (dirs s) (path s) true (ui_info s) (trace s));;
    emit CoreInit;;
    eff! ok := get (fun s => core_init (trace s));
    if negb ok then throw (PurpleError "Initialization of the Purple core failed.")
    else
      inited;;
      eff! one := get (fun s => single_instance (trace s));
      if negb one then throw (PurpleError "You are already connected on this account with minbif.")
      else emit LoadBlist.
(** [IM::IM]: a [PurpleError] is thrown again as an [IMError]. *)
Definition new_im (username : string) : M unit :=
  eff! dir := get (fun s => user_path s username);
  make_dir "user directory " dir;;
  catch (purple_init dir)
    (fun e => match e with PurpleError r => Some (throw (IMError r)) | IMError _ => None end).
Definition delete_im : M unit := uninit;; emit CoreQuit.
Definition restore : M unit :=
  when (negb startup_current) (emit ActivateStartup);;
  emit RestoreStatuses.
End Dirs.
End Dirs.

(** ** Plugins, protocols and accounts (im/purple.cpp, im/plugin.cpp, im/protocol.cpp) *)
Module Lists.
Import Eff.
Inductive plugin_type := Loader | Standard | ProtocolType | UnknownType.
Record plugin := Plugin {
  pl_id : string; pl_name : string; pl_type : plugin_type; pl_invisible : bool; pl_loaded : bool;
  pl_unloadable : bool; pl_error : string }.
(** A [PurpleAccount] with its raw ID. *)
Record account := Account { ac_username : string; ac_protocol_id : string; ac_raw_id : string }.

Definition getPluginsList (all : list plugin) : gmap string plugin :=
  foldl (fun m p => match pl_type p with
                    | Standard => if pl_invisible p then m else <[pl_id p := p]> m
                    | _ => m
                    end) ∅ all.
(** [Protocol::getID] of the purple ID. *)
Definition proto_id (purple_id : string) : string :=
  if prefix_of "prpl-" purple_id then sdrop 5 purple_id else purple_id.
Definition getProtocolsList (protocols : list plugin) : gmap string plugin :=
  foldl (fun m p => <[proto_id (pl_id p) := p]> m) ∅ protocols.
Definition getProtocolByPurpleID (protocols : list plugin) (id : string) : option plugin :=
  List.find (fun p => String.eqb id (pl_id p)) protocols.
(** [getID] is the ID of an account, its raw one or the new one it gets. *)
Definition getAccountsList (protocols : list plugin) (getID : account -> string) (all : list account) : gmap string account :=
  foldl (fun m a => match getProtocolByPurpleID protocols (ac_protocol_id a) with
                    | None => m
                    | Some _ => <[getID a := a]> m
                    end) ∅ all.
(** [IM::getProtocol]; [None] is ProtocolUnknown. *)
Definition getProtocol (protocols : list plugin) (id : string) : option plugin := getProtocolsList protocols !! id.

(** [Protocol::Option::nameFromText]. *)
Definition nameFromText (s : string) : string :=
  smap (fun c => if Ascii.eqb c " " then "-"%char else Case.tolower c) s.

(** [Plugin::load] and [Plugin::unload]; [load_ok], [unload_ok] are what libpurple
    answers.  [inr] is the reason of the LoadError. *)
Definition load (p : plugin) (load_ok : bool) : plugin + string :=
  if pl_unloadable p then inr "Plugin is unloadable"
  else inl (Plugin (pl_id p) (pl_name p) (pl_type p) (pl_invisible p) (pl_loaded p || load_ok) (pl_unloadable p) (pl_error p)).
Definition unload (p : plugin) (unload_ok : bool) : plugin + string :=
  if pl_unloadable p then inr "Plugin is unloadable"
  else if unload_ok
  then inl (Plugin (pl_id p) (pl_name p) (pl_type p) (pl_invisible p) false (pl_unloadable p) (pl_error p))
  else inr ("Unable to unload the plugin: " +:+ pl_error p).

(** [Purple::addAccount]; the steps, and [refused] is the error of [setOptions]. *)
Inductive ev := AccountNew | SetOptions | Destroy | Register | Add | ActivateStatus | Enable.
Definition addAccount (refused : option string) (register_account saved_status : bool) : list ev * option string :=
  match refused with
  | Some e => ([AccountNew; SetOptions; Destroy], Some e)
  | None =>
    ([AccountNew; SetOptions] ++ (if register_account then [Register] else []) ++ [Add]
       ++ (if saved_status then [ActivateStatus; Enable] else []), None)
  end.
End Lists.

(** ** Buddies (im/buddy.cpp) and users of a chat (im/conversation.cpp) *)
Module Buddies.
(** [PurpleBuddy], with the answers of the functions on it. *)
Record buddy := Buddy {
  bu_name : option string; bu_alias : option string;   (* purple_buddy_get_alias *)
  bu_server_alias : option string; bu_servernick : option string;
  bu_group : option (option string);                    (* the group and its name *)
  bu_available : bool; bu_status : option string;       (* the name of the active status *)
  bu_connected : bool;                                  (* account->gc *)
  bu_status_text : option (option string);              (* status_text of the protocol, if it has it *)
  bu_icon : option (option string) }.                   (* the icon and its path *)
Definition p2s (s : option string) : string := default "" s.
(** A C text that is there and not empty. *)
Definition given (s : option string) : option string := match s with Some "" | None => None | Some s => Some s end.
Definition getName (b : buddy) : string := p2s (bu_name b).
Definition getAlias (b : buddy) : string := default (getName b) (given (bu_alias b)).
Definition getGroupName (b : buddy) : string := match bu_group b with Some n => p2s n | None => "" end.
Definition getRealName (b : buddy) : string :=
  match given (bu_server_alias b) with
  | Some rn => rn
  | None => match given (bu_servernick b) with Some s => s | None => getName b end
  end.
(** [g_utf8_pointer_to_offset] counts characters: the bytes that do not continue one. *)
Definition continues (c : ascii) : bool := (128 <=? N_of_ascii c)%N && (N_of_ascii c <? 192)%N.
Fixpoint utf8_chars (s : string) : nat :=
  match s with "" => 0 | String c s => (if continues c then 0 else 1) + utf8_chars s end%nat.
(** [valid] is the end of the valid UTF-8 in the text: [g_utf8_validate]. *)
Definition to_utf8 (valid : string -> nat) (tmp : string) : string :=
  if (valid tmp =? String.length tmp)%nat then tmp else stake (utf8_chars (stake (valid tmp) tmp)) tmp.
Definition getStatus (strip_html : string -> string) (valid : string -> nat) (b : buddy) : string :=
  match bu_status b with
  | None => ""
  | Some name =>
    let s := if bu_available b then "" else name in
    match bu_status_text b, bu_connected b with
    | Some (Some tmp), true => (if sempty s then s else s +:+ ": ") +:+ strip_html (to_utf8 valid tmp)
    | _, _ => s
    end
  end.
Definition getIconPath (b : buddy) : string := match bu_icon b with None => "" | Some p => p2s p end.
(** [setAlias]: what it calls. *)
Inductive ev := AliasBuddy (alias : string) | ServAlias.
Definition setAlias (alias : string) (server_side im_aliases acc_aliases : bool) : list ev :=
  AliasBuddy alias :: (if server_side && im_aliases && acc_aliases then [ServAlias] else []).

(** [PurpleConvChatBuddy]. *)
Record chat_buddy := ChatBuddy { cb_name : option string; cb_alias : option string; cb_flags : Z }.
Definition cb_getName (c : chat_buddy) : string := p2s (cb_name c).
Definition cb_getAlias (c : chat_buddy) : string := match cb_alias c with Some a => a | None => cb_getName c end.
(** [real_name] is get_cb_real_name of the protocol, when it has it. *)
Definition cb_getRealName (real_name : option (chat_buddy -> string)) (c : chat_buddy) : string :=
  match real_name with Some f => f c | None => cb_getName c end.
Definition isMe (chat_nick : string) (c : chat_buddy) : bool := String.eqb (cb_getName c) chat_nick.
End Buddies.
