(* ===== verification/Accounts.v ===== *)
(** The operations of [im::Account] (im/account.cpp) on the structures of libpurple that
    no session of irc/ goes through: settings, commands of a protocol, privacy, new
    buddies, the icon, and the requests of authorization. *)

From S2P Require Import Prelude Util World Nick Effects Wrap.
Import Names.

(** ** An account *)
Module Acct.
(** An action of a protocol in the list of its plugin; its label.  [None] is a NULL
    link of the list. *)
Definition action : Type := option string.
(** [PurpleConnection] and the parts of its [prpl]. *)
Record conn := Conn {
  co_connected : bool;
  co_actions : option (list action);               (* PURPLE_PLUGIN_ACTIONS *)
  co_chat_info : option (list string);             (* the identifiers chat_info gives *)
  co_chat_defaults : option (gmap string string) }.
Record account := Account {
  pa_username : string; pa_password : option string;
  pa_ui : Prefs.store;                             (* purple_account_set_ui_* *)
  pa_deny : list string; pa_perm_deny : Z;
  pa_gc : option conn }.
Definition PURPLE_PRIVACY_DENY_USERS : Z := 4.

Definition getUsername (a : account) : string := pa_username a.
Definition getPassword (a : account) : string := Buddies.p2s (pa_password a).
Definition setPassword (password : string) (a : account) : account :=
  Account (pa_username a) (Some password) (pa_ui a) (pa_deny a) (pa_perm_deny a) (pa_gc a).

(** A setting of the user interface is created when it is set; one that is not there,
    or of another type, has the default. *)
Definition set_ui (k : string) (v : Prefs.pref) (a : account) : account :=
  Account (pa_username a) (pa_password a) (<[k := v]> (pa_ui a)) (pa_deny a) (pa_perm_deny a) (pa_gc a).
Definition ui_string (k d : string) (a : account) : string :=
  match pa_ui a !! k with Some (Prefs.PString s) => s | _ => d end.
Definition ui_bool (k : string) (d : bool) (a : account) : bool :=
  match pa_ui a !! k with Some (Prefs.PBool b) => b | _ => d end.
Definition setID (id : string) : account -> account := set_ui "id" (Prefs.PString id).
(** [new_name] is what [Purple::getNewAccountName] answers. *)
Definition getID (new_name : string) (calculate_newone : bool) (a : account) : string * account :=
  let n := ui_string "id" "" a in
  if calculate_newone && sempty n then (new_name, setID new_name a) else (n, a).
Definition hasServerAliases : account -> bool := ui_bool "server_aliases" true.
Definition setServerAliases (b : bool) : account -> account := set_ui "server_aliases" (Prefs.PBool b).
Definition getStatusChannelName : account -> string := ui_string "channel" "".
Definition getServername (new_name : string) (a : account) : string * account :=
  let (id, a') := getID new_name true a in (getUsername a +:+ ":" +:+ id, a').
Definition isConnected (a : account) : bool :=
  match pa_gc a with Some gc => co_connected gc | None => false end.

(** The actions of a connected account. *)
Definition actions (a : account) : list action :=
  match pa_gc a with
  | Some gc => if co_connected gc then default [] (co_actions gc) else []
  | None => []
  end.
Section Commands.
Context {env : W.Env}.
Definition getCommandsList (a : account) : list string := omap (fun l => nickize <$> l) (actions a).
(** The place of the action that is called; [None] is [false]. *)
Fixpoint find_action (cmd : string) (l : list action) : option nat :=
  match l with
  | [] => None
  | Some label :: l => if String.eqb (nickize label) cmd then Some O else S <$> find_action cmd l
  | None :: l => S <$> find_action cmd l
  end.
Definition callCommand (cmd : string) (a : account) : option nat := find_action cmd (actions a).
End Commands.

(** ** Privacy: the functions of libpurple on the list, whose answer is whether it has
    changed. *)
Class Privacy := {
  deny_add : string -> list string -> list string * bool;
  deny_remove : string -> list string -> list string * bool }.
Section Privacy.
Context {privacy : Privacy}.
Definition with_deny (l : list string) (a : account) : account :=
  Account (pa_username a) (pa_password a) (pa_ui a) l (pa_perm_deny a) (pa_gc a).
Definition getDenyList (a : account) : list string := pa_deny a.
(** The account, whether [serv_set_permit_deny] is called, the answer. *)
Definition deny (who : string) (a : account) : account * bool * bool :=
  let change := negb (pa_perm_deny a =? PURPLE_PRIVACY_DENY_USERS) in
  let a := Account (pa_username a) (pa_password a) (pa_ui a) (pa_deny a) PURPLE_PRIVACY_DENY_USERS (pa_gc a) in
  let (l, r) := deny_add who (pa_deny a) in
  (with_deny l a, change && isConnected a, r).
Definition allow (who : string) (a : account) : account * bool :=
  let (l, r) := deny_remove who (pa_deny a) in (with_deny l a, r).
End Privacy.

(** ** Buddies of the list: the groups, and the buddies with their group. *)
Record blist := Blist { bl_groups : list string; bl_buddies : list (string * string) }.
Inductive bev := GroupNew (name : string) | BuddyNew (name : string) | AccountAddBuddy (name : string)
| AccountRemoveBuddy (name : string) | BlistRemoveBuddy (name : string).
(** [None] is a failed assertion. *)
Definition addBuddy (username group : string) (l : blist) : option (blist * list bev) :=
  if sempty username || sempty group then None
  else
    let known := bool_decide (group ∈ bl_groups l) in
    Some (Blist (if known then bl_groups l else bl_groups l ++ [group]) (bl_buddies l ++ [(username, group)]),
          (if known then [] else [GroupNew group]) ++ [BuddyNew username; AccountAddBuddy username]).
(** [i] is the place of the buddy. *)
Definition removeBuddy (i : nat) (l : blist) : blist * list bev :=
  match bl_buddies l !! i with
  | Some (n, _) => (Blist (bl_groups l) (base.delete i (bl_buddies l)), [AccountRemoveBuddy n; BlistRemoveBuddy n])
  | None => (l, [])
  end.

(** ** Chats; [None] is a NULL dereferenced, and a failed assertion. *)
Definition supportsChats (a : account) : option bool :=
  (fun gc => match co_chat_info gc with Some _ => true | None => false end) <$> pa_gc a.
Definition chat_default (gc : conn) (k : string) : string :=
  default "" (match co_chat_defaults gc with Some m => m !! k | None => None end).
Definition getChatParameters (a : account) : option (gmap string string) :=
  match pa_gc a with
  | Some gc =>
    if co_connected gc
    then Some (foldl (fun m k => <[k := chat_default gc k]> m) ∅ (default [] (co_chat_info gc)))
    else None
  | None => None
  end.
End Acct.

(** ** [Account::setBuddyIcon] *)
Module Icon.
Import Eff.
Local Open Scope eff_scope.
(** [temp_error]: NULL, an error, or an error that has been freed. *)
Inductive gerror := Null | Live (message : string) | Freed.
Inductive ev :=
| Logged (text : string) | TmpOpened (file : string) | Encoded (format file : string) (ok : bool)
| ImageFreed | IconSet (file : string) (len : Z) | Unlinked (file : string).
Record st := St { temp_error : gerror; trace : list ev }.
Definition M (A : Type) : Type := Eff.M st Empty_set A.
(** The answers of Imlib, of the file system and of GLib. *)
Class IconEnv := {
  have_imlib : bool;
  loads : string -> bool;                      (* imlib_load_image *)
  open_tmp : string + string;                  (* the file, or the error *)
  encodes : string -> bool;                    (* imlib saves in this format *)
  contents : list ev -> string -> Z + string;  (* g_file_get_contents: the length, or the error *)
  icon_id : string }.                          (* getID *)
(** The protocol of an account, when it has one: its [icon_spec]. *)
Record icon_spec := IconSpec { format : option string; max_filesize : Z }.

Section Icon.
Context {env : IconEnv}.
Definition emit (e : ev) : M unit := put (fun s => St (temp_error s) (trace s ++ [e])).
Definition set_error (e : gerror) : M unit := put (fun s => St e (trace s)).
(** [temp_error->message] and [g_error_free(temp_error)]. *)
Definition message : M string :=
  eff! e := get temp_error;
  match e with Live m => ret m | Null => crash "NULL" | Freed => crash "use after free" end.
Definition error_free : M unit :=
  eff! e := get temp_error;
  match e with Live _ => set_error Freed | Null => ret tt | Freed => crash "double free" end.
(** A function of GLib sets an error only where there is none. *)
Definition glib_error (m : string) : M unit :=
  eff! e := get temp_error; match e with Null => set_error (Live m) | _ => ret tt end.

(** [g_strsplit(s, ",", 0)]. *)
Fixpoint split_comma (s : string) : list string :=
  match s with
  | "" => [""]
  | String c s' =>
    if Ascii.eqb c "," then "" :: split_comma s'
    else match split_comma s' with [] => [String c ""] | w :: l => String c w :: l end
  end.
Definition strsplit (s : string) : list string := if sempty s then [] else split_comma s.
(** The loop over the formats: whether one has encoded the image. *)
Fixpoint encode (file : string) (formats : list string) : M bool :=
  match formats with
  | [] => ret false
  | f :: l => emit (Encoded f file (encodes f));; if encodes f then ret true else encode file l
  end.
(** The part with Imlib: the file to read, and the one to remove. *)
Definition convert (fmt filename : string) : M (string * option string) :=
  if have_imlib && loads filename then
    eff! r :=
      match open_tmp with
      | inr err =>
        glib_error err;;
        eff! m := message;
        emit (Logged ("Unable to create a temporary file: " +:+ m));;
        error_free;;
        ret (filename, None)
      | inl tmp =>
        emit (TmpOpened tmp);;
        eff! ok := encode tmp (strsplit fmt);
        if ok then ret (tmp, Some tmp)
        else emit (Logged ("Unable to encode image for " +:+ icon_id));; ret (filename, Some tmp)
      end;
    emit ImageFreed;;
    ret r
  else ret (filename, None).
Definition read_icon (max : Z) (filename : string) : M unit :=
  eff! r := get (fun s => contents (trace s) filename);
  match r with
  | inl len =>
    if negb (max =? 0) && (max <? len)
    then emit (Logged ("Unable to set image on " +:+ icon_id +:+ ": image too large"))
    else emit (IconSet filename len)
  | inr err =>
    glib_error err;;
    eff! m := message;
    emit (Logged ("Unable to get image content on " +:+ icon_id +:+ ": " +:+ m));;
    error_free
  end.
Definition setBuddyIcon (spec : option icon_spec) (filename : string) : M unit :=
  match spec with
  | Some (IconSpec (Some fmt) max) =>
    set_error Null;;
    eff! r := convert fmt filename;
    read_icon max (fst r);;
    match snd r with Some tmp => emit (Unlinked tmp) | None => ret tt end
  | _ => ret tt
  end.
End Icon.
End Icon.

(** ** The requests of authorization (account.cpp, [acc_ops]) *)
Module AuthAdd.
Import Eff.
Local Open Scope eff_scope.
(** [auth_and_add] and [AddUserData]. *)
Inductive data :=
| AuthAndAdd (user_data : nat) (username : string) (alias : option string)
| AddUser (username : string) (alias : option string).
(** What the second argument of the callbacks of a dialog points to: one of these, by
    its place in the heap, or what libpurple gave. *)
Inductive arg := Ptr (p : nat) | UserData (u : nat).
Inductive kind := Authorize | Add.
Record dialog := Dialog { dg_kind : kind; dg_text : string; dg_arg : arg }.
Inductive ev := AuthCb (u : nat) | DenyCb (u : nat) | RequestAddBuddy (username : string) (alias : option string).
(** The heap and the place of the next block; the open dialogs and the next handle. *)
Record st := St {
  heap : gmap nat data; next : nat; dialogs : gmap nat dialog; handle : nat; trace : list ev }.
Definition M (A : Type) : Type := Eff.M st Empty_set A.
Definition emit (e : ev) : M unit := put (fun s => St (heap s) (next s) (dialogs s) (handle s) (trace s ++ [e])).
Definition alloc (d : data) : M nat :=
  eff! p := get next;
  put (fun s => St (<[p := d]> (heap s)) (S p) (dialogs s) (handle s) (trace s));;
  ret p.
Definition deref_ptr (p : nat) : M data :=
  eff! h := get heap; match h !! p with Some d => ret d | None => crash "use after free" end.
Definition free (p : nat) : M unit :=
  deref_ptr p;;
  put (fun s => St (base.delete p (heap s)) (next s) (dialogs s) (handle s) (trace s)).
(** [purple_request_action]: the handle of the dialog. *)
Definition request_action (d : dialog) : M nat :=
  eff! h := get handle;
  put (fun s => St (heap s) (next s) (<[h := d]> (dialogs s)) (S h) (trace s));;
  ret h.

Definition request_add (info remote_user : string) (alias : option string) : M unit :=
  eff! p := alloc (AddUser remote_user alias);
  request_action (Dialog Add info (Ptr p));;
  ret tt.
Definition request_authorize (text remote_user : string) (alias : option string) (on_list : bool) (user_data : nat) : M nat :=
  if negb on_list then
    eff! p := alloc (AuthAndAdd user_data remote_user alias);
    request_action (Dialog Authorize text (Ptr p))
  else request_action (Dialog Authorize text (UserData user_data)).

(** [listed]: the connection of the account is one of libpurple's. *)
Definition add_user_cb (listed : bool) (p : nat) : M unit :=
  eff! d := deref_ptr p;
  match d with
  | AddUser u al => when listed (emit (RequestAddBuddy u al));; free p
  | AuthAndAdd _ _ _ => crash "another type"
  end.
Definition authorize_and_add_cb (p : nat) : M unit :=
  eff! d := deref_ptr p;
  match d with
  | AuthAndAdd u n al => emit (AuthCb u);; emit (RequestAddBuddy n al);; free p
  | AddUser _ _ => crash "another type"
  end.
Definition deny_no_add_cb (p : nat) : M unit :=
  eff! d := deref_ptr p;
  match d with
  | AuthAndAdd u _ _ => emit (DenyCb u);; free p
  | AddUser _ _ => crash "another type"
  end.
(** The user answers a dialog, with its first action or its second; libpurple closes the
    dialog and calls back. *)
Definition close (h : nat) : M unit :=
  put (fun s => St (heap s) (next s) (base.delete h (dialogs s)) (handle s) (trace s)).
Definition answer (listed : bool) (h : nat) (first : bool) : M unit :=
  eff! ds := get dialogs;
  match ds !! h with
  | None => ret tt
  | Some d =>
    close h;;
    match dg_kind d, dg_arg d, first with
    | Add, Ptr p, true => add_user_cb listed p
    | Add, Ptr p, false => free p
    | Authorize, Ptr p, true => authorize_and_add_cb p
    | Authorize, Ptr p, false => deny_no_add_cb p
    | _, UserData u, true => emit (AuthCb u)
    | _, UserData u, false => emit (DenyCb u)
    end
  end.
Definition request_close (h : nat) : M unit := close h.

(** What happens to these requests. *)
Inductive op :=
| OAdd (info remote_user : string) (alias : option string)
| OAuthorize (text remote_user : string) (alias : option string) (on_list : bool) (user_data : nat)
| OAnswer (listed : bool) (h : nat) (first : bool)
| OClose (h : nat).
Definition perform (o : op) : M unit :=
  match o with
  | OAdd i u al => request_add i u al
  | OAuthorize t u al l d => request_authorize t u al l d;; ret tt
  | OAnswer l h f => answer l h f
  | OClose h => request_close h
  end.
Definition start : st := St ∅ 0 ∅ 0 [].
End AuthAdd.
