(* ===== verification/WrapProps.v ===== *)
(** What the wrappers of src/im promise: the settings of a user are a record that the
    preferences implement, a user directory serves one instance of libpurple, the
    accounts and the commands that are listed are those that can be reached, and the
    requests of authorization use their data once. *)

From S2P Require Import Prelude Util World Nick Effects Wrap Accounts.

(** ** The settings *)
Module PrefsP.
Import Prefs.
(** What a user can set, as IM's interface shows it. *)
Record settings := Settings {
  s_password : string; s_typing : bool; s_nobuddies : bool; s_delay : Z; s_voiced : bool;
  s_aliases : bool; s_idle : bool }.
Definition view (m : store) : settings :=
  Settings (getPassword m) (hasTypingNotice m) (hasAcceptNoBuddiesMessages m) (getSendDelay m)
    (hasVoicedBuddies m) (hasServerAliases m) (hasAwayIdle m).
Inductive change := SetPassword (s : string) | SetTyping (b : bool) | SetNoBuddies (b : bool)
| SetDelay (z : Z) | SetVoiced (b : bool) | SetAliases (b : bool) | SetIdle (b : bool).
Definition implement (c : change) : store -> store :=
  match c with
  | SetPassword s => setPassword s
  | SetTyping b => setTypingNotice b
  | SetNoBuddies b => setAcceptNoBuddiesMessages b
  | SetDelay z => setSendDelay z
  | SetVoiced b => setVoicedBuddies b
  | SetAliases b => setServerAliases b
  | SetIdle b => setAwayIdle b
  end.
Definition specify (c : change) (s : settings) : settings :=
  let (p, t, n, d, v, a, i) := s in
  match c with
  | SetPassword p => Settings p t n d v a i
  | SetTyping t => Settings p t n d v a i
  | SetNoBuddies n => Settings p t n d v a i
  | SetDelay d => Settings p t n d v a i
  | SetVoiced v => Settings p t n d v a i
  | SetAliases a => Settings p t n d v a i
  | SetIdle i => Settings p t n d v a i
  end.
(** The preferences minbif uses, with a value of their type. *)
Definition types : gmap string pref :=
  {["/minbif/password" := PString ""; "/minbif/typing_notice" := PInt 0;
    "/minbif/accept_nobuddies_messages" := PBool true; "/minbif/send_delay" := PInt 300;
    "/minbif/voiced_buddies" := PBool true; "/minbif/server_aliases" := PBool true;
    "/purple/away/away_when_idle" := PBool true]}.
Definition typed (m : store) : Prop := forall k v t, types !! k = Some t -> m !! k = Some v -> same_type v t = true.
Definition present (m : store) : Prop := forall k t, types !! k = Some t -> is_Some (m !! k).

Lemma add_typed k v m t : types !! k = Some t -> same_type v t = true -> typed m -> typed (add k v m).
Proof.
  intros Ht Hv Hm k' v' t' Ht' Hk'. unfold add in Hk'. destruct (m !! k) eqn:E; [by eapply Hm|].
  destruct (decide (k = k')) as [<-|Hn].
  - rewrite lookup_insert_eq in Hk'. congruence.
  - rewrite lookup_insert_ne in Hk' by done. by eapply Hm.
Qed.
Lemma add_present k v m k' : is_Some (m !! k') -> is_Some (add k v m !! k').
Proof.
  intros H. unfold add. destruct (m !! k); [done|]. destruct (decide (k = k')) as [<-|];
    [rewrite lookup_insert_eq; eauto|by rewrite lookup_insert_ne].
Qed.
Lemma add_there k v m : is_Some (add k v m !! k).
Proof. unfold add. destruct (m !! k) eqn:E; [rewrite E; eauto|rewrite lookup_insert_eq; eauto]. Qed.
Lemma same_type_trans a b c : same_type a c = true -> same_type b c = true -> same_type a b = true.
Proof. by destruct a, b, c. Qed.
Lemma same_type_sym a b : same_type a b = same_type b a.
Proof. by destruct a, b. Qed.
(** Setting a preference that is there with a value of its type is an insertion. *)
Lemma set_insert k v t m : typed m -> present m -> types !! k = Some t -> same_type v t = true -> set k v m = <[k := v]> m.
Proof.
  intros Hm Hp Ht Hv. destruct (Hp k t Ht) as [old Ho]. unfold set. rewrite Ho.
  by rewrite (same_type_trans old v t) by (done || by eapply Hm).
Qed.
Lemma insert_typed k v t m : types !! k = Some t -> same_type v t = true -> typed m -> typed (<[k := v]> m).
Proof.
  intros Ht Hv Hm k' v' t' Ht' [[<- <-]|[_ H]]%lookup_insert_Some; [congruence|by eapply Hm].
Qed.
Lemma insert_present k v m : present m -> present (<[k := v]> m).
Proof. intros Hp k' t Ht. destruct (decide (k = k')) as [<-|]; [rewrite lookup_insert_eq; eauto|rewrite lookup_insert_ne by done; by eapply Hp]. Qed.

Definition key (c : change) : string :=
  match c with
  | SetPassword _ => "/minbif/password" | SetTyping _ => "/minbif/typing_notice"
  | SetNoBuddies _ => "/minbif/accept_nobuddies_messages" | SetDelay _ => "/minbif/send_delay"
  | SetVoiced _ => "/minbif/voiced_buddies" | SetAliases _ => "/minbif/server_aliases"
  | SetIdle _ => "/purple/away/away_when_idle"
  end.
Definition value (c : change) : pref :=
  match c with
  | SetPassword s => PString s | SetTyping b => PInt (if b then 1 else 0) | SetDelay z => PInt z
  | SetNoBuddies b | SetVoiced b | SetAliases b | SetIdle b => PBool b
  end.
Lemma implement_set c m : implement c m = set (key c) (value c) m.
Proof. by destruct c. Qed.
Lemma key_typed c : exists t, types !! key c = Some t /\ same_type (value c) t = true.
Proof. by destruct c; eexists; (split; [vm_compute; reflexivity|]). Qed.
Lemma implement_insert c m : typed m -> present m -> implement c m = <[key c := value c]> m.
Proof. intros Hm Hp. destruct (key_typed c) as (t & Ht & Hv). rewrite implement_set. by apply (set_insert _ _ t). Qed.
Lemma implement_keeps c m : typed m -> present m -> typed (implement c m) /\ present (implement c m).
Proof.
  intros Hm Hp. rewrite implement_insert by done. destruct (key_typed c) as (t & Ht & Hv).
  split; [by eapply insert_typed|by apply insert_present].
Qed.
Lemma view_insert c m : view (<[key c := value c]> m) = specify c (view m).
Proof.
  unfold view, getPassword, hasTypingNotice, hasAcceptNoBuddiesMessages, getSendDelay, hasVoicedBuddies,
    hasServerAliases, hasAwayIdle, get_string, get_int, get_bool, specify.
  destruct c; cbn [key value]; rewrite ?lookup_insert_eq, ?lookup_insert_ne by done; try done.
  by destruct b.
Qed.
Lemma init_ready m : typed m -> is_Some (m !! "/purple/away/away_when_idle") ->
  typed (minbif_prefs_init m) /\ present (minbif_prefs_init m).
Proof.
  intros Hm Hi. split.
  - unfold minbif_prefs_init. repeat (eapply add_typed; [vm_compute; reflexivity|reflexivity|]). exact Hm.
  - intros k t Ht. unfold types in Ht.
    repeat (apply lookup_insert_Some in Ht as [[<- _]|[_ Ht]];
            [unfold minbif_prefs_init; repeat first [apply add_there | apply add_present | exact Hi]|]).
    apply lookup_singleton_Some in Ht as [<- _].
    unfold minbif_prefs_init. repeat apply add_present. exact Hi.
Qed.

(** C18: The preferences implement the settings of a user: once the preferences of
    minbif are initialised over what was stored with the same types, any sequence of
    changes leaves each getter with what the last change of its setting gave, and the
    settings that no change names as they were. *)
Theorem settings_refine (m : store) (l : list change) :
  typed m -> is_Some (m !! "/purple/away/away_when_idle") ->
  view (foldl (fun m c => implement c m) (minbif_prefs_init m) l)
    = foldl (fun s c => specify c s) (view (minbif_prefs_init m)) l.
Proof.
  intros Hm Hi. destruct (init_ready m Hm Hi) as [H1 H2]. revert H1 H2.
  generalize (minbif_prefs_init m). induction l as [|c l IH]; intros m' H1 H2; [done|]. cbn [foldl].
  rewrite <- (view_insert c m'), <- implement_insert by done. apply IH; by apply implement_keeps.
Qed.
Lemma settings_refine_witness :
  getSendDelay (foldl (fun m c => implement c m)
    (minbif_prefs_init {["/purple/away/away_when_idle" := PBool true]}) [SetDelay 100; SetTyping true; SetDelay 50]) = 50.
Proof.
  pose proof (settings_refine {["/purple/away/away_when_idle" := PBool true]} [SetDelay 100; SetTyping true; SetDelay 50]) as H.
  apply (f_equal s_delay) in H; [exact H| |].
  - intros k v t Ht Hk. apply lookup_singleton_Some in Hk as [<- <-]. vm_compute in Ht. by injection Ht as <-.
  - rewrite lookup_singleton_eq. eauto.
Defined.
(** A new user has the defaults. *)
Example defaults :
  view (minbif_prefs_init {["/purple/away/away_when_idle" := PBool false]}) = Settings "" false true 300 true true false.
Proof. vm_compute. reflexivity. Qed.
End PrefsP.

(** ** One instance *)
Module DirsP.
Import Eff Dirs.
Section DirsP.
Context {env : DirsEnv}.
Lemma make_dir_wp what dir s :
  wp (make_dir what dir)
     (fun _ s' => s' = St ({[dir]} ∪ dirs s) (path s) (instance s) (ui_info s) (trace s))
     (fun e s' => s' = s /\ (dir ∉ dirs s) /\ (exists r, e = IMError r)) s.
Proof.
  unfold make_dir, bind, get, wp. cbn. destruct (bool_decide_reflect (dir ∈ dirs s)) as [H|H].
  - cbn. destruct s; cbn in *. f_equal. set_solver.
  - destruct (mkdir (dirs s) dir) eqn:E; cbn; [|done]. split; [done|]. split; [done|]. eauto.
Qed.
Lemma emits s (l : list ev) :
  mapM_ emit l s = (St (dirs s) (path s) (instance s) (ui_info s) (trace s ++ l), Done tt).
Proof.
  revert s. induction l as [|e l IH]; intros s; cbn [mapM_].
  - rewrite app_nil_r. by destruct s.
  - unfold bind, emit, put. rewrite IH. cbn. by rewrite <- app_assoc.
Qed.
(** A user has a directory and the process has one instance: making an IM, when it
    succeeds, leaves the user's directory and the instance set; where there is an
    instance already, it fails and calls nothing of libpurple. *)
Lemma new_im_instance username s :
  wp (new_im username)
     (fun _ s' => instance s = false /\ instance s' = true /\ user_path s' username ∈ dirs s'
                  /\ last (trace s') = Some LoadBlist)
     (fun e s' => (instance s = true -> trace s' = trace s) /\ (exists r, e = IMError r)) s.
Proof.
  unfold new_im. apply ewp_bind, ewp_get, ewp_bind.
  eapply ewp_mono; [apply make_dir_wp| |].
  2: { intros e s' (-> & _ & He). done. }
  intros _ s' ->. apply ewp_catch. set (dir := user_path s username).
  unfold purple_init. apply ewp_bind, ewp_get. cbn [instance].
  destruct (instance s) eqn:Hi.
  { apply ewp_throw. apply ewp_throw. split; [done|eauto]. }
  unfold inited, wp, bind, emit, put, get. cbn.
  destruct (core_init _); cbn; [|split; [done|eauto]].
  destruct (single_instance _); cbn; [|split; [done|eauto]].
  repeat split; [set_solver|]. by rewrite last_snoc.
Qed.
End DirsP.
End DirsP.

(** ** The lists *)
Module ListsP.
Import Lists.
#[export] Instance account_eq : EqDecision account.
Proof. solve_decision. Defined.
Section ListsP.
Context (protocols : list plugin) (getID : account -> string).
Definition loaded (a : account) : Prop := getProtocolByPurpleID protocols (ac_protocol_id a) <> None.
Lemma fold_other all (m : gmap string account) id : (forall a, a ∈ all -> loaded a -> getID a <> id) ->
  foldl (fun m a => match getProtocolByPurpleID protocols (ac_protocol_id a) with
                    | None => m | Some _ => <[getID a := a]> m end) m all !! id = m !! id.
Proof.
  revert m. induction all as [|a all IH]; intros m H; [done|]. cbn [foldl].
  rewrite IH by (intros; apply H; [by right|done]).
  pose proof (H a (list_elem_of_here _ _)) as Ha. unfold loaded in Ha.
  destruct (getProtocolByPurpleID _ _); [|done]. rewrite lookup_insert_ne; [done|by apply Ha].
Qed.
(** When IDs are distinct, every account whose protocol is there is in the list of
    accounts under its ID, and the list has nothing else. *)
Lemma accounts_listed all id a :
  (forall x y, x ∈ all -> y ∈ all -> loaded x -> loaded y -> getID x = getID y -> x = y) ->
  getAccountsList protocols getID all !! id = Some a <-> a ∈ all /\ loaded a /\ getID a = id.
Proof.
  intros Hd. unfold getAccountsList.
  assert (G : forall m : gmap string account, foldl (fun m a => match getProtocolByPurpleID protocols (ac_protocol_id a) with
              | None => m | Some _ => <[getID a := a]> m end) m all !! id = Some a
              <-> (a ∈ all /\ loaded a /\ getID a = id)
                  \/ ((forall x, x ∈ all -> loaded x -> getID x <> id) /\ m !! id = Some a)).
  { induction all as [|b all IH]; intros m; cbn [foldl].
    { split; [intros H; right; split; [by intros ? ?%elem_of_nil|done]|].
      intros [(?%elem_of_nil & _)|[_ ?]]; done. }
    rewrite IH by (intros; apply Hd; try done; by right). unfold loaded.
    assert (Hb : forall x, x ∈ b :: all -> loaded x -> loaded b -> getID x = getID b -> x = b).
    { intros x Hx Hlx Hlb. by apply Hd; [|left| |]. }
    unfold loaded in Hb. destruct (getProtocolByPurpleID protocols (ac_protocol_id b)) eqn:E.
    - destruct (decide (getID b = id)) as [<-|Hn].
      + rewrite lookup_insert_eq. split.
        * intros [(? & ? & ?)|[_ [= <-]]]; [left; split_and!; [by right|done|done]|].
          left. split_and!; [left|congruence|done].
        * intros [(Hin & Hl & He)|[H _]]; [|exfalso; apply (H b); [left|congruence|done]].
          rewrite (Hb a Hin Hl ltac:(congruence) He) in *.
          destruct (decide (b ∈ all)); [left; split_and!; [done|congruence|done]|right]. split; [|done].
          intros x Hx Hlx Hex. rewrite (Hb x ltac:(by right) Hlx ltac:(congruence) Hex) in Hx. done.
      + rewrite lookup_insert_ne by done. setoid_rewrite elem_of_cons. split.
        * intros [(? & ? & ?)|[H ?]]; [left; auto|right]. split; [|done]. intros x [->|?]; auto.
        * intros [([->|?] & ? & ?)|[H ?]]; [done|left; auto|right]. split; [|done]. intros; apply H; auto.
    - setoid_rewrite elem_of_cons. split.
      + intros [(? & ? & ?)|[H ?]]; [left; auto|right]. split; [|done].
        intros x [->|?] Hl; [by rewrite E in Hl|auto].
      + intros [([->|?] & Hl & ?)|[H ?]]; [by rewrite E in Hl|left; auto|right]. split; [|done].
        intros; apply H; auto. }
  rewrite G. rewrite lookup_empty. split; [intros [?|[_ ?]]; done|auto].
Qed.
End ListsP.
End ListsP.

(** ** Accounts *)
Module AcctP.
Import Acct.
Section AcctP.
Context {env : W.Env}.
Lemma find_action_spec cmd l i : find_action cmd l = Some i ->
  (exists label, l !! i = Some (Some label) /\ Names.nickize label = cmd)
  /\ (forall j label, (j < i)%nat -> l !! j = Some (Some label) -> Names.nickize label <> cmd).
Proof.
  revert i. induction l as [|[label|] l IH]; intros i; cbn [find_action]; [done| |].
  - destruct (String.eqb_spec (Names.nickize label) cmd) as [H|H].
    + intros [= <-]. split; [by exists label|lia].
    + intros (i' & Hi & ->)%fmap_Some. destruct (IH i' Hi) as [H1 H2]. split; [done|].
      intros [|j] label' Hj; [by intros [= <-]|]. apply H2. lia.
  - intros (i' & Hi & ->)%fmap_Some. destruct (IH i' Hi) as [H1 H2]. split; [done|].
    intros [|j] label' Hj; [done|]. apply H2. lia.
Qed.
Lemma find_action_none cmd l : find_action cmd l = None -> cmd ∉ omap (fun l => Names.nickize <$> l) l.
Proof.
  induction l as [|[label|] l IH]; cbn; [by intros _ ?%elem_of_nil| |].
  - destruct (String.eqb_spec (Names.nickize label) cmd) as [H|H]; [done|].
    intros Hn%fmap_None. apply not_elem_of_cons. split; [congruence|auto].
  - intros Hn%fmap_None. auto.
Qed.
(** The commands that the account lists are those that can be called: a command is
    listed exactly when calling it calls an action, which is the first whose label
    gives that name. *)
Theorem listed_called (a : account) cmd :
  (cmd ∈ getCommandsList a <-> is_Some (callCommand cmd a))
  /\ (forall i, callCommand cmd a = Some i ->
        (exists label, actions a !! i = Some (Some label) /\ Names.nickize label = cmd)
        /\ (forall j label, (j < i)%nat -> actions a !! j = Some (Some label) -> Names.nickize label <> cmd)).
Proof.
  unfold getCommandsList, callCommand. split; [|apply find_action_spec]. split.
  - intros H. destruct (find_action cmd (actions a)) eqn:E; [eauto|]. by apply find_action_none in E.
  - intros [i Hi]. destruct (find_action_spec _ _ _ Hi) as [(label & Hl & <-) _].
    apply list_elem_of_omap. exists (Some label). split; [by eapply list_elem_of_lookup_2|done].
Qed.
End AcctP.
(** An account keeps the ID it was given, and an account that has none gets the new one. *)
Lemma getID_stable n n' a : n <> "" -> let '(id, a') := getID n true a in
  id <> "" /\ getID n' true a' = (id, a') /\ (ui_string "id" "" a <> "" -> id = ui_string "id" "" a).
Proof.
  intros Hn. unfold getID. cbn [andb]. destruct (ui_string "id" "" a) eqn:E; cbn [sempty].
  - split; [done|]. unfold setID, set_ui, ui_string. cbn. rewrite lookup_insert_eq. by destruct n.
  - rewrite E. cbn. split_and!; [done|done|done].
Qed.
Lemma setID_getID n b id a : id <> "" -> fst (getID n b (setID id a)) = id.
Proof. intros H. unfold getID, setID, set_ui, ui_string. cbn. rewrite lookup_insert_eq. destruct id; [done|]. by rewrite andb_false_r. Qed.
(** Its settings do not mix. *)
Lemma setServerAliases_id n c b a : fst (getID n c (setServerAliases b a)) = fst (getID n c a)
  /\ hasServerAliases (setServerAliases b a) = b.
Proof.
  unfold getID, setServerAliases, hasServerAliases, set_ui, ui_string, ui_bool. cbn.
  rewrite lookup_insert_ne, lookup_insert_eq by done. split; [|done]. by destruct (pa_ui a !! "id") as [[]|]; destruct c; cbn; repeat case_match.
Qed.
(** A buddy is in a group that exists, and removing the last buddy undoes an addition. *)
Definition blist_ok (l : blist) : Prop := NoDup (bl_groups l) /\ forall n g, (n, g) ∈ bl_buddies l -> g ∈ bl_groups l.
Lemma addBuddy_ok u g l : blist_ok l -> u <> "" -> g <> "" ->
  exists l' t, addBuddy u g l = Some (l', t) /\ blist_ok l' /\ (u, g) ∈ bl_buddies l'
    /\ bl_buddies (fst (removeBuddy (length (bl_buddies l)) l')) = bl_buddies l.
Proof.
  intros [Hn Hg] Hu Hgr. unfold addBuddy. destruct u, g; try done. cbn [sempty orb].
  eexists _, _. split; [done|]. split; [|split].
  - case_bool_decide as Hin; split; cbn.
    + done.
    + intros n g' [?|[= -> ->]%list_elem_of_singleton]%elem_of_app; eauto.
    + apply NoDup_app. split; [done|]. split; [|apply NoDup_singleton].
      intros x Hx ->%list_elem_of_singleton. done.
    + intros n g' [?|[= -> ->]%list_elem_of_singleton]%elem_of_app; apply elem_of_app; [left; eauto|right; by left].
  - cbn. apply elem_of_app. right. by left.
  - unfold removeBuddy. cbn. rewrite lookup_app_r, Nat.sub_diag by done. cbn.
    rewrite delete_middle. by rewrite app_nil_r.
Qed.
(** The parameters of a chat are those that the protocol names, with its defaults. *)
Lemma getChatParameters_spec a gc m k : pa_gc a = Some gc -> getChatParameters a = Some m ->
  m !! k = if bool_decide (k ∈ default [] (co_chat_info gc)) then Some (chat_default gc k) else None.
Proof.
  unfold getChatParameters. intros ->. destruct (co_connected gc); [|done]. intros [= <-].
  generalize (default [] (co_chat_info gc)) as l. intros l.
  assert (G : forall m : gmap string string, foldl (fun m k => <[k := chat_default gc k]> m) m l !! k
              = if bool_decide (k ∈ l) then Some (chat_default gc k) else m !! k).
  { induction l as [|x l IH]; intros m; [done|]. cbn [foldl]. rewrite IH.
    destruct (bool_decide_reflect (k ∈ l)).
    - rewrite bool_decide_eq_true_2; [done|by right].
    - destruct (decide (x = k)) as [->|Hne].
      + rewrite bool_decide_eq_true_2 by (by left). apply lookup_insert_eq.
      + rewrite bool_decide_eq_false_2 by (rewrite elem_of_cons; naive_solver). by apply lookup_insert_ne. }
  by rewrite G, lookup_empty.
Qed.
(** Without a connection, asking whether there are chats reads NULL. *)
Example supports_null u p ui d pd : supportsChats (Account u p ui d pd None) = None.
Proof. done. Qed.
End AcctP.

(** ** The icon of an account *)
Module IconP.
Import Eff Icon.
Section IconP.
Context {env : IconEnv}.
(** The file that becomes the icon: the image encoded in the first format of the
    protocol that works, and the image itself when none does. *)
Definition chosen (fmt filename : string) : string :=
  if have_imlib && loads filename
  then match open_tmp with
       | inl tmp => if existsb encodes (strsplit fmt) then tmp else filename
       | inr _ => filename
       end
  else filename.
Definition quiet (e : ev) : Prop := match e with IconSet _ _ | TmpOpened _ | Unlinked _ => False | _ => True end.
Lemma encode_run file l s : exists t, Forall quiet t
  /\ encode file l s = (St (temp_error s) (trace s ++ t), Done (existsb encodes l)).
Proof.
  revert s. induction l as [|f l IH]; intros s; cbn [encode existsb].
  - exists []. split; [constructor|]. rewrite app_nil_r. by destruct s.
  - unfold bind at 1. unfold emit, put. destruct (encodes f).
    + exists [Encoded f file true]. split; [by repeat constructor|done].
    + edestruct (IH (St (temp_error s) (trace s ++ [Encoded f file false]))) as (t & Ht & ->).
      exists (Encoded f file false :: t). split; [by constructor|]. cbn. by rewrite <- app_assoc.
Qed.
(** The conversion: what it chooses, the file it opened, and the error it may leave. *)
Lemma convert_run fmt filename s : temp_error s = Null ->
  exists t tmp e, convert fmt filename s = (St e (trace s ++ t), Done (chosen fmt filename, tmp))
    /\ (forall f l, IconSet f l ∉ t) /\ (forall f, TmpOpened f ∈ t -> tmp = Some f)
    /\ (e = Null \/ (e = Freed /\ tmp = None /\ have_imlib && loads filename = true /\ exists err, open_tmp = inr err)).
Proof.
  destruct s as [e0 tr]. cbn [temp_error trace]. intros ->. unfold convert, chosen. destruct (have_imlib && loads filename).
  2: { exists [], None, Null. split_and!; [|by intros ? ? ?%elem_of_nil|by intros ? ?%elem_of_nil|by left].
       by rewrite app_nil_r. }
  destruct open_tmp as [tmp|err].
  - unfold bind, emit, put. cbn [temp_error trace].
    destruct (encode_run tmp (strsplit fmt) (St Null (tr ++ [TmpOpened tmp]))) as (t & Ht & Hr).
    unfold emit, put in Hr. rewrite Hr. cbn [temp_error trace].
    rewrite Forall_forall in Ht.
    destruct (existsb encodes (strsplit fmt)); cbn.
    + exists (TmpOpened tmp :: t ++ [ImageFreed]), (Some tmp), Null. rewrite <- !app_assoc. split_and!; [done| | |by left].
      * intros f l [?|[?%Ht|?%list_elem_of_singleton]%elem_of_app]%elem_of_cons; done.
      * intros f [[= ->]|[?%Ht|?%list_elem_of_singleton]%elem_of_app]%elem_of_cons; done.
    + exists (TmpOpened tmp :: t ++ [Logged ("Unable to encode image for " +:+ icon_id); ImageFreed]), (Some tmp), Null.
      rewrite <- !app_assoc. split_and!; [done| | |by left].
      * intros f l [?|[?%Ht|H]%elem_of_app]%elem_of_cons; [done|done|]. set_solver.
      * intros f [[= ->]|[?%Ht|H]%elem_of_app]%elem_of_cons; [done|done|]. set_solver.
  - cbn. eexists [_; _], None, Freed. rewrite <- app_assoc. split_and!; [done|set_solver|set_solver|].
    right. eauto.
Qed.
(** Setting the icon of an account sets the image that the protocol can read, under
    its maximal size, and removes the temporary file; no error of GLib is used after it
    was freed, unless there was no temporary file and the image cannot be read. *)
Theorem icon_set fmt max filename s :
  (forall err, open_tmp = inr err -> have_imlib && loads filename = true ->
     forall t, exists len, contents t filename = inl len) ->
  wp (setBuddyIcon (Some (IconSpec (Some fmt) max)) filename)
     (fun _ s' => exists t, trace s' = trace s ++ t
        /\ (forall f len, IconSet f len ∈ t -> f = chosen fmt filename /\ (max = 0 \/ len <= max))
        /\ (forall f, TmpOpened f ∈ t -> last t = Some (Unlinked f)))
     (fun _ _ => False) s.
Proof.
  intros Hread. unfold setBuddyIcon. apply ewp_bind, ewp_put, ewp_bind.
  edestruct (convert_run fmt filename (St Null (trace s))) as (t & tmp & e & Hc & Hi & Ht & He); [done|].
  unfold wp at 1. rewrite Hc. apply ewp_bind. cbn [fst snd trace].
  eapply (ewp_mono _ (fun _ s' => exists u, trace s' = (trace s ++ t) ++ u
     /\ (forall f len, IconSet f len ∈ u -> f = chosen fmt filename /\ (max = 0 \/ len <= max))
     /\ (forall f, TmpOpened f ∉ u)) _ (fun _ _ => False)); [| |done].
  - unfold read_icon. apply ewp_bind, ewp_get. cbn [trace].
    destruct (contents _ _) as [len|err] eqn:Ec.
    + destruct (negb (max =? 0) && (max <? len)) eqn:Em; apply ewp_put; cbn; eexists; (split; [done|]);
        split; intros ? ; [set_solver|set_solver| |set_solver].
      intros len' [= -> ->]%list_elem_of_singleton. split; [done|].
      apply andb_false_iff in Em as [?%negb_false_iff%Z.eqb_eq|?%Z.ltb_ge]; [by left|by right].
    + destruct He as [->|(-> & -> & Hl & err' & Ho)].
      * unfold wp, bind, glib_error, message, error_free, get. cbn.
        eexists [_]. split; [done|]. split; intros ?; set_solver.
      * exfalso. assert (Hch : chosen fmt filename = filename) by (unfold chosen; by rewrite Hl, Ho).
        rewrite Hch in Ec. destruct (Hread err' Ho Hl (trace s ++ t)) as [len Hlen]. congruence.
  - intros _ s' (u & Hu & Hs & Ho). destruct tmp as [tmp|]; [apply ewp_put|apply ewp_ret]; cbn.
    + exists (t ++ u ++ [Unlinked tmp]). rewrite Hu, <- !app_assoc. split; [done|]. split.
      * intros f len [?|[?|?%list_elem_of_singleton]%elem_of_app]%elem_of_app; [by destruct (Hi f len)|eauto|done].
      * intros f [Hf|[Hf|?%list_elem_of_singleton]%elem_of_app]%elem_of_app; [|by apply Ho in Hf|done].
        rewrite app_assoc, last_snoc. by specialize (Ht f Hf) as [= ->].
    + exists (t ++ u). rewrite Hu, <- app_assoc. split; [done|]. split.
      * intros f len [?|?]%elem_of_app; [by destruct (Hi f len)|eauto].
      * intros f [Hf|Hf]%elem_of_app; [|by apply Ho in Hf]. by specialize (Ht f Hf).
Qed.
End IconP.
Definition env_ok : IconEnv := {|
  have_imlib := true; loads := fun _ => true; open_tmp := inl "/tmp/x"; encodes := String.eqb "gif";
  contents := fun _ f => if String.eqb f "/tmp/x" then inl 10 else inl 5000; icon_id := "jabber" |}.
Lemma icon_set_witness :
  (forall err, @open_tmp env_ok = inr err -> @have_imlib env_ok && @loads env_ok "me.png" = true ->
     forall t, exists len, @contents env_ok t "me.png" = inl len)
  /\ wp (@setBuddyIcon env_ok (Some (IconSpec (Some "png,gif") 100)) "me.png")
     (fun _ s' => exists t, trace s' = [] ++ t
        /\ (forall f len, IconSet f len ∈ t -> f = @chosen env_ok "png,gif" "me.png" /\ (100 = 0 \/ len <= 100))
        /\ (forall f, TmpOpened f ∈ t -> last t = Some (Unlinked f)))
     (fun _ _ => False) (St Null []).
Proof.
  assert (H : forall err, @open_tmp env_ok = inr err -> @have_imlib env_ok && @loads env_ok "me.png" = true ->
     forall t, exists len, @contents env_ok t "me.png" = inl len) by (intros err [=]).
  split; [exact H|]. exact (@icon_set env_ok "png,gif" 100 "me.png" (St Null []) H).
Defined.
Example icon_trace :
  trace (fst (@setBuddyIcon env_ok (Some (IconSpec (Some "png,gif") 100)) "me.png" (St Null [])))
  = [TmpOpened "/tmp/x"; Encoded "png" "/tmp/x" false; Encoded "gif" "/tmp/x" true; ImageFreed;
     IconSet "/tmp/x" 10; Unlinked "/tmp/x"].
Proof. reflexivity. Qed.
(** Without a temporary file, an image that cannot be read any more makes the freed
    error be read. *)
Definition env_bad : IconEnv := {|
  have_imlib := true; loads := fun _ => true; open_tmp := inr "No space left on device"; encodes := fun _ => false;
  contents := fun _ _ => inr "No such file or directory"; icon_id := "jabber" |}.
Example icon_dangling :
  snd (@setBuddyIcon env_bad (Some (IconSpec (Some "png") 0)) "me.png" (St Null [])) = Crash "use after free".
Proof. reflexivity. Qed.
End IconP.

(** ** The requests of authorization *)
Module AuthAddP.
Import Eff AuthAdd.
Definition fits (k : kind) (d : data) : Prop :=
  match k, d with Authorize, AuthAndAdd _ _ _ | Add, AddUser _ _ => True | _, _ => False end.
(** Each open dialog has its own block of the heap, of its type. *)
Record inv (s : st) : Prop := {
  i_arg h d p : dialogs s !! h = Some d -> dg_arg d = Ptr p -> exists x, heap s !! p = Some x /\ fits (dg_kind d) x;
  i_own h h' d d' p : dialogs s !! h = Some d -> dialogs s !! h' = Some d' ->
    dg_arg d = Ptr p -> dg_arg d' = Ptr p -> h = h';
  i_heap p : is_Some (heap s !! p) -> (p < next s)%nat;
  i_handle h : is_Some (dialogs s !! h) -> (h < handle s)%nat;
  i_kind h d u : dialogs s !! h = Some d -> dg_arg d = UserData u -> dg_kind d = Authorize }.
Arguments i_arg {s}. Arguments i_own {s}. Arguments i_heap {s}. Arguments i_handle {s}. Arguments i_kind {s}.
(** Each block belongs to an open dialog. *)
Definition owned (s : st) : Prop :=
  forall p, is_Some (heap s !! p) -> exists h d, dialogs s !! h = Some d /\ dg_arg d = Ptr p.
Lemma fresh_handle s : inv s -> dialogs s !! handle s = None.
Proof. intros H. apply eq_None_not_Some. intros Hs%(i_handle H). lia. Qed.
Lemma fresh_block s : inv s -> heap s !! next s = None.
Proof. intros H. apply eq_None_not_Some. intros Hs%(i_heap H). lia. Qed.
(** A dialog on a new block. *)
Lemma open_inv s x k t tr : inv s -> fits k x ->
  inv (St (<[next s := x]> (heap s)) (S (next s)) (<[handle s := Dialog k t (Ptr (next s))]> (dialogs s)) (S (handle s)) tr).
Proof.
  intros H Hx. pose proof (fresh_block s H) as Hf. split; cbn.
  - intros h d p [[<- <-]|[_ Hd]]%lookup_insert_Some; cbn.
    + intros [= <-]. rewrite lookup_insert_eq. eauto.
    + intros Hp. destruct (i_arg H h d p Hd Hp) as (y & Hy & ?). exists y.
      rewrite lookup_insert_ne; [done|congruence].
  - intros h h' d d' p [[<- <-]|[_ Hd]]%lookup_insert_Some [[<- <-]|[_ Hd']]%lookup_insert_Some; cbn;
      [done| | |by eapply (i_own H)].
    + intros [= <-] Hp. destruct (i_arg H _ _ _ Hd' Hp) as (y & Hy & _). congruence.
    + intros Hp [= <-]. destruct (i_arg H _ _ _ Hd Hp) as (y & Hy & _). congruence.
  - intros p [y [[<- _]|[_ Hy]]%lookup_insert_Some]; [lia|]. pose proof (i_heap H p ltac:(eauto)). lia.
  - intros h [y [[<- _]|[_ Hy]]%lookup_insert_Some]; [lia|]. pose proof (i_handle H h ltac:(eauto)). lia.
  - intros h d u [[<- <-]|[_ Hd]]%lookup_insert_Some; [done|by eapply (i_kind H)].
Qed.
Lemma other_dialog s p d : inv s -> owned s -> is_Some (heap s !! p) ->
  exists h d', <[handle s := d]> (dialogs s) !! h = Some d' /\ dg_arg d' = Ptr p.
Proof.
  intros H Ho Hp. destruct (Ho p Hp) as (h & d' & Hd & Hp'). exists h, d'. split; [|done].
  rewrite lookup_insert_ne; [done|]. intros <-. by rewrite fresh_handle in Hd.
Qed.
Lemma open_owned s x k t tr : inv s -> owned s ->
  owned (St (<[next s := x]> (heap s)) (S (next s)) (<[handle s := Dialog k t (Ptr (next s))]> (dialogs s)) (S (handle s)) tr).
Proof.
  intros H Ho p. cbn. intros [y [[<- _]|[_ Hy]]%lookup_insert_Some].
  - eexists _, _. split; [apply lookup_insert_eq|done].
  - apply other_dialog; eauto.
Qed.
(** A dialog on what libpurple gave. *)
Lemma open_data_inv s t u tr : inv s ->
  inv (St (heap s) (next s) (<[handle s := Dialog Authorize t (UserData u)]> (dialogs s)) (S (handle s)) tr).
Proof.
  intros H. split; cbn.
  - intros h d' p [[<- <-]|[_ Hd]]%lookup_insert_Some; [done|by eapply (i_arg H)].
  - intros h h' d1 d2 p [[<- <-]|[_ Hd]]%lookup_insert_Some [[<- <-]|[_ Hd']]%lookup_insert_Some; [done|done|done|by eapply (i_own H)].
  - apply (i_heap H).
  - intros h [y [[<- _]|[_ Hy]]%lookup_insert_Some]; [lia|]. pose proof (i_handle H h ltac:(eauto)). lia.
  - intros h d' u' [[<- <-]|[_ Hd]]%lookup_insert_Some; [done|by eapply (i_kind H)].
Qed.
(** Closing a dialog; its block may go with it. *)
Lemma close_inv s h tr : inv s -> inv (St (heap s) (next s) (base.delete h (dialogs s)) (handle s) tr).
Proof.
  intros H. split; cbn.
  - intros h' d p [_ Hd]%lookup_delete_Some. by eapply (i_arg H).
  - intros h1 h2 d d' p [_ H1]%lookup_delete_Some [_ H2]%lookup_delete_Some. by eapply (i_own H).
  - apply (i_heap H).
  - intros h' [d [_ Hd]%lookup_delete_Some]. apply (i_handle H). eauto.
  - intros h' d u [_ Hd]%lookup_delete_Some. by eapply (i_kind H).
Qed.
Lemma free_inv s h d p tr : inv s -> dialogs s !! h = Some d -> dg_arg d = Ptr p ->
  inv (St (base.delete p (heap s)) (next s) (base.delete h (dialogs s)) (handle s) tr).
Proof.
  intros H Hd Hp. pose proof (close_inv s h tr H) as Hc. split; cbn.
  - intros h' d' p' Hd' Hp'. destruct (i_arg Hc h' d' p' Hd' Hp') as (x & Hx & Hf). exists x.
    rewrite lookup_delete_ne; [done|]. intros <-. apply lookup_delete_Some in Hd' as [Hn Hd'].
    by apply Hn, (i_own H _ _ _ _ p Hd Hd').
  - apply (i_own Hc).
  - intros p' [x [_ Hx]%lookup_delete_Some]. apply (i_heap H). eauto.
  - apply (i_handle Hc).
  - apply (i_kind Hc).
Qed.
(** Running a callback of a dialog that was open, on the block it has. *)
Lemma answer_run s listed h first : inv s -> exists s', answer listed h first s = (s', Done tt) /\ inv s'
  /\ dialogs s' = base.delete h (dialogs s)
  /\ (forall p, is_Some (heap s' !! p) <-> is_Some (heap s !! p) /\ ~ exists d, dialogs s !! h = Some d /\ dg_arg d = Ptr p).
Proof.
  intros H. unfold answer. unfold bind at 1. unfold get at 1. destruct (dialogs s !! h) as [[k t [p|u]]|] eqn:E.
  - destruct (i_arg H h _ p E eq_refl) as (x & Hx & Hf). cbn in Hf.
    assert (G : forall tr, exists s', (St (base.delete p (heap s)) (next s) (base.delete h (dialogs s)) (handle s) tr, Done (E := Empty_set) tt)
        = (s', Done tt) /\ inv s' /\ dialogs s' = base.delete h (dialogs s)
        /\ (forall q, is_Some (heap s' !! q) <-> is_Some (heap s !! q) /\ ~ exists d, Some (Dialog k t (Ptr p)) = Some d /\ dg_arg d = Ptr q)).
    { intros tr. eexists. split; [done|]. split; [by apply (free_inv s h _ p tr H E)|]. split; [done|].
      intros q. cbn. rewrite lookup_delete_is_Some. split.
      - intros [Hn Hq]. split; [done|]. intros (d & [= <-] & [= ->]). done.
      - intros [Hq Hn]. split; [|done]. intros ->. apply Hn. eauto. }
    destruct k, x as [u n al|n al]; try done; destruct first, listed;
      repeat (unfold bind, close, put, add_user_cb, authorize_and_add_cb, deny_no_add_cb, free, deref_ptr, get, when, emit;
              cbn; rewrite ?Hx; cbn); apply G.
  - assert (G : forall tr, exists s', (St (heap s) (next s) (base.delete h (dialogs s)) (handle s) tr, Done (E := Empty_set) tt)
        = (s', Done tt) /\ inv s' /\ dialogs s' = base.delete h (dialogs s)
        /\ (forall q, is_Some (heap s' !! q) <-> is_Some (heap s !! q) /\ ~ exists d, Some (Dialog k t (UserData u)) = Some d /\ dg_arg d = Ptr q)).
    { intros tr. eexists. split; [done|]. split; [by apply close_inv|]. split; [done|].
      intros q. cbn. split; [|by intros []]. intros Hq. split; [done|]. by intros (d & [= <-] & ?). }
    unfold bind, close, put, emit. cbn. destruct k, first; apply G.
  - exists s. split; [done|]. split; [done|]. split; [by rewrite delete_id|].
    intros p. split; [|by intros []]. intros Hp. split; [done|]. by intros (d & ? & _).
Qed.
Lemma perform_run o s : inv s -> exists s', perform o s = (s', Done tt) /\ inv s'
  /\ (owned s -> (forall h, o <> OClose h) -> owned s').
Proof.
  intros H. destruct o as [i u al|t u al on_list d|l h f|h].
  - eexists. split; [reflexivity|]. split; [by apply (open_inv s _ Add)|].
    intros Ho _. by apply (open_owned s _ Add).
  - destruct on_list; (eexists; split; [reflexivity|]).
    + split; [by apply open_data_inv|]. intros Ho _ p Hp. by apply (other_dialog s).
    + split; [by apply (open_inv s _ Authorize)|]. intros Ho _. by apply (open_owned s _ Authorize).
  - destruct (answer_run s l h f H) as (s' & Hr & Hi & Hd & Hh). exists s'. split; [done|]. split; [done|].
    intros Ho _ p [Hp Hn]%Hh. destruct (Ho p Hp) as (h' & d & Hd' & Hp'). exists h', d. split; [|done].
    rewrite Hd, lookup_delete_ne; [done|]. intros <-. apply Hn. eauto.
  - eexists. split; [reflexivity|]. split; [by apply close_inv|]. intros _ Hn. by destruct (Hn h).
Qed.
Lemma perform_all l s : inv s -> exists s', mapM_ perform l s = (s', Done tt) /\ inv s'
  /\ (owned s -> (forall h, OClose h ∉ l) -> owned s').
Proof.
  revert s. induction l as [|o l IH]; intros s Hi; [by exists s|]. cbn [mapM_]. unfold bind.
  destruct (perform_run o s Hi) as (s' & -> & Hi' & Ho'). destruct (IH s' Hi') as (s'' & Hr & Hi'' & Ho'').
  exists s''. split; [done|]. split; [done|]. intros Ho Hc. apply Ho''; [apply Ho'; [done|]|].
  - intros h ->. apply (Hc h). by left.
  - intros h Hin. apply (Hc h). by right.
Qed.
(** C11: Whatever requests arrive, in whatever order they are answered or closed, no
    callback uses data that was freed or data of another kind; and when libpurple
    closes none of them, the data that is allocated is the data of the open requests. *)
Theorem requests_owned (l : list op) :
  exists s, mapM_ perform l start = (s, Done tt) /\ inv s /\ ((forall h, OClose h ∉ l) -> owned s).
Proof.
  destruct (perform_all l start) as (s & Hr & Hi & Ho).
  - by split; cbn; intros *; try (by intros [? ?]); intros ?%lookup_empty_Some.
  - exists s. split; [done|]. split; [done|]. apply Ho. by intros p [? ?].
Qed.
(** What the user's answers do. *)
Example authorized :
  trace (fst (mapM_ perform [OAuthorize "bob wants to add you" "bob" None false 7; OAnswer true 0 true] start))
  = [AuthCb 7; RequestAddBuddy "bob" None].
Proof. vm_compute. reflexivity. Qed.
(** A request that libpurple closes leaves its data allocated. *)
Example close_leaks :
  let s := fst (mapM_ perform [OAuthorize "bob wants to add you" "bob" None false 7; OClose 0] start) in
  is_Some (heap s !! 0%nat) /\ dialogs s = ∅.
Proof. split; [by eexists|]. vm_compute. reflexivity. Qed.
End AuthAddP.
