(* ===== verification/Demo.v ===== *)
(** A concrete environment and a concrete session, at which the theorems with
    hypotheses are evaluated: the user romain and his buddy alice on the status
    channel &minbif, the user and the chat buddy bob on a conversation channel. *)

From S2P Require Import Prelude Util Message Log World Dcc Effects Auth Nick.
Import W.

(** The authentication: AuthLocal, with the account romain and his password. *)
Definition demo_auth : Auth.AuthEnv := {|
  Auth.have_pam := true; Auth.use := fun m => match m with Auth.AuthLocal => true | _ => false end;
  Auth.pam_setuid := false; Auth.user_exists := fun _ => true; Auth.im_init := fun _ => None;
  Auth.im_getPassword := fun _ => "password"; Auth.client_username := fun _ => "";
  Auth.pam_result := fun _ => 0; Auth.getpwnam := fun _ => None; Auth.setuid_ok := fun _ => true;
  Auth.pam_strerror := fun _ => "error" |}.
Definition demo_auth_result (t : list event) : bool + string :=
  match last t with
  | Some (ImCall (AuthValidate u p)) => default (inl false) (@Auth.validated demo_auth u p)
  | Some (ImCall (AuthGenerate u p)) => default (inl false) (@Auth.generated demo_auth u p)
  | _ => inl false
  end.

(** The nick of each conversation, whether the buddies are online and the accounts
    connected. *)
Definition demo_with (conv_nick : vid -> option nid) (online connected : bool) : Env := {|
  b_name := fun _ _ => "alice@jabber.org"; b_account := fun _ _ => 0%nat;
  b_online := fun _ _ => online; b_available := fun _ _ => true;
  b_status := fun _ _ => "here"; b_realname := fun _ _ => "Alice";
  b_group := fun _ _ => "friends"; b_alias := fun _ _ => "alice"; b_iconpath := fun _ _ => "";
  k_name := fun _ k => if (k =? 0)%nat then "romain" else "bob";
  k_realname := fun _ _ => "bob@jabber.org";
  k_account := fun _ _ => 0%nat; k_isme := fun _ k => (k =? 0)%nat; k_status := fun _ _ => 1;
  a_list := fun _ => [0%nat]; a_id := fun t a => Ui.last_string a "id" "jabber0" t; a_servername := fun _ _ => "romain:jabber0";
  a_channel := fun t a => Ui.last_string a "channel" "&minbif" t; a_connected := fun _ _ => connected;
  a_connecting := fun _ _ => false; a_username := fun _ _ => "romain";
  a_protoname := fun _ _ => "XMPP"; a_denylist := fun _ _ => ["evil@jabber.org"];
  a_options := fun _ _ => []; a_commands := fun _ _ => []; a_chat_params := fun _ _ => [];
  v_name := fun _ _ => "room"; v_topic := fun _ _ => "welcome"; v_nick := fun _ => conv_nick;
  v_channame := fun _ _ => "#room:jabber0"; v_account := fun _ _ => 0%nat;
  im_send_delay := fun _ => 0; im_away := fun _ => false; im_exists := fun _ _ => true;
  im_protocols := fun _ => []; im_plugins := fun _ => []; im_setting := fun _ _ => "";
  im_proxy := fun _ => false; im_password := fun _ => "";
  im_user_path := "/home/minbif/romain"; im_username := "romain";
  call_ok := fun _ => true; call_status := fun _ => 0; call_conv := fun _ => 0%nat;
  call_acc := fun _ => 0%nat; call_error := fun _ => None;
  auth_result := demo_auth_result; ipc_result := fun _ => true;
  conf_password := " "; conf_icons_url := " "; conf_opers := [("root", "secret", "root@localhost")];
  conf_file_transfers := true; conf_motd := Some ["hello"];
  fnmatch := fun p s => String.eqb p s; url_decode := fun s => s; translit := fun s => Some s;
  primitives := []; icon_of := fun _ _ _ => CacaNotLoaded;
  write_file_ok := fun _ _ => true;
  version := "minbif-1.0"; build := "build"; created := "today"; infotxt := ["minbif"] |}.
Definition demo : Env := demo_with (fun _ => None) true true.

Definition demo_user : nick :=
  Nick "romain" "romain" "localhost" "Romain" "" 0 REGISTERED [6; 8]%nat
    (KUser "password" 0 true).
Definition demo_buddy : nick :=
  Nick "alice" "alice" "jabber.org:jabber0" "" "" 2 0 [5]%nat (KBuddy 0 false 0 (CE None [])).
Definition demo_chatbuddy : nick :=
  Nick "bob" "bob" "jabber.org:jabber0" "" "" 2 0 [10]%nat (KChatBuddy 1 (CE None [])).

Definition demo_heap : heap := {|
  h_nicks := {[1 := demo_user; 4 := demo_buddy; 9 := demo_chatbuddy]}%nat;
  h_cus := {[5 := ChanUser "alice" 4 3 0; 6 := ChanUser "romain" 1 3 OP;
             8 := ChanUser "romain" 1 7 VOICE; 10 := ChanUser "bob" 9 7 VOICE]}%nat;
  h_chans := {[3 := Channel "&minbif" "" [6; 5] (KStatus [0]);
               7 := Channel "#room:jabber0" "" [8; 10]
                 (KConversation (CE (Some 0) []) (Some 2) [(0, 8); (1, 10)])]}%nat;
  h_servers := {[0 := Server "localhost" "minbif-1.0" [1] SIrc;
                 2 := Server "romain:jabber0" "XMPP" [4; 9] (SRemote 0)]}%nat;
  h_next := 11 |}.

Definition demo_world : world := {|
  w_heap := demo_heap;
  w_irc := {| i_self := 0; i_user := 1;
    i_users := {["romain" := 1; "alice" := 4; "bob" := 9]}%nat;
    i_channels := {["&minbif" := 3; "#room:jabber0" := 7]}%nat;
    i_servers := {["romain:jabber0" := 2]}%nat;
    i_dccs := []; i_motd := ["hello"]; i_im := true; i_ping_freq := 60; i_uptime := 0; i_counts := ∅ |};
  w_io := {| o_sockw := true; o_sock_ok := true; o_writes := [];
    o_log := Log.Log Log.DEFAULT_LOGGED_FLAGS false; o_now := 1000; o_trace := [] |} |}.

(** What a computation leaves, for the concrete checks. *)
Definition written {A} (m : M A) (w : world) : list string :=
  match m w with
  | Ok _ w' | Exc _ w' =>
    flat_map (fun e => match e with Write s => [s] | _ => [] end) (o_trace (w_io w'))
  | UB s => ["UB: " +:+ s]
  end.
