(* ===== verification/Logic.v ===== *)
(** The program logic of the session monad: weakest preconditions which exclude
    undefined behaviour, the frame of what sending a message may change, and the
    specification of the virtual [Nick::send] for everything but PRIVMSG. *)

From S2P Require Import Prelude Util Message Log World Dcc Nick.
Import W Obj Names Send.

(** [wp m Q E w]: from [w], [m] runs into no undefined behaviour; when it returns
    [Q] holds of the result and the state, when it throws [E] holds. *)
Definition wp {A} (m : M A) (Q : A -> world -> Prop) (E : exn -> world -> Prop)
    (w : world) : Prop :=
  match m w with Ok a w' => Q a w' | Exc e w' => E e w' | UB _ => False end.

(** Only the socket, the log and the trace changed, and the trace has grown. *)
Definition io_only (w w' : world) : Prop :=
  w_heap w' = w_heap w /\ w_irc w' = w_irc w
  /\ (exists t, o_trace (w_io w') = o_trace (w_io w) ++ t).

#[export] Instance io_only_preorder : PreOrder io_only.
Proof.
  split.
  - intros w. split; [done|]. split; [done|]. exists []. by rewrite app_nil_r.
  - intros w1 w2 w3 (H1 & H2 & t & Ht) (H3 & H4 & t' & Ht').
    split; [congruence|]. split; [congruence|]. exists (t ++ t').
    by rewrite Ht', Ht, app_assoc.
Qed.

(** A predicate which only looks at the heap and the IRC object. *)
Definition io_stable (P : world -> Prop) : Prop := forall w w', io_only w w' -> P w -> P w'.

Section Wp.
Context {env : Env}.

Lemma wp_mono {A} (m : M A) (Q Q' : A -> world -> Prop) (E E' : exn -> world -> Prop) w :
  wp m Q E w -> (forall a w', Q a w' -> Q' a w') -> (forall e w', E e w' -> E' e w') ->
  wp m Q' E' w.
Proof. unfold wp. destruct (m w); auto. Qed.

Lemma wp_bind {A B} (m : M A) (k : A -> M B) Q E w :
  wp m (fun a w' => wp (k a) Q E w') E w -> wp (bind m k) Q E w.
Proof. unfold wp, bind. by destruct (m w). Qed.
Lemma wp_ret {A} (a : A) (Q : A -> world -> Prop) E w : Q a w -> wp (ret a) Q E w.
Proof. done. Qed.
Lemma wp_get {A} (f : world -> A) (Q : A -> world -> Prop) E w : Q (f w) w -> wp (get f) Q E w.
Proof. done. Qed.
Lemma wp_put f (Q : unit -> world -> Prop) E w : Q tt (f w) -> wp (put f) Q E w.
Proof. done. Qed.
Lemma wp_ask {A} (f : list event -> A) (Q : A -> world -> Prop) E w :
  Q (f (o_trace (w_io w))) w -> wp (ask f) Q E w.
Proof. done. Qed.
Lemma wp_when (b : bool) (m : M unit) Q E w :
  (b = true -> wp m Q E w) -> (b = false -> Q tt w) -> wp (when b m) Q E w.
Proof. intros H1 H2. destruct b; [by apply H1|by apply (H2 eq_refl)]. Qed.

Lemma wp_get_nick n x (Q : nick -> world -> Prop) E w :
  h_nicks (w_heap w) !! n = Some x -> Q x w -> wp (get_nick n) Q E w.
Proof. intros H HQ. unfold wp, get_nick. by rewrite H. Qed.
Lemma wp_get_cu u x (Q : chanuser -> world -> Prop) E w :
  h_cus (w_heap w) !! u = Some x -> Q x w -> wp (get_cu u) Q E w.
Proof. intros H HQ. unfold wp, get_cu. by rewrite H. Qed.
Lemma wp_get_chan c x (Q : channel -> world -> Prop) E w :
  h_chans (w_heap w) !! c = Some x -> Q x w -> wp (get_chan c) Q E w.
Proof. intros H HQ. unfold wp, get_chan. by rewrite H. Qed.
Lemma wp_get_server s x (Q : server -> world -> Prop) E w :
  h_servers (w_heap w) !! s = Some x -> Q x w -> wp (get_server s) Q E w.
Proof. intros H HQ. unfold wp, get_server. by rewrite H. Qed.

(** A loop whose body keeps [P] and at worst throws in [E]. *)
Lemma wp_mapM_ {A} (f : A -> M unit) (l : list A) (P : world -> Prop) E w :
  P w ->
  (forall a w, a ∈ l -> P w -> wp (f a) (fun _ => P) E w) ->
  wp (mapM_ f l) (fun _ => P) E w.
Proof.
  revert w. induction l as [|a l IH]; intros w HP Hf; [done|]. cbn [mapM_].
  apply wp_bind. eapply wp_mono; [apply Hf; [left|done]| |done].
  intros ? w' HP'. apply IH; [done|]. intros b w2 Hb. apply Hf. by right.
Qed.

(** ** Sending *)

(** The sender and the receiver of the message are objects of the heap. *)
Definition msg_alive (h : heap) (m : message) : Prop :=
  (forall e, Msg.entity (Msg.sender m) = Some e -> is_Some (ent_long h e))
  /\ (forall e, Msg.entity (Msg.receiver m) = Some e -> is_Some (ent_name h e)).

Lemma wp_format m (Q : string -> world -> Prop) E w :
  msg_alive (w_heap w) m -> (forall s, Q s w) -> wp (format m) Q E w.
Proof.
  intros [Hs Hr] HQ. unfold wp, format.
  destruct (Msg.entity (Msg.sender m)) as [e|]; destruct (Msg.entity (Msg.receiver m)) as [e'|];
    rewrite ?(bool_decide_true _ (Hs _ eq_refl)), ?(bool_decide_true _ (Hr _ eq_refl)); apply HQ.
Qed.

Lemma wp_sock_write s (Q : unit -> world -> Prop) (E : exn -> world -> Prop) w :
  (forall w', io_only w w' -> Q tt w') ->
  (forall r w', io_only w w' -> E (SockError r) w') ->
  wp (sock_write s) Q E w.
Proof.
  intros HQ HE. unfold wp, sock_write, bind, get. cbn.
  assert (Hn : forall o, o_trace o = o_trace (w_io w) -> io_only w (World (w_heap w) (w_irc w) o)).
  { intros o Ho. split; [done|]. split; [done|]. exists []. by rewrite app_nil_r. }
  destruct (o_sock_ok (w_io w)); cbn; [|apply HQ; reflexivity].
  assert (Hw : io_only w
    (on_io (up_o_trace (fun t => t ++ [Write s])) (on_io (up_o_writes tail) w))).
  { split; [done|]. split; [done|]. by exists [Write s]. }
  destruct (o_writes (w_io w)) as [|[] rs]; cbn; eauto.
Qed.

Lemma wp_user_send b m (Q : unit -> world -> Prop) (E : exn -> world -> Prop) w :
  msg_alive (w_heap w) m ->
  (forall w', io_only w w' -> Q tt w') -> (forall r w', io_only w w' -> E (SockError r) w') ->
  wp (user_send b m) Q E w.
Proof.
  intros Hm HQ HE. destruct b; cbn; [|apply HQ; reflexivity].
  apply wp_bind, wp_format; [done|]. intros s. by apply wp_sock_write.
Qed.

(** Nicks other than the user ignore everything but PRIVMSG. *)
Lemma wp_send n m (Q : unit -> world -> Prop) (E : exn -> world -> Prop) w :
  is_Some (h_nicks (w_heap w) !! n) -> msg_alive (w_heap w) m -> Msg.cmd m <> "PRIVMSG" ->
  (forall w', io_only w w' -> Q tt w') -> (forall r w', io_only w w' -> E (SockError r) w') ->
  wp (send n m) Q E w.
Proof.
  intros [x Hx] Hm Hc HQ HE. unfold send. apply wp_bind.
  eapply wp_get_nick; [done|]. apply String.eqb_neq in Hc.
  destruct (nk_kind x); unfold buddy_send, chatbuddy_send, unknown_send; rewrite ?Hc; cbn;
    try (apply HQ; reflexivity). by apply wp_user_send.
Qed.
End Wp.
