(* ===== verification/Channel.v ===== *)
(** irc/channel.{h,cpp} and the channel part of irc/nick.cpp: channel users and
    their modes, the base [irc::Channel], and [join], [part], [kicked], [quit].
    [ConversationChannel::delUser] is here too, because a nick which leaves a
    conversation is deleted, and deleting a nick makes it quit its channels. *)

From S2P Require Import Prelude Util Message Log World Dcc Nick.
Import W Obj Names Send.

(** [Message(cmd).setSender(s).setReceiver(r).addArg(...)]; [None] leaves the
    field unset. *)
Definition mkmsg (cmd : string) (s r : option ent) (args : list string) : M message :=
  let m := Msg.mk cmd in
  let m := match s with Some e => Msg.setSender e m | None => m end in
  let m := match r with Some e => Msg.setReceiver e m | None => m end in
  lift (Dcc.addArgs args m).

Module Mode.
Section Mode.
Context {env : Env}.

(** [ChanUser::m2c]. *)
Definition m2c : list (Z * ascii * ascii) :=
  [(FOUNDER, "q", "~"); (OP, "o", "@"); (HALFOP, "h", "%"); (VOICE, "v", "+")]%char.

(** [ChanUser::getPrefix]. *)
Definition getPrefix (status : Z) : string :=
  foldl (fun s '(md, _, p) =>
           if negb (Z.land status md =? 0) && negb (Ascii.eqb p "000")
           then s +:+ String p "" else s)
        "" m2c.

(** [ChanUser::c2mode] and [mode2c]; 0 and NUL when not found. *)
Definition c2mode (c : ascii) : Z :=
  match List.find (fun '(_, x, _) => Ascii.eqb x c) m2c with Some (md, _, _) => md | None => 0 end.
Definition mode2c (mode : Z) : ascii :=
  match List.find (fun '(md, _, _) => md =? mode) m2c with Some (_, x, _) => x | None => "000" end.

(** The loop of [ChanUser::getModeMessage]: the mode letters and the names added. *)
Fixpoint mode_loop {E} (l : list (Z * ascii * ascii)) (modes : Z) (name : string)
    (acc : string) (m : Msg.message E) : outcome (string * Msg.message E) :=
  match l with
  | [] => Ret (acc, m)
  | (md, c, _) :: l =>
    if negb (Z.land md modes =? 0) then
      olet m := Msg.addArg name m;
      mode_loop l modes name (acc +:+ String c "") m
    else mode_loop l modes name acc m
  end.

(** [ChanUser::getModeMessage]: [name] is the nickname, [status] the status. *)
Definition getModeMessage {E} (name : string) (status : Z) (add : bool) (modes : Z)
    : outcome (Msg.message E) :=
  let modes_str := if add then "+" else "-" in
  let modes := if modes =? 0 then status else modes in
  olet m := Msg.addArg modes_str (Msg.mk "MODE");
  olet r := mode_loop m2c modes name modes_str m;
  Msg.setArg 0 r.1 r.2.

(** The letters of [modes], in the order of [m2c]. *)
Fixpoint letters (l : list (Z * ascii * ascii)) (modes : Z) : string :=
  match l with
  | [] => ""
  | (md, c, _) :: l =>
    (if negb (Z.land md modes =? 0) then String c "" else "") +:+ letters l modes
  end.

Lemma mode_loop_ok {E} l modes name acc (m : Msg.message E) :
  has_char " " name = false -> Msg.back_has_space (Msg.args m) = false ->
  mode_loop l modes name acc m
  = Ret (acc +:+ letters l modes,
         Msg.with_args m (Msg.args m ++ replicate (slen (letters l modes)) name)).
Proof.
  intros Hn. revert acc m. induction l as [|[[md c] p] l IH]; intros acc m Hb; cbn [mode_loop letters].
  - cbn. rewrite app_nil_s, app_nil_r. by destruct m.
  - destruct (negb _); [|by apply IH].
    unfold Msg.addArg. rewrite Hb. cbn [obind]. rewrite IH by (cbn; by rewrite Msg.back_snoc).
    rewrite app_assoc_s. cbn. by rewrite <- app_assoc.
Qed.

(** [ChanUser::getModeMessage]: the MODE of a nickname has the sign, the letters
    of the modes (of the whole status when no mode is given) and the nickname once
    for each letter. *)
Theorem getModeMessage_spec {E} (name : string) (status : Z) (add : bool) (modes : Z) :
  has_char " " name = false ->
  getModeMessage (E := E) name status add modes =
    let ls := letters m2c (if modes =? 0 then status else modes) in
    Ret (Msg.with_args (Msg.mk "MODE")
           (((if add then "+" else "-") +:+ ls) :: replicate (slen ls) name)).
Proof.
  intros Hn. unfold getModeMessage.
  assert (H : Msg.addArg (E := E) (if add then "+" else "-") (Msg.mk "MODE")
              = Ret (Msg.with_args (Msg.mk "MODE") [if add then "+" else "-"])) by done.
  rewrite H. cbn [obind]. rewrite mode_loop_ok; [|done|by destruct add]. cbn [obind fst snd].
  set (ls := letters m2c _). unfold Msg.setArg. cbn [Msg.args Msg.with_args app length Nat.eqb].
  destruct (slen ls) as [|k] eqn:E0; [done|]. cbn [replicate length app].
  replace (Msg.back_has_space _) with false; [by rewrite andb_false_r|].
  symmetry. change (name :: replicate k name) with (replicate (S k) name).
  rewrite replicate_S_end, app_comm_cons. by rewrite Msg.back_snoc.
Qed.
Lemma getModeMessage_spec_witness :
  getModeMessage (E := unit) "romain" (Z.lor OP VOICE) true 0
  = Ret (Msg.with_args (Msg.mk "MODE") ["+ov"; "romain"; "romain"]).
Proof. apply (getModeMessage_spec (E := unit) "romain" (Z.lor OP VOICE) true 0). reflexivity. Defined.
End Mode.
End Mode.

Module Chan.
Import Mode.
Section Chan.
Context {env : Env}.

Definition user : M nid := let! i := get w_irc; ret (i_user i).
Definition self : M sid := let! i := get w_irc; ret (i_self i).
Definition e_self : M ent := let! s := self; ret (EServer s).

(** The nickname of a channel user, [( *it)->getNick()->getNickname()]. *)
Definition cu_nickname (u : uid) : M string :=
  let! x := get_cu u; let! n := get_nick (cu_nick x); ret (nk_name n).

(** [( *it)->getNick()->send(m)]. *)
Definition send_cu (u : uid) (m : message) : M unit :=
  let! x := get_cu u; send (cu_nick x) m.

(** [Channel::getTopic], and the overrider which asks the conversation. *)
Definition getTopic (c : cid) : M string :=
  let! ch := get_chan c;
  match ch_kind ch with
  | KStatus _ => ret (topic ch)
  | KConversation ce _ _ =>
    match conv ce with
    | Some v => let! f := ask v_topic; ret (f v)
    | None => stuck "assert(isValid())"
    end
  end.

(** [Channel::sendNames]. *)
Fixpoint names_loop (l : list uid) (names : string) : M string :=
  match l with
  | [] => ret names
  | u :: l =>
    let! x := get_cu u;
    let! nm := cu_nickname u;
    names_loop l (names +:+ getPrefix (cu_status x) +:+ nm +:+ " ")
  end.
Definition sendNames (c : cid) (n : nid) : M unit :=
  let! ch := get_chan c;
  let! names := names_loop (users ch) "";
  let! s := e_self;
  let! m := mkmsg "353" (Some s) (Some (ENick n)) ["="; ch_name ch; names];
  send n m;;
  let! m := mkmsg "366" (Some s) (Some (ENick n)) [ch_name ch; "End of /NAMES list"];
  send n m.

(** The announcement of a new channel user to the user [u] of the channel. *)
Definition announce_join (c : cid) (n : nid) (cu : uid) (status : Z) (u : uid) : M unit :=
  let! m := mkmsg "JOIN" (Some (ENick n)) (Some (EChan c)) [];
  send_cu u m;;
  let! x := get_cu u;
  when (negb (status =? 0) && negb (cu_nick x =? n)%nat)
    (let! me := get_cu cu;
     let! nm := cu_nickname cu;
     let! m := lift (getModeMessage nm (cu_status me) true 0);
     let! s := e_self;
     send_cu u (Msg.setReceiver (EChan c) (Msg.setSender s m))).

(** [Channel::addUser]. *)
Definition addUser (c : cid) (n : nid) (status : Z) : M uid :=
  let! x := get_nick n;
  let! cu := alloc;
  put_cu cu (ChanUser (nk_name x) n c status);;
  let! ch := get_chan c;
  put_chan c (with_users ch (users ch ++ [cu]));;
  mapM_ (announce_join c n cu status) (users ch ++ [cu]);;
  let! t := getTopic c;
  let! s := e_self;
  when (negb (sempty t))
    (let! m := mkmsg "332" (Some s) (Some (ENick n)) [ch_name ch; t];
     send n m);;
  sendNames c n;;
  ret cu.

(** [Channel::delUser]: [kept] are the users the iterator has passed. *)
Fixpoint delUser_loop (c : cid) (n : nid) (m : message) (kept rest : list uid) : M unit :=
  match rest with
  | [] => ret tt
  | u :: rest =>
    let! x := get_cu u;
    if (cu_nick x =? n)%nat then
      delete_cu u;;
      let! ch := get_chan c;
      put_chan c (with_users ch (kept ++ rest));;
      delUser_loop c n m kept rest
    else
      when (negb (sempty (Msg.cmd m))) (send_cu u m);;
      delUser_loop c n m (kept ++ [u]) rest
  end.
Definition chan_delUser (c : cid) (n : nid) (m : message) : M unit :=
  let! ch := get_chan c;
  delUser_loop c n m [] (users ch).

(** [Channel::getChanUser]. *)
Fixpoint find_cu (nick : string) (l : list uid) : M (option uid) :=
  match l with
  | [] => ret None
  | u :: l =>
    let! nm := cu_nickname u;
    if String.eqb (Case.strlower nm) nick then ret (Some u) else find_cu nick l
  end.
Definition chan_getChanUser (c : cid) (nick : string) : M (option uid) :=
  let! ch := get_chan c; find_cu (Case.strlower nick) (users ch).

(** [Channel::broadcast]. *)
Definition chan_broadcast (c : cid) (m : message) (butone : option nid) : M unit :=
  let! ch := get_chan c;
  mapM_ (fun u =>
           let! x := get_cu u;
           when (match butone with None => true | Some b => negb (cu_nick x =? b)%nat end)
             (send_cu u m))
        (users ch).

(** [ConversationChannel::broadcast] and the virtual call. *)
Definition broadcast (c : cid) (m : message) (butone : option nid) : M unit :=
  let! ch := get_chan c;
  match ch_kind ch with
  | KStatus _ => chan_broadcast c m butone
  | KConversation _ _ _ =>
    let! u := user;
    if String.eqb (Msg.cmd m) "PRIVMSG" && bool_decide (Msg.entity (Msg.sender m) = Some (ENick u))
    then
      let! t := lift (Msg.getArg 0 m);
      let! d := ask im_send_delay;
      enqueueMessage (RChan c) t d
    else chan_broadcast c m butone
  end.

(** [Channel::setMode] and [delMode]; a NULL sender is the IRC server. *)
Definition changeMode (add : bool) (f : Z -> Z -> Z) (c : cid) (sender : option ent)
    (modes : Z) (cu : uid) : M unit :=
  if modes =? 0 then ret tt
  else
    let! x := get_cu cu;
    put_cu cu (with_status x (f (cu_status x) modes));;
    let! nm := cu_nickname cu;
    let! m := lift (getModeMessage nm (f (cu_status x) modes) add modes);
    let! s := e_self;
    broadcast c (Msg.setReceiver (EChan c) (Msg.setSender (default s sender) m)) None.
Definition setMode := changeMode true Z.lor.
Definition delMode := changeMode false Z.ldiff.

(** [Channel::setTopic]. *)
Definition before_newline (s : string) : string :=
  match find_if (fun ch => Ascii.eqb ch "010") s with Some k => stake k s | None => s end.
Definition chan_setTopic (c : cid) (who : option ent) (t : string) : M bool :=
  let new_topic := before_newline t in
  let! ch := get_chan c;
  if String.eqb (topic ch) new_topic then ret true
  else
    put_chan c (with_topic ch new_topic);;
    let! s := e_self;
    let! m := mkmsg "TOPIC" (Some (default s who)) (Some (EChan c)) [new_topic];
    broadcast c m None;;
    ret true.

(** ** Nick (nick.cpp) *)

(** [Nick::getChanUser] and [isOn]. *)
Fixpoint find_chan (c : cid) (l : list uid) : M (option uid) :=
  match l with
  | [] => ret None
  | u :: l =>
    let! x := get_cu u;
    if (cu_chan x =? c)%nat then ret (Some u) else find_chan c l
  end.
Definition nick_getChanUser (n : nid) (c : cid) : M (option uid) :=
  let! x := get_nick n; find_chan c (channels x).
Definition isOn (n : nid) (c : cid) : M bool :=
  let! o := nick_getChanUser n c;
  ret (match o with Some _ => true | None => false end).

(** [Nick::join]. *)
Definition join (n : nid) (c : cid) (status : Z) : M uid :=
  let! o := nick_getChanUser n c;
  match o with
  | Some cu =>
    let! x := get_cu cu;
    let last_status := cu_status x in
    when (negb (last_status =? status))
      (delMode c None (Z.ldiff last_status status) cu;;
       setMode c None (Z.ldiff status last_status) cu);;
    ret cu
  | None =>
    let! cu := addUser c n status;
    let! x := get_nick n;
    put_nick n (with_channels x (channels x ++ [cu]));;
    ret cu
  end.

(** [Nick::removeChanUser]. *)
Definition removeChanUser (n : nid) (cu : uid) : M unit :=
  let! x := get_nick n;
  put_nick n (with_channels x (List.filter (fun u => negb (u =? cu)%nat) (channels x))).

(** [Nick::privmsg] to a channel and to a nick. *)
Definition privmsg_chan (n : nid) (c : cid) (msg : string) : M unit :=
  mapM_ (fun t =>
           let! m := mkmsg "PRIVMSG" (Some (ENick n)) (Some (EChan c)) [t];
           broadcast c m (Some n))
        (Tok.tokens (String "010" (String "013" "")) msg).
Definition privmsg_nick (n to : nid) (msg : string) : M unit :=
  mapM_ (fun t =>
           let! m := mkmsg "PRIVMSG" (Some (ENick n)) (Some (ENick to)) [t];
           send to m)
        (Tok.tokens (String "010" (String "013" "")) msg).
End Chan.
End Chan.
