(* ===== verification/Registry.v ===== *)
(** irc/irc.cpp 141-378 and irc/server.cpp: the tables of nicks, channels, servers
    and file transfers of the [irc::IRC] object, and everything whose end is the
    deletion of an object: the destructors of nicks and channels, [quit], [part],
    [kicked], [ConversationChannel::delUser], [removeNick], [removeServer]. *)

From S2P Require Import Prelude Util Message Log World Dcc Nick Channel.
Import W Obj Names Send Chan.

Module Reg.

(** [map<string, T>] in the order of its iterators. *)
Definition le_key {A} (x y : string * A) : Prop := String.le x.1 y.1.
#[export] Instance le_key_dec {A} : RelDecision (@le_key A).
Proof. intros x y. unfold le_key. apply _. Defined.
Definition sorted {A} (m : gmap string A) : list (string * A) :=
  merge_sort le_key (map_to_list m).

Section Reg.
Context {env : Env}.

Definition users_list : M (list (string * nid)) :=
  let! i := get w_irc; ret (sorted (i_users i)).
Definition channels_list : M (list (string * cid)) :=
  let! i := get w_irc; ret (sorted (i_channels i)).
Definition servers_list : M (list (string * sid)) :=
  let! i := get w_irc; ret (sorted (i_servers i)).

(** ** Server *)

(** [Server::addNick], [removeNick] (the first occurrence), [countNicks],
    [countOnlineNicks]. *)
Definition server_addNick (s : sid) (n : nid) : M unit :=
  let! x := get_server s; put_server s (with_svusers x (sv_users x ++ [n])).
Fixpoint remove_first (n : nat) (l : list nat) : list nat :=
  match l with
  | [] => []
  | x :: l => if (x =? n)%nat then l else x :: remove_first n l
  end.
Definition server_removeNick (s : sid) (n : nid) : M unit :=
  let! x := get_server s; put_server s (with_svusers x (remove_first n (sv_users x))).
Definition countNicks (s : sid) : M Z :=
  let! x := get_server s; ret (Z.of_nat (length (sv_users x))).
Fixpoint count_online (l : list nid) (i : Z) : M Z :=
  match l with
  | [] => ret i
  | n :: l =>
    let! x := get_nick n;
    let! on := isOnline x;
    count_online l (if (on : bool) then i + 1 else i)
  end.
Definition countOnlineNicks (s : sid) : M Z :=
  let! x := get_server s; count_online (sv_users x) 0.

(** ** Lookups *)

Definition getChannel (channame : string) : M (option cid) :=
  let! i := get w_irc; ret (i_channels i !! channame).
Definition getServer (servername : string) : M (option sid) :=
  let! i := get w_irc; ret (i_servers i !! servername).

(** [IRC::getNick(string, bool)]. *)
Definition find_nick (nickname : string) (case_sensitive : bool) (l : list (string * nid))
    : option nid :=
  let nickname := if case_sensitive then nickname else Case.strlower nickname in
  snd <$> List.find (fun '(k, _) =>
            String.eqb (if case_sensitive then k else Case.strlower k) nickname) l.
Definition getNick (nickname : string) (case_sensitive : bool) : M (option nid) :=
  let! l := users_list; ret (find_nick nickname case_sensitive l).

(** The first nick of the table which satisfies [p]. *)
Fixpoint first_nick (p : nick -> bool) (l : list (string * nid)) : M (option nid) :=
  match l with
  | [] => ret None
  | (_, n) :: l => let! x := get_nick n; if p x then ret (Some n) else first_nick p l
  end.
(** [IRC::getNick(const im::Buddy&)], [getNick(const im::Conversation&)]. *)
Definition getNick_buddy (b : bid) : M (option nid) :=
  let! l := users_list;
  first_nick (fun x => match nk_kind x with KBuddy b' _ _ _ => (b' =? b)%nat | _ => false end) l.
Definition getNick_conv (v : option vid) : M (option nid) :=
  let! l := users_list;
  first_nick (fun x => match kind_ce (nk_kind x) with
                       | Some ce => bool_decide (conv ce = v) | None => false end) l.

(** [IRC::matchNick]. *)
Definition mask_of (pattern : string) : string :=
  if negb (has_char "!" pattern) then
    if has_char "@" pattern then "*!" +:+ pattern
    else if has_char ":" pattern then "*!*@" +:+ pattern
    else pattern +:+ "!*@*"
  else if negb (has_char "@" pattern) then pattern +:+ "@*" else pattern.
Fixpoint match_loop (pattern : string) (l : list (string * nid)) : M (list nid) :=
  match l with
  | [] => ret []
  | (_, n) :: l =>
    let! x := get_nick n;
    let! r := match_loop pattern l;
    ret (if fnmatch pattern (longname x) then n :: r else r)
  end.
Definition matchNick (pattern : string) : M (list nid) :=
  let! l := users_list; match_loop (mask_of pattern) l.

(** ** Additions *)

Definition addChannel (c : cid) : M unit :=
  let! ch := get_chan c;
  let! i := get w_irc;
  when (bool_decide (is_Some (i_channels i !! ch_name ch)))
    (b_log Log.W_DESYNCH ("/!\ Channel " +:+ ch_name ch +:+ " already exists!"));;
  put (on_irc (up_i_channels (insert (ch_name ch) c))).

Definition addNick (n : nid) : M unit :=
  let! x := get_nick n;
  let! i := get w_irc;
  when (bool_decide (is_Some (i_users i !! nk_name x)))
    (b_log Log.W_DESYNCH ("/!\ User " +:+ nk_name x +:+ " already exists!"));;
  put (on_irc (up_i_users (insert (nk_name x) n)));;
  server_addNick (nk_server x) n.

Definition addServer (s : sid) : M unit :=
  let! x := get_server s;
  put (on_irc (up_i_servers (insert (sv_name x) s))).

(** [IRC::renameNick]. *)
Definition renameNick (n : nid) (newnick : string) : M unit :=
  let! x := get_nick n;
  put (on_irc (up_i_users (delete (nk_name x))));;
  put_nick n (with_name x newnick);;
  addNick n.

(** ** File transfers *)

(** [createDCCSend] with the nick the file comes from, when it is known; [listens] is
    what libpurple does in the constructor of DCCSend, which else throws
    DCCListenError ([false]).  [updateDCC] purges the finished transfers and passes the
    update on ([DCC::updated] is left to the transfer itself). *)
Definition createDCCSend (listens : bool) (ft : fid) (n : option nid) : M bool :=
  when listens (put (on_irc (up_i_dccs (fun l => l ++ [Dcc DServer false n (Some ft)]))));;
  ret listens.
Definition updateDCC (ft : fid) (updated : dcc -> dcc) : M unit :=
  put (on_irc (up_i_dccs (fun l =>
    map (fun d => if bool_decide (d_ft d = Some ft) then updated d else d)
        (List.filter (fun d => negb (d_finished d)) l)))).
Definition cleanUpDCC : M unit := put (on_irc (up_i_dccs (fun _ => []))).
(** The loop over [dccs] in [removeNick]. *)
Definition forget_peer (n : nid) (l : list dcc) : list dcc :=
  map (fun d => if bool_decide (d_peer d = Some n)
                then Dcc (d_kind d) (d_finished d) None (d_ft d) else d)
      (List.filter (fun d => negb (d_finished d)) l).

(** ** Leaving channels and deleting nicks

    [rm] is [IRC::removeNick], which deletes a nick, which makes it quit. *)

Definition conv_leave (ce : conv_entity) : M unit :=
  match conv ce with
  | Some v => im_call (ConvLeave v)
  | None => stuck "assert(isValid())"
  end.

(** The erasure of the first entry of [cbuddies] whose channel user is [n]. *)
Fixpoint erase_cbuddy (n : nid) (l : list (kid * uid)) : M (list (kid * uid)) :=
  match l with
  | [] => ret []
  | (k, u) :: l =>
    let! x := get_cu u;
    if (cu_nick x =? n)%nat then ret l
    else let! l := erase_cbuddy n l; ret ((k, u) :: l)
  end.

(** [ConversationChannel::delUser] and the virtual call. *)
Definition delUser_with (rm : string -> M unit) (c : cid) (n : nid) (m : message) : M unit :=
  let! ch := get_chan c;
  match ch_kind ch with
  | KStatus _ => chan_delUser c n m
  | KConversation ce up cb =>
    let! cb := erase_cbuddy n cb;
    put_chan c (with_ckind ch (KConversation ce up cb));;
    chan_delUser c n m;;
    let! x := get_nick n;
    match nk_kind x with
    | KChatBuddy _ _ => rm (nk_name x)
    | _ =>
      let! u := user;
      when (n =? u)%nat (conv_leave ce)
    end
  end.

(** [Nick::quit]: [sended] are the nicks the message was sent to. *)
Fixpoint quit_send (m : message) (sended : list nid) (l : list uid) : M (list nid) :=
  match l with
  | [] => ret sended
  | u :: l =>
    let! x := get_cu u;
    if bool_decide (cu_nick x ∈ sended) then quit_send m sended l
    else send (cu_nick x) m;; quit_send m (sended ++ [cu_nick x]) l
  end.
Fixpoint quit_loop (rm : string -> M unit) (n : nid) (m : message) (sended : list nid)
    (l : list uid) : M unit :=
  match l with
  | [] => ret tt
  | u :: l =>
    let! x := get_cu u;
    let! ch := get_chan (cu_chan x);
    let! sended := quit_send m sended (users ch);
    delUser_with rm (cu_chan x) n Msg.mk0;;
    let! y := get_nick n;
    put_nick n (with_channels y l);;
    quit_loop rm n m sended l
  end.
Definition quit_with (rm : string -> M unit) (n : nid) (text : string) : M unit :=
  let! m := mkmsg "QUIT" (Some (ENick n)) None [text];
  let! x := get_nick n;
  quit_loop rm n m [] (channels x).

(** [delete nick]: the destructor of the class, then [Nick::~Nick], during which
    the object is a plain [Nick]; the [removeNick] that would be reached from a
    [ChatBuddy] is not reached any more. *)
Definition forget_conv (n : nid) (ce : conv_entity) : M unit :=
  match conv ce with
  | Some v =>
    let! f := ask v_nick;
    when (bool_decide (f v = Some n)) (im_call (ConvSetNick v None))
  | None => ret tt
  end.
Definition destroyNick (n : nid) : M unit :=
  let! x := get_nick n;
  (match nk_kind x with
   | KBuddy b _ _ _ => buddy_setConversation n None;; im_call (BuddySetNick b None)
   | KChatBuddy _ ce | KUnknownBuddy ce => forget_conv n ce
   | KUser _ _ _ | KNick => ret tt
   end);;
  let! x := get_nick n;
  put_nick n (with_kind x KNick);;
  quit_with (fun _ => stuck "ChatBuddy in ~Nick") n "*.net *.split";;
  delete_nick n.

(** [IRC::removeNick]. *)
Definition removeNick (nickname : string) : M unit :=
  let! i := get w_irc;
  match i_users i !! nickname with
  | None => ret tt
  | Some n =>
    put (on_irc (up_i_dccs (forget_peer n)));;
    let! x := get_nick n;
    server_removeNick (nk_server x) n;;
    destroyNick n;;
    put (on_irc (up_i_users (delete nickname)))
  end.

Definition delUser := delUser_with removeNick.
(** [Nick::quit], when it is not called from the destructor. *)
Definition quit := quit_with removeNick.

(** [Nick::part]: leaves the first channel user found. *)
Fixpoint part_loop (n : nid) (c : cid) (m : message) (kept rest : list uid) : M unit :=
  match rest with
  | [] => ret tt
  | u :: rest =>
    let! x := get_cu u;
    if (cu_chan x =? c)%nat then
      let! y := get_nick n;
      put_nick n (with_channels y (kept ++ rest));;
      send n m;;
      delUser (cu_chan x) n m
    else part_loop n c m (kept ++ [u]) rest
  end.
Definition part (n : nid) (c : cid) (text : string) : M unit :=
  let! m := mkmsg "PART" (Some (ENick n)) (Some (EChan c)) [text];
  let! x := get_nick n;
  part_loop n c m [] (channels x).

(** [Nick::kicked]: the loop goes on with the channels that are left. *)
Fixpoint kicked_loop (n : nid) (c : cid) (from : uid) (text : string) (kept rest : list uid)
    : M unit :=
  match rest with
  | [] => ret tt
  | u :: rest =>
    let! x := get_cu u;
    if (cu_chan x =? c)%nat then
      let! y := get_nick n;
      put_nick n (with_channels y (kept ++ rest));;
      let! m := mkmsg "KICK" (Some (ECu from)) (Some (EChan (cu_chan x))) [nk_name y; text];
      delUser (cu_chan x) n m;;
      kicked_loop n c from text kept rest
    else kicked_loop n c from text (kept ++ [u]) rest
  end.
Definition kicked (n : nid) (c : cid) (from : uid) (text : string) : M unit :=
  let! x := get_nick n;
  kicked_loop n c from text [] (channels x).

(** ** Deleting channels, servers, everything *)

(** The loop of [ConversationChannel::~ConversationChannel]. *)
Definition drop_cbuddy (c : cid) (e : kid * uid) : M unit :=
  let! x := get_cu e.2;
  let! y := get_nick (cu_nick x);
  match nk_kind y with
  | KChatBuddy _ _ =>
    chan_delUser c (cu_nick x) Msg.mk0;;
    removeChanUser (cu_nick x) e.2;;
    let! y := get_nick (cu_nick x);
    removeNick (nk_name y)
  | _ => ret tt
  end.
(** The loop of [Channel::~Channel]. *)
Definition drop_user (c : cid) (u : uid) : M unit :=
  let! x := get_cu u;
  let! m := mkmsg "PART" (Some (ECu u)) (Some (EChan c)) [];
  send (cu_nick x) m;;
  removeChanUser (cu_nick x) u;;
  delete_cu u.
(** [delete chan]. *)
Definition destroyChannel (c : cid) : M unit :=
  let! ch := get_chan c;
  (match ch_kind ch with
   | KStatus _ => ret tt
   | KConversation _ _ cb => mapM_ (drop_cbuddy c) cb
   end);;
  let! ch := get_chan c;
  mapM_ (drop_user c) (users ch);;
  delete_chan c.

Definition removeChannel (channame : string) : M unit :=
  let! i := get w_irc;
  match i_channels i !! channame with
  | None => ret tt
  | Some c =>
    destroyChannel c;;
    put (on_irc (up_i_channels (delete channame)))
  end.

Definition cleanUpChannels : M unit :=
  let! l := channels_list;
  mapM_ (fun '(_, c) => destroyChannel c) l;;
  put (on_irc (up_i_channels (fun _ => ∅))).

Definition cleanUpNicks : M unit :=
  let! l := users_list;
  mapM_ (fun '(_, n) =>
           let! x := get_nick n;
           server_removeNick (nk_server x) n;;
           destroyNick n) l;;
  put (on_irc (up_i_users (fun _ => ∅))).

(** The first user of the table which is on the server [s]. *)
Fixpoint first_on (s : sid) (l : list (string * nid)) : M (option (string * nid)) :=
  match l with
  | [] => ret None
  | (k, n) :: l =>
    let! x := get_nick n;
    if (nk_server x =? s)%nat then ret (Some (k, n)) else first_on s l
  end.
(** The loop of [removeServer], which starts again after each deletion; every turn
    erases a key of [users], so their number plus one is enough fuel. *)
Fixpoint remove_users (fuel : nat) (s : sid) : M unit :=
  match fuel with
  | O => stuck "fuel"
  | S fuel =>
    let! l := users_list;
    let! o := first_on s l;
    match o with
    | None => ret tt
    | Some (k, n) =>
      destroyNick n;;
      put (on_irc (up_i_users (delete k)));;
      remove_users fuel s
    end
  end.
Definition removeServer (servername : string) : M unit :=
  let! i := get w_irc;
  match i_servers i !! servername with
  | None => ret tt
  | Some s =>
    remove_users (S (size (i_users i))) s;;
    delete_server s;;
    put (on_irc (up_i_servers (delete servername)))
  end.

Definition cleanUpServers : M unit :=
  let! l := servers_list;
  mapM_ (fun '(_, s) => delete_server s) l;;
  put (on_irc (up_i_servers (fun _ => ∅))).
End Reg.
End Reg.
