(* ===== verification/Members.v ===== *)
(** The links between nicks and channels: every [ChanUser] is in the list of its
    nick and in the list of its channel, at most once, and a nick is at most once
    on a channel. The specifications of [join], [part], [quit], [kicked] and
    [delUser] over these links, and the theorems that the links are kept. *)

From S2P Require Import Prelude Util Message Log World Dcc Nick Demo Logic Channel Registry.
Import W Obj Names Send Chan Reg.

(** [wp] which leaves the state after an exception open. *)
#[global] Abbreviation safe m Q w := (wp m Q (fun _ _ => True) w).

Module View.

(** What the heap says of the membership of nicks in channels. *)
Record view := V {
  v_nicks : gmap nat (list uid);
  v_chans : gmap nat (list uid);
  v_cus : gmap nat (nid * cid);
  v_next : nat }.
Definition view_of (h : heap) : view :=
  V (channels <$> h_nicks h) (users <$> h_chans h)
    ((fun x => (cu_nick x, cu_chan x)) <$> h_cus h) (h_next h).

(** One side of the links: the lists of [m] hold the users that [own] assigns
    them, without duplicates. *)
Definition side (m : gmap nat (list uid)) (own : uid -> nat -> Prop) : Prop :=
  forall i l, m !! i = Some l -> NoDup l /\ forall u, u ∈ l -> own u i.
(** [u] is the user of the nick [n], of the channel [c]. *)
Definition of_nick (v : view) (u : uid) (n : nid) : Prop := exists c, v_cus v !! u = Some (n, c).
Definition of_chan (v : view) (u : uid) (c : cid) : Prop := exists n, v_cus v !! u = Some (n, c).

Record links (v : view) : Prop := Links {
  l_cu : forall u n c, v_cus v !! u = Some (n, c) ->
    (exists l, v_nicks v !! n = Some l /\ u ∈ l) /\ (exists l, v_chans v !! c = Some l /\ u ∈ l);
  l_nick : side (v_nicks v) (of_nick v);
  l_chan : side (v_chans v) (of_chan v);
  l_uniq : forall u u' p, v_cus v !! u = Some p -> v_cus v !! u' = Some p -> u = u';
  l_fresh : forall u, (v_next v <= u)%nat -> v_cus v !! u = None }.

(** The nick [n] comes on, or leaves, the channel [c]. *)
Definition v_join (n : nid) (c : cid) (ln lc : list uid) (v : view) : view :=
  V (<[n := ln ++ [v_next v]]> (v_nicks v)) (<[c := lc ++ [v_next v]]> (v_chans v))
    (<[v_next v := (n, c)]> (v_cus v)) (S (v_next v)).
Definition but (u : uid) (l : list uid) : list uid := List.filter (fun x => negb (x =? u)%nat) l.
Definition v_leave (n : nid) (c : cid) (u : uid) (ln lc : list uid) (v : view) : view :=
  V (<[n := but u ln]> (v_nicks v)) (<[c := but u lc]> (v_chans v))
    (delete u (v_cus v)) (v_next v).

Lemma elem_but u x l : x ∈ but u l <-> x ∈ l /\ x <> u.
Proof.
  unfold but. rewrite !list_elem_of_In, List.filter_In, negb_true_iff, Nat.eqb_neq. done.
Qed.
Lemma but_not_in u l : u ∉ l -> but u l = l.
Proof.
  induction l as [|x l IH]; [done|]. rewrite not_elem_of_cons. intros [Hx Hl]. unfold but in *. cbn.
  destruct (Nat.eqb_spec x u); [congruence|]. cbn. by rewrite IH.
Qed.
Lemma but_app u l l' : but u (l ++ l') = but u l ++ but u l'.
Proof. apply List.filter_app. Qed.
Lemma NoDup_but u l : NoDup l -> NoDup (but u l).
Proof. rewrite !NoDup_ListNoDup. apply List.NoDup_filter. Qed.

(** Two lists that hold the users of the view stay right when each loses [u]. *)
Lemma lookup_insert_cases {A} (m : gmap nat A) i j (x y : A) :
  <[i := x]> m !! j = Some y -> (i = j /\ x = y) \/ (i <> j /\ m !! j = Some y).
Proof.
  destruct (decide (i = j)) as [->|Hne].
  - rewrite lookup_insert_eq. intros [= ->]. by left.
  - rewrite lookup_insert_ne by done. by right.
Qed.

Lemma side_grow m (own own' : uid -> nat -> Prop) i l k :
  side m own -> m !! i = Some l -> k ∉ l -> own' k i ->
  (forall u j, own u j -> own' u j) -> side (<[i := l ++ [k]]> m) own'.
Proof.
  intros S Hi Hk Ho Hm j l' [[<- <-]|[Hne H]]%lookup_insert_cases.
  - destruct (S _ _ Hi) as [D I]. split.
    + apply NoDup_app; split; [done|]. split; [|apply NoDup_singleton].
      intros x Hx ->%list_elem_of_singleton. done.
    + intros u [Hu|Hu]%elem_of_app; [by apply Hm, I|].
      by apply list_elem_of_singleton in Hu as ->.
  - destruct (S _ _ H) as [D I]. split; [done|]. intros u Hu. by apply Hm, I.
Qed.
Lemma side_shrink m (own own' : uid -> nat -> Prop) i l k :
  side m own -> m !! i = Some l ->
  (forall u j, own u j -> u <> k -> own' u j) -> (forall j, own k j -> j = i) ->
  side (<[i := but k l]> m) own'.
Proof.
  intros S Hi Hm Hu j l' [[<- <-]|[Hne H]]%lookup_insert_cases.
  - destruct (S _ _ Hi) as [D I]. split; [by apply NoDup_but|].
    intros u [Hin Hne]%elem_but. by apply Hm; [apply I|].
  - destruct (S _ _ H) as [D I]. split; [done|]. intros u Hin. apply Hm; [by apply I|].
    intros ->. by apply Hne, eq_sym, Hu, I.
Qed.
Lemma kept_grow (m : gmap nat (list uid)) i l j l' u (k : uid) :
  m !! i = Some l -> m !! j = Some l' -> u ∈ l' ->
  exists l'', <[i := l ++ [k]]> m !! j = Some l'' /\ u ∈ l''.
Proof.
  intros Hi Hj Hu. destruct (decide (i = j)) as [->|Hne].
  - rewrite lookup_insert_eq. eexists; split; [done|]. simplify_eq. apply elem_of_app. by left.
  - rewrite lookup_insert_ne by done. by exists l'.
Qed.
Lemma kept_shrink (m : gmap nat (list uid)) i l j l' u (k : uid) :
  m !! i = Some l -> m !! j = Some l' -> u ∈ l' -> u <> k ->
  exists l'', <[i := but k l]> m !! j = Some l'' /\ u ∈ l''.
Proof.
  intros Hi Hj Hu Hne. destruct (decide (i = j)) as [->|Hij].
  - rewrite lookup_insert_eq. eexists; split; [done|]. simplify_eq. by apply elem_but.
  - rewrite lookup_insert_ne by done. by exists l'.
Qed.

Lemma links_join n c ln lc v :
  links v -> v_nicks v !! n = Some ln -> v_chans v !! c = Some lc ->
  (forall u, v_cus v !! u <> Some (n, c)) -> links (v_join n c ln lc v).
Proof.
  intros L Hn Hc Hno. set (k := v_next v).
  assert (Hk : v_cus v !! k = None) by (by apply (l_fresh _ L)).
  assert (Hold : forall u p, v_cus v !! u = Some p -> <[k := (n, c)]> (v_cus v) !! u = Some p).
  { intros u p Hu. rewrite lookup_insert_ne; [done|]. intros ->. congruence. }
  assert (Kn : k ∉ ln) by (intros [? ?]%(l_nick _ L _ _ Hn); congruence).
  assert (Kc : k ∉ lc) by (intros [? ?]%(l_chan _ L _ _ Hc); congruence).
  split; cbn; fold k.
  - intros u n' c' [[<- [= <- <-]]|[Hu H]]%lookup_insert_cases.
    + rewrite !lookup_insert_eq.
      split; eexists; (split; [done|]); apply elem_of_app; right; by apply list_elem_of_singleton.
    + destruct (l_cu _ L _ _ _ H) as [(l1 & H1 & H1') (l2 & H2 & H2')].
      split; by eapply kept_grow.
  - eapply (side_grow _ (of_nick v)); eauto using l_nick.
    + exists c. cbn. by rewrite lookup_insert_eq.
    + intros u j [c' ?]. exists c'. by apply Hold.
  - eapply (side_grow _ (of_chan v)); eauto using l_chan.
    + exists n. cbn. by rewrite lookup_insert_eq.
    + intros u j [n' ?]. exists n'. by apply Hold.
  - intros u u' p [[<- <-]|[Hu H]]%lookup_insert_cases
      [[<- E]|[Hu' H']]%lookup_insert_cases; try done; subst.
    + exfalso. by apply (Hno u').
    + exfalso. by apply (Hno u).
    + by eapply (l_uniq _ L).
  - intros u Hu. rewrite lookup_insert_ne by lia. apply (l_fresh _ L). cbn in *. lia.
Qed.

Lemma links_leave n c u ln lc v :
  links v -> v_nicks v !! n = Some ln -> v_chans v !! c = Some lc ->
  v_cus v !! u = Some (n, c) -> links (v_leave n c u ln lc v).
Proof.
  intros L Hn Hc Hu.
  assert (Hold : forall u' p, v_cus v !! u' = Some p -> u' <> u -> delete u (v_cus v) !! u' = Some p).
  { intros u' p Hp Hne. by rewrite lookup_delete_ne by done. }
  split; cbn.
  - intros u' n' c' H. apply lookup_delete_Some in H as [Hne H].
    destruct (l_cu _ L _ _ _ H) as [(l1 & H1 & H1') (l2 & H2 & H2')].
    split; by eapply kept_shrink.
  - eapply (side_shrink _ (of_nick v)); eauto using l_nick.
    + intros u' j [c' ?] ?. exists c'. by apply Hold.
    + intros j [c' ?]. congruence.
  - eapply (side_shrink _ (of_chan v)); eauto using l_chan.
    + intros u' j [n' ?] ?. exists n'. by apply Hold.
    + intros j [n' ?]. congruence.
  - intros u1 u2 p H1 H2. apply lookup_delete_Some in H1 as [_ H1], H2 as [_ H2].
    by eapply (l_uniq _ L).
  - intros u' Hu'. apply lookup_delete_None. right. by apply (l_fresh _ L).
Qed.
End View.

Module Wf.
Import View.

(** A well-formed session between two operations; while the destructor of the
    channel [X] runs, nothing is said of what is left of it. *)
Record wf_but (X : option cid) (w : world) : Prop := Wf {
  wf_links : links (view_of (w_heap w));
  wf_fresh : forall i, (h_next (w_heap w) <= i)%nat ->
    h_nicks (w_heap w) !! i = None /\ h_chans (w_heap w) !! i = None
    /\ h_servers (w_heap w) !! i = None;
  wf_server : forall n x, h_nicks (w_heap w) !! n = Some x ->
    is_Some (h_servers (w_heap w) !! nk_server x);
  wf_conv : forall c ch ce up cb, h_chans (w_heap w) !! c = Some ch ->
    ch_kind ch = KConversation ce up cb -> Some c <> X ->
    is_Some (conv ce) /\ NoDup cb.*2 /\ forall u, u ∈ cb.*2 -> u ∈ users ch;
  wf_self : is_Some (h_servers (w_heap w) !! i_self (w_irc w));
  wf_user : exists x p l b, h_nicks (w_heap w) !! i_user (w_irc w) = Some x
    /\ nk_kind x = KUser p l b;
  wf_table : forall k n, i_users (w_irc w) !! k = Some n ->
    exists x, h_nicks (w_heap w) !! n = Some x /\ nk_name x = k;
  wf_ctable : forall k c, i_channels (w_irc w) !! k = Some c ->
    exists ch, h_chans (w_heap w) !! c = Some ch /\ ch_name ch = k;
  wf_stable : forall k s, i_servers (w_irc w) !! k = Some s ->
    exists x, h_servers (w_heap w) !! s = Some x /\ sv_name x = k;
  wf_unknown : forall n x ce, h_nicks (w_heap w) !! n = Some x ->
    nk_kind x = KUnknownBuddy ce -> is_Some (conv ce) }.

#[global] Abbreviation wf := (wf_but None).
#[global] Arguments wf_links {X} w _.
#[global] Arguments wf_fresh {X} w _.
#[global] Arguments wf_server {X} w _.
#[global] Arguments wf_conv {X} w _.
#[global] Arguments wf_self {X} w _.
#[global] Arguments wf_user {X} w _.
#[global] Arguments wf_table {X} w _.
#[global] Arguments wf_ctable {X} w _.
#[global] Arguments wf_stable {X} w _.
#[global] Arguments wf_unknown {X} w _.

Lemma wf_io_stable {X} : io_stable (wf_but X).
Proof.
  intros w w' (Hh & Hi & _) [H1 H2 H3 H4 H5 H6 H7 H8 H9 H10]. split; rewrite ?Hh, ?Hi; done.
Qed.

Lemma wf_nick_alive {X} w k n : wf_but X w -> i_users (w_irc w) !! k = Some n -> is_Some (h_nicks (w_heap w) !! n).
Proof. intros W H. destruct (wf_table _ W _ _ H) as (x & -> & _). done. Qed.
Lemma wf_chan_alive {X} w k c : wf_but X w -> i_channels (w_irc w) !! k = Some c -> is_Some (h_chans (w_heap w) !! c).
Proof. intros W H. destruct (wf_ctable _ W _ _ H) as (x & -> & _). done. Qed.

(** The users of a channel of a heap with the links. *)
Lemma chan_users h c ch u :
  links (view_of h) -> h_chans h !! c = Some ch -> u ∈ users ch ->
  exists x y, h_cus h !! u = Some x /\ cu_chan x = c /\ h_nicks h !! cu_nick x = Some y
            /\ u ∈ channels y.
Proof.
  intros L Hc Hu.
  destruct (l_chan _ L c (users ch)) as [_ I]; [cbn; by rewrite lookup_fmap, Hc|].
  destruct (I u Hu) as [n Hn]. destruct (l_cu _ L _ _ _ Hn) as [(l & Hl & Hin) _].
  cbn in *. rewrite lookup_fmap in Hn. rewrite lookup_fmap in Hl.
  destruct (h_cus h !! u) as [x|] eqn:Ex; [|done]. cbn in Hn. simplify_eq.
  destruct (h_nicks h !! cu_nick x) as [y|] eqn:Ey; [|done]. cbn in Hl. simplify_eq.
  by exists x, y.
Qed.
Lemma nick_users h n y u :
  links (view_of h) -> h_nicks h !! n = Some y -> u ∈ channels y ->
  exists x ch, h_cus h !! u = Some x /\ cu_nick x = n /\ h_chans h !! cu_chan x = Some ch
             /\ u ∈ users ch.
Proof.
  intros L Hn Hu.
  destruct (l_nick _ L n (channels y)) as [_ I]; [cbn; by rewrite lookup_fmap, Hn|].
  destruct (I u Hu) as [c Hc]. destruct (l_cu _ L _ _ _ Hc) as [_ (l & Hl & Hin)].
  cbn in *. rewrite lookup_fmap in Hc. rewrite lookup_fmap in Hl.
  destruct (h_cus h !! u) as [x|] eqn:Ex; [|done]. cbn in Hc. simplify_eq.
  destruct (h_chans h !! cu_chan x) as [ch|] eqn:Ey; [|done]. cbn in Hl. simplify_eq.
  by exists x, ch.
Qed.

(** ** What a message may point to while the channel user [u] is deleted *)

Definition end_ok (h : heap) (u : uid) (e : ent) : Prop :=
  match e with
  | ENick n => is_Some (h_nicks h !! n)
  | ECu v => v <> u /\ exists x, h_cus h !! v = Some x /\ is_Some (h_nicks h !! cu_nick x)
  | EChan c => is_Some (h_chans h !! c)
  | EServer s => is_Some (h_servers h !! s)
  end.
Definition ends_ok (h : heap) (u : uid) (m : message) : Prop :=
  (forall e, Msg.entity (Msg.sender m) = Some e -> end_ok h u e)
  /\ (forall e, Msg.entity (Msg.receiver m) = Some e -> end_ok h u e).
(** A message [Channel::delUser] can pass on, or no message at all. *)
Definition quiet_msg (h : heap) (u : uid) (m : message) : Prop :=
  Msg.cmd m = "" \/ (Msg.cmd m <> "PRIVMSG" /\ ends_ok h u m).

Lemma ends_alive h u m : ends_ok h u m -> msg_alive h m.
Proof.
  intros [Hs Hr]. split; intros e He; [apply Hs in He|apply Hr in He]; destruct e; cbn in *.
  - by apply fmap_is_Some.
  - destruct He as [_ (x & -> & Hx)]. cbn. by apply fmap_is_Some.
  - by apply fmap_is_Some.
  - by apply fmap_is_Some.
  - by apply fmap_is_Some.
  - destruct He as [_ (x & -> & Hx)]. done.
  - by apply fmap_is_Some.
  - by apply fmap_is_Some.
Qed.

(** The heap after [Channel::delUser] has deleted [u] from the channel [c]. *)
Definition without (c : cid) (ch : channel) (l : list uid) (u : uid) (h : heap) : heap :=
  up_h_chans (insert c (with_users ch l)) (up_h_cus (delete u) h).

Lemma quiet_without h c ch l u m :
  h_chans h !! c = Some ch -> quiet_msg h u m -> quiet_msg (without c ch l u h) u m.
Proof.
  intros Hc [?|[Hp [Hs Hr]]]; [by left|right]. split; [done|].
  assert (He : forall e, end_ok h u e -> end_ok (without c ch l u h) u e).
  { intros [n|v|c'|s]; cbn; try done.
    - intros [Hne (x & Hx & Hn)]. split; [done|]. exists x. by rewrite lookup_delete_ne by done.
    - intros Hc'. destruct (decide (c = c')) as [->|]; [by rewrite lookup_insert_eq|].
      by rewrite lookup_insert_ne. }
  split; auto.
Qed.
End Wf.

Module Leave.
Import View Wf.
Section Leave.
Context {env : Env}.

(** ** Messages whose arguments may be refused *)

Lemma addArgs_cases {E} l (m : Msg.message E) :
  Dcc.addArgs l m = Throw MalformedMessage
  \/ exists a, Dcc.addArgs l m = Ret (Msg.with_args m a).
Proof.
  revert m. induction l as [|s l IH]; intros m; [right; exists (Msg.args m); by destruct m|].
  cbn. unfold Msg.addArg. destruct (Msg.back_has_space (Msg.args m)); [by left|]. cbn.
  destruct (IH (Msg.with_args m (Msg.args m ++ [s]))) as [->|[a ->]]; [by left|right; by exists a].
Qed.

Lemma safe_mkmsg cmd s r a (Q : message -> world -> Prop) w :
  (forall l, Q (Msg.Message cmd (match s with Some e => Msg.SE (Some e) "" | None => Msg.se_empty end)
       (match r with Some e => Msg.SE (Some e) "" | None => Msg.se_empty end) l) w) ->
  safe (mkmsg cmd s r a) Q w.
Proof.
  intros HQ. unfold mkmsg, lift, wp.
  destruct s, r; (match goal with |- context [Dcc.addArgs a ?m] =>
    destruct (addArgs_cases a m) as [->|[l ->]]; [done|apply HQ] end).
Qed.

(** Sending to the nick of a channel user something it may not ignore. *)
Lemma wp_send_cu v x m (Q : unit -> world -> Prop) E w :
  h_cus (w_heap w) !! v = Some x -> is_Some (h_nicks (w_heap w) !! cu_nick x) ->
  msg_alive (w_heap w) m -> Msg.cmd m <> "PRIVMSG" ->
  (forall w', io_only w w' -> Q tt w') -> (forall r w', io_only w w' -> E (SockError r) w') ->
  wp (send_cu v m) Q E w.
Proof.
  intros Hx Hn Hm Hc HQ HE. unfold send_cu. apply wp_bind. eapply wp_get_cu; [done|].
  by apply wp_send.
Qed.

Lemma wp_delUser_loop c n m u (Q : world -> Prop) rest kept ch w :
  h_chans (w_heap w) !! c = Some ch -> users ch = kept ++ rest -> NoDup rest ->
  (forall v, v ∈ rest -> exists x, h_cus (w_heap w) !! v = Some x
     /\ is_Some (h_nicks (w_heap w) !! cu_nick x) /\ (cu_nick x = n <-> v = u)) ->
  quiet_msg (w_heap w) u m ->
  (forall w', w_irc w' = w_irc w ->
     w_heap w' = (if bool_decide (u ∈ rest) then without c ch (kept ++ but u rest) u (w_heap w)
                  else w_heap w) -> Q w') ->
  safe (delUser_loop c n m kept rest) (fun _ => Q) w.
Proof.
  revert kept ch w. induction rest as [|v rest IH]; intros kept ch w Hc Hus ND Hal Hm HQ.
  { apply HQ; [done|]. rewrite bool_decide_false by apply not_elem_of_nil. done. }
  apply NoDup_cons in ND as [Hv ND]. destruct (Hal v) as (x & Hx & Hn & Hiff); [left|].
  cbn [delUser_loop]. apply wp_bind. eapply wp_get_cu; [done|].
  destruct (Nat.eqb_spec (cu_nick x) n) as [Heq|Hne].
  - apply Hiff in Heq as ->. apply wp_bind, wp_put, wp_bind. eapply wp_get_chan; [done|].
    apply wp_bind, wp_put. set (ch' := with_users ch (kept ++ rest)).
    eapply (IH kept ch'); [by apply lookup_insert_eq|done|done| |by apply (quiet_without _ c ch)|].
    + intros v' Hv'. destruct (Hal v') as (x' & Hx' & Hn' & Hiff'); [by right|].
      exists x'. split; [|done]. cbn. rewrite lookup_delete_ne; [done|]. by intros ->.
    + intros w' Hi Hh. apply HQ; [done|]. rewrite Hh.
      rewrite bool_decide_false by done. rewrite bool_decide_true by left.
      unfold but. cbn [List.filter]. rewrite Nat.eqb_refl. cbn [negb]. fold (but u rest).
      by rewrite but_not_in.
  - assert (Hvu : v <> u) by (intros ->; by apply Hne, Hiff).
    assert (Hrest : forall w', io_only w w' ->
      safe (delUser_loop c n m (kept ++ [v]) rest) (fun _ => Q) w').
    { intros w' (Hh & Hi & _). eapply IH; rewrite ?Hh; try done.
      - by rewrite <- app_assoc.
      - intros v' Hv'. apply Hal. by right.
      - intros w2 Hi2 Hh2. apply HQ; [congruence|]. rewrite Hh2.
        rewrite <- app_assoc. unfold but. cbn [List.filter].
        destruct (Nat.eqb_spec v u); [done|]. cbn [negb app].
        case_bool_decide as E1; case_bool_decide as E2; try done.
        + exfalso. apply E2. by right.
        + exfalso. apply E1. apply elem_of_cons in E2 as [->|]; done. }
    apply wp_bind. destruct Hm as [Hm|[Hp Hends]].
    + rewrite Hm. cbn. by apply Hrest.
    + apply wp_when; intros _; [|by apply Hrest].
      eapply wp_send_cu; [done|done|by eapply ends_alive|done|exact Hrest|done].
Qed.

(** [Channel::delUser] on the channel of [u], the channel user of [n]. *)
Lemma wp_chan_delUser c n m u ch (Q : world -> Prop) w :
  h_chans (w_heap w) !! c = Some ch -> NoDup (users ch) -> u ∈ users ch ->
  (forall v, v ∈ users ch -> exists x, h_cus (w_heap w) !! v = Some x
     /\ is_Some (h_nicks (w_heap w) !! cu_nick x) /\ (cu_nick x = n <-> v = u)) ->
  quiet_msg (w_heap w) u m ->
  (forall w', w_irc w' = w_irc w ->
     w_heap w' = without c ch (but u (users ch)) u (w_heap w) -> Q w') ->
  safe (chan_delUser c n m) (fun _ => Q) w.
Proof.
  intros Hc ND Hu Hal Hm HQ. unfold chan_delUser. apply wp_bind. eapply wp_get_chan; [done|].
  eapply wp_delUser_loop; [done|done|done|done|done|].
  intros w' Hi Hh. apply HQ; [done|]. by rewrite bool_decide_true in Hh.
Qed.

(** The channel once [u] has left it. *)
Definition kind_but (u : uid) (k : chan_kind) : chan_kind :=
  match k with
  | KStatus l => KStatus l
  | KConversation ce up cb => KConversation ce up (List.filter (fun e => negb (e.2 =? u)%nat) cb)
  end.
Definition chan_but (u : uid) (ch : channel) : channel :=
  Channel (ch_name ch) (topic ch) (but u (users ch)) (kind_but u (ch_kind ch)).
Definition left (c : cid) (ch : channel) (u : uid) (h : heap) : heap :=
  up_h_chans (insert c (chan_but u ch)) (up_h_cus (delete u) h).

(** What the deletion of [u], the channel user of [n], asks of the channel [c]. *)
Record chan_ok (h : heap) (c : cid) (ch : channel) (n : nid) (u : uid) : Prop := {
  ok_chan : h_chans h !! c = Some ch;
  ok_nodup : NoDup (users ch);
  ok_in : u ∈ users ch;
  ok_users : forall v, v ∈ users ch -> exists x, h_cus h !! v = Some x
     /\ is_Some (h_nicks h !! cu_nick x) /\ (cu_nick x = n <-> v = u);
  ok_conv : forall ce up cb, ch_kind ch = KConversation ce up cb ->
     is_Some (conv ce) /\ NoDup cb.*2 /\ forall v, v ∈ cb.*2 -> v ∈ users ch }.

Lemma wp_erase_cbuddy n u l (Q : list (kid * uid) -> world -> Prop) w :
  NoDup l.*2 ->
  (forall v, v ∈ l.*2 -> exists x, h_cus (w_heap w) !! v = Some x /\ (cu_nick x = n <-> v = u)) ->
  Q (List.filter (fun e => negb (e.2 =? u)%nat) l) w ->
  safe (erase_cbuddy n l) Q w.
Proof.
  revert Q. induction l as [|[k v] l IH]; intros Q ND Hal HQ; [exact HQ|].
  cbn [fmap list_fmap snd] in ND. apply NoDup_cons in ND as [Hv ND].
  destruct (Hal v) as (x & Hx & Hiff); [left|].
  cbn [erase_cbuddy]. apply wp_bind. eapply wp_get_cu; [done|].
  cbn [List.filter snd] in HQ.
  destruct (Nat.eqb_spec (cu_nick x) n) as [Heq|Hne].
  - apply Hiff in Heq as ->. rewrite Nat.eqb_refl in HQ. cbn in HQ. apply wp_ret.
    replace l with (List.filter (fun e => negb (e.2 =? u)%nat) l); [done|].
    clear -Hv. induction l as [|[k' v'] l IH]; [done|]. cbn in *.
    apply not_elem_of_cons in Hv as [Hne Hv].
    destruct (Nat.eqb_spec v' u); [congruence|]. cbn. by rewrite IH.
  - destruct (Nat.eqb_spec v u) as [->|]; [by exfalso; apply Hne, Hiff|]. cbn in HQ.
    apply wp_bind, IH; [done| |exact HQ]. intros v' Hv'. apply Hal. by right.
Qed.

Lemma wp_conv_leave ce (Q : unit -> world -> Prop) E w :
  is_Some (conv ce) -> (forall w', io_only w w' -> Q tt w') -> wp (conv_leave ce) Q E w.
Proof.
  intros [v Hv] HQ. unfold conv_leave. rewrite Hv. apply HQ.
  split; [done|]. split; [done|]. by eexists.
Qed.

(** The virtual [delUser]: a [ChatBuddy] which leaves its conversation is deleted. *)
Lemma wp_delUser_with rm c n m u ch y (Q : world -> Prop) w :
  chan_ok (w_heap w) c ch n u -> h_nicks (w_heap w) !! n = Some y -> quiet_msg (w_heap w) u m ->
  (forall w', w_irc w' = w_irc w -> w_heap w' = left c ch u (w_heap w) ->
     match ch_kind ch, nk_kind y with
     | KConversation _ _ _, KChatBuddy _ _ => safe (rm (nk_name y)) (fun _ => Q) w'
     | _, _ => Q w'
     end) ->
  safe (delUser_with rm c n m) (fun _ => Q) w.
Proof.
  intros [Hc ND Hin Hal Hcv] Hy Hm HQ. unfold delUser_with. apply wp_bind.
  eapply wp_get_chan; [done|]. destruct ch as [nm tp us k]. cbn [ch_kind users] in *.
  destruct k as [accs|ce up cb].
  - eapply wp_chan_delUser; [done|done|done|done|done|]. intros w' Hi Hh. by apply HQ.
  - destruct (Hcv _ _ _ eq_refl) as (Hconv & NDcb & Hcb). apply wp_bind.
    apply (wp_erase_cbuddy _ u); [done|intros v Hv; destruct (Hal v) as (x & ? & ? & ?); eauto|].
    apply wp_bind, wp_put, wp_bind. set (cb' := List.filter _ cb).
    eapply wp_chan_delUser with (ch := Channel nm tp us (KConversation ce up cb')).
    { apply lookup_insert_eq. } { done. } { exact Hin. } { exact Hal. }
    { destruct Hm as [?|[? [Hs Hr]]]; [by left|right]. split; [done|].
      assert (He : forall h' e, end_ok (w_heap w) u e -> h_nicks h' = h_nicks (w_heap w) ->
                h_cus h' = h_cus (w_heap w) -> h_servers h' = h_servers (w_heap w) ->
                (forall i, is_Some (h_chans (w_heap w) !! i) -> is_Some (h_chans h' !! i)) ->
                end_ok h' u e).
      { intros h' [] He H1 H2 H3 H4; cbn in *; rewrite ?H1, ?H2, ?H3; auto. }
      split; intros e E; eapply He; eauto; cbn; intros i Hi;
        (destruct (decide (c = i)) as [->|]; [by rewrite lookup_insert_eq|by rewrite lookup_insert_ne]). }
    intros w' Hi Hh. cbn in Hi.
    assert (Hh' : w_heap w' = left c (Channel nm tp us (KConversation ce up cb)) u (w_heap w)).
    { rewrite Hh. unfold without, left, up_h_chans, up_h_cus, chan_but, with_users, on_heap, with_ckind.
      cbn. by rewrite insert_insert_eq. }
    apply wp_bind. eapply wp_get_nick; [rewrite Hh'; cbn; exact Hy|].
    assert (Hrest : (forall w2, io_only w' w2 -> Q w2) ->
              safe (let! v := user; when (n =? v)%nat (conv_leave ce)) (fun _ => Q) w').
    { intros HQ'. apply wp_bind, wp_bind, wp_get, wp_ret, wp_when; intros _;
        [by apply wp_conv_leave|apply HQ'; reflexivity]. }
    assert (Hio : forall w2, io_only w' w2 -> w_irc w2 = w_irc w
              /\ w_heap w2 = left c (Channel nm tp us (KConversation ce up cb)) u (w_heap w)).
    { intros w2 (H1 & H2 & _). split; congruence. }
    destruct (nk_kind y) eqn:Ek; try (apply Hrest; intros w2 [H1 H2]%Hio; by apply HQ).
    by apply HQ.
Qed.

(** [u] is the channel user of the nick [n] on the channel [c]. *)
Record at_ (h : heap) (n : nid) (y : nick) (c : cid) (ch : channel) (u : uid) : Prop := {
  at_nick : h_nicks h !! n = Some y;
  at_chan : h_chans h !! c = Some ch;
  at_cu : exists x, h_cus h !! u = Some x /\ cu_nick x = n /\ cu_chan x = c;
  at_in : u ∈ channels y }.

Lemma at_view h n y c ch u :
  at_ h n y c ch u ->
  v_nicks (view_of h) !! n = Some (channels y) /\ v_chans (view_of h) !! c = Some (users ch)
  /\ v_cus (view_of h) !! u = Some (n, c).
Proof.
  intros [Hn Hc (x & Hx & <- & <-) _]. cbn. by rewrite !lookup_fmap, Hn, Hc, Hx.
Qed.

Lemma at_chan_ok {X} w n y c ch u :
  wf_but X w -> Some c <> X -> at_ (w_heap w) n y c ch u -> chan_ok (w_heap w) c ch n u.
Proof.
  intros W HX A. destruct (at_view _ _ _ _ _ _ A) as (Vn & Vc & Vu).
  destruct (wf_links _ W) as [Lcu Ln Lc Lu Lf]. destruct (Lc _ _ Vc) as [ND Hown].
  destruct A as [Hn Hc (x & Hx & En & Ec) Hin]. split; [done|done| | |].
  - destruct (Lcu _ _ _ Vu) as [_ (l & Hl & Hul)]. congruence.
  - intros v Hv.
    destruct (chan_users _ c ch v (wf_links _ W) Hc Hv) as (x' & z & Hx' & Hcx & Hz & Hzin).
    exists x'. split; [done|]. split; [by eexists|]. split.
    + intros Hnx. apply (Lu v u (n, c)); [|done]. cbn. rewrite lookup_fmap, Hx'. cbn. congruence.
    + intros ->. congruence.
  - intros ce up cb Hk. by apply (wf_conv _ W c ch ce up cb).
Qed.

(** The heap once both lists have lost [u]. *)
Definition leave_heap (n : nid) (y : nick) (c : cid) (ch : channel) (u : uid) (h : heap) : heap :=
  up_h_nicks (insert n (with_channels y (but u (channels y)))) (left c ch u h).

Lemma view_leave h n y c ch u :
  at_ h n y c ch u ->
  view_of (leave_heap n y c ch u h) = v_leave n c u (channels y) (users ch) (view_of h).
Proof.
  intros _. unfold view_of, v_leave. cbn. f_equal.
  - by rewrite fmap_insert.
  - by rewrite fmap_insert.
  - by rewrite fmap_delete.
Qed.

Lemma conv_but u ch ce up cb :
  kind_but u (ch_kind ch) = KConversation ce up cb ->
  exists cb0, ch_kind ch = KConversation ce up cb0
    /\ cb = List.filter (fun e => negb (e.2 =? u)%nat) cb0.
Proof. destruct (ch_kind ch); cbn; intros; simplify_eq; eauto. Qed.
Lemma snd_filter u (l : list (kid * uid)) :
  (List.filter (fun e => negb (e.2 =? u)%nat) l).*2 = but u l.*2.
Proof.
  induction l as [|[k v] l IH]; [done|]. unfold but in *. cbn.
  destruct (negb (v =? u)%nat); cbn; by rewrite ?IH.
Qed.

Lemma wf_leave {X} w w' n y c ch u :
  wf_but X w -> at_ (w_heap w) n y c ch u -> w_irc w' = w_irc w ->
  w_heap w' = leave_heap n y c ch u (w_heap w) -> wf_but X w'.
Proof.
  intros W A Hi Hh. destruct (at_view _ _ _ _ _ _ A) as (Vn & Vc & Vu).
  assert (Hn := at_nick _ _ _ _ _ _ A). assert (Hc := at_chan _ _ _ _ _ _ A).
  split; rewrite ?Hi, ?Hh.
  - rewrite view_leave by done. apply links_leave; [apply W|done..].
  - intros i Hlt. destruct (wf_fresh _ W i Hlt) as (H1 & H2 & H3). cbn.
    rewrite !lookup_insert_ne by congruence. done.
  - cbn. intros n' x [[<- <-]|[Hne H]]%lookup_insert_cases; cbn; by eapply (wf_server _ W).
  - cbn. intros c' ch' ce up cb [[<- <-]|[Hne H]]%lookup_insert_cases Hk HX;
      [|by eapply (wf_conv _ W)].
    cbn in Hk. apply conv_but in Hk as (cb0 & Hk & ->).
    destruct (wf_conv _ W _ _ _ _ _ Hc Hk HX) as (H1 & H2 & H3). split; [done|].
    rewrite snd_filter. split; [by apply NoDup_but|]. cbn.
    intros v [Hv Hne]%elem_but. apply elem_but. auto.
  - apply W.
  - destruct (wf_user _ W) as (x & p & l & b & Hx & Hk). cbn.
    destruct (decide (n = i_user (w_irc w))) as [->|Hne].
    + rewrite lookup_insert_eq. rewrite Hx in Hn. simplify_eq. by eexists _, p, l, b.
    + rewrite lookup_insert_ne by done. by exists x, p, l, b.
  - intros k n' Hk. destruct (wf_table _ W _ _ Hk) as (x & Hx & Hnm). cbn.
    destruct (decide (n = n')) as [<-|Hne].
    + rewrite lookup_insert_eq. rewrite Hx in Hn. simplify_eq. by eexists.
    + rewrite lookup_insert_ne by done. by exists x.
  - intros k c' Hk. destruct (wf_ctable _ W _ _ Hk) as (x & Hx & Hnm). cbn.
    destruct (decide (c = c')) as [<-|Hne].
    + rewrite lookup_insert_eq. rewrite Hx in Hc. simplify_eq. by eexists.
    + rewrite lookup_insert_ne by done. by exists x.
  - apply W.
  - cbn. intros n' x ce [[<- <-]|[Hne H]]%lookup_insert_cases; cbn; by eapply (wf_unknown _ W).
Qed.

(** No channel user joins [n] and [c]. *)
Definition off (n : nid) (c : cid) (w : world) : Prop :=
  forall u x, h_cus (w_heap w) !! u = Some x -> ~ (cu_nick x = n /\ cu_chan x = c).

(** Nothing but channels left by [n]. *)
Record left_only (n : nid) (w w' : world) : Prop := {
  lo_irc : w_irc w' = w_irc w;
  lo_nicks : forall n', n' <> n -> h_nicks (w_heap w') !! n' = h_nicks (w_heap w) !! n';
  lo_self : forall y, h_nicks (w_heap w) !! n = Some y ->
    exists l, h_nicks (w_heap w') !! n = Some (with_channels y l);
  lo_servers : h_servers (w_heap w') = h_servers (w_heap w);
  lo_chans : forall c, ch_name <$> h_chans (w_heap w') !! c = ch_name <$> h_chans (w_heap w) !! c;
  lo_cus : forall u x, h_cus (w_heap w') !! u = Some x -> h_cus (w_heap w) !! u = Some x;
  lo_keep : forall u x, h_cus (w_heap w) !! u = Some x -> cu_nick x <> n ->
    h_cus (w_heap w') !! u = Some x;
  lo_off : forall c, off n c w -> h_chans (w_heap w') !! c = h_chans (w_heap w) !! c;
  lo_status : forall c ch accs, h_chans (w_heap w) !! c = Some ch -> ch_kind ch = KStatus accs ->
    exists ch', h_chans (w_heap w') !! c = Some ch' /\ ch_kind ch' = KStatus accs }.

#[export] Instance left_only_preorder n : PreOrder (left_only n).
Proof.
  split.
  - intros w. split; try done; [|by eauto]. intros y Hy. exists (channels y). by destruct y.
  - intros w1 w2 w3 [A1 A2 A3 A4 A5 A6 A7 A8 A9] [B1 B2 B3 B4 B5 B6 B7 B8 B9]. split.
    + by rewrite B1.
    + intros n' Hn. by rewrite B2, A2.
    + intros y (l & Hl)%A3. destruct (B3 _ Hl) as [l' Hl']. by exists l'.
    + by rewrite B4.
    + intros c. by rewrite B5.
    + auto.
    + auto.
    + intros c Hc. rewrite B8, A8; [done|done|]. intros u x Hx. by apply (Hc u x), A6.
    + intros c ch accs Hc Hk. destruct (A9 c ch accs Hc Hk) as (ch' & Hc' & Hk'). by eapply B9.
Qed.

Lemma left_only_io n w w' : io_only w w' -> left_only n w w'.
Proof.
  intros (Hh & Hi & _). split; rewrite ?Hh; try done; [|by eauto]. intros y Hy. exists (channels y).
  by destruct y.
Qed.

Lemma left_only_leave n y c ch u w w' :
  at_ (w_heap w) n y c ch u -> w_irc w' = w_irc w ->
  w_heap w' = leave_heap n y c ch u (w_heap w) -> left_only n w w'.
Proof.
  intros A Hi Hh. split; rewrite ?Hh; cbn; try done.
  - intros n' Hne. by rewrite lookup_insert_ne.
  - intros y' Hy'. rewrite (at_nick _ _ _ _ _ _ A) in Hy'. simplify_eq.
    eexists. by rewrite lookup_insert_eq.
  - intros c'. destruct (decide (c = c')) as [<-|Hne].
    + by rewrite lookup_insert_eq, (at_chan _ _ _ _ _ _ A).
    + by rewrite lookup_insert_ne.
  - intros v x Hv. by apply lookup_delete_Some in Hv as [_ Hv].
  - intros v x Hv Hne. rewrite lookup_delete_ne; [done|]. intros ->.
    destruct (at_cu _ _ _ _ _ _ A) as (x' & Hx' & En & _). congruence.
  - intros c' Ho. rewrite lookup_insert_ne; [done|]. intros ->.
    destruct (at_cu _ _ _ _ _ _ A) as (x' & Hx' & Hnc). by apply (Ho u x').
  - intros c' ch' accs Hc' Hk. destruct (decide (c = c')) as [<-|Hne].
    + rewrite (at_chan _ _ _ _ _ _ A) in Hc'. injection Hc' as <-. rewrite lookup_insert_eq.
      eexists. split; [done|]. cbn. by rewrite Hk.
    + rewrite lookup_insert_ne by done. by exists ch'.
Qed.

Definition not_chatbuddy (k : nick_kind) : bool :=
  match k with KChatBuddy _ _ => false | _ => true end.

(** [quit_send] reaches every user, whom it does not change. *)
Lemma wp_quit_send m sended l w :
  Msg.cmd m <> "PRIVMSG" ->
  (forall u, u ∈ l -> exists x, h_cus (w_heap w) !! u = Some x
     /\ is_Some (h_nicks (w_heap w) !! cu_nick x)) ->
  msg_alive (w_heap w) m ->
  safe (quit_send m sended l) (fun _ w' => io_only w w') w.
Proof.
  intros Hm. revert sended w. induction l as [|u l IH]; intros sended w Hal Hends;
    [by apply wp_ret|].
  destruct (Hal u) as (x & Hx & Hn); [left|]. cbn [quit_send]. apply wp_bind.
  eapply wp_get_cu; [done|].
  assert (Hal' : forall u, u ∈ l -> exists x, h_cus (w_heap w) !! u = Some x
     /\ is_Some (h_nicks (w_heap w) !! cu_nick x)) by (intros v Hv; apply Hal; by right).
  case_bool_decide; [by apply IH|]. apply wp_bind, wp_send; [done..| |done].
  intros w' Hio. destruct Hio as (Hh & Hi & Ht).
  eapply wp_mono; [apply IH; rewrite Hh; done| |done].
  intros ? w2 Hio2. etrans; [|exact Hio2]. done.
Qed.

(** One turn of the loop of [quit], or the whole of [part]. *)
Lemma at_of_nick {X} w n y u :
  wf_but X w -> h_nicks (w_heap w) !! n = Some y -> u ∈ channels y ->
  exists x ch, h_cus (w_heap w) !! u = Some x /\ h_chans (w_heap w) !! cu_chan x = Some ch
    /\ at_ (w_heap w) n y (cu_chan x) ch u.
Proof.
  intros W Hn Hu.
  destruct (nick_users _ n y u (wf_links _ W) Hn Hu) as (x & ch & Hx & En & Hc & _).
  exists x, ch. split; [done|]. split; [done|]. split; [done|done| |done]. by exists x.
Qed.

Lemma but_head u l : u ∉ l -> but u (u :: l) = l.
Proof. intros H. unfold but. cbn. rewrite Nat.eqb_refl. cbn. by apply but_not_in. Qed.

Lemma wp_quit_loop {X} rm n m y l sended w :
  wf_but X w -> (forall u x, u ∈ l -> h_cus (w_heap w) !! u = Some x -> Some (cu_chan x) <> X) ->
  h_nicks (w_heap w) !! n = Some y -> channels y = l -> not_chatbuddy (nk_kind y) = true ->
  Msg.cmd m <> "PRIVMSG" -> Msg.sender m = Msg.setEntity (ENick n) Msg.se_empty ->
  Msg.receiver m = Msg.se_empty ->
  safe (quit_loop rm n m sended l)
    (fun _ w' => wf_but X w' /\ left_only n w w'
       /\ h_nicks (w_heap w') !! n = Some (with_channels y [])) w.
Proof.
  revert y sended w. induction l as [|u l IH]; intros y sended w W HX Hn Hl Hk Hm Hs Hr.
  { apply wp_ret. split; [done|]. split; [done|]. rewrite Hn, <- Hl. by destruct y. }
  destruct (at_of_nick w n y u W Hn) as (x & ch & Hx & Hc & A); [rewrite Hl; left|].
  assert (ND : u ∉ l).
  { destruct (l_nick _ (wf_links _ W) n (channels y)) as [ND _];
      [cbn; by rewrite lookup_fmap, Hn|]. rewrite Hl in ND. by apply NoDup_cons in ND as [? _]. }
  cbn [quit_loop]. apply wp_bind. eapply wp_get_cu; [done|]. apply wp_bind.
  eapply wp_get_chan; [done|]. apply wp_bind.
  eapply wp_mono; [apply wp_quit_send; [done| |]| |done].
  { intros v Hv. destruct (chan_users _ _ _ v (wf_links _ W) Hc Hv) as (x' & z & ? & _ & ? & _).
    exists x'. split; [done|]. by eexists. }
  { split; intros e He; [rewrite Hs in He|rewrite Hr in He]; [|done]. cbn in He. simplify_eq.
    cbn. by rewrite Hn. }
  intros sended' w1 Hio. assert (W1 : wf_but X w1) by exact (wf_io_stable _ _ Hio W).
  destruct Hio as (Hh & Hi & Ht). assert (Hio : io_only w w1) by done. clear Ht.
  assert (A1 : at_ (w_heap w1) n y (cu_chan x) ch u) by (by rewrite Hh).
  apply wp_bind. eapply wp_delUser_with;
    [eapply at_chan_ok; [exact W1|apply (HX u); [left|done]|exact A1]|apply A1|by left|].
  intros w2 Hi2 Hh2.
  assert (Hgo : safe (let! y := get_nick n; put_nick n (with_channels y l);; quit_loop rm n m sended' l)
    (fun _ w' => wf_but X w' /\ left_only n w w'
       /\ h_nicks (w_heap w') !! n = Some (with_channels y [])) w2).
  { apply wp_bind. eapply wp_get_nick; [rewrite Hh2; apply A1|]. apply wp_bind, wp_put.
    set (w3 := on_heap _ w2).
    assert (H3 : w_heap w3 = leave_heap n y (cu_chan x) ch u (w_heap w1)).
    { unfold w3, leave_heap. cbn. rewrite Hh2, Hl, but_head by done. done. }
    assert (I3 : w_irc w3 = w_irc w1) by done.
    eapply wp_mono; [apply (IH (with_channels y l)); [by eapply wf_leave| | |done..]| |done].
    { intros v z Hv Hz. rewrite H3 in Hz. cbn in Hz. apply lookup_delete_Some in Hz as [_ Hz].
      rewrite Hh in Hz. apply (HX v); [by right|done]. }
    { rewrite H3. cbn. rewrite lookup_insert_eq, Hl, but_head by done. done. }
    intros ? w' (W' & LO & Hn'). split; [done|]. split; [|done].
    etrans; [by apply left_only_io|]. etrans; [by eapply left_only_leave|exact LO]. }
  destruct (ch_kind ch); [exact Hgo|]. by destruct (nk_kind y).
Qed.

Lemma wp_mkmsg cmd s r a (Q : message -> world -> Prop) E w :
  Q (Msg.Message cmd (match s with Some e => Msg.SE (Some e) "" | None => Msg.se_empty end)
       (match r with Some e => Msg.SE (Some e) "" | None => Msg.se_empty end) a) w ->
  (length a <= 1)%nat ->
  wp (mkmsg cmd s r a) Q E w.
Proof.
  intros HQ Ha. unfold mkmsg. destruct a as [|t [|? ?]]; [..|cbn in Ha; lia];
    destruct s, r; exact HQ.
Qed.

(** [Nick::quit] of a nick which is not a [ChatBuddy]: it is on no channel after. *)
Lemma wp_quit_with {X} rm n text y w :
  wf_but X w -> (forall c, X = Some c -> off n c w) ->
  h_nicks (w_heap w) !! n = Some y -> not_chatbuddy (nk_kind y) = true ->
  safe (quit_with rm n text)
    (fun _ w' => wf_but X w' /\ left_only n w w'
       /\ h_nicks (w_heap w') !! n = Some (with_channels y [])) w.
Proof.
  intros W HX Hn Hk. unfold quit_with. apply wp_bind, wp_mkmsg; [|cbn; lia].
  apply wp_bind. eapply wp_get_nick; [done|]. eapply wp_quit_loop; try done.
  intros u x Hu Hx E. destruct (nick_users _ n y u (wf_links _ W) Hn Hu) as (x' & _ & Hx' & En & _).
  rewrite Hx in Hx'. injection Hx' as <-. by apply (HX _ (eq_sym E) u x).
Qed.

(** ** Deleting a nick *)

(** A nick may change everything but its name, its server and its channels, and
    the user stays a [User]. *)
Lemma wf_put_kind {X} w w' n x x' :
  wf_but X w -> h_nicks (w_heap w) !! n = Some x -> nk_name x' = nk_name x ->
  nk_server x' = nk_server x -> channels x' = channels x ->
  (n = i_user (w_irc w) -> exists p l b, nk_kind x' = KUser p l b) ->
  (forall ce, nk_kind x' = KUnknownBuddy ce -> is_Some (conv ce)) ->
  w_irc w' = w_irc w -> w_heap w' = up_h_nicks (insert n x') (w_heap w) -> wf_but X w'.
Proof.
  intros W Hn Enm Esv Ech Hu Hunk Hi Hh.
  assert (Hv : view_of (w_heap w') = view_of (w_heap w)).
  { rewrite Hh. unfold view_of. cbn. f_equal. rewrite fmap_insert, Ech. apply insert_id.
    by rewrite lookup_fmap, Hn. }
  split; rewrite ?Hv, ?Hi; [apply W|..]; rewrite ?Hh; cbn; try apply W.
  - intros i Hlt. rewrite lookup_insert_ne; [by apply W|].
    intros ->. destruct (wf_fresh _ W i Hlt). congruence.
  - intros n' z [[<- <-]|[Hne H]]%lookup_insert_cases; rewrite ?Esv; by eapply (wf_server _ W).
  - destruct (wf_user _ W) as (z & p & l & b & Hz & Hk).
    destruct (decide (n = i_user (w_irc w))) as [->|Hne].
    + destruct (Hu eq_refl) as (p' & l' & b' & Hk'). rewrite lookup_insert_eq. by eexists _, p', l', b'.
    + rewrite lookup_insert_ne by done. by exists z, p, l, b.
  - intros k n' Hk. destruct (wf_table _ W _ _ Hk) as (z & Hz & Hnm).
    destruct (decide (n = n')) as [<-|Hne].
    + rewrite lookup_insert_eq. eexists; split; [done|]. congruence.
    + rewrite lookup_insert_ne by done. by exists z.
  - intros n' z ce [[<- <-]|[Hne H]]%lookup_insert_cases Hk; [|by eapply (wf_unknown _ W)].
    by eapply Hunk.
Qed.

Lemma wf_put_nick {X} w w' n x x' :
  wf_but X w -> h_nicks (w_heap w) !! n = Some x -> nk_name x' = nk_name x ->
  nk_server x' = nk_server x -> channels x' = channels x ->
  (n = i_user (w_irc w) -> exists p l b, nk_kind x' = KUser p l b) ->
  (forall ce, nk_kind x' = KUnknownBuddy ce -> nk_kind x = KUnknownBuddy ce) ->
  w_irc w' = w_irc w -> w_heap w' = up_h_nicks (insert n x') (w_heap w) -> wf_but X w'.
Proof.
  intros W Hn Enm Esv Ech Hu Hunk. apply (wf_put_kind w w' n x x'); try done.
  intros ce Hce. eapply (wf_unknown _ W); [done|by apply Hunk].
Qed.
Lemma wf_put_server {X} w w' s x x' :
  wf_but X w -> h_servers (w_heap w) !! s = Some x -> sv_name x' = sv_name x -> w_irc w' = w_irc w ->
  w_heap w' = up_h_servers (insert s x') (w_heap w) -> wf_but X w'.
Proof.
  intros W Hs Enm Hi Hh.
  assert (Hk : forall i, is_Some (h_servers (w_heap w) !! i) -> is_Some (<[s := x']> (h_servers (w_heap w)) !! i)).
  { intros i Hx. destruct (decide (s = i)) as [->|]; [by rewrite lookup_insert_eq|].
    by rewrite lookup_insert_ne. }
  split; rewrite ?Hi, ?Hh; cbn; try apply W.
  - intros i Hlt. destruct (wf_fresh _ W i Hlt) as (H1 & H2 & H3). split; [done|]. split; [done|].
    rewrite lookup_insert_ne by congruence. done.
  - intros n y Hy. apply Hk. by eapply (wf_server _ W).
  - apply Hk, W.
  - intros k j Hj. destruct (wf_stable _ W _ _ Hj) as (z & Hz & Hnm).
    destruct (decide (s = j)) as [<-|Hne].
    + rewrite lookup_insert_eq. eexists; split; [done|]. congruence.
    + rewrite lookup_insert_ne by done. by exists z.
Qed.

Lemma wf_same_tables {X} w w' :
  wf_but X w -> w_heap w' = w_heap w -> i_self (w_irc w') = i_self (w_irc w) ->
  i_user (w_irc w') = i_user (w_irc w) -> i_users (w_irc w') = i_users (w_irc w) ->
  i_channels (w_irc w') = i_channels (w_irc w) -> i_servers (w_irc w') = i_servers (w_irc w) -> wf_but X w'.
Proof.
  intros W Hh H1 H2 H3 H4 H5. split; rewrite ?Hh, ?H1, ?H2, ?H3, ?H4, ?H5; apply W.
Qed.

(** [w'] is [w1] without the nick [n], which was on no channel; the other nicks
    and the servers are those of [w]. *)
Record deleted (X : option cid) (n : nid) (nm : string) (w w' : world) : Prop := {
  de_irc : w_irc w' = w_irc w;
  de_servers : h_servers (w_heap w') = h_servers (w_heap w);
  de_nicks : forall n', n' <> n -> h_nicks (w_heap w') !! n' = h_nicks (w_heap w) !! n';
  de_keep : forall u x, h_cus (w_heap w) !! u = Some x -> cu_nick x <> n ->
    h_cus (w_heap w') !! u = Some x;
  de_off : forall c, off n c w -> h_chans (w_heap w') !! c = h_chans (w_heap w) !! c;
  de_before : exists w1 z, wf_but X w1 /\ h_nicks (w_heap w1) !! n = Some z /\ channels z = []
    /\ nk_name z = nm /\ w_irc w1 = w_irc w
    /\ w_heap w' = up_h_nicks (delete n) (w_heap w1) }.

Lemma wf_deleted {X} n nm w w' w2 :
  deleted X n nm w w' -> n <> i_user (w_irc w) -> w_heap w2 = w_heap w' ->
  w_irc w2 = up_i_users (delete nm) (w_irc w) -> wf_but X w2.
Proof.
  intros [_ _ _ _ _ (w1 & z & W & Hn & Hch & Hnm & Hi1 & Hh)] Hu Hh2 Hi2. rewrite Hh in Hh2.
  assert (Hgone : forall u c, v_cus (view_of (w_heap w1)) !! u <> Some (n, c)).
  { intros u c H. destruct (l_cu _ (wf_links _ W) _ _ _ H) as [(l & Hl & Hin) _].
    cbn in Hl. rewrite lookup_fmap, Hn in Hl. cbn in Hl. rewrite Hch in Hl. simplify_eq.
    by apply not_elem_of_nil in Hin. }
  split; rewrite ?Hh2, ?Hi2; cbn.
  - destruct (wf_links _ W) as [Lcu Ln Lc Lu Lf]. split; cbn; [|  |exact Lc|exact Lu|exact Lf].
    + intros u n' c H. destruct (Lcu _ _ _ H) as [(l & Hl & Hin) ?]. split; [|done].
      exists l. split; [|done]. rewrite fmap_delete. rewrite lookup_delete_ne; [exact Hl|].
      intros ->. by apply (Hgone u c).
    + intros n' l H. rewrite fmap_delete in H. apply lookup_delete_Some in H as [_ H]. by apply Ln.
  - intros j Hlt. destruct (wf_fresh _ W j Hlt) as (H1 & H2 & H3). split; [|done].
    apply lookup_delete_None. by right.
  - intros n' x H. apply lookup_delete_Some in H as [_ H]. by eapply (wf_server _ W).
  - apply W.
  - rewrite <- Hi1. apply W.
  - rewrite <- Hi1 in *. destruct (wf_user _ W) as (x & p & l & b & Hx & Hk). exists x, p, l, b.
    by rewrite lookup_delete_ne.
  - rewrite <- Hi1. intros k n' H. apply lookup_delete_Some in H as [Hk H].
    destruct (wf_table _ W _ _ H) as (x & Hx & Hnx). exists x. split; [|done].
    rewrite lookup_delete_ne; [done|]. intros ->. congruence.
  - rewrite <- Hi1. apply W.
  - rewrite <- Hi1. apply W.
  - intros n' x ce H. apply lookup_delete_Some in H as [_ H]. by apply (wf_unknown _ W n').
Qed.

Lemma io_only_emit e w : io_only w (on_io (up_o_trace (fun t => t ++ [e])) w).
Proof. split; [done|]. split; [done|]. by exists [e]. Qed.
Lemma wp_im_call c (Q : unit -> world -> Prop) E w :
  (forall w', io_only w w' -> Q tt w') -> wp (im_call c) Q E w.
Proof. intros HQ. apply HQ, io_only_emit. Qed.

(** Only the object [n] changed, in its [ConvEntity] and its class. *)
Definition nick_only (n : nid) (w w' : world) : Prop :=
  w_irc w' = w_irc w /\ exists x k, h_nicks (w_heap w) !! n = Some x
    /\ w_heap w' = up_h_nicks (insert n (with_kind x k)) (w_heap w).

Lemma up_nicks_same n x h :
  h_nicks h !! n = Some x -> up_h_nicks (insert n (with_kind x (nk_kind x))) h = h.
Proof.
  intros H. destruct h as [a b c d e], x. unfold up_h_nicks, with_kind. cbn in *. f_equal.
  by apply insert_id.
Qed.
Lemma nick_only_io n w w' :
  io_only w w' -> is_Some (h_nicks (w_heap w) !! n) -> nick_only n w w'.
Proof.
  intros (Hh & Hi & _) [x Hx]. split; [done|]. exists x, (nk_kind x). split; [done|].
  rewrite Hh. symmetry. by apply up_nicks_same.
Qed.

Lemma wp_buddy_setConversation n b p l ce x v w :
  h_nicks (w_heap w) !! n = Some x -> nk_kind x = KBuddy b p l ce ->
  safe (buddy_setConversation n v) (fun _ w' => nick_only n w w') w.
Proof.
  intros Hx Hk. unfold buddy_setConversation, get_ce.
  assert (Hget : forall w' (Q : conv_entity -> world -> Prop), w_heap w' = w_heap w -> Q ce w' ->
    safe (let! x := get_nick n; deref "ConvEntity" (kind_ce (nk_kind x))) Q w').
  { intros w' Q Hh HQ. apply wp_bind. eapply wp_get_nick; [by rewrite Hh|]. by rewrite Hk. }
  apply wp_bind, Hget; [done|]. apply wp_bind.
  assert (Hend : forall w', io_only w w' ->
    safe (let! ce := (let! x := get_nick n; deref "ConvEntity" (kind_ce (nk_kind x)));
          put_ce (RNick n) (CE v (enqueued ce))) (fun _ w' => nick_only n w w') w').
  { intros w' (Hh & Hi & _). apply wp_bind, Hget; [done|]. unfold put_ce. apply wp_bind.
    eapply wp_get_nick; [by rewrite Hh|]. apply wp_put. split; [done|].
    eexists x, _. split; [done|]. cbn. by rewrite Hh. }
  destruct (conv ce); [|by apply wp_ret, Hend].
  apply wp_bind, wp_ask, wp_when; intros _; [|by apply Hend].
  apply wp_im_call. apply Hend.
Qed.

(** [delete nick], for any nick but the user. *)
Lemma wp_destroyNick {X} n y w :
  wf_but X w -> (forall c, X = Some c -> off n c w) ->
  h_nicks (w_heap w) !! n = Some y -> n <> i_user (w_irc w) ->
  safe (destroyNick n) (fun _ => deleted X n (nk_name y) w) w.
Proof.
  intros W HX Hn Hu. unfold destroyNick. apply wp_bind. eapply wp_get_nick; [done|].
  assert (Hrest : forall w', nick_only n w w' ->
    safe (let! x := get_nick n; put_nick n (with_kind x KNick);;
          quit_with (fun _ => stuck "ChatBuddy in ~Nick") n "*.net *.split";; delete_nick n)
      (fun _ => deleted X n (nk_name y) w) w').
  { intros w' (Hi & x & k & Hx & Hh). rewrite Hn in Hx. injection Hx as <-.
    apply wp_bind. eapply wp_get_nick; [rewrite Hh; apply lookup_insert_eq|].
    apply wp_bind, wp_put. set (w1 := on_heap _ w').
    assert (W1 : wf_but X w1).
    { eapply (wf_put_nick w w1 n y (with_kind y KNick)); try done.
      unfold w1. cbn. rewrite Hh. unfold up_h_nicks. cbn. by rewrite insert_insert_eq. }
    apply wp_bind. eapply wp_mono; [eapply (wp_quit_with _ n _ (with_kind y KNick)); [done| | |done]| |done].
    { intros c Hc u x' Hx'. apply (HX c Hc u). revert Hx'. unfold w1. cbn. by rewrite Hh. }
    { unfold w1. cbn. apply lookup_insert_eq. }
    intros ? w2 (W2 & LO & Hn2). apply wp_put.
    assert (Hi2 : w_irc w2 = w_irc w) by (rewrite (lo_irc _ _ _ LO); exact Hi).
    assert (Hs1 : h_servers (w_heap w1) = h_servers (w_heap w)) by (unfold w1; cbn; by rewrite Hh).
    split; [done|cbn; by rewrite (lo_servers _ _ _ LO)| | | |].
    - intros n' Hne. cbn. rewrite lookup_delete_ne, (lo_nicks _ _ _ LO) by done. unfold w1. cbn.
      rewrite Hh. cbn. by rewrite !lookup_insert_ne by done.
    - intros u x' Hx' Hne. cbn. apply (lo_keep _ _ _ LO); [|done]. unfold w1. cbn. by rewrite Hh.
    - intros c Ho. cbn. rewrite (lo_off _ _ _ LO); [unfold w1; cbn; by rewrite Hh|].
      intros u x'. unfold w1. cbn. rewrite Hh. apply Ho.
    - eexists w2, _. do 3 (split; [done|]). done. }
  apply wp_bind. destruct (nk_kind y) eqn:Ek.
  - apply wp_ret, Hrest, nick_only_io; [done|by rewrite Hn].
  - apply wp_ret, Hrest, nick_only_io; [done|by rewrite Hn].
  - apply wp_bind. eapply wp_mono; [by eapply wp_buddy_setConversation| |done].
    intros ? w1 (Hi & x & k & Hx & Hh). apply wp_im_call. intros w2 (Hh2 & Hi2 & _).
    apply Hrest. split; [congruence|]. exists x, k. split; [done|]. by rewrite Hh2.
  - unfold forget_conv. destruct (conv ce); [|apply wp_ret, Hrest, nick_only_io; [done|by rewrite Hn]].
    apply wp_bind, wp_ask, wp_when; intros _; [apply wp_im_call; intros w' Hio|];
      apply Hrest, nick_only_io; try done; by rewrite Hn.
  - unfold forget_conv. destruct (conv ce); [|apply wp_ret, Hrest, nick_only_io; [done|by rewrite Hn]].
    apply wp_bind, wp_ask, wp_when; intros _; [apply wp_im_call; intros w' Hio|];
      apply Hrest, nick_only_io; try done; by rewrite Hn.
Qed.

(** [IRC::removeNick], for any nick but the user. *)
Definition removed (nm : string) (n : nid) (w w' : world) : Prop :=
  wf w' /\ h_nicks (w_heap w') !! n = None
  /\ i_users (w_irc w') = delete nm (i_users (w_irc w))
  /\ i_user (w_irc w') = i_user (w_irc w)
  /\ i_dccs (w_irc w') = forget_peer n (i_dccs (w_irc w)).
(** What [Server::removeNick] does to a server: one entry for the nick goes. *)
Definition unlist (n : nid) (s : server) : server := with_svusers s (remove_first n (sv_users s)).
Definition unlisted (n : nid) (w w' : world) : Prop :=
  exists x, h_nicks (w_heap w) !! n = Some x
    /\ h_servers (w_heap w') = alter (unlist n) (nk_server x) (h_servers (w_heap w)).

(** The same while the channel [X] is being deleted, with all that stays. *)
Record gone (X : option cid) (nm : string) (n : nid) (w w' : world) : Prop := {
  go_wf : wf_but X w';
  go_nick : h_nicks (w_heap w') !! n = None;
  go_irc : w_irc w' = up_i_users (delete nm) (up_i_dccs (forget_peer n) (w_irc w));
  go_nicks : forall n', n' <> n -> h_nicks (w_heap w') !! n' = h_nicks (w_heap w) !! n';
  go_keep : forall u x, h_cus (w_heap w) !! u = Some x -> cu_nick x <> n ->
    h_cus (w_heap w') !! u = Some x;
  go_off : forall c, off n c w -> h_chans (w_heap w') !! c = h_chans (w_heap w) !! c;
  go_servers : unlisted n w w' }.

Lemma wp_removeNick_but {X} nm n w :
  wf_but X w -> (forall c, X = Some c -> off n c w) ->
  i_users (w_irc w) !! nm = Some n -> n <> i_user (w_irc w) ->
  safe (removeNick nm) (fun _ => gone X nm n w) w.
Proof.
  intros W HX Hn Hu. destruct (wf_table _ W _ _ Hn) as (x & Hx & Hnm).
  destruct (wf_server _ W _ _ Hx) as [sv Hsv].
  unfold removeNick. apply wp_bind, wp_get. rewrite Hn. apply wp_bind, wp_put, wp_bind.
  eapply wp_get_nick; [exact Hx|]. unfold server_removeNick. apply wp_bind, wp_bind.
  eapply wp_get_server; [exact Hsv|]. apply wp_put. set (w1 := on_heap _ (on_irc _ w)).
  assert (W1 : wf_but X w1).
  { eapply (wf_put_server (on_irc (up_i_dccs (forget_peer n)) w) _ _ sv
      (with_svusers sv (remove_first n (sv_users sv)))); [|exact Hsv|done|done|done].
    by eapply wf_same_tables. }
  apply wp_bind. eapply wp_mono; [by apply (wp_destroyNick (X := X) n x)| |done].
  intros ? w2 D. apply wp_put. assert (Hi2 := de_irc _ _ _ _ _ D). split; cbn.
  - eapply (wf_deleted n (nk_name x)); [exact D|done|done|]. cbn. by rewrite Hi2, Hnm.
  - destruct (de_before _ _ _ _ _ D) as (?&?&_&_&_&_&_&Hh). rewrite Hh. apply lookup_delete_eq.
  - by rewrite Hi2.
  - apply (de_nicks _ _ _ _ _ D).
  - apply (de_keep _ _ _ _ _ D).
  - apply (de_off _ _ _ _ _ D).
  - exists x. split; [done|]. cbn. rewrite (de_servers _ _ _ _ _ D). cbn.
    apply map_eq. intros j. destruct (decide (j = nk_server x)) as [->|Hj].
    + by rewrite lookup_insert_eq, lookup_alter_eq, Hsv.
    + by rewrite lookup_insert_ne, lookup_alter_ne.
Qed.

Lemma wp_removeNick nm n w :
  wf w -> i_users (w_irc w) !! nm = Some n -> n <> i_user (w_irc w) ->
  safe (removeNick nm) (fun _ => removed nm n w) w.
Proof.
  intros W Hn Hu. eapply wp_mono; [by apply (wp_removeNick_but (X := None))| |done].
  intros ? w' [W' Hg Hi _ _ _ _]. split; [done|]. split; [done|]. by rewrite Hi.
Qed.

(** No server lists the nick twice, and only its own lists it. *)
Definition listed_once (n : nid) (w : world) : Prop :=
  forall s x y, h_servers (w_heap w) !! s = Some x -> h_nicks (w_heap w) !! n = Some y ->
    n ∈ sv_users x -> s = nk_server y /\ NoDup (sv_users x).
Lemma elem_of_remove_first n l : NoDup l -> n ∉ remove_first n l.
Proof.
  induction 1 as [|y l Hy ND IH]; [by apply not_elem_of_nil|]. cbn. destruct (Nat.eqb_spec y n) as [->|Hne]; [done|].
  by apply not_elem_of_cons.
Qed.
Lemma unlisted_once n w w' : listed_once n w -> unlisted n w w' ->
  forall s x, h_servers (w_heap w') !! s = Some x -> n ∉ sv_users x.
Proof.
  intros H (y & Hy & E) s x Hx Hin. rewrite E in Hx. apply lookup_alter_Some in Hx as [(<- & z & Hz & ->)|[Hne Hz]].
  - cbn in Hin. destruct (decide (n ∈ sv_users z)) as [Hn|Hn].
    + destruct (H _ _ _ Hz Hy Hn) as [_ ND]. by apply (elem_of_remove_first n (sv_users z)).
    + apply Hn. clear -Hin. induction (sv_users z) as [|m l IH]; [done|]. cbn in Hin.
      destruct (Nat.eqb_spec m n) as [->|_]; [left|]. apply elem_of_cons in Hin as [->|Hin]; [left|right; auto].
  - by destruct (H _ _ _ Hz Hy Hin) as [-> _].
Qed.

(** A deleted nick is on no channel. *)
Lemma wf_no_user {X} w n u x :
  wf_but X w -> h_nicks (w_heap w) !! n = None -> h_cus (w_heap w) !! u = Some x -> cu_nick x <> n.
Proof.
  intros W Hn Hx Heq. destruct (l_cu _ (wf_links _ W) u (cu_nick x) (cu_chan x)) as [(l & Hl & _) _].
  { cbn. by rewrite lookup_fmap, Hx. }
  cbn in Hl. rewrite lookup_fmap, Heq, Hn in Hl. done.
Qed.

(** ** Leaving a channel *)

Lemma off_leave {X} n y c ch u w w' :
  wf_but X w -> at_ (w_heap w) n y c ch u -> w_heap w' = leave_heap n y c ch u (w_heap w) -> off n c w'.
Proof.
  intros W A Hh v x Hv [<- <-]. rewrite Hh in Hv. cbn in Hv.
  apply lookup_delete_Some in Hv as [Hne Hv]. apply Hne.
  destruct (at_view _ _ _ _ _ _ A) as (_ & _ & Vu).
  apply (l_uniq _ (wf_links _ W) _ _ (cu_nick x, cu_chan x)); [exact Vu|].
  cbn. by rewrite lookup_fmap, Hv.
Qed.

Lemma off_not_in {X} n y c w :
  wf_but X w -> h_nicks (w_heap w) !! n = Some y ->
  (forall u x, u ∈ channels y -> h_cus (w_heap w) !! u = Some x -> cu_chan x <> c) -> off n c w.
Proof.
  intros W Hn Hno u x Hx [<- <-].
  destruct (l_cu _ (wf_links _ W) u (cu_nick x) (cu_chan x)) as [(l & Hl & Hin) _].
  { cbn. by rewrite lookup_fmap, Hx. }
  cbn in Hl. rewrite lookup_fmap, Hn in Hl. cbn in Hl. injection Hl as <-.
  by apply (Hno u x).
Qed.

(** [delUser] once the nick has dropped [u]. *)
Lemma wp_delUser_leave rm c n m u y ch (Q : world -> Prop) w w1 :
  wf w -> at_ (w_heap w) n y c ch u -> w_irc w1 = w_irc w ->
  w_heap w1 = up_h_nicks (insert n (with_channels y (but u (channels y)))) (w_heap w) ->
  quiet_msg (w_heap w) u m ->
  (forall w', w_irc w' = w_irc w -> w_heap w' = leave_heap n y c ch u (w_heap w) ->
     match ch_kind ch, nk_kind y with
     | KConversation _ _ _, KChatBuddy _ _ => safe (rm (nk_name y)) (fun _ => Q) w'
     | _, _ => Q w'
     end) ->
  safe (delUser_with rm c n m) (fun _ => Q) w1.
Proof.
  intros W A Hi Hh Hm HQ. destruct (at_chan_ok _ _ _ _ _ _ W ltac:(done) A) as [Hc ND Hin Hal Hcv].
  assert (Hup : forall i, is_Some (h_nicks (w_heap w) !! i) -> is_Some (h_nicks (w_heap w1) !! i)).
  { intros i Hs. rewrite Hh. cbn. destruct (decide (n = i)) as [->|]; [by rewrite lookup_insert_eq|].
    by rewrite lookup_insert_ne. }
  eapply (wp_delUser_with rm c n m u ch (with_channels y (but u (channels y)))).
  - split; [by rewrite Hh|done|done| |done].
    intros v Hv. destruct (Hal v Hv) as (x & Hx & Hs & Hiff). exists x.
    split; [by rewrite Hh|]. split; [by apply Hup|done].
  - rewrite Hh. apply lookup_insert_eq.
  - destruct Hm as [?|[? [Hs Hr]]]; [by left|right]. split; [done|].
    assert (He : forall e, end_ok (w_heap w) u e -> end_ok (w_heap w1) u e).
    { intros []; cbn; [apply Hup| |by rewrite Hh..].
      intros [Hne (x & Hx & Hs')]. split; [done|]. exists x. split; [by rewrite Hh|by apply Hup]. }
    split; auto.
  - intros w' Hi' Hh'. apply HQ; [congruence|]. by rewrite Hh', Hh.
Qed.

(** A [ChatBuddy] that leaves its conversation is deleted through the table. *)
Definition in_table (n : nid) (y : nick) (w : world) : Prop :=
  not_chatbuddy (nk_kind y) = false -> i_users (w_irc w) !! nk_name y = Some n.

Lemma leave_done n y c ch u w w' (Q : world -> Prop) :
  wf w -> at_ (w_heap w) n y c ch u -> in_table n y w -> w_irc w' = w_irc w ->
  w_heap w' = leave_heap n y c ch u (w_heap w) ->
  (forall w', wf w' -> off n c w' -> i_user (w_irc w') = i_user (w_irc w) -> Q w') ->
  match ch_kind ch, nk_kind y with
  | KConversation _ _ _, KChatBuddy _ _ => safe (removeNick (nk_name y)) (fun _ => Q) w'
  | _, _ => Q w'
  end.
Proof.
  intros W A T Hi Hh HQ. assert (W' : wf w') by (by eapply wf_leave).
  assert (Hq : Q w') by (apply HQ; [done|by apply (off_leave (X := None) n y c ch u w)|by rewrite Hi]).
  destruct (ch_kind ch); [done|]. destruct (nk_kind y) eqn:Ek; try done.
  unfold in_table in T. rewrite Ek in T. specialize (T eq_refl).
  assert (Hu : n <> i_user (w_irc w)).
  { intros ->. destruct (wf_user _ W) as (x & p & l & b & Hx & Hk').
    rewrite (at_nick _ _ _ _ _ _ A) in Hx. simplify_eq. congruence. }
  eapply wp_mono; [apply (wp_removeNick _ n); [done|by rewrite Hi|by rewrite Hi]| |done].
  intros ? w2 (W2 & Hn & _ & Hu2 & _). apply HQ; [done| |congruence].
  intros v x Hx [E _]. by eapply (wf_no_user w2 n v x).
Qed.


Lemma but_middle u l1 l2 : NoDup (l1 ++ u :: l2) -> but u (l1 ++ u :: l2) = l1 ++ l2.
Proof.
  intros (ND1 & Hdis & [Hu _]%NoDup_cons)%NoDup_app. rewrite but_app, but_head by done.
  f_equal. apply but_not_in. intros H. apply (Hdis u H). left.
Qed.

Lemma nick_nodup w n y : wf w -> h_nicks (w_heap w) !! n = Some y -> NoDup (channels y).
Proof.
  intros W Hn. destruct (l_nick _ (wf_links _ W) n (channels y)) as [ND _]; [|done].
  cbn. by rewrite lookup_fmap, Hn.
Qed.

(** The end of [delUser] for a nick on its way out of a channel. *)
Definition deleted_from (n : nid) (y : nick) (ch : channel) (Q : world -> Prop) (w : world) : Prop :=
  match ch_kind ch, nk_kind y with
  | KConversation _ _ _, KChatBuddy _ _ => safe (removeNick (nk_name y)) (fun _ => Q) w
  | _, _ => Q w
  end.

Lemma wp_part_loop n c m y (Q : world -> Prop) rest kept w :
  wf w -> h_nicks (w_heap w) !! n = Some y -> channels y = kept ++ rest ->
  (forall u x, u ∈ kept -> h_cus (w_heap w) !! u = Some x -> cu_chan x <> c) ->
  Msg.cmd m <> "PRIVMSG" -> (forall u, ends_ok (w_heap w) u m) ->
  (off n c w -> Q w) ->
  (forall ch u w', at_ (w_heap w) n y c ch u -> w_irc w' = w_irc w ->
     w_heap w' = leave_heap n y c ch u (w_heap w) -> deleted_from n y ch Q w') ->
  safe (part_loop n c m kept rest) (fun _ => Q) w.
Proof.
  intros W Hn Hl Hno Hm Hends HQ1 HQ2. revert kept Hl Hno.
  induction rest as [|u rest IH]; intros kept Hl Hno.
  { apply wp_ret, HQ1. eapply off_not_in; [done|done|]. rewrite Hl, app_nil_r. exact Hno. }
  destruct (at_of_nick w n y u W Hn) as (x & ch & Hx & Hc & A).
  { rewrite Hl. apply elem_of_app. right. left. }
  cbn [part_loop]. apply wp_bind. eapply wp_get_cu; [done|].
  destruct (Nat.eqb_spec (cu_chan x) c) as [<-|Hne].
  - apply wp_bind. eapply wp_get_nick; [done|]. apply wp_bind, wp_put. set (w1 := on_heap _ w).
    assert (Hbut : but u (channels y) = kept ++ rest).
    { rewrite Hl. apply but_middle. rewrite <- Hl. by eapply nick_nodup. }
    assert (Hh1 : w_heap w1 = up_h_nicks (insert n (with_channels y (but u (channels y)))) (w_heap w))
      by (unfold w1; by rewrite Hbut).
    assert (H1 : forall u, ends_ok (w_heap w1) u m).
    { intros v. destruct (Hends v) as [Hs Hr].
      assert (He : forall e, end_ok (w_heap w) v e -> end_ok (w_heap w1) v e).
      { assert (Hup : forall i, is_Some (h_nicks (w_heap w) !! i) -> is_Some (h_nicks (w_heap w1) !! i)).
        { intros i Hs'. rewrite Hh1. cbn. destruct (decide (n = i)) as [->|]; [by rewrite lookup_insert_eq|].
          by rewrite lookup_insert_ne. }
        intros []; cbn; [apply Hup| |done..].
        intros [Hne (z & Hz & Hs')]. split; [done|]. exists z. split; [done|by apply Hup]. }
      split; auto. }
    apply wp_bind, wp_send; [rewrite Hh1; cbn; by rewrite lookup_insert_eq|by eapply (ends_alive _ u)|done| |done].
    intros w2 (Hh2 & Hi2 & _).
    unfold delUser. apply (wp_delUser_leave removeNick (cu_chan x) n m u y ch Q w w2 W A).
    { exact Hi2. } { by rewrite Hh2. } { right. split; [done|]. apply Hends. }
    intros w' Hi' Hh'. by apply (HQ2 ch u w').
  - apply IH; [by rewrite <- app_assoc|].
    intros v z [Hv| ->%list_elem_of_singleton]%elem_of_app Hz; [by apply (Hno v)|congruence].
Qed.

Lemma wp_part_with n c text y (Q : world -> Prop) w :
  wf w -> h_nicks (w_heap w) !! n = Some y -> is_Some (h_chans (w_heap w) !! c) ->
  (off n c w -> Q w) ->
  (forall ch u w', at_ (w_heap w) n y c ch u -> w_irc w' = w_irc w ->
     w_heap w' = leave_heap n y c ch u (w_heap w) -> deleted_from n y ch Q w') ->
  safe (part n c text) (fun _ => Q) w.
Proof.
  intros W Hn Hc HQ1 HQ2. unfold part. apply wp_bind, wp_mkmsg; [|cbn; lia]. apply wp_bind.
  eapply wp_get_nick; [done|]. apply (wp_part_loop n c _ y Q); try done.
  - intros u x H. by apply not_elem_of_nil in H.
  - intros u. split; intros e [= <-]; cbn; [by rewrite Hn|done].
Qed.

(** [Nick::part]. *)
Lemma wp_part n c text y w :
  wf w -> h_nicks (w_heap w) !! n = Some y -> in_table n y w ->
  is_Some (h_chans (w_heap w) !! c) ->
  safe (part n c text)
    (fun _ w' => wf w' /\ off n c w' /\ i_user (w_irc w') = i_user (w_irc w)) w.
Proof.
  intros W Hn T Hc. eapply wp_part_with; [done|done|done|done|]. intros ch u w' A Hi Hh.
  by apply (leave_done n y c ch u w w'
    (fun w' => wf w' /\ off n c w' /\ i_user (w_irc w') = i_user (w_irc w))).
Qed.

(** Of a nick which is not a [ChatBuddy]: nothing but its channels changes. *)
Lemma wp_part_left n c text y w :
  wf w -> h_nicks (w_heap w) !! n = Some y -> not_chatbuddy (nk_kind y) = true ->
  is_Some (h_chans (w_heap w) !! c) ->
  safe (part n c text) (fun _ w' => wf w' /\ off n c w' /\ left_only n w w') w.
Proof.
  intros W Hn Hk Hc. eapply wp_part_with; [done|done|done|done|]. intros ch u w' A Hi Hh.
  assert (H : wf w' /\ off n c w' /\ left_only n w w').
  { split; [by eapply wf_leave|]. split; [by eapply off_leave|]. by eapply left_only_leave. }
  unfold deleted_from. destruct (ch_kind ch), (nk_kind y); done.
Qed.

(** [Nick::kicked], of a nick which is not a [ChatBuddy]. *)
Lemma wp_kicked_loop n c from text rest kept y xf w :
  wf w -> h_nicks (w_heap w) !! n = Some y -> channels y = kept ++ rest ->
  not_chatbuddy (nk_kind y) = true -> h_cus (w_heap w) !! from = Some xf -> cu_nick xf <> n ->
  (forall u x, u ∈ kept -> h_cus (w_heap w) !! u = Some x -> cu_chan x <> c) ->
  safe (kicked_loop n c from text kept rest) (fun _ w' => wf w' /\ off n c w') w.
Proof.
  revert kept y w. induction rest as [|u rest IH]; intros kept y w W Hn Hl Hk Hf Hfn Hno.
  { apply wp_ret. split; [done|]. eapply off_not_in; [done|done|].
    rewrite Hl, app_nil_r. exact Hno. }
  destruct (at_of_nick w n y u W Hn) as (x & ch & Hx & Hc & A).
  { rewrite Hl. apply elem_of_app. right. left. }
  cbn [kicked_loop]. apply wp_bind. eapply wp_get_cu; [done|].
  destruct (Nat.eqb_spec (cu_chan x) c) as [<-|Hne].
  - apply wp_bind. eapply wp_get_nick; [done|]. apply wp_bind, wp_put. set (w1 := on_heap _ w).
    assert (Hbut : but u (channels y) = kept ++ rest).
    { rewrite Hl. apply but_middle. rewrite <- Hl. by eapply nick_nodup. }
    assert (Hfu : from <> u).
    { intros ->. destruct (at_cu _ _ _ _ _ _ A) as (x' & Hx' & En & _). congruence. }
    assert (Hfa : is_Some (h_nicks (w_heap w) !! cu_nick xf)).
    { destruct (l_cu _ (wf_links _ W) from (cu_nick xf) (cu_chan xf)) as [(l & Hl' & _) _].
      { cbn. by rewrite lookup_fmap, Hf. }
      cbn in Hl'. rewrite lookup_fmap in Hl'. by destruct (h_nicks (w_heap w) !! cu_nick xf). }
    apply wp_bind, safe_mkmsg. intros args. set (m := Msg.Message _ _ _ _).
    apply wp_bind. unfold delUser.
    apply (wp_delUser_leave removeNick (cu_chan x) n m u y ch
      (fun w' => safe (kicked_loop n (cu_chan x) from text kept rest)
        (fun _ w' => wf w' /\ off n (cu_chan x) w') w') w w1 W A); [done|by rewrite Hbut| |].
    { right. split; [done|]. split; intros e [= <-]; [|by exists ch].
      split; [done|]. by exists xf. }
    intros w' Hi' Hh'. assert (W' : wf w') by (by eapply wf_leave).
    assert (Hgo : safe (kicked_loop n (cu_chan x) from text kept rest)
              (fun _ w' => wf w' /\ off n (cu_chan x) w') w').
    { apply (IH kept (with_channels y (but u (channels y)))); [done| |exact Hbut|done| |done|].
      - rewrite Hh'. apply lookup_insert_eq.
      - rewrite Hh'. cbn. by rewrite lookup_delete_ne by done.
      - intros v z Hv Hz. rewrite Hh' in Hz. cbn in Hz. apply lookup_delete_Some in Hz as [_ Hz].
        by apply (Hno v). }
    destruct (ch_kind ch); [exact Hgo|]. by destruct (nk_kind y).
  - eapply IH; [done|done| |done|done|done|].
    + by rewrite <- app_assoc.
    + intros v z [Hv| ->%list_elem_of_singleton]%elem_of_app Hz; [by apply (Hno v)|congruence].
Qed.

Lemma wp_kicked n c from text y xf w :
  wf w -> h_nicks (w_heap w) !! n = Some y -> not_chatbuddy (nk_kind y) = true ->
  h_cus (w_heap w) !! from = Some xf -> cu_nick xf <> n ->
  safe (kicked n c from text) (fun _ w' => wf w' /\ off n c w') w.
Proof.
  intros W Hn Hk Hf Hfn. unfold kicked. apply wp_bind. eapply wp_get_nick; [done|].
  eapply wp_kicked_loop; try done. intros u x H. by apply not_elem_of_nil in H.
Qed.
End Leave.
End Leave.

Module Join.
Import View Wf Leave Mode.
Section Join.
Context {env : Env}.

Lemma mode_loop_cases {E} l modes name acc (m : Msg.message E) :
  mode_loop l modes name acc m = Throw MalformedMessage
  \/ exists acc' t, mode_loop l modes name acc m = Ret (acc', Msg.with_args m (Msg.args m ++ t)).
Proof.
  revert acc m. induction l as [|[[md c] pf] l IH]; intros acc m; cbn.
  { right. exists acc, []. rewrite app_nil_r. by destruct m. }
  destruct (negb (Z.land md modes =? 0)); [|apply IH]. unfold Msg.addArg.
  destruct (Msg.back_has_space (Msg.args m)); [by left|]. cbn.
  destruct (IH (acc +:+ String c "") (Msg.with_args m (Msg.args m ++ [name])))
    as [->|(acc' & t & ->)]; [by left|].
  right. exists acc', (name :: t). cbn. by rewrite <- app_assoc.
Qed.

(** [getModeMessage] fails only with [MalformedMessage]. *)
Lemma getModeMessage_cases {E} name status add modes :
  getModeMessage (E := E) name status add modes = Throw MalformedMessage
  \/ exists l, getModeMessage (E := E) name status add modes = Ret (Msg.with_args (Msg.mk "MODE") l).
Proof.
  unfold getModeMessage. cbn [Msg.addArg Msg.args Msg.mk Msg.back_has_space last obind].
  unfold Msg.addArg. cbn.
  destruct (mode_loop_cases (E := E) m2c (if modes =? 0 then status else modes) name
    (if add then "+" else "-") (Msg.with_args (Msg.mk "MODE") [if add then "+" else "-"]))
    as [H|(acc & t & H)]; setoid_rewrite H; [by left|]. cbn.
  unfold Msg.setArg. cbn. destruct (_ && _); [by left|right; eauto].
Qed.

(** ** Broadcasts *)

Lemma wp_chan_broadcast c ch m b (Q : unit -> world -> Prop) w :
  wf w -> h_chans (w_heap w) !! c = Some ch -> Msg.cmd m <> "PRIVMSG" ->
  msg_alive (w_heap w) m -> (forall w', io_only w w' -> Q tt w') ->
  safe (chan_broadcast c m b) Q w.
Proof.
  intros W Hc Hm Hal HQ. unfold chan_broadcast. apply wp_bind. eapply wp_get_chan; [done|].
  eapply wp_mono; [apply (wp_mapM_ _ _ (io_only w) (fun _ _ => True)); [done|]| |done].
  - intros u w1 Hu Hio. destruct Hio as (Hh & Hi & Ht).
    destruct (chan_users _ c ch u (wf_links _ W) Hc Hu) as (x & z & Hx & _ & Hz & _).
    apply wp_bind. eapply wp_get_cu; [by rewrite Hh|]. apply wp_when; intros _; [|done].
    eapply wp_send_cu; [by rewrite Hh|rewrite Hh, Hz; done|by rewrite Hh|done| |done].
    intros w2 Hio2. etrans; [|exact Hio2]. done.
  - intros [] w' Hio. by apply HQ.
Qed.

Lemma wp_broadcast c ch m b (Q : unit -> world -> Prop) w :
  wf w -> h_chans (w_heap w) !! c = Some ch -> Msg.cmd m <> "PRIVMSG" ->
  msg_alive (w_heap w) m -> (forall w', io_only w w' -> Q tt w') ->
  safe (broadcast c m b) Q w.
Proof.
  intros W Hc Hm Hal HQ. unfold broadcast. apply wp_bind. eapply wp_get_chan; [done|].
  destruct (ch_kind ch); [by eapply wp_chan_broadcast|]. apply wp_bind, wp_bind, wp_get, wp_ret.
  rewrite (proj2 (String.eqb_neq _ _) Hm). cbn. by eapply wp_chan_broadcast.
Qed.

(** ** Modes *)

Lemma wf_put_cu w w' u x st :
  wf w -> h_cus (w_heap w) !! u = Some x -> w_irc w' = w_irc w ->
  w_heap w' = up_h_cus (insert u (with_status x st)) (w_heap w) -> wf w'.
Proof.
  intros W Hx Hi Hh.
  assert (Hv : view_of (w_heap w') = view_of (w_heap w)).
  { rewrite Hh. unfold view_of. cbn. f_equal. rewrite fmap_insert. apply insert_id.
    by rewrite lookup_fmap, Hx. }
  split; rewrite ?Hv, ?Hi; [apply W|..]; rewrite ?Hh; cbn; apply W.
Qed.

(** The server signs the change, named or not. *)
Definition by_server (w : world) (s : option ent) : Prop :=
  forall e, s = Some e -> e = EServer (i_self (w_irc w)).

Lemma wp_changeMode add f c s modes cu x ch w :
  wf w -> h_cus (w_heap w) !! cu = Some x -> h_chans (w_heap w) !! c = Some ch -> by_server w s ->
  safe (changeMode add f c s modes cu)
    (fun _ w' => wf w' /\ w_irc w' = w_irc w
       /\ w_heap w' = up_h_cus (insert cu (with_status x
            (if modes =? 0 then cu_status x else f (cu_status x) modes))) (w_heap w)) w.
Proof.
  intros W Hx Hc Hs. unfold changeMode. destruct (modes =? 0).
  { apply wp_ret. split; [done|]. split; [done|]. destruct (w_heap w) eqn:E. unfold up_h_cus. cbn in *.
    f_equal. symmetry. apply insert_id. by destruct x. }
  apply wp_bind. eapply wp_get_cu; [done|]. apply wp_bind, wp_put.
  set (w1 := on_heap _ w). set (x' := with_status x _).
  assert (W1 : wf w1) by (by eapply (wf_put_cu w)).
  destruct (l_cu _ (wf_links _ W) cu (cu_nick x) (cu_chan x)) as [(l & Hl & _) _].
  { cbn. by rewrite lookup_fmap, Hx. }
  cbn in Hl. rewrite lookup_fmap in Hl. destruct (h_nicks (w_heap w) !! cu_nick x) as [y|] eqn:Hy; [|done].
  apply wp_bind. unfold cu_nickname. apply wp_bind. eapply wp_get_cu; [apply lookup_insert_eq|].
  apply wp_bind. eapply wp_get_nick; [exact Hy|]. apply wp_ret, wp_bind.
  unfold lift, wp. destruct (getModeMessage_cases (E := ent) (nk_name y) (f (cu_status x) modes) add modes)
    as [->|[a ->]]; [done|].
  apply wp_bind, wp_bind, wp_bind, wp_get, wp_ret, wp_ret.
  eapply wp_broadcast; [exact W1|exact Hc|done| |].
  - split; intros e [= <-]; cbn; [|by rewrite Hc].
    replace (default _ s) with (EServer (i_self (w_irc w)))
      by (destruct s as [e|]; [by rewrite (Hs e)|done]).
    destruct (wf_self _ W) as [sv Hsv]. cbn. by rewrite Hsv.
  - intros w' Hio. split; [by apply (wf_io_stable w1)|]. destruct Hio as (Hh & Hi & _).
    split; [by rewrite Hi|by rewrite Hh].
Qed.

Lemma status_diff l s : Z.lor (Z.ldiff l (Z.ldiff l s)) (Z.ldiff s l) = s.
Proof.
  apply Z.bits_inj'. intros n Hn. rewrite Z.lor_spec, !Z.ldiff_spec.
  by destruct (Z.testbit l n), (Z.testbit s n).
Qed.

(** ** Coming on a channel *)

(** Every channel user of [l] is there, and its nick too. *)
Definition all_there (h : heap) (l : list uid) : Prop :=
  forall u, u ∈ l -> exists x, h_cus h !! u = Some x /\ is_Some (h_nicks h !! cu_nick x).

Lemma wp_cu_nickname u x y (Q : string -> world -> Prop) w :
  h_cus (w_heap w) !! u = Some x -> h_nicks (w_heap w) !! cu_nick x = Some y ->
  Q (nk_name y) w -> safe (cu_nickname u) Q w.
Proof.
  intros Hx Hy HQ. apply wp_bind. eapply wp_get_cu; [done|]. apply wp_bind.
  by eapply wp_get_nick.
Qed.

Lemma wp_names_loop l acc (Q : string -> world -> Prop) w :
  all_there (w_heap w) l -> (forall s, Q s w) -> safe (names_loop l acc) Q w.
Proof.
  intros Hal HQ. revert acc. induction l as [|u l IH]; intros acc; [apply wp_ret, HQ|].
  destruct (Hal u) as (x & Hx & [y Hy]); [left|]. cbn [names_loop]. apply wp_bind.
  eapply wp_get_cu; [done|]. apply wp_bind. eapply wp_cu_nickname; [done..|].
  apply IH. intros v Hv. apply Hal. by right.
Qed.

Lemma wp_sendNames c ch n (Q : unit -> world -> Prop) w :
  h_chans (w_heap w) !! c = Some ch -> all_there (w_heap w) (users ch) ->
  is_Some (h_nicks (w_heap w) !! n) -> is_Some (h_servers (w_heap w) !! i_self (w_irc w)) ->
  (forall w', io_only w w' -> Q tt w') -> safe (sendNames c n) Q w.
Proof.
  intros Hc Hal Hn Hs HQ. unfold sendNames. apply wp_bind. eapply wp_get_chan; [done|].
  apply wp_bind, wp_names_loop; [done|]. intros names.
  apply wp_bind, wp_bind, wp_bind, wp_get, wp_ret, wp_ret.
  assert (Hends : forall l code, msg_alive (w_heap w)
    (Msg.Message code (Msg.SE (Some (EServer (i_self (w_irc w)))) "") (Msg.SE (Some (ENick n)) "") l)).
  { intros l code. split; intros e [= <-]; by apply fmap_is_Some. }
  apply wp_bind, safe_mkmsg. intros l. apply wp_bind, wp_send; [done|apply Hends|done| |done].
  intros w1 (Hh & Hi & Ht). apply wp_bind, safe_mkmsg. intros l'.
  apply wp_send; [by rewrite Hh|rewrite Hh; apply Hends|done| |done].
  intros w2 Hio. apply HQ. by etrans; [|exact Hio].
Qed.

Lemma wp_announce_join c n cu st u ch me (Q : unit -> world -> Prop) w :
  h_chans (w_heap w) !! c = Some ch -> is_Some (h_nicks (w_heap w) !! n) ->
  is_Some (h_servers (w_heap w) !! i_self (w_irc w)) ->
  h_cus (w_heap w) !! cu = Some me -> cu_nick me = n -> all_there (w_heap w) [u] ->
  (forall w', io_only w w' -> Q tt w') -> safe (announce_join c n cu st u) Q w.
Proof.
  intros Hc [y Hn] Hs Hme <- Hal HQ. destruct (Hal u) as (x & Hx & Hxn); [left|].
  unfold announce_join. apply wp_bind, safe_mkmsg. intros l. apply wp_bind.
  eapply wp_send_cu; [done|done| |done| |done].
  { split; intros e [= <-]; cbn; [by rewrite Hn|by rewrite Hc]. }
  intros w1 (Hh & Hi & Ht). assert (Hio : io_only w w1) by done. apply wp_bind.
  eapply wp_get_cu; [by rewrite Hh|]. apply wp_when; intros _; [|by apply HQ].
  apply wp_bind. eapply wp_get_cu; [rewrite Hh; exact Hme|]. apply wp_bind.
  eapply wp_cu_nickname; [rewrite Hh; exact Hme|by rewrite Hh|].
  apply wp_bind. unfold lift, wp.
  destruct (getModeMessage_cases (E := ent) (nk_name y) (cu_status me) true 0) as [->|[a ->]]; [done|].
  apply wp_bind, wp_bind, wp_get, wp_ret.
  eapply wp_send_cu; [by rewrite Hh|by rewrite Hh| |done| |done].
  - rewrite Hh, Hi. split; intros e [= <-]; cbn; [by apply fmap_is_Some|by rewrite Hc].
  - intros w2 Hio2. apply HQ. by etrans; [|exact Hio2].
Qed.

Lemma wp_getTopic c ch (Q : string -> world -> Prop) w :
  h_chans (w_heap w) !! c = Some ch ->
  (forall ce up cb, ch_kind ch = KConversation ce up cb -> is_Some (conv ce)) ->
  (forall t, Q t w) -> safe (getTopic c) Q w.
Proof.
  intros Hc Hk HQ. apply wp_bind. eapply wp_get_chan; [done|].
  destruct (ch_kind ch) as [|ce up cb]; [by apply wp_ret|].
  destruct (Hk _ _ _ eq_refl) as [v ->]. by apply wp_bind, wp_ask, wp_ret.
Qed.

(** The heap after [Channel::addUser]. *)
Definition added (c : cid) (ch : channel) (n : nid) (y : nick) (st : Z) (h : heap) : heap :=
  up_h_chans (insert c (with_users ch (users ch ++ [h_next h])))
    (up_h_cus (insert (h_next h) (ChanUser (nk_name y) n c st)) (up_h_next S h)).

Lemma wp_addUser c n st ch y (Q : uid -> world -> Prop) w :
  wf w -> h_chans (w_heap w) !! c = Some ch -> h_nicks (w_heap w) !! n = Some y ->
  (forall w', w_irc w' = w_irc w -> w_heap w' = added c ch n y st (w_heap w) ->
     Q (h_next (w_heap w)) w') ->
  safe (addUser c n st) Q w.
Proof.
  intros W Hc Hn HQ. unfold addUser. apply wp_bind. eapply wp_get_nick; [done|].
  apply wp_bind, wp_bind, wp_get, wp_bind, wp_put, wp_ret, wp_bind, wp_put, wp_bind.
  eapply wp_get_chan; [done|]. apply wp_bind, wp_put. set (w1 := on_heap _ (on_heap _ _)).
  assert (Hh1 : w_heap w1 = added c ch n y st (w_heap w)) by done.
  assert (Hc1 : h_chans (w_heap w1) !! c = Some (with_users ch (users ch ++ [h_next (w_heap w)])))
    by apply lookup_insert_eq.
  assert (Hn1 : h_nicks (w_heap w1) !! n = Some y) by exact Hn.
  assert (Hs1 : is_Some (h_servers (w_heap w1) !! i_self (w_irc w1))) by apply (wf_self _ W).
  assert (Hme : h_cus (w_heap w1) !! h_next (w_heap w) = Some (ChanUser (nk_name y) n c st))
    by apply lookup_insert_eq.
  assert (Hal : all_there (w_heap w1) (users ch ++ [h_next (w_heap w)])).
  { intros u [Hu| ->%list_elem_of_singleton]%elem_of_app; [|eexists; split; [exact Hme|by exists y]].
    destruct (chan_users _ c ch u (wf_links _ W) Hc Hu) as (x & z & Hx & _ & Hz & _).
    exists x. split; [|by eexists]. cbn. rewrite lookup_insert_ne; [done|]. intros <-.
    pose proof (l_fresh _ (wf_links _ W) (h_next (w_heap w)) ltac:(cbn; lia)) as Hf.
    cbn in Hf. by rewrite lookup_fmap, Hx in Hf. }
  apply wp_bind. eapply wp_mono; [apply (wp_mapM_ _ _ (io_only w1) (fun _ _ => True)); [done|]| |done].
  { intros u w2 Hu (Hh2 & Hi2 & Ht2).
    eapply wp_announce_join; rewrite ?Hh2, ?Hi2; [exact Hc1|by rewrite Hn1|done|exact Hme|done| |].
    - intros v ->%list_elem_of_singleton. by apply Hal.
    - intros w3 Hio. by etrans; [|exact Hio]. }
  intros ? w2 (Hh2 & Hi2 & Ht2). apply wp_bind. eapply wp_getTopic; [rewrite Hh2; exact Hc1| |].
  { intros ce up cb Hk. by apply (wf_conv _ W c ch ce up cb). }
  intros t. apply wp_bind, wp_bind, wp_bind, wp_get, wp_ret, wp_ret, wp_bind.
  assert (Hend : forall w3, io_only w2 w3 -> safe (sendNames c n;; ret (h_next (w_heap w))) Q w3).
  { intros w3 (Hh3 & Hi3 & _). apply wp_bind.
    eapply wp_sendNames; rewrite ?Hh3, ?Hh2, ?Hi3, ?Hi2; [exact Hc1|exact Hal|by rewrite Hn1|done|].
    intros w4 (Hh4 & Hi4 & _). apply wp_ret, HQ; [by rewrite Hi4, Hi3, Hi2|by rewrite Hh4, Hh3, Hh2]. }
  apply wp_when; intros _; [|by apply Hend]. apply wp_bind, safe_mkmsg. intros l.
  apply wp_send; rewrite ?Hh2, ?Hi2; [by rewrite Hn1| |done|exact Hend|done].
  split; intros e [= <-]; cbn; apply fmap_is_Some; [done|by exists y].
Qed.

Lemma wp_find_chan c l (P : uid -> chanuser -> Prop) (Q : option uid -> world -> Prop) w :
  (forall u, u ∈ l -> exists x, h_cus (w_heap w) !! u = Some x /\ P u x) ->
  (forall u x, h_cus (w_heap w) !! u = Some x -> P u x -> cu_chan x = c -> Q (Some u) w) ->
  ((forall u x, u ∈ l -> h_cus (w_heap w) !! u = Some x -> cu_chan x <> c) -> Q None w) ->
  safe (find_chan c l) Q w.
Proof.
  induction l as [|u l IH]; intros Hal Hs Hnone.
  { apply wp_ret, Hnone. intros u x H. by apply not_elem_of_nil in H. }
  destruct (Hal u) as (x & Hx & HP); [left|]. cbn [find_chan]. apply wp_bind.
  eapply wp_get_cu; [done|]. destruct (Nat.eqb_spec (cu_chan x) c); [by eapply wp_ret, Hs|].
  apply IH; [intros v Hv; apply Hal; by right|done|]. intros Hl. apply Hnone.
  intros v z [->|Hv]%elem_of_cons Hz; [congruence|by eapply Hl].
Qed.

Lemma wp_nick_getChanUser n c y (Q : option uid -> world -> Prop) w :
  wf w -> h_nicks (w_heap w) !! n = Some y ->
  (forall u x, h_cus (w_heap w) !! u = Some x -> cu_nick x = n -> cu_chan x = c -> Q (Some u) w) ->
  ((forall u x, u ∈ channels y -> h_cus (w_heap w) !! u = Some x -> cu_chan x <> c) -> Q None w) ->
  safe (nick_getChanUser n c) Q w.
Proof.
  intros W Hn Hs Hnone. apply wp_bind. eapply wp_get_nick; [done|].
  apply (wp_find_chan _ _ (fun u x => cu_nick x = n)); [|done|done].
  intros u Hu. destruct (nick_users _ n y u (wf_links _ W) Hn Hu) as (x & _ & Hx & En & _).
  by exists x.
Qed.

Lemma wf_join w w' n y c ch st :
  wf w -> h_chans (w_heap w) !! c = Some ch -> h_nicks (w_heap w) !! n = Some y -> off n c w ->
  w_irc w' = w_irc w ->
  w_heap w' = up_h_nicks (insert n (with_channels y (channels y ++ [h_next (w_heap w)])))
                (added c ch n y st (w_heap w)) -> wf w'.
Proof.
  intros W Hc Hn Hoff Hi Hh.
  assert (Hv : view_of (w_heap w') = v_join n c (channels y) (users ch) (view_of (w_heap w))).
  { rewrite Hh. unfold view_of, v_join. cbn. by rewrite !fmap_insert. }
  split; rewrite ?Hi, ?Hv; [|rewrite ?Hh; cbn..]; try apply W.
  - apply links_join; [apply W|cbn; by rewrite lookup_fmap, ?Hn, ?Hc..|].
    intros u. cbn. rewrite lookup_fmap. destruct (h_cus (w_heap w) !! u) as [x|] eqn:Hx; [|done].
    intros [= E1 E2]. by apply (Hoff u x).
  - intros i Hlt. destruct (wf_fresh _ W i) as (H1 & H2 & H3); [lia|].
    rewrite !lookup_insert_ne by congruence. done.
  - intros n' x [[<- <-]|[Hne H]]%lookup_insert_cases; cbn; by eapply (wf_server _ W).
  - intros c' ch' ce up cb [[<- <-]|[Hne H]]%lookup_insert_cases Hk HX; [|by eapply (wf_conv _ W)].
    destruct (wf_conv _ W _ _ _ _ _ Hc Hk ltac:(done)) as (H1 & H2 & H3). do 2 (split; [done|]). cbn.
    intros u Hu. apply elem_of_app. left. auto.
  - destruct (wf_user _ W) as (x & p & l & b & Hx & Hk).
    destruct (decide (n = i_user (w_irc w))) as [->|Hne].
    + rewrite lookup_insert_eq. rewrite Hx in Hn. simplify_eq. by eexists _, p, l, b.
    + rewrite lookup_insert_ne by done. by exists x, p, l, b.
  - intros k n' Hk. destruct (wf_table _ W _ _ Hk) as (x & Hx & Hnm).
    destruct (decide (n = n')) as [<-|Hne].
    + rewrite lookup_insert_eq. rewrite Hx in Hn. simplify_eq. by eexists.
    + rewrite lookup_insert_ne by done. by exists x.
  - intros k c' Hk. destruct (wf_ctable _ W _ _ Hk) as (x & Hx & Hnm).
    destruct (decide (c = c')) as [<-|Hne].
    + rewrite lookup_insert_eq. rewrite Hx in Hc. simplify_eq. by eexists.
    + rewrite lookup_insert_ne by done. by exists x.
  - intros n' x ce [[<- <-]|[Hne H]]%lookup_insert_cases; cbn; by eapply (wf_unknown _ W).
Qed.

(** What [delMode] and [setMode] leave of the last status. *)
Lemma status_after l s :
  (if Z.ldiff s l =? 0 then (if Z.ldiff l s =? 0 then l else Z.ldiff l (Z.ldiff l s))
   else Z.lor (if Z.ldiff l s =? 0 then l else Z.ldiff l (Z.ldiff l s)) (Z.ldiff s l)) = s.
Proof.
  pose proof (status_diff l s) as H.
  destruct (Z.eqb_spec (Z.ldiff s l) 0) as [E|_]; destruct (Z.eqb_spec (Z.ldiff l s) 0) as [E'|_];
    rewrite ?E, ?E', ?Z.ldiff_0_r, ?Z.lor_0_r in H; done.
Qed.

(** What joining changes: the nick is on the channel with the status, the classes of
    the channels and of the nicks are those there were. *)
Definition face (x : nick) : string * sid * nick_kind := (nk_name x, nk_server x, nk_kind x).
Record came (n : nid) (c : cid) (st : Z) (w : world) (cu : uid) (w' : world) : Prop := {
  ca_wf : wf w';
  ca_irc : w_irc w' = w_irc w;
  ca_on : exists x, h_cus (w_heap w') !! cu = Some x
    /\ cu_nick x = n /\ cu_chan x = c /\ cu_status x = st;
  ca_servers : h_servers (w_heap w') = h_servers (w_heap w);
  ca_kinds : forall c', ch_kind <$> h_chans (w_heap w') !! c' = ch_kind <$> h_chans (w_heap w) !! c';
  ca_nicks : forall n', face <$> h_nicks (w_heap w') !! n' = face <$> h_nicks (w_heap w) !! n';
  ca_cus : forall u, u <> cu -> h_cus (w_heap w') !! u = h_cus (w_heap w) !! u;
  ca_old : forall x, h_cus (w_heap w) !! cu = Some x -> cu_nick x = n /\ cu_chan x = c }.

(** The nick is there already: only its status changes. *)
Lemma wp_rejoin u x st ch w :
  wf w -> h_cus (w_heap w) !! u = Some x -> h_chans (w_heap w) !! cu_chan x = Some ch ->
  safe (when (negb (cu_status x =? st))
          (delMode (cu_chan x) None (Z.ldiff (cu_status x) st) u;;
           setMode (cu_chan x) None (Z.ldiff st (cu_status x)) u))
    (fun _ w' => wf w' /\ w_irc w' = w_irc w
       /\ w_heap w' = up_h_cus (insert u (with_status x st)) (w_heap w)) w.
Proof.
  intros W Hx Hc. apply wp_when.
  - intros _. apply wp_bind. eapply wp_mono; [by eapply wp_changeMode| |done].
    intros ? w1 (W1 & Hi1 & Hh1).
    eapply wp_mono; [eapply wp_changeMode; [done| | |done]| |done].
    { rewrite Hh1. apply lookup_insert_eq. } { rewrite Hh1. exact Hc. }
    intros ? w2 (W2 & Hi2 & Hh2). split; [done|]. split; [congruence|].
    rewrite Hh2, Hh1. unfold up_h_cus. cbn. f_equal. rewrite insert_insert_eq. f_equal.
    unfold with_status. cbn. f_equal. apply status_after.
  - intros E. apply negb_false_iff, Z.eqb_eq in E. split; [done|]. split; [done|].
    destruct (w_heap w) eqn:Eh. unfold up_h_cus. cbn in *. f_equal. symmetry. apply insert_id.
    rewrite <- E. by destruct x.
Qed.

Lemma wp_join_came n c st ch y w :
  wf w -> h_chans (w_heap w) !! c = Some ch -> h_nicks (w_heap w) !! n = Some y ->
  safe (join n c st) (came n c st w) w.
Proof.
  intros W Hc Hn. unfold join. apply wp_bind. eapply wp_nick_getChanUser; [done|done| |].
  - intros u x Hx En Ec. subst c n. apply wp_bind. eapply wp_get_cu; [done|]. apply wp_bind.
    eapply wp_mono; [by eapply wp_rejoin| |done]. intros ? w1 (W1 & Hi1 & Hh1). apply wp_ret.
    split; try done; rewrite ?Hh1; try done.
    + eexists. split; [apply lookup_insert_eq|done].
    + intros v Hv. cbn. by rewrite lookup_insert_ne.
    + intros z Hz. by simplify_eq.
  - intros Hno. apply wp_bind. eapply wp_addUser; [done..|]. intros w1 Hi1 Hh1.
    apply wp_bind. eapply wp_get_nick; [rewrite Hh1; exact Hn|]. apply wp_bind, wp_put, wp_ret.
    split; try done; cbn; rewrite ?Hh1; cbn; try done.
    + eapply (wf_join w _ n y c ch st W Hc Hn); [by eapply off_not_in|exact Hi1|]. cbn. by rewrite Hh1.
    + eexists. by rewrite lookup_insert_eq.
    + intros c'. destruct (decide (c = c')) as [<-|Hne]; [by rewrite lookup_insert_eq, Hc|by rewrite lookup_insert_ne].
    + intros n'. destruct (decide (n = n')) as [<-|Hne]; [by rewrite lookup_insert_eq, Hn|by rewrite lookup_insert_ne].
    + intros v Hv. by rewrite lookup_insert_ne.
    + intros x Hx. pose proof (l_fresh _ (wf_links _ W) (h_next (w_heap w)) ltac:(cbn; lia)) as Hf.
      cbn in Hf. by rewrite lookup_fmap, Hx in Hf.
Qed.

(** [Nick::join]: the nick is on the channel with exactly the status asked for,
    whether it was there before or not. *)
Lemma wp_join n c st ch y w :
  wf w -> h_chans (w_heap w) !! c = Some ch -> h_nicks (w_heap w) !! n = Some y ->
  safe (join n c st)
    (fun cu w' => wf w' /\ w_irc w' = w_irc w
       /\ exists x, h_cus (w_heap w') !! cu = Some x
            /\ cu_nick x = n /\ cu_chan x = c /\ cu_status x = st) w.
Proof.
  intros W Hc Hn. eapply wp_mono; [by eapply wp_join_came| |done]. intros cu w' [W' Hi Hon _ _ _ _ _].
  done.
Qed.
End Join.
End Join.

Module Drop.
Import View Wf Leave Join.
Section Drop.
Context {env : Env}.

Lemma elem_sorted {A} (m : gmap string A) k a : (k, a) ∈ sorted m <-> m !! k = Some a.
Proof. unfold sorted. by rewrite merge_sort_Permutation, elem_of_map_to_list. Qed.

Lemma wp_first_on s l (Q : option (string * nid) -> world -> Prop) w :
  (forall k n, (k, n) ∈ l -> is_Some (h_nicks (w_heap w) !! n)) ->
  (forall k n x, (k, n) ∈ l -> h_nicks (w_heap w) !! n = Some x -> nk_server x = s ->
     Q (Some (k, n)) w) ->
  ((forall k n x, (k, n) ∈ l -> h_nicks (w_heap w) !! n = Some x -> nk_server x <> s) -> Q None w) ->
  safe (first_on s l) Q w.
Proof.
  induction l as [|[k n] l IH]; intros Hal Hs Hnone.
  { apply wp_ret, Hnone. intros k n x H. by apply not_elem_of_nil in H. }
  destruct (Hal k n) as [x Hx]; [left|]. cbn [first_on]. apply wp_bind.
  eapply wp_get_nick; [done|]. destruct (Nat.eqb_spec (nk_server x) s) as [E|E].
  - eapply wp_ret, Hs; [left|done|done].
  - apply IH.
    + intros k' n' H. apply (Hal k'). by right.
    + intros k' n' x' H. apply Hs. by right.
    + intros Hl. apply Hnone. intros k' n' x' [[= -> ->]|H]%elem_of_cons Hx';
        [congruence|by eapply Hl].
Qed.

(** Every nick of the heap is in the table. *)
Definition all_in_table (w : world) : Prop :=
  forall n, is_Some (h_nicks (w_heap w) !! n) -> exists k, i_users (w_irc w) !! k = Some n.

(** The nicks of the other servers stay, with their entries in the table, and nothing
    else enters it; the transfers are not touched. *)
Definition only_off (s : sid) (w w' : world) : Prop :=
  (forall k n x, i_users (w_irc w) !! k = Some n -> h_nicks (w_heap w) !! n = Some x -> nk_server x <> s ->
     i_users (w_irc w') !! k = Some n /\ h_nicks (w_heap w') !! n = Some x)
  /\ i_users (w_irc w') ⊆ i_users (w_irc w)
  /\ i_channels (w_irc w') = i_channels (w_irc w) /\ i_dccs (w_irc w') = i_dccs (w_irc w).

Lemma wp_remove_users fuel s w :
  wf w -> all_in_table w -> (size (i_users (w_irc w)) < fuel)%nat ->
  (forall x, h_nicks (w_heap w) !! i_user (w_irc w) = Some x -> nk_server x <> s) ->
  safe (remove_users fuel s)
    (fun _ w' => wf w' /\ i_user (w_irc w') = i_user (w_irc w) /\ i_self (w_irc w') = i_self (w_irc w)
       /\ i_servers (w_irc w') = i_servers (w_irc w)
       /\ h_servers (w_heap w') = h_servers (w_heap w)
       /\ (forall n x, h_nicks (w_heap w') !! n = Some x -> nk_server x <> s)
       /\ only_off s w w') w.
Proof.
  revert w. induction fuel as [|fuel IH]; intros w W T Hf Hu; [lia|]. cbn [remove_users].
  apply wp_bind, wp_bind, wp_get, wp_ret, wp_bind. apply wp_first_on.
  - intros k n H%elem_sorted. by eapply wf_nick_alive.
  - intros k n x H%elem_sorted Hx Es. destruct (wf_table _ W _ _ H) as (x' & Hx' & Hnm).
    rewrite Hx in Hx'. injection Hx' as <-.
    assert (Hnu : n <> i_user (w_irc w)) by (intros ->; by apply (Hu x)).
    apply wp_bind. eapply wp_mono; [by eapply wp_destroyNick| |done].
    intros ? w1 D. apply wp_bind, wp_put. set (w2 := on_irc _ w1).
    assert (Hi2 : w_irc w2 = up_i_users (delete k) (w_irc w)).
    { unfold w2. cbn. by rewrite (de_irc _ _ _ _ _ D). }
    assert (W2 : wf w2) by (eapply wf_deleted; [exact D|done|done|by rewrite Hi2, Hnm]).
    destruct (de_before _ _ _ _ _ D) as (w0 & z & _ & Hz & _ & _ & _ & Hh).
    eapply wp_mono; [apply IH; [done| | |]| |done]; rewrite ?Hi2.
    + intros n' Hn'. rewrite Hi2. cbn in *. destruct (decide (n' = n)) as [->|Hne].
      { rewrite Hh in Hn'. cbn in Hn'. rewrite lookup_delete_eq in Hn'. by destruct Hn'. }
      rewrite (de_nicks _ _ _ _ _ D) in Hn' by done. destruct (T n' Hn') as [k' Hk'].
      exists k'. rewrite lookup_delete_ne; [done|]. intros ->. congruence.
    + cbn. rewrite map_size_delete_Some by done.
      assert (size (i_users (w_irc w)) <> 0)%nat by (apply (map_size_ne_0_lookup_2 _ k); by exists n). lia.
    + cbn. intros x'. rewrite (de_nicks _ _ _ _ _ D) by done. apply Hu.
    + intros ? w3 (W3 & E1 & E2 & E3 & E4 & E5 & K1 & K2 & K3 & K4). do 4 (split; [done|]).
      split; [rewrite E4; cbn; exact (de_servers _ _ _ _ _ D)|]. split; [done|].
      rewrite Hi2 in K1, K2, K3, K4. cbn in K1, K2, K3, K4. split_and!; [|etrans; [exact K2|apply delete_subseteq]|done..].
      intros k' n' x' Hk' Hx' Es'. assert (n' <> n) by congruence.
      apply (K1 k' n' x'); [rewrite lookup_delete_ne; [done|congruence]|by rewrite (de_nicks _ _ _ _ _ D)|done].
  - intros Hno. apply wp_ret. do 5 (split; [done|]). split; [|by split_and!]. intros n x Hx.
    destruct (T n) as [k Hk]; [by rewrite Hx|]. apply (Hno k n); [|done]. by apply elem_sorted.
Qed.

Lemma wp_removeServer nm s w :
  wf w -> all_in_table w -> i_servers (w_irc w) !! nm = Some s -> s <> i_self (w_irc w) ->
  (forall x, h_nicks (w_heap w) !! i_user (w_irc w) = Some x -> nk_server x <> s) ->
  safe (removeServer nm)
    (fun _ w' => wf w' /\ i_servers (w_irc w') = delete nm (i_servers (w_irc w))
       /\ h_servers (w_heap w') !! s = None
       /\ (forall s', s' <> s -> h_servers (w_heap w') !! s' = h_servers (w_heap w) !! s')
       /\ (forall n x, h_nicks (w_heap w') !! n = Some x -> nk_server x <> s)
       /\ only_off s w w') w.
Proof.
  intros W T Hs Hself Hu. unfold removeServer. apply wp_bind, wp_get. rewrite Hs.
  destruct (wf_stable _ W _ _ Hs) as (sv & Hsv & Hnm).
  apply wp_bind. eapply wp_mono; [apply wp_remove_users; [done|done|apply Nat.lt_succ_diag_r|exact Hu]| |done].
  intros ? w1 (W1 & E1 & E2 & E3 & E4 & E5 & K). apply wp_bind, wp_put, wp_put.
  split; [|cbn; rewrite E3, E4; split; [done|]; rewrite lookup_delete_eq; split; [done|]; split;
           [intros; by rewrite lookup_delete_ne|done]].
  split; cbn; try apply W1.
  - intros i Hlt. destruct (wf_fresh _ W1 i Hlt) as (H1 & H2 & H3). do 2 (split; [done|]).
    apply lookup_delete_None. by right.
  - intros n x Hx. rewrite lookup_delete_ne; [by eapply (wf_server _ W1)|].
    intros E. by apply (E5 n x).
  - rewrite lookup_delete_ne by congruence. apply W1.
  - intros k j H. apply lookup_delete_Some in H as [Hk H].
    destruct (wf_stable _ W1 _ _ H) as (z & Hz & Hnz). exists z. split; [|done].
    rewrite lookup_delete_ne; [done|]. intros <-. rewrite E4, Hsv in Hz. congruence.
Qed.
End Drop.
End Drop.

Module DemoWf.
Import View Wf.

(** A lookup in a literal map: one goal for each of its keys. *)
Ltac map_cases H :=
  repeat (apply lookup_insert_Some in H as [[? ?]|[_ H]]; [simplify_eq|]);
  try (apply lookup_singleton_Some in H as [? ?]; simplify_eq);
  try (by rewrite lookup_empty in H).

(** Closed decidable propositions, and the elements of literal lists. *)
Ltac by_dec := apply (bool_decide_unpack _); vm_compute; exact I.
Ltac list_cases H := apply list_elem_of_In in H; cbn in H; destruct_or?; subst; try done.

Lemma demo_wf : wf demo_world.
Proof.
  split.
  - set (v := view_of _).
    assert (Hn : v_nicks v = {[1 := [6; 8]; 4 := [5]; 9 := [10]]}%nat) by reflexivity.
    assert (Hc : v_chans v = {[3 := [6; 5]; 7 := [8; 10]]}%nat) by reflexivity.
    assert (Hu : v_cus v = {[5 := (4, 3); 6 := (1, 3); 8 := (1, 7); 10 := (9, 7)]}%nat) by reflexivity.
    split; unfold side, of_nick, of_chan; rewrite ?Hn, ?Hc, ?Hu.
    + intros u n c H. map_cases H; split; eexists; (split; [reflexivity|by_dec]).
    + intros n l H. map_cases H; (split; [by_dec|]);
        intros u Hin; list_cases Hin; eexists; reflexivity.
    + intros n l H. map_cases H; (split; [by_dec|]);
        intros u Hin; list_cases Hin; eexists; reflexivity.
    + intros u u' p H H'. map_cases H; map_cases H'; done.
    + intros u Hlt. change (v_next v) with 11%nat in Hlt.
      rewrite !lookup_insert_ne, lookup_singleton_ne by lia. done.
  - intros i Hlt. change (h_next _) with 11%nat in Hlt. cbn -[lookup insert singletonM].
    rewrite !lookup_insert_ne, !lookup_singleton_ne by lia. done.
  - cbn -[lookup insert singletonM]. intros n x H. map_cases H; eexists; reflexivity.
  - cbn -[lookup insert singletonM]. intros c ch ce up cb H Hk. map_cases H; cbn in Hk; simplify_eq.
    split; [by eexists|]. split; [by_dec|].
    cbn. intros u Hu. exact Hu.
  - eexists; reflexivity.
  - exists demo_user, "password", 0, true. done.
  - cbn -[lookup insert singletonM]. intros k n H. map_cases H; eexists; split; reflexivity.
  - cbn -[lookup insert singletonM]. intros k n H. map_cases H; eexists; split; reflexivity.
  - cbn -[lookup insert singletonM]. intros k n H. map_cases H; eexists; split; reflexivity.
  - cbn -[lookup insert singletonM]. intros n x ce H Hk. map_cases H; done.
Qed.
End DemoWf.

(** * Properties *)

Import View Wf Leave Join Drop DemoWf.

(** Joining is idempotent up to the status: whether or not the nick was on the
    channel, [Nick::join] ends (or the socket fails) without touching a dangling
    pointer, the nick is then on the channel with exactly the status asked for -
    the [MODE -] and [MODE +] changes it sends compose to it - and every link
    between nicks and channels is still two-sided and unique. *)
Theorem join_on {env : Env} (w : world) (n : nid) (c : cid) (st : Z) :
  wf w -> is_Some (h_nicks (w_heap w) !! n) -> is_Some (h_chans (w_heap w) !! c) ->
  safe (join n c st)
    (fun cu w' => wf w' /\ w_irc w' = w_irc w
       /\ exists x, h_cus (w_heap w') !! cu = Some x
            /\ cu_nick x = n /\ cu_chan x = c /\ cu_status x = st) w.
Proof. intros W [y Hy] [ch Hc]. by eapply wp_join. Qed.

Theorem join_on_witness :
  safe (@join demo 4%nat 7%nat OP)
    (fun cu w' => wf w' /\ w_irc w' = w_irc demo_world
       /\ exists x, h_cus (w_heap w') !! cu = Some x
            /\ cu_nick x = 4%nat /\ cu_chan x = 7%nat /\ cu_status x = OP) demo_world.
Proof. apply (@join_on demo); [exact demo_wf|by eexists|by eexists]. Defined.

(** After [Nick::part] no channel user links the nick and the channel any
    more, on either side, whatever the channel: on a conversation a chat buddy is
    also taken off the tables and deleted, and the user leaves the conversation. *)
Theorem part_off {env : Env} (w : world) (n : nid) (c : cid) (text : string) (y : nick) :
  wf w -> h_nicks (w_heap w) !! n = Some y -> in_table n y w ->
  is_Some (h_chans (w_heap w) !! c) ->
  safe (part n c text)
    (fun _ w' => wf w' /\ off n c w' /\ i_user (w_irc w') = i_user (w_irc w)) w.
Proof. apply wp_part. Qed.

Theorem part_off_witness :
  safe (@part demo 9%nat 7%nat "bye")
    (fun _ w' => wf w' /\ off 9%nat 7%nat w' /\ i_user (w_irc w') = 1%nat) demo_world.
Proof.
  apply (@part_off demo demo_world 9%nat 7%nat "bye" demo_chatbuddy);
    [exact demo_wf|done|done|by eexists].
Defined.

(** C2: [IRC::removeNick] deletes the nick and leaves no pointer to it in the table
    of nicks, in a channel or as the peer of a file transfer; its server loses one
    entry for it, hence, when it was listed once, no server lists it; every other
    nick and server is as it was, and the session is well-formed. *)
Theorem removeNick_clean {env : Env} (w : world) (nm : string) (n : nid) :
  wf w -> i_users (w_irc w) !! nm = Some n -> n <> i_user (w_irc w) ->
  safe (removeNick nm)
    (fun _ w' => wf w' /\ h_nicks (w_heap w') !! n = None
       /\ i_users (w_irc w') = delete nm (i_users (w_irc w))
       /\ (forall u x, h_cus (w_heap w') !! u = Some x -> cu_nick x <> n)
       /\ Forall (fun d => d_peer d <> Some n) (i_dccs (w_irc w'))
       /\ (forall n', n' <> n -> h_nicks (w_heap w') !! n' = h_nicks (w_heap w) !! n')
       /\ unlisted n w w'
       /\ (listed_once n w -> forall s x, h_servers (w_heap w') !! s = Some x -> n ∉ sv_users x)) w.
Proof.
  intros W Hn Hu. eapply wp_mono; [by apply (wp_removeNick_but (X := None))| |done].
  intros ? w' [W' Hgone Hi Hns _ _ Hs]. split; [done|]. split; [done|]. rewrite Hi. split; [done|]. split; [|split].
  - intros u x. by eapply wf_no_user.
  - cbn. unfold forget_peer. rewrite Forall_forall. intros d Hin.
    apply list_elem_of_In, List.in_map_iff in Hin as (d0 & <- & _).
    case_bool_decide; [done|]. done.
  - do 2 (split; [done|]). intros H. by eapply unlisted_once.
Qed.

Theorem removeNick_clean_witness :
  listed_once 4 demo_world /\
  safe (@removeNick demo "alice")
    (fun _ w' => wf w' /\ h_nicks (w_heap w') !! 4%nat = None
       /\ i_users (w_irc w') = delete "alice" (i_users (w_irc demo_world))
       /\ (forall u x, h_cus (w_heap w') !! u = Some x -> cu_nick x <> 4%nat)
       /\ Forall (fun d => d_peer d <> Some 4%nat) (i_dccs (w_irc w'))
       /\ (forall n', n' <> 4%nat -> h_nicks (w_heap w') !! n' = h_nicks (w_heap demo_world) !! n')
       /\ unlisted 4 demo_world w'
       /\ (listed_once 4 demo_world -> forall s x, h_servers (w_heap w') !! s = Some x -> 4%nat ∉ sv_users x)) demo_world.
Proof.
  split; [|apply (@removeNick_clean demo); [exact demo_wf|done|done]].
  intros s x y H Hy Hin. injection Hy as <-. cbn -[lookup insert singletonM] in H.
  map_cases H; cbn in Hin |- *; split; (done || (by apply (bool_decide_unpack _); vm_compute) || (exfalso; list_cases Hin)).
Defined.

(** C13: the loop of [IRC::removeServer], which starts again after each deletion,
    ends; it deletes the server and every nick that was on it, those and no other, so
    that the session is well-formed and no nick that is left is on it.  (The peers of
    transfers and the servers that channels remember are not looked at.) *)
Theorem removeServer_clean {env : Env} (w : world) (nm : string) (s : sid) :
  wf w -> all_in_table w -> i_servers (w_irc w) !! nm = Some s -> s <> i_self (w_irc w) ->
  (forall x, h_nicks (w_heap w) !! i_user (w_irc w) = Some x -> nk_server x <> s) ->
  safe (removeServer nm)
    (fun _ w' => wf w' /\ i_servers (w_irc w') = delete nm (i_servers (w_irc w))
       /\ h_servers (w_heap w') !! s = None
       /\ (forall s', s' <> s -> h_servers (w_heap w') !! s' = h_servers (w_heap w) !! s')
       /\ (forall n x, h_nicks (w_heap w') !! n = Some x -> nk_server x <> s)
       /\ only_off s w w') w.
Proof. apply wp_removeServer. Qed.

Theorem removeServer_clean_witness :
  safe (@removeServer demo "romain:jabber0")
    (fun _ w' => wf w' /\ i_servers (w_irc w') = delete "romain:jabber0" (i_servers (w_irc demo_world))
       /\ h_servers (w_heap w') !! 2%nat = None
       /\ (forall s', s' <> 2%nat -> h_servers (w_heap w') !! s' = h_servers (w_heap demo_world) !! s')
       /\ (forall n x, h_nicks (w_heap w') !! n = Some x -> nk_server x <> 2%nat)
       /\ only_off 2 demo_world w') demo_world.
Proof.
  apply (@removeServer_clean demo); [exact demo_wf| |done|done|].
  - intros n [x H]. cbn -[lookup insert singletonM] in H. map_cases H;
      [exists "romain"|exists "alice"|exists "bob"]; done.
  - intros x [= <-]. done.
Defined.
