(* ===== verification/Closing.v ===== *)
(** The deletion of a channel: [IRC::removeChannel] and the two destructors it
    runs.  While they run, the lists of the channel still name channel users that
    are gone, so that the session is well-formed but for this channel. *)

From S2P Require Import Prelude Util Message Log World Dcc Nick Demo Logic Channel Registry Members.
Import W Obj Names Send Chan Reg View Wf Leave Join.

Module Closing.
Section Closing.
Context {env : Env}.

(** ** The channel that dies *)

(** Its class is of no account any more. *)
Lemma wf_put_ckind c w w' ch ch' :
  wf_but (Some c) w -> h_chans (w_heap w) !! c = Some ch ->
  ch_name ch' = ch_name ch -> users ch' = users ch -> w_irc w' = w_irc w ->
  w_heap w' = up_h_chans (insert c ch') (w_heap w) -> wf_but (Some c) w'.
Proof.
  intros W Hc Enm Eus Hi Hh.
  assert (Hv : view_of (w_heap w') = view_of (w_heap w)).
  { rewrite Hh. unfold view_of. cbn. f_equal. rewrite fmap_insert, Eus. apply insert_id.
    by rewrite lookup_fmap, Hc. }
  split; rewrite ?Hv, ?Hi; [apply W|..]; rewrite ?Hh; cbn; try apply W.
  - intros i Hlt. destruct (wf_fresh _ W i Hlt) as (H1 & H2 & H3).
    split; [done|]. split; [|done]. rewrite lookup_insert_ne; [done|]. intros ->. congruence.
  - intros c' ch2 ce up cb [[<- <-]|[Hne H]]%lookup_insert_cases Hk HX; [done|by eapply (wf_conv _ W)].
  - intros k c' Hk. destruct (wf_ctable _ W _ _ Hk) as (x & Hx & Hnm).
    destruct (decide (c = c')) as [<-|Hne].
    + rewrite lookup_insert_eq. eexists. split; [done|]. congruence.
    + rewrite lookup_insert_ne by done. by exists x.
Qed.

(** The nick [n] and the dying channel lose the channel user [u]. *)
Definition unlinked (n : nid) (y : nick) (c : cid) (ch : channel) (u : uid) (h : heap) : heap :=
  up_h_nicks (insert n (with_channels y (but u (channels y))))
    (without c ch (but u (users ch)) u h).

Lemma wf_unlinked n y c ch u w w' :
  wf_but (Some c) w -> at_ (w_heap w) n y c ch u -> w_irc w' = w_irc w ->
  w_heap w' = unlinked n y c ch u (w_heap w) -> wf_but (Some c) w' /\ off n c w'.
Proof.
  intros W A Hi Hh.
  set (w1 := World (leave_heap n y c ch u (w_heap w)) (w_irc w) (w_io w')).
  assert (W1 : wf_but (Some c) w1) by (by eapply wf_leave).
  assert (E : w_heap w' = up_h_chans (insert c (with_users ch (but u (users ch)))) (w_heap w1)).
  { rewrite Hh. unfold unlinked, without, w1, leave_heap, left, up_h_chans, up_h_nicks, up_h_cus. cbn.
    by rewrite insert_insert_eq. }
  split.
  - eapply (wf_put_ckind c w1 w' (chan_but u ch) (with_users ch (but u (users ch))));
      [done| |reflexivity|reflexivity|done|exact E].
    unfold w1. cbn. apply lookup_insert_eq.
  - assert (O : off n c w1) by (eapply off_leave; [exact W|exact A|reflexivity]).
    intros v x Hv. rewrite E in Hv. by apply (O v).
Qed.

(** Without users, it goes. *)
Lemma wf_delete_chan c ch w w' :
  wf_but (Some c) w -> h_chans (w_heap w) !! c = Some ch -> users ch = [] ->
  w_irc w' = up_i_channels (delete (ch_name ch)) (w_irc w) ->
  w_heap w' = up_h_chans (delete c) (w_heap w) ->
  wf w' /\ forall u x, h_cus (w_heap w') !! u = Some x -> cu_chan x <> c.
Proof.
  intros W Hc Hus Hi Hh.
  assert (Hgone : forall u n, v_cus (view_of (w_heap w)) !! u <> Some (n, c)).
  { intros u n H. destruct (l_cu _ (wf_links _ W) _ _ _ H) as [_ (l & Hl & Hin)].
    cbn in Hl. rewrite lookup_fmap, Hc in Hl. cbn in Hl. rewrite Hus in Hl. simplify_eq.
    by apply not_elem_of_nil in Hin. }
  split; [|intros u x; rewrite Hh; cbn; intros Hx E; apply (Hgone u (cu_nick x)); cbn;
           by rewrite lookup_fmap, Hx, <- E].
  split; rewrite ?Hh, ?Hi; cbn; try apply W.
  - destruct (wf_links _ W) as [Lcu Ln Lc Lu Lf]. split; cbn; [|exact Ln| |exact Lu|exact Lf].
    + intros u n c' H. destruct (Lcu _ _ _ H) as [? (l & Hl & Hin)]. split; [done|].
      exists l. split; [|done]. rewrite fmap_delete, lookup_delete_ne; [exact Hl|].
      intros ->. by apply (Hgone u n).
    + intros c' l H. rewrite fmap_delete in H. apply lookup_delete_Some in H as [_ H]. by apply Lc.
  - intros i Hlt. destruct (wf_fresh _ W i Hlt) as (H1 & H2 & H3). split; [done|]. split; [|done].
    apply lookup_delete_None. by right.
  - intros c' ch' ce up cb H Hk _. apply lookup_delete_Some in H as [Hne H].
    eapply (wf_conv _ W); [exact H|exact Hk|congruence].
  - intros k c' H. apply lookup_delete_Some in H as [Hk H].
    destruct (wf_ctable _ W _ _ H) as (x & Hx & Hnm). exists x. split; [|done].
    rewrite lookup_delete_ne; [done|]. intros ->. congruence.
Qed.

(** ** The two loops *)

(** The nick of an entry of the channel, which is in the table of [IRC] when it is
    a [ChatBuddy]. *)
Definition listed (c : cid) (w : world) (e : kid * uid) : Prop :=
  exists x y, h_cus (w_heap w) !! e.2 = Some x /\ cu_chan x = c
    /\ h_nicks (w_heap w) !! cu_nick x = Some y /\ in_table (cu_nick x) y w.

Record dropping (c : cid) (k : chan_kind) (nm : string) (i0 : irc) (rest : list (kid * uid))
    (w : world) : Prop := {
  dr_wf : wf_but (Some c) w;
  dr_chan : exists ch, h_chans (w_heap w) !! c = Some ch /\ ch_kind ch = k /\ ch_name ch = nm;
  dr_nodup : NoDup rest.*2;
  dr_rest : Forall (listed c w) rest;
  dr_user : i_user (w_irc w) = i_user i0;
  dr_chans : i_channels (w_irc w) = i_channels i0 }.

(** What becomes of the nicks when an entry of the channel is dropped: the nick of a
    chat buddy goes, every other one stays as it is. *)
Definition chatbuddy_of (w : world) (e : kid * uid) (n : nid) : Prop :=
  exists x y, h_cus (w_heap w) !! e.2 = Some x /\ cu_nick x = n
    /\ h_nicks (w_heap w) !! n = Some y /\ not_chatbuddy (nk_kind y) = false.
Record drops (l : list (kid * uid)) (w w' : world) : Prop := {
  ds_gone : forall e n, e ∈ l -> chatbuddy_of w e n -> h_nicks (w_heap w') !! n = None;
  ds_kept : forall n, (forall e, e ∈ l -> ~ chatbuddy_of w e n) ->
    h_nicks (w_heap w') !! n = h_nicks (w_heap w) !! n }.

Lemma listed_at {X} c w e ch :
  wf_but X w -> h_chans (w_heap w) !! c = Some ch -> listed c w e ->
  exists x y, h_cus (w_heap w) !! e.2 = Some x /\ at_ (w_heap w) (cu_nick x) y c ch e.2
    /\ in_table (cu_nick x) y w.
Proof.
  intros W Hc (x & y & Hx & Ec & Hy & T). exists x, y. split; [done|]. split; [|done].
  destruct (l_cu _ (wf_links _ W) e.2 (cu_nick x) c) as [(l & Hl & Hin) _].
  { cbn. by rewrite lookup_fmap, Hx, <- Ec. }
  cbn in Hl. rewrite lookup_fmap, Hy in Hl. injection Hl as <-. split; [done|done| |done]. by exists x.
Qed.

(** The channel user [u] of [n] is unlinked by [Channel::delUser], called directly,
    and [Nick::removeChanUser]. *)
Lemma wp_unlink {A} c n u y ch (m : M A) (Q : A -> world -> Prop) w :
  wf_but (Some c) w -> at_ (w_heap w) n y c ch u ->
  (forall w', w_irc w' = w_irc w -> w_heap w' = unlinked n y c ch u (w_heap w) -> safe m Q w') ->
  safe (chan_delUser c n Msg.mk0;; removeChanUser n u;; m) Q w.
Proof.
  intros W At HQ. assert (O := wf_links _ W).
  destruct (at_view _ _ _ _ _ _ At) as (Vn & Vc & Vu). destruct (l_chan _ O _ _ Vc) as [ND Hown].
  assert (Hc := at_chan _ _ _ _ _ _ At).
  apply wp_bind. eapply (wp_chan_delUser c n Msg.mk0 u ch); [done|done| | |by left|].
  - destruct (l_cu _ O _ _ _ Vu) as [_ (l & Hl & Hul)]. congruence.
  - intros v Hv. destruct (chan_users _ c ch v O Hc Hv) as (x & z & Hx & Ec & Hz & _).
    exists x. split; [done|]. split; [by exists z|]. split; [intros En|intros ->].
    + apply (l_uniq _ O v u (n, c)); [|done]. cbn. by rewrite lookup_fmap, Hx, <- En, <- Ec.
    + destruct (at_cu _ _ _ _ _ _ At) as (x' & Hx' & En & _). congruence.
  - intros w1 Hi1 Hh1. apply wp_bind. unfold removeChanUser. apply wp_bind.
    eapply wp_get_nick; [rewrite Hh1; apply At|]. apply wp_put, HQ; [done|].
    cbn. rewrite Hh1. reflexivity.
Qed.

Lemma wp_drop_cbuddy c k nm i0 e rest w :
  dropping c k nm i0 (e :: rest) w ->
  safe (drop_cbuddy c e) (fun _ w' => dropping c k nm i0 rest w' /\ drops [e] w w'
    /\ forall e' n, e' ∈ rest -> chatbuddy_of w e' n <-> chatbuddy_of w' e' n) w.
Proof.
  intros [W (ch & Hc & Ek & En) ND Hr Hu Hch]. cbn in ND. apply NoDup_cons in ND as [Hnin ND].
  apply Forall_cons in Hr as [He Hr]. destruct (listed_at c w e ch W Hc He) as (x & y & Hx & A & T).
  assert (Hy := at_nick _ _ _ _ _ _ A). unfold drop_cbuddy.
  apply wp_bind. eapply wp_get_cu; [done|]. apply wp_bind. eapply wp_get_nick; [done|].
  assert (Hcb : forall n, chatbuddy_of w e n -> n = cu_nick x /\ not_chatbuddy (nk_kind y) = false).
  { intros n (x' & y' & Hx' & <- & Hy' & Hk'). assert (x' = x) as -> by congruence. assert (y' = y) as -> by congruence. done. }
  assert (Hsame : not_chatbuddy (nk_kind y) = true -> dropping c k nm i0 rest w /\ drops [e] w w
    /\ forall e' n, e' ∈ rest -> chatbuddy_of w e' n <-> chatbuddy_of w e' n).
  { intros Hk. split; [split; [done|by exists ch|done|done|done|done]|]. split; [|done]. split; [|done].
    intros e' n ->%list_elem_of_singleton [_ H]%Hcb. congruence. }
  destruct (nk_kind y) eqn:Eky; [by apply Hsame|by apply Hsame|by apply Hsame| |by apply Hsame]. clear Hsame.
  assert (Tn : i_users (w_irc w) !! nk_name y = Some (cu_nick x)) by (apply T; by rewrite Eky).
  assert (Hnu : cu_nick x <> i_user (w_irc w)).
  { intros E. destruct (wf_user _ W) as (z & p & l & b & Hz & Hkz). rewrite <- E in Hz. congruence. }
  eapply wp_unlink; [done|done|]. intros w1 Hi1 Hh1.
  destruct (wf_unlinked _ _ _ _ _ _ _ W A Hi1 Hh1) as [W1 O1].
  apply wp_bind. eapply wp_get_nick; [rewrite Hh1; apply lookup_insert_eq|].
  eapply wp_mono; [apply (wp_removeNick_but (X := Some c) _ (cu_nick x)); [done|by intros ? [= <-]|by rewrite Hi1|by rewrite Hi1]| |done].
  intros ? w2 [W2 G Gi Gn Gk Go _].
  assert (Hc1 : h_chans (w_heap w1) !! c = Some (with_users ch (but e.2 (users ch)))).
  { rewrite Hh1. apply lookup_insert_eq. }
  assert (Hkeep : forall e' x' y', e' ∈ rest -> h_cus (w_heap w) !! e'.2 = Some x' -> cu_chan x' = c ->
    h_nicks (w_heap w) !! cu_nick x' = Some y' -> cu_nick x' <> cu_nick x
    /\ h_cus (w_heap w2) !! e'.2 = Some x' /\ h_nicks (w_heap w2) !! cu_nick x' = Some y').
  { intros e' x' y' He' Hx' Ec' Hy'.
    assert (Hue : e'.2 <> e.2).
    { intros E. apply Hnin. rewrite <- E. apply list_elem_of_fmap. by exists e'. }
    assert (Hne : cu_nick x' <> cu_nick x).
    { intros E. apply Hue. destruct (at_cu _ _ _ _ _ _ A) as (z & Hz & _ & Ecz).
      apply (l_uniq _ (wf_links _ W) _ _ (cu_nick x, c)); cbn; rewrite lookup_fmap.
      - by rewrite Hx', <- E, <- Ec'.
      - rewrite Hx. rewrite Hx in Hz. injection Hz as ->. cbn. by rewrite Ecz. }
    split; [done|]. split; [apply Gk; [|done]; rewrite Hh1; cbn; by rewrite lookup_delete_ne|].
    rewrite Gn by done. rewrite Hh1. cbn. by rewrite lookup_insert_ne. }
  rewrite Forall_forall in Hr. split; [|split; [split|]].
  - split; [exact W2| |exact ND| |by rewrite Gi, <- Hu, <- Hi1|by rewrite Gi, <- Hch, <- Hi1].
    { eexists. split; [by rewrite (Go c O1)|]. done. }
    rewrite Forall_forall. intros e' He'. destruct (Hr e' He') as (x' & y' & Hx' & Ec' & Hy' & T').
    destruct (Hkeep e' x' y' He' Hx' Ec' Hy') as (Hne & Hx2 & Hy2). exists x', y'. do 3 (split; [done|]).
    intros Hk'. rewrite Gi. cbn. rewrite Hi1, lookup_delete_ne; [by apply T'|].
    intros E. cbn in E. specialize (T' Hk'). congruence.
  - by intros e' n ->%list_elem_of_singleton [-> _]%Hcb.
  - intros n Hn. destruct (decide (n = cu_nick x)) as [->|Hne].
    { destruct (Hn e); [left|]. exists x, y. by rewrite Eky. }
    rewrite Gn by done. rewrite Hh1. cbn. by rewrite lookup_insert_ne.
  - intros e' n He'. destruct (Hr e' He') as (x' & y' & Hx' & Ec' & Hy' & _).
    destruct (Hkeep e' x' y' He' Hx' Ec' Hy') as (Hne & Hx2 & Hy2).
    split; intros (x3 & y3 & Hx3 & <- & Hy3 & Hk3); assert (x3 = x') as -> by congruence; exists x', y'.
    + assert (y3 = y') as -> by congruence. done.
    + assert (y3 = y') as -> by congruence. done.
Qed.

Lemma wp_drop_cbuddies c k nm i0 l w :
  dropping c k nm i0 l w ->
  safe (mapM_ (drop_cbuddy c) l) (fun _ w' => dropping c k nm i0 [] w' /\ drops l w w') w.
Proof.
  revert w. induction l as [|e l IH]; intros w D.
  { apply wp_ret. split; [done|]. split; [|done]. by intros e n H%not_elem_of_nil. }
  cbn [mapM_]. apply wp_bind.
  eapply wp_mono; [by eapply wp_drop_cbuddy| |done]. intros ? w1 (D1 & [S1 S2] & S3).
  eapply wp_mono; [by apply IH| |done]. intros ? w2 (D2 & [T1 T2]). split; [done|]. split.
  - intros e' n [->|He']%elem_of_cons Hc; [|by apply (T1 e' n He'), S3].
    destruct (decide (h_nicks (w_heap w2) !! n = None)) as [|Hn]; [done|].
    assert (H1 : h_nicks (w_heap w1) !! n = None) by (apply (S1 e n); [left|done]).
    rewrite T2; [done|]. intros e' He' (x' & y' & _ & _ & Hy' & _). congruence.
  - intros n Hn. rewrite T2; [apply S2|].
    + intros e' ->%list_elem_of_singleton. apply Hn. left.
    + intros e' He' Hc%S3; [|done]. apply (Hn e'); [by right|done].
Qed.

(** [w] if the channel [c] had the users [rest]. *)
Definition ghost (c : cid) (ch : channel) (rest : list uid) (w : world) : world :=
  on_heap (up_h_chans (insert c (with_users ch rest))) w.

Lemma wp_drop_users c ch rest w :
  wf_but (Some c) (ghost c ch rest w) -> h_chans (w_heap w) !! c = Some ch ->
  safe (mapM_ (drop_user c) rest)
    (fun _ w' => wf_but (Some c) (ghost c ch [] w') /\ h_chans (w_heap w') !! c = Some ch
       /\ w_irc w' = w_irc w
       /\ forall n, face <$> h_nicks (w_heap w') !! n = face <$> h_nicks (w_heap w) !! n) w.
Proof.
  revert w. induction rest as [|u rest IH]; intros w W Hc; [done|]. cbn [mapM_]. apply wp_bind.
  assert (Hgc : h_chans (w_heap (ghost c ch (u :: rest) w)) !! c = Some (with_users ch (u :: rest)))
    by apply lookup_insert_eq.
  destruct (chan_users _ c _ u (wf_links _ W) Hgc) as (x & y & Hx & Ec & Hy & Hin); [left|].
  cbn in Hx, Hy. unfold drop_user. apply wp_bind. eapply wp_get_cu; [done|].
  apply wp_bind, safe_mkmsg. intros a. apply wp_bind, wp_send; [by eexists| |done| |done].
  { split; intros e [= <-]; cbn; [by rewrite Hx; cbn; rewrite Hy|by rewrite Hc]. }
  intros w1 (Hh1 & Hi1 & _). apply wp_bind. unfold removeChanUser. apply wp_bind.
  eapply wp_get_nick; [by rewrite Hh1|]. apply wp_put, wp_put. set (w2 := on_heap _ _).
  assert (At : at_ (w_heap (ghost c ch (u :: rest) w)) (cu_nick x) y c (with_users ch (u :: rest)) u).
  { split; [done|done| |done]. by exists x. }
  destruct (l_chan _ (wf_links _ W) c (u :: rest)) as [ND _].
  { cbn. by rewrite fmap_insert, lookup_insert_eq. }
  apply NoDup_cons in ND as [Hu ND].
  eapply wp_mono; [apply IH| |done].
  - apply (wf_unlinked (cu_nick x) y c (with_users ch (u :: rest)) u (ghost c ch (u :: rest) w));
      [done|done|done|].
    unfold unlinked, without. rewrite (but_head u rest Hu : but u (users (with_users ch (u :: rest))) = rest).
    unfold ghost, w2, up_h_chans, up_h_nicks, up_h_cus, with_users, on_heap. cbn.
    by rewrite Hh1, insert_insert_eq.
  - unfold w2. cbn. by rewrite Hh1.
  - intros ? w3 (W3 & Hc3 & Hi3 & Hn3). do 2 (split; [done|]). split; [by rewrite Hi3|].
    intros n. rewrite Hn3. unfold w2. cbn. rewrite Hh1. destruct (decide (n = cu_nick x)) as [->|Hne].
    + by rewrite lookup_insert_eq, Hy.
    + by rewrite lookup_insert_ne.
Qed.

(** ** [IRC::removeChannel] *)

(** The chat buddies of the channel are in the table of nicks. *)
Definition chatbuddies_listed (c : cid) (w : world) : Prop :=
  forall ch ce up cb e x y, h_chans (w_heap w) !! c = Some ch -> ch_kind ch = KConversation ce up cb ->
    e ∈ cb -> h_cus (w_heap w) !! e.2 = Some x -> h_nicks (w_heap w) !! cu_nick x = Some y ->
    in_table (cu_nick x) y w.

Lemma wf_forget {c} w : wf w -> wf_but (Some c) w.
Proof.
  intros [H1 H2 H3 H4 H5 H6 H7 H8 H9 H10]. split; try done.
  intros c' ch ce up cb Hc Hk _. by eapply H4.
Qed.

Lemma dropping_start c ch ce up cb w :
  wf w -> h_chans (w_heap w) !! c = Some ch -> ch_kind ch = KConversation ce up cb ->
  chatbuddies_listed c w -> dropping c (ch_kind ch) (ch_name ch) (w_irc w) cb w.
Proof.
  intros W Hc Hk HL. destruct (wf_conv _ W _ _ _ _ _ Hc Hk ltac:(done)) as (_ & ND & Hus).
  split; [by apply wf_forget|by exists ch|done| |done|done]. apply Forall_forall. intros e He.
  destruct (chan_users _ c ch e.2 (wf_links _ W) Hc) as (x & y & Hx & Ec & Hy & _).
  { apply Hus, list_elem_of_fmap. by exists e. }
  exists x, y. do 3 (split; [done|]). by eapply HL.
Qed.

(** What is left when [removeChannel] returns. *)
Definition closed (nm : string) (c : cid) (w w' : world) : Prop :=
  wf w' /\ h_chans (w_heap w') !! c = None
  /\ (forall u x, h_cus (w_heap w') !! u = Some x -> cu_chan x <> c)
  /\ i_channels (w_irc w') = delete nm (i_channels (w_irc w))
  /\ i_user (w_irc w') = i_user (w_irc w)
  /\ forall ch, h_chans (w_heap w) !! c = Some ch ->
     let l := match ch_kind ch with KConversation _ _ cb => cb | KStatus _ => [] end in
     (forall e n, e ∈ l -> chatbuddy_of w e n -> h_nicks (w_heap w') !! n = None)
     /\ forall n, (forall e, e ∈ l -> ~ chatbuddy_of w e n) ->
        face <$> h_nicks (w_heap w') !! n = face <$> h_nicks (w_heap w) !! n.

Lemma wp_removeChannel nm c w :
  wf w -> i_channels (w_irc w) !! nm = Some c -> chatbuddies_listed c w ->
  safe (removeChannel nm) (fun _ => closed nm c w) w.
Proof.
  intros W Hn HL. destruct (wf_ctable _ W _ _ Hn) as (ch & Hc & Enm).
  unfold removeChannel. apply wp_bind, wp_get. rewrite Hn. unfold destroyChannel.
  apply wp_bind, wp_bind. eapply wp_get_chan; [done|]. apply wp_bind.
  assert (Hend : forall w1 l, dropping c (ch_kind ch) (ch_name ch) (w_irc w) [] w1 -> drops l w w1 ->
    l = match ch_kind ch with KConversation _ _ cb => cb | KStatus _ => [] end ->
    safe (let! ch := get_chan c; mapM_ (drop_user c) (users ch);; delete_chan c)
      (fun _ w' => safe (put (on_irc (up_i_channels (delete nm)))) (fun _ => closed nm c w) w') w1).
  { intros w1 l [W1 (ch1 & Hc1 & _ & En1) _ _ Hu1 Hch1] [S1 S2] El. apply wp_bind. eapply wp_get_chan; [done|].
    apply wp_bind. eapply wp_mono; [apply (wp_drop_users c ch1)| |done]; [|done|].
    { eapply (wf_put_ckind c w1 _ ch1 ch1); [exact W1|exact Hc1|done|done|done|]. by destruct ch1. }
    intros ? w2 (W2 & Hc2 & Hi2 & Hn2). apply wp_put, wp_put. set (w3 := on_irc _ _).
    destruct (wf_delete_chan c (with_users ch1 []) (ghost c ch1 [] w2) w3) as [W3 Hus]; [done| |done| | |].
    { apply lookup_insert_eq. } { unfold w3. cbn. by rewrite En1, Enm. }
    { unfold w3, ghost, up_h_chans. cbn. f_equal. symmetry. apply delete_insert_eq. }
    split; [done|]. split; [unfold w3; cbn; apply lookup_delete_eq|]. split; [exact Hus|].
    unfold w3. cbn. rewrite Hi2, Hch1, Hu1. do 2 (split; [done|]). intros ch' Hch'.
    assert (ch' = ch) as -> by congruence. rewrite <- El. split.
    - intros e n He Hcb. specialize (Hn2 n). rewrite (S1 e n He Hcb) in Hn2. by destruct (h_nicks (w_heap w2) !! n).
    - intros n Hno. by rewrite Hn2, S2. }
  destruct (ch_kind ch) as [accs|ce up cb] eqn:Ek; rewrite <- Ek in *.
  - apply wp_ret, (Hend w []); [|split; [by intros ?? ?%not_elem_of_nil|done]|by rewrite ?Ek].
    split; [by apply wf_forget|by exists ch|apply NoDup_nil_2|done|done|done].
  - eapply wp_mono; [apply wp_drop_cbuddies; by eapply dropping_start| |done]. intros ? w1 [D S].
    apply (Hend w1 cb D S). by rewrite ?Ek.
Qed.
End Closing.
End Closing.
