(* ===== verification/Kinds.v ===== *)
(** irc/status_channel.cpp and irc/conversation_channel.cpp: the two classes of
    channels, the virtual methods of [irc::Channel] that depend on them, and the
    MODE handlers of channels and nicks. *)

From Stdlib Require Import Finite.
From S2P Require Import Prelude Util Message Log World Dcc Nick Demo Logic Channel Registry Members.
Import W Obj Names Send Chan Reg.

Module Kinds.
Section Kinds.
Context {env : Env}.

(** [user->send(Message(code).setSender(this).setReceiver(user).addArg(...))] of the
    methods of [irc::IRC], and the same to another nick. *)
Definition reply_to (n : nid) (code : string) (args : list string) : M unit :=
  let! s := e_self;
  let! m := mkmsg code (Some s) (Some (ENick n)) args;
  send n m.
Definition reply (code : string) (args : list string) : M unit :=
  let! u := user; reply_to u code args.

(** [IRC::notice]: the receiver of the message is always the user. *)
Definition notice (n : nid) (msg : string) : M unit :=
  mapM_ (fun t =>
           let! u := user; let! s := e_self;
           let! m := mkmsg "NOTICE" (Some s) (Some (ENick u)) [t];
           send n m)
        (Tok.tokens (String "010" (String "013" "")) msg).
Definition privmsg (n : nid) (msg : string) : M unit :=
  mapM_ (fun t =>
           let! u := user; let! s := e_self;
           let! m := mkmsg "PRIVMSG" (Some s) (Some (ENick u)) [t];
           send n m)
        (Tok.tokens (String "010" (String "013" "")) msg).

(** [IM::getAccount] and [getAccountFromChannel]; [None] is an invalid account. *)
Definition getAccount (name : string) : M (option aid) :=
  let! l := ask a_list; let! sn := ask a_servername; let! ids := ask a_id;
  ret (List.find (fun a => String.eqb (sn a) name || String.eqb (ids a) name) l).
Definition getAccountFromChannel (name : string) : M (option aid) :=
  let! l := ask a_list; let! f := ask a_channel;
  ret (List.find (fun a => String.eqb (f a) name) l).

(** ** StatusChannel *)

Definition set_accounts (c : cid) (f : list aid -> list aid) : M unit :=
  let! ch := get_chan c;
  match ch_kind ch with
  | KStatus l => put_chan c (with_ckind ch (KStatus (f l)))
  | _ => stuck "not a StatusChannel"
  end.
Definition addAccount (c : cid) (a : aid) : M unit := set_accounts c (fun l => l ++ [a]).
Definition removeAccount (c : cid) (a : aid) : M unit := set_accounts c (remove_first a).

(** [StatusChannel::getMaskFromName]. *)
Definition getMaskFromName (name id : string) : string :=
  let ban := "*!" +:+ name in
  if negb (has_char "@" ban) then ban +:+ "@" +:+ id else ban +:+ ":" +:+ id.

(** [showBanList] of the two classes. *)
Definition showBanList (c : cid) (to : nid) : M unit :=
  let! ch := get_chan c;
  (match ch_kind ch with
   | KStatus accounts =>
     mapM_ (fun a =>
       let! deny := ask a_denylist;
       mapM_ (fun str =>
         let! id := ask a_id; let! sn := ask a_servername;
         reply_to to "367" [ch_name ch; getMaskFromName str (id a); sn a; "0"])
         (deny a)) accounts
   | KConversation _ _ _ => ret tt
   end);;
  reply_to to "368" [ch_name ch; "End of Channel Ban List"].

(** The ban of one matched nick ([func] is [deny] or [allow]). *)
Definition ban_call (add : bool) (a : aid) (who : string) : imcall :=
  if add then AccDeny a who else AccAllow a who.
Definition announce_ban (c : cid) (from : nid) (mode name : string) (a : aid) : M unit :=
  let! id := ask a_id;
  let! m := mkmsg "MODE" (Some (ENick from)) (Some (EChan c)) [mode; getMaskFromName name (id a)];
  broadcast c m None.
Definition ban_one (c : cid) (from : nid) (mode : string) (add : bool) (n : nid) : M unit :=
  let! x := get_nick n;
  match nk_kind x with
  | KBuddy b _ _ _ =>
    let! nm := ask b_name; let! ac := ask b_account;
    im_call (ban_call add (ac b) (nm b));;
    let! ok := ask call_ok;
    when ok (let! nm := ask b_name; let! ac := ask b_account;
             announce_ban c from mode (nm b) (ac b))
  | _ => ret tt
  end.
(** The account and the pattern of a mask which matches no nick. *)
Definition split_mask (pattern : string) : string * string :=
  let '(pat, accid) := Tok.stringtok pattern ":" in
  if sempty accid then Tok.stringtok pat "@" else (pat, accid).

(** [processBan] of the two classes. *)
Definition processBan (c : cid) (from : nid) (pattern : string) (add : bool) : M unit :=
  let! ch := get_chan c;
  match ch_kind ch with
  | KConversation _ _ _ => ret tt
  | KStatus accounts =>
    let mode := if add then "+b" else "-b" in
    let! results := matchNick pattern;
    match results with
    | _ :: _ => mapM_ (ban_one c from mode add) results
    | [] =>
      let '(pattern, accid) := split_mask pattern in
      let! id := ask a_id;
      match List.find (fun a => String.eqb (id a) accid) accounts, accounts with
      | Some a, _ | None, [a] =>
        let pattern := if has_char "!" pattern then (Tok.stringtok pattern "!").2 else pattern in
        im_call (ban_call add a pattern);;
        let! ok := ask call_ok;
        when ok (announce_ban c from mode pattern a)
      | None, _ =>
        reply_to from "401"
          [if sempty accid then pattern else accid;
           if sempty accid then "Please sufix mask with ':accountID'" else "No such account"]
      end
    end
  end.

(** [invite] of the two classes. *)
Definition invite (c : cid) (from : nid) (nickname message : string) : M bool :=
  let! ch := get_chan c;
  match ch_kind ch with
  | KConversation ce _ _ =>
    match conv ce with
    | Some v => im_call (ConvInvite v nickname message);; ret true
    | None => stuck "assert(isValid())"
    end
  | KStatus _ =>
    let '(username, acc) := Tok.stringtok nickname ":" in
    let! account := if sempty acc then getAccountFromChannel (ch_name ch) else getAccount acc;
    match account with
    | None => reply_to from "403" [nickname; "No such channel"];; ret false
    | Some a => im_call (AccAddBuddy a username "minbif");; ret true
    end
  end.

(** [kick] of the two classes. *)
Definition kick (c : cid) (from victim : uid) (message : string) : M bool :=
  let! ch := get_chan c;
  match ch_kind ch with
  | KConversation _ _ _ => ret false
  | KStatus _ =>
    let! f := get_cu from;
    let! v := get_cu victim;
    let! y := get_nick (cu_nick v);
    match nk_kind y with
    | KBuddy b _ _ _ =>
      let! s := get_server (nk_server y);
      match sv_kind s with
      | SIrc =>
        let! nm := cu_nickname victim;
        notice (cu_nick f) (nm +:+ " is not on a remote server");; ret false
      | SRemote account =>
        let reason := "Removed from buddy list"
                      +:+ (if sempty message then "" else ": " +:+ message) in
        kicked (cu_nick v) c from reason;;
        im_call (AccRemoveBuddy account b);; ret true
      end
    | _ =>
      let! s := e_self;
      let! m := mkmsg "482" (Some s) (Some (ECu from))
                  [ch_name ch; "Permission denied: you can only kick a buddy"];
      send (cu_nick f) m;; ret false
    end
  end.

(** [setTopic] of the two classes. *)
Definition setTopic (c : cid) (from : ent) (t : string) : M bool :=
  let! ch := get_chan c;
  match ch_kind ch with
  | KStatus accounts =>
    let! ok := chan_setTopic c (Some from) t;
    if negb ok then ret false
    else mapM_ (fun a => im_call (AccSetStatus a true t)) accounts;; ret true
  | KConversation ce _ _ =>
    let! u := user;
    if bool_decide (ENick u = from) then
      match conv ce with
      | Some v => im_call (ConvSetTopic v t);; let! ok := ask call_ok; ret ok
      | None => stuck "assert(isValid())"
      end
    else chan_setTopic c (Some from) t
  end.

(** [Channel::getChanUser(string)] and its overrider. *)
Definition getChanUser (c : cid) (nick : string) : M (option uid) :=
  let! ch := get_chan c;
  match ch_kind ch with
  | KStatus _ => chan_getChanUser c nick
  | KConversation _ _ cb =>
    let! nm := ask k_name;
    ret (snd <$> List.find (fun '(k, _) =>
                   String.eqb (Case.strlower (nm k)) (Case.strlower nick)) cb)
  end.

(** [sendCommand]; [PURPLE_CMD_STATUS_WRONG_TYPE] is the value of the base class. *)
Definition CMD_OK : Z := 0.
Definition CMD_FAILED : Z := 1.
Definition CMD_NOT_FOUND : Z := 2.
Definition CMD_WRONG_ARGS : Z := 3.
Definition CMD_WRONG_PRPL : Z := 4.
Definition CMD_WRONG_TYPE : Z := 5.
Definition conv_sendCommand (v : option vid) (cmd : string) : M Z :=
  match v with
  | Some v => im_call (ConvSendCommand v cmd);; let! r := ask call_status; ret r
  | None => stuck "assert(isValid())"
  end.
Definition chan_sendCommand (c : cid) (cmd : string) : M Z :=
  let! ch := get_chan c;
  match ch_kind ch with
  | KStatus _ => ret CMD_WRONG_TYPE
  | KConversation ce _ _ => conv_sendCommand (conv ce) cmd
  end.
Definition nick_sendCommand (n : nid) (cmd : string) : M Z :=
  let! x := get_nick n;
  match nk_kind x with
  | KBuddy b _ _ _ =>
    check_conv n b;;
    let! ce := get_ce (RNick n);
    conv_sendCommand (conv ce) cmd
  | _ => ret CMD_WRONG_TYPE
  end.

(** ** MODE *)

(** The loop of [Channel::m_mode]; [args] are the arguments not yet used. *)
Fixpoint mode_chars (c : cid) (n : nid) (modes : string) (add : bool) (args : list string)
    : M unit :=
  match modes with
  | EmptyString => ret tt
  | String ch modes =>
    if Ascii.eqb ch "+" then mode_chars c n modes true args
    else if Ascii.eqb ch "-" then mode_chars c n modes false args
    else if Ascii.eqb ch "b" then
      match args with
      | [] => showBanList c n;; mode_chars c n modes add []
      | a :: args => processBan c n a add;; mode_chars c n modes add args
      end
    else mode_chars c n modes add args
  end.
Definition chan_m_mode (c : cid) (n : nid) (m : message) : M unit :=
  let! ch := get_chan c;
  match Msg.args m with
  | [] =>
    reply_to n "324" [ch_name ch; "+"];;
    reply_to n "329" [ch_name ch; "1212313"]
  | modes :: args => mode_chars c n modes true args
  end.

(** [Nick::m_mode], [User::m_mode] and [User::getModes]. *)
Definition getModes (flags : Z) : string :=
  "+" +:+ (if Log.hasb flags OPER then "o" else "").
Definition nick_m_mode (n from : nid) (m : message) : M unit :=
  let! x := get_nick n;
  match nk_kind x with
  | KUser _ _ _ =>
    if (Msg.countArgs m =? 0)%nat then
      let! r := mkmsg "221" (Some (EServer (nk_server x))) (Some (ENick from))
                  [getModes (nk_flags x)];
      send from r
    else ret tt
  | _ =>
    let! r := mkmsg "481" (Some (EServer (nk_server x))) (Some (ENick from))
                ["Permission Denied: Insufficient privileges"];
    send from r
  end.

(** ** ConversationChannel *)

(** The insertion [cbuddies[k] = u] in the map. *)
Fixpoint set_cbuddy (k : kid) (u : uid) (l : list (kid * uid)) : list (kid * uid) :=
  match l with
  | [] => [(k, u)]
  | (k', u') :: l' =>
    if (k =? k')%nat then (k, u) :: l'
    else if (k <? k')%nat then (k, u) :: l
    else (k', u') :: set_cbuddy k u l'
  end.
Definition up_cbuddies (c : cid) (f : list (kid * uid) -> list (kid * uid)) : M unit :=
  let! ch := get_chan c;
  match ch_kind ch with
  | KConversation ce up cb => put_chan c (with_ckind ch (KConversation ce up (f cb)))
  | _ => stuck "not a ConversationChannel"
  end.

(** The constructor, with the [RemoteServer] of the account looked up by name. *)
Definition new_ConversationChannel (v : vid) : M cid :=
  let! nm := ask v_channame; let! ac := ask v_account; let! sn := ask a_servername;
  let! o := getServer (sn (ac v));
  let! up := match o with
             | None => ret None
             | Some s => let! x := get_server s;
                         ret (match sv_kind x with SRemote _ => Some s | SIrc => None end)
             end;
  let! c := alloc;
  put_chan c (Channel (nm v) "" [] (KConversation (CE (Some v) []) up []));;
  ret c.

(** [new ChatBuddy(upserver, cbuddy)]; [Nick::Nick] asserts that there is a server. *)
Definition chatbuddy_names (name realname id : string) : string * string * string :=
  let '(identname, hostname) := Tok.stringtok realname "@" in
  let nickname := if has_char "@" name then nickize (Tok.stringtok name "@").1
                  else nickize name in
  (nickname, identname, if sempty hostname then id else hostname +:+ ":" +:+ id).
Definition new_ChatBuddy (up : option sid) (k : kid) : M nid :=
  match up with
  | None => stuck "assert(server)"
  | Some s =>
    let! nm := ask k_name; let! rn := ask k_realname; let! ac := ask k_account;
    let! id := ask a_id;
    let '(nick, ident, host) := chatbuddy_names (nm k) (rn k) (id (ac k)) in
    let! n := alloc;
    put_nick n (Nick nick (fix_ident ident) (fix_host host) "" "" s 0 []
                  (KChatBuddy k (CE None [])));;
    ret n
  end.

(** [while(irc->getNick(s)) s += "_"]: each name is longer than the last one, so
    one more turn than there are nicks is enough. *)
Fixpoint free_name_from (fuel : nat) (l : list (string * nid)) (s : string) : option string :=
  match fuel with
  | O => None
  | S fuel =>
    match find_nick s false l with
    | None => Some s
    | Some _ => free_name_from fuel l (s +:+ "_")
    end
  end.
Definition free_name (s : string) : M string :=
  let! l := users_list;
  match free_name_from (S (length l)) l s with
  | Some s => ret s
  | None => stuck "fuel"
  end.

(** [ConversationChannel::addBuddy]. *)
Definition addBuddy (c : cid) (k : kid) (status : Z) : M unit :=
  let! me := ask k_isme;
  let! cul :=
    if me k then let! u := user; join u c status
    else
      let! ch := get_chan c;
      match ch_kind ch with
      | KConversation _ up cb =>
        match List.find (fun '(k', _) => (k' =? k)%nat) cb with
        | Some (_, u) => ret u
        | None =>
          let! n := new_ChatBuddy up k;
          let! x := get_nick n;
          let! s := free_name (nk_name x);
          put_nick n (with_name x s);;
          addNick n;;
          join n c status
        end
      | _ => stuck "not a ConversationChannel"
      end;
  up_cbuddies c (set_cbuddy k cul).

(** The loop of [updateBuddy] over the bits of an [unsigned]. *)
Definition mode_diff (mlast mnew : Z) : Z * Z :=
  foldl (fun '(add, del) i =>
           let b := Z.shiftl 1 (Z.of_nat i) in
           let l := negb (Z.land mlast b =? 0) in
           let n := negb (Z.land mnew b =? 0) in
           (if negb l && n then Z.lor add b else add,
            if l && negb n then Z.lor del b else del))
        (0, 0) (seq 0 32).
(** [ConversationChannel::updateBuddy]. *)
Definition updateBuddy (c : cid) (k : kid) : M unit :=
  let! ch := get_chan c;
  match ch_kind ch with
  | KConversation _ _ cb =>
    match List.find (fun '(k', _) => (k' =? k)%nat) cb with
    | None => stuck "NULL chanuser"
    | Some (_, u) =>
      let! x := get_cu u;
      let! st := ask k_status;
      let '(add, del) := mode_diff (cu_status x) (st k) in
      let! s := e_self;
      when (negb (add =? 0)) (setMode c (Some s) add u);;
      when (negb (del =? 0)) (delMode c (Some s) del u)
    end
  | _ => stuck "not a ConversationChannel"
  end.

(** [ConversationChannel::renameBuddy]. *)
Definition renameBuddy (c : cid) (cu : uid) (k : kid) : M unit :=
  let! x := get_cu cu;
  let! y := get_nick (cu_nick x);
  match nk_kind y with
  | KChatBuddy old ce =>
    let! nm := ask k_name;
    let! new_nick := free_name (nickize (nm k));
    when (negb (String.eqb (nk_name y) new_nick))
      (let! u := user;
       let! m := mkmsg "NICK" (Some (ENick (cu_nick x))) None [new_nick];
       send u m;;
       renameNick (cu_nick x) new_nick);;
    up_cbuddies c (List.filter (fun '(k', _) => negb (k' =? old)%nat));;
    let! y := get_nick (cu_nick x);
    put_nick (cu_nick x) (with_kind y (KChatBuddy k ce));;
    up_cbuddies c (set_cbuddy k cu)
  | _ => stuck "NULL nick"
  end.
End Kinds.
End Kinds.

(** ** Lemmas *)

Module KindLemmas.
Import Kinds View Wf Leave Join.

Lemma slen_strlower s : slen (Case.strlower s) = slen s.
Proof. unfold Case.strlower. induction s; cbn; auto. Qed.

Definition lower_keys (l : list (string * nid)) : list string := map (fun e => Case.strlower e.1) l.

Lemma find_nick_in s l n : find_nick s false l = Some n -> Case.strlower s ∈ lower_keys l.
Proof.
  unfold find_nick. cbn. intros H. apply fmap_Some in H as ([k n'] & Hf & _).
  apply List.find_some in Hf as [Hin Heq%String.eqb_eq]. rewrite <- Heq.
  apply list_elem_of_In. unfold lower_keys. apply List.in_map_iff. by exists (k, n').
Qed.

Lemma find_nick_out s l : (Case.strlower s ∉ lower_keys l) -> find_nick s false l = None.
Proof. intros H. destruct (find_nick s false l) eqn:E; [|done]. by apply find_nick_in in E. Qed.
Lemma find_nick_taken s l : Case.strlower s ∈ lower_keys l -> find_nick s false l <> None.
Proof.
  unfold find_nick, lower_keys. cbn. intros Hin%list_elem_of_In%List.in_map_iff. destruct Hin as ([k n] & E & Hin).
  destruct (List.find _ l) eqn:F; [done|]. pose proof (List.find_none _ _ F _ Hin) as H. cbn beta iota in H. cbn [fst] in E.
  by rewrite E, String.eqb_refl in H.
Qed.
Lemma free_name_at k l : forall fuel s, (k < fuel)%nat ->
  find_nick (s +:+ underscores k) false l = None ->
  (forall j, (j < k)%nat -> find_nick (s +:+ underscores j) false l <> None) ->
  free_name_from fuel l s = Some (s +:+ underscores k).
Proof.
  induction k as [|k IH]; intros [|fuel] s Hk Hf Ht; try lia; cbn [free_name_from].
  - cbn [underscores] in *. rewrite app_nil_s in *. by rewrite Hf.
  - pose proof (Ht 0%nat ltac:(lia)) as H0. cbn [underscores] in H0. rewrite app_nil_s in H0.
    destruct (find_nick s false l); [|done]. rewrite IH, underscores_snoc; [done|lia|by rewrite underscores_snoc|].
    intros j Hj. rewrite underscores_snoc. apply Ht. lia.
Qed.
Lemma free_name_found l s :
  exists k, free_name_from (S (length l)) l s = Some (s +:+ underscores k)
    /\ find_nick (s +:+ underscores k) false l = None.
Proof.
  destruct (first_free Case.strlower (lower_keys l) s slen_strlower) as (k & Hk & Hf & Ht).
  unfold lower_keys in Hk at 1. rewrite List.length_map in Hk. exists k. split; [|by apply find_nick_out].
  apply free_name_at; [lia|by apply find_nick_out|]. intros j Hj. by apply find_nick_taken, Ht.
Qed.

(** The bits of [mode_diff]. *)
Lemma land_pow2 a i : 0 <= i -> negb (Z.land a (Z.shiftl 1 i) =? 0) = Z.testbit a i.
Proof.
  intros Hi. rewrite Z.shiftl_1_l. destruct (Z.testbit a i) eqn:E.
  - apply negb_true_iff, Z.eqb_neq. intros H. apply (f_equal (fun z => Z.testbit z i)) in H.
    rewrite Z.land_spec, E, Z.pow2_bits_true, Z.bits_0 in H by done. done.
  - apply negb_false_iff, Z.eqb_eq. apply Z.bits_inj'. intros n Hn.
    rewrite Z.land_spec, Z.bits_0. destruct (Z.eq_dec n i) as [->|]; [by rewrite E|].
    rewrite Z.pow2_bits_false by done. by rewrite andb_false_r.
Qed.
Lemma mode_diff_step d l k n :
  d = Z.land (Z.ldiff l k) (Z.ones n) -> 0 <= n ->
  (if Z.testbit l n && negb (Z.testbit k n) then Z.lor d (Z.shiftl 1 n) else d)
  = Z.land (Z.ldiff l k) (Z.ones (n + 1)).
Proof.
  intros -> Hn. apply Z.bits_inj'. intros i Hi.
  assert (H : Z.testbit (Z.ones (n + 1)) i = (Z.testbit (Z.ones n) i || (i =? n))).
  { destruct (Z.eqb_spec i n) as [->|Hne].
    - rewrite Z.ones_spec_low by lia. by rewrite orb_true_r.
    - rewrite orb_false_r. destruct (Z.lt_ge_cases i n).
      + by rewrite !Z.ones_spec_low by lia.
      + by rewrite !Z.ones_spec_high by lia. }
  rewrite !Z.land_spec, H, Z.ldiff_spec.
  destruct (Z.testbit l n && negb (Z.testbit k n)) eqn:E.
  - rewrite Z.lor_spec, Z.land_spec, Z.ldiff_spec, Z.shiftl_1_l.
    destruct (Z.eqb_spec i n) as [->|].
    + rewrite Z.pow2_bits_true by done. by rewrite E, !orb_true_r.
    + rewrite Z.pow2_bits_false by done. by rewrite !orb_false_r.
  - rewrite Z.land_spec, Z.ldiff_spec. destruct (Z.eqb_spec i n) as [->|].
    + by rewrite E.
    + by rewrite orb_false_r.
Qed.
Lemma mode_diff_spec l k :
  0 <= l < 2 ^ 32 -> 0 <= k < 2 ^ 32 -> mode_diff l k = (Z.ldiff k l, Z.ldiff l k).
Proof.
  intros Hl Hk. unfold mode_diff.
  assert (Hgen : forall n,
    foldl (fun '(add, del) i =>
           let b := Z.shiftl 1 (Z.of_nat i) in
           let x := negb (Z.land l b =? 0) in
           let y := negb (Z.land k b =? 0) in
           (if negb x && y then Z.lor add b else add,
            if x && negb y then Z.lor del b else del)) (0, 0) (seq 0 n)
    = (Z.land (Z.ldiff k l) (Z.ones (Z.of_nat n)), Z.land (Z.ldiff l k) (Z.ones (Z.of_nat n)))).
  { induction n as [|n IH]; [cbn; by rewrite !Z.land_0_r|].
    rewrite seq_S, foldl_app, IH. cbn [foldl Nat.add]. rewrite !land_pow2 by lia.
    rewrite Nat2Z.inj_succ, <- Z.add_1_r.
    f_equal; [rewrite andb_comm|]; (apply mode_diff_step; [done|lia]). }
  rewrite Hgen.
  assert (Hb : forall a b, 0 <= a < 2 ^ 32 -> Z.land (Z.ldiff a b) (Z.ones (Z.of_nat 32)) = Z.ldiff a b).
  { intros a b Ha. apply Z.bits_inj'. intros i Hi. rewrite Z.land_spec, Z.ldiff_spec.
    destruct (Z.lt_ge_cases i 32).
    - rewrite Z.ones_spec_low by lia. by rewrite andb_true_r.
    - rewrite Z.ones_spec_high by lia. rewrite andb_false_r.
      rewrite (Z.bits_above_log2 a i); [done|lia|].
      destruct (Z.eq_dec a 0) as [->|]; [cbn; lia|]. apply Z.log2_lt_pow2; [lia|].
      eapply Z.lt_le_trans; [apply Ha|]. apply Z.pow_le_mono_r; lia. }
  by rewrite !Hb.
Qed.
Lemma mode_diff_apply l k : Z.ldiff (Z.lor l (Z.ldiff k l)) (Z.ldiff l k) = k.
Proof.
  apply Z.bits_inj'. intros n Hn. rewrite Z.ldiff_spec, Z.lor_spec, !Z.ldiff_spec.
  by destruct (Z.testbit l n), (Z.testbit k n).
Qed.
End KindLemmas.

(** * Properties *)

Import Kinds View Wf Leave Join KindLemmas DemoWf.

(** The search for a free nickname ends: with one more turn than there are
    nicks, [while(irc->getNick(s)) s += "_"] finds [s] followed by underscores
    which no nick of the table has, whatever the case. *)
Theorem free_name_fresh {env : Env} (s : string) (w : world) :
  match free_name s w with
  | Ok s' w' => w' = w /\ (exists k, s' = s +:+ underscores k)
      /\ getNick s' false w = Ok None w
  | _ => False
  end.
Proof.
  unfold free_name, getNick, bind. cbn. set (l := sorted _).
  destruct (free_name_found l s) as (k & H1 & H2).
  change (match find_nick s false l with Some _ => _ | None => _ end)
    with (free_name_from (S (length l)) l s).
  rewrite H1. cbn. split; [done|]. split; [by exists k|]. by rewrite H2.
Qed.

(** [updateBuddy] brings the status of a chat buddy exactly to the flags
    libpurple gives, and what it announces is the difference: the modes that were
    gained with [+], those that were lost with [-]. *)
Theorem updateBuddy_status {env : Env} (w : world) (c : cid) (k : kid) (ch : channel)
    (ce : conv_entity) (up : option sid) (cb : list (kid * uid)) (u : uid) (x : chanuser) :
  wf w -> h_chans (w_heap w) !! c = Some ch -> ch_kind ch = KConversation ce up cb ->
  List.find (fun '(k', _) => (k' =? k)%nat) cb = Some (k, u) ->
  h_cus (w_heap w) !! u = Some x -> 0 <= cu_status x < 2 ^ 31 ->
  0 <= k_status (o_trace (w_io w)) k < 2 ^ 31 ->
  mode_diff (cu_status x) (k_status (o_trace (w_io w)) k)
    = (Z.ldiff (k_status (o_trace (w_io w)) k) (cu_status x),
       Z.ldiff (cu_status x) (k_status (o_trace (w_io w)) k))
  /\ safe (updateBuddy c k)
    (fun _ w' => wf w' /\ exists x', h_cus (w_heap w') !! u = Some x'
       /\ cu_nick x' = cu_nick x /\ cu_status x' = k_status (o_trace (w_io w)) k) w.
Proof.
  intros W Hc Hk Hf Hx Hs Hst. set (st := k_status _ k) in *.
  assert (Hd : mode_diff (cu_status x) st = (Z.ldiff st (cu_status x), Z.ldiff (cu_status x) st)).
  { apply mode_diff_spec; (split; [lia|]); (eapply Z.lt_le_trans; [apply Hs || apply Hst|]); lia. }
  split; [done|]. unfold updateBuddy. apply wp_bind. eapply wp_get_chan; [done|]. rewrite Hk, Hf.
  apply wp_bind. eapply wp_get_cu; [done|]. apply wp_bind, wp_ask. fold st. rewrite Hd.
  apply wp_bind, wp_bind, wp_get, wp_ret, wp_bind.
  assert (Hdel : forall w1 s1, wf w1 -> w_irc w1 = w_irc w -> h_chans (w_heap w1) = h_chans (w_heap w) ->
    h_cus (w_heap w1) !! u = Some (with_status x s1) -> Z.ldiff s1 (Z.ldiff (cu_status x) st) = st ->
    safe (when (negb (Z.ldiff (cu_status x) st =? 0))
            (delMode c (Some (EServer (i_self (w_irc w)))) (Z.ldiff (cu_status x) st) u))
      (fun _ w' => wf w' /\ exists x', h_cus (w_heap w') !! u = Some x'
         /\ cu_nick x' = cu_nick x /\ cu_status x' = st) w1).
  { intros w1 s1 W1 Hi Hcs Hu E. apply wp_when; intros Hz.
    - eapply wp_mono; [eapply wp_changeMode; [done|done|by rewrite Hcs|]| |done].
      { intros e [= <-]. by rewrite Hi. }
      intros ? w2 (W2 & _ & Hh2). split; [done|]. eexists.
      split; [rewrite Hh2; apply lookup_insert_eq|]. split; [done|]. cbn.
      by destruct (Z.ldiff (cu_status x) st =? 0).
    - split; [done|]. exists (with_status x s1). split; [done|]. split; [done|]. cbn.
      apply negb_false_iff, Z.eqb_eq in Hz. by rewrite Hz, Z.ldiff_0_r in E. }
  apply wp_when; intros Hz.
  - eapply wp_mono; [eapply wp_changeMode; [done|done|done|]| |done]; [by intros e [= <-]|].
    intros ? w1 (W1 & Hi1 & Hh1).
    apply (Hdel w1 (Z.lor (cu_status x) (Z.ldiff st (cu_status x)))); [done|done|by rewrite Hh1| |].
    + rewrite Hh1. cbn. rewrite lookup_insert_eq. by destruct (Z.ldiff st (cu_status x) =? 0).
    + apply mode_diff_apply.
  - apply (Hdel w (cu_status x)); [done|done|done|by destruct x|].
    apply negb_false_iff, Z.eqb_eq in Hz.
    rewrite <- (mode_diff_apply (cu_status x) st) at 2. by rewrite Hz, Z.lor_0_r.
Qed.

Theorem updateBuddy_status_witness :
  mode_diff 1 1 = (Z.ldiff 1 1, Z.ldiff 1 1)
  /\ safe (@updateBuddy demo 7%nat 1%nat)
    (fun _ w' => wf w' /\ exists x', h_cus (w_heap w') !! 10%nat = Some x'
       /\ cu_nick x' = 9%nat /\ cu_status x' = 1) demo_world.
Proof.
  apply (@updateBuddy_status demo demo_world 7%nat 1%nat
    (Channel "#room:jabber0" "" [8; 10]%nat
       (KConversation (CE (Some 0%nat) []) (Some 2%nat) [(0, 8); (1, 10)]%nat))
    (CE (Some 0%nat) []) (Some 2%nat) [(0, 8); (1, 10)]%nat 10%nat (ChanUser "bob" 9 7 VOICE));
    [exact demo_wf|reflexivity..|vm_compute; split; congruence|vm_compute; split; congruence].
Defined.
