(* ===== verification/Irc.v ===== *)
(** irc/irc.cpp: the life of the [irc::IRC] object - construction, registration,
    pings, end - and irc/user.cpp. *)

From S2P Require Import Prelude Util Message Log World Dcc Nick Demo Logic Channel Registry Members Kinds.
Import W Obj Names Send Chan Reg Kinds.

Module Irc.
Section Irc.
Context {env : Env}.

(** ** The user *)

Definition the_user : M nick := let! u := user; get_nick u.
Definition up_user (f : nick -> nick) : M unit :=
  let! u := user; let! x := get_nick u; put_nick u (f x).
Definition up_ukind (f : string -> Z -> bool -> nick_kind) : M unit :=
  let! x := the_user;
  match nk_kind x with
  | KUser p l b => up_user (fun x => with_kind x (f p l b))
  | _ => stuck "user is not a User"
  end.
Definition setPassword (pw : string) : M unit := up_ukind (fun _ l b => KUser pw l b).
Definition setLastReadNow : M unit :=
  let! now := get (fun w => o_now (w_io w)); up_ukind (fun p _ b => KUser p now b).
Definition getLastRead : M Z :=
  let! x := the_user;
  match nk_kind x with KUser _ l _ => ret l | _ => stuck "user is not a User" end.
Definition getPassword : M string :=
  let! x := the_user;
  match nk_kind x with KUser p _ _ => ret p | _ => stuck "user is not a User" end.
(** [User::close]. *)
Definition user_close : M unit := up_ukind (fun p l _ => KUser p l false).
Definition setFlag (f : Z) : M unit := up_user (fun x => with_flags x (Z.lor (nk_flags x) f)).
Definition delFlag (f : Z) : M unit := up_user (fun x => with_flags x (Z.ldiff (nk_flags x) f)).
Definition hasFlag (f : Z) : M bool := let! x := the_user; ret (Log.hasb (nk_flags x) f).

Definition getServerName : M string :=
  let! s := self; let! x := get_server s; ret (sv_name x).

(** A message to the user which is not a reply of the server. *)
Definition to_user (cmd : string) (s r : option ent) (args : list string) : M unit :=
  let! u := user; let! m := mkmsg cmd s r args; send u m.

Definition ipc_send (cmd : string) (args : list string) : M bool :=
  let! m := mkmsg cmd None None args;
  emit (IpcSend m);;
  let! r := ask ipc_result; ret r.

(** ** MOTD *)

(** The loop of [IRC::setMotd] with its buffer of 511 bytes: a line that does not
    fit makes the stream fail, and the [getline] which meets the end of the file
    leaves an empty line. *)
Fixpoint motd_lines (l : list string) : list string :=
  match l with
  | [] => [""]
  | s :: l => if (slen s <=? 510)%nat then s :: motd_lines l else [stake 510 s]
  end.
Definition setMotd : M unit :=
  match conf_motd with
  | None => b_log Log.W_WARNING "Unable to read MOTD"
  | Some l => put (on_irc (up_i_motd (fun _ => motd_lines l)))
  end.
(** [IRC::rehash]. *)
Definition rehash (verbose : bool) : M unit :=
  setMotd;;
  when verbose (b_log (Z.lor Log.W_INFO Log.W_SNO) "Server configuration rehashed.").

(** [IRC::m_motd]. *)
Definition m_motd (m : message) : M unit :=
  let! nm := getServerName;
  reply "375" ["- " +:+ nm +:+ " Message Of The Day -"];;
  let! i := get w_irc;
  mapM_ (fun s => reply "372" ["- " +:+ s]) (i_motd i);;
  reply "376" ["End of /MOTD command."].

(** ** End of the session *)

(** [IRC::quit]. *)
Definition irc_quit (reason : string) : M unit :=
  to_user "ERROR" None None ["Closing Link: " +:+ reason];;
  user_close;;
  let! open := get (fun w => o_sockw (w_io w));
  when open (emit CloseSock);;
  put (on_io (up_o_sockw (fun _ => false)));;
  emit PollKill.

(** [IRC::~IRC]. *)
Definition irc_delete : M unit :=
  let! open := get (fun w => o_sockw (w_io w));
  when open (emit CloseSock);;
  cleanUpNicks;;
  cleanUpServers;;
  cleanUpChannels;;
  cleanUpDCC.

(** ** Registration *)

Definition UMODES : string := "o".
Definition CHMODES : string := "qohvb".

(** The part of [IRC::sendWelcome] after the authentication. *)
Definition welcome : M unit :=
  put (on_irc (up_i_im (fun _ => true)));;
  setFlag REGISTERED;;
  let! x := the_user;
  let! _r := ipc_send "USER" [nk_name x];
  let! nm := getServerName;
  reply "001" ["Welcome to the Minbif IRC gateway, " +:+ nk_name x +:+ "!"];;
  reply "002" ["Your host is " +:+ nm +:+ ", running " +:+ version];;
  reply "003" ["This server was created " +:+ created];;
  reply "004" [nm; version; UMODES; CHMODES];;
  reply "005" ["CMDS=MAP"; "CHANTYPES=#&"; "PREFIX=(qohv)~@%+"; "STATUSMSG=~@%+";
               "are supported by this server"];;
  m_motd Msg.mk0;;
  im_call ImRestore;;
  let! away_ := ask im_away;
  when away_
    (up_user (fun x => with_away x "Away");;
     reply "306" ["You have been marked as being away"]).

(** [IRC::sendWelcome]; [inr] of an authentication is the [IMError] it throws. *)
Definition sendWelcome : M unit :=
  let! x := the_user;
  if Log.hasb (nk_flags x) REGISTERED || String.eqb (nk_name x) "*" || sempty (identname x)
  then ret tt
  else
    let failed e := irc_quit ("Unable to initialize IM: " +:+ e) in
    let! pw := getPassword;
    im_call (AuthValidate (nk_name x) pw);;
    let! r := ask auth_result;
    match r with
    | inr e => failed e
    | inl true => welcome
    | inl false =>
      let! known := ask im_exists;
      if known (nk_name x) then irc_quit "Incorrect credentials"
      else if negb (String.eqb conf_password " ") && negb (String.eqb pw conf_password) then
        irc_quit "This server is protected by a global private password.  Ask administrator."
      else
        im_call (AuthGenerate (nk_name x) pw);;
        let! r := ask auth_result;
        match r with
        | inr e => failed e
        | inl true => welcome
        | inl false =>
          irc_quit "Creation of new account failed";;
          stuck "NULL im_auth"
        end
    end.

(** ** Ping *)

(** [IRC::ping], the callback of the timer; the result says whether to go on. *)
Definition ping : M bool :=
  let! last := getLastRead;
  let! i := get w_irc;
  let! now := get (fun w => o_now (w_io w));
  if now <? last + i_ping_freq i then ret true
  else
    let! reg := hasFlag REGISTERED;
    let! png := hasFlag PING;
    if negb reg || png then irc_quit "Ping timeout";; ret false
    else
      setFlag PING;;
      let! nm := getServerName;
      to_user "PING" None None [nm];;
      ret true.

(** ** Construction *)

(** [IRC::IRC]; [uninit] is the value of [User::last_read], which no constructor
    sets. A host name with a space makes it throw (the log line goes to the
    standard output of the daemon). *)
Definition irc_new (hostname server_host client_host : string) (freq uninit : Z) : M unit :=
  if negb (sempty hostname) && negb (String.eqb hostname " ") && contains " " hostname then
    throw (SockError "Wrong server hostname")
  else
    let name := if sempty hostname || String.eqb hostname " " then server_host else hostname in
    let! s := alloc;
    put_server s (Server name version [] SIrc);;
    put (on_irc (up_i_self (fun _ => s)));;
    let! now := get (fun w => o_now (w_io w));
    put (on_irc (up_i_uptime (fun _ => now)));;
    put (on_irc (up_i_ping_freq (fun _ => freq)));;
    let! u := alloc;
    put_nick u (Nick "*" "" (fix_host client_host) "" "" s 0 [] (KUser "" uninit true));;
    put (on_irc (up_i_user (fun _ => u)));;
    addNick u;;
    when (0 <? freq) (emit (Timer (freq * 1000) "IRC::ping"));;
    rehash false;;
    let! m := lift (Msg.addArg "Minbif-IRCd initialized, please go on"
                (Msg.setReceiverName "AUTH" (Msg.setSender (EServer s) (Msg.mk "NOTICE"))));
    send u m.
End Irc.
End Irc.
