(* ===== verification/Cmds.v ===== *)
(** irc/cmds.cpp and irc/settings.cpp: the commands about the user, the server and
    the operators. A handler takes the message it answers; the checks of [readIO]
    (number of arguments, flags) are made before it is called. *)

From S2P Require Import Prelude Util Message Log World Dcc Nick Channel Registry Kinds Irc.
Import W Obj Names Send Chan Reg Kinds Irc.

Module Cmds.
Section Cmds.
Context {env : Env}.

(** [message.getArg(i)]. *)
Definition arg (i : nat) (m : message) : M string := lift (Msg.getArg i m).
(** The optional argument [i]. *)
Definition opt_arg (i : nat) (d : string) (m : message) : M string :=
  if (i <? Msg.countArgs m)%nat then arg i m else ret d.
(** The words of [l] put back together with spaces, as the handlers do. *)
Definition joinw (l : list string) : string :=
  foldl (fun v s => (if sempty v then v else v +:+ " ") +:+ s) "" l.

(** PING *)
Definition m_ping (m : message) : M unit :=
  let! s := e_self; let! u := user;
  let! m := lift (Msg.setCommand "PONG" m);
  send u (Msg.setReceiver s (Msg.setSender s m)).

(** PONG *)
Definition m_pong (m : message) : M unit := delFlag PING.

(** NICK *)
Definition m_nick (m : message) : M unit :=
  let! reg := hasFlag REGISTERED;
  if (Msg.countArgs m <? 1)%nat then reply "431" ["No nickname given"]
  else if (reg : bool) then
    reply "438" ["The hand of the deity is upon thee, thy nick may not change"]
  else
    let! nick := arg 0 m;
    if negb (isValidNickname nick) then reply "432" ["This nick contains invalid characters"]
    else
      let! u := user;
      renameNick u nick;;
      sendWelcome.

(** USER *)
Definition m_user (m : message) : M unit :=
  let! reg := hasFlag REGISTERED;
  if (reg : bool) then reply "462" ["Please register only once per session"]
  else
    let! u := user;
    let! ident := arg 0 m;
    setIdentname u ident;;
    let! real := arg 3 m;
    up_user (fun x => with_real x real);;
    sendWelcome.

(** PASS *)
Definition m_pass (m : message) : M unit :=
  let! password := arg 0 m;
  let! reg := hasFlag REGISTERED;
  if (reg : bool) then reply "462" ["Please register only once per session"]
  else if (slen password <? 8)%nat then irc_quit "Password is too short (at least 8 characters)"
  else if has_char " " password then irc_quit "Password may not contain spaces"
  else setPassword password.

(** QUIT *)
Definition m_quit (m : message) : M unit :=
  let! reason := opt_arg 0 "Leaving..." m;
  irc_quit ("Quit: " +:+ reason).

(** VERSION *)
Definition m_version (m : message) : M unit :=
  let! nm := getServerName; reply "351" [version; nm; build].

(** INFO *)
Definition m_info (m : message) : M unit :=
  mapM_ (fun t => reply "371" [t]) infotxt;;
  reply "374" ["End of /INFO list."].

(** ** ADMIN (settings.cpp) *)

(** The classes derived from [SettingBase]. *)
Inductive setting :=
| SPassword | SBool (key : string) | SSendDelay | SLogLevel | SProxy
| SProxyItem (key : string) | SMinbif.

Definition settings : list (string * bool * setting) :=
  [("password", true, SPassword);
   ("typing_notice", true, SBool "typing_notice");
   ("accept_nobuddies_messages", true, SBool "accept_nobuddies_messages");
   ("send_delay", true, SSendDelay);
   ("voiced_buddies", true, SBool "voiced_buddies");
   ("server_aliases", true, SBool "server_aliases");
   ("away_idle", true, SBool "away_idle");
   ("log_level", true, SLogLevel);
   ("proxy", true, SProxy);
   ("proxy_host", true, SProxyItem "proxy_host");
   ("proxy_port", true, SProxyItem "proxy_port");
   ("proxy_user", true, SProxyItem "proxy_user");
   ("proxy_pass", true, SProxyItem "proxy_pass");
   ("minbif", false, SMinbif)].

(** [getValue]; the booleans print as true or false, a proxy which is not set as
    the empty text. *)
Definition getValue (s : setting) : M string :=
  match s with
  | SPassword => let! f := ask im_password; ret f
  | SBool key => let! f := ask im_setting; ret (if String.eqb (f key) "true" then "true" else "false")
  | SSendDelay => let! d := ask im_send_delay; ret (t2s d)
  | SLogLevel => let! l := get (fun w => o_log (w_io w)); ret (Log.formatLoggedFlags l)
  | SProxy => let! f := ask im_setting; ret (f "proxy")
  | SProxyItem key =>
    let! p := ask im_proxy; let! f := ask im_setting;
    ret (if p then f key else "")
  | SMinbif => ret "Minbif Is Not Bitlbee Fool"
  end.

(** [setValue]; [s2t] of a text without digits before it is not defined. *)
Definition setValue (s : setting) (v : string) : M bool :=
  match s with
  | SPassword => im_call (AuthSetPassword v);; let! ok := ask call_ok; ret ok
  | SBool key =>
    if String.eqb v "1" || String.eqb v "true" then im_call (ImSet key "true");; ret true
    else if String.eqb v "0" || String.eqb v "false" then im_call (ImSet key "false");; ret true
    else let! u := user; notice u "Value must be 'true' or 'false'";; ret false
  | SSendDelay =>
    match Num.s2t_signed 32 v with
    | Some d => im_call (ImSet "send_delay" (t2s d));; ret true
    | None => stuck "uninitialised"
    end
  | SLogLevel =>
    put (on_io (up_o_log (fun l => Log.setLoggedFlags v (Log.to_syslog l))));; ret true
  | SProxy =>
    if existsb (String.eqb v) ["none"; "sock4"; "sock5"; "http"; "envvar"]
    then im_call (PrefSet "proxy" v);; ret true
    else let! u := user;
         notice u "Available values are: none, sock4, sock5, http, envvar";; ret false
  | SProxyItem key =>
    let! p := ask im_proxy;
    if negb p then ret false
    else if String.eqb key "proxy_port" then
      match Num.s2t_signed 32 v with
      | Some d => im_call (PrefSet key (t2s d));; ret true
      | None => stuck "uninitialised"
      end
    else im_call (PrefSet key v);; ret true
  | SMinbif => let! u := user; notice u "Wilmer, I see you!";; ret false
  end.

Definition show_setting (key : string) (s : setting) : M unit :=
  let! v := getValue s; reply "256" ["- " +:+ key +:+ " = " +:+ v].

(** ADMIN *)
Definition m_admin (m : message) : M unit :=
  let! i := get w_irc;
  if negb (i_im i) then stuck "assert(im != NULL)"
  else
    match Msg.args m with
    | [] => mapM_ (fun '(key, display, s) => when display (show_setting key s)) settings
    | key :: rest =>
      match List.find (fun '(k, _, _) => String.eqb key k) settings with
      | None => let! u := user; notice u ("Key " +:+ key +:+ " does not exist.")
      | Some (k, _, s) =>
        match rest with
        | [] => show_setting k s
        | _ => let! _r := setValue s (joinw rest); show_setting k s
        end
      end
    end.

(** MODE *)
Definition m_mode (m : message) : M unit :=
  let! target := arg 0 m;
  let! u := user;
  let! relayed := mkmsg (Msg.cmd m) (Some (ENick u)) None (tail (Msg.args m));
  if isChanName target then
    let! o := getChannel target;
    match o with
    | None => reply "403" [target; "No suck channel"]
    | Some c => chan_m_mode c u (Msg.setReceiver (EChan c) relayed)
    end
  else
    let! o := getNick target false;
    match o with
    | None => reply "401" [target; "No suck nick"]
    | Some n => nick_m_mode n u (Msg.setReceiver (ENick n) relayed)
    end.

(** AWAY *)
Definition m_away (m : message) : M unit :=
  let! text := opt_arg 0 "" m;
  im_call (ImSetStatus text);;
  let! ok := ask call_ok;
  when ok
    (up_user (fun x => with_away x text);;
     if sempty text then reply "305" ["You are no longer marked as being away"]
     else reply "306" ["You have been marked as being away"]).

(** OPER *)
Definition m_oper (m : message) : M unit :=
  let! op := hasFlag OPER;
  if (op : bool) then reply "381" ["You are already an IRC Operator"]
  else
    let! login := arg 0 m;
    let! password := arg 1 m;
    if existsb (fun '(l, p, _) => String.eqb l login && String.eqb p password) conf_opers then
      setFlag OPER;;
      let! u := user;
      to_user "MODE" (Some (ENick u)) (Some (ENick u)) ["+o"];;
      reply "381" ["You are now an IRC Operator"];;
      let! x := the_user;
      let! _r := ipc_send "OPER" [nk_name x];
      ret tt
    else reply "464" ["Password incorrect"].

(** WALLOPS *)
Definition m_wallops (m : message) : M unit :=
  let! x := the_user;
  let! text := arg 0 m;
  let! ok := ipc_send "WALLOPS" [nk_name x; text];
  when (negb ok) (b_log Log.W_ERR "You're alone!").

(** REHASH: [ServerPoll::rehash] of a process with an IRC session. *)
Definition m_rehash (m : message) : M unit :=
  reply "382" ["Rehashing"];;
  emit PollRehash;;
  rehash true.

(** DIE *)
Definition m_die (m : message) : M unit :=
  let! x := the_user;
  let! reason := arg 0 m;
  let! ok := ipc_send "DIE" [nk_name x; reason];
  when (negb ok)
    (b_log (Z.lor Log.W_INFO Log.W_SNO)
       ("This instance of MinBif is dying... Reason: " +:+ reason);;
     irc_quit ("Shutdown requested: " +:+ reason)).

(** ** STATS *)

(** The rows of [IRC::commands], in order: name, minimum of arguments, flags. *)
Definition commands : list (string * nat * Z) :=
  [("NICK", 0%nat, 0); ("USER", 4%nat, 0); ("PASS", 1%nat, 0); ("QUIT", 0%nat, 0);
   ("CMD", 2%nat, REGISTERED); ("PRIVMSG", 2%nat, REGISTERED); ("PING", 0%nat, REGISTERED);
   ("PONG", 1%nat, REGISTERED); ("VERSION", 0%nat, REGISTERED); ("INFO", 0%nat, REGISTERED);
   ("WHO", 0%nat, REGISTERED); ("WHOIS", 1%nat, REGISTERED); ("WHOWAS", 1%nat, REGISTERED);
   ("STATS", 0%nat, REGISTERED); ("CONNECT", 1%nat, REGISTERED); ("SCONNECT", 1%nat, REGISTERED);
   ("SQUIT", 1%nat, REGISTERED); ("MAP", 0%nat, REGISTERED); ("ADMIN", 0%nat, REGISTERED);
   ("JOIN", 1%nat, REGISTERED); ("PART", 1%nat, REGISTERED); ("NAMES", 1%nat, REGISTERED);
   ("TOPIC", 1%nat, REGISTERED); ("LIST", 0%nat, REGISTERED); ("MODE", 1%nat, REGISTERED);
   ("ISON", 1%nat, REGISTERED); ("INVITE", 2%nat, REGISTERED); ("KICK", 2%nat, REGISTERED);
   ("KILL", 1%nat, REGISTERED); ("SVSNICK", 2%nat, REGISTERED); ("AWAY", 0%nat, REGISTERED);
   ("MOTD", 0%nat, REGISTERED); ("OPER", 2%nat, REGISTERED); ("WALLOPS", 1%nat, OPER);
   ("REHASH", 0%nat, OPER); ("DIE", 1%nat, OPER)].

(** The text of the uptime, with its unsigned wrap-around. *)
Definition two (z : Z) : string := if z <? 10 then "0" +:+ t2s z else t2s z.
Definition uptime_text (elapsed : Z) : string :=
  let now := elapsed mod 2 ^ 32 in
  "Server Up " +:+ t2s (now / 86400) +:+ " days, " +:+ t2s ((now / 3600) mod 24) +:+ ":"
  +:+ two ((now / 60) mod 60) +:+ ":" +:+ two (now mod 60).

Definition plugin_line (p : plugin) : string :=
  "[" +:+ (if pl_loaded p then "+" else " ") +:+ "] " +:+ pl_id p +:+ " ("
  +:+ pl_name p +:+ ": " +:+ pl_summary p +:+ ")".
(** [plug.load()] or [plug.unload()], which may throw [LoadError]. *)
Definition plugin_do (u : nid) (call : imcall) (p : plugin) (done_ : string) : M unit :=
  im_call call;;
  let! e := ask call_error;
  match e with
  | None => notice u ("Plugin '" +:+ pl_id p +:+ "' " +:+ done_ +:+ ".")
  | Some reason => notice u reason
  end.
Definition stats_plugins (u : nid) (m : message) : M unit :=
  let! plugins := ask im_plugins;
  match tail (Msg.args m) with
  | [] => mapM_ (fun p => notice u (plugin_line p)) plugins
  | id :: rest =>
    match List.find (fun p => String.eqb (pl_id p) id) plugins with
    | None => notice u (id +:+ ": No such plugin")
    | Some p =>
      match rest with
      | [] =>
        notice u ("-- Information about " +:+ pl_id p);;
        notice u "Description: ";;
        notice u (pl_desc p);;
        notice u ("Loaded: " +:+ if pl_loaded p then "true" else "false")
      | command :: _ =>
        if Ascii.eqb (shead command) "l" then plugin_do u (PluginLoad (pl_id p)) p "loaded"
        else if Ascii.eqb (shead command) "u" then plugin_do u (PluginUnload (pl_id p)) p "unloaded"
        else notice u ("No suck command: " +:+ command)
      end
    end
  end.
Definition stats_help : list string :=
  ["a (aways) - List all away messages availables";
   "c (chat params) - List all chat parameters for a specific account";
   "m (commands) - List all IRC commands";
   "o (opers) - List all opers accounts";
   "p (protocols) - List all protocols";
   "P (plugins) - List, load and configure plugins";
   "u (uptime) - Display the server uptime"].

(** The [switch] of [m_stats]: the argument to show at the end. *)
Definition stats_switch (u : nid) (a : string) (m : message) : M string :=
  let c := shead a in
  if Ascii.eqb c "a" then
    mapM_ (fun '(id, nm) => notice u (id +:+ ": " +:+ nm)) primitives;; ret a
  else if Ascii.eqb c "c" then
    let! accid := opt_arg 1 "" m;
    let! o := getAccount accid;
    let! con := ask a_connected;
    (match o with
     | Some acc =>
       if con acc then
         let! f := ask a_chat_params;
         mapM_ (fun '(k, v) => notice u (k +:+ " = " +:+ v)) (f acc)
       else reply "403" [accid; "No such account"]
     | None => reply "403" [accid; "No such account"]
     end);; ret a
  else if Ascii.eqb c "m" then
    let! i := get w_irc;
    mapM_ (fun '(cmd, _, _) => reply "212" [cmd; t2s (default 0 (i_counts i !! cmd)); "0"])
      commands;; ret a
  else if Ascii.eqb c "o" then
    mapM_ (fun '(login, _, email) => reply "243" ["O"; email; "*"; login]) conf_opers;; ret a
  else if Ascii.eqb c "p" then
    let! l := ask im_protocols;
    mapM_ (fun p => notice u (p_id p +:+ ": " +:+ p_name p)) l;; ret a
  else if Ascii.eqb c "P" then stats_plugins u m;; ret a
  else if Ascii.eqb c "u" then
    let! now := get (fun w => o_now (w_io w));
    let! i := get w_irc;
    reply "242" [uptime_text (now - i_uptime i)];; ret a
  else mapM_ (fun s => notice u s) stats_help;; ret "*".

(** STATS *)
Definition m_stats (m : message) : M unit :=
  let! a := opt_arg 0 "*" m;
  let! u := user;
  let! a := stats_switch u a m;
  reply "219" [a; "End of /STATS report"].
End Cmds.
End Cmds.
