(* ===== verification/CmdsChannels.v ===== *)
(** irc/cmds_channels.cpp: the commands about nicks and channels. *)

From S2P Require Import Prelude Util Message Log World Dcc Nick Channel Registry Kinds Irc Cmds.
Import W Obj Names Send Chan Reg Kinds Irc Cmds.

Module CmdsC.
Section CmdsC.
Context {env : Env}.

(** ** WHO *)

Definition WHO_STATUS : Z := 1.
(** The loop on the arguments: the mask and the flags. An argument starting with
    plus or minus (or empty, since strchr finds the NUL) is a list of flags. *)
Fixpoint who_flags (s : string) (add : bool) (flags : Z) : Z :=
  match s with
  | EmptyString => flags
  | String c s =>
    if Ascii.eqb c "+" then who_flags s true flags
    else if Ascii.eqb c "-" then who_flags s false flags
    else if Ascii.eqb c "s" then
      who_flags s add (if add then Z.lor flags WHO_STATUS else Z.ldiff flags WHO_STATUS)
    else who_flags s add flags
  end.
Fixpoint who_args (l : list string) (arg : string) (flags : Z) : string * Z :=
  match l with
  | [] => (arg, flags)
  | a :: l =>
    if negb (strchr "+-" (shead a)) then who_args l a flags
    else who_args l arg (who_flags a true flags)
  end.

(** The channel name shown for a nick; [None] skips it. *)
Definition who_chan (arg : string) (chan : option cid) (n : nid) (x : nick) : M (option string) :=
  let! s := get_server (nk_server x);
  if sempty arg || String.eqb arg "*" || String.eqb arg "0" || contains arg (sv_name s)
     || fnmatch arg (nk_name x)
  then
    match channels x with
    | [] => ret (Some "*")
    | u :: _ => let! cu := get_cu u; let! ch := get_chan (cu_chan cu); ret (Some (ch_name ch))
    end
  else
    match chan with
    | None => ret None
    | Some c => let! on := isOn n c; ret (if (on : bool) then Some arg else None)
    end.
Definition who_line (arg : string) (flags : Z) (chan : option cid) (e : string * nid) : M unit :=
  let n := e.2 in
  let! x := get_nick n;
  let! o := who_chan arg chan n x;
  match o with
  | None => ret tt
  | Some channame =>
    let! s := get_server (nk_server x);
    let! aw := isAway x;
    let! text := if Log.hasb flags WHO_STATUS then getStatusMessage x true else getRealName x;
    reply "352" [channame; identname x; hostname x; sv_name s; nk_name x;
                 if (aw : bool) then "G" else "H"; "0 " +:+ text]
  end.
Definition m_who (m : message) : M unit :=
  let '(arg, flags) := who_args (Msg.args m) "" 0 in
  let! chan := if sempty arg || negb (isChanName arg) then ret None else getChannel arg;
  when (sempty arg || negb (isChanName arg) || match chan with Some _ => true | None => false end)
    (let! l := users_list; mapM_ (who_line arg flags chan) l);;
  reply "315" [if sempty arg then "**" else arg; "End of /WHO list"].

(** ** WHOIS *)

(** The names of the channels of a nick, separated by spaces. *)
Fixpoint chan_names (l : list uid) (acc : string) : M string :=
  match l with
  | [] => ret acc
  | u :: l =>
    let! cu := get_cu u; let! ch := get_chan (cu_chan cu);
    chan_names l ((if sempty acc then acc else acc +:+ " ") +:+ ch_name ch)
  end.
Definition nick_buddy (x : nick) : option bid :=
  match nk_kind x with KBuddy b _ _ _ => Some b | _ => None end.
(** [getIconPath] and [retrieveInfo], which only a [Buddy] overrides. *)
Definition getIconPath (x : nick) : M string :=
  match nick_buddy x with
  | Some b => let! f := ask b_iconpath; ret (f b)
  | None => ret ""
  end.
Definition retrieveInfo (x : nick) : M bool :=
  match nick_buddy x with
  | Some b => im_call (BuddyRetrieveInfo b);; ret true
  | None => ret false
  end.
Definition whois_icon (x : nick) (width : Z) : M unit :=
  let! f := ask icon_of;
  match f (nick_buddy x) width with
  | IconText buf =>
    reply "320" [nk_name x; "Icon:"];;
    mapM_ (fun line => reply "320" [nk_name x; line])
      (Tok.tokens (String "013" (String "010" "")) buf)
  | CacaError => reply "320" [nk_name x; "No icon"]
  | CacaNotLoaded => reply "320" [nk_name x; "libcaca and imlib2 are required to display icon"]
  end.
(** The line with the URL of the icon: [substr] throws when the path is shorter than
    the directory of the user. *)
Definition whois_url (x : nick) : M unit :=
  let! path := getIconPath x;
  when (negb (String.eqb conf_icons_url " ") && negb (sempty path))
    (if (slen path <? slen im_user_path)%nat then stuck "std::out_of_range"
     else reply "320" [nk_name x; "Icon URL: " +:+ conf_icons_url +:+ im_username
                         +:+ sdrop (slen im_user_path) path]).
Definition m_whois (m : message) : M unit :=
  let! target := arg 0 m;
  let! o := getNick target false;
  match o with
  | None => reply "401" [target; "Nick does not exist"]
  | Some n =>
    let extended := (1 <? Msg.countArgs m)%nat in
    let! x := get_nick n;
    let! real := getRealName x;
    reply "311" [nk_name x; identname x; hostname x; "*"; real];;
    let! chans := chan_names (channels x) "";
    when (negb (sempty chans)) (reply "319" [nk_name x; chans]);;
    let! s := get_server (nk_server x);
    reply "312" [nk_name x; sv_name s; info s];;
    let! aw := isAway x;
    when aw (let! t := getAwayMessage x; reply "301" [nk_name x; t]);;
    let! status := getStatusMessage x false;
    when (negb (sempty status)) (reply "320" [nk_name x; status]);;
    when (Log.hasb (nk_flags x) OPER) (reply "313" [nk_name x; "is an IRC Operator"]);;
    whois_icon x (if extended then 15 else 10);;
    whois_url x;;
    let! async := if extended then retrieveInfo x else ret false;
    when (negb async) (reply "318" [nk_name x; "End of /WHOIS list"])
  end.

(** WHOWAS *)
Definition m_whowas (m : message) : M unit :=
  let! n := arg 0 m;
  reply "406" [n; "Nick does not exist"];;
  reply "369" [n; "End of WHOWAS"].

(** ** PRIVMSG *)

(** The loop over the targets: [relayed] is one message for all of them. *)
Fixpoint privmsg_loop (targets : list string) (text : string) (relayed : message) : M unit :=
  match targets with
  | [] => ret tt
  | target :: targets =>
    let! u := user;
    let! relayed := lift (Msg.addArg text (Msg.setSender (ENick u) relayed));
    if isChanName target then
      let! o := getChannel target;
      match o with
      | None => reply "403" [target; "No suck channel"]
      | Some c =>
        let relayed := Msg.setReceiver (EChan c) relayed in
        broadcast c relayed (Some u);;
        privmsg_loop targets text relayed
      end
    else
      let! o := getNick target false;
      match o with
      | None => reply "401" [target; "No suck nick"]
      | Some n =>
        let relayed := Msg.setReceiver (ENick n) relayed in
        send n relayed;;
        let! x := get_nick n;
        let! aw := isAway x;
        when aw (let! t := getAwayMessage x; reply "301" [nk_name x; t]);;
        privmsg_loop targets text relayed
      end
  end.
Definition m_privmsg (m : message) : M unit :=
  let! targets := arg 0 m;
  match Tok.tokens "," targets with
  | [] => ret tt
  | l => let! text := arg 1 m; privmsg_loop l text (Msg.mk (Msg.cmd m))
  end.

(** ** JOIN, PART *)

Definition no_channel (channame : string) : M unit := reply "403" [channame; "No such channel"].

(** The loop over the names; [parameters] are those not yet used. *)
Fixpoint join_loop (names : list string) (parameters : string) : M unit :=
  match names with
  | [] => ret tt
  | channame :: names =>
    if negb (isChanName channame) then no_channel channame;; join_loop names parameters
    else if isStatusChannel channame then
      let! o := getChannel channame;
      (match o with
       | None => no_channel channame
       | Some c => let! u := user; let! _r := join u c OP; ret tt
       end);;
      join_loop names parameters
    else
      let! o := getChannel channame;
      match o with
      | Some _ => join_loop names parameters
      | None =>
        let '(cn, accid) := Tok.stringtok (sdrop 1 channame) ":" in
        let '(pm, parameters) := Tok.stringtok parameters "," in
        let convname := url_decode cn in
        let param := url_decode pm in
        (if sempty accid || sempty convname then no_channel channame
         else
           let! acc := getAccount accid;
           let! con := ask a_connected;
           match acc with
           | None => no_channel channame
           | Some a =>
             if negb (con a) then im_call (AccEnqueueChannelJoin a convname)
             else
               im_call (AccJoinChat a convname param);;
               let! ok := ask call_ok;
               if negb ok then no_channel channame
               else emit (Timer 1000 ("check_channel_join " +:+ channame))
           end);;
        join_loop names parameters
      end
  end.
Definition m_join (m : message) : M unit :=
  let! names := arg 0 m;
  let! parameters := opt_arg 1 "" m;
  join_loop (Tok.tokens "," names) parameters.

(** [IRC::check_channel_join], the callback of the timer. *)
Definition check_channel_join (name : string) : M bool :=
  let! o := getChannel name;
  (match o with None => no_channel name | Some _ => ret tt end);; ret false.

Definition m_part (m : message) : M unit :=
  let! channame := arg 0 m;
  let! reason := opt_arg 1 "" m;
  let! o := getChannel channame;
  match o with
  | None => no_channel channame
  | Some c => let! u := user; part u c reason
  end.

(** ** LIST, ISON, NAMES, TOPIC, INVITE *)

Definition m_list (m : message) : M unit :=
  match Msg.args m with
  | [] =>
    reply "321" ["Channel"; "Users  Name"];;
    let! l := channels_list;
    mapM_ (fun '(_, c) =>
             let! ch := get_chan c;
             reply "322" [ch_name ch; t2s (Z.of_nat (length (users ch)))]) l;;
    reply "323" ["End of /LIST"]
  | name :: _ =>
    let! o := getAccount name;
    let! con := ask a_connected;
    match o with
    | Some a => if con a then im_call (AccDisplayRoomList a) else reply "323" ["End of /LIST"]
    | None => reply "323" ["End of /LIST"]
    end
  end.

Fixpoint ison_loop (l : list string) (acc : string) : M string :=
  match l with
  | [] => ret acc
  | nick :: l =>
    let! o := getNick nick false;
    match o with
    | None => ison_loop l acc
    | Some n =>
      let! x := get_nick n;
      let! on := isOnline x;
      ison_loop l (if (on : bool) then (if sempty acc then acc else acc +:+ " ") +:+ nk_name x
                   else acc)
    end
  end.
Definition m_ison (m : message) : M unit :=
  let! l := ison_loop (Msg.args m) ""; reply "303" [l].

Definition m_names (m : message) : M unit :=
  let! name := arg 0 m;
  let! o := getChannel name;
  match o with
  | None => no_channel name
  | Some c => let! u := user; sendNames c u
  end.

Definition m_topic (m : message) : M unit :=
  let! name := arg 0 m;
  let! o := getChannel name;
  match o with
  | None => no_channel name
  | Some c =>
    let! ch := get_chan c;
    if (Msg.countArgs m <? 2)%nat then
      let! t := getTopic c;
      if sempty t then reply "331" [ch_name ch; "No topic set."]
      else reply "332" [ch_name ch; t]
    else
      let! t := arg 1 m;
      let! u := user;
      let! ok := setTopic c (ENick u) t;
      when (negb ok) (reply "482" [ch_name ch; "You have no rights to change this channel topic!"])
  end.

Definition m_invite (m : message) : M unit :=
  let! name := arg 1 m;
  let! o := getChannel name;
  match o with
  | None => no_channel name
  | Some c =>
    let! nick := arg 0 m;
    let! u := user;
    let! ok := invite c u nick "";
    when ok (let! ch := get_chan c; reply "341" [nick; ch_name ch])
  end.

(** ** KICK, KILL, SVSNICK *)

Definition m_kick (m : message) : M unit :=
  let! name := arg 0 m;
  let! o := getChannel name;
  match o with
  | None => no_channel name
  | Some c =>
    let! ch := get_chan c;
    let! u := user;
    let! me := nick_getChanUser u c;
    match me with
    | None => reply "442" [ch_name ch; "You're not on that channel"]
    | Some user_chanuser =>
      let! nick := arg 1 m;
      let! cu := getChanUser c nick;
      match cu with
      | None => reply "401" [nick; "No such nick"]
      | Some chanuser =>
        let! text := opt_arg 2 "" m;
        let! _r := kick c user_chanuser chanuser text; ret tt
      end
    end
  end.

(** [dynamic_cast<Buddy*>] of the nick of that name, or the error that was sent. *)
Definition find_buddy (name denied : string) : M (option (nid * bid)) :=
  let! o := getNick name false;
  match o with
  | None => reply "401" [name; "No such nick"];; ret None
  | Some n =>
    let! x := get_nick n;
    match nick_buddy x with
    | None => reply "481" [denied];; ret None
    | Some b => ret (Some (n, b))
    end
  end.

Definition m_kill (m : message) : M unit :=
  let! name := arg 0 m;
  let! o := find_buddy name "Permission denied: you can only kill a buddy";
  match o with
  | None => ret tt
  | Some (n, b) =>
    let! x := get_nick n;
    let! u := user;
    let! s := get_server (nk_server x);
    match sv_kind s with
    | SIrc => notice u (nk_name x +:+ " is not on a remote server")
    | SRemote account =>
      let! text := opt_arg 1 "" m;
      let reason := "Removed from buddy list" +:+ (if sempty text then "" else ": " +:+ text) in
      notice u ("Received KILL message for " +:+ nk_name x +:+ ": " +:+ reason);;
      let! me := the_user;
      quit n ("Killed by " +:+ nk_name me +:+ " (" +:+ reason +:+ ")");;
      im_call (AccRemoveBuddy account b)
    end
  end.

Definition m_svsnick (m : message) : M unit :=
  let! name := arg 0 m;
  let! o := find_buddy name "Permission denied: you can only change buddy nickname";
  match o with
  | None => ret tt
  | Some (n, b) =>
    let! new_nick := arg 1 m;
    if negb (isValidNickname new_nick) then reply "432" ["This nick contains invalid characters"]
    else
      let! o2 := getNick new_nick false;
      if match o2 with Some n2 => negb (n2 =? n)%nat | None => false end
      then reply "433" [new_nick; "Nickname is already in use"]
      else
        to_user "NICK" (Some (ENick n)) None [new_nick];;
        renameNick n new_nick;;
        im_call (BuddySetAlias b new_nick true)
  end.

(** ** CMD *)

Definition cmd_status (r : Z) (name : string) : M unit :=
  if r =? CMD_NOT_FOUND then reply "421" [name; "Unknown command"]
  else if r =? CMD_WRONG_ARGS then reply "461" [name; "Not enough parameters"]
  else if r =? CMD_FAILED then reply "461" [name; "Command failed."]
  else if r =? CMD_WRONG_TYPE then
    reply "481" ["Permission Denied: This command doesn't work on this kind of target"]
  else if r =? CMD_WRONG_PRPL then
    reply "481" ["Permission Denied: That command doesn't work on this protocol."]
  else ret tt.
Definition m_cmd (m : message) : M unit :=
  let! target := arg 0 m;
  let cmd := joinw (tail (Msg.args m)) in
  let finish r := let! name := arg 1 m; cmd_status r name in
  if isChanName target then
    let! o := getChannel target;
    match o with
    | None => reply "403" [target; "No suck channel"]
    | Some c => let! r := chan_sendCommand c cmd; finish r
    end
  else
    let! o := getNick target false;
    match o with
    | None => reply "401" [target; "No suck nick"]
    | Some n => let! r := nick_sendCommand n cmd; finish r
    end.
End CmdsC.
End CmdsC.
