(* ===== verification/CmdsAccounts.v ===== *)
(** irc/cmds_accounts.cpp: CONNECT, SQUIT and MAP, the commands about the accounts. *)

From S2P Require Import Prelude Util Message Log World Dcc Nick Channel Registry Kinds Irc Cmds.
Import W Obj Names Send Chan Reg Kinds Irc Cmds.

Module CmdsA.
Section CmdsA.
Context {env : Env}.

(** [Account::getStatusChannel]. *)
Definition getStatusChannel (a : aid) : M (option cid) :=
  let! f := ask a_channel;
  let channame := f a in
  if negb (isStatusChannel channame) then ret None
  else
    let! o := getChannel channame;
    let! chan :=
      match o with
      | Some c => let! ch := get_chan c;
                  ret (match ch_kind ch with KStatus _ => Some c | _ => None end)
      | None => ret None
      end;
    match chan with
    | Some c => ret (Some c)
    | None => b_log Log.W_ERR ("Status channel " +:+ channame +:+ " is not found.");; ret None
    end.

Definition matches (target : string) (a : aid) : M bool :=
  let! ids := ask a_id; let! sn := ask a_servername;
  ret (String.eqb target "*" || String.eqb (ids a) target || String.eqb (sn a) target).

Definition unknown_account (target : string) (found : bool) : M unit :=
  when (negb found && negb (String.eqb target "*"))
    (let! u := user; notice u ("Error: Account " +:+ target +:+ " is unknown")).

(** CONNECT (and SCONNECT) *)
Fixpoint connect_loop (target : string) (l : list aid) (found : bool) : M bool :=
  match l with
  | [] => ret found
  | a :: l =>
    let! y := matches target a;
    if (y : bool) then
      im_call (AccConnect a);;
      let! chan := getStatusChannel a;
      (match chan with
       | Some c => let! u := user; let! _r := join u c OP; ret tt
       | None => ret tt
       end);;
      connect_loop target l true
    else connect_loop target l found
  end.
Definition m_connect (m : message) : M unit :=
  let! target := arg 0 m;
  let! l := ask a_list;
  let! found := connect_loop target l false;
  unknown_account target found.

(** SQUIT *)
Fixpoint squit_loop (target : string) (l : list aid) (found : bool) : M bool :=
  match l with
  | [] => ret found
  | a :: l =>
    let! y := matches target a;
    if (y : bool) then im_call (AccDisconnect a);; squit_loop target l true
    else squit_loop target l found
  end.
Definition m_squit (m : message) : M unit :=
  let! target := arg 0 m;
  let! l := ask a_list;
  let! found := squit_loop target l false;
  unknown_account target found.

(** ** MAP add and MAP register *)

Definition note (text : string) : M unit := let! u := user; notice u text.

(** An option in the usage line. *)
Definition option_usage (o : proto_option) : string :=
  "[-" +:+ match o_type o with
           | OServerAliases | OBool => "[!]" +:+ o_name o
           | OAccid | OStatusChannel | OPassword | OStr => o_name o +:+ " value"
           | OStrList choices =>
             o_name o +:+ " [" +:+ foldl (fun s c => (if sempty s then s else s +:+ "|") +:+ c) "" choices
             +:+ "]"
           | OInt => o_name o +:+ " int"
           | ONone => ""
           end +:+ "]".

Definition find_option (name : string) (l : list proto_option) : option proto_option :=
  List.find (fun o => String.eqb (o_name o) name) l.
Definition set_option (name value : string) (l : list proto_option) : list proto_option :=
  map (fun o => if String.eqb (o_name o) name then POption (o_name o) (o_type o) value else o) l.
Definition option_value (name : string) (l : list proto_option) : string :=
  match find_option name l with Some o => o_value o | None => "" end.

(** The loop on the arguments after the protocol: the user name, then options in
    the form -name, -!name or -name value, the password, the status channel. The
    left of the result is the notice of an error. *)
Fixpoint add_args (args : list string) (username : string) (options : list proto_option)
    : string + (string * list proto_option) :=
  match args with
  | [] => inr (username, options)
  | s :: args =>
    if sempty username then add_args args (url_decode s) options
    else if Ascii.eqb (shead s) "-" then
      let neg := Ascii.eqb (shead (sdrop 1 s)) "!" in
      let name := sdrop (if neg then 2 else 1) s in
      match find_option name options with
      | None => inl ("Error: Option '" +:+ s +:+ "' does not exist")
      | Some o =>
        match o_type o with
        | OBool | OServerAliases =>
          add_args args username (set_option name (if neg then "false" else "true") options)
        | _ =>
          match args with
          | v :: args => add_args args username (set_option name v options)
          | [] => inl ("Error: Option '" +:+ s +:+ "' needs a value")
          end
        end
      end
    else if sempty (option_value "password" options) then
      add_args args username (set_option "password" s options)
    else add_args args username (set_option "status_channel" s options)
  end.

(** [m_map_registeradd]: the account that was added, if any; [None] stops [m_map]. *)
Definition m_map_registeradd (m : message) (register_account : bool) : M (option aid) :=
  let! m := lift (Msg.rebuildWithQuotes m);
  match Msg.args m with
  | _ :: protoname :: rest =>
    let! protos := ask im_protocols;
    match List.find (fun p => String.eqb (p_id p) protoname) protos with
    | None =>
      note ("Error: Protocol " +:+ protoname +:+ " is unknown. Try '/STATS p' to list protocols.");;
      ret None
    | Some proto =>
      match rest with
      | [] =>
        note ("Usage: /MAP add " +:+ p_id proto +:+ " USERNAME "
              +:+ joinw (map option_usage (p_options proto)));; ret None
      | _ =>
        match add_args rest "" (p_options proto) with
        | inl e => note e;; ret None
        | inr (username, options) =>
          im_call (AccAdd (p_id proto) username
                     (map (fun o => (o_name o, o_value o)) options) register_account);;
          let! e := ask call_error;
          match e with
          | Some reason => note ("Error: " +:+ reason);; ret None
          | None => let! a := ask call_acc; ret (Some a)
          end
        end
      end
    end
  | _ =>
    note "Usage: /MAP add PROTO USERNAME [OPTIONS]";;
    note "To display available options: /MAP add PROTO";;
    note "Use '/STATS p' to show all available protocols";;
    ret None
  end.

(** ** MAP edit, delete, command, help *)

Definition m_map_edit (m : message) : M unit :=
  match Msg.args m with
  | _ :: accname :: rest =>
    let! acc := getAccount accname;
    match acc with
    | None => note ("Error: Account " +:+ accname +:+ " is unknown")
    | Some a =>
      let! f := ask a_options;
      let options := f a in
      match rest with
      | [] =>
        let! sn := ask a_servername;
        note ("-- Parameters of account " +:+ sn a +:+ " --");;
        mapM_ (fun o => note (o_name o +:+ " = "
                 +:+ match o_type o with OPassword => "*******" | _ => o_value o end)) options
      | key :: values =>
        match find_option key options with
        | None => note ("Key " +:+ key +:+ " does not exist.")
        | Some o =>
          match values with
          | [] => note (o_name o +:+ " = " +:+ o_value o)
          | _ =>
            let value := joinw values in
            if match o_type o with OBool => true | _ => false end
               && negb (String.eqb value "true") && negb (String.eqb value "false")
            then note ("Error: Option '" +:+ o_name o +:+ "' is a boolean ('true' or 'false')")
            else
              (match o_type o with
               | OInt =>
                 match Num.s2t_signed 32 value with
                 | Some v => note (o_name o +:+ " = " +:+ t2s v)
                 | None => stuck "uninitialised"
                 end
               | _ => note (o_name o +:+ " = " +:+ value)
               end);;
              im_call (AccSetOptions a
                (map (fun o => (o_name o, o_value o)) (set_option key value options)));;
              let! e := ask call_error;
              match e with Some reason => note ("Error: " +:+ reason) | None => ret tt end
          end
        end
      end
    end
  | _ => note "Usage: /MAP edit ACCOUNT [KEY [VALUE]]"
  end.

Definition m_map_delete (m : message) : M bool :=
  match Msg.args m with
  | [_; accname] =>
    let! acc := getAccount accname;
    match acc with
    | None => note ("Error: Account " +:+ accname +:+ " is unknown");; ret false
    | Some a =>
      let! un := ask a_username;
      note ("Removing account " +:+ un a);;
      im_call (AccDelete a);; ret true
    end
  | _ => note "Usage: /MAP delete ACCOUNT";; ret false
  end.

Definition m_map_command (m : message) : M unit :=
  match Msg.args m with
  | _ :: accname :: rest =>
    let! acc := getAccount accname;
    match acc with
    | None => note ("Error: Account " +:+ accname +:+ " is unknown")
    | Some a =>
      let! con := ask a_connected;
      if negb (con a) then note ("Error: Account " +:+ accname +:+ " is not connected")
      else
        match rest with
        | [] =>
          let! cmds := ask a_commands;
          note ("Commands available for " +:+ accname +:+ ":");;
          mapM_ (fun c => note ("  " +:+ c)) (cmds a)
        | command :: _ =>
          im_call (AccCallCommand a command);;
          let! ok := ask call_ok;
          when (negb ok) (note ("Command " +:+ command +:+ " is unknown"))
        end
    end
  | _ => note "Usage: /MAP cmd ACCOUNT [command]"
  end.

Definition help_text : list string :=
  ["add PROTO USERNAME PASSWD [CHANNEL] [options]   add an account";
   "reg PROTO USERNAME PASSWD [CHANNEL] [options]   add an account and register it on server";
   "edit ACCOUNT [KEY [VALUE]]                      edit an account";
   "cmd ACCOUNT [COMMAND]                           run a command on an account";
   "delete ACCOUNT                                  remove ACCOUNT from your accounts";
   "help                                            display this message";
   "Usage: /MAP add|register|edit|command|delete|help [...]"].
Definition m_map_help : M unit := mapM_ note help_text.

(** ** MAP *)

Inductive map_cmd := MapRegister | MapAdd | MapEdit | MapDelete | MapCommand | MapHelp.
Definition map_commands : list (string * map_cmd) :=
  [("register", MapRegister); ("add", MapAdd); ("edit", MapEdit); ("delete", MapDelete);
   ("command", MapCommand); ("cmd", MapCommand); ("help", MapHelp)].
(** The first command the argument is a prefix of. *)
Definition map_lookup (arg : string) : option map_cmd :=
  snd <$> List.find (fun '(name, _) => prefix_of arg name) map_commands.

(** One line of the tree. *)
Definition map_line (added : option aid) (a : aid) (last_ : bool) : M unit :=
  let! sn := ask a_servername;
  let! server := getServer (sn a);
  let! connecting := ask a_connecting; let! connected := ask a_connected;
  let name := (if last_ then "`" else "|")
    +:+ (if bool_decide (Some a = added) then "-+"
         else if connecting a then "-*" else if connected a then "-" else " ")
    +:+ sn a in
  let! name :=
    if connected a then
      match server with
      | None => stuck "NULL server"
      | Some s =>
        let! online := countOnlineNicks s;
        let! all := countNicks s;
        ret (name +:+ "  [" +:+ t2s online +:+ "/" +:+ t2s all +:+ "]")
      end
    else ret name;
  reply "015" [name].
Fixpoint map_lines (added : option aid) (l : list aid) : M unit :=
  match l with
  | [] => ret tt
  | a :: l => map_line added a (match l with [] => true | _ => false end);; map_lines added l
  end.
Definition map_tree (added : option aid) : M unit :=
  let! nm := getServerName;
  reply "015" [nm];;
  let! l := ask a_list;
  map_lines added l;;
  reply "017" ["End of /MAP"].

Definition m_map (m : message) : M unit :=
  match Msg.args m with
  | [] => map_tree None
  | a :: _ =>
    match map_lookup a with
    | None => m_map_help
    | Some MapRegister =>
      let! o := m_map_registeradd m true;
      match o with Some acc => map_tree (Some acc) | None => ret tt end
    | Some MapAdd =>
      let! o := m_map_registeradd m false;
      match o with Some acc => map_tree (Some acc) | None => ret tt end
    | Some MapEdit => m_map_edit m
    | Some MapDelete => let! ok := m_map_delete m; when ok (map_tree None)
    | Some MapCommand => m_map_command m
    | Some MapHelp => m_map_help
    end
  end.
End CmdsA.
End CmdsA.
