(* ===== verification/ImLayer.v ===== *)
(** What src/im asks libpurple besides the answers of World.v, and the nicks it
    makes: the constructors of irc/buddy.cpp and irc/unknown_buddy.cpp,
    [sendMessage] and [setConversation] of irc/conv_entity.cpp and irc/buddy.cpp,
    and im/buddy.cpp. *)

From S2P Require Import Prelude Util Message Log World Dcc Nick Channel Registry Kinds CmdsAccounts.
Import W Obj Names Send Chan Reg Kinds CmdsA.

Inductive conv_type := TypeIm | TypeChat | TypeOther.
Inductive typing_state := Typing | Typed | NotTyping.
(** [struct tm]: [tm_year + 1900] and [tm_mon + 1] as they are printed. *)
Record tm := Tm { tm_year : Z; tm_mon : Z; tm_mday : Z; tm_hour : Z; tm_min : Z; tm_sec : Z }.

(** A [PurpleAccountOption] of a protocol: its setting, and its default value. *)
Inductive raw_default :=
| RBool (b : bool) | RString (s : option string) | RInt (z : Z)
| RList (s : option string) (choices : list string) | ROther.

Class ImEnv := {
  im_env :: Env;
  (* PurpleConversation: its type, its [ui_data] when it is a chat, its chat buddies *)
  v_type : list event -> vid -> conv_type;
  v_chan : list event -> vid -> option cid;
  v_cbs : list event -> vid -> list kid;
  v_has_left : list event -> vid -> bool;
  v_want_rejoin : list event -> vid -> bool;
  v_typing : list event -> vid -> typing_state;
  v_alias : list event -> vid -> option string;   (* the alias of the buddy of that name *)
  chats : list event -> list vid;                 (* purple_get_chats() *)
  find_cb : list event -> vid -> string -> option kid;
  find_im : list event -> aid -> string -> option vid;
  (* PurpleBuddy: the [ui_data] of its node *)
  b_nick : list event -> bid -> option nid;
  (* PurpleAccount; all of them, and the ID of their protocol when it is loaded *)
  all_accounts : list event -> list aid;
  a_proto : list event -> aid -> option string;
  a_status : list event -> aid -> Z;              (* primitive of the active status *)
  a_prpl_options : list event -> aid -> list (string * raw_default);
  a_buddies : list event -> aid -> list bid;
  a_server_aliases : list event -> aid -> bool;
  a_status_text : list event -> aid -> string;    (* message of the available status *)
  a_active_status : list event -> aid -> option string;
  a_has_status : list event -> aid -> string -> bool;
  a_status_attr : list event -> aid -> string -> string;
  a_has_chats : list event -> aid -> bool;        (* chat_info != NULL *)
  a_chat_defaults : list event -> aid -> string -> option (list (string * string));
  chat_name : list event -> aid -> list (string * string) -> string;
  find_chat : list event -> aid -> string -> option vid;
  a_opt_string : list event -> aid -> string -> string -> string;
  a_opt_int : list event -> aid -> string -> Z -> Z;
  a_opt_bool : list event -> aid -> string -> bool -> bool;
  a_password : list event -> aid -> string;
  a_rawid : list event -> aid -> string;          (* getID(false) *)
  a_join_queue : list event -> aid -> string;
  a_delay : list event -> aid -> Z;               (* delay-reconnect *)
  a_timer : list event -> aid -> Z;               (* id-reconnect *)
  a_display : list event -> aid -> option string; (* purple_connection_get_display_name *)
  a_menu : list event -> bid -> list (string * bool); (* labels; a callback, no children *)
  (* preferences of /minbif *)
  pref_accept_nobuddies : list event -> bool;
  pref_typing_notice : list event -> bool;
  pref_voiced_buddies : list event -> bool;
  pref_server_aliases : list event -> bool;
  (* the id of the source that g_timeout_add just made *)
  timer_id : list event -> Z;
  (* purple_message_meify, the two of [markup2irc], g_markup_escape_text,
     purple_utf8_try_convert of a text it can convert, localtime_r *)
  meify : string -> option string;
  strdup_withhtml : string -> string;
  strip_html : string -> string;
  strreplace : string -> string -> string -> string; (* purple_strreplace *)
  markup_escape : string -> string;
  utf8_try_convert : string -> string;
  localtime : Z -> tm
}.

Module ImNick.
Section ImNick.
Context {env : ImEnv}.

(** ** irc/conv_entity.cpp, irc/buddy.cpp, irc/unknown_buddy.cpp *)

(** The virtual [setConversation] of a [ConvNick]. *)
Definition setConversation (n : nid) (c : option vid) : M unit :=
  let! x := get_nick n;
  match nk_kind x with
  | KBuddy _ _ _ _ => buddy_setConversation n c
  | _ => let! ce := get_ce (RNick n); put_ce (RNick n) (CE c (enqueued ce))
  end.

(** The names of a [Buddy] or of an [UnknownBuddy], from its name on the network and
    its nickname there: nickname, identname, hostname. *)
Definition buddy_names (name nickname id : string) : string * string * string :=
  let '(identname, hostname) := Tok.stringtok name "@" in
  (if has_char "@" nickname || has_char " " nickname then nickize identname else nickize nickname,
   identname, if sempty hostname then id else hostname +:+ ":" +:+ id).

(** [new Buddy(server, buddy)] *)
Definition new_Buddy (s : sid) (b : bid) : M nid :=
  let! nm := ask b_name; let! al := ask b_alias; let! ac := ask b_account; let! id := ask a_id;
  let! rn := ask b_realname;
  let '(nick, ident, host) := buddy_names (nm b) (al b) (id (ac b)) in
  let! n := alloc;
  put_nick n (Nick nick (fix_ident ident) (fix_host host) (rn b) "" s 0 []
                (KBuddy b false 0 (CE None [])));;
  im_call (BuddySetNick b (Some n));;
  ret n.
(** [new UnknownBuddy(server, conv)]; [Nick::Nick] asserts that there is a server. *)
Definition new_UnknownBuddy (o : option sid) (v : vid) : M nid :=
  match o with
  | None => stuck "assert(server)"
  | Some s =>
    let! nm := ask v_name; let! ac := ask v_account; let! id := ask a_id;
    let '(nick, ident, host) := buddy_names (nm v) (nm v) (id (ac v)) in
    let! n := alloc;
    put_nick n (Nick nick (fix_ident ident) (fix_host host) "" "" s 0 []
                  (KUnknownBuddy (CE (Some v) [])));;
    ret n
  end.
(** [while(irc->getNick(n->getNickname())) n->setNickname(n->getNickname() + "_");
    irc->addNick(n)] *)
Definition enter (n : nid) : M unit :=
  let! x := get_nick n;
  let! s := free_name (nk_name x);
  put_nick n (with_name x s);;
  addNick n.

(** [ConvNick::sendMessage] and its overrider in [Buddy]. *)
Definition action_text (line : string) : string :=
  String "001" ("ACTION " +:+ line +:+ String "001" "").
Definition convnick_sendMessage (n to : nid) (t : string) (action : bool) : M unit :=
  let! m := mkmsg "PRIVMSG" (Some (ENick n)) (Some (ENick to)) [if action then action_text t else t];
  send to m.
Definition PUBLIC_MSGS_TIMEOUT : Z := 3600.
Definition sendMessage (n to : nid) (t : string) (action : bool) : M unit :=
  let! x := get_nick n;
  match nk_kind x with
  | KBuddy b pub last ce =>
    let! now := get (fun w => o_now (w_io w));
    let pub := if last + PUBLIC_MSGS_TIMEOUT <? now then false else pub in
    put_nick n (with_kind x (KBuddy b pub last ce));;
    let! ac := ask b_account;
    let! chan := (if pub then getStatusChannel (ac b) else ret None);
    match chan with
    | Some c =>
      let! y := get_nick to;
      let line := nk_name y +:+ ": " +:+ t in
      let! m := mkmsg "PRIVMSG" (Some (ENick n)) (Some (EChan c))
                  [if action then action_text line else line];
      send to m
    | None => convnick_sendMessage n to t action
    end
  | _ => convnick_sendMessage n to t action
  end.

(** [Buddy::received_file], the callback of a finished [DCCGet]. *)
Definition received_file (n : nid) (filename : string) : M bool :=
  let! x := get_nick n;
  match nk_kind x with
  | KBuddy b _ _ _ => im_call (BuddySendFile b filename);; ret true
  | _ => stuck "not a Buddy"
  end.

(** ** im/buddy.cpp *)

(** The nick of a buddy: the one libpurple keeps for it, or the one of the table. *)
Definition buddy_nick (b : bid) : M (option nid) :=
  let! f := ask b_nick;
  match f b with Some n => ret (Some n) | None => getNick_buddy b end.

(** [Buddy::updated] *)
Definition updated (b : bid) : M unit :=
  let! ac := ask b_account;
  let! chan := getStatusChannel (ac b);
  match chan with
  | None => ret tt
  | Some c =>
    let! o := buddy_nick b;
    match o with
    | None => ret tt
    | Some n =>
      let! on := ask b_online;
      if on b then
        let! av := ask b_available; let! voiced := ask pref_voiced_buddies;
        let available := av b && voiced in
        let! cu := nick_getChanUser n c;
        match cu with
        | None => let! _r := join n c (if available then VOICE else 0); ret tt
        | Some u =>
          let! x := get_cu u;
          when (xorb available (negb (Z.land (cu_status x) VOICE =? 0)))
            (let! s := e_self; (if available then setMode else delMode) c (Some s) VOICE u)
        end
      else
        let! here := isOn n c;
        when here (quit n "Signed-Off")
    end
  end.

(** [Buddy::update_node], for a node that is a buddy; it does nothing for others. *)
Definition update_node (b : bid) : M unit :=
  let! f := ask b_nick;
  let! o :=
    match f b with
    | Some n => ret (Some n)
    | None =>
      let! ac := ask b_account; let! sn := ask a_servername;
      let! server := getServer (sn (ac b));
      match server with
      | None => ret None
      | Some s => let! n := new_Buddy s b; enter n;; ret (Some n)
      end
    end;
  match o with
  | None => ret tt
  | Some n =>
    let! al := ask b_alias;
    let! x := get_nick n;
    when (negb (String.eqb (al b) (nk_name x))) (im_call (BuddySetAlias b (nk_name x) false));;
    updated b
  end.
(** [Buddy::removed_node] of a buddy, whose parent is a contact. *)
Definition removed_node (b : bid) : M unit :=
  im_call (Purple (RequestClose b));;
  let! o := buddy_nick b;
  match o with
  | None => ret tt
  | Some n =>
    quit n "Removed";;
    let! x := get_nick n;
    removeNick (nk_name x)
  end.
End ImNick.
End ImNick.
