(* ===== verification/ImConv.v ===== *)
(** im/conversation.cpp: the conversations and chats of libpurple, and the callbacks
    by which it creates, fills and closes them and delivers the messages. *)

From S2P Require Import Prelude Util Message Log MarkupIn World Dcc Nick Channel Registry Kinds ImLayer.
Import W Obj Names Send Chan Reg Kinds ImNick.

Module ImConv.
Section ImConv.
Context {env : ImEnv}.

(** [Conversation::normalizeIRCName] *)
Definition normalizeIRCName (name id : string) : string :=
  "#" +:+ smap (fun c => if Ascii.eqb c " " then "_"%char else c) name +:+ ":" +:+ id.

Definition assert_type (v : vid) (t : conv_type) : M unit :=
  let! f := ask v_type;
  match f v, t with
  | TypeIm, TypeIm | TypeChat, TypeChat => ret tt
  | _, _ => stuck "assert(getType())"
  end.

(** [Conversation::setNick] *)
Definition setNick (v : vid) (o : option nid) (purge_unknown : bool) : M unit :=
  assert_type v TypeIm;;
  let! last := ask v_nick;
  im_call (ConvSetNick v o);;
  match last v with
  | Some l =>
    if bool_decide (o = Some l) then ret tt
    else
      let! x := get_nick l;
      match nk_kind x, purge_unknown with
      | KUnknownBuddy _, true => removeNick (nk_name x)
      | _, _ => setConversation l None
      end
  | None => ret tt
  end.

(** [Conversation::createChannel]; [while(irc->getChannel(name)) name += "_"] takes
    at most as many turns as there are channels. *)
Fixpoint free_chan_from (fuel : nat) (i : gmap string cid) (s : string) : option string :=
  match fuel with
  | O => None
  | S fuel => match i !! s with None => Some s | Some _ => free_chan_from fuel i (s +:+ "_") end
  end.
Definition with_chname (x : channel) (s : string) : channel :=
  Channel s (topic x) (users x) (ch_kind x).
Definition createChannel (v : vid) : M unit :=
  assert_type v TypeChat;;
  let! c := new_ConversationChannel v;
  im_call (Purple (ChatSetChannel v (Some c)));;
  let! ch := get_chan c;
  let! i := get w_irc;
  let! nm := (match free_chan_from (S (size (i_channels i))) (i_channels i) (ch_name ch) with
              | Some nm => ret nm
              | None => stuck "fuel"
              end);
  put_chan c (with_chname ch nm);;
  addChannel c;;
  let! u := user;
  let! _cu := join u c 0;
  let! l := ask v_cbs;
  mapM_ (fun k => let! nm := ask k_name; b_log Log.W_DEBUG (nm k)) (l v).

(** [Conversation::destroyChannel] *)
Definition destroyChannel (v : vid) : M unit :=
  assert_type v TypeChat;;
  let! f := ask v_chan;
  match f v with
  | None => stuck "NULL channel"
  | Some c =>
    let! ch := get_chan c;
    removeChannel (ch_name ch);;
    im_call (Purple (ChatSetChannel v None))
  end.

(** The callbacks [Conversation::create] and [destroy]. *)
Definition create (v : vid) : M unit :=
  let! f := ask v_type;
  match f v with TypeChat => createChannel v | _ => ret tt end.
Definition destroy (v : vid) : M unit :=
  let! f := ask v_type;
  match f v with
  | TypeIm =>
    setNick v None true;;
    let! o := getNick_conv (Some v);
    match o with Some n => setConversation n None | None => ret tt end
  | TypeChat => destroyChannel v
  | TypeOther => ret tt
  end.

(** ** Messages *)

(** [Conversation::sendMessage], what [ConvSend] stands for. *)
Definition CTCP (cmd : string) : string := String "001" (cmd +:+ " ").
Definition ctcp_body (text : string) : string := stake (slen text - 9) (sdrop 8 text).
Definition send_text (v : vid) (text : string) : M unit :=
  let! escaped := (match Markup.irc2markup markup_escape (utf8_try_convert text) with
                   | Some s => ret s
                   | None => stuck "fuel"
                   end);
  let escaped := strreplace escaped "&apos;" "'" in
  let! f := ask v_type;
  (match f v with
   | TypeIm => im_call (Purple (SendIm v escaped))
   | TypeChat => im_call (Purple (SendChat v escaped))
   | TypeOther => ret tt
   end);;
  im_call (Purple IdleTouch).
Definition conv_send (v : vid) (text : string) : M unit :=
  if prefix_of (CTCP "ACTION") text then
    let text := "/me " +:+ ctcp_body text in
    let utf8 := utf8_try_convert (sdrop 1 text) in
    im_call (Purple (DoCommand v utf8 (markup_escape utf8)));;
    let! r := ask call_status;
    if r =? CMD_OK then ret tt else send_text v text
  else if prefix_of (CTCP "TYPING") text then
    let typing := ctcp_body text in
    if String.eqb typing "1" then im_call (Purple (SendTyping v true))
    else if String.eqb typing "0" then
      im_call (Purple (StopTypedTimeout v));; im_call (Purple (SendTyping v false))
    else ret tt
  else send_text v text.

(** The nick a message of an IM conversation comes from; [None] when the message is
    dropped. *)
Definition as_buddy (o : option nid) : M (option nid) :=
  match o with
  | None => ret None
  | Some n =>
    let! x := get_nick n;
    ret (match nk_kind x with KBuddy _ _ _ _ => Some n | _ => None end)
  end.
Definition recv_nick (v : vid) (from : string) : M (option nid) :=
  let! f := ask v_nick;
  match f v with
  | Some n => ret (Some n)
  | None =>
    let! o := getNick_conv (Some v);
    let! o := (match o with
               | Some n => ret (Some n)
               | None =>
                 let! o := getNick from false;
                 let! o := as_buddy o;
                 match o with
                 | Some n => ret (Some n)
                 | None =>
                   let! accept := ask pref_accept_nobuddies;
                   if negb accept then ret None
                   else
                     let! ac := ask v_account; let! sn := ask a_servername;
                     let! s := getServer (sn (ac v));
                     let! n := new_UnknownBuddy s v;
                     enter n;; ret (Some n)
                 end
               end);
    match o with
    | Some n => setNick v (Some n) true;; setConversation n (Some v);; ret (Some n)
    | None => ret None
    end
  end.
Definition newlines : string := String "010" (String "013" "").

(** The sender of a message in a chat: a channel user, or a free nickname. *)
Definition chat_line (c : cid) (cu : option uid) (from : string) (action : bool) (line : string)
    : M unit :=
  let! m := lift (Msg.addArg (if action then action_text line else line)
              (Msg.setReceiver (EChan c)
                (match cu with
                 | Some u => Msg.setSender (ECu u) (Msg.mk "PRIVMSG")
                 | None => Msg.setSenderName from (Msg.mk "PRIVMSG")
                 end)));
  broadcast c m None.

(** [Conversation::recvMessage] *)
Definition recvMessage (v : vid) (from text : string) (action : bool) : M unit :=
  let! f := ask v_type;
  match f v with
  | TypeIm =>
    let! o := recv_nick v from;
    match o with
    | None => ret tt
    | Some n => mapM_ (fun line => let! u := user; sendMessage n u line action) (Tok.tokens newlines text)
    end
  | TypeChat =>
    let! f := ask v_chan;
    match f v with
    | None =>
      let! nm := ask v_channame;
      b_log Log.W_WARNING ("Received message in unknown chat " +:+ nm v +:+ ": " +:+ text)
    | Some c =>
      let! cu := getChanUser c from;
      let! from := (match cu with Some _ => ret from | None => free_name (nickize from) end);
      mapM_ (chat_line c cu from action) (Tok.tokens newlines text)
    end
  | TypeOther => ret tt
  end.

(** ** The callbacks that bring messages *)

(** [PurpleMessageFlags], as far as they are read. *)
Record msg_flags := Flags { f_send : bool; f_recv : bool; f_system : bool; f_notify : bool; f_delayed : bool }.

Definition write_im (v : vid) (who message : string) (flags : msg_flags) : M unit :=
  let! alias := ask v_alias;
  let who := if f_recv flags then default who (alias v) else who in
  im_call (Purple (ConvWrite v who message)).

(** [%0<n>d] *)
Fixpoint zeros (n : nat) : string := match n with O => "" | S n => String "0" (zeros n) end.
Definition pad (n : nat) (z : Z) : string := zeros (n - slen (t2s z)) +:+ t2s z.
Definition clock (t : tm) : string :=
  pad 2 (tm_hour t) +:+ ":" +:+ pad 2 (tm_min t) +:+ ":" +:+ pad 2 (tm_sec t).
Definition date (t : tm) : string :=
  pad 4 (tm_year t) +:+ "-" +:+ pad 2 (tm_mon t) +:+ "-" +:+ pad 2 (tm_mday t) +:+ "@".
Definition same_day (t u : tm) : bool :=
  (tm_mday t =? tm_mday u) && (tm_mon t =? tm_mon u) && (tm_year t =? tm_year u).
Definition delayed_text (mtime now : Z) (text : string) : string :=
  let lt := localtime mtime in
  "[" +:+ String "002" ((if same_day lt (localtime now) then "" else date lt) +:+ clock lt)
  +:+ String "002" ("] " +:+ text).

Definition nonempty (o : option string) : option string :=
  match o with Some s => if sempty s then None else Some s | None => None end.
Definition write_conv (v : vid) (who alias : option string) (message : string)
    (flags : msg_flags) (mtime : Z) : M unit :=
  let recv := if f_system flags && negb (f_notify flags) then false else f_recv flags in
  if negb recv then ret tt
  else
    let me := match who with Some _ => meify message | None => None end in
    let message := default message me in
    let action := match me with Some _ => true | None => false end in
    let! strip := lift (M2I.markup2irc strdup_withhtml strip_html message);
    let from := match nonempty alias with Some s => s | None => default "" (nonempty who) end in
    let! now := get (fun w => o_now (w_io w));
    recvMessage v from (if f_delayed flags then delayed_text mtime now strip else strip) action.

(** ** The callbacks about the users of a chat *)

Definition no_channel (v : vid) (level : Z) : M unit :=
  let! nm := ask v_channame;
  b_log level ("Conversation channel doesn't exist: " +:+ nm v).

Fixpoint add_users (v : vid) (cbuddies : list kid) : M unit :=
  match cbuddies with
  | [] => ret tt
  | k :: l =>
    let! f := ask v_chan;
    match f v with
    | None => no_channel v Log.W_ERR
    | Some c => let! st := ask k_status; addBuddy c k (st k);; add_users v l
    end
  end.

Definition update_user (v : vid) (name : string) : M unit :=
  let! f := ask find_cb;
  match f v name with
  | None => b_log Log.W_DESYNCH ("Update channel user " +:+ name +:+ " who is not found")
  | Some k =>
    let! f := ask v_chan;
    match f v with
    | None => no_channel v Log.W_DESYNCH
    | Some c => updateBuddy c k
    end
  end.

Definition remove_user (v : vid) (cbname : string) (reason : option string) : M unit :=
  let! f := ask v_chan;
  match f v with
  | None => no_channel v Log.W_ERR
  | Some c =>
    let! cu := getChanUser c cbname;
    match cu with
    | None => b_log Log.W_ERR (cbname +:+ " tries to leave channel, but I don't know who is it!")
    | Some u => let! x := get_cu u; part (cu_nick x) c (default "" reason)
    end
  end.

Definition chat_rename_user (v : vid) (old new_n new_a : string) : M unit :=
  let! f := ask find_cb;
  match f v old with
  | None =>
    b_log Log.W_ERR ("Rename from " +:+ old +:+ " to " +:+ new_n +:+ " (" +:+ new_a
                       +:+ ") which is an unknown chat buddy")
  | Some _ =>
    let! f := ask v_chan;
    match f v with
    | None => no_channel v Log.W_ERR
    | Some c =>
      let! f := ask find_cb;
      match f v new_n with
      | None => b_log Log.W_ERR ("New chat buddy " +:+ new_n +:+ " (" +:+ new_a +:+ ") unknown")
      | Some k =>
        let! cu := getChanUser c old;
        match cu with
        | Some u => renameBuddy c u k
        | None => stuck "NULL chanuser"
        end
      end
    end
  end.

(** [topic_changed]; an unknown author is NULL, which is not the user. *)
Definition topic_changed (v : vid) (who topic : option string) : M unit :=
  let! f := ask v_chan;
  match f v with
  | None => no_channel v Log.W_ERR
  | Some c =>
    let! cu := (match who with Some w => getChanUser c w | None => ret None end);
    match cu with
    | Some u => let! _r := setTopic c (ECu u) (default "" topic); ret tt
    | None => let! _r := chan_setTopic c None (default "" topic); ret tt
    end
  end.

Definition typing_code (t : typing_state) : string :=
  match t with Typing => "1" | Typed => "2" | NotTyping => "0" end.
Definition buddy_typing (a : aid) (who : option string) : M unit :=
  let! notice := ask pref_typing_notice;
  if negb notice then ret tt
  else
    let! find := ask find_im;
    match who, who ≫= find a with
    | Some _, Some v =>
      assert_type v TypeIm;;
      let! f := ask v_nick;
      let! o := (match f v with Some n => ret (Some n) | None => getNick_conv (Some v) end);
      match o with
      | None => ret tt
      | Some n =>
        let! st := ask v_typing;
        let! u := user;
        let! m := mkmsg "PRIVMSG" (Some (ENick n)) (Some (ENick u))
                    [String "001" ("TYPING " +:+ typing_code (st v) +:+ String "001" "")];
        send u m
      end
    | _, _ => ret tt
    end.
End ImConv.
End ImConv.
