(* ===== verification/ImAccount.v ===== *)
(** im/account.cpp, and of the same layer im/im.cpp, the names of new accounts
    (im/purple.cpp) and the options of a protocol (im/protocol.cpp): the settings of
    an account, its status channel, the chats to join once it is connected, the
    timer of the next connection, and the callbacks by which libpurple tells of its
    life. *)

From S2P Require Import Prelude Util Message Log World Dcc Nick Channel Registry Kinds CmdsAccounts ImLayer ImConv.
Import W Obj Names Send Chan Reg Kinds CmdsA ImNick.

(** ** The options of a protocol (im/protocol.cpp) *)

Module Proto.
(** [Option::getValueInt] and [getValueBool]. *)
Definition getValueInt (o : proto_option) : option Z := Num.s2t_signed 32 (o_value o).
Definition getValueBool (o : proto_option) : bool :=
  String.eqb (o_value o) "true" || String.eqb (o_value o) "1".
Definition of_bool (b : bool) : string := if b then "true" else "false".
(** The [Option] of a [PurpleAccountOption]; [None] when its type is not supported. *)
Definition raw_option (r : string * raw_default) : option proto_option :=
  match r.2 with
  | RBool b => Some (POption r.1 OBool (of_bool b))
  | RString s => Some (POption r.1 OStr (default "" s))
  | RList s choices => Some (POption r.1 (OStrList choices) (default "" s))
  | RInt z => Some (POption r.1 OInt (t2s z))
  | ROther => None
  end.
Definition common : list proto_option :=
  [POption "accid" OAccid ""; POption "status_channel" OStatusChannel "&minbif";
   POption "password" OPassword ""; POption "server_aliases" OServerAliases "true"].
(** [Protocol::getOptions]: a map by name, the common options written last. *)
Definition getOptions (raws : list (string * raw_default)) : gmap string proto_option :=
  foldl (fun m o => <[o_name o := o]> m) ∅ (omap raw_option raws ++ common).
End Proto.

(** ** The names of new accounts ([Purple::getNewAccountName]) *)

Module NewName.
Definition suffix (i : Z) : string := if i =? 0 then "" else t2s i.
(** The loop: it starts again from the first account when an ID is the name looked
    for.  [ids] are the raw IDs of the other accounts of the protocol. *)
Fixpoint search (fuel : nat) (base : string) (ids : list string) (i : Z) : option string :=
  match List.find (fun id => String.eqb id (base +:+ suffix i)) ids with
  | None => Some (base +:+ suffix i)
  | Some id =>
    match fuel, (if i =? 0 then Some 1 else Z.succ <$> Num.s2t_signed 32 (sdrop (slen base) id)) with
    | S fuel, Some i => search fuel base ids i
    | _, _ => None
    end
  end.
(** [Protocol::getID]. *)
Definition proto_id (purple_id : string) : string :=
  if prefix_of "prpl-" purple_id then sdrop 5 purple_id else purple_id.
Section NewName.
Context {env : ImEnv}.
Definition other_ids (proto : string) (butone : aid) : M (list string) :=
  let! l := ask all_accounts; let! p := ask a_proto; let! ids := ask a_rawid;
  ret (map ids (List.filter (fun a => negb (a =? butone)%nat
                               && bool_decide (p a = Some proto)) l)).
Definition getNewAccountName (proto : string) (butone : aid) : M string :=
  let! ids := other_ids proto butone;
  match search (length ids) (proto_id proto) ids 0 with
  | Some s => ret s
  | None => stuck "fuel"
  end.
End NewName.
End NewName.

Module ImAcc.
Import NewName.
Section ImAcc.
Context {env : ImEnv}.

Definition ui_string (a : aid) (key value : string) : M unit := im_call (Purple (UiString a key value)).
Definition ui_int (a : aid) (key : string) (value : Z) : M unit := im_call (Purple (UiInt a key value)).
Definition info : Z := Z.lor Log.W_INFO Log.W_SNO.
(** [int] arithmetic: an overflow is not defined. *)
Definition int_ok (z : Z) : bool := (- 2 ^ 31 <=? z) && (z <? 2 ^ 31).
Definition int_or (z : Z) : M Z := if int_ok z then ret z else stuck "signed overflow".

(** ** The next connection *)

Definition removeReconnection (a : aid) (verbose : bool) : M unit :=
  let! f := ask a_timer;
  let id := f a in
  when (0 <=? id)
    (im_call (Purple (SourceRemove id));;
     when verbose (let! sn := ask a_servername;
                   b_log info ("Abort auto-reconnection to " +:+ sn a)));;
  ui_int a "delay-reconnect" 15;;
  ui_int a "id-reconnect" (-1).
Definition connect (a : aid) : M unit := im_call (Purple (SetEnabled a true)).
Definition disconnect (a : aid) : M unit :=
  removeReconnection a true;; im_call (Purple (SetEnabled a false)).
Definition delayReconnect (a : aid) : M Z :=
  let! f := ask a_delay;
  let! delay := int_or (f a * 2);
  let! f := ask a_timer;
  when (0 <=? f a) (im_call (Purple (SourceRemove (f a))));;
  let! ms := int_or (delay * 1000);
  im_call (Purple (TimeoutAdd a ms));;
  let! id := ask timer_id;
  ui_int a "delay-reconnect" delay;;
  ui_int a "id-reconnect" id;;
  ret delay.
(** The callback of the timer; it answers [FALSE], which removes its source. *)
Definition reconnect (a : aid) : M unit := ui_int a "id-reconnect" (-1);; connect a.

Inductive conn_error := NetworkError | EncryptionError | OtherError | FatalError.
Definition disconnect_reason (a : aid) (reason : conn_error) (text : string) : M unit :=
  let level := Z.lor Log.W_ERR Log.W_SNO in
  let! sn := ask a_servername;
  b_log level ("Error(" +:+ sn a +:+ "): " +:+ text);;
  match reason with
  | NetworkError | EncryptionError | OtherError =>
    let! delay := delayReconnect a;
    b_log level ("Reconnection in " +:+ t2s delay +:+ " seconds")
  | FatalError => ret tt
  end.

(** ** The chats to join *)

Definition enqueueChannelJoin (a : aid) (c : string) : M unit :=
  let! f := ask a_join_queue;
  ui_string a "join_queue" ((if sempty (f a) then "" else f a +:+ ",") +:+ c).

(** The menu of a buddy, for the protocols without chats. *)
Definition initiate_chat (b : bid) : M bool :=
  let! f := ask a_menu;
  match List.find (fun '(label, ok) => ok && String.eqb (Case.strlower label) "initiate _chat") (f b) with
  | Some (label, _) => im_call (Purple (MenuAction b label));; ret true
  | None => ret false
  end.
(** [g_hash_table_replace] of the parameters "key=value" into the defaults. *)
Fixpoint set_param (key value : string) (l : list (string * string)) : list (string * string) :=
  match l with
  | [] => [(key, value)]
  | (k, v) :: l => if String.eqb k key then (key, value) :: l else (k, v) :: set_param key value l
  end.
Definition add_param (l : list (string * string)) (param : string) : list (string * string) :=
  let '(key, value) := Tok.stringtok param "=" in
  if sempty key then l else set_param key value l.
Definition joinChat (a : aid) (name parameters : string) : M bool :=
  let! f := ask a_connected;
  if negb (f a) then b_log info "Not connected";; ret false
  else
    let! f := ask a_has_chats;
    if negb (f a) then
      let! o := getNick name false;
      match o with
      | None => ret false
      | Some n =>
        let! x := get_nick n;
        match nk_kind x with KBuddy b _ _ _ => initiate_chat b | _ => ret false end
      end
    else
      let! f := ask a_chat_defaults;
      match f a name with
      | None => ret false    (* purple_chat_new without components is NULL *)
      | Some hash =>
        let hash := foldl add_param hash (Tok.tokens ";" parameters) in
        let! nm := ask chat_name; let! find := ask find_chat;
        (match find a (nm a hash) with
         | None => im_call (Purple (ServJoinChat a hash))
         | Some v =>
           let! gone := ask v_has_left;
           if gone v then im_call (Purple (ServJoinChat a hash)) else im_call (ConvPresent v)
         end);;
        ret true
      end.
Definition flushChannelJoins (a : aid) : M unit :=
  let! f := ask a_join_queue;
  mapM_ (fun cname => let! _ok := joinChat a cname ""; ret tt) (Tok.tokens "," (f a));;
  ui_string a "join_queue" "".
Definition abortChannelJoins (a : aid) : M unit :=
  let! f := ask a_connected;
  when (f a)
    (let! f := ask a_join_queue;
     mapM_ (fun cname =>
              let! ids := ask a_id;
              reply "403" ["#" +:+ cname +:+ ":" +:+ ids a; "No such channel"])
           (Tok.tokens "," (f a)));;
  ui_string a "join_queue" "".

(** ** The status *)

(** [PurpleStatusPrimitive], and its ids and names. *)
Definition UNSET : Z := 0.
Definition OFFLINE : Z := 1.
Definition AVAILABLE : Z := 2.
Definition AWAY : Z := 5.
Definition prim_id (prim : Z) : string := default "" (fst <$> primitives !! Z.to_nat prim).

(** [StatusChannel::setTopic] with a NULL author. *)
Definition status_setTopic (c : cid) (t : string) : M unit :=
  let! ch := get_chan c;
  match ch_kind ch with
  | KStatus accounts =>
    let! ok := chan_setTopic c None t;
    when ok (mapM_ (fun a => im_call (AccSetStatus a true t)) accounts)
  | _ => stuck "not a StatusChannel"
  end.
(** The status to set: the active one, or that of the primitive. *)
Definition status_id (a : aid) (prim : Z) : M (option string) :=
  if prim =? UNSET then let! f := ask a_active_status; ret (f a)
  else let! f := ask a_has_status; ret (if f a (prim_id prim) then Some (prim_id prim) else None).
Definition setStatus (a : aid) (prim : Z) (message : string) : M unit :=
  let! o := status_id a prim;
  match o with
  | None => ret tt
  | Some id =>
    let! chan := getStatusChannel a;
    let! message := (match chan with
                     | Some c => if sempty message then getTopic c else ret message
                     | None => ret message
                     end);
    let! message :=
      (if sempty message && negb (prim =? UNSET) then
         let! f := ask a_status_attr;
         let message := f a id in
         (match chan with
          | Some c => when (negb (sempty message) && String.eqb id (prim_id AVAILABLE))
                        (status_setTopic c message)
          | None => ret tt
          end);;
         ret message
       else ret message);
    im_call (Purple (SetStatus a id (utf8_try_convert message)))
  end.

(** ** The status channel *)

Definition updated_all (a : aid) : M unit :=
  let! l := ask a_buddies; mapM_ updated (l a).
Definition new_StatusChannel (name : string) : M cid :=
  let! c := alloc;
  put_chan c (Channel name "" [] (KStatus []));;
  ret c.
Definition open_status_channel (channame : string) : M cid :=
  let! o := getChannel channame;
  let! chan := (match o with
                | Some c => let! ch := get_chan c;
                            ret (match ch_kind ch with KStatus _ => Some c | _ => None end)
                | None => ret None
                end);
  match chan with
  | Some c => ret c
  | None =>
    let! c := new_StatusChannel channame;
    addChannel c;;
    let! u := user;
    let! _cu := join u c OP;
    ret c
  end.
Definition createStatusChannel (a : aid) : M unit :=
  let! f := ask a_channel;
  if negb (isStatusChannel (f a)) then ret tt
  else
    let! c := open_status_channel (f a);
    let! st := ask a_status_text;
    let! t := getTopic c;
    when (negb (String.eqb t (st a)))
      (if negb (sempty (st a)) then status_setTopic c (st a) else setStatus a UNSET t);;
    addAccount c a;;
    updated_all a.
(** [b->getNick()->part(chan, ...)] for a buddy with a nick. *)
Definition part_status (c : cid) (b : bid) : M unit :=
  let! f := ask b_nick;
  match f b with
  | Some n => part n c "Leaving status channel"
  | None => ret tt
  end.
Definition leaveStatusChannel (a : aid) : M unit :=
  let! chan := getStatusChannel a;
  match chan with
  | None => ret tt
  | Some c =>
    removeAccount c a;;
    let! l := ask a_buddies;
    mapM_ (part_status c) (l a);;
    let! ch := get_chan c;
    match ch_kind ch with
    | KStatus [] => removeChannel (ch_name ch)
    | _ => ret tt
    end
  end.
Definition setStatusChannelName (a : aid) (c : string) : M unit :=
  leaveStatusChannel a;; ui_string a "channel" c;; createStatusChannel a.

(** ** The options *)

Definition or_stuck {A} (o : option A) : M A :=
  match o with Some a => ret a | None => stuck "uninitialised" end.
Definition getOption (a : aid) (o : proto_option) : M proto_option :=
  let name := o_name o in
  let! v := match o_type o with
    | OStr | OStrList _ => let! f := ask a_opt_string; ret (f a name (o_value o))
    | OInt => let! d := or_stuck (Proto.getValueInt o); let! f := ask a_opt_int; ret (t2s (f a name d))
    | OBool => let! f := ask a_opt_bool; ret (Proto.of_bool (f a name (Proto.getValueBool o)))
    | OAccid => let! f := ask a_id; ret (f a)
    | OStatusChannel => let! f := ask a_channel; ret (f a)
    | OPassword => let! f := ask a_password; ret (f a)
    | OServerAliases => let! f := ask a_server_aliases; ret (Proto.of_bool (f a))
    | ONone => ret (o_value o)
    end;
  ret (POption name (o_type o) v).
Fixpoint getOption_list (a : aid) (l : list proto_option) : M (list proto_option) :=
  match l with
  | [] => ret []
  | o :: l => let! o := getOption a o; let! l := getOption_list a l; ret (o :: l)
  end.
Definition getOptions (a : aid) : M (list proto_option) :=
  let! raws := ask a_prpl_options;
  getOption_list a (sorted (Proto.getOptions (raws a))).*2.

(** One option; the reason of the [OptionError] when it is refused. *)
Definition setOption (a : aid) (o : proto_option) : M (option string) :=
  let name := o_name o in let v := o_value o in
  match o_type o with
  | OStr | OStrList _ => im_call (Purple (OptString a name v));; ret None
  | OInt => let! z := or_stuck (Proto.getValueInt o); im_call (Purple (OptInt a name z));; ret None
  | OBool => im_call (Purple (OptBool a name (Proto.getValueBool o)));; ret None
  | OAccid =>
    let! ids := ask a_id;
    if String.eqb (ids a) v then ret None
    else
      let! f := ask a_connected;
      if f a then ret (Some "Can't change ID of a connected account")
      else
        let! p := ask a_proto;
        if sempty v then
          let! v := getNewAccountName (default "" (p a)) a;
          ui_string a "id" v;; ret None
        else
          let! o := getAccount v;
          match o with
          | Some _ => ret (Some "This ID is already used.")
          | None => ui_string a "id" v;; ret None
          end
  | OStatusChannel =>
    let! f := ask a_channel;
    if String.eqb (f a) v then ret None
    else if negb (isChanName v) || negb (isStatusChannel v)
    then ret (Some ("'" +:+ v +:+ "' is not a valid channel name"))
    else setStatusChannelName a v;; ret None
  | OPassword =>
    let! f := ask a_password;
    if String.eqb v (f a) then ret None
    else if sempty v then im_call (Purple (RememberPassword a false));; ret None
    else im_call (Purple (SetPassword a v));; im_call (Purple (RememberPassword a true));; ret None
  | OServerAliases =>
    im_call (Purple (UiBool a "server_aliases" (Proto.getValueBool o)));; ret None
  | ONone => ret None
  end.
(** [setOptions] stops at the first option it refuses. *)
Fixpoint setOptions (a : aid) (options : list proto_option) : M (option string) :=
  match options with
  | [] => ret None
  | o :: options =>
    let! r := setOption a o;
    match r with Some e => ret (Some e) | None => setOptions a options end
  end.

(** ** The callbacks *)

Definition account_removed (a : aid) : M unit :=
  abortChannelJoins a;; removeReconnection a false;; leaveStatusChannel a.

(** [make_info] and the question of [request_authorize]. *)
Definition who_text (remote_user : string) (alias : option string) : string :=
  remote_user +:+ match alias with Some s => " (" +:+ s +:+ ")" | None => "" end.
Definition msg_text (msg : option string) : string :=
  match ImConv.nonempty msg with Some s => ": " +:+ s | None => "." end.
Definition self_name (a : aid) (id : option string) : M string :=
  let! d := ask a_display; let! u := ask a_username;
  ret (match id with Some s => s | None => default (u a) (d a) end).
Definition make_info (a : aid) (remote_user : string) (id alias msg : option string) : M string :=
  let! me := self_name a id;
  ret (who_text remote_user alias +:+ " has made " +:+ me +:+ " his or her buddy" +:+ msg_text msg).
Definition authorize_text (a : aid) (remote_user : string) (id alias msg : option string) : M string :=
  let! me := self_name a id;
  ret (who_text remote_user alias +:+ " wants to add " +:+ me +:+ " to his or her buddy list" +:+ msg_text msg).

Definition connecting (a : aid) (text : string) (step step_count : Z) : M unit :=
  let! sn := ask a_servername; let! ids := ask a_id;
  b_log info (if step =? 0 then "Connection to " +:+ sn a +:+ " in progress..."
              else ids a +:+ "(" +:+ t2s step +:+ "/" +:+ t2s ((step_count - 1) mod 2 ^ 64) +:+ "): " +:+ text).
Definition new_RemoteServer (a : aid) : M sid :=
  let! sn := ask a_servername; let! p := ask a_protoname;
  let! s := alloc;
  put_server s (Server (sn a) (p a) [] (SRemote a));;
  ret s.
Definition connected (a : aid) : M unit :=
  removeReconnection a false;;
  let! sn := ask a_servername;
  b_log info ("Connection to " +:+ sn a +:+ " established!");;
  let! s := new_RemoteServer a;
  addServer s;;
  flushChannelJoins a.
Definition account_signed_on (a : aid) : M unit :=
  let! l := ask chats;
  mapM_ (fun v =>
           let! ac := ask v_account; let! ty := ask v_type; let! want := ask v_want_rejoin;
           when ((ac v =? a)%nat && (match ty v with TypeChat => true | _ => false end) && want v)
             (im_call (Purple (ServRejoinChat v)))) l.
(** A chat of the account that goes offline; [leave] makes libpurple call [destroy]. *)
Definition requeue (a : aid) (v : vid) : M unit :=
  let! ac := ask v_account;
  when (ac v =? a)%nat
    (let! gone := ask v_has_left;
     if gone v then
       let! nm := ask v_name;
       im_call (ConvLeave v);; ImConv.destroy v;;
       enqueueChannelJoin a (nm v)
     else im_call (Purple (ChatWantRejoin v))).
Definition disconnected (a : aid) : M unit :=
  abortChannelJoins a;;
  let! l := ask chats;
  mapM_ (requeue a) l;;
  let! sn := ask a_servername;
  b_log info ("Closing link with " +:+ sn a);;
  let! sn := ask a_servername;
  removeServer (sn a).

(** ** im/im.cpp *)

Definition setVoicedBuddies (enabled : bool) : M unit :=
  let! f := ask pref_voiced_buddies;
  when (negb (Bool.eqb f enabled))
    (let! l := ask a_list;
     im_call (PrefSet "/minbif/voiced_buddies" (Proto.of_bool enabled));;
     mapM_ updated_all l).
Definition im_isAway : M bool :=
  let! l := ask a_list; let! f := ask a_status;
  let prim := foldl (fun prim a => if AVAILABLE <? f a then f a else prim) AVAILABLE l in
  mapM_ (fun a => let! f := ask a_status;
                  when (negb (f a =? OFFLINE) && (f a <=? AVAILABLE)) (setStatus a prim "")) l;;
  ret (negb (prim =? AVAILABLE)).
Definition find_prim (s : string) : option nat :=
  fst <$> list_find (fun p => String.eqb (Case.strlower p.2) s || String.eqb p.1 s) primitives.
Definition im_setStatus (away : string) : M bool :=
  let '(prim, message) :=
    if sempty away then (AVAILABLE, away)
    else match find_prim (Case.strlower away) with
         | Some i => (Z.of_nat i, "")
         | None => (AWAY, away)
         end in
  let! l := ask a_list;
  mapM_ (fun a => setStatus a prim message) l;;
  ret true.
End ImAcc.
End ImAcc.
