(* ===== verification/Calm.v ===== *)
(** Computations which leave the objects of the session as they are - they answer
    the user, log, and ask src/im for something - and never meet a dangling
    pointer, an out-of-range argument or a failed assertion.  The rules of [calm]
    follow the syntax of the handlers; the tactic [calm] applies them. *)

From S2P Require Import Prelude Util Message Log World Dcc Nick Logic Channel Registry Members Kinds Irc Cmds.
Import W Obj Names Send Chan Reg Kinds Irc Cmds Wf Leave Join.

Section Calm.
Context {env : Env} (h : heap) (i : irc).

(** The session is at the heap [h] and the IRC fields [i]. *)
Definition at_st (w : world) : Prop := w_heap w = h /\ w_irc w = i.

Definition calm {A} (m : M A) (Q : A -> Prop) : Prop :=
  forall w, at_st w -> safe m (fun a w' => Q a /\ at_st w') w.

Definition any {A} (a : A) : Prop := True.

Lemma calm_weaken {A} (m : M A) (Q R : A -> Prop) :
  calm m Q -> (forall a, Q a -> R a) -> calm m R.
Proof. intros H HQ w Hw. eapply wp_mono; [by apply H| |done].
  intros a w' [Ha Hw']. split; [by apply HQ|done]. Qed.
Lemma calm_bind {A B} (m : M A) (k : A -> M B) (Q : A -> Prop) (R : B -> Prop) :
  calm m Q -> (forall a, Q a -> calm (k a) R) -> calm (bind m k) R.
Proof.
  intros H HK w Hw. apply wp_bind. eapply wp_mono; [by apply H| |done].
  intros a w' [HQ Hw']. by apply HK.
Qed.
Lemma calm_ret {A} (a : A) (Q : A -> Prop) : Q a -> calm (ret a) Q.
Proof. intros HQ w Hw. by apply wp_ret. Qed.
Lemma calm_ask {A} (f : list event -> A) : calm (ask f) any.
Proof. intros w Hw. by apply wp_ask. Qed.
Lemma calm_irc : calm (get w_irc) (eq i).
Proof. intros w [Hh Hi]. by apply wp_get. Qed.
Lemma calm_get_io {A} (f : io -> A) : calm (get (fun w => f (w_io w))) any.
Proof. intros w Hw. by apply wp_get. Qed.
Lemma calm_put_io f : calm (put (on_io f)) any.
Proof. intros w [Hh Hi]. by apply wp_put. Qed.
Lemma calm_emit e : calm (emit e) any.
Proof. apply calm_put_io. Qed.
Lemma calm_im_call c : calm (im_call c) any.
Proof. apply calm_emit. Qed.
Lemma calm_throw {A} e (Q : A -> Prop) : calm (throw e) Q.
Proof. by intros w Hw. Qed.
Lemma calm_when (b : bool) (m : M unit) : (b = true -> calm m any) -> calm (when b m) any.
Proof. intros H. destruct b; [by apply H|by apply calm_ret]. Qed.
Lemma calm_mapM_ {A} (f : A -> M unit) (l : list A) :
  (forall a, a ∈ l -> calm (f a) any) -> calm (mapM_ f l) any.
Proof.
  induction l as [|a l IH]; intros H; [by apply calm_ret|]. cbn [mapM_].
  eapply calm_bind; [apply H; left|]. intros _ _. apply IH. intros b Hb. apply H. by right.
Qed.

Lemma calm_get_nick n x : h_nicks h !! n = Some x -> calm (get_nick n) (eq x).
Proof. intros H w [Hh Hi]. eapply wp_get_nick; [by rewrite Hh|done]. Qed.
Lemma calm_get_cu u x : h_cus h !! u = Some x -> calm (get_cu u) (eq x).
Proof. intros H w [Hh Hi]. eapply wp_get_cu; [by rewrite Hh|done]. Qed.
Lemma calm_get_chan c x : h_chans h !! c = Some x -> calm (get_chan c) (eq x).
Proof. intros H w [Hh Hi]. eapply wp_get_chan; [by rewrite Hh|done]. Qed.
Lemma calm_get_server s x : h_servers h !! s = Some x -> calm (get_server s) (eq x).
Proof. intros H w [Hh Hi]. eapply wp_get_server; [by rewrite Hh|done]. Qed.

Lemma calm_mkmsg cmd s r a :
  calm (mkmsg cmd s r a) (fun m => Msg.cmd m = cmd
    /\ Msg.entity (Msg.sender m) = s /\ Msg.entity (Msg.receiver m) = r).
Proof. intros w Hw. apply safe_mkmsg. intros l. by destruct s, r. Qed.

(** The endpoints of a message are objects. *)
Definition alive (e : ent) : Prop :=
  match e with
  | ENick n => is_Some (h_nicks h !! n)
  | ECu v => exists x, h_cus h !! v = Some x /\ is_Some (h_nicks h !! cu_nick x)
  | EChan c => is_Some (h_chans h !! c)
  | EServer s => is_Some (h_servers h !! s)
  end.
Definition alive_opt (o : option ent) : Prop := forall e, o = Some e -> alive e.

Lemma alive_long e : alive e -> is_Some (ent_long h e).
Proof.
  destruct e; cbn; try (intros; by apply fmap_is_Some).
  intros (x & -> & Hx). by apply fmap_is_Some.
Qed.
Lemma alive_name e : alive e -> is_Some (ent_name h e).
Proof. destruct e; cbn; try (intros; by apply fmap_is_Some). by intros (x & -> & _). Qed.

Lemma calm_send n m s r :
  is_Some (h_nicks h !! n) -> Msg.cmd m <> "PRIVMSG" -> Msg.entity (Msg.sender m) = s ->
  Msg.entity (Msg.receiver m) = r -> alive_opt s -> alive_opt r -> calm (send n m) any.
Proof.
  intros Hn Hc Hs Hr As Ar w [Hh Hi]. apply wp_send; [by rewrite Hh| |done| |done].
  - rewrite Hh. split; intros e He; [apply alive_long, As|apply alive_name, Ar]; congruence.
  - intros w' (Hh' & Hi' & _). split; [done|]. split; congruence.
Qed.

Lemma calm_mk_send n cmd s r a :
  is_Some (h_nicks h !! n) -> cmd <> "PRIVMSG" -> alive_opt s -> alive_opt r ->
  calm (let! m := mkmsg cmd s r a; send n m) any.
Proof.
  intros Hn Hc As Ar. eapply calm_bind; [apply calm_mkmsg|]. intros m (E1 & E2 & E3).
  eapply calm_send; eauto. congruence.
Qed.

Lemma calm_addArg s (m : message) :
  calm (lift (Msg.addArg s m)) (fun m' => Msg.cmd m' = Msg.cmd m
    /\ Msg.sender m' = Msg.sender m /\ Msg.receiver m' = Msg.receiver m).
Proof.
  intros w Hw. unfold lift, wp, Msg.addArg. by destruct (Msg.back_has_space (Msg.args m)).
Qed.
Lemma calm_arg k (m : message) : (k < Msg.countArgs m)%nat -> calm (arg k m) any.
Proof.
  intros H w Hw. unfold arg, lift, wp, Msg.getArg, Msg.countArgs in *.
  destruct (Msg.args m !! k) eqn:E; [done|]. apply lookup_ge_None_1 in E. lia.
Qed.
Lemma calm_opt_arg k d (m : message) : calm (opt_arg k d m) any.
Proof.
  unfold opt_arg. destruct (Nat.ltb_spec k (Msg.countArgs m)); [by apply calm_arg|].
  by apply calm_ret.
Qed.

(** ** In a well-formed session *)

Context (o : io) (W : wf (World h i o)).

Lemma user_alive : is_Some (h_nicks h !! i_user i).
Proof. destruct (wf_user _ W) as (x & _ & _ & _ & Hx & _). cbn in Hx. by rewrite Hx. Qed.
Lemma self_alive : is_Some (h_servers h !! i_self i).
Proof. apply (wf_self _ W). Qed.
Lemma alive_user : alive_opt (Some (ENick (i_user i))).
Proof. intros e [= <-]. apply user_alive. Qed.
Lemma alive_nick n : is_Some (h_nicks h !! n) -> alive_opt (Some (ENick n)).
Proof. by intros H e [= <-]. Qed.
Lemma alive_chan c : is_Some (h_chans h !! c) -> alive_opt (Some (EChan c)).
Proof. by intros H e [= <-]. Qed.
Lemma alive_self : alive_opt (Some (EServer (i_self i))).
Proof. intros e [= <-]. apply self_alive. Qed.
Lemma alive_none : alive_opt None.
Proof. by intros e. Qed.

Lemma calm_user : calm user (eq (i_user i)).
Proof. eapply calm_bind; [apply calm_irc|]. intros ? <-. by apply calm_ret. Qed.
Lemma calm_self : calm self (eq (i_self i)).
Proof. eapply calm_bind; [apply calm_irc|]. intros ? <-. by apply calm_ret. Qed.
Lemma calm_e_self : calm e_self (eq (EServer (i_self i))).
Proof. eapply calm_bind; [apply calm_self|]. intros ? <-. by apply calm_ret. Qed.
Lemma calm_the_user :
  calm the_user (fun x => h_nicks h !! i_user i = Some x /\ exists p l b, nk_kind x = KUser p l b).
Proof.
  destruct (wf_user _ W) as (x & p & l & b & Hx & Hk). cbn in Hx.
  eapply calm_bind; [apply calm_user|]. intros ? <-.
  eapply calm_weaken; [by apply calm_get_nick|]. intros ? <-. split; [done|]. by exists p, l, b.
Qed.
Lemma calm_hasFlag f : calm (hasFlag f) any.
Proof. eapply calm_bind; [apply calm_the_user|]. intros x _. by apply calm_ret. Qed.
Lemma calm_getServerName : calm getServerName any.
Proof.
  destruct self_alive as [s Hs]. eapply calm_bind; [apply calm_self|]. intros ? <-.
  eapply calm_bind; [by apply calm_get_server|]. intros x _. by apply calm_ret.
Qed.

Lemma calm_reply_to n code args :
  is_Some (h_nicks h !! n) -> code <> "PRIVMSG" -> calm (reply_to n code args) any.
Proof.
  intros Hn Hc. eapply calm_bind; [apply calm_e_self|]. intros ? <-.
  apply calm_mk_send; [done|done|apply alive_self|by apply alive_nick].
Qed.
Lemma calm_reply code args : code <> "PRIVMSG" -> calm (reply code args) any.
Proof.
  intros Hc. eapply calm_bind; [apply calm_user|]. intros ? <-.
  apply calm_reply_to; [apply user_alive|done].
Qed.
Lemma calm_to_user cmd s r args :
  cmd <> "PRIVMSG" -> alive_opt s -> alive_opt r -> calm (to_user cmd s r args) any.
Proof.
  intros Hc As Ar. eapply calm_bind; [apply calm_user|]. intros ? <-.
  apply calm_mk_send; [apply user_alive|done..].
Qed.
Lemma calm_notice n msg : is_Some (h_nicks h !! n) -> calm (notice n msg) any.
Proof.
  intros Hn. apply calm_mapM_. intros t _. eapply calm_bind; [apply calm_user|]. intros ? <-.
  eapply calm_bind; [apply calm_e_self|]. intros ? <-.
  apply calm_mk_send; [done|done|apply alive_self|apply alive_user].
Qed.
Lemma calm_ipc_send cmd args : calm (ipc_send cmd args) any.
Proof.
  eapply calm_bind; [apply calm_mkmsg|]. intros m _. eapply calm_bind; [apply calm_emit|].
  intros _ _. eapply calm_bind; [apply calm_ask|]. intros r _. by apply calm_ret.
Qed.

(** The log: the user is the only one who reads PRIVMSG lines of the server. *)
Lemma calm_b_log flags t : calm (b_log flags t) any.
Proof.
  destruct (wf_user _ W) as (x & p & l & b & Hx & Hk). cbn in Hx.
  unfold b_log. eapply calm_bind; [apply (calm_get_io o_log)|]. intros lg _.
  destruct (Log.flux lg flags t) as [sys usr]. eapply calm_bind.
  { apply calm_mapM_. intros [lv s] _. apply calm_emit. }
  intros _ _. destruct usr as [[lv s]|]; [|by apply calm_ret]. unfold poll_log.
  eapply calm_bind; [apply calm_irc|]. intros ? <-. apply calm_mapM_. intros line _.
  eapply calm_bind; [by apply calm_get_nick|]. intros ? <-.
  eapply calm_bind; [apply calm_addArg|]. intros m (E1 & E2 & E3). rewrite Hk.
  intros w [Hh Hi]. apply wp_user_send; [|intros w' (Hh' & Hi' & _); split; [done|split; congruence]|done].
  rewrite Hh. split; intros e He; [rewrite E2 in He|rewrite E3 in He]; cbn in He; injection He as <-.
  - apply alive_long, self_alive.
  - apply alive_name, user_alive.
Qed.

(** ** Lookups *)

Lemma calm_users_list : calm users_list (eq (sorted (i_users i))).
Proof. eapply calm_bind; [apply calm_irc|]. intros ? <-. by apply calm_ret. Qed.
Lemma calm_channels_list : calm channels_list (eq (sorted (i_channels i))).
Proof. eapply calm_bind; [apply calm_irc|]. intros ? <-. by apply calm_ret. Qed.
Lemma table_alive k n : i_users i !! k = Some n -> is_Some (h_nicks h !! n).
Proof. intros H. destruct (wf_table _ W k n H) as (x & Hx & _). cbn in Hx. by rewrite Hx. Qed.
Lemma calm_getNick nm b : calm (getNick nm b) (fun r => forall n, r = Some n -> is_Some (h_nicks h !! n)).
Proof.
  eapply calm_bind; [apply calm_users_list|]. intros ? <-. apply calm_ret. intros n Hn.
  unfold find_nick in Hn. apply fmap_Some in Hn as ([k n'] & Hf & ->).
  apply List.find_some in Hf as [Hin _]. apply list_elem_of_In, Drop.elem_sorted in Hin.
  by eapply table_alive.
Qed.
Lemma calm_getChannel nm :
  calm (getChannel nm) (fun r => r = i_channels i !! nm /\ forall c, r = Some c -> is_Some (h_chans h !! c)).
Proof.
  eapply calm_bind; [apply calm_irc|]. intros ? <-. apply calm_ret. split; [done|].
  intros c Hc. destruct (wf_ctable _ W nm c Hc) as (x & Hx & _). cbn in Hx. by rewrite Hx.
Qed.
Lemma calm_getAccount nm : calm (getAccount nm) any.
Proof.
  do 3 (eapply calm_bind; [apply calm_ask|]; intros ? _). by apply calm_ret.
Qed.
Lemma calm_getAccountFromChannel nm : calm (getAccountFromChannel nm) any.
Proof.
  do 2 (eapply calm_bind; [apply calm_ask|]; intros ? _). by apply calm_ret.
Qed.
Lemma server_of n x : h_nicks h !! n = Some x -> is_Some (h_servers h !! nk_server x).
Proof. apply (wf_server _ W). Qed.
Lemma cu_of_chan c ch u :
  h_chans h !! c = Some ch -> u ∈ users ch ->
  exists x y, h_cus h !! u = Some x /\ cu_chan x = c /\ h_nicks h !! cu_nick x = Some y.
Proof.
  intros Hc Hu. destruct (chan_users h c ch u (wf_links _ W) Hc Hu) as (x & y & ? & ? & ? & _).
  by exists x, y.
Qed.
Lemma cu_of_nick n y u :
  h_nicks h !! n = Some y -> u ∈ channels y ->
  exists x ch, h_cus h !! u = Some x /\ cu_nick x = n /\ h_chans h !! cu_chan x = Some ch.
Proof.
  intros Hn Hu. destruct (nick_users h n y u (wf_links _ W) Hn Hu) as (x & ch & ? & ? & ? & _).
  by exists x, ch.
Qed.

Lemma calm_broadcast c m b s r :
  is_Some (h_chans h !! c) -> Msg.cmd m <> "PRIVMSG" -> Msg.entity (Msg.sender m) = s ->
  Msg.entity (Msg.receiver m) = r -> alive_opt s -> alive_opt r -> calm (broadcast c m b) any.
Proof.
  intros [ch Hc] Hm Hs Hr As Ar w [Hh Hi].
  assert (Ww : wf w).
  { apply (wf_same_tables (World h i o)); [done|done|by rewrite Hi..]. }
  eapply wp_broadcast; [done|by rewrite Hh|done| |].
  - rewrite Hh. split; intros e He; [apply alive_long, As|apply alive_name, Ar]; congruence.
  - intros w' (Hh' & Hi' & _). split; [done|]. split; congruence.
Qed.
End Calm.

(** ** The tactic *)

Create HintDb calm discriminated.
#[export] Hint Constants Opaque : calm.
#[export] Hint Resolve alive_self alive_user alive_none alive_nick alive_chan user_alive
  self_alive mk_is_Some : calm.

Ltac calm_leaf :=
  match goal with
  | |- calm _ _ (ret _) _ => apply calm_ret; done
  | |- calm _ _ (ask _) _ => apply calm_ask
  | |- calm _ _ (get w_irc) _ => apply calm_irc
  | |- calm _ _ (get (fun w => o_now (w_io w))) _ => apply (calm_get_io _ _ o_now)
  | |- calm _ _ (get (fun w => o_log (w_io w))) _ => apply (calm_get_io _ _ o_log)
  | |- calm _ _ (put (on_io _)) _ => apply calm_put_io
  | |- calm _ _ (emit _) _ => apply calm_emit
  | |- calm _ _ (im_call _) _ => apply calm_im_call
  | |- calm _ _ (opt_arg _ _ _) _ => apply calm_opt_arg
  | |- calm _ _ (arg _ _) _ => apply calm_arg; lia
  | |- calm _ _ (get_nick _) _ => eapply calm_get_nick; eassumption
  | |- calm _ _ (get_cu _) _ => eapply calm_get_cu; eassumption
  | |- calm _ _ (get_chan _) _ => eapply calm_get_chan; eassumption
  | |- calm _ _ (get_server _) _ => eapply calm_get_server; eassumption
  | W : wf (World ?h ?i ?o) |- calm ?h ?i _ _ =>
    first
      [ eapply (calm_reply h i o W); done
      | apply (calm_user h i)
      | apply (calm_e_self h i)
      | apply (calm_self h i)
      | eapply (calm_the_user h i o W)
      | apply (calm_hasFlag h i o W)
      | apply (calm_getServerName h i o W)
      | apply (calm_ipc_send h i)
      | apply (calm_b_log h i o W)
      | apply (calm_getNick h i o W)
      | apply (calm_getChannel h i o W)
      | apply (calm_getAccount h i)
      | apply (calm_getAccountFromChannel h i)
      | apply (calm_users_list h i)
      | apply (calm_channels_list h i)
      | apply (calm_reply_to h i o W); [eauto with calm|done]
      | apply (calm_notice h i o W); eauto with calm
      | apply (calm_to_user h i o W); [done|eauto with calm..]
      | eapply calm_send; [eauto with calm|congruence|eassumption|eassumption|eauto with calm..]
      | solve [eauto 3 with calm] ]
  end.

Ltac calm_intro :=
  let a := fresh "a" in let H := fresh "H" in
  intros a H; cbn beta in H;
  match type of H with
  | any _ => clear H
  | _ = _ => first [subst a | idtac]
  | _ => idtac
  end.

(** What the lookups say of the object they found. *)
Ltac calm_facts :=
  match goal with
  | H : forall n, Some ?m = Some n -> is_Some _ |- _ => destruct (H m eq_refl) as [? ?]; clear H
  | H : forall n, None = Some n -> is_Some _ |- _ => clear H
  | H : _ /\ (forall n, Some ?m = Some n -> is_Some _) |- _ => destruct H as [? H]
  end.

Ltac calm1 :=
  match goal with
  | _ => calm_facts
  | |- calm _ _ (match ?x with _ => _ end) _ => destruct x eqn:?
  | |- calm _ _ (when _ _) _ => apply calm_when; intros ?
  | |- calm _ _ (mapM_ _ _) _ => apply calm_mapM_; intros ? ?
  | |- calm _ _ (bind (mkmsg _ _ _ _) _) _ =>
    eapply calm_bind; [apply calm_mkmsg|intros ? (? & ? & ?)]
  | |- calm _ _ (bind _ _) _ =>
    first [ eapply calm_bind; [solve [calm_leaf]|cbn beta; calm_intro]
          | apply (calm_bind _ _ _ _ any); [|calm_intro] ]
  | |- calm _ _ _ _ => solve [calm_leaf]
  | |- calm _ _ _ any => solve [eapply calm_weaken; [calm_leaf|done]]
  end.
Ltac calm := repeat calm1.
