(* ===== verification/Queries.v ===== *)
(** The commands which only ask: their handlers leave every object of the session
    as it is and never run into undefined behaviour. *)

From S2P Require Import Prelude Util Message Log World Dcc Nick Demo Logic Channel Registry Members Kinds Irc Cmds CmdsChannels CmdsAccounts Calm.
Import W Obj Names Send Chan Reg Kinds Irc Cmds CmdsC CmdsA Wf.

Section Queries.
Context {env : Env} (h : heap) (i : irc) (o : io) (W : wf (World h i o)).

#[local] Abbreviation calm0 m := (calm h i m any).

Lemma calm_version m : calm0 (m_version m).
Proof. unfold m_version. calm. Qed.
Lemma calm_info m : calm0 (m_info m).
Proof. unfold m_info. calm. Qed.
Lemma calm_motd m : calm0 (m_motd m).
Proof. unfold m_motd. calm. Qed.
Lemma calm_whowas m : (1 <= Msg.countArgs m)%nat -> calm0 (m_whowas m).
Proof. intros H. unfold m_whowas. calm. Qed.
Lemma calm_unknown_account t b : calm0 (unknown_account t b).
Proof. unfold unknown_account. calm. Qed.
Lemma calm_squit m : (1 <= Msg.countArgs m)%nat -> calm0 (m_squit m).
Proof.
  intros H. unfold m_squit. calm; [|apply calm_unknown_account].
  generalize false. induction a0 as [|x l IH]; intros b; cbn [squit_loop]; unfold matches; calm; apply IH.
Qed.
Lemma chan_in k c : (k, c) ∈ sorted (i_channels i) -> exists ch, h_chans h !! c = Some ch.
Proof.
  intros H%Drop.elem_sorted. destruct (wf_ctable _ W k c H) as (ch & Hc & _). by exists ch.
Qed.
Lemma nick_in k n : (k, n) ∈ sorted (i_users i) -> exists x, h_nicks h !! n = Some x.
Proof.
  intros H%Drop.elem_sorted. destruct (wf_table _ W k n H) as (x & Hx & _). by exists x.
Qed.
Lemma calm_list m : calm0 (m_list m).
Proof.
  unfold m_list. calm.
  match goal with H : (_, _) ∈ _ |- _ => destruct (chan_in _ _ H) as [ch Hch] end. calm.
Qed.

(** The virtual getters of a nick. *)
Lemma calm_isOnline x : calm0 (isOnline x).
Proof. unfold isOnline. calm. Qed.
Lemma calm_isAway x : calm0 (isAway x).
Proof. unfold isAway. calm. Qed.
Lemma calm_getAwayMessage x : calm0 (getAwayMessage x).
Proof. unfold getAwayMessage. calm. Qed.
Lemma calm_getStatusMessage x b : calm0 (getStatusMessage x b).
Proof. unfold getStatusMessage. calm. apply calm_isAway. Qed.
Lemma calm_getRealName n x : h_nicks h !! n = Some x -> calm0 (getRealName x).
Proof.
  intros Hx. unfold getRealName. calm.
  destruct (wf_unknown _ W n x _ Hx ltac:(eassumption)) as [v Hv]. congruence.
Qed.

#[local] Hint Resolve calm_isOnline calm_isAway calm_getAwayMessage calm_getStatusMessage
  calm_getRealName calm_unknown_account : calm.
Lemma calm_ison m : calm0 (m_ison m).
Proof.
  unfold m_ison. calm. generalize "". induction (Msg.args m) as [|a l IH]; intros acc;
    cbn [ison_loop]; calm; apply IH.
Qed.

Lemma calm_names_loop l acc :
  (forall u, u ∈ l -> exists x y, h_cus h !! u = Some x /\ h_nicks h !! cu_nick x = Some y) ->
  calm0 (names_loop l acc).
Proof.
  revert acc. induction l as [|u l IH]; intros acc Hl; cbn [names_loop]; [calm|].
  destruct (Hl u) as (x & y & Hx & Hy); [left|]. calm.
  - unfold cu_nickname. calm.
  - apply IH. intros v Hv. apply Hl. by right.
Qed.
Lemma calm_sendNames c n ch :
  h_chans h !! c = Some ch -> is_Some (h_nicks h !! n) -> calm0 (sendNames c n).
Proof.
  intros Hc Hn. unfold sendNames. calm.
  apply calm_names_loop. intros u Hu. destruct (cu_of_chan h i o W _ _ _ Hc Hu) as (x & y & ? & ? & ?).
  by exists x, y.
Qed.
Lemma calm_names m : (1 <= Msg.countArgs m)%nat -> calm0 (m_names m).
Proof.
  intros H. unfold m_names, no_channel. calm.
  eapply calm_sendNames; [done|by eapply user_alive].
Qed.

Lemma calm_ping m : calm0 (m_ping m).
Proof.
  eapply calm_bind; [apply calm_e_self|]. intros ? <-.
  eapply calm_bind; [apply calm_user|]. intros ? <-.
  eapply (calm_bind _ _ _ _ (fun m' => Msg.cmd m' = "PONG")); [by intros w Hw|].
  intros m' Hm. apply (calm_send _ _ _ _ (Some (EServer (i_self i))) (Some (EServer (i_self i))));
    [by eapply user_alive|cbn; congruence|done|done|by eapply alive_self..].
Qed.
Lemma calm_wallops m : (1 <= Msg.countArgs m)%nat -> calm0 (m_wallops m).
Proof. intros H. unfold m_wallops. calm. Qed.

(** ** WHO *)

Lemma calm_isOn n c x : h_nicks h !! n = Some x -> calm0 (isOn n c).
Proof.
  intros Hx. unfold isOn, nick_getChanUser. calm.
  assert (Hl : forall u, u ∈ channels x -> exists y, h_cus h !! u = Some y).
  { intros u Hu. destruct (cu_of_nick h i o W _ _ _ Hx Hu) as (y & _ & Hy & _). by exists y. }
  induction (channels x) as [|u l IH]; cbn [find_chan]; calm.
  destruct (Hl u) as [y Hy]; [left|]. calm. apply IH. intros v Hv. apply Hl. by right.
Qed.
Lemma calm_who_chan a chan n x : h_nicks h !! n = Some x -> calm0 (who_chan a chan n x).
Proof.
  intros Hx. unfold who_chan. destruct (server_of h i o W _ _ Hx) as [s Hs].
  assert (Hon : forall c, calm0 (isOn n c)) by (intros c; by eapply calm_isOn).
  destruct (channels x) as [|u l] eqn:El; [calm|].
  destruct (cu_of_nick h i o W n x u Hx) as (y & ch & Hy & _ & Hc); [rewrite El; left|].
  calm.
Qed.
Lemma calm_who_line a flags chan e :
  e ∈ sorted (i_users i) -> calm0 (who_line a flags chan e).
Proof.
  destruct e as [k n]. intros He. destruct (nick_in _ _ He) as [x Hx].
  destruct (server_of h i o W _ _ Hx) as [s Hs]. unfold who_line. cbn [snd]. calm.
  by eapply calm_who_chan.
Qed.
Lemma calm_who m : calm0 (m_who m).
Proof.
  unfold m_who. destruct (who_args _ _ _) as [a flags]. calm; by apply calm_who_line.
Qed.

(** ** WHOIS *)

Lemma calm_chan_names n x acc : h_nicks h !! n = Some x -> calm0 (chan_names (channels x) acc).
Proof.
  intros Hx.
  assert (Hl : forall u, u ∈ channels x -> exists y ch, h_cus h !! u = Some y
            /\ h_chans h !! cu_chan y = Some ch).
  { intros u Hu. destruct (cu_of_nick h i o W _ _ _ Hx Hu) as (y & ch & Hy & _ & Hc). by exists y, ch. }
  revert acc. induction (channels x) as [|u l IH]; intros acc; cbn [chan_names]; [calm|].
  destruct (Hl u) as (y & ch & Hy & Hc); [left|]. calm. apply IH. intros v Hv. apply Hl. by right.
Qed.
Lemma calm_whois_icon x z : calm0 (whois_icon x z).
Proof. unfold whois_icon. calm. Qed.
Lemma calm_retrieveInfo x : calm0 (retrieveInfo x).
Proof. unfold retrieveInfo. calm. Qed.

(** The icons libpurple keeps are below the directory of the user. *)
Definition icons_below : Prop :=
  forall t b, b_iconpath t b = "" \/ (slen im_user_path <= slen (b_iconpath t b))%nat.
Lemma calm_getIconPath x :
  icons_below -> calm h i (getIconPath x) (fun p => p = "" \/ (slen im_user_path <= slen p)%nat).
Proof.
  intros H. unfold getIconPath. destruct (nick_buddy x); [|apply calm_ret; by left].
  intros w Hw. apply wp_bind, wp_ask, wp_ret. split; [apply H|done].
Qed.
Lemma calm_whois_url x : icons_below -> calm0 (whois_url x).
Proof.
  intros Hi. eapply calm_bind; [eapply calm_getIconPath, Hi|]. intros p Hp. apply calm_when.
  intros [_ Hne]%andb_true_iff. destruct Hp as [->|Hle%Nat.ltb_ge]; [done|]. rewrite Hle. calm.
Qed.
#[local] Hint Resolve calm_whois_icon calm_retrieveInfo calm_chan_names calm_whois_url : calm.
Lemma calm_whois m : icons_below -> (1 <= Msg.countArgs m)%nat -> calm0 (m_whois m).
Proof.
  intros Hi H. unfold m_whois. eapply calm_bind; [apply calm_arg; lia|]. intros target _.
  eapply calm_bind; [eapply (calm_getNick h i o W)|]. intros [n|] Hn; [|calm].
  destruct (Hn n eq_refl) as [x Hx]. clear Hn. destruct (server_of h i o W _ _ Hx) as [s Hs]. calm.
Qed.

(** ** STATS *)

Lemma calm_plugin_do u call p t : is_Some (h_nicks h !! u) -> calm0 (plugin_do u call p t).
Proof. intros H. unfold plugin_do. calm. Qed.
#[local] Hint Resolve calm_plugin_do : calm.
Lemma calm_stats_plugins u m : is_Some (h_nicks h !! u) -> calm0 (stats_plugins u m).
Proof. intros H. unfold stats_plugins. calm. Qed.
#[local] Hint Resolve calm_stats_plugins : calm.
Lemma calm_stats_switch u a m : is_Some (h_nicks h !! u) -> calm0 (stats_switch u a m).
Proof. intros H. unfold stats_switch. calm. Qed.
Lemma calm_stats m : calm0 (m_stats m).
Proof. unfold m_stats. calm. apply calm_stats_switch. by eapply user_alive. Qed.

(** ** INVITE, MODE *)

Lemma conv_valid c ch ce up cb :
  h_chans h !! c = Some ch -> ch_kind ch = KConversation ce up cb -> exists v, conv ce = Some v.
Proof. intros Hc Hk. destruct (wf_conv _ W c ch ce up cb Hc Hk ltac:(done)) as [[v Hv] _]. by exists v. Qed.

Lemma calm_invite c ch n a b :
  h_chans h !! c = Some ch -> is_Some (h_nicks h !! n) -> calm0 (invite c n a b).
Proof.
  intros Hc Hn. unfold invite. eapply calm_bind; [by apply calm_get_chan|]. intros ? <-.
  destruct (ch_kind ch) as [l|ce up cb] eqn:Ek.
  - calm.
  - destruct (conv_valid c ch ce up cb Hc Ek) as [v ->]. calm.
Qed.
Lemma calm_m_invite m : (2 <= Msg.countArgs m)%nat -> calm0 (m_invite m).
Proof.
  intros H. unfold m_invite, no_channel. calm. eapply calm_invite; [done|by eapply user_alive].
Qed.

Lemma calm_showBanList c ch n :
  h_chans h !! c = Some ch -> is_Some (h_nicks h !! n) -> calm0 (showBanList c n).
Proof. intros Hc Hn. unfold showBanList. calm. Qed.

Lemma calm_match_loop p l :
  (forall k n, (k, n) ∈ l -> exists x, h_nicks h !! n = Some x) ->
  calm h i (match_loop p l) (fun r => forall n, n ∈ r -> exists x, h_nicks h !! n = Some x).
Proof.
  induction l as [|[k n] l IH]; intros Hl; cbn [match_loop].
  - apply calm_ret. intros n H. by apply not_elem_of_nil in H.
  - destruct (Hl k n) as [x Hx]; [left|]. eapply calm_bind; [by apply calm_get_nick|]. intros ? <-.
    eapply calm_bind; [apply IH; intros k' n' H; apply (Hl k'); by right|].
    intros r Hr. apply calm_ret. destruct (fnmatch _ _); [|done].
    intros n' [->|H]%elem_of_cons; [by exists x|by apply Hr].
Qed.
Lemma calm_announce_ban c n md nm a :
  is_Some (h_chans h !! c) -> is_Some (h_nicks h !! n) -> calm0 (announce_ban c n md nm a).
Proof.
  intros Hc Hn. unfold announce_ban. eapply calm_bind; [apply calm_ask|]. intros f _.
  eapply calm_bind; [apply calm_mkmsg|]. intros m (E1 & E2 & E3).
  eapply (calm_broadcast h i o W); [done|congruence|exact E2|exact E3|by apply alive_nick|by apply alive_chan].
Qed.
Lemma calm_ban_one c n md b t x :
  is_Some (h_chans h !! c) -> is_Some (h_nicks h !! n) -> h_nicks h !! t = Some x ->
  calm0 (ban_one c n md b t).
Proof.
  intros Hc Hn Hx. unfold ban_one. calm. by apply calm_announce_ban.
Qed.
Lemma calm_processBan c n p b ch :
  h_chans h !! c = Some ch -> is_Some (h_nicks h !! n) -> calm0 (processBan c n p b).
Proof.
  intros Hc Hn. assert (Hc' : is_Some (h_chans h !! c)) by (by rewrite Hc).
  unfold processBan, matchNick. eapply calm_bind; [by apply calm_get_chan|]. intros ? <-.
  destruct (ch_kind ch) as [accs|ce up cb]; [|calm].
  eapply calm_bind.
  { eapply calm_bind; [apply calm_users_list|]. intros ? <-. apply calm_match_loop. exact nick_in. }
  assert (Hann : forall p a, calm0 (announce_ban c n (if b then "+b" else "-b") p a))
    by (intros; by apply calm_announce_ban).
  intros [|n0 r] Hr.
  - calm; apply Hann.
  - apply calm_mapM_. intros t Ht. destruct (Hr t Ht) as [x Hx]. by eapply calm_ban_one.
Qed.

Lemma calm_mode_chars c n md b args ch :
  h_chans h !! c = Some ch -> is_Some (h_nicks h !! n) -> calm0 (mode_chars c n md b args).
Proof.
  intros Hc Hn. revert b args. induction md as [|x md IH]; intros b args; cbn [mode_chars]; [calm|].
  assert (H1 : calm0 (showBanList c n)) by (by eapply calm_showBanList).
  assert (H2 : forall a b, calm0 (processBan c n a b)) by (intros; by eapply calm_processBan).
  repeat (match goal with |- context [if ?b then _ else _] => destruct b end; [apply IH|]).
  destruct (Ascii.eqb x "b"); [|apply IH].
  destruct args as [|a args]; (eapply calm_bind; [apply H1 || apply H2|intros; apply IH]).
Qed.
Lemma calm_m_mode m : (1 <= Msg.countArgs m)%nat -> calm0 (m_mode m).
Proof.
  intros H. unfold m_mode. do 2 calm1. eapply calm_bind; [apply calm_mkmsg|]. intros r (E1 & E2 & E3).
  destruct (isChanName _).
  - eapply calm_bind; [eapply (calm_getChannel h i o W)|]. intros [c|] [_ Hc]; [|calm].
    destruct (Hc c eq_refl) as [ch Hch]. clear Hc. unfold chan_m_mode. calm.
    eapply calm_mode_chars; [done|by eapply user_alive].
  - eapply calm_bind; [eapply (calm_getNick h i o W)|]. intros [n|] Hn; [|calm].
    destruct (Hn n eq_refl) as [x Hx]. clear Hn. destruct (server_of h i o W _ _ Hx) as [s Hs].
    unfold nick_m_mode. eapply calm_bind; [by apply calm_get_nick|]. intros ? <-.
    assert (Hs' : alive_opt h (Some (EServer (nk_server x)))) by (intros e [= <-]; cbn; by rewrite Hs).
    destruct (nk_kind x); calm.
Qed.
End Queries.
