(* ===== verification/Dispatch.v ===== *)
(** [IRC::readIO] (irc/irc.cpp): what the socket gives is cut into lines, each line
    is parsed, checked against the table of commands and answered. *)

From S2P Require Import Prelude Util Message Log World Dcc Nick Demo Logic Channel Registry Members Kinds Irc Cmds CmdsChannels CmdsAccounts.
Import W Obj Names Send Chan Reg Kinds Irc Cmds CmdsC CmdsA.

Module Dispatch.
Section Dispatch.
Context {env : Env}.

(** The functions of [IRC::commands]. *)
Definition handler (cmd : string) : message -> M unit :=
  let named s := String.eqb cmd s in
  if named "NICK" then m_nick else if named "USER" then m_user else if named "PASS" then m_pass
  else if named "QUIT" then m_quit else if named "CMD" then m_cmd else if named "PRIVMSG" then m_privmsg
  else if named "PING" then m_ping else if named "PONG" then m_pong
  else if named "VERSION" then m_version else if named "INFO" then m_info else if named "WHO" then m_who
  else if named "WHOIS" then m_whois else if named "WHOWAS" then m_whowas
  else if named "STATS" then m_stats else if named "CONNECT" || named "SCONNECT" then m_connect
  else if named "SQUIT" then m_squit else if named "MAP" then m_map else if named "ADMIN" then m_admin
  else if named "JOIN" then m_join else if named "PART" then m_part else if named "NAMES" then m_names
  else if named "TOPIC" then m_topic else if named "LIST" then m_list else if named "MODE" then m_mode
  else if named "ISON" then m_ison else if named "INVITE" then m_invite else if named "KICK" then m_kick
  else if named "KILL" then m_kill else if named "SVSNICK" then m_svsnick
  else if named "AWAY" then m_away else if named "MOTD" then m_motd else if named "OPER" then m_oper
  else if named "WALLOPS" then m_wallops else if named "REHASH" then m_rehash
  else m_die.

(** What [readIO] decides for a message, before any effect of the command. *)
Inductive verdict := Unknown | TooFewArgs | NotRegistered | NotOper | Run.
Definition check (flags_of_user : Z) (m : message) : verdict :=
  match List.find (fun '(cmd, _, _) => String.eqb cmd (Msg.cmd m)) commands with
  | None => Unknown
  | Some (_, minargs, flags) =>
    if (Msg.countArgs m <? minargs)%nat then TooFewArgs
    else if negb (flags =? 0) && negb (Log.hasb flags_of_user flags) then
      if negb (Log.hasb flags_of_user REGISTERED) then NotRegistered else NotOper
    else Run
  end.

(** One turn of the loop. *)
Definition exec (m : message) : M unit :=
  setLastReadNow;;
  let! x := the_user;
  match check (nk_flags x) m with
  | Unknown => reply "421" [Msg.cmd m; "Unknown command"]
  | TooFewArgs => reply "461" [Msg.cmd m; "Not enough parameters"]
  | NotRegistered => reply "451" ["Register first"]
  | NotOper => reply "481" ["Permission Denied: Insufficient privileges"]
  | Run =>
    put (on_irc (up_i_counts (fun t => <[Msg.cmd m := default 0 (t !! Msg.cmd m) + 1]> t)));;
    handler (Msg.cmd m) m
  end.
Definition exec_line (line : string) : M unit :=
  let! m := lift (Msg.parse line);
  b_log Log.W_PARSE ("<< " +:+ line);;
  exec m.

(** [IRC::readIO]; [rd] is what [sockw->Read()] does: the bytes read, or the
    reason of the [SockError] it throws. Other exceptions leave [readIO]. *)
Definition readIO (rd : string + string) : M bool :=
  catch_sock
    (let! open := get (fun w => o_sockw (w_io w));
     if negb open then stuck "NULL sockw"
     else
       match rd with
       | inr reason => throw (SockError reason)
       | inl sbuf => mapM_ exec_line (Tok.tokens (String "013" (String "010" "")) sbuf)
       end)
    irc_quit;;
  ret true.
End Dispatch.
End Dispatch.
