(* ===== verification/Safety.v ===== *)
(** The commands which change the session: from a well-formed session their
    handlers leave a well-formed session, whatever the message, and meet no
    undefined behaviour.  Then the whole of [readIO] on any bytes made of such
    commands. *)

From S2P Require Import Prelude Util Message Log World Dcc Nick Demo Logic Channel Registry Members Kinds Irc Cmds CmdsChannels CmdsAccounts Calm Queries Dispatch.
Import W Obj Names Send Chan Reg Kinds Irc Cmds CmdsC CmdsA Dispatch Wf View Leave Join.

(** [m] keeps the session well-formed; [keeps] speaks of one heap. *)
Definition good {env : Env} {A} (m : M A) : Prop := forall w, wf w -> safe m (fun _ w' => wf w') w.
Definition keeps {env : Env} {A} (h : heap) (i : irc) (m : M A) : Prop :=
  forall w, at_st h i w -> safe m (fun _ w' => wf w') w.

Section Rules.
Context {env : Env}.

Lemma at_st_wf h i o w : wf (World h i o) -> at_st h i w -> wf w.
Proof. intros W [Hh Hi]. apply (wf_same_tables (World h i o)); [done|done|by rewrite Hi..]. Qed.

Lemma good_of_keeps {A} (m : M A) :
  (forall h i o, wf (World h i o) -> keeps h i m) -> good m.
Proof. intros H [h i o] W. by apply (H h i o). Qed.
Lemma good_of_calm {A} (m : M A) :
  (forall h i o, wf (World h i o) -> calm h i m any) -> good m.
Proof.
  intros H [h i o] W. eapply wp_mono; [by apply (H h i o)| |done].
  intros a w' [_ Hw]. by eapply at_st_wf.
Qed.
Lemma good_ret {A} (a : A) : good (ret a).
Proof. by intros w W. Qed.
Lemma good_bind {A B} (m : M A) (k : A -> M B) :
  good m -> (forall a, good (k a)) -> good (bind m k).
Proof.
  intros Hm Hk w W. apply wp_bind. eapply wp_mono; [by apply Hm| |done].
  intros a w' W'. by apply Hk.
Qed.
Lemma good_when (b : bool) (m : M unit) : good m -> good (when b m).
Proof. intros H. destruct b; [done|apply good_ret]. Qed.
Lemma good_mapM_ {A} (f : A -> M unit) l : (forall a, good (f a)) -> good (mapM_ f l).
Proof. intros H. induction l; [apply good_ret|]. apply good_bind; [apply H|done]. Qed.

Lemma keeps_good {A} h i o (m : M A) : wf (World h i o) -> good m -> keeps h i m.
Proof. intros W H w Hw. apply H. by eapply at_st_wf. Qed.
Lemma keeps_calm {A} h i o (m : M A) : wf (World h i o) -> calm h i m any -> keeps h i m.
Proof.
  intros W H w Hw. eapply wp_mono; [by apply H| |done]. intros a w' [_ Hw'].
  by eapply at_st_wf.
Qed.
Lemma keeps_bind {A B} h i (m : M A) (k : A -> M B) Q :
  calm h i m Q -> (forall a, Q a -> keeps h i (k a)) -> keeps h i (bind m k).
Proof.
  intros Hm Hk w Hw. apply wp_bind. eapply wp_mono; [by apply Hm| |done].
  intros a w' [Ha Hw']. by apply Hk.
Qed.
Lemma keeps_then {A B} h i (m : M A) (k : A -> M B) :
  keeps h i m -> (forall a, good (k a)) -> keeps h i (bind m k).
Proof.
  intros Hm Hk w Hw. apply wp_bind. eapply wp_mono; [by apply Hm| |done].
  intros a w' W'. by apply Hk.
Qed.
Lemma keeps_at {A} h i (m : M A) (Q : A -> world -> Prop) :
  (forall o, safe m Q (World h i o)) -> (forall a w', Q a w' -> wf w') -> keeps h i m.
Proof.
  intros Hm HQ [h' i' o] [Hh Hi]. cbn in Hh, Hi. subst. eapply wp_mono; [apply Hm|exact HQ|done].
Qed.
Lemma wf_any_io h i o o' : wf (World h i o) -> wf (World h i o').
Proof. intros W. by eapply at_st_wf. Qed.
End Rules.

Create HintDb good discriminated.
#[export] Hint Constants Opaque : good.
#[export] Hint Resolve good_ret good_when good_mapM_ : good.

(** One step of a [keeps] proof: the calm beginning, then a [good] command. *)
Ltac keeps1 :=
  match goal with
  | _ => calm_facts
  | |- keeps _ _ (match ?x with _ => _ end) => destruct x eqn:?
  | |- keeps _ _ (bind _ _) =>
    first [ eapply keeps_bind; [solve [calm_leaf]|cbn beta; calm_intro]
          | eapply keeps_bind; [solve [eapply calm_weaken; [calm_leaf|done]]|cbn beta; calm_intro] ]
  | W : wf (World ?h ?i ?o) |- keeps ?h ?i _ =>
    first [ solve [apply (keeps_good h i o); [exact W|eauto with good]]
          | solve [apply (keeps_calm h i o); [exact W|calm]] ]
  end.
Ltac keeps := repeat keeps1.

Section Ops.
Context {env : Env}.

Lemma good_reply code args : code <> "PRIVMSG" -> good (reply code args).
Proof. intros H. apply good_of_calm. intros h i o W. by eapply calm_reply. Qed.
Lemma good_emit e : good (emit e).
Proof. apply good_of_calm. intros h i o W. apply calm_emit. Qed.
Lemma good_im_call c : good (im_call c).
Proof. apply good_emit. Qed.
Lemma good_b_log f t : good (b_log f t).
Proof. apply good_of_calm. intros h i o W. by eapply calm_b_log. Qed.
Lemma good_ipc_send c a : good (ipc_send c a).
Proof. apply good_of_calm. intros h i o W. apply calm_ipc_send. Qed.
Lemma good_ask {A} (f : list event -> A) : good (ask f).
Proof. apply good_of_calm. intros h i o W. apply calm_ask. Qed.
Lemma good_put_io f : good (put (on_io f)).
Proof. apply good_of_calm. intros h i o W. apply calm_put_io. Qed.
Lemma good_getServerName : good getServerName.
Proof. apply good_of_calm. intros h i o W. by eapply calm_getServerName. Qed.
Lemma good_motd m : good (m_motd m).
Proof. apply good_of_calm. intros h i o W. by eapply calm_motd. Qed.

(** ** The fields of the user *)

Lemma good_up_user f :
  (forall x, nk_name (f x) = nk_name x /\ nk_server (f x) = nk_server x
     /\ channels (f x) = channels x /\ (nk_kind (f x) = nk_kind x
        \/ exists p l b, nk_kind (f x) = KUser p l b)) ->
  good (up_user f).
Proof.
  intros Hf. apply good_of_keeps. intros h i o W. unfold up_user.
  destruct (user_alive h i o W) as [x Hx]. keeps. eapply keeps_at; [|by intros a w' H; exact H].
  intros o'. apply wp_put. destruct (Hf x) as (E1 & E2 & E3 & E4).
  destruct (wf_user _ W) as (y & p & l & b & Hy & Hk). cbn in Hy.
  eapply (wf_put_nick (World h i o') _ (i_user i) x (f x)); [by eapply wf_any_io|done..| | |done|done].
  - intros _. destruct E4 as [E4|E4]; [|done]. rewrite E4. simplify_eq. by exists p, l, b.
  - intros ce. destruct E4 as [->|(p' & l' & b' & ->)]; done.
Qed.
Lemma good_up_ukind f : (forall p l b, exists p' l' b', f p l b = KUser p' l' b') -> good (up_ukind f).
Proof.
  intros Hf. apply good_of_keeps. intros h i o W. unfold up_ukind.
  eapply keeps_bind; [by eapply calm_the_user|]. intros x (Hx & p & l & b & Hk). rewrite Hk.
  eapply keeps_good; [done|]. apply good_up_user. intros y. do 3 (split; [done|]). right. cbn.
  apply Hf.
Qed.
Lemma good_setFlag f : good (setFlag f).
Proof. apply good_up_user. intros x. do 3 (split; [done|]). by left. Qed.
Lemma good_delFlag f : good (delFlag f).
Proof. apply good_up_user. intros x. do 3 (split; [done|]). by left. Qed.
Lemma good_away s : good (up_user (fun x => with_away x s)).
Proof. apply good_up_user. intros x. do 3 (split; [done|]). by left. Qed.
Lemma good_real s : good (up_user (fun x => with_real x s)).
Proof. apply good_up_user. intros x. do 3 (split; [done|]). by left. Qed.
Lemma good_setPassword s : good (setPassword s).
Proof. apply good_up_ukind. eauto. Qed.
Lemma good_user_close : good user_close.
Proof. apply good_up_ukind. eauto. Qed.
Lemma good_setLastReadNow : good setLastReadNow.
Proof.
  apply good_of_keeps. intros h i o W. unfold setLastReadNow. keeps.
  apply (keeps_good h i o); [done|]. apply good_up_ukind. eauto.
Qed.
#[local] Hint Resolve good_emit good_im_call good_b_log good_ipc_send good_put_io good_motd
  good_setFlag good_delFlag good_away good_real good_setPassword good_user_close
  good_setLastReadNow good_ask : good.

(** ** End, registration *)

Lemma good_put_motd f : good (put (on_irc (up_i_motd f))).
Proof. intros w W. apply wp_put. by eapply wf_same_tables. Qed.
Lemma good_rehash b : good (rehash b).
Proof.
  unfold rehash, setMotd. apply good_bind; [|eauto with good].
  destruct conf_motd; [apply good_put_motd|eauto with good].
Qed.
Lemma good_irc_quit s : good (irc_quit s).
Proof.
  apply good_of_keeps. intros h i o W. unfold irc_quit.
  eapply keeps_bind; [eapply (calm_to_user h i o W); [done|by intros e..]|]. intros _ _.
  apply keeps_then; [eapply keeps_good; eauto with good|]. intros _.
  apply good_bind; [apply good_of_calm; intros h' i' o' W'; apply (calm_get_io _ _ o_sockw)|].
  intros b. eauto using good_bind with good.
Qed.
#[local] Hint Resolve good_rehash good_irc_quit : good.

(** ** Names *)

Lemma wf_table_delete w k : wf w -> wf (on_irc (up_i_users (delete k)) w).
Proof.
  intros W. split; try apply W. cbn. intros k' n H. apply lookup_delete_Some in H as [_ H].
  by apply (wf_table _ W).
Qed.
Lemma wf_table_insert w n x :
  wf w -> h_nicks (w_heap w) !! n = Some x -> wf (on_irc (up_i_users (insert (nk_name x) n)) w).
Proof.
  intros W Hx. split; try apply W. cbn. intros k n' H.
  apply lookup_insert_Some in H as [[<- <-]|[_ H]]; [by exists x|by apply (wf_table _ W)].
Qed.
Lemma wf_put_name w n x s :
  wf w -> h_nicks (w_heap w) !! n = Some x -> (forall k, i_users (w_irc w) !! k <> Some n) ->
  wf (on_heap (up_h_nicks (insert n (with_name x s))) w).
Proof.
  intros W Hn Hno.
  assert (Hv : view_of (w_heap (on_heap (up_h_nicks (insert n (with_name x s))) w)) = view_of (w_heap w)).
  { unfold view_of. cbn. f_equal. rewrite fmap_insert. apply insert_id. by rewrite lookup_fmap, Hn. }
  split; try apply W; cbn.
  - setoid_rewrite Hv. apply W.
  - intros j Hlt. rewrite lookup_insert_ne; [by apply W|]. intros ->.
    destruct (wf_fresh _ W j Hlt). congruence.
  - intros n' z [[<- <-]|[_ H]]%lookup_insert_cases; cbn; by eapply (wf_server _ W).
  - destruct (wf_user _ W) as (z & p & l & b & Hz & Hk).
    destruct (decide (n = i_user (w_irc w))) as [->|Hne].
    + rewrite lookup_insert_eq. rewrite Hz in Hn. simplify_eq. by eexists _, p, l, b.
    + rewrite lookup_insert_ne by done. by exists z, p, l, b.
  - intros k n' Hk. destruct (wf_table _ W _ _ Hk) as (z & Hz & Hnm). exists z. split; [|done].
    rewrite lookup_insert_ne; [done|]. intros ->. by apply (Hno k).
  - intros n' z ce [[<- <-]|[_ H]]%lookup_insert_cases Hk; by eapply (wf_unknown _ W).
Qed.

Lemma safe_addNick n x w :
  wf w -> h_nicks (w_heap w) !! n = Some x -> safe (addNick n) (fun _ w' => wf w') w.
Proof.
  intros W Hx. destruct w as [h i o]. destruct (wf_server _ W n x Hx) as [sv Hsv].
  revert Hsv Hx. cbn. intros Hsv Hx.
  assert (H : keeps h i (addNick n)); [|by apply H].
  unfold addNick. eapply keeps_bind; [by apply calm_get_nick|]. intros ? <-.
  eapply keeps_bind; [apply calm_irc|]. intros ? <-.
  eapply (keeps_bind _ _ _ _ any); [apply calm_when; intros _; by eapply calm_b_log|]. intros _ _.
  eapply keeps_at; [|by intros a w' H; exact H]. intros o'. apply wp_bind, wp_put, wp_bind.
  eapply wp_get_server; [exact Hsv|]. apply wp_put.
  eapply (wf_put_server (on_irc (up_i_users (insert (nk_name x) n)) (World h i o')) _ (nk_server x) sv
    (with_svusers sv (sv_users sv ++ [n])));
    [|exact Hsv|reflexivity|reflexivity|reflexivity].
  apply wf_table_insert; [by eapply wf_any_io|done].
Qed.

(** [IRC::renameNick]: no other name of the table stands for the nick. *)
Lemma safe_renameNick n x s w :
  wf w -> h_nicks (w_heap w) !! n = Some x -> safe (renameNick n s) (fun _ w' => wf w') w.
Proof.
  intros W Hx. unfold renameNick. apply wp_bind. eapply wp_get_nick; [done|].
  apply wp_bind, wp_put, wp_bind, wp_put. eapply safe_addNick.
  - apply wf_put_name; [by apply wf_table_delete|done|]. cbn. intros k H.
    apply lookup_delete_Some in H as [Hne H]. destruct (wf_table _ W _ _ H) as (y & Hy & Hnm). congruence.
  - cbn. apply lookup_insert_eq.
Qed.

Lemma good_setIdentname s : good (let! u := user; setIdentname u s).
Proof.
  eapply (good_of_keeps (env := env)). intros h i o W. destruct (user_alive h i o W) as [x Hx].
  unfold setIdentname. keeps. eapply keeps_at; [|by intros a w' H; exact H]. intros o'. apply wp_put.
  destruct (wf_user _ W) as (y & p & l & b & Hy & Hk). cbn in Hy.
  eapply (wf_put_nick (World h i o') _ (i_user i) x (with_ident x (fix_ident s)));
    [by eapply wf_any_io|done..| |done|done|done].
  intros _. simplify_eq. by exists p, l, b.
Qed.

(** ** Registration *)

(** [Auth::generate] of an account that does not exist yet succeeds or throws. *)
Definition generate_ok : Prop :=
  forall t u p, auth_result (t ++ [ImCall (AuthGenerate u p)]) <> inl false.

Lemma good_hasFlag f : good (hasFlag f).
Proof. apply good_of_calm. intros h i o W. by eapply calm_hasFlag. Qed.
Lemma good_put_im f : good (put (on_irc (up_i_im f))).
Proof. intros w W. apply wp_put. by eapply wf_same_tables. Qed.
Lemma good_the_user : good the_user.
Proof.
  apply good_of_calm. intros h i o W. eapply calm_weaken; [by eapply calm_the_user|done].
Qed.
#[local] Hint Resolve good_hasFlag good_put_im good_the_user good_getServerName good_reply : good.

Lemma good_welcome : good welcome.
Proof.
  unfold welcome. repeat (first [apply good_bind; [eauto with good|intros ?]]).
  apply good_when. apply good_bind; [eauto with good|]. intros _. by apply good_reply.
Qed.
Lemma good_sendWelcome : generate_ok -> good sendWelcome.
Proof.
  intros G. apply good_of_keeps. intros h i o W. unfold sendWelcome.
  pose proof good_welcome as GW.
  eapply keeps_bind; [by eapply calm_the_user|]. intros x (Hx & p & l & b & Hk).
  destruct (_ || _); [apply (keeps_good h i o); eauto with good|].
  eapply (keeps_bind _ _ _ _ any).
  { unfold getPassword. eapply calm_bind; [by eapply calm_the_user|]. intros y (_ & p' & l' & b' & ->).
    by apply calm_ret. }
  intros pw _. assert (GQ : forall t, keeps h i (irc_quit t)).
  { intros t. apply (keeps_good h i o); eauto with good. }
  eapply keeps_bind; [apply calm_im_call|]. intros _ _.
  eapply keeps_bind; [apply calm_ask|]. intros [[]|e] _; [by apply (keeps_good h i o)| |apply GQ].
  eapply keeps_bind; [apply calm_ask|]. intros known _. destruct (known _); [apply GQ|].
  destruct (_ && _); [apply GQ|].
  eapply keeps_at; [|by intros a w' H; exact H]. intros o'.
  apply wp_bind, wp_put, wp_bind, wp_ask. cbn.
  set (w1 := on_io _ _). assert (W1 : wf w1) by (by eapply (wf_any_io h i o)).
  destruct (auth_result _) as [[]|e] eqn:E; [by apply GW| |by apply good_irc_quit].
  exfalso. by eapply G.
Qed.
End Ops.

#[export] Hint Resolve good_emit good_im_call good_b_log good_ipc_send good_put_io good_motd
  good_setFlag good_delFlag good_away good_real good_setPassword good_user_close
  good_setLastReadNow good_ask good_rehash good_irc_quit good_hasFlag good_put_im good_the_user
  good_getServerName good_reply good_welcome good_sendWelcome : good.

Section Handlers.
Context {env : Env} (G : generate_ok).

Lemma good_arg k (m : message) : (k < Msg.countArgs m)%nat -> good (arg k m).
Proof. intros H. apply good_of_calm. intros h i o W. by apply calm_arg. Qed.
Lemma good_opt_arg k d (m : message) : good (opt_arg k d m).
Proof. apply good_of_calm. intros h i o W. apply calm_opt_arg. Qed.
#[local] Hint Resolve good_arg good_opt_arg : good.

Ltac good_leaf :=
  match goal with
  | |- good (arg _ _) => apply good_arg; lia
  | |- good (reply _ _) => by apply good_reply
  | |- good _ => solve [eauto with good]
  end.
Ltac good_step :=
  match goal with
  | |- good (match ?x with _ => _ end) => destruct x eqn:?
  | |- good (when _ _) => apply good_when
  | |- good (bind _ _) => apply good_bind; [solve [good_leaf]|intros ?]
  | |- good _ => good_leaf
  end.
Ltac good_tac := repeat good_step.

Lemma good_m_pong m : good (m_pong m).
Proof. unfold m_pong. good_tac. Qed.
Lemma good_m_pass m : (1 <= Msg.countArgs m)%nat -> good (m_pass m).
Proof. intros H. unfold m_pass. good_tac. Qed.
Lemma good_m_quit m : good (m_quit m).
Proof. unfold m_quit. good_tac. Qed.
Lemma good_m_away m : good (m_away m).
Proof. unfold m_away. good_tac. Qed.
Lemma good_m_rehash m : good (m_rehash m).
Proof. unfold m_rehash. good_tac. Qed.
Lemma good_m_die m : (1 <= Msg.countArgs m)%nat -> good (m_die m).
Proof. intros H. unfold m_die. good_tac. Qed.
Lemma good_oper_mode : good (let! u := user; to_user "MODE" (Some (ENick u)) (Some (ENick u)) ["+o"]).
Proof.
  apply good_of_calm. intros h i o W. eapply calm_bind; [apply calm_user|]. intros ? <-.
  apply (calm_to_user h i o W); [done|by eapply alive_user..].
Qed.
Lemma good_m_oper m : (2 <= Msg.countArgs m)%nat -> good (m_oper m).
Proof.
  intros H. unfold m_oper. good_tac.
  apply good_of_keeps. intros h i o W. eapply keeps_bind; [apply calm_user|]. intros ? <-.
  eapply keeps_bind; [apply (calm_to_user h i o W); [done|by eapply alive_user..]|]. intros _ _.
  apply (keeps_good h i o); [done|]. good_tac.
Qed.
Lemma good_m_nick m : good (m_nick m).
Proof.
  apply good_of_keeps. intros h i o W. unfold m_nick. destruct (user_alive h i o W) as [x Hx].
  eapply keeps_bind; [by eapply calm_hasFlag|]. intros reg _.
  destruct (Nat.ltb_spec (Msg.countArgs m) 1) as [Hlt|Hge];
    [apply (keeps_good h i o); [done|by apply good_reply]|].
  destruct reg; [apply (keeps_good h i o); [done|by apply good_reply]|].
  eapply keeps_bind; [apply calm_arg; lia|]. intros nick _.
  destruct (isValidNickname nick); [|apply (keeps_good h i o); [done|by apply good_reply]].
  eapply keeps_bind; [apply calm_user|]. intros ? <-.
  apply keeps_then; [|intros _; by apply good_sendWelcome].
  eapply keeps_at; [|by intros a w' H; exact H]. intros o'.
  eapply safe_renameNick; [by eapply wf_any_io|exact Hx].
Qed.
Lemma good_m_user m : (4 <= Msg.countArgs m)%nat -> good (m_user m).
Proof.
  intros H. unfold m_user. apply good_bind; [eauto with good|]. intros [];
    [by apply good_reply|].
  apply good_of_keeps. intros h i o W. destruct (user_alive h i o W) as [x Hx].
  eapply keeps_bind; [apply calm_user|]. intros ? <-.
  eapply keeps_bind; [apply calm_arg; lia|]. intros ident _. apply keeps_then.
  - eapply keeps_at; [|by intros a w' H'; exact H']. intros o'.
    pose proof (good_setIdentname ident (World h i o') (wf_any_io _ _ _ _ W)) as Hg. exact Hg.
  - intros _. good_tac.
Qed.

(** ** Channels *)

Lemma safe_user_join c st w :
  wf w -> is_Some (h_chans (w_heap w) !! c) -> safe (let! u := user; join u c st) (fun _ w' => wf w') w.
Proof.
  intros W [ch Hc]. destruct w as [h i o]. destruct (user_alive h i o W) as [x Hx].
  apply wp_bind, wp_bind, wp_get, wp_ret.
  eapply wp_mono; [by eapply wp_join| |done]. by intros cu w' (W' & _).
Qed.
Lemma keeps_user_join {A} h i o c st (a : A) :
  wf (World h i o) -> is_Some (h_chans h !! c) ->
  keeps h i (let! u := user; let! _r := join u c st; ret a).
Proof.
  intros W Hc. eapply keeps_at; [|by intros b w' H; exact H]. intros o'.
  apply wp_bind. pose proof (safe_user_join c st (World h i o') (wf_any_io _ _ _ _ W) Hc) as H.
  revert H. unfold wp, bind, ret. cbn. by destruct (join _ _ _ _).
Qed.
Lemma good_join_loop l p : good (join_loop l p).
Proof.
  revert p. induction l as [|c l IH]; intros p; cbn [join_loop]; [apply good_ret|].
  unfold no_channel. destruct (negb (isChanName c)).
  { apply good_bind; [by apply good_reply|intros _; apply IH]. }
  apply good_of_keeps. intros h i o W. destruct (isStatusChannel c).
  - eapply keeps_bind; [by eapply calm_getChannel|]. intros [k|] [_ Hk].
    + apply keeps_then; [|intros _; apply IH]. eapply keeps_user_join; [done|by apply Hk].
    + apply keeps_then; [|intros _; apply IH]. apply (keeps_good h i o); [done|by apply good_reply].
  - eapply keeps_bind; [by eapply calm_getChannel|]. intros [k|] [_ Hk];
      [by apply (keeps_good h i o)|].
    destruct (Tok.stringtok _ _) as [cn acc]. destruct (Tok.stringtok _ _) as [pm ps].
    eapply (keeps_bind _ _ _ _ any); [calm|]. intros _ _. by apply (keeps_good h i o).
Qed.
Lemma good_m_join m : (1 <= Msg.countArgs m)%nat -> good (m_join m).
Proof.
  intros H. unfold m_join. apply good_bind; [eauto with good|]. intros names.
  apply good_bind; [eauto with good|]. intros ps. apply good_join_loop.
Qed.
Lemma good_m_part m : (1 <= Msg.countArgs m)%nat -> good (m_part m).
Proof.
  intros H. apply good_of_keeps. intros h i o W. unfold m_part, no_channel.
  eapply keeps_bind; [apply calm_arg; lia|]. intros nm _.
  eapply keeps_bind; [apply calm_opt_arg|]. intros rs _.
  eapply keeps_bind; [by eapply calm_getChannel|]. intros [c|] [_ Hc];
    [|apply (keeps_good h i o); [done|by apply good_reply]].
  eapply keeps_bind; [apply calm_user|]. intros ? <-.
  destruct (wf_user _ W) as (x & p & l & b & Hx & Hk).
  assert (T : in_table (i_user i) x (World h i o)) by (intros E; by rewrite Hk in E).
  apply (keeps_at h i _ (fun _ w' => wf w' /\ off (i_user i) c w' /\ i_user (w_irc w') = i_user i));
    [|by intros a w' (W' & _)].
  intros o'. apply (wp_part (i_user i) c rs x (World h i o')); [by eapply wf_any_io|done|exact T|by apply Hc].
Qed.

(** The topic of a channel is not part of the links. *)
Lemma wf_put_topic w c ch t :
  wf w -> h_chans (w_heap w) !! c = Some ch ->
  wf (on_heap (up_h_chans (insert c (with_topic ch t))) w).
Proof.
  intros W Hc.
  assert (Hv : view_of (w_heap (on_heap (up_h_chans (insert c (with_topic ch t))) w)) = view_of (w_heap w)).
  { unfold view_of. cbn. f_equal. rewrite fmap_insert. apply insert_id. by rewrite lookup_fmap, Hc. }
  split; try apply W; cbn.
  - setoid_rewrite Hv. apply W.
  - intros j Hlt. rewrite (lookup_insert_ne (h_chans (w_heap w))); [by apply W|]. intros ->.
    destruct (wf_fresh _ W j Hlt) as (_ & H & _). congruence.
  - intros c' ch' ce up cb [[<- <-]|[_ H]]%lookup_insert_cases Hk HX;
      [exact (wf_conv _ W _ ch ce up cb Hc Hk HX)|by eapply (wf_conv _ W)].
  - intros k c' Hk. destruct (wf_ctable _ W _ _ Hk) as (x & Hx & Hnm).
    destruct (decide (c = c')) as [<-|Hne].
    + rewrite lookup_insert_eq. rewrite Hx in Hc. simplify_eq. by eexists.
    + rewrite lookup_insert_ne by done. by exists x.
Qed.
Lemma keeps_chan_setTopic h i o c who t :
  wf (World h i o) -> is_Some (h_chans h !! c) -> alive_opt h who -> keeps h i (chan_setTopic c who t).
Proof.
  intros W [ch Hc] Hwho. unfold chan_setTopic. eapply keeps_bind; [by apply calm_get_chan|]. intros ? <-.
  destruct (String.eqb _ _); [apply (keeps_good h i o); [done|apply good_ret]|].
  eapply keeps_at; [|by intros a w' H; exact H]. intros o'. apply wp_bind, wp_put.
  assert (W1 := wf_put_topic _ c ch (before_newline t) (wf_any_io _ _ _ o' W) Hc).
  set (w1 := on_heap _ _) in *. destruct w1 as [h1 i1 o1] eqn:E1.
  assert (Hh : h1 = up_h_chans (insert c (with_topic ch (before_newline t))) h /\ i1 = i).
  { unfold w1 in E1. cbn in E1. injection E1 as <- <- <-. done. }
  destruct Hh as [Hh ->].
  assert (Hc1 : is_Some (h_chans h1 !! c)) by (rewrite Hh; cbn; by rewrite lookup_insert_eq).
  assert (K : keeps h1 i (let! s := e_self;
     let! m := mkmsg "TOPIC" (Some (default s who)) (Some (EChan c)) [before_newline t];
     broadcast c m None;; ret true)).
  { eapply keeps_bind; [by eapply calm_e_self|]. intros ? <-.
    eapply keeps_bind; [apply calm_mkmsg|]. intros m (E2 & E3 & E4). apply keeps_then; [|intros _; apply good_ret].
    eapply keeps_calm; [done|]. eapply (calm_broadcast h1 i o1); [done|done|congruence|exact E3|exact E4| |].
    - intros e [= <-]. destruct who as [e|]; cbn; [|by eapply self_alive].
      rewrite Hh. specialize (Hwho e eq_refl). destruct e as [ | |c'| ]; cbn in *; try done.
      destruct (decide (c = c')) as [->|]; [by rewrite lookup_insert_eq|by rewrite lookup_insert_ne].
    - by apply alive_chan. }
  by apply K.
Qed.
Lemma good_m_topic m : (1 <= Msg.countArgs m)%nat -> good (m_topic m).
Proof.
  intros H. apply good_of_keeps. intros h i o W. unfold m_topic, no_channel.
  eapply keeps_bind; [apply calm_arg; lia|]. intros nm _.
  eapply keeps_bind; [by eapply calm_getChannel|]. intros [c|] [_ Hc];
    [|apply (keeps_good h i o); [done|by apply good_reply]].
  destruct (Hc c eq_refl) as [ch Hch]. clear Hc. eapply keeps_bind; [by apply calm_get_chan|]. intros ? <-.
  assert (Hcv : forall ce up cb, ch_kind ch = KConversation ce up cb -> exists v, conv ce = Some v)
    by (intros; by eapply (conv_valid h i o W c)).
  destruct (Nat.ltb_spec (Msg.countArgs m) 2).
  - apply (keeps_calm h i o); [done|]. eapply (calm_bind _ _ _ _ any).
    + unfold getTopic. eapply calm_bind; [by apply calm_get_chan|]. intros ? <-.
      destruct (ch_kind ch) as [|ce up cb] eqn:Ek; [calm|]. destruct (Hcv _ _ _ eq_refl) as [v ->]. calm.
    + intros t _. calm.
  - eapply keeps_bind; [apply calm_arg; lia|]. intros t _.
    eapply keeps_bind; [by eapply calm_user|]. intros ? <-.
    apply keeps_then; [|intros ok; apply good_when; by apply good_reply].
    unfold setTopic. eapply keeps_bind; [by apply calm_get_chan|]. intros ? <-.
    destruct (ch_kind ch) as [accs|ce up cb] eqn:Ek.
    + apply keeps_then; [eapply keeps_chan_setTopic; [done|by rewrite Hch|by eapply alive_user]|].
      intros ok. destruct (negb ok); [apply good_ret|]. apply good_bind; [|intros _; apply good_ret].
      apply good_mapM_. intros a. apply good_im_call.
    + destruct (Hcv _ _ _ eq_refl) as [v ->]. eapply keeps_bind; [by eapply calm_user|]. intros ? <-.
      rewrite bool_decide_true by done. apply (keeps_good h i o); [done|]. good_tac.
Qed.

(** ** The channel users found by the lookups *)

Lemma calm_nick_getChanUser h i o n y c :
  wf (World h i o) -> h_nicks h !! n = Some y ->
  calm h i (nick_getChanUser n c)
    (fun r => forall u, r = Some u -> exists x, h_cus h !! u = Some x /\ cu_nick x = n).
Proof.
  intros W Hn. unfold nick_getChanUser. eapply calm_bind; [by apply calm_get_nick|]. intros ? <-.
  assert (Hl : forall u, u ∈ channels y -> exists x, h_cus h !! u = Some x /\ cu_nick x = n).
  { intros u Hu. destruct (cu_of_nick h i o W _ _ _ Hn Hu) as (x & _ & Hx & E & _). by exists x. }
  induction (channels y) as [|u l IH]; cbn [find_chan]; [by apply calm_ret|].
  destruct (Hl u) as (x & Hx & Hnk); [left|]. eapply calm_bind; [by apply calm_get_cu|]. intros ? <-.
  destruct (_ =? _)%nat; [apply calm_ret; intros ? [= <-]; by exists x|].
  apply IH. intros v Hv. apply Hl. by right.
Qed.
Lemma calm_chan_getChanUser h i o c ch nick :
  wf (World h i o) -> h_chans h !! c = Some ch ->
  calm h i (chan_getChanUser c nick)
    (fun r => forall u, r = Some u ->
       exists x y, h_cus h !! u = Some x /\ h_nicks h !! cu_nick x = Some y).
Proof.
  intros W Hc. unfold chan_getChanUser. eapply calm_bind; [by apply calm_get_chan|]. intros ? <-.
  generalize (Case.strlower nick). intros nm.
  assert (Hl : forall u, u ∈ users ch ->
    exists x y, h_cus h !! u = Some x /\ h_nicks h !! cu_nick x = Some y).
  { intros u Hu. destruct (cu_of_chan h i o W _ _ _ Hc Hu) as (x & y & Hx & _ & Hy). by exists x, y. }
  induction (users ch) as [|u l IH]; cbn [find_cu]; [by apply calm_ret|].
  destruct (Hl u) as (x & y & Hx & Hy); [left|]. unfold cu_nickname.
  apply (calm_bind _ _ _ _ any).
  { eapply calm_bind; [by apply calm_get_cu|intros ? <-]. eapply calm_bind; [by apply calm_get_nick|]. intros ? <-. apply calm_ret. exact I. }
  intros a _. destruct (String.eqb _ _); [apply calm_ret; intros ? [= <-]; by exists x, y|].
  apply IH. intros v Hv. apply Hl. by right.
Qed.
Lemma calm_find_buddy h i o name d :
  wf (World h i o) ->
  calm h i (find_buddy name d)
    (fun r => forall n b, r = Some (n, b) ->
       exists x, h_nicks h !! n = Some x /\ nick_buddy x = Some b).
Proof.
  intros W. unfold find_buddy. eapply calm_bind; [by eapply calm_getNick|]. intros [n|] Hn.
  - destruct (Hn n eq_refl) as [x Hx]. eapply calm_bind; [by apply calm_get_nick|]. intros ? <-.
    destruct (nick_buddy x) as [b|] eqn:E.
    + apply calm_ret. intros ? ? [= <- <-]. by exists x.
    + eapply calm_bind; [by eapply calm_reply|]. intros _ _. by apply calm_ret.
  - eapply calm_bind; [by eapply calm_reply|]. intros _ _. by apply calm_ret.
Qed.

(** ** KICK, KILL, SVSNICK, CONNECT *)

Lemma keeps_then_wf {A B} h i (m : M A) (k : A -> M B) Q :
  (forall o, safe m (fun a w' => wf w' /\ Q a w') (World h i o)) -> (forall a, good (k a)) ->
  keeps h i (bind m k).
Proof.
  intros Hm Hk. apply keeps_then; [|done].
  eapply keeps_at; [exact Hm|]. by intros a w' [W' _].
Qed.
Lemma keeps_kick h i o c ch from xf victim x y text :
  wf (World h i o) -> h_chans h !! c = Some ch -> h_cus h !! from = Some xf -> cu_nick xf = i_user i ->
  h_cus h !! victim = Some x -> h_nicks h !! cu_nick x = Some y ->
  keeps h i (kick c from victim text).
Proof.
  intros W Hc Hf Ef Hx Hy. unfold kick. eapply keeps_bind; [by apply calm_get_chan|]. intros ? <-.
  destruct (ch_kind ch); [|apply (keeps_good h i o); [done|apply good_ret]].
  eapply keeps_bind; [by apply calm_get_cu|]. intros ? <-.
  eapply keeps_bind; [by apply calm_get_cu|]. intros ? <-.
  eapply keeps_bind; [by apply calm_get_nick|]. intros ? <-.
  destruct (wf_user _ W) as (z & p & l & b & Hz & Hk). cbn in Hz.
  assert (Hfz : is_Some (h_nicks h !! cu_nick xf)) by (rewrite Ef, Hz; done).
  destruct (nk_kind y) as [| |bb sb ei ce| |] eqn:Ey.
  3:{ destruct (wf_server _ W _ _ Hy) as [sv Hsv]. cbn in Hsv.
    eapply keeps_bind; [by apply calm_get_server|]. intros ? <-. destruct (sv_kind sv) as [|acc].
    - apply (keeps_calm h i o); [done|]. unfold cu_nickname. calm.
    - eapply (keeps_then_wf _ _ _ _ (fun _ w' => off (cu_nick x) c w')).
      + intros o'. apply (wp_kicked (cu_nick x) c from _ y xf (World h i o'));
          [by eapply wf_any_io|exact Hy|by rewrite Ey|exact Hf|].
        rewrite Ef. intros E. rewrite <- E, Hz in Hy. congruence.
      + intros _. apply good_bind; [apply good_im_call|intros _; apply good_ret]. }
  all: apply (keeps_calm h i o); [done|].
  all: eapply calm_bind; [by eapply calm_e_self|]; intros ? <-.
  all: eapply calm_bind; [apply calm_mkmsg|]; intros m (E1 & E2 & E3).
  all: eapply (calm_bind _ _ _ _ any); [|intros _ _; by apply calm_ret].
  all: eapply calm_send; [exact Hfz|congruence|exact E2|exact E3|by apply (alive_self h i o W)|].
  all: intros e [= <-]; exists xf; by split.
Qed.
Lemma good_m_kick m : (2 <= Msg.countArgs m)%nat -> good (m_kick m).
Proof.
  intros H. apply good_of_keeps. intros h i o W. unfold m_kick, no_channel.
  eapply keeps_bind; [apply calm_arg; lia|]. intros nm _.
  eapply keeps_bind; [by eapply calm_getChannel|]. intros [c|] [_ Hc];
    [|apply (keeps_good h i o); [done|by apply good_reply]].
  destruct (Hc c eq_refl) as [ch Hch]. clear Hc. eapply keeps_bind; [by apply calm_get_chan|]. intros ? <-.
  eapply keeps_bind; [by eapply calm_user|]. intros ? <-. destruct (user_alive h i o W) as [z Hz].
  eapply keeps_bind; [by eapply calm_nick_getChanUser|]. intros [from|] Hf;
    [|apply (keeps_good h i o); [done|by apply good_reply]].
  destruct (Hf from eq_refl) as (xf & Hxf & Ef). clear Hf.
  eapply keeps_bind; [apply calm_arg; lia|]. intros nick _.
  unfold getChanUser.
  destruct (ch_kind ch) as [accs|ce up cb] eqn:Ek.
  - eapply keeps_bind with (Q := fun r => forall u, r = Some u ->
       exists x y, h_cus h !! u = Some x /\ h_nicks h !! cu_nick x = Some y).
    { eapply calm_bind; [by apply calm_get_chan|]. intros ? <-. rewrite Ek. by eapply calm_chan_getChanUser. }
    intros [v|] Hv; [|apply (keeps_good h i o); [done|by apply good_reply]].
    destruct (Hv v eq_refl) as (x & y & Hx & Hy).
    eapply keeps_bind; [apply calm_opt_arg|]. intros t _.
    apply keeps_then; [|intros _; apply good_ret]. by eapply keeps_kick.
  - eapply (keeps_bind _ _ _ _ any).
    { eapply calm_bind; [by apply calm_get_chan|]. intros ? <-. rewrite Ek. calm. }
    intros [v|] _; [|apply (keeps_good h i o); [done|by apply good_reply]].
    eapply keeps_bind; [apply calm_opt_arg|]. intros t _. unfold kick.
    apply keeps_then; [|intros _; apply good_ret].
    eapply keeps_bind; [by apply calm_get_chan|]. intros ? <-. rewrite Ek.
    apply (keeps_good h i o); [done|apply good_ret].
Qed.
Lemma good_m_kill m : (1 <= Msg.countArgs m)%nat -> good (m_kill m).
Proof.
  intros H. apply good_of_keeps. intros h i o W. unfold m_kill.
  eapply keeps_bind; [apply calm_arg; lia|]. intros nm _.
  eapply keeps_bind; [by eapply calm_find_buddy|]. intros [[n b]|] Hb;
    [|apply (keeps_good h i o); [done|apply good_ret]].
  destruct (Hb n b eq_refl) as (x & Hx & Eb).
  eapply keeps_bind; [by apply calm_get_nick|]. intros ? <-.
  eapply keeps_bind; [by eapply calm_user|]. intros ? <-.
  destruct (wf_server _ W _ _ Hx) as [sv Hsv]. cbn in Hsv.
  eapply keeps_bind; [by apply calm_get_server|]. intros ? <-.
  pose proof (user_alive h i o W) as Hu. destruct (sv_kind sv) as [|acc].
  { apply (keeps_calm h i o); [done|]. by eapply calm_notice. }
  eapply keeps_bind; [apply calm_opt_arg|]. intros t _.
  eapply keeps_bind; [by eapply calm_notice|]. intros _ _.
  eapply keeps_bind; [by eapply calm_the_user|]. intros me _.
  eapply (keeps_then_wf _ _ _ _ (fun _ w' => True)); [|intros _; apply good_im_call].
  intros o'. eapply wp_mono; [apply (wp_quit_with (X := None) removeNick n _ x (World h i o'))| |done];
    [by eapply wf_any_io|done|exact Hx| |].
  - unfold nick_buddy in Eb. by destruct (nk_kind x).
  - intros a w' (W' & _). done.
Qed.
Lemma good_m_svsnick m : (2 <= Msg.countArgs m)%nat -> good (m_svsnick m).
Proof.
  intros H. apply good_of_keeps. intros h i o W. unfold m_svsnick.
  eapply keeps_bind; [apply calm_arg; lia|]. intros nm _.
  eapply keeps_bind; [by eapply calm_find_buddy|]. intros [[n b]|] Hb;
    [|apply (keeps_good h i o); [done|apply good_ret]].
  destruct (Hb n b eq_refl) as (x & Hx & Eb).
  eapply keeps_bind; [apply calm_arg; lia|]. intros new _.
  destruct (negb _); [apply (keeps_good h i o); [done|by apply good_reply]|].
  eapply keeps_bind; [by eapply calm_getNick|]. intros o2 _.
  destruct (match o2 with Some _ => _ | None => _ end);
    [apply (keeps_good h i o); [done|by apply good_reply]|].
  eapply keeps_bind.
  { eapply (calm_to_user h i o W); [done|apply alive_nick; by rewrite Hx|by apply alive_none]. }
  intros _ _. apply keeps_then; [|intros _; apply good_im_call].
  eapply keeps_at; [|by intros a w' Hw; exact Hw]. intros o'.
  eapply safe_renameNick; [by eapply wf_any_io|exact Hx].
Qed.

Lemma calm_getStatusChannel h i o a :
  wf (World h i o) ->
  calm h i (getStatusChannel a) (fun r => forall c, r = Some c -> is_Some (h_chans h !! c)).
Proof.
  intros W. unfold getStatusChannel. eapply calm_bind; [apply calm_ask|]. intros f _.
  destruct (negb _); [by apply calm_ret|].
  eapply calm_bind; [by eapply calm_getChannel|]. intros k [_ Hk].
  eapply (calm_bind _ _ _ _ (fun r => forall c, r = Some c -> is_Some (h_chans h !! c))).
  - destruct k as [c|]; [|by apply calm_ret]. destruct (Hk c eq_refl) as [ch Hch].
    eapply calm_bind; [by apply calm_get_chan|]. intros ? <-. apply calm_ret.
    destruct (ch_kind ch); intros ? [=]. by subst.
  - intros [c|] Hc; [by apply calm_ret|].
    eapply calm_bind; [by eapply calm_b_log|]. intros _ _. by apply calm_ret.
Qed.
Lemma good_connect_loop t l b : good (connect_loop t l b).
Proof.
  revert b. induction l as [|a l IH]; intros b; cbn [connect_loop]; [apply good_ret|].
  unfold matches. apply good_bind; [good_tac|]. intros []; [|apply IH]. apply good_bind; [eauto with good|intros _].
  apply good_of_keeps. intros h i o W. eapply keeps_bind; [by eapply calm_getStatusChannel|].
  intros k Hk. apply keeps_then; [|intros _; apply IH]. destruct k as [c|].
  - eapply keeps_user_join; [done|by apply Hk].
  - apply (keeps_good h i o); [done|apply good_ret].
Qed.
Lemma good_m_connect m : (1 <= Msg.countArgs m)%nat -> good (m_connect m).
Proof.
  intros H. unfold m_connect. good_tac. apply good_bind; [apply good_connect_loop|]. intros f.
  apply good_of_calm. intros h i o W. by eapply calm_unknown_account.
Qed.
End Handlers.
