(* ===== verification/Talk.v ===== *)
(** PRIVMSG and CMD, the two commands which talk to the remote side: they open
    conversations and queue texts, so that the heap changes, but only in the
    [ConvEntity] of nicks and channels. *)

From S2P Require Import Prelude Util Message Log World Dcc Nick Demo Logic Channel Registry Members Kinds Irc Cmds CmdsChannels CmdsAccounts Calm Queries Dispatch Safety.
Import W Obj Names Send Chan Reg Kinds Irc Cmds CmdsC CmdsA Dispatch Wf View Leave Join.

(** The class of a nick. *)
Definition tag (k : nick_kind) : nat :=
  match k with KNick => 0 | KUser _ _ _ => 1 | KBuddy _ _ _ _ => 2 | KChatBuddy _ _ => 3
  | KUnknownBuddy _ => 4 end.

(** What talking leaves as it was. *)
Record talk (w w' : world) : Prop := {
  t_self : i_self (w_irc w') = i_self (w_irc w);
  t_user : i_user (w_irc w') = i_user (w_irc w);
  t_users : i_users (w_irc w') = i_users (w_irc w);
  t_channels : i_channels (w_irc w') = i_channels (w_irc w);
  t_servers : i_servers (w_irc w') = i_servers (w_irc w);
  t_cus : h_cus (w_heap w') = h_cus (w_heap w);
  t_svs : h_servers (w_heap w') = h_servers (w_heap w);
  t_nicks : forall n x, h_nicks (w_heap w) !! n = Some x -> exists x',
    h_nicks (w_heap w') !! n = Some x' /\ tag (nk_kind x') = tag (nk_kind x)
    /\ nk_name x' = nk_name x /\ channels x' = channels x;
  t_chans : forall c ch, h_chans (w_heap w) !! c = Some ch -> exists ch',
    h_chans (w_heap w') !! c = Some ch' /\ users ch' = users ch /\ ch_name ch' = ch_name ch }.

#[export] Instance talk_preorder : PreOrder talk.
Proof.
  split.
  - intros w. split; try done; intros n x Hx; exists x; done.
  - intros w1 w2 w3 H1 H2. split; try (etransitivity; [apply H2|apply H1]).
    + intros n x Hx. destruct (t_nicks _ _ H1 n x Hx) as (y & Hy & E1 & E2 & E3).
      destruct (t_nicks _ _ H2 n y Hy) as (z & Hz & F1 & F2 & F3). exists z. split; [done|].
      split; [congruence|]. split; congruence.
    + intros c x Hx. destruct (t_chans _ _ H1 c x Hx) as (y & Hy & E1 & E2).
      destruct (t_chans _ _ H2 c y Hy) as (z & Hz & F1 & F2). exists z. split; [done|].
      split; congruence.
Qed.

(** [m] keeps the session well-formed and only talks, since [w0]. *)
Definition chat {env : Env} {A} (w0 : world) (m : M A) : Prop :=
  forall w, wf w -> talk w0 w -> safe m (fun _ w' => wf w' /\ talk w0 w') w.

Section Rules.
Context {env : Env} (w0 : world).

Lemma chat_ret {A} (a : A) : chat w0 (ret a).
Proof. by intros w W T. Qed.
Lemma chat_bind {A B} (m : M A) (k : A -> M B) :
  chat w0 m -> (forall a, chat w0 (k a)) -> chat w0 (bind m k).
Proof.
  intros Hm Hk w W T. apply wp_bind. eapply wp_mono; [by apply Hm| |done].
  intros a w' [W' T']. by apply Hk.
Qed.
Lemma chat_when (b : bool) (m : M unit) : chat w0 m -> chat w0 (when b m).
Proof. intros H. destruct b; [done|apply chat_ret]. Qed.
Lemma chat_mapM_ {A} (f : A -> M unit) l : (forall a, a ∈ l -> chat w0 (f a)) -> chat w0 (mapM_ f l).
Proof.
  induction l as [|a l IH]; intros H; [apply chat_ret|].
  apply chat_bind; [apply H; left|intros _]. apply IH. intros b Hb. apply H. by right.
Qed.
Lemma talk_at h i w w' : at_st h i w -> at_st h i w' -> talk w0 w -> talk w0 w'.
Proof.
  intros [H1 H2] [H3 H4] T.
  split; rewrite ?H3, ?H4, <- ?H1, <- ?H2; apply T.
Qed.
Lemma wf_at h i w w' : at_st h i w -> at_st h i w' -> wf w -> wf w'.
Proof.
  intros [H1 H2] [H3 H4] W. apply (wf_same_tables w); [done|congruence|..]; by rewrite H4, H2.
Qed.
(** A calm beginning. *)
Lemma chat_calm_bind {A B} (m : M A) (k : A -> M B) w Q P :
  wf w -> talk w0 w -> calm (w_heap w) (w_irc w) m Q ->
  (forall a w', Q a -> wf w' -> talk w0 w' -> w_heap w' = w_heap w -> w_irc w' = w_irc w ->
     safe (k a) P w') ->
  safe (bind m k) P w.
Proof.
  intros W T Hm Hk. apply wp_bind. eapply wp_mono; [apply Hm; done| |done].
  intros a w' [Ha Hw]. assert (at_st (w_heap w) (w_irc w) w) by done.
  apply Hk; [done|by eapply wf_at|by eapply talk_at|apply Hw..].
Qed.
Lemma chat_calm {A} (m : M A) :
  (forall h i o, wf (World h i o) -> calm h i m any) -> chat w0 m.
Proof.
  intros H [h i o] W T. eapply wp_mono; [by apply (H h i o)| |done].
  intros a w' [_ Hw]. assert (at_st h i (World h i o)) by done.
  split; [by eapply wf_at|by eapply talk_at].
Qed.
Lemma chat_then {A B} (m : M A) (k : A -> M B) w :
  wf w -> talk w0 w -> chat w0 m -> (forall a, chat w0 (k a)) ->
  safe (bind m k) (fun _ w' => wf w' /\ talk w0 w') w.
Proof. intros W T Hm Hk. by apply (chat_bind m k). Qed.

(** Nicks keep their class and their place. *)
Lemma talk_nick w n x : talk w0 w -> h_nicks (w_heap w0) !! n = Some x ->
  exists x', h_nicks (w_heap w) !! n = Some x' /\ tag (nk_kind x') = tag (nk_kind x).
Proof. intros T H. destruct (t_nicks _ _ T n x H) as (y & ? & ? & _). by exists y. Qed.
End Rules.

Section Ops.
Context {env : Env} (w0 : world).

Definition quietly {A} (m : M A) (w : world) : Prop := safe m (fun _ w' => wf w' /\ talk w0 w') w.

Lemma quiet_mono {A} (m : M A) (Q : A -> world -> Prop) w :
  safe m Q w -> (forall a w', Q a w' -> wf w' /\ talk w0 w') -> quietly m w.
Proof. intros H HQ. eapply wp_mono; [exact H|exact HQ|done]. Qed.

(** Writing a nick or the kind of a channel. *)
Lemma talk_put_nick w n x k :
  wf w -> talk w0 w -> h_nicks (w_heap w) !! n = Some x -> tag k = tag (nk_kind x) ->
  (forall ce, k = KUnknownBuddy ce -> is_Some (conv ce)) ->
  wf (on_heap (up_h_nicks (insert n (with_kind x k))) w)
  /\ talk w0 (on_heap (up_h_nicks (insert n (with_kind x k))) w).
Proof.
  intros W T Hx Ht Hu. split.
  - eapply (wf_put_kind w _ n x (with_kind x k)); try done. intros ->.
    destruct (wf_user _ W) as (z & p & l & b & Hz & Hk). simplify_eq. cbn.
    rewrite Hk in Ht. destruct k as [|p' l' b'| | |]; try discriminate Ht. by exists p', l', b'.
  - etransitivity; [exact T|]. split; try done.
    + intros n' y Hy. cbn. destruct (decide (n = n')) as [<-|Hne].
      * rewrite lookup_insert_eq. rewrite Hx in Hy. injection Hy as <-. by eexists.
      * rewrite lookup_insert_ne by done. by exists y.
    + intros c ch Hc. by exists ch.
Qed.
Lemma talk_put_conv w c ch ce ce' up cb :
  wf w -> talk w0 w -> h_chans (w_heap w) !! c = Some ch -> ch_kind ch = KConversation ce up cb ->
  is_Some (conv ce') ->
  wf (on_heap (up_h_chans (insert c (with_ckind ch (KConversation ce' up cb)))) w)
  /\ talk w0 (on_heap (up_h_chans (insert c (with_ckind ch (KConversation ce' up cb)))) w).
Proof.
  intros W T Hc Hk Hv.
  assert (E : view_of (w_heap (on_heap (up_h_chans (insert c
    (with_ckind ch (KConversation ce' up cb)))) w)) = view_of (w_heap w)).
  { unfold view_of. cbn. f_equal. rewrite fmap_insert. apply insert_id. by rewrite lookup_fmap, Hc. }
  split.
  - split; try apply W; cbn.
    + setoid_rewrite E. apply W.
    + intros j Hlt. rewrite (lookup_insert_ne (h_chans (w_heap w))); [by apply W|]. intros ->.
      destruct (wf_fresh _ W j Hlt) as (_ & H & _). congruence.
    + intros c' ch' ce1 up1 cb1 [[<- <-]|[_ H]]%lookup_insert_cases Hk' HX; [|by eapply (wf_conv _ W)].
      cbn in Hk'. injection Hk' as <- <- <-. split; [done|].
      by destruct (wf_conv _ W c ch ce up cb Hc Hk ltac:(done)) as [_ ?].
    + intros k c' Hk'. destruct (wf_ctable _ W _ _ Hk') as (x & Hx & Hnm).
      destruct (decide (c = c')) as [<-|Hne].
      * rewrite lookup_insert_eq. rewrite Hx in Hc. injection Hc as <-. by eexists.
      * rewrite lookup_insert_ne by done. by exists x.
  - etransitivity; [exact T|]. split; try done.
    + intros n y Hy. by exists y.
    + intros c' ch' Hc'. cbn. destruct (decide (c = c')) as [<-|Hne].
      * rewrite lookup_insert_eq. rewrite Hc in Hc'. injection Hc' as <-. by eexists.
      * rewrite lookup_insert_ne by done. by exists ch'.
Qed.
Lemma talk_io w w' : io_only w w' -> wf w -> talk w0 w -> wf w' /\ talk w0 w'.
Proof.
  intros (Hh & Hi & _) W T. split; [by apply (wf_at (w_heap w) (w_irc w) w)|].
  by apply (talk_at w0 (w_heap w) (w_irc w) w).
Qed.

(** [enqueueMessage] of an entity with its conversation. *)
Lemma quiet_enqueue_nick w n x ce v t d :
  wf w -> talk w0 w -> h_nicks (w_heap w) !! n = Some x -> kind_ce (nk_kind x) = Some ce ->
  conv ce = Some v -> quietly (enqueueMessage (RNick n) t d) w.
Proof.
  intros W T Hx Hce Hv. unfold quietly, enqueueMessage, get_ce. apply wp_bind, wp_bind.
  eapply wp_get_nick; [done|]. rewrite Hce. apply wp_ret. cbn beta.
  unfold conv_sendMessage. rewrite Hv. destruct (d =? 0).
  { apply (chat_calm w0); [|done..]. intros. apply calm_im_call. }
  apply wp_bind. unfold put_ce. apply wp_bind. eapply wp_get_nick; [done|]. apply wp_put.
  edestruct (talk_put_nick w n x (kind_with_ce (nk_kind x) (CE (Some v) (enqueued ce ++ [t])))) as [W' T'];
    [done..| | |].
  - by destruct (nk_kind x).
  - intros ce' E. destruct (nk_kind x); try discriminate E. injection E as <-. done.
  - apply (chat_when w0); [|exact W'|exact T']. apply chat_calm. intros. apply calm_emit.
Qed.
Lemma quiet_enqueue_chan w c ch ce up cb t d :
  wf w -> talk w0 w -> h_chans (w_heap w) !! c = Some ch -> ch_kind ch = KConversation ce up cb ->
  quietly (enqueueMessage (RChan c) t d) w.
Proof.
  intros W T Hc Hk. destruct (wf_conv _ W c ch ce up cb Hc Hk ltac:(done)) as ([v Hv] & _).
  unfold quietly, enqueueMessage, get_ce. apply wp_bind, wp_bind.
  eapply wp_get_chan; [done|]. rewrite Hk. apply wp_ret. cbn beta.
  unfold conv_sendMessage. rewrite Hv. destruct (d =? 0).
  { apply (chat_calm w0); [|done..]. intros. apply calm_im_call. }
  apply wp_bind. unfold put_ce. apply wp_bind. eapply wp_get_chan; [done|]. rewrite Hk. apply wp_put.
  destruct (talk_put_conv w c ch ce (CE (Some v) (enqueued ce ++ [t])) up cb) as [W' T']; [done..|].
  apply (chat_when w0); [|exact W'|exact T']. apply chat_calm. intros. apply calm_emit.
Qed.

(** [check_conv] gives a buddy its conversation. *)
Lemma wp_check_conv w n x b :
  wf w -> talk w0 w -> h_nicks (w_heap w) !! n = Some x -> tag (nk_kind x) = 2%nat ->
  safe (check_conv n b) (fun _ w' => wf w' /\ talk w0 w' /\ exists x' ce v,
    h_nicks (w_heap w') !! n = Some x' /\ kind_ce (nk_kind x') = Some ce /\ conv ce = Some v) w.
Proof.
  intros W T Hx Hk. destruct (nk_kind x) as [| |bb pb ls ce| |] eqn:Ek; try discriminate Hk.
  unfold check_conv, get_ce. apply wp_bind, wp_bind. eapply wp_get_nick; [done|].
  rewrite Ek. apply wp_ret. destruct (conv ce) as [v|] eqn:Ev.
  { apply wp_ret. split; [done|]. split; [done|]. exists x, ce, v. by rewrite Ek. }
  apply wp_bind, wp_put, wp_bind, wp_ask, wp_bind, wp_put, wp_bind, wp_put.
  set (v := call_conv _). set (w1 := on_io _ _).
  destruct (talk_io w w1) as [W1 T1]; [|done..|].
  { split; [done|]. split; [done|]. eexists. unfold w1. cbn. by rewrite <- !app_assoc. }
  assert (Hx1 : h_nicks (w_heap w1) !! n = Some x) by done. clearbody w1.
  unfold buddy_setConversation, get_ce. apply wp_bind, wp_bind. eapply wp_get_nick; [done|].
  rewrite Ek. apply wp_ret. rewrite Ev. apply wp_bind, wp_ret, wp_bind, wp_bind.
  eapply wp_get_nick; [done|]. rewrite Ek. apply wp_ret. unfold put_ce. apply wp_bind.
  eapply wp_get_nick; [done|]. rewrite Ek. apply wp_put. cbn [kind_with_ce].
  destruct (talk_put_nick w1 n x (KBuddy bb pb ls (CE (Some v) (enqueued ce)))) as [W2 T2];
    [done..|by rewrite Ek|done|].
  split; [done|]. split; [done|]. eexists _, _, v. cbn. rewrite lookup_insert_eq. split; [done|]. done.
Qed.

(** ** Nick::send with a PRIVMSG *)

Lemma talk_alive w e : talk w0 w -> alive (w_heap w0) e -> alive (w_heap w) e.
Proof.
  intros T. assert (HN : forall n, is_Some (h_nicks (w_heap w0) !! n) -> is_Some (h_nicks (w_heap w) !! n)).
  { intros n [x Hx]. destruct (t_nicks _ _ T n x Hx) as (y & Hy & _). by exists y. }
  destruct e as [n|v|c|s]; cbn.
  - apply HN.
  - rewrite (t_cus _ _ T). intros (x & Hx & Hn). exists x. split; [done|]. by apply HN.
  - intros [ch Hc]. destruct (t_chans _ _ T c ch Hc) as (y & Hy & _). by exists y.
  - by rewrite (t_svs _ _ T).
Qed.

(** The text, or what follows its first word, is not a DCC request with an empty
    number. *)
Definition parse_ok (text : string) : Prop := forall s, Dcc.parseDCCSEND text <> Prelude.Stuck s.
Definition text_ok (text : string) : Prop :=
  conf_file_transfers = false \/ (parse_ok text /\ parse_ok (Tok.stringtok text " ").2).
Record relayed (text : string) (m : message) : Prop := {
  r_cmd : Msg.cmd m = "PRIVMSG";
  r_arg : Msg.args m !! 0%nat = Some text;
  r_sender : forall e, Msg.entity (Msg.sender m) = Some e -> alive (w_heap w0) e;
  r_receiver : forall e, Msg.entity (Msg.receiver m) = Some e -> alive (w_heap w0) e }.

Lemma calm_getArg h i text (m : message) :
  Msg.args m !! 0%nat = Some text -> calm h i (lift (Msg.getArg 0 m)) (eq text).
Proof. intros H w Hw. unfold lift, wp, Msg.getArg. by rewrite H. Qed.
Lemma calm_receiver_chan w m :
  talk w0 w -> (forall e, Msg.entity (Msg.receiver m) = Some e -> alive (w_heap w0) e) ->
  calm (w_heap w) (w_irc w) (receiver_chan m) any.
Proof.
  intros T H. unfold receiver_chan. destruct (Msg.entity _) as [[n|v|c|s]|] eqn:E; try by apply calm_ret.
  destruct (talk_alive w (EChan c) T (H _ eq_refl)) as [ch Hc].
  eapply calm_bind; [by apply calm_get_chan|]. intros ? <-. by apply calm_ret.
Qed.

(** Without the conversation, a nick only keeps its class. *)
Lemma chat_process_dcc_get n text :
  is_Some (h_nicks (w_heap w0) !! n) -> (conf_file_transfers = false \/ parse_ok text) ->
  chat w0 (process_dcc_get n text).
Proof.
  intros [x Hx] Ht w W T. unfold process_dcc_get. destruct conf_file_transfers; cbn [negb].
  2:{ apply (chat_then w0); [done..| |intros _; apply chat_ret].
      apply chat_calm. intros h i o W'. by eapply calm_b_log. }
  destruct Ht as [?|Ht]; [done|]. destruct (Dcc.parseDCCSEND text) as [[rq|]|e|s] eqn:E; try done.
  2:{ exfalso. by eapply Ht. }
  apply wp_bind. cbn. destruct (talk_nick w0 w n x T Hx) as (y & Hy & _).
  apply wp_bind. eapply wp_get_nick; [done|]. destruct (wf_server _ W n y Hy) as [sv Hsv].
  apply wp_bind. eapply wp_get_server; [done|]. destruct (sv_kind sv); [by apply chat_ret|].
  apply wp_bind, wp_ask. apply (chat_then w0); [done..| |intros _; apply chat_ret].
  destruct (write_file_ok _ _).
  - intros w1 W1 T1. apply wp_put. split; [by eapply wf_same_tables|].
    etransitivity; [exact T1|]. split; try done; intros ? z Hz; by exists z.
  - apply chat_calm. intros h i o W'. by eapply calm_b_log.
Qed.
Lemma quiet_set_public w n x p l :
  wf w -> talk w0 w -> h_nicks (w_heap w) !! n = Some x -> tag (nk_kind x) = 2%nat ->
  quietly (set_public n p l) w.
Proof.
  intros W T Hx Hk. destruct (nk_kind x) as [| |bb pb ls ce| |] eqn:Ek; try discriminate Hk.
  unfold quietly, set_public. apply wp_bind. eapply wp_get_nick; [done|]. rewrite Ek. apply wp_put.
  apply talk_put_nick; try done. by rewrite Ek.
Qed.
Lemma chat_buddy_send n x b text m :
  h_nicks (w_heap w0) !! n = Some x -> tag (nk_kind x) = 2%nat -> relayed text m -> text_ok text ->
  chat w0 (buddy_send n b m).
Proof.
  intros Hx Hk R Ht w W T. unfold buddy_send. rewrite (r_cmd _ _ R). cbn [negb String.eqb Ascii.eqb Bool.eqb].
  eapply (chat_calm_bind w0); [done|done|apply calm_getArg, R|]. intros ? w1 <- W1 T1 _ _.
  eapply (chat_calm_bind w0); [done|done|by apply calm_receiver_chan, R|]. intros ch w2 _ W2 T2 _ _.
  destruct (talk_nick w0 w2 n x T2 Hx) as (y & Hy & Ey). rewrite Hk in Ey.
  apply wp_bind. eapply wp_get_nick; [done|]. destruct (_ || _); [|by apply chat_ret].
  apply wp_bind, wp_get, wp_bind. eapply wp_mono; [by eapply quiet_set_public| |done].
  intros _ w3 [W3 T3]. set (st := match ch with Some _ => _ | None => _ end).
  assert (Hp : conf_file_transfers = false
               \/ parse_ok (if st then (Tok.stringtok text " ").2 else text)).
  { destruct Ht as [?|[H1 H2]]; [by left|right]. by destruct st. }
  apply wp_bind. eapply wp_mono; [by apply chat_process_dcc_get| |done].
  intros [] w4 [W4 T4]; [by apply chat_ret|].
  destruct (talk_nick w0 w4 n x T4 Hx) as (z & Hz & Ez). rewrite Hk in Ez.
  apply wp_bind. eapply wp_mono; [by eapply wp_check_conv| |done].
  intros _ w5 (W5 & T5 & x' & ce & v & Hx' & Hce & Hv). apply wp_bind, wp_ask.
  by eapply quiet_enqueue_nick.
Qed.

Lemma quiet_get_ce n x ce w (Q : conv_entity -> world -> Prop) E :
  h_nicks (w_heap w) !! n = Some x -> kind_ce (nk_kind x) = Some ce -> Q ce w ->
  wp (get_ce (RNick n)) Q E w.
Proof. intros Hx Hce HQ. unfold get_ce. apply wp_bind. eapply wp_get_nick; [done|]. by rewrite Hce. Qed.
Lemma chat_chatbuddy_send n x k text m :
  h_nicks (w_heap w0) !! n = Some x -> tag (nk_kind x) = 3%nat -> relayed text m ->
  chat w0 (chatbuddy_send n k m).
Proof.
  intros Hx Hk R w W T. unfold chatbuddy_send. rewrite (r_cmd _ _ R). cbn [negb String.eqb Ascii.eqb Bool.eqb].
  eapply (chat_calm_bind w0); [done|done|apply calm_getArg, R|]. intros ? w1 <- W1 T1 _ _.
  destruct (bool_decide _); [|by apply chat_ret].
  destruct (talk_nick w0 w1 n x T1 Hx) as (y & Hy & Ey). rewrite Hk in Ey.
  destruct (nk_kind y) as [| | |bb ce|] eqn:Ek; try discriminate Ey.
  apply wp_bind. eapply (quiet_get_ce n y ce); [done|by rewrite Ek|].
  destruct (conv ce) as [v|] eqn:Ev.
  - apply wp_bind, wp_ret, wp_bind, wp_ask. eapply quiet_enqueue_nick; [done|done|done|by rewrite Ek|done].
  - do 2 apply wp_bind. apply wp_put, wp_bind, wp_ask, wp_bind, wp_put, wp_bind, wp_put.
    set (v := call_conv _). set (w2 := on_io _ _).
    destruct (talk_io w1 w2) as [W2 T2]; [|done..|].
    { split; [done|]. split; [done|]. eexists. unfold w2. cbn. by rewrite <- !app_assoc. }
    assert (Hy2 : h_nicks (w_heap w2) !! n = Some y) by done. clearbody w2.
    apply wp_bind. eapply (quiet_get_ce n y ce); [done|by rewrite Ek|].
    unfold put_ce. apply wp_bind. eapply wp_get_nick; [done|]. rewrite Ek. apply wp_put.
    cbn [kind_with_ce].
    destruct (talk_put_nick w2 n y (KChatBuddy bb (CE (Some v) (enqueued ce)))) as [W3 T3];
      [done..|by rewrite Ek|done|].
    apply wp_bind, wp_ask. 
    eapply quiet_enqueue_nick; [exact W3|exact T3|apply lookup_insert_eq|done|done].
Qed.
Lemma chat_unknown_send n x text m :
  h_nicks (w_heap w0) !! n = Some x -> tag (nk_kind x) = 4%nat -> relayed text m ->
  chat w0 (unknown_send n m).
Proof.
  intros Hx Hk R w W T. unfold unknown_send. rewrite (r_cmd _ _ R). cbn [negb String.eqb Ascii.eqb Bool.eqb].
  eapply (chat_calm_bind w0); [done|done|apply calm_getArg, R|]. intros ? w1 <- W1 T1 _ _.
  destruct (talk_nick w0 w1 n x T1 Hx) as (y & Hy & Ey). rewrite Hk in Ey.
  destruct (nk_kind y) as [| | | |ce] eqn:Ek; try discriminate Ey.
  apply wp_bind. eapply (quiet_get_ce n y ce); [done|by rewrite Ek|].
  destruct (conv ce) as [v|] eqn:Ev; [|rewrite andb_false_r; by apply chat_ret].
  destruct (_ && _); [|by apply chat_ret]. apply wp_bind, wp_ask.
  eapply quiet_enqueue_nick; [done|done|done|by rewrite Ek|done].
Qed.
Lemma chat_send n text m :
  is_Some (h_nicks (w_heap w0) !! n) -> relayed text m -> text_ok text -> chat w0 (send n m).
Proof.
  intros [x Hx] R Ht w W T. unfold send. destruct (talk_nick w0 w n x T Hx) as (y & Hy & Ey).
  apply wp_bind. eapply wp_get_nick; [done|].
  destruct (nk_kind y) as [|p l b|b pb ls ce|k ce|ce] eqn:Ek; cbn in Ey.
  - by apply chat_ret.
  - eapply wp_user_send; [|intros w' H; by eapply talk_io|done].
    split; intros e He; [apply alive_long|apply alive_name]; (apply talk_alive; [done|]);
      [by apply (r_sender _ _ R)|by apply (r_receiver _ _ R)].
  - by eapply chat_buddy_send.
  - by eapply chat_chatbuddy_send.
  - by eapply chat_unknown_send.
Qed.

(** ** Channel::broadcast *)

Lemma chat_broadcast c ch text m but :
  wf w0 -> h_chans (w_heap w0) !! c = Some ch -> relayed text m -> text_ok text ->
  chat w0 (broadcast c m but).
Proof.
  intros W0 Hc R Ht. assert (CB : chat w0 (chan_broadcast c m but)).
  { intros w W T. unfold chan_broadcast. destruct (t_chans _ _ T c ch Hc) as (ch' & Hc' & Eu & _).
    apply wp_bind. eapply wp_get_chan; [done|]. rewrite Eu. revert w W T Hc'.
    assert (H : chat w0 (mapM_ (fun u => let! x := get_cu u;
       when (match but with None => true | Some b => negb (cu_nick x =? b)%nat end) (send_cu u m))
       (users ch))); [|intros; by apply H].
    apply chat_mapM_. intros u Hu w W T.
    destruct (chan_users _ c ch u (wf_links _ W0) Hc Hu) as (x & y & Hx & _ & Hy & _).
    rewrite <- (t_cus _ _ T) in Hx. apply wp_bind. eapply wp_get_cu; [done|].
    apply (chat_when w0); [|done|done]. unfold send_cu. intros w1 W1 T1.
    rewrite (t_cus _ _ T), <- (t_cus _ _ T1) in Hx. apply wp_bind. eapply wp_get_cu; [done|].
    by eapply chat_send. }
  intros w W T. unfold broadcast. destruct (t_chans _ _ T c ch Hc) as (ch' & Hc' & Eu & _).
  apply wp_bind. eapply wp_get_chan; [done|]. destruct (ch_kind ch') as [|ce up cb] eqn:Ek; [by apply CB|].
  apply wp_bind. unfold user. apply wp_bind, wp_get, wp_ret.
  destruct (_ && _); [|by apply CB].
  eapply (chat_calm_bind w0); [done|done|apply calm_getArg, R|]. intros ? w1 <- W1 T1 Hh _.
  apply wp_bind, wp_ask. eapply quiet_enqueue_chan; [done|done|by rewrite Hh|done].
Qed.
End Ops.

Section Commands.
Context {env : Env} (w0 : world) (W0 : wf w0).

Lemma chat_reply code args : code <> "PRIVMSG" -> chat w0 (reply code args).
Proof. intros H. apply chat_calm. intros h i o W. by eapply calm_reply. Qed.

(** The objects the lookups find were there at the start. *)
Lemma calm_old_chan w nm :
  wf w -> talk w0 w -> calm (w_heap w) (w_irc w) (getChannel nm)
    (fun r => forall c, r = Some c -> exists ch, h_chans (w_heap w0) !! c = Some ch).
Proof.
  intros W T. destruct w as [h i o]. eapply calm_weaken; [by eapply calm_getChannel|].
  intros r [-> _] c Hc. rewrite (t_channels _ _ T) in Hc.
  destruct (wf_ctable _ W0 _ _ Hc) as (ch & Hch & _). by exists ch.
Qed.
Lemma calm_old_nick w nm b :
  wf w -> talk w0 w -> calm (w_heap w) (w_irc w) (getNick nm b)
    (fun r => forall n, r = Some n -> exists x, h_nicks (w_heap w0) !! n = Some x).
Proof.
  intros W T. eapply calm_bind; [apply calm_users_list|]. intros ? <-. apply calm_ret. intros n Hn.
  unfold find_nick in Hn. apply fmap_Some in Hn as ([k n'] & Hf & ->).
  apply List.find_some in Hf as [Hin _]. apply list_elem_of_In, Drop.elem_sorted in Hin.
  rewrite (t_users _ _ T) in Hin. destruct (wf_table _ W0 _ _ Hin) as (x & Hx & _). by exists x.
Qed.

(** ** PRIVMSG *)

Lemma chat_privmsg_loop text targets m :
  text_ok text -> Msg.cmd m = "PRIVMSG" -> (Msg.args m = [] \/ Msg.args m !! 0%nat = Some text) ->
  chat w0 (privmsg_loop targets text m).
Proof.
  intros Ht. revert m. induction targets as [|t l IH]; intros m Hc Ha; cbn [privmsg_loop];
    [apply chat_ret|].
  intros w W T. apply wp_bind. unfold user. apply wp_bind, wp_get, wp_ret. cbn beta.
  destruct (Msg.addArg text (Msg.setSender (ENick (i_user (w_irc w))) m)) as [m1| |s] eqn:E; [|done|].
  2:{ exfalso. unfold Msg.addArg in E. by destruct (Msg.back_has_space _). }
  assert (H1 : Msg.cmd m1 = "PRIVMSG" /\ Msg.args m1 !! 0%nat = Some text
     /\ Msg.entity (Msg.sender m1) = Some (ENick (i_user (w_irc w)))).
  { unfold Msg.addArg in E. destruct (Msg.back_has_space _); [done|]. injection E as <-. cbn.
    split; [done|]. split; [|done]. destruct Ha as [->|Ha]; [done|].
    destruct (Msg.args m); [done|]. exact Ha. }
  destruct H1 as (Hc1 & Ha1 & Hs1). apply wp_bind. unfold wp at 1, lift.
  assert (Hu : forall e, ENick (i_user (w_irc w)) = e -> alive (w_heap w0) e).
  { intros e <-. cbn. rewrite (t_user _ _ T). by destruct (wf_user _ W0) as (x & ? & ? & ? & -> & _). }
  assert (R : forall e, alive (w_heap w0) e -> relayed w0 text (Msg.setReceiver e m1)).
  { intros e He. split; [done|done| |]; cbn; intros e' He'; [apply Hu; congruence|congruence]. }
  destruct (isChanName t).
  - eapply (chat_calm_bind w0); [done|done|by apply calm_old_chan|]. intros [c|] w1 Hr W1 T1 _ _;
      [|by apply chat_reply].
    destruct (Hr c eq_refl) as [ch Hch]. apply (chat_then w0); [done|done| |].
    + eapply chat_broadcast; [done|done|apply R; cbn; by rewrite Hch|done].
    + intros _. apply IH; [done|by right].
  - eapply (chat_calm_bind w0); [done|done|by apply calm_old_nick|]. intros [n|] w1 Hr W1 T1 _ _;
      [|by apply chat_reply].
    destruct (Hr n eq_refl) as [x Hx]. apply (chat_then w0); [done|done| |].
    + eapply chat_send; [by rewrite Hx|apply R; cbn; by rewrite Hx|done].
    + intros _ w2 W2 T2. destruct (talk_nick w0 w2 n x T2 Hx) as (y & Hy & _).
      eapply (chat_calm_bind w0); [done|done|by apply calm_get_nick|]. intros ? w3 <- W3 T3 _ _.
      apply (chat_then w0); [done|done|apply chat_calm; intros; by eapply calm_isAway|].
      intros aw. apply chat_bind; [|intros _; apply IH; [done|by right]].
      apply chat_when. apply chat_bind; [apply chat_calm; intros; by eapply calm_getAwayMessage|].
      intros ?. by apply chat_reply.
Qed.
Lemma chat_m_privmsg m text :
  (2 <= Msg.countArgs m)%nat -> Msg.cmd m = "PRIVMSG" -> Msg.args m !! 1%nat = Some text ->
  text_ok text -> chat w0 (m_privmsg m).
Proof.
  intros Hn Hc Ht Hok. unfold m_privmsg. apply chat_bind.
  { apply chat_calm. intros. apply calm_arg. lia. }
  intros targets. destruct (Tok.tokens _ _) as [|t l]; [apply chat_ret|].
  intros w W T. unfold arg, Msg.getArg. rewrite Ht.
  assert (H : chat w0 (privmsg_loop (t :: l) text (Msg.mk (Msg.cmd m)))); [|exact (H w W T)].
  apply chat_privmsg_loop; [done|done|by left].
Qed.

(** ** CMD *)

Lemma chat_conv_sendCommand v cmd : is_Some v -> chat w0 (conv_sendCommand v cmd).
Proof.
  intros [k ->]. apply chat_calm. intros h i o W. unfold conv_sendCommand. calm.
Qed.
Lemma chat_m_cmd m : (2 <= Msg.countArgs m)%nat -> chat w0 (m_cmd m).
Proof.
  intros H. unfold m_cmd. apply chat_bind; [apply chat_calm; intros; apply calm_arg; lia|].
  intros t. set (finish := fun r : Z => _).
  assert (F : forall r, chat w0 (finish r)).
  { intros r. unfold finish. apply chat_bind; [apply chat_calm; intros; apply calm_arg; lia|].
    intros nm. unfold cmd_status. repeat (destruct (_ =? _); [by apply chat_reply|]). apply chat_ret. }
  clearbody finish. destruct (isChanName t); intros w W T.
  - eapply (chat_calm_bind w0); [done|done|by apply calm_old_chan|]. intros [c|] w1 Hr W1 T1 _ _;
      [|by apply chat_reply].
    destruct (Hr c eq_refl) as [ch Hch]. apply (chat_then w0); [done|done| |done].
    intros w2 W2 T2. destruct (t_chans _ _ T2 c ch Hch) as (ch' & Hch' & _).
    unfold chan_sendCommand. apply wp_bind. eapply wp_get_chan; [done|].
    destruct (ch_kind ch') as [|ce up cb] eqn:Ek; [by apply chat_ret|].
    apply chat_conv_sendCommand; [|done|done]. by apply (wf_conv _ W2 c ch' ce up cb).
  - eapply (chat_calm_bind w0); [done|done|by apply calm_old_nick|]. intros [n|] w1 Hr W1 T1 _ _;
      [|by apply chat_reply].
    destruct (Hr n eq_refl) as [x Hx]. apply (chat_then w0); [done|done| |done].
    intros w2 W2 T2. destruct (talk_nick w0 w2 n x T2 Hx) as (y & Hy & Ey).
    unfold nick_sendCommand. apply wp_bind. eapply wp_get_nick; [done|].
    destruct (nk_kind y) as [| |b pb ls ce| |] eqn:Ek; try by apply chat_ret.
    apply wp_bind. eapply wp_mono; [by eapply wp_check_conv; rewrite ?Ek| |done].
    intros _ w3 (W3 & T3 & z & ce' & v & Hz & Hce & Hv). apply wp_bind.
    eapply quiet_get_ce; [done|done|]. by apply chat_conv_sendCommand; [rewrite Hv|..].
Qed.
End Commands.

(** ** ConvEntity::flush_messages *)

Section Flush.
Context {env : Env}.

Definition ctcp (s : string) : bool := Ascii.eqb (shead s) "001".
Definition newline : string := String "010" "".
(** The text of a run of lines: its first empty lines are lost. *)
Fixpoint skip_empty (l : list string) : list string :=
  match l with s :: l' => if sempty s then skip_empty l' else l | [] => [] end.
Definition text_of (run : list string) : list string :=
  match skip_empty run with [] => [] | l => [String.concat newline l] end.
(** The texts sent for a queue: a CTCP line alone, the lines between two of them
    together. *)
Fixpoint batches (q run : list string) : list string :=
  match q with
  | [] => text_of run
  | s :: q => if ctcp s then text_of run ++ [s] ++ batches q [] else batches q (run ++ [s])
  end.

(** The buffer of the loop, for a run of lines. *)
Definition buffer (run : list string) : string :=
  match text_of run with s :: _ => s | [] => "" end.
Lemma concat_snoc l x y : String.concat newline (x :: l ++ [y])
  = String.concat newline (x :: l) +:+ newline +:+ y.
Proof.
  revert x. induction l as [|z l IH]; intros x; [done|].
  change (String.concat newline (x :: (z :: l) ++ [y]))
    with (x +:+ newline +:+ String.concat newline (z :: l ++ [y])).
  change (String.concat newline (x :: z :: l)) with (x +:+ newline +:+ String.concat newline (z :: l)).
  rewrite IH. by rewrite !app_assoc_s.
Qed.
Lemma skip_empty_snoc l s :
  skip_empty (l ++ [s]) = match skip_empty l with
                          | [] => if sempty s then [] else [s] | l' => l' ++ [s] end.
Proof. induction l as [|x l IH]; cbn; [by destruct (sempty s)|]. destruct (sempty x); [exact IH|done]. Qed.
Lemma skip_empty_head l x l' : skip_empty l = x :: l' -> sempty x = false.
Proof. induction l as [|y l IH]; cbn; [done|]. destruct (sempty y) eqn:E; [done|]. by intros [= <- _]. Qed.
Lemma concat_nonempty x l : sempty x = false -> sempty (String.concat newline (x :: l)) = false.
Proof. destruct l; [done|]. intros H. change (String.concat _ _) with (x +:+ newline +:+ String.concat newline (s :: l)). by rewrite sempty_app, H. Qed.
Lemma buffer_snoc run s :
  buffer (run ++ [s]) = (if sempty (buffer run) then "" else buffer run +:+ newline) +:+ s.
Proof.
  unfold buffer, text_of. rewrite skip_empty_snoc.
  destruct (skip_empty run) as [|x l] eqn:E.
  - destruct (sempty s) eqn:Es; [|done]. by apply sempty_spec in Es as ->.
  - rewrite (concat_nonempty x l (skip_empty_head _ _ _ E)).
    cbn [app]. rewrite concat_snoc. by rewrite app_assoc_s.
Qed.
Lemma buffer_text run : text_of run = if sempty (buffer run) then [] else [buffer run].
Proof.
  unfold buffer, text_of. destruct (skip_empty run) as [|x l] eqn:E; [done|].
  by rewrite (concat_nonempty x l (skip_empty_head _ _ _ E)).
Qed.

Definition sends (v : vid) (l : list string) (w : world) : world :=
  on_io (up_o_trace (fun t => t ++ map (fun s => ImCall (ConvSend v s)) l)) w.
Lemma sends_app v l l' w : sends v l' (sends v l w) = sends v (l ++ l') w.
Proof. unfold sends. destruct w as [h i [] ]. unfold on_io, up_o_trace. cbn. by rewrite map_app, app_assoc. Qed.
Lemma sends_nil v w : sends v [] w = w.
Proof. destruct w as [h i [] ]. unfold sends, on_io, up_o_trace. cbn. by rewrite app_nil_r. Qed.

Lemma wp_flush_loop ce v q run w :
  conv ce = Some v ->
  wp (flush_loop ce q (buffer run)) (fun _ w' => w' = sends v (batches q run) w) (fun _ _ => False) w.
Proof.
  intros Hv. revert run w. induction q as [|s q IH]; intros run w; cbn [flush_loop batches].
  - rewrite buffer_text. apply wp_when; intros H; unfold conv_sendMessage; rewrite ?Hv.
    + apply negb_true_iff in H. rewrite H. by apply wp_put.
    + apply negb_false_iff in H. rewrite H. by rewrite sends_nil.
  - unfold ctcp. destruct (Ascii.eqb (shead s) "001").
    + apply wp_bind. rewrite buffer_text.
      apply wp_when; intros H; [apply negb_true_iff in H|apply negb_false_iff in H];
        rewrite H; unfold conv_sendMessage; rewrite Hv.
      * apply wp_put, wp_bind, wp_put. eapply wp_mono; [apply (IH [])| |done].
        intros _ w' ->. exact (eq_trans (sends_app v [s] _ (sends v [buffer run] w))
          (sends_app v [buffer run] _ w)).
      * apply wp_bind, wp_put. eapply wp_mono; [apply (IH [])| |done].
        intros _ w' ->. exact (sends_app v [s] _ w).
    + rewrite <- buffer_snoc. apply IH.
Qed.

(** [ConvEntity::flush_messages] never throws: it sends the queued lines in order,
    those between two CTCP lines as one text and each CTCP line alone, empties the
    queue and stops its timer. *)
Theorem flush_messages_spec (n : nid) (x : nick) (ce : conv_entity) (v : vid) (w : world) :
  h_nicks (w_heap w) !! n = Some x -> kind_ce (nk_kind x) = Some ce -> conv ce = Some v ->
  wp (flush_messages (RNick n)) (fun again w' => again = false
    /\ w' = on_heap (up_h_nicks (insert n (with_kind x (kind_with_ce (nk_kind x) (CE (Some v) [])))))
              (sends v (batches (enqueued ce) []) w)) (fun _ _ => False) w.
Proof.
  intros Hx Hce Hv. unfold flush_messages. apply wp_bind. eapply quiet_get_ce; [done|done|].
  apply wp_bind. eapply wp_mono; [apply (wp_flush_loop ce v _ [] w Hv)| |done].
  intros _ w' ->. apply wp_bind. unfold put_ce. apply wp_bind. eapply wp_get_nick; [done|].
  apply wp_put, wp_ret. by rewrite Hv.
Qed.
End Flush.

Definition demo_queue : world :=
  on_heap (up_h_nicks (insert 4%nat (with_kind demo_buddy
    (KBuddy 0 false 0 (CE (Some 1%nat) ["one"; "two"; String "001" "ACTION"; "three"]))))) demo_world.
Lemma flush_messages_spec_witness :
  match flush_messages (RNick 4) demo_queue with
  | Ok _ w => o_trace (w_io w) = [ImCall (ConvSend 1 ("one" +:+ newline +:+ "two"));
                ImCall (ConvSend 1 (String "001" "ACTION")); ImCall (ConvSend 1 "three")]
  | _ => False
  end.
Proof.
  pose proof (flush_messages_spec 4 _ (CE (Some 1%nat) ["one"; "two"; String "001" "ACTION"; "three"])
    1 demo_queue eq_refl eq_refl eq_refl) as H.
  unfold wp in H. destruct (flush_messages _ _) as [a w| |]; [|done|done].
  destruct H as [_ H]. rewrite H. reflexivity.
Defined.
