(* ===== verification/Session.v ===== *)
(** The commands of a client, one after the other: what the dispatcher lets
    through, which commands only read, and that a well-formed session stays so. *)

From S2P Require Import Prelude Util Message Log World Dcc Effects Auth Nick Demo Logic Channel Registry Members Kinds Irc Cmds CmdsChannels CmdsAccounts Calm Queries Dispatch Safety Talk.
Import W Obj Names Send Chan Reg Kinds Irc Cmds CmdsC CmdsA Dispatch Wf View Leave Join.

(** The commands which only answer. *)
Definition query_commands : list string :=
  ["PING"; "VERSION"; "INFO"; "WHO"; "WHOIS"; "WHOWAS"; "STATS"; "SQUIT"; "NAMES"; "LIST"; "MODE";
   "ISON"; "INVITE"; "MOTD"; "WALLOPS"].

(** The messages the safety of the session is proved for: MAP and ADMIN are left
    out, and a text that looks like a DCC request must have its numbers. *)
Definition covered {env : Env} (m : message) : Prop :=
  Msg.cmd m <> "MAP" /\ Msg.cmd m <> "ADMIN"
  /\ (Msg.cmd m = "PRIVMSG" -> forall text, Msg.args m !! 1%nat = Some text -> text_ok text).

Section Session.
Context {env : Env}.

Lemma check_run fl (m : message) :
  check fl m = Run -> exists minargs flags, In (Msg.cmd m, minargs, flags) commands
    /\ (minargs <= Msg.countArgs m)%nat
    /\ (flags = 0 \/ Log.hasb fl flags = true).
Proof.
  unfold check. destruct (List.find _ commands) as [[[c n] f]|] eqn:E; [|done].
  apply List.find_some in E as [Hin Hc]. cbn in Hc. apply String.eqb_eq in Hc as ->.
  destruct (Nat.ltb_spec (Msg.countArgs m) n); [done|]. intros H'. exists n, f. split; [done|].
  split; [done|]. destruct (Z.eqb_spec f 0); [by left|]. right.
  destruct (Log.hasb fl f); [done|]. cbn in H'. by destruct (negb _).
Qed.

(** One goal for each row of the table, with its handler. *)
Ltac rows Hin :=
  repeat (destruct Hin as [Hin|Hin]; [injection Hin as <- <- <-|]); [..|by destruct Hin];
  cbv [handler String.eqb Ascii.eqb Bool.eqb orb].

Lemma query_calm h i o cmd minargs flags m :
  wf (World h i o) -> icons_below -> cmd ∈ query_commands ->
  In (cmd, minargs, flags) commands -> (minargs <= Msg.countArgs m)%nat ->
  calm h i (handler cmd m) any.
Proof.
  intros W Hi Hq Hin Hn. rows Hin;
    try (apply (bool_decide_pack _) in Hq; vm_compute in Hq; done); clear Hq.
  - by eapply calm_ping.
  - by eapply calm_version.
  - by eapply calm_info.
  - by eapply calm_who.
  - by eapply calm_whois.
  - by eapply calm_whowas.
  - by eapply calm_stats.
  - by eapply calm_squit.
  - by eapply calm_names.
  - by eapply calm_list.
  - by eapply calm_m_mode.
  - by eapply calm_ison.
  - by eapply calm_m_invite.
  - by eapply calm_motd.
  - by eapply calm_wallops.
Qed.

Lemma good_of_chat {A} (m : M A) : (forall w, wf w -> chat w m) -> good m.
Proof.
  intros H w W. eapply wp_mono; [by apply (H w W w)| |done]. by intros a w' [W' _].
Qed.
Lemma handler_good cmd minargs flags m :
  generate_ok -> icons_below -> In (cmd, minargs, flags) commands ->
  (minargs <= Msg.countArgs m)%nat -> Msg.cmd m = cmd -> covered m -> good (handler cmd m).
Proof.
  intros G Hi Hin Hn Hc (HM & HA & HP).
  destruct (decide (cmd ∈ query_commands)) as [Hq|Hq].
  { apply good_of_calm. intros h i o W. by eapply query_calm. }
  rewrite <- Hc in Hin, Hq |- *. destruct m as [c sd rc args]. cbn in Hc, Hin, Hq, HM, HA, HP, Hn |- *.
  subst cmd.
  rows Hin; try (destruct Hq; apply (bool_decide_unpack _); by vm_compute); clear Hq.
  - by apply good_m_nick.
  - by apply good_m_user.
  - by apply good_m_pass.
  - by apply good_m_quit.
  - apply good_of_chat. intros w W. by apply chat_m_cmd.
  - apply good_of_chat. intros w W.
    destruct (args !! 1%nat) as [text|] eqn:E; [|apply lookup_ge_None_1 in E; unfold Msg.countArgs in Hn; cbn in Hn; lia].
    eapply chat_m_privmsg; [done..|by apply HP].
  - by apply good_m_pong.
  - by apply good_m_connect.
  - by apply good_m_connect.
  - by apply good_m_join.
  - by apply good_m_part.
  - by apply good_m_topic.
  - by apply good_m_kick.
  - by apply good_m_kill.
  - by apply good_m_svsnick.
  - by apply good_m_away.
  - by apply good_m_oper.
  - by apply good_m_rehash.
  - by apply good_m_die.
Qed.

(** ** The user *)

Definition user_is (w : world) (x : nick) : Prop :=
  h_nicks (w_heap w) !! i_user (w_irc w) = Some x.
(** [w] with another record for the user. *)
Definition put_user (x : nick) (w : world) : world :=
  on_heap (up_h_nicks (insert (i_user (w_irc w)) x)) w.

Lemma wp_the_user x (Q : nick -> world -> Prop) E w :
  user_is w x -> Q x w -> wp the_user Q E w.
Proof. intros Hx HQ. unfold the_user, user. do 2 apply wp_bind. apply wp_get, wp_ret. by eapply wp_get_nick. Qed.
Lemma wp_up_user f x (Q : unit -> world -> Prop) E w :
  user_is w x -> Q tt (put_user (f x) w) -> wp (up_user f) Q E w.
Proof.
  intros Hx HQ. unfold up_user, user. do 2 apply wp_bind. apply wp_get, wp_ret, wp_bind.
  eapply wp_get_nick; [exact Hx|]. by apply wp_put.
Qed.
Lemma wp_up_ukind f x p l b (Q : unit -> world -> Prop) E w :
  user_is w x -> nk_kind x = KUser p l b -> Q tt (put_user (with_kind x (f p l b)) w) ->
  wp (up_ukind f) Q E w.
Proof.
  intros Hx Hk HQ. unfold up_ukind. apply wp_bind. eapply wp_the_user; [exact Hx|]. rewrite Hk.
  by eapply wp_up_user.
Qed.
Lemma user_put x w : user_is (put_user x w) x.
Proof. apply lookup_insert_eq. Qed.
Lemma wf_put_user x x' w :
  wf w -> user_is w x -> nk_name x' = nk_name x -> nk_server x' = nk_server x ->
  channels x' = channels x -> (exists p l b, nk_kind x' = KUser p l b) -> wf (put_user x' w).
Proof.
  intros W Hx H1 H2 H3 (p & l & b & Hk). eapply (wf_put_nick w _ _ x x'); try done.
  - intros _. by exists p, l, b.
  - intros ce. by rewrite Hk.
Qed.
Lemma wf_user_is w : wf w -> exists x p l b, user_is w x /\ nk_kind x = KUser p l b.
Proof. intros W. destruct (wf_user _ W) as (x & p & l & b & ? & ?). by exists x, p, l, b. Qed.

(** What [exec] does before the command: it notes the time. *)
Definition stamped (x : nick) (w : world) : world :=
  match nk_kind x with
  | KUser p _ b => put_user (with_kind x (KUser p (o_now (w_io w)) b)) w
  | _ => w
  end.
Lemma wp_setLastReadNow x p l b (Q : unit -> world -> Prop) w :
  user_is w x -> nk_kind x = KUser p l b -> Q tt (stamped x w) -> safe setLastReadNow Q w.
Proof.
  intros Hx Hk HQ. unfold setLastReadNow. apply wp_bind, wp_get. eapply wp_up_ukind; [done|done|].
  unfold stamped in HQ. by rewrite Hk in HQ.
Qed.
Lemma wf_stamped x w p l b :
  wf w -> user_is w x -> nk_kind x = KUser p l b ->
  wf (stamped x w) /\ exists x', user_is (stamped x w) x' /\ nk_flags x' = nk_flags x
    /\ nk_name x' = nk_name x.
Proof.
  intros W Hx Hk. unfold stamped. rewrite Hk. split.
  - eapply wf_put_user; [done|done|done|done|done|]. by eexists _, _, _.
  - eexists. split; [apply user_put|done].
Qed.
Lemma reply_calm_at w code args (Q : unit -> world -> Prop) :
  wf w -> code <> "PRIVMSG" ->
  (forall w', w_heap w' = w_heap w -> w_irc w' = w_irc w -> Q tt w') -> safe (reply code args) Q w.
Proof.
  intros W Hc HQ. destruct w as [h i o]. eapply wp_mono; [by apply (calm_reply h i o W)| |done].
  intros [] w' [_ [Hh Hi]]. by apply HQ.
Qed.
Lemma exec_good m : generate_ok -> icons_below -> covered m -> good (exec m).
Proof.
  intros G Hi Hc w W. unfold exec. destruct (wf_user_is w W) as (x & p & l & b & Hx & Hk).
  apply wp_bind. eapply wp_setLastReadNow; [done|done|].
  destruct (wf_stamped x w p l b W Hx Hk) as (W1 & x1 & Hx1 & _).
  apply wp_bind. eapply wp_the_user; [done|].
  destruct (check _ m) eqn:E; try by apply good_reply.
  destruct (check_run _ _ E) as (n & f & Hin & Hn & _). apply wp_bind, wp_put.
  eapply handler_good; [done..|]. by eapply wf_same_tables.
Qed.
(** ** The end of a session, the pings, OPER *)

Lemma calm_at {A} w (m : M A) (Q : A -> world -> Prop) R :
  calm (w_heap w) (w_irc w) m R ->
  (forall a w', R a -> w_heap w' = w_heap w -> w_irc w' = w_irc w -> Q a w') -> safe m Q w.
Proof.
  intros Hm HQ. eapply wp_mono; [by apply Hm| |done]. intros a w' [Ha [Hh Hi]]. by apply HQ.
Qed.
Lemma wf_calm w w' : wf w -> w_heap w' = w_heap w -> w_irc w' = w_irc w -> wf w'.
Proof. intros W Hh Hi. apply (wf_same_tables w); [done|done|by rewrite Hi..]. Qed.
Lemma user_calm w w' x : user_is w x -> w_heap w' = w_heap w -> w_irc w' = w_irc w -> user_is w' x.
Proof. unfold user_is. by intros H -> ->. Qed.
Lemma calm_bind_at {A B} w (m : M A) (k : A -> M B) Q R :
  wf w -> calm (w_heap w) (w_irc w) m R ->
  (forall a w', R a -> wf w' -> w_heap w' = w_heap w -> w_irc w' = w_irc w -> safe (k a) Q w') ->
  safe (bind m k) Q w.
Proof.
  intros W Hm Hk. apply wp_bind. eapply calm_at; [done|]. intros a w' Ha Hh Hi.
  apply Hk; [done|by eapply wf_calm|done..].
Qed.

(** [IRC::quit] closes the socket and leaves the rest. *)
Lemma wp_irc_quit s x p l b w :
  wf w -> user_is w x -> nk_kind x = KUser p l b ->
  safe (irc_quit s) (fun _ w' => w_irc w' = w_irc w /\ o_sockw (w_io w') = false
    /\ w_heap w' = w_heap (put_user (with_kind x (KUser p l false)) w)) w.
Proof.
  intros W Hx Hk. unfold irc_quit. destruct w as [h i o].
  eapply calm_bind_at; [done|by apply (calm_to_user h i o W); [|intros e..]|].
  intros _ w1 _ W1 Hh1 Hi1. apply wp_bind. eapply wp_up_ukind; [by eapply user_calm|done|].
  apply wp_bind, wp_get, wp_bind. apply wp_when; intros _.
  - apply wp_put, wp_bind, wp_put, wp_put. cbn in *. by subst.
  - apply wp_bind, wp_put, wp_put. cbn in *. by subst.
Qed.
End Session.

(** ** The properties *)

Section Theorems.
Context {env : Env}.


(** The commands which only answer, on every branch: they leave every object
    of the session and the fields of [IRC] as they are. *)
Theorem queries_read_only (fl : Z) (m : message) (w : world) :
  icons_below -> wf w -> Msg.cmd m ∈ query_commands -> check fl m = Run ->
  safe (handler (Msg.cmd m) m) (fun _ w' => w_heap w' = w_heap w /\ w_irc w' = w_irc w) w.
Proof.
  intros Hi W Hq (n & f & Hin & Hn & _)%check_run. destruct w as [h i o].
  eapply wp_mono; [by eapply (query_calm h i o)| |done]. by intros a w' [_ Hw].
Qed.

(** PRIVMSG and CMD only talk: every nick keeps its class, its name and its
    channels, every channel its members, and the tables of names are the same. *)
Theorem talk_commands (fl : Z) (m : message) (w : world) :
  wf w -> Msg.cmd m ∈ ["PRIVMSG"; "CMD"] -> check fl m = Run ->
  (forall text, Msg.args m !! 1%nat = Some text -> text_ok text) ->
  safe (handler (Msg.cmd m) m) (fun _ w' => wf w' /\ talk w w') w.
Proof.
  intros W Hc (n & f & Hin & Hn & _)%check_run Ht. destruct m as [c sd rc args]. cbn in Hc, Hin, Hn, Ht |- *.
  rewrite !elem_of_cons, elem_of_nil in Hc. destruct Hc as [->|[->|[]]].
  - assert (Hle : (2 <= length args)%nat) by (vm_compute in Hin; intuition congruence).
    destruct (args !! 1%nat) as [text|] eqn:E; [|apply lookup_ge_None_1 in E; lia].
    eapply (chat_m_privmsg w W _ text); [done|done|done|by apply Ht|done|done].
  - assert (Hle : (2 <= length args)%nat) by (vm_compute in Hin; intuition congruence).
    by apply (chat_m_cmd w W).
Qed.

(** C33: before he is registered, a client who is no operator runs nothing but
    NICK, USER, PASS and QUIT: any other message only sends him an error and
    dates his last line. *)
Theorem exec_gate (m : message) (x : nick) (w : world) :
  wf w -> user_is w x -> Log.hasb (nk_flags x) REGISTERED = false ->
  Log.hasb (nk_flags x) OPER = false -> Msg.cmd m ∉ ["NICK"; "USER"; "PASS"; "QUIT"] ->
  safe (exec m)
    (fun _ w' => w_heap w' = w_heap (stamped x w) /\ w_irc w' = w_irc w) w.
Proof.
  intros W Hx Hr Ho Hm. destruct (wf_user_is w W) as (y & p & l & b & Hy & Hk).
  assert (y = x) as -> by (unfold user_is in *; congruence).
  unfold exec. apply wp_bind. eapply wp_setLastReadNow; [done|done|].
  destruct (wf_stamped x w p l b W Hx Hk) as (W1 & x1 & Hx1 & Hf & _).
  assert (Hi : w_irc (stamped x w) = w_irc w) by (unfold stamped; by rewrite Hk).
  apply wp_bind. eapply wp_the_user; [done|]. rewrite Hf.
  destruct (check _ m) eqn:E;
    try (apply reply_calm_at; [done|done|]; intros w' -> ->; done).
  exfalso. destruct (check_run _ _ E) as (n & f & Hin & _ & [->|Hh]).
  - apply Hm. destruct m as [c sd rc args]. cbn in Hin |- *. clear -Hin.
    rewrite !elem_of_cons. vm_compute in Hin. intuition congruence.
  - assert (f = REGISTERED \/ f = OPER \/ f = 0) as [->|[->| ->]];
      [|congruence..|unfold Log.hasb in Hh; by rewrite Z.land_0_r in Hh].
    clear -Hin. vm_compute in Hin. unfold REGISTERED, OPER. intuition congruence.
Qed.

(** [IRC::ping]: a client silent for the ping frequency gets a PING, and is
    closed when he is silent for one more period or was not yet registered; a
    client who spoke since is left alone. *)
Theorem ping_spec (x : nick) (p : string) (last_ : Z) (b : bool) (w : world) :
  wf w -> user_is w x -> nk_kind x = KUser p last_ b ->
  safe ping (fun go w' =>
    w_irc w' = w_irc w
    /\ if o_now (w_io w) <? last_ + i_ping_freq (w_irc w) then go = true /\ w' = w
       else if negb (Log.hasb (nk_flags x) REGISTERED) || Log.hasb (nk_flags x) PING
       then go = false /\ user_is w' (with_kind x (KUser p last_ false)) /\ o_sockw (w_io w') = false
       else go = true /\ user_is w' (with_flags x (Z.lor (nk_flags x) PING))) w.
Proof.
  intros W Hx Hk. unfold ping. apply wp_bind. unfold getLastRead. apply wp_bind.
  eapply wp_the_user; [done|]. rewrite Hk. apply wp_ret. apply wp_bind, wp_get, wp_bind, wp_get.
  destruct (_ <? _); [by apply wp_ret|].
  unfold hasFlag. do 2 (apply wp_bind, wp_bind; eapply wp_the_user; [done|]; apply wp_ret).
  destruct (negb _ || _).
  - apply wp_bind. eapply wp_mono; [by eapply wp_irc_quit| |done].
    intros _ w' (Hi & Hs & Hh). apply wp_ret. split; [done|]. split; [done|]. split; [|done].
    unfold user_is. rewrite Hi, Hh. apply user_put.
  - apply wp_bind. eapply wp_up_user; [done|].
    assert (W1 : wf (put_user (with_flags x (Z.lor (nk_flags x) PING)) w)).
    { eapply wf_put_user; [done|done|done..|]. by exists p, last_, b. }
    pose proof (user_put (with_flags x (Z.lor (nk_flags x) PING)) w) as H1.
    assert (Hi1 : w_irc (put_user (with_flags x (Z.lor (nk_flags x) PING)) w) = w_irc w) by done.
    revert W1 H1 Hi1. generalize (put_user (with_flags x (Z.lor (nk_flags x) PING)) w).
    intros [h i o] W1 H1 Hi1. eapply calm_bind_at; [done|by apply (calm_getServerName h i o W1)|].
    intros nm w2 _ W2 Hh2 Hi2. destruct w2 as [h2 i2 o2].
    eapply calm_bind_at; [done|by apply (calm_to_user h2 i2 o2 W2); [|intros e..]|].
    intros _ w3 _ W3 Hh3 Hi3. apply wp_ret. cbn in *. subst h2 i2 i. split; [done|]. split; [done|].
    unfold user_is. by rewrite Hh3, Hi3.
Qed.

(** OPER gives the operator flag for a login and a password of the
    configuration only; otherwise the flags of the user do not change. *)
Theorem oper_spec (m : message) (login password : string) (rest : list string) (x : nick) (w : world) :
  wf w -> user_is w x -> Msg.args m = login :: password :: rest ->
  safe (m_oper m) (fun _ w' => exists x', user_is w' x' /\ nk_flags x' =
    if negb (Log.hasb (nk_flags x) OPER)
       && existsb (fun '(l, p, _) => String.eqb l login && String.eqb p password) conf_opers
    then Z.lor (nk_flags x) OPER else nk_flags x) w.
Proof.
  intros W Hx Ha. unfold m_oper, hasFlag. do 2 apply wp_bind. eapply wp_the_user; [done|]. apply wp_ret.
  destruct (Log.hasb _ OPER); cbn [negb andb].
  { apply reply_calm_at; [done|done|]. intros w' Hh Hi. exists x. split; [by eapply user_calm|done]. }
  unfold arg, Msg.getArg. rewrite Ha. apply wp_bind, wp_ret, wp_bind, wp_ret.
  destruct (existsb _ _).
  2:{ apply reply_calm_at; [done|done|]. intros w' Hh Hi. exists x. split; [by eapply user_calm|done]. }
  apply wp_bind. eapply wp_up_user; [done|].
  destruct (wf_user_is w W) as (y & p & l & b & Hy & Hk).
  assert (y = x) as -> by (unfold user_is in *; congruence).
  assert (W1 : wf (put_user (with_flags x (Z.lor (nk_flags x) OPER)) w)).
  { eapply wf_put_user; [done|done|done..|]. by exists p, l, b. }
  pose proof (user_put (with_flags x (Z.lor (nk_flags x) OPER)) w) as H1.
  revert W1 H1. generalize (put_user (with_flags x (Z.lor (nk_flags x) OPER)) w).
  intros [h i o] W1 H1. eapply (calm_at _ _ _ any).
  - calm.
  - intros _ w' _ Hh Hi. eexists. split; [by eapply user_calm|done].
Qed.

(** ** Registration *)

(** What holds of the sessions in which [m] returns. *)
Definition returns {A} (m : M A) (Q : A -> world -> Prop) (w : world) : Prop :=
  forall a w', m w = Ok a w' -> Q a w'.
Lemma returns_safe {A} (m : M A) Q w : safe m Q w -> returns m Q w.
Proof. intros H a w' E. unfold wp in H. by rewrite E in H. Qed.
Lemma returns_bind {A B} (m : M A) (k : A -> M B) Q R w :
  safe m R w -> (forall a w', R a w' -> returns (k a) Q w') -> returns (bind m k) Q w.
Proof.
  intros Hm Hk b w' E. unfold bind in E. unfold wp in Hm. destruct (m w) as [a w1| |]; try done.
  by eapply Hk.
Qed.

Lemma sendWelcome_registered (x : nick) (p : string) (l : Z) (b : bool) (w w' : world) :
  wf w -> user_is w x -> nk_kind x = KUser p l b -> Log.hasb (nk_flags x) REGISTERED = false ->
  sendWelcome w = Ok tt w' ->
  (exists x', user_is w' x' /\ Log.hasb (nk_flags x') REGISTERED = true) ->
  let t := o_trace (w_io w) in let t' := t ++ [ImCall (AuthValidate (nk_name x) p)] in
  auth_result t' = inl true
  \/ auth_result t' = inl false /\ im_exists t' (nk_name x) = false
     /\ (conf_password = " " \/ conf_password = p)
     /\ auth_result (t' ++ [ImCall (AuthGenerate (nk_name x) p)]) = inl true.
Proof.
  intros W Hx Hk Hr E HX t t'. set (P := _ \/ _).
  cut (returns sendWelcome (fun _ w' => (exists x', user_is w' x'
    /\ Log.hasb (nk_flags x') REGISTERED = true) -> P) w); [intros H; by eapply H|].
  clear E HX w'.
  assert (Quit : forall s w1, wf w1 -> user_is w1 x -> returns (irc_quit s) (fun _ w' => (exists x', user_is w' x'
    /\ Log.hasb (nk_flags x') REGISTERED = true) -> P) w1).
  { intros s w1 W1 H1. apply returns_safe. eapply wp_mono; [by eapply wp_irc_quit| |done].
    intros _ w2 (Hi & _ & Hh) (x' & Hx' & Hr'). unfold user_is in Hx'. rewrite Hi, Hh in Hx'.
    assert (x' = with_kind x (KUser p l false)) as -> by
      (injection (eq_trans (eq_sym Hx') (user_put (with_kind x (KUser p l false)) w1)); done).
    cbn in Hr'. congruence. }
  unfold sendWelcome. eapply (returns_bind _ _ _ (fun y w' => y = x /\ w' = w)).
  { by eapply wp_the_user. }
  intros _ _ [-> ->]. rewrite Hr. cbn [orb].
  destruct (_ || _).
  { apply returns_safe, wp_ret. intros (x' & Hx' & Hr'). unfold user_is in *. congruence. }
  eapply (returns_bind _ _ _ (fun y w' => y = p /\ w' = w)).
  { unfold getPassword. apply wp_bind. eapply wp_the_user; [done|]. by rewrite Hk. }
  intros _ _ [-> ->]. set (said c w := on_io (up_o_trace (fun t => t ++ [ImCall c])) w).
  assert (Call : forall c w, safe (im_call c) (fun _ w' => w' = said c w) w) by done.
  assert (Ask : forall A (f : list event -> A) w,
    safe (ask f) (fun y w' => y = f (o_trace (w_io w)) /\ w' = w) w) by done.
  eapply (returns_bind _ _ _ _ _ (Call _ _)). intros _ _ ->.
  eapply (returns_bind _ _ _ _ _ (Ask _ _ _)). intros _ _ [-> ->].
  set (w1 := said _ w). assert (W1 : wf w1) by (by eapply wf_same_tables). assert (H1 : user_is w1 x) by done.
  destruct (auth_result (o_trace (w_io w1))) as [[]|e] eqn:E1; [| |by apply Quit].
  { intros a w' _ _. left. exact E1. }
  eapply (returns_bind _ _ _ _ _ (Ask _ _ _)). intros _ _ [-> ->].
  destruct (im_exists (o_trace (w_io w1)) (nk_name x)) eqn:E2; [by apply Quit|].
  destruct (negb _ && negb _) eqn:E3; [by apply Quit|].
  eapply (returns_bind _ _ _ _ _ (Call _ _)). intros _ _ ->.
  eapply (returns_bind _ _ _ _ _ (Ask _ _ _)). intros _ _ [-> ->].
  destruct (auth_result (o_trace (w_io (said _ w1)))) as [[]|e] eqn:E4.
  - intros a w' _ _. right. split; [exact E1|]. split; [exact E2|]. split; [|exact E4].
    apply andb_false_iff in E3 as [E3|E3]; apply negb_false_iff, String.eqb_eq in E3; auto.
  - intros a w' E5. exfalso. unfold bind in E5. by destruct (irc_quit _ _).
  - apply Quit; [by eapply wf_same_tables|done].
Qed.
(** A client becomes registered only when [Auth] accepted the name and the
    password he gave, or when it made the account for him: then the name was free
    and the password was the global one, if there is one.  What it is asked is
    asked in this state, and after the refusal. *)
Theorem registered_by_auth (x : nick) (p : string) (l : Z) (b : bool) (w w' : world) :
  wf w -> user_is w x -> nk_kind x = KUser p l b -> Log.hasb (nk_flags x) REGISTERED = false ->
  sendWelcome w = Ok tt w' ->
  (exists x', user_is w' x' /\ Log.hasb (nk_flags x') REGISTERED = true) ->
  let t := o_trace (w_io w) in let t' := t ++ [ImCall (AuthValidate (nk_name x) p)] in
  auth_result t' = inl true
  \/ auth_result t' = inl false /\ im_exists t' (nk_name x) = false
     /\ (conf_password = " " \/ conf_password = p)
     /\ auth_result (t' ++ [ImCall (AuthGenerate (nk_name x) p)]) = inl true.
Proof. apply sendWelcome_registered. Qed.
End Theorems.

(** ** The properties at the sample session *)

Definition demo_lines : list string :=
  ["PRIVMSG alice :hi there"; "WHOIS alice"; "JOIN &minbif"; "KICK &minbif alice :bye"; "FOO";
   "OPER root"; "CMD #room:jabber0 topic hello"; "SVSNICK alice carol"; "PART &minbif"; "QUIT"].
Lemma demo_generate : @generate_ok demo.
Proof.
  intros t u p. cbn. unfold demo_auth_result. rewrite last_snoc.
  by destruct (@Auth.generated_makes demo_auth u p) as (r & -> & ? & _).
Qed.
Lemma demo_icons : @icons_below demo.
Proof. intros t b. by left. Qed.
Lemma demo_text s : @Dcc.parseDCCSEND s = Prelude.Ret None ->
  @Dcc.parseDCCSEND (Tok.stringtok s " ").2 = Prelude.Ret None -> @text_ok demo s.
Proof. intros H1 H2. right. split; intros e; congruence. Qed.
Lemma demo_covered line m : line ∈ demo_lines -> Msg.parse line = Prelude.Ret m -> @covered demo m.
Proof.
  unfold demo_lines. rewrite !elem_of_cons, elem_of_nil. intros H E.
  repeat (destruct H as [->|H]; [vm_compute in E; injection E as <-; split; [done|]; split; [done|];
    intros [=]; intros text [= <-]; apply demo_text; reflexivity|]). done.
Qed.


Definition demo_msg (cmd : string) (args : list string) : message :=
  Msg.Message cmd Msg.se_empty Msg.se_empty args.
Lemma queries_read_only_witness :
  safe (@handler demo "WHO" (demo_msg "WHO" ["&minbif"]))
    (fun _ w' => w_heap w' = demo_heap /\ w_irc w' = w_irc demo_world) demo_world.
Proof.
  apply (@queries_read_only demo REGISTERED (demo_msg "WHO" ["&minbif"]) demo_world);
    [exact demo_icons|exact DemoWf.demo_wf|apply (bool_decide_unpack _); exact I|reflexivity].
Defined.
Lemma talk_commands_witness :
  safe (@handler demo "PRIVMSG" (demo_msg "PRIVMSG" ["#room:jabber0,alice"; "hi"]))
    (fun _ w' => wf w' /\ talk demo_world w') demo_world.
Proof.
  apply (@talk_commands demo REGISTERED (demo_msg "PRIVMSG" ["#room:jabber0,alice"; "hi"]) demo_world);
    [exact DemoWf.demo_wf|apply (bool_decide_unpack _); exact I|reflexivity|].
  intros text [= <-]. apply demo_text; reflexivity.
Defined.

(** The sample session before the registration of its user. *)
Definition demo_guest : nick := with_flags demo_user 0.
Definition demo_start : world := put_user demo_guest demo_world.
Lemma demo_start_wf : wf demo_start.
Proof.
  apply (wf_put_user demo_user); [exact DemoWf.demo_wf|reflexivity..|].
  by eexists _, _, _.
Qed.
Lemma exec_gate_witness :
  safe (@exec demo (demo_msg "JOIN" ["&minbif"]))
    (fun _ w' => w_heap w' = w_heap (stamped demo_guest demo_start) /\ w_irc w' = w_irc demo_start)
    demo_start.
Proof.
  apply (@exec_gate demo (demo_msg "JOIN" ["&minbif"]) demo_guest demo_start);
    [exact demo_start_wf|reflexivity..|].
  apply (bool_decide_unpack _). exact I.
Defined.
Lemma ping_spec_witness :
  wp (@ping demo) (fun go w' => go = true /\ user_is w' (with_flags demo_user 3))
    (fun _ _ => True) demo_world.
Proof.
  eapply wp_mono;
    [apply (@ping_spec demo demo_user "password" 0 true demo_world);
       [exact DemoWf.demo_wf|reflexivity..]| |done].
  intros go w' [_ H]. exact H.
Defined.
Lemma oper_spec_witness :
  wp (@m_oper demo (demo_msg "OPER" ["root"; "secret"]))
    (fun _ w' => exists x', user_is w' x' /\ nk_flags x' = 5) (fun _ _ => True) demo_world.
Proof.
  eapply wp_mono;
    [apply (@oper_spec demo (demo_msg "OPER" ["root"; "secret"]) "root" "secret" [] demo_user demo_world);
       [exact DemoWf.demo_wf|reflexivity..]| |done].
  intros a w' H. exact H.
Defined.
Lemma registered_by_auth_witness :
  let t' := [ImCall (AuthValidate "romain" "password")] in
  @auth_result demo t' = inl true
  \/ @auth_result demo t' = inl false /\ @im_exists demo t' "romain" = false
     /\ (@conf_password demo = " " \/ @conf_password demo = "password")
     /\ @auth_result demo (t' ++ [ImCall (AuthGenerate "romain" "password")]) = inl true.
Proof.
  apply (@registered_by_auth demo demo_guest "password" 0 true demo_start
    (match @sendWelcome demo demo_start with Ok _ w => w | _ => demo_start end));
    [exact demo_start_wf|reflexivity|reflexivity|reflexivity|vm_compute; reflexivity|].
  eexists. split; [vm_compute; reflexivity|reflexivity].
Defined.
