(* ===== verification/ImSafety.v ===== *)
(** The callbacks of im/conversation.cpp and im/buddy.cpp keep the session
    well-formed: the objects they make, the nicks they delete, the channels they
    open and close. *)

From S2P Require Import Prelude Util Message Log MarkupIn World Dcc Nick Demo Logic Channel Registry Members Kinds Irc Cmds CmdsChannels CmdsAccounts Calm Queries Dispatch Safety Talk Session Closing ImLayer ImConv.
Import W Obj Names Send Chan Reg Kinds Irc CmdsA Wf View Leave Join Closing ImNick ImConv.

Module ImWf.
Section New.
Context {env : ImEnv}.

(** ** New objects *)

Definition fresh_nick (x : nick) (w : world) : world :=
  on_heap (fun h => up_h_nicks (insert (h_next h) x) (up_h_next S h)) w.

Lemma wf_new_nick x w :
  wf w -> channels x = [] -> is_Some (h_servers (w_heap w) !! nk_server x) ->
  (forall ce, nk_kind x = KUnknownBuddy ce -> is_Some (conv ce)) -> wf (fresh_nick x w).
Proof.
  intros W Hch Hsv Hu. destruct (wf_fresh _ W (h_next (w_heap w)) ltac:(lia)) as (Hn & _).
  assert (Hold : forall n y, h_nicks (w_heap w) !! n = Some y ->
            <[h_next (w_heap w) := x]> (h_nicks (w_heap w)) !! n = Some y).
  { intros n y Hy. rewrite lookup_insert_ne; [done|]. intros <-. congruence. }
  split; try apply W; cbn.
  - destruct (wf_links _ W) as [Lcu Ln Lc Lu Lf]. cbn in *. split; cbn.
    + intros u n c H. destruct (Lcu _ _ _ H) as [(l & Hl & Hin) ?]. split; [|done]. exists l. split; [|done].
      rewrite lookup_fmap in Hl |- *. destruct (h_nicks (w_heap w) !! n) as [y|] eqn:Ey; [|done].
      by rewrite (Hold n y Ey).
    + rewrite fmap_insert, Hch. intros n l [[<- <-]|[_ H]]%lookup_insert_cases; [|by apply (Ln n)].
      split; [apply NoDup_nil_2|]. intros u H. by apply not_elem_of_nil in H.
    + exact Lc.
    + exact Lu.
    + intros u Hlt. apply Lf. lia.
  - intros i Hlt. destruct (wf_fresh _ W i) as (H1 & H2 & H3); [lia|].
    rewrite lookup_insert_ne by lia. done.
  - intros n y [[<- <-]|[_ H]]%lookup_insert_cases; [done|by eapply (wf_server _ W)].
  - destruct (wf_user _ W) as (y & p & l & b & Hy & Hk). exists y, p, l, b. split; [by apply Hold|done].
  - intros k n Hk. destruct (wf_table _ W _ _ Hk) as (y & Hy & Hnm). exists y. split; [by apply Hold|done].
  - intros n y ce [[<- <-]|[_ H]]%lookup_insert_cases Hk; [by apply Hu|by eapply (wf_unknown _ W)].
Qed.

(** Nothing in the tables is at a fresh address. *)
Lemma fresh_unnamed w k : wf w -> i_users (w_irc w) !! k <> Some (h_next (w_heap w)).
Proof.
  intros W H. destruct (wf_table _ W _ _ H) as (y & Hy & _).
  destruct (wf_fresh _ W (h_next (w_heap w)) ltac:(lia)) as (Hn & _). congruence.
Qed.

Definition fresh_chan (ch : channel) (w : world) : world :=
  on_heap (fun h => up_h_chans (insert (h_next h) ch) (up_h_next S h)) w.
Lemma wf_new_chan ch w :
  wf w -> users ch = [] ->
  (forall ce up cb, ch_kind ch = KConversation ce up cb -> is_Some (conv ce) /\ cb = []) ->
  wf (fresh_chan ch w).
Proof.
  intros W Hus Hcv. destruct (wf_fresh _ W (h_next (w_heap w)) ltac:(lia)) as (_ & Hn & _).
  assert (Hold : forall c y, h_chans (w_heap w) !! c = Some y ->
            <[h_next (w_heap w) := ch]> (h_chans (w_heap w)) !! c = Some y).
  { intros c y Hy. rewrite lookup_insert_ne; [done|]. intros <-. congruence. }
  split; try apply W; cbn.
  - destruct (wf_links _ W) as [Lcu Ln Lc Lu Lf]. cbn in *. split; cbn.
    + intros u n c H. destruct (Lcu _ _ _ H) as [? (l & Hl & Hin)]. split; [done|]. exists l. split; [|done].
      rewrite lookup_fmap in Hl |- *. destruct (h_chans (w_heap w) !! c) as [y|] eqn:Ey; [|done].
      by rewrite (Hold c y Ey).
    + exact Ln.
    + rewrite fmap_insert, Hus. intros c l [[<- <-]|[_ H]]%lookup_insert_cases; [|by apply (Lc c)].
      split; [apply NoDup_nil_2|]. intros u H. by apply not_elem_of_nil in H.
    + exact Lu.
    + intros u Hlt. apply Lf. lia.
  - intros i Hlt. destruct (wf_fresh _ W i) as (H1 & H2 & H3); [lia|].
    rewrite lookup_insert_ne by lia. done.
  - intros c y ce up cb [[<- <-]|[_ H]]%lookup_insert_cases Hk HX; [|by eapply (wf_conv _ W)].
    destruct (Hcv _ _ _ Hk) as [H ->]. split; [done|]. split; [apply NoDup_nil_2|].
    intros u Hu. by apply not_elem_of_nil in Hu.
  - intros k c Hk. destruct (wf_ctable _ W _ _ Hk) as (y & Hy & Hnm). exists y. split; [by apply Hold|done].
Qed.

Lemma wp_fresh_nick x (Q : nid -> world -> Prop) w :
  Q (h_next (w_heap w)) (fresh_nick x w) -> safe (let! n := alloc; put_nick n x;; ret n) Q w.
Proof. done. Qed.

(** ** A nick enters the table under a free name *)

Record entered (n : nid) (x : nick) (s : string) (w w' : world) : Prop := {
  en_wf : wf w';
  en_nicks : h_nicks (w_heap w') = <[n := with_name x s]> (h_nicks (w_heap w));
  en_name : i_users (w_irc w') !! s = Some n;
  en_chans : h_chans (w_heap w') = h_chans (w_heap w);
  en_cus : h_cus (w_heap w') = h_cus (w_heap w);
  en_self : i_self (w_irc w') = i_self (w_irc w);
  en_user : i_user (w_irc w') = i_user (w_irc w);
  en_channels : i_channels (w_irc w') = i_channels (w_irc w);
  en_servers : i_servers (w_irc w') = i_servers (w_irc w);
  en_heap : forall i, is_Some (h_servers (w_heap w) !! i) -> is_Some (h_servers (w_heap w') !! i) }.

Lemma wp_addNick n x w :
  wf w -> h_nicks (w_heap w) !! n = Some x -> safe (addNick n) (fun _ w' => entered n x (nk_name x) w w'
       /\ (i_users (w_irc w) !! nk_name x = None -> w_io w' = w_io w)) w.
Proof.
  intros W Hx. destruct (wf_server _ W n _ Hx) as [sv Hsv]. unfold addNick. apply wp_bind.
  eapply wp_get_nick; [exact Hx|]. apply wp_bind, wp_get. destruct w as [h i o].
  set (say := when _ _). assert (S : safe say (fun _ w1 => wf w1 /\ w_heap w1 = h /\ w_irc w1 = i
    /\ (i_users i !! nk_name x = None -> w_io w1 = o)) (World h i o)).
  { unfold say. apply wp_when; intros H; [|done]. apply bool_decide_eq_true in H as [n' Hn'].
    eapply (calm_at (World h i o)); [by eapply calm_b_log|]. intros ? w1 _ Hh1 Hi1.
    split; [by eapply wf_calm|]. cbn in *. split; [done|]. split; [done|congruence]. }
  apply wp_bind. eapply wp_mono; [exact S| |done]. clear S say.
  intros ? w1 (W1 & Hh1 & Hi1 & Ho1). cbn in Hh1, Hi1, Hx, Hsv. apply wp_bind, wp_put, wp_bind.
  eapply wp_get_server; [cbn; by rewrite Hh1|]. apply wp_put. set (w2 := on_heap _ _).
  assert (En : with_name x (nk_name x) = x) by (by destruct x).
  split; [|exact Ho1]. split; cbn; rewrite ?Hh1, ?Hi1, ?En; try done.
  - eapply (wf_put_server (on_irc (up_i_users (insert (nk_name x) n)) w1) w2 (nk_server x) sv
      (with_svusers sv (sv_users sv ++ [n])));
      [|cbn; by rewrite Hh1|done|done|done]. apply wf_table_insert; [done|by rewrite Hh1].
  - symmetry. by apply insert_id.
  - apply lookup_insert_eq.
  - intros j [y Hy]. destruct (decide (nk_server x = j)) as [<-|Hne].
    + rewrite lookup_insert_eq. by eexists.
    + rewrite lookup_insert_ne by done. by exists y.
Qed.

Lemma free_name_absent s w s' w' :
  free_name s w = Ok s' w' -> i_users (w_irc w) !! s' = None.
Proof.
  intros H. pose proof (free_name_fresh s w) as F. rewrite H in F. destruct F as (-> & _ & F).
  unfold getNick, bind in F. cbn in F. destruct (i_users (w_irc w) !! s') as [n|] eqn:E; [|done].
  exfalso. injection F as F.
  assert (Hin : (s', n) ∈ sorted (i_users (w_irc w))) by by apply Drop.elem_sorted.
  apply (KindLemmas.find_nick_taken s' _) in F; [done|].
  unfold KindLemmas.lower_keys. apply list_elem_of_In, List.in_map_iff. exists (s', n).
  split; [done|by apply list_elem_of_In].
Qed.

Lemma wp_free_name s (Q : string -> world -> Prop) w :
  (forall s', i_users (w_irc w) !! s' = None -> Q s' w) -> safe (free_name s) Q w.
Proof.
  intros HQ. pose proof (free_name_fresh s w) as F. pose proof (free_name_absent s w) as A.
  unfold wp. destruct (free_name s w) as [s' w1| |] eqn:E; [|done..].
  destruct F as (-> & _). apply HQ. by eapply A.
Qed.

(** [IRC::renameNick], and [enter] of a nick no name stands for. *)
Lemma entered_named n x s w w1 w' :
  w_heap w1 = up_h_nicks (insert n (with_name x s)) (w_heap w) ->
  w_irc w1 = up_i_users (fun _ => i_users (w_irc w1)) (w_irc w) ->
  entered n (with_name x s) s w1 w' -> entered n x s w w'.
Proof.
  intros Hh Hi [E1 E2 E3 E4 E5 E6 E7 E8 E9 E10]. rewrite Hh in E2, E4, E5, E10. rewrite Hi in E6, E7, E8, E9.
  split; try done. rewrite E2. cbn. by rewrite insert_insert_eq.
Qed.
Lemma wp_renameNick n x s w :
  wf w -> h_nicks (w_heap w) !! n = Some x -> safe (renameNick n s) (fun _ => entered n x s w) w.
Proof.
  intros W Hx. unfold renameNick. apply wp_bind. eapply wp_get_nick; [done|].
  apply wp_bind, wp_put, wp_bind, wp_put. set (w1 := on_heap _ _). eapply wp_mono.
  - apply (wp_addNick n (with_name x s) w1); [|apply lookup_insert_eq].
    apply wf_put_name; [by apply wf_table_delete|done|]. cbn. intros k H.
    apply lookup_delete_Some in H as [Hne H]. destruct (wf_table _ W _ _ H) as (y & Hy & Hnm). congruence.
  - intros ? w' [E' _]. eapply entered_named; [..|exact E']; [done|]. cbn. by destruct (w_irc w).
  - done.
Qed.
Lemma wp_enter n x w :
  wf w -> h_nicks (w_heap w) !! n = Some x -> (forall k, i_users (w_irc w) !! k <> Some n) ->
  safe (enter n) (fun _ w' => w_io w' = w_io w /\ exists s, entered n x s w w' /\ i_users (w_irc w) !! s = None) w.
Proof.
  intros W Hx Hno. unfold enter. apply wp_bind. eapply wp_get_nick; [done|]. apply wp_bind.
  apply wp_free_name. intros s A. apply wp_bind, wp_put. set (w1 := on_heap _ w).
  eapply wp_mono.
  - apply (wp_addNick n (with_name x s) w1); [by apply wf_put_name|apply lookup_insert_eq].
  - intros ? w' [E' Ho]. split; [by apply Ho|]. exists s. split; [|done].
    eapply entered_named; [..|exact E']; [done|]. cbn. by destruct (w_irc w).
  - done.
Qed.
End New.

(** ** The users of a chat *)

Section Users.
Context {env : ImEnv}.

(** A chat whose channel can take users: its server is there, the map of its chat
    buddies is in order, and no buddy but [me] stands for the user. *)
Record ready (c : cid) (me : kid) (w : world) : Prop := {
  rd_wf : wf w;
  rd_chan : exists ch ce s cb, h_chans (w_heap w) !! c = Some ch
    /\ ch_kind ch = KConversation ce (Some s) cb /\ is_Some (h_servers (w_heap w) !! s)
    /\ StronglySorted lt cb.*1
    /\ forall k u x, (k, u) ∈ cb -> h_cus (w_heap w) !! u = Some x ->
         cu_nick x = i_user (w_irc w) -> k = me }.

Lemma set_cbuddy_elem k u l e : e ∈ set_cbuddy k u l -> e = (k, u) \/ e ∈ l.
Proof.
  induction l as [|[k' u'] l IH]; cbn -[Nat.ltb Nat.eqb].
  - intros ->%list_elem_of_singleton. by left.
  - rewrite elem_of_cons. destruct (k =? k')%nat; [|destruct (k <? k')%nat];
      intros [->|H]%elem_of_cons; try tauto. apply elem_of_cons in H. tauto.
Qed.
Lemma set_cbuddy_keys k u l k' : k' ∈ (set_cbuddy k u l).*1 -> k' = k \/ k' ∈ l.*1.
Proof.
  intros ([k0 u0] & -> & H)%list_elem_of_fmap. apply set_cbuddy_elem in H as [[= -> ->]|H]; [by left|].
  right. apply list_elem_of_fmap. by exists (k0, u0).
Qed.
Lemma set_cbuddy_sorted k u l : StronglySorted lt l.*1 -> StronglySorted lt (set_cbuddy k u l).*1.
Proof.
  induction l as [|[k' u'] l IH]; cbn -[Nat.ltb Nat.eqb]; intros S; [repeat constructor|].
  apply StronglySorted_inv in S as [S F]. destruct (Nat.eqb_spec k k') as [<-|Hne]; [by constructor|].
  destruct (Nat.ltb_spec k k').
  - constructor; [by constructor|]. constructor; [done|]. eapply Forall_impl; [exact F|]. cbn. lia.
  - constructor; [by apply IH|]. apply Forall_forall. intros j [->|Hj]%set_cbuddy_keys; [cbn; lia|].
    rewrite Forall_forall in F. by apply F.
Qed.
Lemma set_cbuddy_nodup k u l :
  StronglySorted lt l.*1 -> NoDup l.*2 -> (forall k', (k', u) ∈ l -> k' = k) ->
  NoDup (set_cbuddy k u l).*2.
Proof.
  induction l as [|[k' u'] l IH]; cbn -[Nat.ltb Nat.eqb]; intros S ND H; [apply NoDup_singleton|].
  apply StronglySorted_inv in S as [S F]. apply NoDup_cons in ND as [Hn ND].
  assert (Hk : u ∈ l.*2 -> (k' < k)%nat).
  { intros ([k0 u0] & -> & Hin)%list_elem_of_fmap. cbn. rewrite Forall_forall in F.
    rewrite <- (H k0) by (by right). apply F, list_elem_of_fmap. by exists (k0, u0). }
  destruct (Nat.eqb_spec k k') as [<-|Hne].
  - apply NoDup_cons. split; [|done]. intros Hu. specialize (Hk Hu). lia.
  - assert (u <> u') by (intros ->; destruct Hne; symmetry; apply H; by left).
    destruct (Nat.ltb_spec k k'); apply NoDup_cons.
    + split; [|by apply NoDup_cons]. intros [E|Hu]%elem_of_cons; [done|]. specialize (Hk Hu). lia.
    + split; [|apply IH; [done|done|]; intros; apply H; by right].
      intros ([k0 u0] & E0 & Hin)%list_elem_of_fmap. cbn [snd] in *. subst u0.
      apply set_cbuddy_elem in Hin as [E|Hin]; [congruence|].
      apply Hn, list_elem_of_fmap. by exists (k0, u').
Qed.

(** Writing the conversation of a channel. *)
Lemma wf_restore c w :
  wf_but (Some c) w ->
  (forall ch ce up cb, h_chans (w_heap w) !! c = Some ch -> ch_kind ch = KConversation ce up cb ->
     is_Some (conv ce) /\ NoDup cb.*2 /\ forall u, u ∈ cb.*2 -> u ∈ users ch) -> wf w.
Proof.
  intros [H1 H2 H3 H4 H5 H6 H7 H8 H9 H10] Hc. split; try done. intros c' ch ce up cb Hch Hk _.
  destruct (decide (c' = c)) as [->|Hne]; [by eapply Hc|]. eapply H4; [done|done|congruence].
Qed.
Definition set_kind (c : cid) (ch : channel) (k : chan_kind) (w : world) : world :=
  on_heap (up_h_chans (insert c (with_ckind ch k))) w.
Lemma wf_set_conv c ch ce up cb w :
  wf w -> h_chans (w_heap w) !! c = Some ch -> is_Some (conv ce) -> NoDup cb.*2 ->
  (forall u, u ∈ cb.*2 -> u ∈ users ch) -> wf (set_kind c ch (KConversation ce up cb) w).
Proof.
  intros W Hc Hv ND Hu. apply (wf_restore c).
  - by eapply (wf_put_ckind c w _ ch (with_ckind ch _)); [by apply wf_forget|..].
  - intros ch' ce' up' cb' Hc' Hk. cbn in Hc'. rewrite lookup_insert_eq in Hc'. injection Hc' as <-.
    by injection Hk as <- <- <-.
Qed.

Lemma wp_up_cbuddies c f ch ce up cb (Q : unit -> world -> Prop) w :
  h_chans (w_heap w) !! c = Some ch -> ch_kind ch = KConversation ce up cb ->
  Q tt (set_kind c ch (KConversation ce up (f cb)) w) -> safe (up_cbuddies c f) Q w.
Proof.
  intros Hc Hk HQ. unfold up_cbuddies. apply wp_bind. eapply wp_get_chan; [done|].
  rewrite Hk. by apply wp_put.
Qed.
Lemma wp_set_cbuddy c me k u x w :
  ready c me w -> h_cus (w_heap w) !! u = Some x -> cu_chan x = c ->
  (cu_nick x = i_user (w_irc w) -> k = me) ->
  (forall ch ce up cb k', h_chans (w_heap w) !! c = Some ch ->
     ch_kind ch = KConversation ce up cb -> (k', u) ∈ cb -> k' = k) ->
  safe (up_cbuddies c (set_cbuddy k u)) (fun _ => ready c me) w.
Proof.
  intros [W (ch & ce & s & cb & Hc & Hk & Hs & St & Hme)] Hx Hxc Hu Hone.
  destruct (wf_conv _ W _ _ _ _ _ Hc Hk ltac:(done)) as (Hv & ND & Hus).
  destruct (l_cu _ (wf_links _ W) u (cu_nick x) c) as [_ (l & Hl & Hin)].
  { cbn. by rewrite lookup_fmap, Hx, <- Hxc. }
  cbn in Hl. rewrite lookup_fmap, Hc in Hl. injection Hl as <-.
  eapply wp_up_cbuddies; [done..|]. split.
  - apply wf_set_conv; [done|done|done| |].
    + apply set_cbuddy_nodup; [done|done|]. intros k'. by eapply Hone.
    + intros v ([k0 u0] & -> & [[= -> ->]|Hv']%set_cbuddy_elem)%list_elem_of_fmap; [done|].
      apply Hus, list_elem_of_fmap. by exists (k0, u0).
  - eexists _, ce, s, _. split; [apply lookup_insert_eq|]. split; [done|]. split; [done|].
    split; [by apply set_cbuddy_sorted|]. intros k' u' z [[= -> ->]|Hin']%set_cbuddy_elem Hz Hn.
    + cbn in Hz. rewrite Hx in Hz. injection Hz as <-. by apply Hu.
    + by eapply Hme.
Qed.

Lemma ready_came c me n st w cu w' : ready c me w -> came n c st w cu w' -> ready c me w'.
Proof.
  intros [W (ch & ce & s & cb & Hc & Hk & Hs & St & Hme)] C.
  pose proof (ca_kinds _ _ _ _ _ _ C c) as K. rewrite Hc in K. apply fmap_Some in K as (ch' & Hc' & Ek).
  split; [apply C|]. exists ch', ce, s, cb. split; [done|]. split; [congruence|].
  split; [by rewrite (ca_servers _ _ _ _ _ _ C)|]. split; [done|]. intros k u x Hin Hx.
  rewrite (ca_irc _ _ _ _ _ _ C). destruct (decide (u = cu)) as [->|Hne].
  - destruct (wf_conv _ W _ _ _ _ _ Hc Hk ltac:(done)) as (_ & _ & Hus).
    destruct (chan_users _ c ch cu (wf_links _ W) Hc) as (z & _ & Hz & _).
    { apply Hus, list_elem_of_fmap. by exists (k, cu). }
    destruct (ca_old _ _ _ _ _ _ C z Hz) as [En _].
    destruct (ca_on _ _ _ _ _ _ C) as (x' & Hx' & En' & _). intros E. eapply Hme; [done|done|congruence].
  - rewrite (ca_cus _ _ _ _ _ _ C u Hne) in Hx. by eapply Hme.
Qed.
Lemma ready_same c me w w' :
  ready c me w -> wf w' -> h_chans (w_heap w') = h_chans (w_heap w) ->
  h_cus (w_heap w') = h_cus (w_heap w) -> i_user (w_irc w') = i_user (w_irc w) ->
  (forall s, is_Some (h_servers (w_heap w) !! s) -> is_Some (h_servers (w_heap w') !! s)) ->
  ready c me w'.
Proof.
  intros [W (ch & ce & s & cb & Hc & Hk & Hs & St & Hme)] W' E1 E2 E3 Hsv. split; [done|].
  exists ch, ce, s, cb. rewrite E1, E2, E3. split; [done|]. split; [done|]. split; [by apply Hsv|done].
Qed.

(** [addBuddy] has the steps of [enter] in it. *)
Lemma wp_enter_then {A} n (m : M A) Q E w :
  wp (enter n;; m) Q E w ->
  wp (let! x := get_nick n; let! s := free_name (nk_name x); put_nick n (with_name x s);; addNick n;; m) Q E w.
Proof.
  unfold enter, wp, bind. destruct (get_nick n w) as [x w1| |]; [|done..].
  destruct (free_name _ w1) as [s w2| |]; [|done..]. by destruct (put_nick _ _ w2).
Qed.

Lemma wp_new_ChatBuddy s k (Q : nid -> world -> Prop) w :
  (forall x w', w_heap w' = w_heap (fresh_nick x w) -> w_irc w' = w_irc w -> channels x = [] ->
     nk_server x = s -> nk_kind x = KChatBuddy k (CE None []) -> Q (h_next (w_heap w)) w') ->
  safe (new_ChatBuddy (Some s) k) Q w.
Proof.
  intros HQ. unfold new_ChatBuddy. do 4 apply wp_bind, wp_ask.
  destruct (chatbuddy_names _ _ _) as [[nick ident] host]. apply wp_fresh_nick. by eapply HQ.
Qed.
End Users.

Section AddUsers.
Context {env : ImEnv} (me : kid) (me_only : forall t k, k_isme t k = (k =? me)%nat).

Lemma wp_addBuddy c k st w :
  ready c me w -> safe (addBuddy c k st) (fun _ => ready c me) w.
Proof.
  intros R. destruct (id R) as [W (ch & ce & s & cb & Hc & Hk & Hs & St & Hme)].
  destruct (wf_conv _ W _ _ _ _ _ Hc Hk ltac:(done)) as (_ & ND & Hus).
  unfold addBuddy. apply wp_bind, wp_ask, wp_bind. rewrite me_only. destruct (Nat.eqb_spec k me) as [->|Hne].
  - destruct (wf_user _ W) as (y & ? & ? & ? & Hy & _). apply wp_bind, wp_bind, wp_get, wp_ret.
    eapply wp_mono; [by eapply wp_join_came| |done]. intros cu w1 C.
    destruct (ca_on _ _ _ _ _ _ C) as (z & Hx & En & Ec & _).
    assert (R1 := ready_came _ _ _ _ _ _ _ R C). eapply wp_set_cbuddy; [done|done|done|done|].
    intros ch' ce' up' cb' k' Hc' Hk' Hin. destruct R1 as [_ (? & ? & ? & ? & Hc1 & Hk1 & _ & _ & Hme1)].
    rewrite Hc1 in Hc'. injection Hc' as <-. rewrite Hk1 in Hk'. injection Hk' as <- <- <-.
    eapply Hme1; [done|done|]. by rewrite (ca_irc _ _ _ _ _ _ C).
  - apply wp_bind. eapply wp_get_chan; [done|]. rewrite Hk.
    destruct (List.find _ cb) as [[k0 u]|] eqn:F.
    + apply List.find_some in F as [Hin%list_elem_of_In Ek%Nat.eqb_eq]. subst k0.
      apply wp_ret. destruct (chan_users _ c ch u (wf_links _ W) Hc) as (x & _ & Hx & Ec & _).
      { apply Hus, list_elem_of_fmap. by exists (k, u). }
      eapply wp_set_cbuddy; [done|done|done|intros; by eapply Hme|].
      intros ch' ce' up' cb' k' Hc' Hk' Hin'. rewrite Hc in Hc'. injection Hc' as <-.
      rewrite Hk in Hk'. injection Hk' as <- <- <-. apply list_elem_of_lookup in Hin as [i Hi]. apply list_elem_of_lookup in Hin' as [j Hj].
      assert (i = j); [|congruence]. apply (NoDup_lookup cb.*2 i j u ND); by rewrite list_lookup_fmap, ?Hi, ?Hj.
    + apply wp_bind, wp_new_ChatBuddy. intros x w1 Hh1 Hi1 Hch Hsv Hkd. apply wp_enter_then, wp_bind.
      assert (W1 : wf w1).
      { eapply (wf_calm (fresh_nick x w)); [|done..].
        apply wf_new_nick; [done|done|by rewrite Hsv|]. by rewrite Hkd. }
      eapply wp_mono; [eapply (wp_enter _ x); [done|rewrite Hh1; apply lookup_insert_eq|]| |done].
      { intros j. rewrite Hi1. by apply fresh_unnamed. }
      intros ? w2 (_ & nm & E & _). assert (Hn2 := en_nicks _ _ _ _ _ E).
      assert (R2 : ready c me w2).
      { eapply (ready_same c me w); [done|apply E|..].
        - by rewrite (en_chans _ _ _ _ _ E), Hh1.
        - by rewrite (en_cus _ _ _ _ _ E), Hh1.
        - by rewrite (en_user _ _ _ _ _ E), Hi1.
        - intros i Hi. apply (en_heap _ _ _ _ _ E). by rewrite Hh1. }
      eapply wp_mono; [eapply (wp_join_came _ c st ch); [apply R2| |rewrite Hn2; apply lookup_insert_eq]| |done].
      { by rewrite (en_chans _ _ _ _ _ E), Hh1. }
      intros cu w3 C. destruct (ca_on _ _ _ _ _ _ C) as (z & Hz & En & Ec & _).
      assert (Hold : forall z', h_cus (w_heap w) !! cu = Some z' -> False).
      { intros z' Hz'. assert (Hz2 : h_cus (w_heap w2) !! cu = Some z') by (by rewrite (en_cus _ _ _ _ _ E), Hh1).
        destruct (ca_old _ _ _ _ _ _ C z' Hz2) as [En' _].
        destruct (l_cu _ (wf_links _ W) cu (cu_nick z') (cu_chan z')) as [(l & Hl & _) _].
        { cbn. by rewrite lookup_fmap, Hz'. }
        cbn in Hl. rewrite lookup_fmap, En' in Hl.
        destruct (wf_fresh _ W (h_next (w_heap w)) ltac:(lia)) as (Hn & _). by rewrite Hn in Hl. }
      eapply wp_set_cbuddy; [by eapply ready_came|done|done| |].
      * rewrite En, (ca_irc _ _ _ _ _ _ C), (en_user _ _ _ _ _ E), Hi1. intros Eu.
        destruct (wf_user _ W) as (y & ? & ? & ? & Hy & _). rewrite <- Eu in Hy.
        destruct (wf_fresh _ W (h_next (w_heap w)) ltac:(lia)) as (Hn & _). congruence.
      * intros ch' ce' up' cb' k' Hc' Hk' Hin'. exfalso.
        pose proof (ca_kinds _ _ _ _ _ _ C c) as K.
        rewrite (en_chans _ _ _ _ _ E), Hh1 in K. cbn in K. rewrite Hc, Hc' in K. cbn in K.
        assert (cb' = cb) as -> by congruence.
        destruct (chan_users _ c ch cu (wf_links _ W) Hc) as (z' & _ & Hz' & _); [|by eapply Hold].
        apply Hus, list_elem_of_fmap. by exists (k', cu).
Qed.

Lemma wp_add_users v c l w :
  (forall t, v_chan t v = Some c) -> ready c me w -> safe (add_users v l) (fun _ => ready c me) w.
Proof.
  intros Hv. revert w. induction l as [|k l IH]; intros w R; [done|]. cbn [add_users].
  apply wp_bind, wp_ask. rewrite Hv. apply wp_bind, wp_ask, wp_bind.
  eapply wp_mono; [by apply wp_addBuddy| |done]. intros ? w1 R1. by apply IH.
Qed.
End AddUsers.

Section Chat.
Context {env : ImEnv}.

Lemma good_no_channel v l : good (no_channel v l).
Proof. unfold no_channel. apply good_bind; [apply good_ask|intros f]. apply good_b_log. Qed.

Lemma wp_updateBuddy c k ch ce up cb e w :
  wf w -> h_chans (w_heap w) !! c = Some ch -> ch_kind ch = KConversation ce up cb ->
  List.find (fun '(k', _) => (k' =? k)%nat) cb = Some e ->
  safe (updateBuddy c k) (fun _ w' => wf w') w.
Proof.
  intros W Hc Hk F. destruct e as [k0 u].
  assert (Hin : (k0, u) ∈ cb) by (by apply List.find_some in F as [?%list_elem_of_In _]).
  destruct (wf_conv _ W _ _ _ _ _ Hc Hk ltac:(done)) as (_ & _ & Hus).
  destruct (chan_users _ c ch u (wf_links _ W) Hc) as (x & _ & Hx & _).
  { apply Hus, list_elem_of_fmap. by exists (k0, u). }
  unfold updateBuddy. apply wp_bind. eapply wp_get_chan; [done|]. rewrite Hk, F.
  apply wp_bind. eapply wp_get_cu; [done|]. apply wp_bind, wp_ask.
  destruct (mode_diff _ _) as [add del]. apply wp_bind, wp_bind, wp_get, wp_ret, wp_bind.
  assert (D : forall w1 x1, wf w1 -> w_irc w1 = w_irc w -> h_chans (w_heap w1) !! c = Some ch ->
    h_cus (w_heap w1) !! u = Some x1 ->
    safe (when (negb (del =? 0)) (delMode c (Some (EServer (i_self (w_irc w)))) del u)) (fun _ w' => wf w') w1).
  { intros w1 x1 W1 Hi Hc1 Hx1. apply wp_when; intros _; [|done].
    eapply wp_mono; [eapply wp_changeMode; [done..|]| |done]; [|by intros ? ? []].
    intros e [= <-]. by rewrite Hi. }
  apply wp_when; intros _; [|by apply (D w x)].
  eapply wp_mono; [eapply wp_changeMode; [done..|]| |done]; [by intros e [= <-]|].
  intros ? w1 (W1 & Hi & Hh). eapply D; [done|done|by rewrite Hh|]. rewrite Hh. apply lookup_insert_eq.
Qed.

Lemma wp_getChanUser c nm ch ce up cb (Q : option uid -> world -> Prop) w :
  h_chans (w_heap w) !! c = Some ch -> ch_kind ch = KConversation ce up cb ->
  (forall k u, (k, u) ∈ cb ->
     Case.strlower (k_name (o_trace (w_io w)) k) = Case.strlower nm -> Q (Some u) w) ->
  ((forall k u, (k, u) ∈ cb -> Case.strlower (k_name (o_trace (w_io w)) k) <> Case.strlower nm) ->
     Q None w) ->
  safe (getChanUser c nm) Q w.
Proof.
  intros Hc Hk HS HN. unfold getChanUser. apply wp_bind. eapply wp_get_chan; [done|]. rewrite Hk.
  apply wp_bind, wp_ask, wp_ret. destruct (List.find _ cb) as [[k u]|] eqn:F; cbn.
  - apply List.find_some in F as [Hin%list_elem_of_In E%String.eqb_eq]. by eapply HS.
  - apply HN. intros k u Hin E. pose proof (List.find_none _ _ F (k, u)) as N. cbn in N.
    rewrite E, String.eqb_refl in N. by specialize (N (proj1 (list_elem_of_In _ _) Hin)).
Qed.

Lemma wp_remove_user v c nm reason ch ce up cb w :
  wf w -> v_chan (o_trace (w_io w)) v = Some c -> h_chans (w_heap w) !! c = Some ch ->
  ch_kind ch = KConversation ce up cb -> chatbuddies_listed c w ->
  safe (remove_user v nm reason) (fun _ w' => wf w') w.
Proof.
  intros W Hv Hc Hk HL. unfold remove_user. apply wp_bind, wp_ask. rewrite Hv. apply wp_bind.
  eapply wp_getChanUser; [done|done| |].
  - intros k u Hin _. destruct (wf_conv _ W _ _ _ _ _ Hc Hk ltac:(done)) as (_ & _ & Hus).
    destruct (chan_users _ c ch u (wf_links _ W) Hc) as (x & y & Hx & _ & Hy & _).
    { apply Hus, list_elem_of_fmap. by exists (k, u). }
    apply wp_bind. eapply wp_get_cu; [done|]. eapply wp_mono.
    + eapply (wp_part (cu_nick x) c _ y); [done|done| |by rewrite Hc]. by eapply (HL _ _ _ _ (k, u)).
    + by intros ? w' (? & _).
    + done.
  - intros _. by apply good_b_log.
Qed.

Lemma wp_topic_changed v c who t ch ce up cb w :
  wf w -> v_chan (o_trace (w_io w)) v = Some c -> h_chans (w_heap w) !! c = Some ch ->
  ch_kind ch = KConversation ce up cb -> safe (topic_changed v who t) (fun _ w' => wf w') w.
Proof.
  intros W Hv Hc Hk. unfold topic_changed. apply wp_bind, wp_ask. rewrite Hv. apply wp_bind.
  assert (K : forall who, alive_opt (w_heap w) who ->
    safe (chan_setTopic c who (default "" t)) (fun _ w' => safe (ret tt) (fun _ w' => wf w') w') w).
  { intros e He. destruct w as [h i o]. cbn in Hc, He.
    apply (keeps_chan_setTopic h i o c e (default "" t) W); [by rewrite Hc|done|done]. }
  assert (N := K None ltac:(done)). apply wp_bind in N.
  destruct who as [nm|]; [|apply wp_ret, N]. eapply wp_getChanUser; [done|done| |by intros _].
  intros k u Hin _. destruct (wf_conv _ W _ _ _ _ _ Hc Hk ltac:(done)) as (_ & _ & Hus).
  destruct (chan_users _ c ch u (wf_links _ W) Hc) as (x & y & Hx & _ & Hy & _).
  { apply Hus, list_elem_of_fmap. by exists (k, u). }
  unfold setTopic. apply wp_bind, wp_bind. eapply wp_get_chan; [done|]. rewrite Hk.
  apply wp_bind, wp_bind, wp_get, wp_ret. rewrite bool_decide_false by done.
  apply (K (Some (ECu u))). intros e [= <-]. exists x. by rewrite Hy.
Qed.

(** *** A chat buddy takes another name *)

Lemma sorted_filter (f : kid * uid -> bool) l :
  StronglySorted lt l.*1 -> StronglySorted lt (List.filter f l).*1.
Proof.
  induction l as [|e l IH]; [done|]. intros [S F]%StronglySorted_inv. cbn [List.filter].
  destruct (f e); [|by apply IH]. constructor; [by apply IH|]. apply Forall_forall.
  intros k ([k' u'] & -> & Hin)%list_elem_of_fmap. rewrite Forall_forall in F. apply F, list_elem_of_fmap.
  apply list_elem_of_In, List.filter_In in Hin as [Hin _]. exists (k', u'). split; [done|by apply list_elem_of_In].
Qed.
Lemma nodup_filter (f : kid * uid -> bool) l : NoDup l.*2 -> NoDup (List.filter f l).*2.
Proof.
  induction l as [|e l IH]; [done|]. intros [Hn ND]%NoDup_cons. cbn [List.filter].
  destruct (f e); [|by apply IH]. apply NoDup_cons. split; [|by apply IH].
  intros (e' & E & Hin)%list_elem_of_fmap. apply Hn, list_elem_of_fmap. exists e'. split; [done|].
  by apply list_elem_of_In, List.filter_In in Hin as [?%list_elem_of_In _].
Qed.
Lemma ready_filter c me f ch ce s cb w :
  ready c me w -> h_chans (w_heap w) !! c = Some ch -> ch_kind ch = KConversation ce (Some s) cb ->
  ready c me (set_kind c ch (KConversation ce (Some s) (List.filter f cb)) w).
Proof.
  intros [W (ch' & ce' & s' & cb' & Hc' & Hk' & Hs & St & Hme)] Hc Hk.
  rewrite Hc in Hc'. injection Hc' as <-. rewrite Hk in Hk'. injection Hk' as <- <- <-.
  destruct (wf_conv _ W _ _ _ _ _ Hc Hk ltac:(done)) as (Hv & ND & Hus).
  assert (Sub : forall e, e ∈ List.filter f cb -> e ∈ cb).
  { intros e He. by apply list_elem_of_In, List.filter_In in He as [?%list_elem_of_In _]. }
  split.
  - apply wf_set_conv; [done|done|done|by apply nodup_filter|].
    intros u (e & -> & He%Sub)%list_elem_of_fmap. apply Hus, list_elem_of_fmap. by exists e.
  - eexists _, ce, s, _. split; [apply lookup_insert_eq|]. split; [done|]. split; [done|].
    split; [by apply sorted_filter|]. intros k u x Hin%Sub. by apply Hme.
Qed.

(** The entry [(old, u)] of the map is that of a chat buddy with its own [kid]. *)
Definition own_kid (c : cid) (old : kid) (u : uid) (w : world) : Prop :=
  exists x y ce, h_cus (w_heap w) !! u = Some x /\ cu_chan x = c
    /\ h_nicks (w_heap w) !! cu_nick x = Some y /\ nk_kind y = KChatBuddy old ce.

Lemma wp_renameBuddy c me old u k ch ce s cb w :
  ready c me w -> h_chans (w_heap w) !! c = Some ch -> ch_kind ch = KConversation ce (Some s) cb ->
  (old, u) ∈ cb -> own_kid c old u w -> safe (renameBuddy c u k) (fun _ => ready c me) w.
Proof.
  intros R Hc Hk Hin (x & y & e & Hx & Hxc & Hy & Ky). assert (W := rd_wf _ _ _ R).
  destruct (wf_conv _ W _ _ _ _ _ Hc Hk ltac:(done)) as (_ & ND & _).
  assert (Hun : cu_nick x <> i_user (w_irc w)).
  { intros E. destruct (wf_user _ W) as (z & ? & ? & ? & Hz & Kz). rewrite <- E in Hz. congruence. }
  unfold renameBuddy. apply wp_bind. eapply wp_get_cu; [done|]. apply wp_bind. eapply wp_get_nick; [done|].
  rewrite Ky. apply wp_bind, wp_ask, wp_bind, wp_free_name. intros nm Hnm. apply wp_bind.
  set (named := fun (_ : unit) w1 => ready c me w1 /\ h_chans (w_heap w1) = h_chans (w_heap w)
     /\ h_cus (w_heap w1) = h_cus (w_heap w) /\ i_user (w_irc w1) = i_user (w_irc w)
     /\ exists s, h_nicks (w_heap w1) !! cu_nick x = Some (with_name y s)).
  eapply (wp_mono _ named); [| |done].
  { apply wp_when; intros _.
    2:{ split; [done|]. do 3 (split; [done|]). exists (nk_name y). by destruct y. }
    apply wp_bind, wp_bind, wp_get, wp_ret, wp_bind, safe_mkmsg. intros l. destruct w as [h i o].
    eapply (calm_bind_at (World h i o)); [done|eapply calm_send; [by eapply user_alive|done|done|done| |]|].
    { apply alive_nick. by rewrite Hy. } { by apply alive_none. }
    intros ? w1 _ W1 Hh1 Hi1. cbn in *. eapply wp_mono; [eapply (wp_renameNick _ y); [done|by rewrite Hh1]| |done].
    intros ? w2 E. assert (R2 : ready c me w2).
    { eapply ready_same; [exact R|apply E|..].
      - by rewrite (en_chans _ _ _ _ _ E), Hh1.
      - by rewrite (en_cus _ _ _ _ _ E), Hh1.
      - by rewrite (en_user _ _ _ _ _ E), Hi1.
      - intros j Hj. apply (en_heap _ _ _ _ _ E). by rewrite Hh1. }
    split; [done|]. rewrite (en_chans _ _ _ _ _ E), (en_cus _ _ _ _ _ E), (en_user _ _ _ _ _ E), Hh1, Hi1.
    do 3 (split; [done|]). exists nm. rewrite (en_nicks _ _ _ _ _ E). apply lookup_insert_eq. }
  intros ? w1 (R1 & Ec & Eu & Ei & nm' & Hy1). apply wp_bind.
  eapply wp_up_cbuddies; [by rewrite Ec|done|]. rewrite <- Ec in Hc.
  assert (R2 := ready_filter c me (fun '(k', _) => negb (k' =? old)%nat) ch ce s cb w1 R1 Hc Hk).
  set (w2 := set_kind _ _ _ _) in *. apply wp_bind. eapply wp_get_nick; [exact Hy1|]. apply wp_bind, wp_put.
  set (w3 := on_heap _ _). assert (R3 : ready c me w3).
  { eapply ready_same; [exact R2| |done..].
    eapply (wf_put_kind w2 w3 (cu_nick x) (with_name y nm')
      (with_kind (with_name y nm') (KChatBuddy k e))); [apply R2|exact Hy1|done..| |done|done|done].
    intros E. exfalso. apply Hun. rewrite E. exact Ei. }
  eapply wp_set_cbuddy; [exact R3| |done| |].
  - cbn. rewrite Eu. exact Hx.
  - intros E. exfalso. apply Hun. rewrite E. exact Ei.
  - intros ch' ce' up' cb' k' Hc' Hk' Hin'. exfalso. cbn in Hc'. rewrite lookup_insert_eq in Hc'.
    injection Hc' as <-. injection Hk' as <- <- <-.
    apply list_elem_of_In, List.filter_In in Hin' as [Hin'%list_elem_of_In Hne].
    apply negb_true_iff, Nat.eqb_neq in Hne. apply Hne.
    apply list_elem_of_lookup in Hin as [i Hi]. apply list_elem_of_lookup in Hin' as [j Hj].
    assert (i = j); [|congruence]. apply (NoDup_lookup cb.*2 i j u ND); by rewrite list_lookup_fmap, ?Hi, ?Hj.
Qed.
End Chat.
End ImWf.
