(* ===== verification/ImProps.v ===== *)
(** What the callbacks of im/conversation.cpp and im/buddy.cpp do to a well-formed
    session: opening and closing channels and conversations, the users of a chat,
    the messages and their delivery, the nodes of the buddy list. *)

From S2P Require Import Prelude Util Message Log MarkupIn World Dcc Nick Demo Logic Channel Registry Members Kinds Irc Cmds CmdsChannels CmdsAccounts Calm Queries Dispatch Safety Talk Session Closing ImLayer ImConv ImSafety.
Import W Obj Names Send Chan Reg Kinds Irc CmdsA Wf View Leave Join Closing ImNick ImConv ImWf.

Module ImP.
Section Open.
Context {env : ImEnv}.

(** ** The channel of a chat *)

Lemma free_chan_at (i : gmap string cid) k : forall fuel s, (k < fuel)%nat ->
  i !! (s +:+ underscores k) = None ->
  (forall j, (j < k)%nat -> is_Some (i !! (s +:+ underscores j))) ->
  free_chan_from fuel i s = Some (s +:+ underscores k).
Proof.
  induction k as [|k IH]; intros [|fuel] s Hk Hf Ht; try lia; cbn [free_chan_from].
  - cbn [underscores] in *. rewrite app_nil_s in *. by rewrite Hf.
  - destruct (Ht 0%nat ltac:(lia)) as [c H0]. cbn [underscores] in H0. rewrite app_nil_s in H0. rewrite H0.
    rewrite IH, underscores_snoc; [done|lia|by rewrite underscores_snoc|].
    intros j Hj. rewrite underscores_snoc. apply Ht. lia.
Qed.
Lemma free_chan_found (i : gmap string cid) s :
  exists k, free_chan_from (S (size i)) i s = Some (s +:+ underscores k)
    /\ i !! (s +:+ underscores k) = None.
Proof.
  assert (Hin : forall s, s ∈ (map_to_list i).*1 <-> is_Some (i !! s)).
  { intros t. rewrite list_elem_of_fmap. split.
    - intros ([t' c] & -> & H%elem_of_map_to_list). by exists c.
    - intros [c H]. exists (t, c). split; [done|by apply elem_of_map_to_list]. }
  destruct (first_free id (map_to_list i).*1 s ltac:(done)) as (k & Hk & Hf & Ht).
  rewrite length_fmap, length_map_to_list in Hk. unfold id in *. rewrite Hin in Hf.
  assert (Hn : i !! (s +:+ underscores k) = None) by by apply eq_None_not_Some.
  exists k. split; [|done]. apply free_chan_at; [lia|done|]. intros j Hj. by apply Hin, Ht.
Qed.

Lemma wf_put_chname w c ch s :
  wf w -> h_chans (w_heap w) !! c = Some ch -> (forall k, i_channels (w_irc w) !! k <> Some c) ->
  wf (on_heap (up_h_chans (insert c (with_chname ch s))) w).
Proof.
  intros W Hc Hno. set (w1 := on_heap _ w).
  assert (Hv : view_of (w_heap w1) = view_of (w_heap w)).
  { unfold view_of. cbn. f_equal. rewrite fmap_insert. apply insert_id. by rewrite lookup_fmap, Hc. }
  split; rewrite ?Hv; cbn; try apply W.
  - intros j Hlt. destruct (wf_fresh _ W j Hlt) as (H1 & H2 & H3).
    rewrite lookup_insert_ne by congruence. done.
  - intros c' ch' ce up cb [[<- <-]|[_ H]]%lookup_insert_cases Hk HX;
      [exact (wf_conv _ W _ ch ce up cb Hc Hk HX)|by eapply (wf_conv _ W)].
  - intros k c' Hk. destruct (wf_ctable _ W _ _ Hk) as (z & Hz & Hnm). exists z. split; [|done].
    rewrite lookup_insert_ne; [done|]. intros ->. by apply (Hno k).
Qed.
Lemma wf_ctable_insert w c ch :
  wf w -> h_chans (w_heap w) !! c = Some ch -> wf (on_irc (up_i_channels (insert (ch_name ch) c)) w).
Proof.
  intros W Hx. split; try apply W. cbn. intros k n' H.
  apply lookup_insert_Some in H as [[<- <-]|[_ H]]; [by exists ch|by apply (wf_ctable _ W)].
Qed.

(** [new ConversationChannel]: the channel of the conversation [v], at a fresh address. *)
Lemma wp_new_channel v (Q : cid -> world -> Prop) w :
  wf w ->
  (forall ch w1, wf w1 -> w_heap w1 = w_heap (fresh_chan ch w) -> w_irc w1 = w_irc w -> users ch = [] ->
     ch_name ch = v_channame (o_trace (w_io w)) v -> Q (h_next (w_heap w)) w1) ->
  safe (new_ConversationChannel v) Q w.
Proof.
  intros W HQ. unfold new_ConversationChannel. do 3 apply wp_bind, wp_ask. apply wp_bind.
  unfold getServer. apply wp_bind, wp_get, wp_ret. set (nm := a_servername _ _). apply wp_bind.
  set (made := fun (up : option sid) w1 => w1 = w). eapply (wp_mono _ made _ (fun _ _ => False)); [| |done].
  - destruct (i_servers (w_irc w) !! nm) as [s|] eqn:Es; [|by apply wp_ret].
    destruct (wf_stable _ W _ _ Es) as (x & Hx & _). apply wp_bind. eapply wp_get_server; [done|].
    by apply wp_ret.
  - intros up w1 ->. do 2 apply wp_bind; apply wp_get; apply wp_bind, wp_put, wp_ret.
    apply wp_bind, wp_put, wp_ret.
    set (ch := Channel _ _ _ _). apply (HQ ch (fresh_chan ch w)); [|done..].
    apply wf_new_chan; [done|done|]. intros ce up' cb [= <- <- <-]. by split.
Qed.

Lemma wp_addChannel c ch w :
  wf w -> h_chans (w_heap w) !! c = Some ch ->
  safe (addChannel c) (fun _ w' => wf w' /\ w_heap w' = w_heap w
    /\ w_irc w' = up_i_channels (insert (ch_name ch) c) (w_irc w)) w.
Proof.
  intros W Hc. unfold addChannel. apply wp_bind. eapply wp_get_chan; [done|]. apply wp_bind, wp_get.
  destruct w as [h i o]. eapply (calm_bind_at (World h i o)); [done|apply calm_when; intros _; by eapply calm_b_log|].
  intros ? w1 _ W1 Hh1 Hi1. apply wp_put. cbn in *. rewrite Hi1. split; [|done].
  apply wf_ctable_insert; [done|by rewrite Hh1].
Qed.

(** [conv_type] as the callbacks see it. *)
Lemma wp_assert_type v t (Q : unit -> world -> Prop) w :
  v_type (o_trace (w_io w)) v = t -> t <> TypeOther -> Q tt w -> safe (assert_type v t) Q w.
Proof. intros Hv Ht HQ. unfold assert_type. apply wp_bind, wp_ask. rewrite Hv. by destruct t. Qed.

Definition opened (v : vid) (w w' : world) : Prop :=
  wf w' /\ exists c k, let nm := v_channame (o_trace (w_io w)) v +:+ underscores k in
    h_chans (w_heap w) !! c = None /\ i_channels (w_irc w) !! nm = None
    /\ i_channels (w_irc w') = <[nm := c]> (i_channels (w_irc w))
    /\ i_users (w_irc w') = i_users (w_irc w)
    /\ exists u x, h_cus (w_heap w') !! u = Some x /\ cu_nick x = i_user (w_irc w') /\ cu_chan x = c.
(** C15: when libpurple opens a chat, [createChannel] puts a channel at a fresh
    address into the table under the name of the chat, followed by as many
    underscores as it takes to be new, leaves the other entries alone, and the user
    is on it; the search for the name ends. *)
Theorem createChannel_opens v w :
  wf w -> v_type (o_trace (w_io w)) v = TypeChat -> safe (createChannel v) (fun _ => opened v w) w.
Proof.
  intros W Hv. unfold createChannel. apply wp_bind, wp_assert_type; [done|done|]. apply wp_bind.
  apply wp_new_channel; [done|]. intros ch w1 W1 Hh1 Hi1 Hus Hnm. set (c := h_next (w_heap w)) in *.
  apply wp_bind, wp_put, wp_bind. set (w2 := on_io _ w1).
  assert (Hc2 : h_chans (w_heap w2) !! c = Some ch) by (cbn; rewrite Hh1; apply lookup_insert_eq).
  eapply wp_get_chan; [exact Hc2|]. apply wp_bind, wp_get, wp_bind.
  assert (W2 : wf w2) by (by eapply (wf_calm w1)). assert (Hi2 : w_irc w2 = w_irc w) by exact Hi1.
  destruct (free_chan_found (i_channels (w_irc w2)) (ch_name ch)) as (k & -> & Hk). apply wp_ret, wp_bind, wp_put.
  set (nm := ch_name ch +:+ underscores k) in *. set (w3 := on_heap _ w2).
  destruct (wf_fresh _ W c ltac:(unfold c; lia)) as (_ & Hfree & _).
  assert (W3 : wf w3).
  { apply wf_put_chname; [done|done|]. intros j Hj. rewrite Hi2 in Hj.
    destruct (wf_ctable _ W _ _ Hj) as (z & Hz & _). congruence. }
  assert (Hc3 : h_chans (w_heap w3) !! c = Some (with_chname ch nm)) by apply lookup_insert_eq.
  apply wp_bind. eapply wp_mono; [by eapply wp_addChannel| |done]. intros ? w4 (W4 & Hh4 & Hi4).
  destruct (wf_user _ W4) as (y & p & l & b & Hy & _).
  apply wp_bind, wp_bind, wp_get, wp_ret, wp_bind.
  eapply wp_mono; [eapply (wp_join_came _ c 0 (with_chname ch nm)); [done|by rewrite Hh4|exact Hy]| |done].
  intros cu w5 C. apply wp_bind, wp_ask. destruct w5 as [h5 i5 o5].
  eapply (calm_at (World h5 i5 o5)); [eapply calm_mapM_|].
  - intros j _. eapply calm_bind; [apply calm_ask|]. intros f _. eapply (calm_b_log h5 i5 o5), C.
  - intros ? w6 _ Hh6 Hi6. split; [eapply wf_calm; [apply C|done|done]|]. exists c, k. rewrite <- Hnm.
    pose proof (ca_irc _ _ _ _ _ _ C) as Hi5. cbn in Hi5. rewrite Hi6. cbn. rewrite Hi5, Hi4. cbn.
    rewrite Hi2 in Hk. rewrite Hi1. do 4 (split; [done|]).
    destruct (ca_on _ _ _ _ _ _ C) as (x & Hx & En & Ec & _). exists cu, x. rewrite Hh6.
    split; [done|]. split; [|done]. rewrite En, Hi4. cbn. by rewrite Hi1.
Qed.

(** C14: when libpurple destroys a chat, the channel and its users are gone, the
    nicks of its chat buddies are deleted and no other nick is, the table has every
    other channel, and the session is well-formed: no table leads to what is gone. *)
Theorem destroyChannel_closes v c nm w :
  wf w -> v_type (o_trace (w_io w)) v = TypeChat -> v_chan (o_trace (w_io w)) v = Some c ->
  i_channels (w_irc w) !! nm = Some c -> chatbuddies_listed c w ->
  safe (destroyChannel v) (fun _ => closed nm c w) w.
Proof.
  intros W Hv Hc Hn HL. unfold destroyChannel. apply wp_bind, wp_assert_type; [done|done|].
  apply wp_bind, wp_ask. rewrite Hc. destruct (wf_ctable _ W _ _ Hn) as (ch & Hch & Hnm).
  apply wp_bind. eapply wp_get_chan; [done|]. rewrite Hnm. apply wp_bind.
  eapply wp_mono; [by apply wp_removeChannel| |done]. intros ? w1 (W1 & H). apply wp_put.
  split; [by eapply wf_calm|done].
Qed.
End Open.

(** ** Messages *)

Section Messages.
Context {env : ImEnv}.

Lemma wp_send_user m w :
  wf w -> msg_alive (w_heap w) m -> safe (send (i_user (w_irc w)) m) (fun _ => io_only w) w.
Proof.
  intros W Hm. destruct (wf_user _ W) as (x & p & l & b & Hx & Hk). unfold send. apply wp_bind.
  eapply wp_get_nick; [done|]. rewrite Hk. apply wp_user_send; [done|by intros|done].
Qed.
Lemma wp_mk_send_user cmd s args w :
  wf w -> alive_opt (w_heap w) s ->
  safe (let! m := mkmsg cmd s (Some (ENick (i_user (w_irc w)))) args; send (i_user (w_irc w)) m)
    (fun _ => io_only w) w.
Proof.
  intros W Hs. apply wp_bind, safe_mkmsg. intros l. apply wp_send_user; [done|].
  split; cbn; intros e He.
  - destruct s as [e'|]; [|done]. injection He as <-. by apply alive_long, Hs.
  - injection He as <-. cbn. destruct (wf_user _ W) as (x & ? & ? & ? & -> & _). done.
Qed.

Lemma wf_eta w : wf w -> wf (World (w_heap w) (w_irc w) (w_io w)).
Proof. by destruct w. Qed.

(** What stays of a nick when a message is told to the user. *)
Definition told (n : nid) (w w' : world) : Prop :=
  wf w' /\ i_user (w_irc w') = i_user (w_irc w) /\ is_Some (h_nicks (w_heap w') !! n).
Lemma told_io n w w1 w' : wf w1 -> i_user (w_irc w1) = i_user (w_irc w) ->
  is_Some (h_nicks (w_heap w1) !! n) -> io_only w1 w' -> told n w w'.
Proof.
  intros W1 Hu Hn (Hh & Hi & _). split; [by eapply wf_calm|]. by rewrite Hh, Hi.
Qed.

Lemma wp_sendMessage n t action w :
  wf w -> is_Some (h_nicks (w_heap w) !! n) ->
  safe (sendMessage n (i_user (w_irc w)) t action) (fun _ => told n w) w.
Proof.
  intros W Hn. assert (C : forall w1, wf w1 -> i_user (w_irc w1) = i_user (w_irc w) ->
    is_Some (h_nicks (w_heap w1) !! n) ->
    safe (convnick_sendMessage n (i_user (w_irc w)) t action) (fun _ => told n w) w1).
  { intros w1 W1 Hu H1. unfold convnick_sendMessage. rewrite <- Hu.
    eapply wp_mono; [apply wp_mk_send_user; [done|by apply alive_nick]| |done].
    intros ? w2 Hio. by eapply told_io. }
  destruct Hn as [x Hx]. unfold sendMessage. apply wp_bind. eapply wp_get_nick; [done|].
  destruct (nk_kind x) as [| |b pub last ce| |] eqn:Ek; try by apply C.
  apply wp_bind, wp_get, wp_bind, wp_put. set (pub' := if _ <? _ then _ else _). set (w1 := on_heap _ w).
  assert (W1 : wf w1).
  { eapply (wf_put_kind w w1 n x (with_kind x (KBuddy b pub' last ce))); [done..| |done|done|done].
    intros ->. destruct (wf_user _ W) as (z & p & l & d & Hz & Hkz). congruence. }
  assert (H1 : is_Some (h_nicks (w_heap w1) !! n)) by (cbn; rewrite lookup_insert_eq; by eexists).
  apply wp_bind, wp_ask.
  eapply (calm_bind_at w1 _ _ _ (fun r => forall c, r = Some c -> is_Some (h_chans (w_heap w1) !! c))); [done| |].
  { destruct pub'; [eapply calm_getStatusChannel, wf_eta, W1|by apply calm_ret]. }
  intros chan w2 Hc W2 Hh2 Hi2. rewrite <- Hh2 in H1, Hc.
  assert (Eu : i_user (w_irc w2) = i_user (w_irc w)) by (by rewrite Hi2).
  destruct chan as [c|]; [|by apply C]. rewrite <- Eu. destruct (wf_user _ W2) as (y & p & l & d & Hy & _).
  apply wp_bind. eapply wp_get_nick; [done|]. apply wp_bind, safe_mkmsg. intros args.
  eapply wp_mono; [apply wp_send_user; [done|]|intros ? w3 Hio; by eapply told_io|done].
  split; cbn; intros e [= <-]; cbn; apply fmap_is_Some; [done|by apply Hc].
Qed.
Lemma wp_tell_lines n action l w :
  wf w -> is_Some (h_nicks (w_heap w) !! n) ->
  safe (mapM_ (fun line => let! u := user; sendMessage n u line action) l) (fun _ => told n w) w.
Proof.
  revert w. induction l as [|t l IH]; intros w W Hn; [done|]. cbn [mapM_].
  apply wp_bind, wp_bind, wp_bind, wp_get, wp_ret.
  eapply wp_mono; [by apply wp_sendMessage| |done]. intros ? w1 (W1 & Hu & Hn1).
  eapply wp_mono; [by apply IH| |done]. intros ? w2 (W2 & Hu2 & Hn2). split; [done|].
  split; [congruence|done].
Qed.

(** *** The sender of a private message *)

Lemma wp_first_nick p l (Q : option nid -> world -> Prop) w :
  (forall k n, (k, n) ∈ l -> is_Some (h_nicks (w_heap w) !! n)) ->
  (forall n x, h_nicks (w_heap w) !! n = Some x -> p x = true -> Q (Some n) w) -> Q None w ->
  safe (first_nick p l) Q w.
Proof.
  intros Hal HS HN. induction l as [|[k n] l IH]; [done|]. cbn [first_nick].
  destruct (Hal k n) as [x Hx]; [left|]. apply wp_bind. eapply wp_get_nick; [done|].
  destruct (p x) eqn:E; [by eapply HS|]. apply IH. intros k' n' H. apply (Hal k'). by right.
Qed.
Lemma table_nick w k n : wf w -> (k, n) ∈ sorted (i_users (w_irc w)) -> is_Some (h_nicks (w_heap w) !! n).
Proof. intros W H%Drop.elem_sorted. by eapply wf_nick_alive. Qed.
Lemma wp_getNick_conv v (Q : option nid -> world -> Prop) w :
  wf w ->
  (forall n x ce, h_nicks (w_heap w) !! n = Some x -> kind_ce (nk_kind x) = Some ce -> conv ce = v ->
     Q (Some n) w) -> Q None w -> safe (getNick_conv v) Q w.
Proof.
  intros W HS HN. unfold getNick_conv. apply wp_bind. unfold users_list. apply wp_bind, wp_get, wp_ret.
  apply wp_first_nick; [|intros n x Hx E|done].
  - intros k n. by apply table_nick.
  - destruct (kind_ce (nk_kind x)) as [ce|] eqn:Ec; [|done]. apply bool_decide_eq_true in E. by eapply HS.
Qed.
Lemma wp_getNick nm b (Q : option nid -> world -> Prop) w :
  wf w -> (forall n x, h_nicks (w_heap w) !! n = Some x -> Q (Some n) w) -> Q None w ->
  safe (getNick nm b) Q w.
Proof.
  intros W HS HN. pose proof (calm_getNick _ _ _ (wf_eta w W) nm b w ltac:(done)) as H.
  revert H. unfold getNick, wp, bind. cbn. intros [H _].
  destruct (find_nick _ _ _) as [n|]; [|done]. destruct (H n eq_refl) as [x Hx]. by eapply HS.
Qed.

(** Only an [UnknownBuddy] must have a conversation. *)
Definition unknown_nick (k : nick_kind) : bool := match k with KUnknownBuddy _ => true | _ => false end.
Lemma wp_put_ce n x ce ce' (Q : unit -> world -> Prop) w :
  wf w -> h_nicks (w_heap w) !! n = Some x -> kind_ce (nk_kind x) = Some ce ->
  (unknown_nick (nk_kind x) = true -> is_Some (conv ce')) ->
  (forall w', wf w' -> w_irc w' = w_irc w -> w_io w' = w_io w ->
     w_heap w' = up_h_nicks (insert n (with_kind x (kind_with_ce (nk_kind x) ce'))) (w_heap w) -> Q tt w') ->
  safe (put_ce (RNick n) ce') Q w.
Proof.
  intros W Hx Hk Hu HQ. unfold put_ce. apply wp_bind. eapply wp_get_nick; [done|]. apply wp_put.
  apply HQ; [|done..].
  eapply (wf_put_kind w _ n x (with_kind x (kind_with_ce (nk_kind x) ce'))); [done..| | |done|done].
  - intros ->. destruct (wf_user _ W) as (z & p & l & d & Hz & Hkz).
    rewrite Hz in Hx. injection Hx as ->. by rewrite Hkz in Hk.
  - intros ce2 E. destruct (nk_kind x); try discriminate. injection E as <-. by apply Hu.
Qed.
Record conversed (n : nid) (x : nick) (c : option vid) (w w' : world) : Prop := {
  cv_wf : wf w';
  cv_irc : w_irc w' = w_irc w;
  cv_nicks : exists ce, conv ce = c
    /\ h_nicks (w_heap w') = <[n := with_kind x (kind_with_ce (nk_kind x) ce)]> (h_nicks (w_heap w)) }.
Lemma conversed_told n x c w w' : conversed n x c w w' -> told n w w'.
Proof.
  intros [W Hi (ce & _ & Hn)]. split; [done|]. rewrite Hi, Hn, lookup_insert_eq. split; [done|by eexists].
Qed.
Lemma wp_setConversation n x ce c w :
  wf w -> h_nicks (w_heap w) !! n = Some x -> kind_ce (nk_kind x) = Some ce ->
  (unknown_nick (nk_kind x) = true -> is_Some c) ->
  safe (setConversation n c) (fun _ => conversed n x c w) w.
Proof.
  intros W Hx Hk Hu. assert (P : forall w1, w_heap w1 = w_heap w -> w_irc w1 = w_irc w ->
    safe (let! ce := get_ce (RNick n); put_ce (RNick n) (CE c (enqueued ce)))
      (fun _ => conversed n x c w) w1).
  { intros w1 Hh Hi. apply wp_bind. eapply (quiet_get_ce n x ce); [by rewrite Hh|done|].
    eapply wp_put_ce; [by eapply wf_calm|by rewrite Hh|done|done|].
    intros w2 W2 Hi2 _ Hh2. split; [done|congruence|]. eexists. split; [|by rewrite Hh2, Hh]. done. }
  unfold setConversation. apply wp_bind. eapply wp_get_nick; [done|].
  destruct (nk_kind x) as [| |b pub last ce'| |] eqn:Ek; [by apply P..| |by apply P|by apply P].
  unfold buddy_setConversation. apply wp_bind. eapply (quiet_get_ce n x ce); [done|by rewrite Ek|].
  apply wp_bind. destruct (conv ce) as [v|]; [|by apply P]. apply wp_bind, wp_ask.
  apply wp_when; intros _; [|by apply P]. apply wp_put. by apply P.
Qed.

Lemma wp_new_UnknownBuddy s v (Q : nid -> world -> Prop) w :
  (forall x, channels x = [] -> nk_server x = s -> nk_kind x = KUnknownBuddy (CE (Some v) []) ->
     Q (h_next (w_heap w)) (fresh_nick x w)) ->
  safe (new_UnknownBuddy (Some s) v) Q w.
Proof.
  intros HQ. unfold new_UnknownBuddy. do 3 apply wp_bind, wp_ask.
  destruct (buddy_names _ _ _) as [[nick ident] host]. apply wp_fresh_nick. by apply HQ.
Qed.

(** The nick [n] may speak for the conversation: it has a [ConvEntity]. *)
Definition speaker (n : nid) (w : world) : Prop :=
  exists x ce, h_nicks (w_heap w) !! n = Some x /\ kind_ce (nk_kind x) = Some ce.

Lemma wp_take_conv n v w :
  wf w -> v_type (o_trace (w_io w)) v = TypeIm -> v_nick (o_trace (w_io w)) v = None -> speaker n w ->
  safe (setNick v (Some n) true;; setConversation n (Some v);; ret (Some n))
    (fun o w' => o = Some n /\ told n w w') w.
Proof.
  intros W Ht Hv (x & ce & Hx & Hk). unfold setNick. apply wp_bind, wp_bind, wp_assert_type; [done|done|].
  apply wp_bind, wp_ask, wp_bind, wp_put. rewrite Hv. apply wp_ret, wp_bind.
  set (w1 := on_io _ w). eapply wp_mono; [eapply (wp_setConversation n x ce _ w1)| |done];
    [by eapply (wf_calm w)|done|done|done|]. intros ? w2 T. apply wp_ret. split; [done|by apply conversed_told in T].
Qed.

(** An unknown sender is a nick of the server of the conversation's account. *)
Definition server_there (v : vid) (w : world) : Prop :=
  is_Some (i_servers (w_irc w) !! a_servername (o_trace (w_io w)) (v_account (o_trace (w_io w)) v)).

Lemma wp_recv_nick v from w :
  wf w -> v_type (o_trace (w_io w)) v = TypeIm ->
  (forall n, v_nick (o_trace (w_io w)) v = Some n -> speaker n w) -> server_there v w ->
  safe (recv_nick v from) (fun o w' => wf w' /\ i_user (w_irc w') = i_user (w_irc w)
    /\ forall n, o = Some n -> is_Some (h_nicks (w_heap w') !! n)) w.
Proof.
  intros W Ht Hn [s Hs]. unfold recv_nick. apply wp_bind, wp_ask.
  destruct (v_nick _ v) as [n|] eqn:Ev.
  { destruct (Hn n eq_refl) as (x & ce & Hx & _). apply wp_ret. split; [done|]. split; [done|].
    intros ? [= <-]. by eexists. }
  assert (T : forall n w1, wf w1 -> w_io w1 = w_io w -> i_user (w_irc w1) = i_user (w_irc w) -> speaker n w1 ->
    safe (setNick v (Some n) true;; setConversation n (Some v);; ret (Some n))
      (fun o w' => wf w' /\ i_user (w_irc w') = i_user (w_irc w)
         /\ forall n, o = Some n -> is_Some (h_nicks (w_heap w') !! n)) w1).
  { intros n w1 W1 Ho Hu Hsp. eapply wp_mono; [apply wp_take_conv; [done|by rewrite Ho..|done]| |done].
    intros o w2 [-> (W2 & Hu2 & Hn2)]. split; [done|]. split; [congruence|]. by intros ? [= <-]. }
  apply wp_bind, wp_getNick_conv; [done| |].
  { intros n x ce Hx Hk _. apply wp_bind, wp_ret, T; [done..|by exists x, ce]. }
  assert (U : safe (let! accept := ask pref_accept_nobuddies;
     if negb accept then ret None
     else let! ac := ask v_account; let! sn := ask a_servername;
          let! s := getServer (sn (ac v)); let! n := new_UnknownBuddy s v; enter n;; ret (Some n))
    (fun o w1 => wf w1 /\ w_io w1 = w_io w /\ i_user (w_irc w1) = i_user (w_irc w)
       /\ forall n, o = Some n -> speaker n w1) w).
  { apply wp_bind, wp_ask. destruct (negb _); [by apply wp_ret|]. do 2 apply wp_bind, wp_ask.
    apply wp_bind. unfold getServer. apply wp_bind, wp_get, wp_ret. rewrite Hs.
    apply wp_bind, wp_new_UnknownBuddy. intros x Hch Hsv Hk.
    destruct (wf_stable _ W _ _ Hs) as (sv & Hsv' & _). apply wp_bind.
    eapply wp_mono; [eapply (wp_enter _ x)| |done].
    - apply wf_new_nick; [done|done|by rewrite Hsv, Hsv'|]. intros ce E. rewrite Hk in E. by injection E as <-.
    - apply lookup_insert_eq.
    - intros k. exact (fresh_unnamed w k W).
    - intros ? w1 (Ho & nm & E & _). apply wp_ret. split; [apply E|]. split; [by rewrite Ho|].
      split; [by rewrite (en_user _ _ _ _ _ E)|]. intros n [= <-]. exists (with_name x nm), (CE (Some v) []).
      rewrite (en_nicks _ _ _ _ _ E), lookup_insert_eq. cbn. by rewrite Hk. }
  set (G := fun (o : option nid) w1 => wf w1 /\ w_io w1 = w_io w /\ i_user (w_irc w1) = i_user (w_irc w)
     /\ forall n, o = Some n -> speaker n w1) in U.
  apply wp_bind. eapply (wp_mono _ G _ (fun _ _ => True)); [| |done].
  - apply wp_bind, wp_getNick; [done| |by apply wp_bind, wp_ret].
    intros n x Hx. apply wp_bind. unfold as_buddy. apply wp_bind. eapply wp_get_nick; [done|]. apply wp_ret.
    destruct (nk_kind x) as [| |b pub last ce| |] eqn:Ek; try exact U. apply wp_ret.
    split; [done|]. do 2 (split; [done|]). intros ? [= <-]. exists x, ce. by rewrite Ek.
  - intros [n|] w1 (W1 & Ho & Hu & Hsp); [by apply T; [..|apply Hsp]|]. by apply wp_ret.
Qed.

(** *** The sender of a message in a chat *)

(** A line may be given to the nicks of the channel. *)
Definition line_ok (action : bool) (line : string) : Prop :=
  text_ok (if action then action_text line else line).

Lemma addArg_first {E} s (m : Msg.message E) : Msg.args m = [] -> Msg.addArg s m = Prelude.Ret (Msg.with_args m [s]).
Proof. intros H. unfold Msg.addArg. by rewrite H. Qed.
Lemma chat_chat_line w0 c ch cu from action line :
  wf w0 -> h_chans (w_heap w0) !! c = Some ch -> (forall u, cu = Some u -> alive (w_heap w0) (ECu u)) ->
  line_ok action line -> chat w0 (chat_line c cu from action line).
Proof.
  intros W0 Hc Hcu Ht w W T. unfold chat_line. rewrite addArg_first by (by destruct cu).
  apply wp_bind. unfold lift, wp at 1. eapply (chat_broadcast w0 c ch); [done|done| |exact Ht|done|done].
  destruct cu as [u|]; split; cbn; try done; intros e [= <-]; [by apply Hcu|cbn; by rewrite Hc..].
Qed.
Lemma wp_chat_lines c ch cu from action l w :
  wf w -> h_chans (w_heap w) !! c = Some ch -> (forall u, cu = Some u -> alive (w_heap w) (ECu u)) ->
  Forall (line_ok action) l ->
  safe (mapM_ (chat_line c cu from action) l) (fun _ w' => wf w' /\ talk w w') w.
Proof.
  intros W Hc Hcu Hl. apply (chat_mapM_ w); [|done|done]. intros t Ht. rewrite Forall_forall in Hl.
  by eapply chat_chat_line; [..|apply Hl].
Qed.

(** The chat [v] has a channel of conversations. *)
Definition chat_chan (v : vid) (w : world) : Prop :=
  forall c, v_chan (o_trace (w_io w)) v = Some c ->
    exists ch ce up cb, h_chans (w_heap w) !! c = Some ch /\ ch_kind ch = KConversation ce up cb.
Definition im_ready (v : vid) (w : world) : Prop :=
  (forall n, v_nick (o_trace (w_io w)) v = Some n -> speaker n w) /\ server_there v w.

(** *** A stranger *)

(** Nobody of the session speaks for the private conversation [v] or is called [from],
    and messages of strangers are accepted. *)
Definition stranger (v : vid) (from : string) (w : world) : Prop :=
  v_nick (o_trace (w_io w)) v = None
  /\ (forall k n x ce, i_users (w_irc w) !! k = Some n -> h_nicks (w_heap w) !! n = Some x ->
        kind_ce (nk_kind x) = Some ce -> conv ce <> Some v)
  /\ (forall k n, i_users (w_irc w) !! k = Some n -> Case.strlower k <> Case.strlower from)
  /\ pref_accept_nobuddies (o_trace (w_io w)) = true.
(** A nick that was not there is in the table, under a name that was free: it is an
    [UnknownBuddy] of the server of the account, which has the conversation. *)
Definition introduced (v : vid) (n : nid) (w w' : world) : Prop :=
  exists x ce, h_nicks (w_heap w) !! n = None /\ h_nicks (w_heap w') !! n = Some x
    /\ i_users (w_irc w) !! nk_name x = None /\ i_users (w_irc w') !! nk_name x = Some n
    /\ nk_kind x = KUnknownBuddy ce /\ conv ce = Some v
    /\ i_servers (w_irc w) !! a_servername (o_trace (w_io w)) (v_account (o_trace (w_io w)) v) = Some (nk_server x).

Lemma wp_first_nick_none p l (Q : option nid -> world -> Prop) w :
  (forall k n, (k, n) ∈ l -> exists x, h_nicks (w_heap w) !! n = Some x /\ p x = false) -> Q None w ->
  safe (first_nick p l) Q w.
Proof.
  intros Hal HN. induction l as [|[k n] l IH]; [done|]. cbn [first_nick].
  destruct (Hal k n) as (x & Hx & E); [left|]. apply wp_bind. eapply wp_get_nick; [done|].
  rewrite E. apply IH. intros k' n' H. apply (Hal k'). by right.
Qed.
Lemma wp_recv_stranger v from w :
  wf w -> v_type (o_trace (w_io w)) v = TypeIm -> stranger v from w -> server_there v w ->
  safe (recv_nick v from) (fun o w' => wf w' /\ exists n, o = Some n /\ introduced v n w w') w.
Proof.
  intros W Ht (Hv & Hc & Hf & Ha) [s Hs]. unfold recv_nick. apply wp_bind, wp_ask.
  rewrite Hv. apply wp_bind. unfold getNick_conv. apply wp_bind. unfold users_list. apply wp_bind, wp_get, wp_ret.
  apply wp_first_nick_none.
  { intros k n H. destruct (table_nick w k n W H) as [x Hx]. exists x. split; [done|].
    apply Drop.elem_sorted in H. destruct (kind_ce (nk_kind x)) as [ce|] eqn:Ek; [|done].
    apply bool_decide_eq_false. by eapply Hc. }
  apply wp_bind, wp_bind. unfold getNick, users_list. apply wp_bind, wp_bind, wp_get, wp_ret, wp_ret.
  assert (E : find_nick from false (sorted (i_users (w_irc w))) = None).
  { unfold find_nick. destruct (List.find _ _) as [[k n]|] eqn:E; [|done]. exfalso.
    apply List.find_some in E as [Hin E%String.eqb_eq]. apply (Hf k n); [|done].
    by apply Drop.elem_sorted, list_elem_of_In. }
  rewrite E. apply wp_bind, wp_ret. apply wp_bind, wp_ask. rewrite Ha. cbn [negb]. do 2 apply wp_bind, wp_ask.
  apply wp_bind. unfold getServer. apply wp_bind, wp_get, wp_ret. rewrite Hs.
  apply wp_bind, wp_new_UnknownBuddy. intros x Hch Hsv Hk.
  destruct (wf_stable _ W _ _ Hs) as (sv & Hsv' & _). apply wp_bind.
  eapply wp_mono; [eapply (wp_enter _ x)| |done].
  - apply wf_new_nick; [done|done|by rewrite Hsv, Hsv'|]. intros ce E'. rewrite Hk in E'. by injection E' as <-.
  - apply lookup_insert_eq.
  - intros k. exact (fresh_unnamed w k W).
  - intros ? w1 (Ho & nm & En & Hnm). apply wp_ret.
    assert (Hx1 : h_nicks (w_heap w1) !! h_next (w_heap w) = Some (with_name x nm)).
    { rewrite (en_nicks _ _ _ _ _ En). apply lookup_insert_eq. }
    apply wp_bind. unfold setNick. apply wp_bind, wp_assert_type; [by rewrite Ho|done|].
    apply wp_bind, wp_ask, wp_bind, wp_put. assert (Hv1 : v_nick (o_trace (w_io w1)) v = None) by (by rewrite Ho). rewrite Hv1. apply wp_ret, wp_bind.
    set (w2 := on_io _ w1). eapply wp_mono; [apply (wp_setConversation _ (with_name x nm) (CE (Some v) []) (Some v) w2)| |done].
    + eapply (wf_calm w1); [apply En|done..].
    + exact Hx1.
    + cbn. by rewrite Hk.
    + done.
    + intros ? w3 [W3 Hi3 (ce & Hce & Hn3)]. apply wp_ret. split; [done|]. eexists. split; [done|].
      exists (with_kind (with_name x nm) (kind_with_ce (nk_kind (with_name x nm)) ce)), ce.
      destruct (wf_fresh _ W (h_next (w_heap w)) ltac:(lia)) as (Hno & _).
      split; [done|]. split; [rewrite Hn3; apply lookup_insert_eq|]. cbn. split; [done|].
      split; [rewrite Hi3; apply En|]. rewrite Hk. split; [done|]. split; [done|]. by rewrite Hsv.
Qed.
(** What is told by an [UnknownBuddy] changes no object. *)
Lemma wp_tell_unknown n x ce action l w0 w :
  wf w -> h_nicks (w_heap w) !! n = Some x -> nk_kind x = KUnknownBuddy ce ->
  w_heap w = w_heap w0 -> w_irc w = w_irc w0 ->
  safe (mapM_ (fun line => let! u := user; sendMessage n u line action) l)
    (fun _ w' => w_heap w' = w_heap w0 /\ w_irc w' = w_irc w0) w.
Proof.
  revert w. induction l as [|t l IH]; intros w W Hx Hk Hh Hi; [done|]. cbn [mapM_].
  apply wp_bind, wp_bind, wp_bind, wp_get, wp_ret. unfold sendMessage. apply wp_bind. eapply wp_get_nick; [done|].
  rewrite Hk. unfold convnick_sendMessage. eapply wp_mono; [apply wp_mk_send_user; [done|]| |done].
  - apply alive_nick. by eexists.
  - intros ? w1 (Hh1 & Hi1 & _). apply IH; [by eapply wf_calm|by rewrite Hh1|done|congruence|congruence].
Qed.
Lemma wp_and {A} (m : M A) (P : Prop) (Q R : A -> world -> Prop) E w :
  wp m Q E w -> (P -> wp m R E w) -> wp m (fun a w' => Q a w' /\ (P -> R a w')) E w.
Proof. unfold wp. destruct (m w); [|done..]. auto. Qed.

Lemma recv_wf v from text action w :
  wf w ->
  match v_type (o_trace (w_io w)) v with
  | TypeIm => im_ready v w
  | TypeChat => chat_chan v w /\ Forall (line_ok action) (Tok.tokens newlines text)
  | TypeOther => True
  end -> safe (recvMessage v from text action) (fun _ w' => wf w') w.
Proof.
  intros W H. unfold recvMessage. apply wp_bind, wp_ask. destruct (v_type _ v) eqn:Et; [| |by apply wp_ret].
  - destruct H as [Hn Hs]. apply wp_bind. eapply wp_mono; [by apply wp_recv_nick| |done].
    intros [n|] w1 (W1 & _ & Hal); [|by apply wp_ret].
    eapply wp_mono; [apply wp_tell_lines; [done|by apply Hal]| |done]. by intros ? w2 (? & _).
  - destruct H as [Hch Hl]. apply wp_bind, wp_ask. destruct (v_chan _ v) as [c|] eqn:Ec.
    2:{ apply wp_bind, wp_ask. by apply good_b_log. }
    destruct (Hch c Ec) as (ch & ce & up & cb & Hc & Hk).
    destruct (wf_conv _ W _ _ _ _ _ Hc Hk ltac:(done)) as (_ & _ & Hus). apply wp_bind.
    eapply wp_getChanUser; [done|done| |].
    + intros k u Hin _. apply wp_bind, wp_ret.
      eapply wp_mono; [eapply wp_chat_lines; [done|done| |done]|by intros ? w' []|done].
      intros ? [= <-]. destruct (chan_users _ c ch u (wf_links _ W) Hc) as (x & y & Hx & _ & Hy & _).
      { apply Hus, list_elem_of_fmap. by exists (k, u). }
      exists x. by rewrite Hy.
    + intros _. apply wp_bind, wp_free_name. intros s _.
      eapply wp_mono; [by eapply wp_chat_lines|by intros ? w' []|done].
Qed.

(** C8: [recvMessage] keeps the session well-formed and dereferences nothing that
    is gone, for a private message of any text and for a message of a chat whose
    lines have no malformed DCC request (a nick that is not there, or a user of the
    channel, or somebody unknown may say it); and when a stranger speaks in a private
    conversation a nick is made for him, under a free name, with the conversation
    and on the server of the account. *)
Theorem recvMessage_safe v from text action w :
  wf w ->
  match v_type (o_trace (w_io w)) v with
  | TypeIm => im_ready v w
  | TypeChat => chat_chan v w /\ Forall (line_ok action) (Tok.tokens newlines text)
  | TypeOther => True
  end ->
  safe (recvMessage v from text action)
    (fun _ w' => wf w' /\ (v_type (o_trace (w_io w)) v = TypeIm /\ stranger v from w ->
                           exists n, introduced v n w w')) w.
Proof.
  intros W H. apply wp_and; [by apply recv_wf|]. intros [Et Hs]. rewrite Et in H. destruct H as [_ Hsv].
  unfold recvMessage. apply wp_bind, wp_ask. rewrite Et. apply wp_bind.
  eapply wp_mono; [by apply wp_recv_stranger| |done].
  intros ? w1 (W1 & n & -> & I). assert (I' := I). destruct I' as (x & ce & _ & Hx & _ & _ & Hk & _).
  eapply wp_mono; [by eapply (wp_tell_unknown n x ce action _ w1)| |done].
  intros ? w2 [Hh Hi]. exists n. unfold introduced. by rewrite Hh, Hi.
Qed.

(** *** The end of a conversation *)

(** The unknown buddy of a conversation is the nick libpurple has for it, and it is
    in the table under its own name. *)
Definition unknown_owned (v : vid) (w : world) : Prop :=
  forall n x ce, h_nicks (w_heap w) !! n = Some x -> nk_kind x = KUnknownBuddy ce -> conv ce = Some v ->
    v_nick (o_trace (w_io w)) v = Some n /\ i_users (w_irc w) !! nk_name x = Some n.

Lemma wp_setNick_none v w :
  wf w -> v_type (o_trace (w_io w)) v = TypeIm ->
  (forall n, v_nick (o_trace (w_io w)) v = Some n ->
     exists x ce, h_nicks (w_heap w) !! n = Some x /\ kind_ce (nk_kind x) = Some ce /\ conv ce = Some v) ->
  unknown_owned v w ->
  safe (setNick v None true) (fun _ w' => wf w' /\
    forall n x ce, h_nicks (w_heap w') !! n = Some x -> nk_kind x = KUnknownBuddy ce -> conv ce <> Some v) w.
Proof.
  intros W Ht Hn Hun. unfold setNick. apply wp_bind, wp_assert_type; [done|done|].
  apply wp_bind, wp_ask, wp_bind, wp_put. set (w1 := on_io _ w). assert (W1 : wf w1) by (by eapply (wf_calm w)).
  destruct (v_nick _ v) as [l|] eqn:Ev.
  2:{ split; [done|]. intros n x ce Hx Hk Hv. by destruct (Hun n x ce Hx Hk Hv) as [? _]; congruence. }
  destruct (Hn l eq_refl) as (x & ce & Hx & Hce & Hv). rewrite bool_decide_false by done.
  apply wp_bind. eapply (wp_get_nick l x); [exact Hx|].
  assert (Only : forall n y e, h_nicks (w_heap w) !! n = Some y -> nk_kind y = KUnknownBuddy e ->
    conv e = Some v -> n = l) by (intros n y e Hy Hk He; destruct (Hun n y e Hy Hk He) as [? _]; congruence).
  assert (S : unknown_nick (nk_kind x) = false ->
    safe (setConversation l None) (fun _ w' => wf w' /\ forall n y e, h_nicks (w_heap w') !! n = Some y ->
      nk_kind y = KUnknownBuddy e -> conv e <> Some v) w1).
  { intros Hu. eapply wp_mono; [eapply (wp_setConversation l x ce None w1); [done|done|done|by rewrite Hu]| |done].
    intros ? w2 [W2 _ (ce' & Hce' & Hn2)]. split; [done|]. rewrite Hn2.
    intros n y e [[<- <-]|[Hne Hy]]%lookup_insert_cases Hk He.
    - cbn in Hk. by destruct (nk_kind x).
    - apply Hne. symmetry. by eapply Only. }
  destruct (nk_kind x) eqn:Ek; try by apply S. clear S.
  destruct (Hun l x _ Hx Ek) as [_ Htab]; [by injection Hce as <-|].
  eapply wp_mono; [apply (wp_removeNick_but (X := None) (nk_name x) l w1); [done|done|exact Htab|]| |done].
  - intros E. destruct (wf_user _ W) as (z & p & lr & b & Hz & Hkz). cbn in E. rewrite <- E in Hz. congruence.
  - intros ? w2 G. split; [apply G|]. intros n y e Hy Hk He.
    destruct (decide (n = l)) as [->|Hne]; [by rewrite (go_nick _ _ _ _ _ G) in Hy|].
    rewrite (go_nicks _ _ _ _ _ G n Hne) in Hy. by apply Hne; eapply Only.
Qed.

(** When libpurple destroys a private conversation, the nick made for a
    stranger goes with it and the session is well-formed: no unknown buddy is left
    with the conversation. *)
Theorem destroy_forgets v w :
  wf w -> v_type (o_trace (w_io w)) v = TypeIm ->
  (forall n, v_nick (o_trace (w_io w)) v = Some n ->
     exists x ce, h_nicks (w_heap w) !! n = Some x /\ kind_ce (nk_kind x) = Some ce /\ conv ce = Some v) ->
  unknown_owned v w ->
  safe (destroy v) (fun _ w' => wf w' /\
    forall n x ce, h_nicks (w_heap w') !! n = Some x -> nk_kind x = KUnknownBuddy ce -> conv ce <> Some v) w.
Proof.
  intros W Ht Hn Hun. unfold destroy. apply wp_bind, wp_ask. rewrite Ht. apply wp_bind.
  eapply wp_mono; [by apply wp_setNick_none| |done]. intros ? w1 [W1 Hno].
  apply wp_bind, wp_getNick_conv; [done| |by apply wp_ret]. intros n x ce Hx Hk Hv.
  eapply wp_mono; [eapply wp_setConversation; [done|done|done|]| |done].
  - destruct (nk_kind x) as [| | | |e] eqn:Ek; try done. injection Hk as ->. by destruct (Hno n x ce Hx Ek).
  - intros ? w2 [W2 _ (ce' & Hce' & Hn2)]. split; [done|]. rewrite Hn2.
    intros m y e [[<- <-]|[_ Hy]]%lookup_insert_cases Hke; [|by eapply Hno].
    cbn in Hke. destruct (nk_kind x); try discriminate. injection Hke as <-. by rewrite Hce'.
Qed.

Lemma wp_buddy_typing a who w :
  wf w ->
  (forall s v n, who = Some s -> find_im (o_trace (w_io w)) a s = Some v ->
     v_nick (o_trace (w_io w)) v = Some n -> is_Some (h_nicks (w_heap w) !! n)) ->
  (forall s v, who = Some s -> find_im (o_trace (w_io w)) a s = Some v ->
     v_type (o_trace (w_io w)) v = TypeIm) ->
  safe (buddy_typing a who) (fun _ => io_only w) w.
Proof.
  intros W Hn Ht. unfold buddy_typing. apply wp_bind, wp_ask. destruct (negb _); [by apply wp_ret|].
  apply wp_bind, wp_ask. destruct who as [s|]; [|by apply wp_ret]. cbn [mbind option_bind].
  destruct (find_im _ a s) as [v|] eqn:Ef; [|by apply wp_ret].
  apply wp_bind, wp_assert_type; [by eapply Ht|done|]. apply wp_bind, wp_ask, wp_bind.
  set (P := fun (o : option nid) w1 => w1 = w /\ forall n, o = Some n -> is_Some (h_nicks (w_heap w) !! n)).
  eapply (wp_mono _ P _ (fun _ _ => True)); [| |done].
  - destruct (v_nick _ v) as [n|] eqn:Ev; [apply wp_ret; split; [done|intros ? [= <-]; by eapply Hn]|].
    apply wp_getNick_conv; [done| |by split]. intros n x ce Hx _ _. split; [done|]. intros ? [= <-]. by eexists.
  - intros [n|] w1 [-> Hal]; [|by apply wp_ret]. apply wp_bind, wp_ask, wp_bind, wp_bind, wp_get, wp_ret.
    apply wp_mk_send_user; [done|]. by apply alive_nick, Hal.
Qed.
End Messages.

(** ** The delivery of a private message *)

Section Deliver.
Context {env : ImEnv}.

(** The line the user reads for a message of [x]. *)
Definition line_bytes (x y : nick) (action : bool) (line : string) : string :=
  ":" +:+ longname x +:+ " PRIVMSG " +:+ nk_name y
    +:+ Msg.format_arg (if action then action_text line else line) +:+ Msg.crlf.
Definition wrote (l : list string) (w : world) : world :=
  on_io (up_o_trace (fun t => t ++ map Write l)) w.
Lemma wrote_nil w : wrote [] w = w.
Proof. destruct w as [h i []]. unfold wrote, on_io, up_o_trace. cbn. by rewrite app_nil_r. Qed.
Lemma wrote_app l l' w : wrote l' (wrote l w) = wrote (l ++ l') w.
Proof. destruct w as [h i []]. unfold wrote, on_io, up_o_trace. cbn. by rewrite map_app, app_assoc. Qed.
Lemma put_same n x w : h_nicks (w_heap w) !! n = Some x -> on_heap (up_h_nicks (insert n x)) w = w.
Proof. destruct w as [[] i o]. cbn. intros H. unfold on_heap, up_h_nicks. cbn. by rewrite insert_id. Qed.

(** The user's connection takes what is written. *)
Record listening (y : nick) (w : world) : Prop := {
  li_user : h_nicks (w_heap w) !! i_user (w_irc w) = Some y;
  li_kind : exists p l, nk_kind y = KUser p l true;
  li_ok : o_sock_ok (w_io w) = true;
  li_writes : o_writes (w_io w) = [] }.
(** A nick that talks in private: not a buddy whose messages go to the status channel. *)
Definition private (x : nick) : Prop :=
  match nk_kind x with KBuddy _ pub _ _ => pub = false | _ => True end.

Lemma format_private n u x y a w :
  h_nicks (w_heap w) !! n = Some x -> h_nicks (w_heap w) !! u = Some y ->
  format (Msg.Message "PRIVMSG" (Msg.SE (Some (ENick n)) "") (Msg.SE (Some (ENick u)) "") [a]) w
  = Ok (":" +:+ longname x +:+ " PRIVMSG " +:+ nk_name y +:+ Msg.format_arg a +:+ Msg.crlf) w.
Proof.
  intros Hx Hy. unfold format. cbn [Msg.sender Msg.receiver Msg.entity ent_long ent_name].
  rewrite Hx, Hy. cbn [fmap option_fmap option_map].
  rewrite !bool_decide_true by (by eexists). cbn [andb]. f_equal.
  unfold Msg.format, Msg.format_line, Msg.se_getName, Msg.se_getLongName, Msg.isSet.
  cbn [Msg.sender Msg.receiver Msg.entity Msg.cmd Msg.args ent_long ent_name Msg.format_args].
  rewrite Hx, Hy. cbn [fmap option_fmap option_map default]. rewrite app_nil_s.
  by rewrite ?app_assoc_s.
Qed.
Lemma write_user_line s w :
  o_sock_ok (w_io w) = true -> o_writes (w_io w) = [] -> sock_write s w = Ok tt (wrote [s] w).
Proof.
  destruct w as [h i [o1 o2 o3 o4 o5 o6]]. cbn. intros -> ->. done.
Qed.
Lemma convnick_delivers n x y t action w :
  h_nicks (w_heap w) !! n = Some x -> listening y w ->
  convnick_sendMessage n (i_user (w_irc w)) t action w = Ok tt (wrote [line_bytes x y action t] w).
Proof.
  intros Hx [Hy (p & l & Hk) Ho Hw]. unfold convnick_sendMessage, mkmsg, bind, lift.
  cbn [Dcc.addArgs]. rewrite addArg_first by done. cbn [obind].
  unfold send, bind, get_nick. cbn beta. rewrite Hy. cbn [deref]. cbn beta.
  change (ret y w) with (Ok y w). cbn beta iota. rewrite Hk.
  unfold user_send, bind.
  pose proof (format_private n _ x y (if action then action_text t else t) w Hx Hy) as F.
  match type of F with format ?m w = _ =>
    match goal with |- context [format ?m' w] => change (format m' w) with (format m w) end end.
  rewrite F. by rewrite write_user_line.
Qed.

(** [sendMessage] of a private speaker is that line and nothing else. *)
Lemma sendMessage_delivers n x y t action w :
  h_nicks (w_heap w) !! n = Some x -> private x -> listening y w ->
  sendMessage n (i_user (w_irc w)) t action w = Ok tt (wrote [line_bytes x y action t] w).
Proof.
  intros Hx Hp L. pose proof (convnick_delivers n x y t action w Hx L) as C.
  unfold sendMessage, bind, get_nick. rewrite Hx. cbn [deref]. change (ret x w) with (Ok x w). cbn beta iota.
  unfold private in Hp. destruct (nk_kind x) as [| |b pub last ce| |] eqn:Ek; try exact C. subst pub.
  assert (E : with_kind x (KBuddy b false last ce) = x) by (by destruct x; cbn in *; subst).
  unfold get, put_nick, put, ask, bind, trace, get, ret. cbn beta iota.
  destruct (_ <? _); rewrite E, put_same by done; exact C.
Qed.
Lemma tell_delivers n x y action l w :
  h_nicks (w_heap w) !! n = Some x -> private x -> listening y w ->
  mapM_ (fun line => let! u := user; sendMessage n u line action) l w
  = Ok tt (wrote (map (line_bytes x y action) l) w).
Proof.
  revert w. induction l as [|t l IH]; intros w Hx Hp L; [by rewrite wrote_nil|]. cbn [mapM_].
  unfold bind at 1, user, bind at 1 2, get, ret. cbn beta iota.
  rewrite (sendMessage_delivers n x y t action w Hx Hp L).
  rewrite IH, wrote_app; [done|done|done|]. destruct L as [L1 L2 L3 L4]. by split.
Qed.

(** C12: a message of a private conversation reaches the user whole and in order:
    [write_conv] writes one PRIVMSG of the speaker for each line of the text that
    [markup2irc] gives, actions as CTCP ACTION, a delayed text with its date in
    front, and does nothing else. *)
Theorem write_conv_delivers v who alias message flags mtime n x y strip w :
  v_type (o_trace (w_io w)) v = TypeIm -> v_nick (o_trace (w_io w)) v = Some n ->
  h_nicks (w_heap w) !! n = Some x -> private x -> listening y w ->
  f_recv flags = true -> f_system flags && negb (f_notify flags) = false ->
  let me := match who with Some _ => meify message | None => None end in
  M2I.markup2irc strdup_withhtml strip_html (default message me) = Prelude.Ret strip ->
  write_conv v who alias message flags mtime w =
    Ok tt (wrote (map (line_bytes x y (match me with Some _ => true | None => false end))
             (Tok.tokens newlines (if f_delayed flags
                then delayed_text mtime (o_now (w_io w)) strip else strip))) w).
Proof.
  intros Ht Hv Hx Hp L Hr Hs me Hm. unfold write_conv. rewrite Hs, Hr. cbn [negb]. fold me.
  unfold bind, lift at 1. rewrite Hm. unfold get at 1. cbn beta iota.
  unfold recvMessage, bind at 1, ask, trace, bind at 1, get, ret. cbn beta iota. rewrite Ht.
  unfold recv_nick, bind, ask, trace, bind, get, ret. cbn beta iota. rewrite Hv.
  by apply tell_delivers.
Qed.
End Deliver.

(** ** The callbacks about the users of a chat *)

Inductive chat_call :=
| AddUsers (l : list kid)
| UpdateUser (name : string)
| RemoveUser (name : string) (reason : option string)
| RenameUser (old new_n new_a : string)
| TopicChanged (who topic : option string).

Section Calls.
Context {env : ImEnv}.

Definition run_call (v : vid) (call : chat_call) : M unit :=
  match call with
  | AddUsers l => add_users v l
  | UpdateUser nm => update_user v nm
  | RemoveUser nm r => remove_user v nm r
  | RenameUser o n a => chat_rename_user v o n a
  | TopicChanged w t => topic_changed v w t
  end.

(** What the callback is told is so in the channel: the user to update is one of its
    chat buddies, the one to rename is there and is not the user of the session. *)
Definition call_fits (v : vid) (c : cid) (w : world) (call : chat_call) : Prop :=
  forall ch ce up cb, h_chans (w_heap w) !! c = Some ch -> ch_kind ch = KConversation ce up cb ->
  match call with
  | AddUsers _ | TopicChanged _ _ => True
  | UpdateUser nm => forall k, find_cb (o_trace (w_io w)) v nm = Some k -> k ∈ cb.*1
  | RemoveUser _ _ => chatbuddies_listed c w
  | RenameUser old _ _ =>
    let named k := Case.strlower (k_name (o_trace (w_io w)) k) = Case.strlower old in
    (exists k u, (k, u) ∈ cb /\ named k)
    /\ (forall k u, (k, u) ∈ cb -> named k -> own_kid c k u w)
  end.

End Calls.

(** ** The nodes of the buddy list *)

Section Nodes.
Context {env : ImEnv}.

Definition buddy_at (n : nid) (w : world) : Prop :=
  exists x b pub last ce, h_nicks (w_heap w) !! n = Some x /\ nk_kind x = KBuddy b pub last ce.
(** The nicks libpurple may give for the node are buddies of the session. *)
Definition node_ok (b : bid) (w : world) : Prop :=
  forall t n, b_nick t b = Some n -> buddy_at n w.

Lemma wp_getNick_buddy b (Q : option nid -> world -> Prop) w :
  wf w -> (forall n, buddy_at n w -> Q (Some n) w) -> Q None w -> safe (getNick_buddy b) Q w.
Proof.
  intros W HS HN. unfold getNick_buddy. apply wp_bind. unfold users_list. apply wp_bind, wp_get, wp_ret.
  apply wp_first_nick; [intros k n; by apply table_nick|intros n x Hx E|done].
  destruct (nk_kind x) as [| |b' pub last ce| |] eqn:Ek; try done. apply HS. by exists x, b', pub, last, ce.
Qed.
Lemma wp_buddy_nick b (Q : option nid -> world -> Prop) w :
  wf w -> node_ok b w -> (forall n, buddy_at n w -> Q (Some n) w) -> Q None w -> safe (buddy_nick b) Q w.
Proof.
  intros W Hb HS HN. unfold buddy_nick. apply wp_bind, wp_ask. destruct (b_nick _ b) as [n|] eqn:E.
  - apply wp_ret, HS. by eapply Hb.
  - by apply wp_getNick_buddy.
Qed.

(** The tables, the faces of the nicks and the accounts of the status channels stay. *)
Record settled (w w' : world) : Prop := {
  se_irc : w_irc w' = w_irc w;
  se_nicks : forall n, face <$> h_nicks (w_heap w') !! n = face <$> h_nicks (w_heap w) !! n;
  se_status : forall c ch accs, h_chans (w_heap w) !! c = Some ch -> ch_kind ch = KStatus accs ->
    exists ch', h_chans (w_heap w') !! c = Some ch' /\ ch_kind ch' = KStatus accs }.
#[export] Instance settled_preorder : PreOrder settled.
Proof.
  split; [split; by eauto|]. intros w1 w2 w3 [A1 A2 A3] [B1 B2 B3]. split.
  - by rewrite B1.
  - intros n. by rewrite B2.
  - intros c ch accs Hc Hk. destruct (A3 c ch accs Hc Hk) as (ch' & Hc' & Hk'). by eapply B3.
Qed.
Lemma settled_heap w w' :
  w_irc w' = w_irc w -> h_nicks (w_heap w') = h_nicks (w_heap w) ->
  h_chans (w_heap w') = h_chans (w_heap w) -> settled w w'.
Proof. intros Hi Hn Hc. split; [done|intros n; by rewrite Hn|]. intros c ch accs. rewrite Hc. by eauto. Qed.
Lemma settled_same w w' : w_heap w' = w_heap w -> w_irc w' = w_irc w -> settled w w'.
Proof. intros Hh Hi. apply settled_heap; by rewrite ?Hh. Qed.
Lemma settled_came n c st w cu w' : came n c st w cu w' -> settled w w'.
Proof.
  intros C. split; [apply C|apply C|]. intros c' ch accs Hc Hk.
  pose proof (ca_kinds _ _ _ _ _ _ C c') as E. rewrite Hc in E. cbn in E.
  destruct (h_chans (w_heap w') !! c') as [ch'|]; [|done]. injection E as E. exists ch'. split; [done|congruence].
Qed.
Lemma settled_left n y w w' : h_nicks (w_heap w) !! n = Some y -> left_only n w w' -> settled w w'.
Proof.
  intros Hn L. split; [apply L| |apply L]. intros n'. destruct (decide (n' = n)) as [->|Hne].
  - destruct (lo_self _ _ _ L y Hn) as [l ->]. by rewrite Hn.
  - by rewrite (lo_nicks _ _ _ L n' Hne).
Qed.
Lemma settled_node b w w' : settled w w' -> node_ok b w -> node_ok b w'.
Proof.
  intros S H t n Hn. destruct (H t n Hn) as (x & b' & p & l & ce & Hx & Hk).
  pose proof (se_nicks _ _ S n) as E. rewrite Hx in E. destruct (h_nicks (w_heap w') !! n) as [x'|] eqn:Hx'; [|done].
  injection E as _ _ E. exists x', b', p, l, ce. split; [done|congruence].
Qed.

Lemma wp_updated b w : wf w -> node_ok b w -> safe (updated b) (fun _ w' => wf w' /\ settled w w') w.
Proof.
  intros W Hb. unfold updated. apply wp_bind, wp_ask.
  eapply (calm_bind_at w); [done|eapply calm_getStatusChannel, wf_eta, W|]. intros [c|] w1 Hc W1 Hh1 Hi1;
    [|split; [done|by apply settled_same]].
  destruct (Hc c eq_refl) as [ch Hch]. cbn in Hch. rewrite <- Hh1 in Hch. clear Hc.
  assert (Hb1 : node_ok b w1) by (unfold node_ok, buddy_at; by rewrite Hh1).
  assert (S1 : settled w w1) by by apply settled_same.
  assert (Hout : forall w', wf w' -> settled w1 w' -> wf w' /\ settled w w') by (split; [done|by etrans]).
  apply wp_bind, wp_buddy_nick; [done|done| |by apply wp_ret].
  intros n (x & b' & pub & last & ce & Hx & Ek). apply wp_bind, wp_ask. destruct (b_online _ b).
  - apply wp_bind, wp_ask, wp_bind, wp_ask, wp_bind. set (av := _ && _).
    eapply wp_nick_getChanUser; [done|done| |].
    + intros u y Hy En Ec. apply wp_bind. eapply wp_get_cu; [done|]. apply wp_when; intros _; [|by apply Hout].
      apply wp_bind, wp_bind, wp_get, wp_ret.
      assert (Hs : by_server w1 (Some (EServer (i_self (w_irc w1))))) by (by intros e [= <-]).
      destruct av; (eapply wp_mono; [by eapply wp_changeMode| |done]); intros ? w2 (W2 & Hi2 & Hh2);
        (apply Hout; [done|apply settled_heap; by rewrite ?Hh2]).
    + intros _. apply wp_bind. eapply wp_mono; [by eapply wp_join_came| |done].
      intros cu w2 C. apply wp_ret, Hout; [apply C|by eapply settled_came].
  - apply wp_bind. eapply (calm_at w1); [eapply calm_isOn; [by apply wf_eta|done]|].
    intros here w2 _ Hh2 Hi2. assert (W2 : wf w2) by (by eapply (wf_calm w1)). assert (S2 : settled w1 w2) by by apply settled_same.
    apply wp_when; intros _; [|by apply Hout].
    eapply wp_mono; [eapply (wp_quit_with (X := None) removeNick n _ x w2)| |done];
      [done|done|by rewrite Hh2|by rewrite Ek|]. intros ? w3 (W3 & L & _).
    apply Hout; [done|]. etrans; [exact S2|]. eapply settled_left; [by rewrite Hh2|done].
Qed.

Lemma updated_wf b w : wf w -> node_ok b w -> safe (updated b) (fun _ w' => wf w') w.
Proof. intros W Hb. eapply wp_mono; [by apply wp_updated|by intros ? ? []|done]. Qed.

(** A node without a nick gets a new one, at the next free address. *)
Definition new_node_ok (b : bid) (w : world) : Prop :=
  forall t n, b_nick t b = Some n -> buddy_at n w
    \/ b_nick (o_trace (w_io w)) b = None /\ n = h_next (w_heap w).

Lemma wp_new_Buddy s b (Q : nid -> world -> Prop) w :
  (forall x w', w_heap w' = w_heap (fresh_nick x w) -> w_irc w' = w_irc w -> channels x = [] ->
     nk_server x = s -> nk_kind x = KBuddy b false 0 (CE None []) -> Q (h_next (w_heap w)) w') ->
  safe (new_Buddy s b) Q w.
Proof.
  intros HQ. unfold new_Buddy. do 5 apply wp_bind, wp_ask.
  destruct (buddy_names _ _ _) as [[nick ident] host].
  apply wp_bind, wp_bind, wp_get, wp_bind, wp_put, wp_ret, wp_bind, wp_put, wp_bind, wp_put, wp_ret.
  by eapply HQ.
Qed.
(** A change of a node of the buddy list makes its nick if it has none, under
    a free name, shows or hides it on the status channel, and keeps the session
    well-formed. *)
Theorem update_node_safe b w : wf w -> new_node_ok b w -> safe (update_node b) (fun _ w' => wf w') w.
Proof.
  intros W Hb. unfold update_node. apply wp_bind, wp_ask, wp_bind.
  set (P := fun (o : option nid) w1 => wf w1 /\ forall n, o = Some n -> buddy_at n w1 /\ node_ok b w1).
  eapply (wp_mono _ P _ (fun _ _ => True)); [| |done].
  - destruct (b_nick _ b) as [n|] eqn:Eb.
    { assert (N : node_ok b w) by (intros t n' H; destruct (Hb t n' H) as [?|[? _]]; [done|congruence]).
      apply wp_ret. split; [done|]. intros ? [= <-]. split; [by eapply N|done]. }
    do 2 apply wp_bind, wp_ask. apply wp_bind. unfold getServer. apply wp_bind, wp_get, wp_ret.
    destruct (i_servers _ !! _) as [s|] eqn:Es; [|by apply wp_ret].
    destruct (wf_stable _ W _ _ Es) as (sv & Hsv & _). apply wp_bind, wp_new_Buddy.
    intros x w1 Hh1 Hi1 Hch Hs Hk. apply wp_bind.
    assert (W1 : wf w1).
    { eapply (wf_calm (fresh_nick x w)); [|done..]. apply wf_new_nick; [done|done|by rewrite Hs, Hsv|].
      by rewrite Hk. }
    eapply wp_mono; [eapply (wp_enter _ x); [done|rewrite Hh1; apply lookup_insert_eq|]| |done].
    { intros k. rewrite Hi1. exact (fresh_unnamed w k W). }
    intros ? w2 (_ & nm & E & _). apply wp_ret. split; [apply E|].
    assert (B : buddy_at (h_next (w_heap w)) w2).
    { eexists _, b, false, 0, _. rewrite (en_nicks _ _ _ _ _ E), lookup_insert_eq. by split. }
    intros ? [= <-]. split; [done|]. intros t n' H. destruct (Hb t n' H) as [(y & b1 & p1 & l1 & c1 & Hy & Hky)|[_ ->]]; [|done].
    exists y, b1, p1, l1, c1. split; [|done]. rewrite (en_nicks _ _ _ _ _ E), Hh1. cbn.
    destruct (wf_fresh _ W (h_next (w_heap w)) ltac:(lia)) as (Hno & _).
    rewrite !lookup_insert_ne by congruence. done.
  - intros [n|] w1 [W1 Hal]; [|by apply wp_ret]. destruct (Hal n eq_refl) as [(x & b' & pub & last & ce & Hx & Ek) N].
    apply wp_bind, wp_ask, wp_bind. eapply wp_get_nick; [done|]. apply wp_bind.
    apply wp_when; intros _; [|by apply updated_wf]. apply wp_put. apply updated_wf; [by eapply (wf_calm w1)|done].
Qed.

(** When a node of the buddy list goes away, its nick leaves the channels and
    the table, nothing else does, and the session is well-formed. *)
Theorem removed_node_clean b n x w :
  wf w -> (forall t, b_nick t b = Some n) -> h_nicks (w_heap w) !! n = Some x ->
  not_chatbuddy (nk_kind x) = true -> n <> i_user (w_irc w) -> i_users (w_irc w) !! nk_name x = Some n ->
  safe (removed_node b) (fun _ w' => wf w' /\ h_nicks (w_heap w') !! n = None
    /\ i_users (w_irc w') = delete (nk_name x) (i_users (w_irc w))) w.
Proof.
  intros W Hb Hx Hk Hu Ht. unfold removed_node. apply wp_bind, wp_put, wp_bind.
  set (w1 := on_io _ w). assert (W1 : wf w1) by (by eapply (wf_calm w)).
  unfold buddy_nick. apply wp_bind, wp_ask. rewrite Hb. apply wp_ret, wp_bind.
  eapply wp_mono; [by apply (wp_quit_with (X := None) removeNick n _ x w1)| |done].
  intros ? w2 (W2 & L & Hn2). apply wp_bind. eapply wp_get_nick; [done|]. cbn [nk_name with_channels].
  assert (Hi2 : w_irc w2 = w_irc w) by (by rewrite (lo_irc _ _ _ L)).
  eapply wp_mono; [apply (wp_removeNick_but (X := None) (nk_name x) n w2); [done|done|by rewrite Hi2..]| |done].
  intros ? w3 G. split; [apply G|]. split; [exact (go_nick _ _ _ _ _ G)|]. rewrite (go_irc _ _ _ _ _ G). cbn. by rewrite Hi2.
Qed.
End Nodes.
End ImP.
Import ImP.

(** * Runs *)

Definition demo_im (ty : conv_type) (chan : option cid) (nickof : vid -> option nid)
    (node : option nid) (online : bool) : ImEnv := {|
  im_env := demo_with nickof online true;
  v_type := fun _ _ => ty; v_chan := fun _ _ => chan; v_cbs := fun _ _ => [0; 1]%nat;
  v_has_left := fun _ _ => false; v_want_rejoin := fun _ _ => false; v_typing := fun _ _ => Typing;
  v_alias := fun _ _ => None; chats := fun _ => [0%nat];
  find_cb := fun _ _ nm => if String.eqb nm "romain" then Some 0%nat
                           else if String.eqb nm "bob" then Some 1%nat
                           else if String.eqb nm "carol" then Some 2%nat else None;
  find_im := fun _ _ _ => Some 0%nat; b_nick := fun _ _ => node; all_accounts := fun _ => [0%nat];
  a_proto := fun _ _ => Some "prpl-jabber"; a_status := fun _ _ => 2; a_prpl_options := fun _ _ => [];
  chat_name := fun _ _ _ => ""; find_chat := fun _ _ _ => None;
  a_buddies := fun _ _ => [0%nat]; a_server_aliases := fun t a => Ui.last_set (Ui.set_bool a "server_aliases") false t;
  a_status_text := fun _ _ => ""; a_active_status := fun _ _ => None;
  a_has_status := fun _ _ _ => true; a_status_attr := fun _ _ _ => ""; a_has_chats := fun _ _ => true;
  a_chat_defaults := fun _ _ _ => Some []; 
  a_opt_string := fun t a k d => Ui.last_set (Ui.opt_string a k) d t;
  a_opt_int := fun t a k d => Ui.last_set (Ui.opt_int a k) d t;
  a_opt_bool := fun t a k d => Ui.last_set (Ui.opt_bool a k) d t;
  a_password := fun t a => Ui.last_set (Ui.set_password a) "" t; a_rawid := fun _ _ => "0";
  a_join_queue := fun t a => Ui.last_string a "join_queue" "" t;
  a_delay := fun t a => Ui.last_int a "delay-reconnect" 15 t;
  a_timer := fun t a => Ui.last_int a "id-reconnect" (-1) t;
  a_display := fun _ _ => None; a_menu := fun _ _ => [];
  pref_accept_nobuddies := fun _ => true; pref_typing_notice := fun _ => true;
  pref_voiced_buddies := fun _ => true; pref_server_aliases := fun _ => false;
  timer_id := fun t => Z.of_nat (Ui.timers t); meify := fun s => if prefix_of "/me " s then Some (sdrop 4 s) else None;
  strdup_withhtml := fun s => s; strip_html := fun s => s; strreplace := fun s _ _ => s;
  markup_escape := fun s => s; utf8_try_convert := fun s => s;
  localtime := fun t => Tm 2010 1 (t / 86400) (t / 3600 mod 24) (t / 60 mod 60) (t mod 60) |}.

(** The chat of the demo session: its channel is 7. *)
Definition demo_chat : ImEnv := demo_im TypeChat (Some 7%nat) (fun _ => None) None true.
Definition demo_new : ImEnv := demo_im TypeChat None (fun _ => None) None true.
Definition demo_priv (n : option nid) : ImEnv := demo_im TypeIm None (fun _ => n) None true.

Lemma demo_ready : ready 7 0 demo_world.
Proof.
  split; [exact DemoWf.demo_wf|]. eexists _, _, 2%nat, _. split; [reflexivity|]. split; [reflexivity|].
  split; [by eexists|]. split; [repeat constructor|].
  intros k u x [[= -> ->]|[[= -> ->]|H]%elem_of_cons]%elem_of_cons Hx; [done| |by apply not_elem_of_nil in H].
  vm_compute in Hx. injection Hx as <-. discriminate.
Qed.
Lemma demo_listed : chatbuddies_listed 7 demo_world.
Proof.
  intros ch ce up cb e x y Hc Hk He Hx Hy. vm_compute in Hc. injection Hc as <-. injection Hk as <- <- <-.
  apply elem_of_cons in He as [->|[->|He]%elem_of_cons]; [| |by apply not_elem_of_nil in He];
    vm_compute in Hx; injection Hx as <-; vm_compute in Hy; injection Hy as <-; by intros _.
Qed.

(** ** The hypotheses hold somewhere *)

Lemma createChannel_opens_witness :
  safe (@createChannel demo_new 0) (fun _ => @opened demo_new 0 demo_world) demo_world.
Proof. apply (@createChannel_opens demo_new 0 demo_world DemoWf.demo_wf). reflexivity. Defined.

Lemma destroyChannel_closes_witness :
  safe (@ImConv.destroyChannel demo_chat 0) (fun _ => closed "#room:jabber0" 7 demo_world) demo_world.
Proof.
  apply (@destroyChannel_closes demo_chat 0 7 "#room:jabber0" demo_world DemoWf.demo_wf);
    [reflexivity|reflexivity|reflexivity|exact demo_listed].
Defined.

Lemma demo_is_stranger : @stranger (demo_priv None) 0 "dave@jabber.org" demo_world.
Proof.
  split; [done|]. split; [|split; [|done]].
  - intros k n x ce Hk Hx Hce. cbn -[lookup insert singletonM] in Hk. DemoWf.map_cases Hk; vm_compute in Hx; injection Hx as <-;
      vm_compute in Hce; try discriminate; injection Hce as <-; discriminate.
  - intros k n Hk. cbn -[lookup insert singletonM] in Hk. DemoWf.map_cases Hk; vm_compute; discriminate.
Qed.
Lemma recvMessage_safe_witness :
  (exists w', @recvMessage (demo_priv None) 0 "dave@jabber.org" "hello" false demo_world = Ok tt w'
     /\ exists n, @introduced (demo_priv None) 0 n demo_world w')
  /\ safe (@recvMessage demo_chat 0 "dave" "hello" false) (fun _ w' => wf w') demo_world.
Proof.
  split.
  - assert (R : @im_ready (demo_priv None) 0 demo_world) by (split; [discriminate|by eexists]).
    pose proof (@recvMessage_safe (demo_priv None) 0 "dave@jabber.org" "hello" false demo_world DemoWf.demo_wf R) as H.
    unfold wp in H. destruct (@recvMessage (demo_priv None) 0 "dave@jabber.org" "hello" false demo_world) as [[] w'| |] eqn:E.
    + exists w'. split; [done|]. apply (proj2 H). split; [reflexivity|exact demo_is_stranger].
    + exfalso. vm_compute in E. discriminate.
    + destruct H.
  - eapply (wp_mono _ _ _ _ _); [apply (@recvMessage_safe demo_chat 0 "dave" "hello" false demo_world DemoWf.demo_wf)| |done].
    + split.
      * intros c [= <-]. do 4 eexists. split; reflexivity.
      * assert (E : Tok.tokens newlines "hello" = ["hello"]) by reflexivity. rewrite E.
        apply Forall_singleton. right. split; intros s H; vm_compute in H; discriminate.
    + by intros [] w' [H _].
Defined.

(** A stranger, whose nick is 11 and whose conversation is 3. *)
Definition demo_stranger : nick :=
  Nick "eve" "eve" "jabber.org:jabber0" "" "" 2 0 [] (KUnknownBuddy (CE (Some 3%nat) [])).
Definition demo_talking : world := on_irc (up_i_users (insert "eve" 11%nat)) (fresh_nick demo_stranger demo_world).
Lemma demo_talking_wf : wf demo_talking.
Proof.
  eapply (wf_table_insert (fresh_nick demo_stranger demo_world) 11 demo_stranger); [|reflexivity].
  apply wf_new_nick; [exact DemoWf.demo_wf|done|by eexists|]. intros ce [= <-]. by eexists.
Qed.
Lemma destroy_forgets_witness :
  safe (@ImConv.destroy (demo_priv (Some 11%nat)) 3) (fun _ w' => wf w' /\
    forall n x ce, h_nicks (w_heap w') !! n = Some x -> nk_kind x = KUnknownBuddy ce -> conv ce <> Some 3%nat)
    demo_talking.
Proof.
  apply (@destroy_forgets (demo_priv (Some 11%nat)) 3 demo_talking demo_talking_wf); [reflexivity|..].
  - intros n [= <-]. exists demo_stranger, (CE (Some 3%nat) []). split; [reflexivity|]. by split.
  - intros n x ce Hx Hk Hv. assert (n = 11%nat) as ->; [|by vm_compute in Hx; injection Hx as <-].
    destruct (decide (n = 11%nat)); [done|exfalso]. cbn in Hx. rewrite lookup_insert_ne in Hx by done.
    repeat (apply lookup_insert_cases in Hx as [[_ <-]|[_ Hx]]; [discriminate|]).
    by rewrite lookup_empty in Hx.
Defined.

Lemma update_node_safe_witness :
  safe (@update_node (demo_im TypeIm None (fun _ => None) None true) 1) (fun _ w' => wf w') demo_world.
Proof.
  apply (@update_node_safe (demo_im TypeIm None (fun _ => None) None true) 1 demo_world DemoWf.demo_wf).
  discriminate.
Defined.

Lemma removed_node_clean_witness :
  safe (@removed_node (demo_im TypeIm None (fun _ => None) (Some 4%nat) true) 0) (fun _ w' => wf w'
    /\ h_nicks (w_heap w') !! 4%nat = None
    /\ i_users (w_irc w') = delete "alice" (i_users (w_irc demo_world))) demo_world.
Proof.
  apply (@removed_node_clean (demo_im TypeIm None (fun _ => None) (Some 4%nat) true) 0 4 demo_buddy demo_world
    DemoWf.demo_wf); [done|reflexivity|reflexivity|done|reflexivity].
Defined.


Lemma write_conv_delivers_witness :
  @write_conv (demo_priv (Some 4%nat)) 0 (Some "alice@jabber.org") None "/me waves"
    (Flags false true false false false) 0 demo_world
  = Ok tt (wrote [":alice!alice@jabber.org:jabber0 PRIVMSG romain :" +:+ action_text "waves" +:+ Msg.crlf] demo_world).
Proof.
  apply (@write_conv_delivers (demo_priv (Some 4%nat)) 0 (Some "alice@jabber.org") None "/me waves"
    (Flags false true false false false) 0 4 demo_buddy demo_user "waves" demo_world); try reflexivity.
  split; [reflexivity|by eexists _, _|reflexivity|reflexivity].
Defined.

(** ** What goes wrong outside the hypotheses *)

(** Why a run is stuck. *)
Definition crash {A} (m : M A) (w : world) : option string :=
  match m w with UB why => Some why | _ => None end.

(** The user's own new name in a chat: [renameBuddy] takes the user for a chat buddy. *)
Example own_rename : crash (@run_call demo_chat 0 (RenameUser "romain" "carol" "")) demo_world = Some "NULL nick".
Proof. reflexivity. Qed.
(** A user libpurple knows and the channel does not. *)
Example unknown_rename :
  crash (@run_call demo_chat 0 (RenameUser "carol" "bob" "")) demo_world = Some "NULL chanuser"
  /\ crash (@run_call demo_chat 0 (UpdateUser "carol")) demo_world = Some "NULL chanuser".
Proof. split; reflexivity. Qed.
(** A new name which makes the same nickname: the nick finds itself in the table. *)
Example same_rename :
  written (@run_call demo_chat 0 (RenameUser "bob" "bob" "")) demo_world
  = [":bob!bob@jabber.org:jabber0 NICK bob_" +:+ Msg.crlf].
Proof. reflexivity. Qed.
(** The channel of a chat keeps the server of its account when the server goes. *)
Example stale_upserver :
  crash (let! _u := @removeServer (@im_env demo_chat) "romain:jabber0";
         @run_call demo_chat 0 (AddUsers [2]%nat)) demo_world = Some "dangling Server".
Proof. reflexivity. Qed.
