(* ===== verification/ImAccountProps.v ===== *)
(** The accounts of im/account.cpp: the IDs of new accounts are fresh, an account has
    at most one timer of reconnection, whose id it keeps, the delay between two
    attempts doubles up to the bound of an [int], the chats to join are joined in
    order, an option reads back as it was set, and the callbacks keep the session
    well formed. *)

From S2P Require Import Prelude Util Message Log World Dcc Nick Channel Logic Registry Members Kinds CmdsAccounts ImLayer ImConv ImAccount ImProps Demo.
Import W Obj Names Send Chan Reg Kinds Wf CmdsA Ui ImNick NewName ImAcc.

(** * IDs of new accounts *)

Module NewNameP.

Lemma t2s_inj i j : 0 <= i < 2 ^ 31 -> 0 <= j < 2 ^ 31 -> t2s i = t2s j -> i = j.
Proof.
  intros Hi Hj E. assert (Some i = Some j); [|congruence].
  rewrite <- (Num.s2t_signed_t2s 32 i), <- (Num.s2t_signed_t2s 32 j) by lia. by rewrite E.
Qed.
Lemma suffix_inj i j : 0 <= i < 2 ^ 31 -> 0 <= j < 2 ^ 31 -> suffix i = suffix j -> i = j.
Proof.
  intros Hi Hj. unfold suffix. destruct (Z.eqb_spec i 0), (Z.eqb_spec j 0); subst; try done.
  - intros E. by destruct (Num.t2s_spec j) as (_ & [] & _); [lia|].
  - intros E. by destruct (Num.t2s_spec i) as (_ & [] & _); [lia|].
  - by apply t2s_inj.
Qed.

Section Search.
Context (base : string) (ids : list string).
Definition nth_name (i : Z) : string := base +:+ suffix i.

Lemma nth_name_inj i j : 0 <= i < 2 ^ 31 -> 0 <= j < 2 ^ 31 -> nth_name i = nth_name j -> i = j.
Proof. intros Hi Hj E. apply suffix_inj; [done..|]. by eapply (inj (String.app base)). Qed.

(** The first [n] names are taken: there are at least [n] accounts. *)
Lemma taken_bound n :
  Z.of_nat n < 2 ^ 31 -> (forall j, 0 <= j < Z.of_nat n -> nth_name j ∈ ids) -> (n <= length ids)%nat.
Proof.
  intros Hn Ht. replace n with (length (map (fun k => nth_name (Z.of_nat k)) (seq 0 n))) by
    (by rewrite length_map, length_seq).
  apply submseteq_length, NoDup_submseteq.
  - apply NoDup_fmap_2_strong; [|apply NoDup_seq]. intros x y Hx%elem_of_seq Hy%elem_of_seq E.
    apply nth_name_inj in E; lia.
  - intros s (k & -> & Hk%elem_of_seq)%list_elem_of_fmap. apply Ht. lia.
Qed.

(** When the name is taken, the loop goes on with the next number. *)
Lemma next_number i :
  0 <= i < 2 ^ 31 ->
  (if i =? 0 then Some 1 else Z.succ <$> Num.s2t_signed 32 (sdrop (slen base) (nth_name i))) = Some (i + 1).
Proof.
  intros Hi. destruct (Z.eqb_spec i 0) as [->|Hn]; [done|]. unfold nth_name, suffix.
  rewrite sdrop_app_s. destruct (Z.eqb_spec i 0); [done|]. by rewrite Num.s2t_signed_t2s by lia.
Qed.

Lemma search_spec fuel i :
  Z.of_nat (length ids) < 2 ^ 31 - 1 -> 0 <= i <= Z.of_nat (length ids) ->
  (forall j, 0 <= j < i -> nth_name j ∈ ids) -> Z.of_nat (length ids) <= i + Z.of_nat fuel ->
  exists k, 0 <= k <= Z.of_nat (length ids) /\ search fuel base ids i = Some (nth_name k)
    /\ (nth_name k ∉ ids) /\ (forall j, 0 <= j < k -> nth_name j ∈ ids).
Proof.
  intros Hl. revert i. induction fuel as [|fuel IH]; intros i Hi Ht Hf; cbn [search].
  all: fold (nth_name i); destruct (List.find _ ids) as [id|] eqn:E.
  2, 4: exists i; repeat (split; [done|]); split; [|done];
    intros Hin%list_elem_of_In; apply (List.find_none _ _ E) in Hin; by rewrite String.eqb_refl in Hin.
  all: apply List.find_some in E as [Hin%list_elem_of_In ->%String.eqb_eq].
  all: assert (Ht' : forall j, 0 <= j < i + 1 -> nth_name j ∈ ids) by
    (intros j Hj; destruct (decide (j = i)) as [->|]; [done|apply Ht; lia]).
  all: assert (Hb : i + 1 <= Z.of_nat (length ids)) by
    (rewrite <- (Z2Nat.id (i + 1)) by lia; apply inj_le, taken_bound; rewrite Z2Nat.id by lia; [lia|done]).
  - lia.
  - rewrite next_number by lia. apply IH; [lia|done|lia].
Qed.
End Search.

(** C19: [Purple::getNewAccountName] ends after at most one turn of its loop per
    account and gives the first ID of the sequence jabber, jabber1, jabber2, ... that
    no other account of the protocol has. *)
Theorem new_name_fresh {env : ImEnv} (proto : string) (butone : aid) (w : world) :
  let ids := map (a_rawid (o_trace (w_io w)))
               (List.filter (fun a => negb (a =? butone)%nat
                               && bool_decide (a_proto (o_trace (w_io w)) a = Some proto))
                            (all_accounts (o_trace (w_io w)))) in
  Z.of_nat (length ids) < 2 ^ 31 - 1 ->
  exists k, 0 <= k <= Z.of_nat (length ids)
    /\ getNewAccountName proto butone w = Ok (proto_id proto +:+ suffix k) w
    /\ (proto_id proto +:+ suffix k ∉ ids)
    /\ (forall j, 0 <= j < k -> (proto_id proto +:+ suffix j ∈ ids)).
Proof.
  intros ids Hl.
  destruct (search_spec (proto_id proto) ids (length ids) 0) as (k & Hk & Hs & Hn & Ht);
    [done|lia|lia|lia|]. exists k. split; [done|]. split; [|done].
  unfold getNewAccountName, other_ids, ask, get, bind, ret. cbn. fold ids. by rewrite Hs.
Qed.
End NewNameP.

Lemma last_set_app {A} (f : event -> option A) d t u : last_set f d (t ++ u) = last_set f (last_set f d t) u.
Proof. apply foldl_app. Qed.
Lemma of_account_same {A} a key (v : A) : of_account a a key key v = Some v.
Proof. unfold of_account. by rewrite Nat.eqb_refl, String.eqb_refl. Qed.
(** A setting which was just written. *)
Lemma last_set_just {A} (f : event -> option A) d t e v : f e = Some v -> last_set f d (t ++ [e]) = v.
Proof. intros H. rewrite last_set_app. cbn. by rewrite H. Qed.

(** * The next connection *)

Module Timers.

(** The numbers that libpurple keeps of an account are those last set, at first those
    of the accounts file. *)
Class UiInts (env : ImEnv) := {
  saved_int : aid -> string -> Z;
  ui_delay t a : a_delay t a = last_int a "delay-reconnect" (saved_int a "delay-reconnect") t;
  ui_timer t a : a_timer t a = last_int a "id-reconnect" (saved_int a "id-reconnect") t
}.

(** The sources of the main loop made for reconnections, with their accounts: what
    becomes of them when the events [evs] follow [t].  [None]: a source that does not
    exist is removed. *)
Fixpoint sources {env : ImEnv} (t evs : list event) (p : gmap Z aid) : option (gmap Z aid) :=
  match evs with
  | [] => Some p
  | e :: evs =>
    let t := t ++ [e] in
    match e with
    | ImCall (Purple (TimeoutAdd a _)) => sources t evs (<[timer_id t := a]> p)
    | ImCall (Purple (SourceRemove id)) =>
      match p !! id with Some _ => sources t evs (delete id p) | None => None end
    | _ => sources t evs p
    end
  end.
(** An event which is not about reconnections. *)
Definition other (e : event) : bool :=
  match e with
  | ImCall (Purple (TimeoutAdd _ _)) | ImCall (Purple (SourceRemove _)) => false
  | ImCall (Purple (UiInt _ k _)) => negb (String.eqb k "delay-reconnect") && negb (String.eqb k "id-reconnect")
  | _ => true
  end.

(** [m] only appends events of [P] to the trace. *)
Definition tells {A} (P : event -> Prop) (m : M A) : Prop := forall w,
  match m w with
  | Ok _ w' | Exc _ w' => exists evs, o_trace (w_io w') = o_trace (w_io w) ++ evs /\ Forall P evs
  | UB _ => True
  end.
Section Tells.
Context (P : event -> Prop).
Lemma tells_io {A} (m : M A) :
  (forall w, match m w with Ok _ w' | Exc _ w' => o_trace (w_io w') = o_trace (w_io w) | UB _ => True end) -> tells P m.
Proof. intros H w. specialize (H w). destruct (m w); try done; rewrite H; exists []; by rewrite app_nil_r. Qed.
Lemma tells_bind {A B} (m : M A) (k : A -> M B) : tells P m -> (forall a, tells P (k a)) -> tells P (bind m k).
Proof.
  intros Hm Hk w. unfold bind. specialize (Hm w). destruct (m w) as [a w1| |]; try done.
  destruct Hm as (e1 & E1 & F1). specialize (Hk a w1). destruct (k a w1); try done.
  all: destruct Hk as (e2 & E2 & F2); exists (e1 ++ e2); rewrite E2, E1, app_assoc; split; [done|].
  all: by apply Forall_app.
Qed.
Lemma tells_mapM_ {A} (f : A -> M unit) l : (forall a, tells P (f a)) -> tells P (mapM_ f l).
Proof. intros H. induction l as [|a l IH]; cbn; [by apply tells_io|]. by apply tells_bind. Qed.
Lemma tells_emit e : P e -> tells P (emit e).
Proof. intros He w. exists [e]. split; [done|by constructor]. Qed.
End Tells.

Lemma tells_sock_write {env : Env} s : tells other (sock_write s).
Proof.
  unfold sock_write. apply tells_bind; [by apply tells_io|]. intros b. destruct b; cbn; [|by apply tells_io].
  apply tells_bind; [by apply tells_io|]. intros rs. apply tells_bind; [by apply tells_io|]. intros _.
  destruct rs as [|[] rs]; try (by apply tells_emit); try (by apply tells_io).
Qed.
Lemma tells_b_log {env : Env} flags s : tells other (b_log flags s).
Proof.
  unfold b_log. apply tells_bind; [by apply tells_io|]. intros l. destruct (Log.flux l flags s) as [sys usr].
  apply tells_bind; [apply tells_mapM_; intros [lv t]; by apply tells_emit|]. intros _.
  destruct usr as [[lv t]|]; [|by apply tells_io]. unfold poll_log.
  apply tells_bind; [by apply tells_io|]. intros i. apply tells_mapM_. intros line.
  apply tells_bind; [apply tells_io; intros w; unfold get_nick; by destruct (_ !! _)|]. intros u.
  apply tells_bind; [apply tells_io; intros w; unfold lift; by destruct (Msg.addArg _ _)|]. intros m.
  destruct (nk_kind u); try (by apply tells_io). unfold user_send. destruct sockw; [|by apply tells_io].
  apply tells_bind; [|intros; apply tells_sock_write].
  apply tells_io. intros w. unfold format. by destruct (_ && _).
Qed.

(** ** The runs *)

(** The state after the events [evs]. *)
Definition told (evs : list event) (w : world) : world := on_io (up_o_trace (fun t => t ++ evs)) w.
Lemma told_twice es es' w : told es' (told es w) = told (es ++ es') w.
Proof. destruct w as [h i []]. unfold told, on_io, up_o_trace. cbn. by rewrite <- app_assoc. Qed.
Lemma told_nil w : told [] w = w.
Proof. destruct w as [h i []]. unfold told, on_io, up_o_trace. cbn. by rewrite app_nil_r. Qed.

Section Runs.
Context {env : ImEnv} {ui : UiInts env}.

(** The two settings, written one after the other. *)
Definition both (a : aid) (d id : Z) : list event :=
  [ImCall (Purple (UiInt a "delay-reconnect" d)); ImCall (Purple (UiInt a "id-reconnect" id))].
Definition stop_events (t : list event) (a : aid) : list event :=
  if 0 <=? a_timer t a then [ImCall (Purple (SourceRemove (a_timer t a)))] else [].
Definition timer_events (t : list event) (a : aid) (ms : Z) : list event :=
  stop_events t a ++ [ImCall (Purple (TimeoutAdd a ms))].
Definition delay_events (t : list event) (a : aid) (delay : Z) : list event :=
  let es := timer_events t a (delay * 1000) in
  es ++ both a delay (timer_id (t ++ es)).

Lemma delay_run a w :
  let d := a_delay (o_trace (w_io w)) a * 2 in
  int_ok d = true ->
  delayReconnect a w =
    if int_ok (d * 1000) then Ok d (told (delay_events (o_trace (w_io w)) a d) w) else UB "signed overflow".
Proof.
  intros d Hd. unfold delayReconnect, int_or, ask, trace, bind, get. cbn. fold d. rewrite Hd. cbn.
  unfold delay_events, timer_events, stop_events.
  destruct (0 <=? a_timer (o_trace (w_io w)) a) eqn:E; cbn; rewrite ?E; cbn; destruct (int_ok (d * 1000)); cbn; try done.
  all: destruct w as [h i []]; unfold on_io, up_o_trace, told; cbn; by rewrite <- ?app_assoc.
Qed.

(** ** The invariant *)

(** The pending source of every account is the one its id-reconnect names, if any;
    the delay is 15 seconds, doubled at most 17 times. *)
Record coherent (t : list event) (p : gmap Z aid) : Prop := {
  co_ids a id : p !! id = Some a <-> a_timer t a = id /\ 0 <= id;
  co_delay a : exists k, 0 <= k <= 17 /\ a_delay t a = 15 * 2 ^ k
}.

Lemma int_ok_spec z : int_ok z = true <-> - 2 ^ 31 <= z < 2 ^ 31.
Proof. unfold int_ok. by rewrite andb_true_iff, Z.leb_le, Z.ltb_lt. Qed.
Lemma pow_range k n : 0 <= k <= n -> 0 < 2 ^ k <= 2 ^ n.
Proof. intros Hk. split; [apply Z.pow_pos_nonneg|apply Z.pow_le_mono_r]; lia. Qed.
Lemma last_int_app a key d t u : last_int a key d (t ++ u) = last_int a key (last_int a key d t) u.
Proof. apply last_set_app. Qed.
Lemma timer_app t u a : a_timer (t ++ u) a = last_int a "id-reconnect" (a_timer t a) u.
Proof. by rewrite !ui_timer, last_int_app. Qed.
Lemma delay_app t u a : a_delay (t ++ u) a = last_int a "delay-reconnect" (a_delay t a) u.
Proof. by rewrite !ui_delay, last_int_app. Qed.

Lemma other_int a e key : other e -> key = "delay-reconnect" \/ key = "id-reconnect" -> set_int a key e = None.
Proof.
  intros He Hk. destruct e as [| | | | | | |c]; try done. destruct c; try done. destruct c; try done. cbn in *. unfold of_account.
  destruct (Nat.eqb a0 a); [|done]. cbn. apply andb_prop_elim in He as [H1 H2].
  apply negb_prop_elim in H1, H2. destruct (String.eqb_spec key0 key) as [->|]; [|done].
  destruct Hk as [->| ->]; [destruct H1|destruct H2]; by rewrite String.eqb_refl.
Qed.
Lemma other_ints a key d es :
  Forall (fun e => other e) es -> key = "delay-reconnect" \/ key = "id-reconnect" -> last_int a key d es = d.
Proof. intros H Hk. revert d. induction H as [|e es He _ IH]; intros d; [done|]. unfold last_int, last_set in *. cbn [foldl]. by rewrite (other_int _ _ _ He Hk), IH. Qed.
Lemma other_sources t es p : Forall (fun e => other e) es -> sources t es p = Some p.
Proof.
  intros H. revert t. induction H as [|e es He _ IH]; intros t; [done|]. cbn.
  destruct e as [| | | | | | |c]; try done. destruct c; try done. by destruct c.
Qed.
Lemma sources_app t es es' p :
  sources t (es ++ es') p = sources t es p ≫= sources (t ++ es) es'.
Proof.
  revert t p. induction es as [|e es IH]; intros t p; cbn; [by rewrite app_nil_r|].
  replace (t ++ e :: es) with ((t ++ [e]) ++ es) by by rewrite <- app_assoc.
  destruct e as [| | | | | | |c]; try apply IH. destruct c; try apply IH. destruct c; try apply IH.
  destruct (p !! id); [apply IH|done].
Qed.

Lemma coherent_other t es p : coherent t p -> Forall (fun e => other e) es -> coherent (t ++ es) p.
Proof.
  intros [H1 H2] He. split.
  - intros a id. rewrite timer_app, other_ints by auto. apply H1.
  - intros a. rewrite delay_app, other_ints by auto. apply H2.
Qed.

Lemma set_int_same a key v : set_int a key (ImCall (Purple (UiInt a key v))) = Some v.
Proof. apply of_account_same. Qed.
Lemma set_int_other a b key k v :
  a <> b \/ key <> k -> set_int a key (ImCall (Purple (UiInt b k v))) = None.
Proof.
  intros H. cbn. unfold of_account. destruct (Nat.eqb_spec b a), (String.eqb_spec k key); subst; try done. by destruct H.
Qed.

Lemma both_delay a d id e : last_int a "delay-reconnect" e (both a d id) = d.
Proof.
  unfold last_int, last_set, both. cbn [foldl]. rewrite set_int_same. cbn [default]. by rewrite set_int_other by by right.
Qed.
Lemma both_timer a d id e : last_int a "id-reconnect" e (both a d id) = id.
Proof. unfold last_int, last_set, both. cbn [foldl]. by rewrite (set_int_same a "id-reconnect"). Qed.
Lemma both_other a b d id key e : a <> b -> last_int b key e (both a d id) = e.
Proof. intros H. unfold last_int, last_set, both. cbn [foldl]. by rewrite !set_int_other by auto. Qed.

(** The sources when that of [a], if any, is gone. *)
Lemma stop_sources t p a :
  coherent t p -> exists p', sources t (stop_events t a) p = Some p'
    /\ forall id b, p' !! id = Some b <-> p !! id = Some b /\ b <> a.
Proof.
  intros [Hi Hd]. unfold stop_events. destruct (Z.leb_spec 0 (a_timer t a)) as [E|E]; cbn.
  - assert (Hin : p !! a_timer t a = Some a) by (by apply Hi). rewrite Hin.
    eexists. split; [done|]. intros id b. rewrite lookup_delete_Some. split; intros [H1 H2]; split; try done.
    + intros ->. apply Hi in H2 as [<- _]. done.
    + intros <-. rewrite Hin in H1. congruence.
  - exists p. split; [done|]. intros id b. split; [|by intros [? _]].
    intros H. split; [done|]. intros ->. apply Hi in H. lia.
Qed.
Lemma stop_ints t a b key d : last_int b key d (stop_events t a) = d.
Proof. unfold stop_events. by destruct (0 <=? _). Qed.

(** After the timer of [a] alone changed, to none or to a new source. *)
Lemma coherent_update t u p p0 a :
  coherent t p -> (forall id b, p0 !! id = Some b <-> p !! id = Some b /\ b <> a) ->
  (forall b, b <> a -> a_timer (t ++ u) b = a_timer t b /\ a_delay (t ++ u) b = a_delay t b) ->
  (exists k, 0 <= k <= 17 /\ a_delay (t ++ u) a = 15 * 2 ^ k) ->
  let v := a_timer (t ++ u) a in
  (v < 0 -> coherent (t ++ u) p0) /\ (0 <= v -> p0 !! v = None -> coherent (t ++ u) (<[v := a]> p0)).
Proof.
  intros [Hi Hd] H0 Hb Ha v.
  assert (Hdl : forall b, exists k, 0 <= k <= 17 /\ a_delay (t ++ u) b = 15 * 2 ^ k).
  { intros b. destruct (decide (b = a)) as [->|Hn]; [done|]. rewrite (proj2 (Hb b Hn)). apply Hd. }
  split; [intros Hv|intros Hv Hf]; (split; [|done]); intros b id.
  - destruct (decide (b = a)) as [->|Hn].
    + rewrite H0. split; [by intros [_ ?]|fold v; lia].
    + rewrite H0, Hi, (proj1 (Hb b Hn)). by split; [intros [? _]|].
  - destruct (decide (b = a)) as [->|Hn].
    + rewrite lookup_insert_Some, H0. fold v. split; [by intros [[-> _]|[_ [_ ?]]]|].
      intros [-> _]. by left.
    + rewrite lookup_insert_Some, H0, Hi, (proj1 (Hb b Hn)).
      split; [by intros [[_ <-]|[_ [? _]]]|]. intros [H1 H2]. right.
      split; [|done]. intros <-. assert (E : p0 !! v = Some b) by (by apply H0; split; [apply Hi|]). congruence.
Qed.

Lemma delay_coherent t p a d :
  coherent t p -> d = a_delay t a * 2 -> int_ok (d * 1000) = true ->
  let new := timer_id (t ++ timer_events t a (d * 1000)) in
  0 < new -> p !! new = None ->
  exists p', sources t (delay_events t a d) p = Some p' /\ coherent (t ++ delay_events t a d) p'.
Proof.
  intros Hc Hd Ho new Hp Hf. destruct (stop_sources t p a Hc) as (p0 & Hs & H0).
  exists (<[new := a]> p0). unfold delay_events. fold new. set (u := timer_events t a (d * 1000) ++ _). split.
  { unfold u, timer_events in *. rewrite !sources_app, Hs. cbn. by rewrite <- app_assoc. }
  assert (Hu : forall b key e, last_int b key e u = last_int b key e (both a d new)).
  { intros b key e. unfold u, timer_events. by rewrite !last_int_app, stop_ints. }
  assert (Hnew : a_timer (t ++ u) a = new) by (by rewrite timer_app, Hu, both_timer).
  destruct (coherent_update t u p p0 a Hc H0) as [_ H].
  - intros b Hb. rewrite timer_app, delay_app, !Hu. by rewrite !both_other.
  - rewrite delay_app, Hu, both_delay.
    destruct (co_delay _ _ Hc a) as (k & Hk & E). exists (k + 1).
    assert (k <> 17) by (intros ->; by rewrite Hd, E in Ho).
    rewrite Hd, E, Z.pow_add_r, Z.pow_1_r by lia. split; lia.
  - rewrite Hnew in H. apply H; [lia|]. destruct (p0 !! new) eqn:E; [|done]. apply H0 in E as [E _]. congruence.
Qed.

Lemma cancel_coherent t p a u :
  coherent t p ->
  (forall b key d, key = "delay-reconnect" \/ key = "id-reconnect" -> last_int b key d u = last_int b key d
    (both a 15 (-1))) ->
  (forall p', sources t (stop_events t a) p = Some p' -> sources t u p = Some p') ->
  exists p', sources t u p = Some p' /\ coherent (t ++ u) p'.
Proof.
  intros Hc Hu Hs. destruct (stop_sources t p a Hc) as (p0 & Hp & H0). exists p0. split; [by apply Hs|].
  destruct (coherent_update t u p p0 a Hc H0) as [H _].
  - intros b Hb. rewrite timer_app, delay_app, !Hu by auto. by rewrite !both_other.
  - rewrite delay_app, Hu, both_delay by auto. by exists 0.
  - apply H. rewrite timer_app, Hu by auto. by rewrite both_timer.
Qed.

(** What [removeReconnection] appends to the trace. *)
Lemma cancel_run a verbose w w' :
  removeReconnection a verbose w = Ok tt w' ->
  exists es, Forall (fun e => other e) es /\
    o_trace (w_io w') = o_trace (w_io w) ++ stop_events (o_trace (w_io w)) a ++ es
      ++ both a 15 (-1).
Proof.
  unfold removeReconnection, ask, trace, bind, get, ret. cbn -[b_log]. unfold stop_events, when.
  destruct (0 <=? a_timer (o_trace (w_io w)) a) eqn:E; cbn -[b_log].
  2: { intros [= <-]. exists []. split; [done|]. cbn. by rewrite <- !app_assoc. }
  destruct verbose; cbn -[b_log].
  2: { intros [= <-]. exists []. split; [done|]. cbn. by rewrite <- !app_assoc. }
  set (w1 := on_io _ w).
  pose proof (tells_b_log ImAcc.info ("Abort auto-reconnection to " +:+ a_servername (o_trace (w_io w1)) a) w1) as H.
  destruct (b_log _ _ w1) as [[] w2| |]; try done. intros [= <-]. destruct H as (es & Ht & He). exists es.
  split; [done|]. cbn. rewrite Ht. cbn. by rewrite <- !app_assoc.
Qed.

Lemma fire_coherent t p a id :
  coherent t p -> p !! id = Some a ->
  coherent (t ++ [ImCall (Purple (UiInt a "id-reconnect" (-1))); ImCall (Purple (SetEnabled a true))]) (delete id p).
Proof.
  intros Hc Hid. pose proof (proj1 (co_ids _ _ Hc a id) Hid) as [Ha Hp].
  destruct (coherent_update t [ImCall (Purple (UiInt a "id-reconnect" (-1))); ImCall (Purple (SetEnabled a true))]
    p (delete id p) a Hc) as [H _].
  - intros i b. rewrite lookup_delete_Some. split; intros [H1 H2]; (split; [try done|try done]).
    + intros ->. apply (co_ids _ _ Hc) in H2 as [? _]. congruence.
    + intros <-. congruence.
  - intros b Hb. rewrite timer_app, delay_app. unfold last_int, last_set. cbn [foldl].
    by rewrite !set_int_other by auto.
  - rewrite delay_app. unfold last_int, last_set. cbn [foldl]. rewrite set_int_other by by right. apply (co_delay _ _ Hc).
  - apply H. rewrite timer_app. unfold last_int, last_set. cbn [foldl]. by rewrite set_int_same.
Qed.

(** ** Any sequence of operations *)

(** The ids of new sources are positive and not those of pending ones. *)
Fixpoint fresh_ids (t es : list event) (p : gmap Z aid) : Prop :=
  match es with
  | [] => True
  | e :: es =>
    let t := t ++ [e] in
    match e with
    | ImCall (Purple (TimeoutAdd _ _)) => 0 < timer_id t /\ p !! timer_id t = None
    | _ => True
    end /\ fresh_ids t es p
  end.
Lemma fresh_app t es es' p : fresh_ids t (es ++ es') p -> fresh_ids (t ++ es) es' p.
Proof.
  revert t. induction es as [|e es IH]; intros t; cbn; [by rewrite app_nil_r|]. intros [_ H].
  apply IH in H. by rewrite <- app_assoc in H.
Qed.

(** A failure to connect, a cancelled reconnection, a timer that elapses, and the rest. *)
Inductive move := Fails (a : aid) | Cancels (a : aid) | Elapses (a : aid) | Else.
Inductive tstep : move -> world * option (gmap Z aid) -> world * option (gmap Z aid) -> Prop :=
| TDelay a w d w' p es :
    delayReconnect a w = Ok d w' -> o_trace (w_io w') = o_trace (w_io w) ++ es ->
    fresh_ids (o_trace (w_io w)) es p ->
    tstep (Fails a) (w, Some p) (w', sources (o_trace (w_io w)) es p)
| TCancel a verbose w w' p es :
    removeReconnection a verbose w = Ok tt w' -> o_trace (w_io w') = o_trace (w_io w) ++ es ->
    tstep (Cancels a) (w, Some p) (w', sources (o_trace (w_io w)) es p)
| TFire a id w w' p es :                        (* the main loop runs the source and drops it *)
    p !! id = Some a ->
    reconnect a w = Ok tt w' -> o_trace (w_io w') = o_trace (w_io w) ++ es ->
    tstep (Elapses a) (w, Some p) (w', sources (o_trace (w_io w)) es (delete id p))
| TOther w w' p es :
    o_trace (w_io w') = o_trace (w_io w) ++ es -> Forall (fun e => other e) es ->
    tstep Else (w, Some p) (w', sources (o_trace (w_io w)) es p).
Inductive truns : list move -> world * option (gmap Z aid) -> world * option (gmap Z aid) -> Prop :=
| truns_nil s : truns [] s s
| truns_cons m l s1 s2 s3 : tstep m s1 s2 -> truns l s2 s3 -> truns (m :: l) s1 s3.
(** The failures of each account since a reconnection was cancelled, after those of [c]. *)
Definition fails (c : aid -> Z) (m : move) : aid -> Z :=
  match m with
  | Fails a => fun b => if (b =? a)%nat then c b + 1 else c b
  | Cancels a => fun b => if (b =? a)%nat then 0 else c b
  | _ => c
  end.

Lemma tstep_coherent m w p w' o :
  tstep m (w, Some p) (w', o) -> coherent (o_trace (w_io w)) p ->
  exists p', o = Some p' /\ coherent (o_trace (w_io w')) p'.
Proof.
  intros Hs Hc. inversion Hs as [a w1 d w2 p1 es Hr Ht Hf|a vb w1 w2 p1 es Hr Ht|a id w1 w2 p1 es Hid Hr Ht|w1 w2 p1 es Ht Ho];
    subst; rewrite Ht.
  - assert (Hd : int_ok (a_delay (o_trace (w_io w)) a * 2) = true).
    { destruct (co_delay _ _ Hc a) as (k & Hk & ->). apply int_ok_spec.
      pose proof (pow_range k 17 Hk). lia. }
    rewrite (delay_run a w Hd) in Hr. destruct (int_ok (_ * 1000)) eqn:Ho; [|done]. injection Hr as <- <-.
    cbn in Ht. apply app_inv_head in Ht. subst es. unfold delay_events, timer_events in Hf.
    rewrite <- app_assoc in Hf. apply fresh_app in Hf as [[F1 F2] _]. rewrite <- app_assoc in F1, F2.
    by apply delay_coherent.
  - destruct (cancel_run _ _ _ _ Hr) as (eo & Ho & Hw). rewrite Hw in Ht. apply app_inv_head in Ht. subst es.
    apply (cancel_coherent _ _ a); [done|..].
    + intros b key d Hk. rewrite !last_int_app, stop_ints. by rewrite (other_ints b key d eo Ho Hk).
    + intros p' Hp'. rewrite sources_app, Hp'. cbn [mbind option_bind].
      by rewrite sources_app, (other_sources _ _ _ Ho).
  - unfold reconnect, ui_int, connect, im_call, emit, bind, put in Hr. injection Hr as <-. cbn in Ht.
    rewrite <- app_assoc in Ht. apply app_inv_head in Ht. subst es. eexists. split; [done|]. by apply fire_coherent.
  - exists p. split; [by apply other_sources|]. by apply coherent_other.
Qed.

(** Each failure to connect doubles the delay before the next attempt, and asks the
    main loop for a timer of that many seconds; after 17 of them the milliseconds no
    longer are an [int]. *)
Theorem delay_doubles a k w :
  a_delay (o_trace (w_io w)) a = 15 * 2 ^ k -> 0 <= k <= 17 ->
  delayReconnect a w =
    if k <? 17 then Ok (15 * 2 ^ (k + 1)) (told (delay_events (o_trace (w_io w)) a (15 * 2 ^ (k + 1))) w)
    else UB "signed overflow".
Proof.
  intros Hd Hk. assert (Hp : 2 ^ (k + 1) = 2 ^ k * 2) by (by rewrite Z.pow_add_r by lia).
  pose proof (pow_range k 17 Hk).
  assert (E : a_delay (o_trace (w_io w)) a * 2 = 15 * 2 ^ (k + 1)) by (rewrite Hd, Hp; lia).
  rewrite delay_run, E.
  2: rewrite E, Hp; apply int_ok_spec; lia.
  destruct (Z.ltb_spec k 17) as [Hl|Hl].
  - pose proof (pow_range (k + 1) 17 ltac:(lia)).
    rewrite (proj2 (int_ok_spec _)); [done|]. rewrite Hp in *. lia.
  - by replace k with 17 by lia.
Qed.
(** The delay is doubled by a failure, and 15 seconds again after a cancellation. *)
Lemma tstep_delay m w p w' o (c : aid -> Z) :
  tstep m (w, Some p) (w', o) -> coherent (o_trace (w_io w)) p ->
  (forall a, 0 <= c a <= 17 /\ a_delay (o_trace (w_io w)) a = 15 * 2 ^ c a) ->
  forall a, 0 <= fails c m a <= 17 /\ a_delay (o_trace (w_io w')) a = 15 * 2 ^ fails c m a.
Proof.
  intros Hs Hc HD b. destruct (HD b) as [Hk Hb].
  inversion Hs as [a w1 d w2 p1 es Hr Ht Hf|a vb w1 w2 p1 es Hr Ht|a id w1 w2 p1 es Hid Hr Ht|w1 w2 p1 es Ht Ho]; subst; cbn [fails].
  - destruct (HD a) as [Hka Ha]. rewrite (delay_doubles a (c a) w Ha Hka) in Hr.
    destruct (Z.ltb_spec (c a) 17) as [Hl|]; [|done]. injection Hr as <- <-. cbn. rewrite delay_app.
    unfold delay_events, timer_events. rewrite !last_int_app, stop_ints.
    destruct (Nat.eqb_spec b a) as [->|Hn]; [rewrite both_delay; split; [lia|done]|].
    rewrite both_other by auto. split; [lia|done].
  - destruct (cancel_run _ _ _ _ Hr) as (eo & Ho & Hw). rewrite Hw, delay_app, !last_int_app, stop_ints, (other_ints _ _ _ eo Ho) by auto.
    destruct (Nat.eqb_spec b a) as [->|Hn]; [by rewrite both_delay|]. by rewrite both_other by auto.
  - unfold reconnect, ui_int, connect, im_call, emit, bind, put in Hr. injection Hr as <-. cbn.
    rewrite <- app_assoc, delay_app. unfold last_int, last_set. cbn [foldl app]. rewrite set_int_other by by right. done.
  - rewrite Ht, delay_app, other_ints by auto. done.
Qed.

End Runs.
End Timers.

(** * The chats to join *)

Module Joins.

Lemma words_app ds s d t cur :
  has_char d ds = true -> Tok.words ds (s +:+ String d t) cur = Tok.words ds s cur ++ Tok.words ds t "".
Proof.
  intros Hd. revert cur. induction s as [|c s IH]; intros cur; rewrite ?app_nil_l_s, ?app_cons_s; cbn [Tok.words].
  - rewrite Hd. by destruct (sempty cur).
  - destruct (has_char c ds); [|apply IH]. destruct (sempty cur); cbn; by rewrite IH.
Qed.
Lemma words_free ds s cur :
  Tok.free_of ds s -> Tok.words ds s cur = if sempty (cur +:+ s) then [] else [cur +:+ s].
Proof.
  unfold Tok.free_of. revert cur. induction s as [|c s IH]; intros cur; cbn; [by rewrite app_nil_s|].
  intros [Hc%negb_true_iff Hs]%andb_true_iff. by rewrite Hc, IH, app_assoc_s.
Qed.
(** The queue [q] with one more name. *)
Definition enqueued_one (q c : string) : string := (if sempty q then "" else q +:+ ",") +:+ c.
Definition plain_name (c : string) : Prop := c <> "" /\ Tok.free_of "," c.
Lemma tokens_enqueued q c :
  plain_name c -> Tok.tokens "," (enqueued_one q c) = Tok.tokens "," q ++ [c].
Proof.
  intros [Hn Hc]. assert (Hw : Tok.words "," c "" = [c]) by (rewrite words_free by done; by destruct c).
  unfold enqueued_one. rewrite !Tok.tokens_words. destruct (sempty q) eqn:E; [by apply sempty_spec in E as ->|].
  rewrite app_assoc_s, app_cons_s, app_nil_l_s. by rewrite words_app, Hw.
Qed.

Section Joins.
Context {env : ImEnv}.
(** The queue is the string that was set last. *)
Context (saved_queue : aid -> string)
  (ui_queue : forall t a, a_join_queue t a = last_string a "join_queue" (saved_queue a) t).

Lemma queue_set t a q : a_join_queue (t ++ [ImCall (Purple (UiString a "join_queue" q))]) a = q.
Proof. rewrite ui_queue. apply last_set_just, of_account_same. Qed.

Lemma enqueue_run a c w :
  enqueueChannelJoin a c w = Ok tt (Timers.told
    [ImCall (Purple (UiString a "join_queue" (enqueued_one (a_join_queue (o_trace (w_io w)) a) c)))] w).
Proof. done. Qed.

(** The chats asked for while the account is not connected are joined when it is,
    each once and in the order they were asked for, after those of the queue, and the
    queue is emptied. *)
Theorem joins_in_order a l w :
  Forall plain_name l ->
  exists w', mapM_ (enqueueChannelJoin a) l w = Ok tt w' /\ w_heap w' = w_heap w /\ w_irc w' = w_irc w
    /\ (forall w1, a_join_queue (o_trace (w_io w1)) a = a_join_queue (o_trace (w_io w')) a ->
         flushChannelJoins a w1 =
           (mapM_ (fun c => let! _ok := joinChat a c ""; ret tt)
              (Tok.tokens "," (a_join_queue (o_trace (w_io w)) a) ++ l);;
            ui_string a "join_queue" "") w1)
    /\ (forall w1 w2, flushChannelJoins a w1 = Ok tt w2 -> a_join_queue (o_trace (w_io w2)) a = "").
Proof.
  intros Hl.
  assert (H : exists w', mapM_ (enqueueChannelJoin a) l w = Ok tt w' /\ w_heap w' = w_heap w /\ w_irc w' = w_irc w
    /\ Tok.tokens "," (a_join_queue (o_trace (w_io w')) a)
        = Tok.tokens "," (a_join_queue (o_trace (w_io w)) a) ++ l).
  { revert w. induction Hl as [|c l Hc _ IH]; intros w; [exists w; by rewrite app_nil_r|]. cbn [mapM_].
    unfold bind. rewrite enqueue_run. edestruct IH as (w' & H1 & H2 & H3 & H4). exists w'.
    split; [exact H1|]. split; [done|]. split; [done|]. rewrite H4. cbn [Timers.told w_io on_io up_o_trace o_trace].
    by rewrite queue_set, tokens_enqueued, <- app_assoc by done. }
  destruct H as (w' & H1 & H2 & H3 & H4). exists w'. repeat (split; [done|]). split.
  - intros w1 Hq. by rewrite <- H4, <- Hq.
  - intros w1 w2. unfold flushChannelJoins, bind. destruct (ask _ w1) as [f wf| |]; try done.
    destruct (mapM_ _ _ wf) as [[] w3| |]; try done. intros [= <-]. apply queue_set.
Qed.
End Joins.
End Joins.

(** * The options of an account *)

Module Options.
Section Options.
Context {env : ImEnv}.

(** libpurple gives back what was stored last. *)
Class OptStore := {
  read_string t a k v d : a_opt_string (t ++ [ImCall (Purple (OptString a k v))]) a k d = v;
  read_int t a k v d : a_opt_int (t ++ [ImCall (Purple (OptInt a k v))]) a k d = v;
  read_bool t a k v d : a_opt_bool (t ++ [ImCall (Purple (OptBool a k v))]) a k d = v;
  read_id t a v : v <> "" -> a_id (t ++ [ImCall (Purple (UiString a "id" v))]) a = v;
  read_aliases t a v : a_server_aliases (t ++ [ImCall (Purple (UiBool a "server_aliases" v))]) a = v;
  read_password t a v b :
    a_password (t ++ [ImCall (Purple (SetPassword a v)); ImCall (Purple (RememberPassword a b))]) a = v
}.
Context {store : OptStore}.

(** The value as it is stored: numbers and booleans in their usual form. *)
Definition stored (o : proto_option) : option string :=
  match o_type o with
  | OInt => t2s <$> Proto.getValueInt o
  | OBool | OServerAliases => Some (Proto.of_bool (Proto.getValueBool o))
  | _ => Some (o_value o)
  end.
(** An ID or a password which is not empty, or an option of another type; the status
    channel is that of [setStatusChannelName]. *)
Definition readable (o : proto_option) : Prop :=
  match o_type o with
  | OAccid | OPassword => o_value o <> ""
  | OStatusChannel | ONone => False
  | _ => True
  end.

(** An option which is accepted reads back as it was set, up to the form of numbers
    and booleans; one which is refused changes nothing. *)
Theorem option_roundtrip a o r w w' :
  readable o -> setOption a o w = Ok r w' ->
  match r with
  | None => exists v, stored o = Some v /\ getOption a o w' = Ok (POption (o_name o) (o_type o) v) w'
  | Some _ => w' = w
  end.
Proof.
  destruct o as [name ty v]. unfold readable, setOption, getOption, stored, or_stuck, ask, trace, get, bind, ret. cbn.
  intros Hr. destruct ty; cbn in *; try done.
  - intros [= <- <-]. exists v. split; [done|]. cbn. by rewrite read_string.
  - destruct (Proto.getValueInt _) as [z|]; [|done]. intros [= <- <-]. exists (t2s z). split; [done|].
    cbn. by rewrite read_int.
  - intros [= <- <-]. eexists. split; [done|]. cbn. by rewrite read_bool.
  - intros [= <- <-]. exists v. split; [done|]. cbn. by rewrite read_string.
  - destruct (String.eqb_spec (a_id (o_trace (w_io w)) a) v) as [<-|Hn].
    { intros [= <- <-]. by eexists. }
    destruct (a_connected _ a); [by intros [= <- <-]|]. destruct v as [|c v]; [done|]. cbn.
    destruct (List.find _ _); intros [= <- <-]; [done|]. eexists. split; [done|]. cbn. by rewrite read_id.
  - intros [= <- <-]. eexists. split; [done|]. cbn. by rewrite read_aliases.
  - destruct (String.eqb_spec v (a_password (o_trace (w_io w)) a)) as [->|Hn].
    { intros [= <- <-]. by eexists. }
    destruct v as [|c v]; [done|]. cbn. intros [= <- <-]. eexists. split; [done|]. cbn.
    rewrite <- app_assoc. cbn [app]. by rewrite read_password.
Qed.
End Options.
End Options.

(** * Runs *)

Import Timers.

#[local] Instance demo_ui ty c n b o : UiInts (demo_im ty c n b o).
Proof.
  refine {| saved_int := fun _ key => if String.eqb key "delay-reconnect" then 15 else -1 |}; reflexivity.
Defined.

Lemma new_name_fresh_witness :
  exists k, 0 <= k <= 0 /\ @getNewAccountName demo_chat "prpl-jabber" 0 demo_world = Ok ("jabber" +:+ suffix k) demo_world
    /\ ("jabber" +:+ suffix k ∉ []) /\ (forall j, 0 <= j < k -> ("jabber" +:+ suffix j ∈ [])).
Proof. apply (@NewNameP.new_name_fresh demo_chat "prpl-jabber" 0 demo_world). reflexivity. Defined.

Definition after {A} (m : M A) (w : world) : world := match m w with Ok _ w' | Exc _ w' => w' | UB _ => w end.
Definition demo_failed : world := after (@delayReconnect demo_chat 0) demo_world.
Definition demo_again : world := after (reconnect 0) demo_failed.
Definition demo_failed2 : world := after (@delayReconnect demo_chat 0) demo_again.
Definition demo_cancelled : world := after (@removeReconnection demo_chat 0 false) demo_failed2.
Definition news (w w' : world) : list event := drop (length (o_trace (w_io w))) (o_trace (w_io w')).
Definition demo_moves : list move := [Fails 0; Elapses 0; Fails 0; Cancels 0]%nat.

Lemma delay_doubles_witness :
  @delayReconnect demo_chat 0 demo_world
  = Ok 30 (told (@delay_events demo_chat (o_trace (w_io demo_world)) 0 30) demo_world).
Proof. apply (@delay_doubles demo_chat 0 0); [reflexivity|lia]. Defined.

Lemma joins_in_order_witness :
  exists w', mapM_ (@enqueueChannelJoin demo_chat 0) ["room"; "lobby"] demo_world = Ok tt w'
    /\ w_heap w' = w_heap demo_world /\ w_irc w' = w_irc demo_world
    /\ (forall w1, @a_join_queue demo_chat (o_trace (w_io w1)) 0 = @a_join_queue demo_chat (o_trace (w_io w')) 0 ->
         @flushChannelJoins demo_chat 0 w1 =
           (mapM_ (fun c => let! _ok := @joinChat demo_chat 0 c ""; ret tt) ["room"; "lobby"];;
            ui_string 0 "join_queue" "") w1)
    /\ (forall w1 w2, @flushChannelJoins demo_chat 0 w1 = Ok tt w2 -> @a_join_queue demo_chat (o_trace (w_io w2)) 0 = "").
Proof.
  apply (@Joins.joins_in_order demo_chat (fun _ => "") (fun _ _ => eq_refl) 0 ["room"; "lobby"] demo_world).
  repeat constructor; discriminate.
Defined.

#[local] Instance demo_store ty c n b o : @Options.OptStore (demo_im ty c n b o).
Proof.
  split; intros; cbn; try (apply last_set_just; first [apply of_account_same|cbn; by rewrite Nat.eqb_refl]).
  replace (t ++ _) with ((t ++ [ImCall (Purple (SetPassword a v))]) ++ [ImCall (Purple (RememberPassword a b0))])
    by by rewrite <- app_assoc.
  rewrite last_set_app. apply last_set_just. cbn. by rewrite Nat.eqb_refl.
Defined.
Definition port_option : proto_option := POption "port" OInt "05222".
Lemma option_roundtrip_witness :
  exists v, Options.stored port_option = Some v
    /\ @getOption demo_chat 0 port_option (Timers.told [ImCall (Purple (OptInt 0 "port" 5222))] demo_world)
       = Ok (POption "port" OInt v) (Timers.told [ImCall (Purple (OptInt 0 "port" 5222))] demo_world).
Proof.
  apply (@Options.option_roundtrip demo_chat _ 0 port_option None demo_world
    (Timers.told [ImCall (Purple (OptInt 0 "port" 5222))] demo_world)); [exact I|reflexivity].
Defined.

(** The accounts file of the previous run has a source: it is removed all the same. *)
Definition demo_restarted : world := told [ImCall (Purple (UiInt 0 "id-reconnect" 5))] demo_world.
Example stale_source :
  @sources demo_chat (o_trace (w_io demo_restarted))
    (news demo_restarted (after (@removeReconnection demo_chat 0 false) demo_restarted)) ∅ = None.
Proof. reflexivity. Qed.
