(* ===== verification/ImStatus.v ===== *)
(** The status channels of im/account.cpp: an account takes its place on the channel
    of its setting, made if need be, with its buddies; it leaves it with them, and the
    channel goes with its last account. *)

From S2P Require Import Prelude Util Message Log World Dcc Nick Demo Logic Channel Registry Members Kinds Irc Cmds CmdsChannels CmdsAccounts Calm Queries Dispatch Safety Talk Session Closing ImLayer ImConv ImSafety ImAccount ImProps.
Import W Obj Names Send Chan Reg Kinds Wf View Leave Join Drop Closing CmdsA ImNick ImWf ImP ImAcc.

Module Status.
Section Status.
Context {env : ImEnv}.

(** The channel [c] is the status channel [nm], of the accounts [accs]. *)
Definition status_chan (nm : string) (c : cid) (accs : list aid) (w : world) : Prop :=
  i_channels (w_irc w) !! nm = Some c
  /\ exists ch, h_chans (w_heap w) !! c = Some ch /\ ch_kind ch = KStatus accs.

Lemma status_settled nm c accs w w' : status_chan nm c accs w -> settled w w' -> status_chan nm c accs w'.
Proof.
  intros [Hn (ch & Hc & Hk)] S. split; [by rewrite (se_irc _ _ S)|]. by eapply se_status.
Qed.

Lemma wp_getStatusChannel a (Q : option cid -> world -> Prop) w :
  wf w ->
  (forall w1, wf w1 -> settled w w1 ->
     (isStatusChannel (a_channel (o_trace (w_io w)) a) = true ->
      forall c accs, ~ status_chan (a_channel (o_trace (w_io w)) a) c accs w) -> Q None w1) ->
  (forall c accs, status_chan (a_channel (o_trace (w_io w)) a) c accs w -> Q (Some c) w) ->
  safe (getStatusChannel a) Q w.
Proof.
  intros W HN HS. unfold getStatusChannel. apply wp_bind, wp_ask. set (nm := a_channel _ a) in *.
  destruct (isStatusChannel nm); cbn [negb]; [|by apply wp_ret, HN].
  apply wp_bind. unfold getChannel. apply wp_bind, wp_get, wp_ret.
  assert (Hlog : (forall c accs, ~ status_chan nm c accs w) ->
    safe (b_log Log.W_ERR ("Status channel " +:+ nm +:+ " is not found.");; ret None) Q w).
  { intros Hno. apply wp_bind. destruct w as [h i o]. eapply (calm_at (World h i o)); [by eapply calm_b_log|].
    intros ? w1 _ Hh1 Hi1. apply wp_ret, HN; [by eapply wf_calm|by apply settled_same|done]. }
  apply wp_bind. destruct (i_channels (w_irc w) !! nm) as [c|] eqn:En.
  2: { apply wp_ret, Hlog. intros c accs [E _]. congruence. }
  destruct (wf_ctable _ W _ _ En) as (ch & Hc & _). apply wp_bind. eapply wp_get_chan; [done|].
  apply wp_ret. destruct (ch_kind ch) as [accs|] eqn:Ek.
  - apply wp_ret, (HS c accs). split; [done|]. by exists ch.
  - apply Hlog. intros c' accs [E (ch' & Hc' & Hk')]. rewrite En in E. injection E as <-. congruence.
Qed.

(** The accounts of a status channel change. *)
Lemma wp_set_accounts nm c f accs w :
  wf w -> status_chan nm c accs w ->
  safe (set_accounts c f) (fun _ w' => wf w' /\ status_chan nm c (f accs) w'
    /\ w_irc w' = w_irc w /\ w_io w' = w_io w
    /\ h_nicks (w_heap w') = h_nicks (w_heap w)) w.
Proof.
  intros W [Hn (ch & Hc & Hk)]. unfold set_accounts. apply wp_bind. eapply wp_get_chan; [done|]. rewrite Hk.
  apply wp_put. set (w1 := on_heap _ w).
  assert (Hc1 : h_chans (w_heap w1) !! c = Some (with_ckind ch (KStatus (f accs)))) by apply lookup_insert_eq.
  split; [|split; [split; [done|by eexists]|done]]. apply (wf_restore c).
  - by eapply (wf_put_ckind c w _ ch (with_ckind ch _)); [by apply wf_forget|..].
  - intros ch' ce up cb H Hk'. rewrite Hc1 in H. injection H as <-. done.
Qed.

(** ** Leaving *)

Definition nodes_ok (w : world) : Prop := forall b, node_ok b w.
Lemma settled_nodes w w' : settled w w' -> nodes_ok w -> nodes_ok w'.
Proof. intros S H b. by eapply settled_node. Qed.

(** libpurple always gives the nick [n] for the node. *)
Definition nick_of (b : bid) (n : nid) : Prop := forall t, b_nick t b = Some n.

Lemma wp_part_status nm c accs b w :
  wf w -> status_chan nm c accs w -> nodes_ok w ->
  safe (part_status c b) (fun _ w' => wf w' /\ settled w w' /\ (forall n, nick_of b n -> off n c w')
    /\ forall n, off n c w -> off n c w') w.
Proof.
  intros W [_ (ch & Hc & _)] HB. unfold part_status. apply wp_bind, wp_ask.
  destruct (b_nick _ b) as [n|] eqn:E.
  2: { apply wp_ret. split; [done|]. split; [reflexivity|]. split; [|done]. intros n Hn. by rewrite Hn in E. }
  destruct (HB b _ n E) as (x & b' & p & l & ce & Hx & Hk).
  eapply wp_mono; [eapply (wp_part_left n c _ x); [done|done|by rewrite Hk|by eexists]| |done].
  intros ? w' (W' & Ho & L). split; [done|]. split; [by eapply settled_left|]. split.
  - intros n' Hn'. rewrite Hn' in E. by injection E as ->.
  - intros n' Ho' u y Hy. by apply (Ho' u y), (lo_cus _ _ _ L).
Qed.
Lemma wp_part_all nm c accs l w :
  wf w -> status_chan nm c accs w -> nodes_ok w ->
  safe (mapM_ (part_status c) l) (fun _ w' => wf w' /\ settled w w'
    /\ (forall b n, b ∈ l -> nick_of b n -> off n c w') /\ forall n, off n c w -> off n c w') w.
Proof.
  revert w. induction l as [|b l IH]; intros w W Hs HB.
  { apply wp_ret. split; [done|]. split; [reflexivity|]. split; [|done]. by intros b n ?%not_elem_of_nil. }
  cbn [mapM_]. apply wp_bind. eapply wp_mono; [by eapply wp_part_status| |done].
  intros ? w1 (W1 & S1 & O1 & K1).
  eapply wp_mono; [apply IH; [done|by eapply status_settled|by eapply settled_nodes]| |done].
  intros ? w2 (W2 & S2 & O2 & K2). split; [done|]. split; [by etrans|]. split; [|auto].
  intros b' n [->|Hb]%elem_of_cons Hn; [by apply K2, O1|by eapply O2].
Qed.

(** What [leaveStatusChannel] leaves of a status channel. *)
Definition status_left (a : aid) (nm : string) (c : cid) (accs : list aid) (w w' : world) : Prop :=
  (forall b n, b ∈ a_buddies (o_trace (w_io w)) a -> nick_of b n -> off n c w') /\
  match accs with
  | [] => i_channels (w_irc w') = delete nm (i_channels (w_irc w)) /\ h_chans (w_heap w') !! c = None
  | _ => i_channels (w_irc w') = i_channels (w_irc w) /\ status_chan nm c accs w'
  end.

(** C16: an account that leaves its status channel is no more among those of the channel,
    which is deleted with its last account and only then; the buddies of the account
    have left it, and the session is well-formed. *)
Theorem leaveStatusChannel_clean a w :
  wf w -> nodes_ok w ->
  safe (leaveStatusChannel a) (fun _ w' => wf w' /\
    forall c accs, status_chan (a_channel (o_trace (w_io w)) a) c accs w ->
      isStatusChannel (a_channel (o_trace (w_io w)) a) = true ->
      status_left a (a_channel (o_trace (w_io w)) a) c (remove_first a accs) w w') w.
Proof.
  intros W HB. unfold leaveStatusChannel. apply wp_bind. set (nm := a_channel _ a).
  apply wp_getStatusChannel; [done| |].
  { intros w1 W1 _ Hno. apply wp_ret. split; [done|]. intros c accs Hs His. by destruct (Hno His c accs). }
  intros c accs Hs. fold nm in Hs. apply wp_bind.
  eapply wp_mono; [by eapply wp_set_accounts| |done]. intros ? w1 (W1 & Hs1 & Hi1 & Ho1 & Hn1).
  assert (HB1 : nodes_ok w1) by (intros b t n Hn; unfold buddy_at; rewrite Hn1; by apply (HB b t)).
  apply wp_bind, wp_ask, wp_bind. set (accs' := remove_first a accs) in *.
  eapply wp_mono; [by eapply wp_part_all| |done].
  intros ? w2 (W2 & S2 & Hall & _). rewrite Ho1 in Hall.
  pose proof (status_settled _ _ _ _ _ Hs1 S2) as [Hn2 (ch & Hc2 & Hk2)].
  apply wp_bind. eapply wp_get_chan; [done|]. rewrite Hk2.
  assert (Hout : forall w3, wf w3 -> status_left a nm c accs' w w3 -> wf w3 /\
    forall c0 accs0, status_chan nm c0 accs0 w -> isStatusChannel nm = true ->
      status_left a nm c0 (remove_first a accs0) w w3).
  { intros w3 W3 H3. split; [done|]. intros c0 accs0 [E0 (ch0 & Hc0 & Hk0)] _. destruct Hs as [E (ch1 & Hc1 & Hk1)].
    rewrite E in E0. injection E0 as <-. rewrite Hc1 in Hc0. injection Hc0 as <-. rewrite Hk1 in Hk0. injection Hk0 as <-. done. }
  assert (Et : i_channels (w_irc w2) = i_channels (w_irc w)) by (by rewrite (se_irc _ _ S2), Hi1).
  destruct accs' as [|a' l] eqn:Ea.
  - destruct (wf_ctable _ W2 _ _ Hn2) as (ch' & Hc' & Enm). rewrite Hc2 in Hc'. injection Hc' as <-. rewrite Enm.
    eapply wp_mono; [apply (wp_removeChannel nm c); [done|done|]| |done].
    + intros ch' ce up cb e x y Hc' Hk'. congruence.
    + intros ? w3 (W3 & Hd & Hno & Ht & _). apply Hout; [done|]. split; [|split; [by rewrite Ht, Et|done]].
      intros b n _ _ u x Hx [_ Ec]. by eapply Hno.
  - apply wp_ret, Hout; [done|]. split; [done|]. split; [done|]. split; [done|]. by exists ch.
Qed.

(** ** Taking its place *)

Lemma wp_status_setTopic nm c accs t w :
  wf w -> status_chan nm c accs w -> safe (status_setTopic c t) (fun _ w' => wf w' /\ settled w w') w.
Proof.
  intros W [_ (ch & Hc & Hk)]. unfold status_setTopic, chan_setTopic. apply wp_bind. eapply wp_get_chan; [done|].
  rewrite Hk. apply wp_bind, wp_bind. eapply wp_get_chan; [done|].
  assert (Hend : forall w1, wf w1 -> settled w w1 ->
    safe (when true (mapM_ (fun a => im_call (AccSetStatus a true t)) accs)) (fun _ w' => wf w' /\ settled w w') w1).
  { intros w1 W1 S1. eapply (calm_at w1); [apply calm_mapM_; intros; apply calm_im_call|].
    intros ? w2 _ Hh Hi. split; [by eapply wf_calm|]. etrans; [exact S1|]. by apply settled_same. }
  destruct (String.eqb _ _); [by apply wp_ret, Hend|]. apply wp_bind, wp_put.
  set (ch1 := with_topic ch _). set (w1 := on_heap _ w).
  assert (W1 : wf w1) by (by apply wf_put_topic). assert (Hc1 : h_chans (w_heap w1) !! c = Some ch1) by apply lookup_insert_eq.
  assert (S1 : settled w w1).
  { split; [done|done|]. intros c' ch' accs' Hc' Hk'. destruct (decide (c = c')) as [<-|Hne].
    - exists ch1. split; [done|]. rewrite Hc in Hc'. by injection Hc' as <-.
    - exists ch'. split; [|done]. cbn. by rewrite lookup_insert_ne. }
  apply wp_bind, wp_bind, wp_get, wp_ret, wp_bind, safe_mkmsg. intros l. apply wp_bind.
  eapply wp_broadcast; [done|done|done| |].
  - destruct (wf_self _ W1) as [sv Hsv]. split; intros e [= <-]; apply fmap_is_Some; by eexists.
  - intros w2 (Hh2 & Hi2 & _). apply wp_ret, Hend; [by eapply (wf_calm w1)|].
    etrans; [exact S1|]. by apply settled_same.
Qed.

(** What is asked of libpurple changes nothing here. *)
Lemma wp_calm {A} (m : M A) (Q : A -> Prop) w :
  (forall h i, calm h i m Q) -> wf w -> safe m (fun a w' => Q a /\ wf w' /\ settled w w') w.
Proof.
  intros H W. eapply (calm_at w); [apply H|]. intros a w' Ha Hh Hi.
  split; [done|]. split; [by eapply wf_calm|by apply settled_same].
Qed.
Lemma calm_status_id h i a prim : calm h i (status_id a prim) any.
Proof.
  unfold status_id. destruct (prim =? UNSET).
  - eapply calm_bind; [apply calm_ask|]. intros f _. by apply calm_ret.
  - eapply calm_bind; [apply calm_ask|]. intros f _. by apply calm_ret.
Qed.

Lemma wp_setStatus a prim message w :
  wf w -> safe (setStatus a prim message) (fun _ w' => wf w' /\ settled w w') w.
Proof.
  intros W. unfold setStatus. apply wp_bind.
  eapply wp_mono; [eapply wp_calm; [intros; apply calm_status_id|done]| |done].
  intros [id|] w1 (_ & W1 & S1); [|done].
  set (known := fun (o : option cid) w => forall c, o = Some c -> exists nm accs, status_chan nm c accs w).
  assert (Hk : forall o v v', known o v -> settled v v' -> known o v').
  { intros o v v' H S c Hc. destruct (H c Hc) as (nm & accs & Hs). exists nm, accs. by eapply status_settled. }
  match goal with |- safe (bind _ ?k) _ _ =>
    assert (Hrest : forall chan w2, wf w2 -> settled w w2 -> known chan w2 ->
      safe (k chan) (fun _ w' => wf w' /\ settled w w') w2) end.
  { intros chan w2 W2 S2 K. apply wp_bind.
    eapply (wp_mono _ (fun _ w' => w' = w2) _ (fun _ _ => True)); [| |done].
    { destruct chan as [c|]; [|by apply wp_ret]. destruct (sempty message); [|by apply wp_ret].
      destruct (K c eq_refl) as (nm & accs & _ & ch & Hc & Hk'). eapply wp_getTopic; [done| |done].
      intros ce up cb E. congruence. }
    intros msg ? ->. apply wp_bind.
    eapply (wp_mono _ (fun _ w' => wf w' /\ settled w w') _ (fun _ _ => True)); [| |done].
    - destruct (_ && _); [|by apply wp_ret]. apply wp_bind, wp_ask, wp_bind.
      destruct chan as [c|]; [|by apply wp_ret, wp_ret]. apply wp_when; intros _; [|by apply wp_ret].
      destruct (K c eq_refl) as (nm & accs & Hs).
      eapply wp_mono; [by eapply wp_status_setTopic| |done]. intros ? w3 [W3 S3]. apply wp_ret. split; [done|by etrans].
    - intros msg' w3 [W3 S3]. apply wp_put. split; [by eapply wf_calm|]. etrans; [exact S3|]. by apply settled_same. }
  apply wp_bind, wp_getStatusChannel; [done| |].
  - intros w2 W2 S2 _. apply (Hrest None); [done|etrans; [exact S1|exact S2]|done].
  - intros c accs Hs. apply (Hrest (Some c)); [done|done|]. intros ? [= <-]. by eexists _, _.
Qed.

(** The channel of that name: the one of the table, or a new one without accounts. *)
Lemma wp_open_status_channel nm w :
  wf w ->
  safe (open_status_channel nm) (fun c w' => wf w' /\ (nodes_ok w -> nodes_ok w') /\
    ((exists accs, status_chan nm c accs w /\ status_chan nm c accs w')
     \/ (forall c accs, ~ status_chan nm c accs w) /\ status_chan nm c [] w')) w.
Proof.
  intros W. unfold open_status_channel, getChannel. apply wp_bind, wp_bind, wp_get, wp_ret, wp_bind.
  assert (Hnew : (forall c accs, ~ status_chan nm c accs w) ->
    safe (let! c := new_StatusChannel nm; addChannel c;; let! u := user; let! _cu := join u c OP; ret c)
      (fun c w' => wf w' /\ (nodes_ok w -> nodes_ok w') /\
        ((exists accs, status_chan nm c accs w /\ status_chan nm c accs w')
         \/ (forall c accs, ~ status_chan nm c accs w) /\ status_chan nm c [] w')) w).
  { intros Hno. apply wp_bind. unfold new_StatusChannel.
    apply wp_bind, wp_bind, wp_get, wp_bind, wp_put, wp_ret, wp_bind, wp_put, wp_ret.
    set (ch := Channel nm "" [] (KStatus [])). set (c := h_next (w_heap w)). set (w1 := on_heap _ _).
    assert (W1 : wf w1) by (by apply (wf_new_chan ch w)).
    assert (Hc1 : h_chans (w_heap w1) !! c = Some ch) by apply lookup_insert_eq.
    apply wp_bind. eapply wp_mono; [by eapply wp_addChannel| |done]. intros ? w2 (W2 & Hh2 & Hi2).
    destruct (wf_user _ W2) as (x & p & l & b & Hx & _). apply wp_bind, wp_bind, wp_get, wp_ret, wp_bind.
    eapply wp_mono; [eapply wp_join_came; [done|by rewrite Hh2|exact Hx]| |done].
    intros cu w3 C. apply wp_ret. split; [apply C|]. pose proof (settled_came _ _ _ _ _ _ C) as S. split.
    - intros HB. eapply settled_nodes; [exact S|]. intros b' t n Hn. destruct (HB b' t n Hn) as (y & H).
      exists y. by rewrite Hh2.
    - right. split; [done|]. eapply status_settled; [|exact S]. split.
      + rewrite Hi2. apply lookup_insert_eq.
      + exists ch. by rewrite Hh2. }
  destruct (i_channels (w_irc w) !! nm) as [c|] eqn:En.
  2: { apply wp_ret, Hnew. intros c accs [E _]. congruence. }
  destruct (wf_ctable _ W _ _ En) as (ch & Hc & _). apply wp_bind. eapply wp_get_chan; [done|]. apply wp_ret.
  destruct (ch_kind ch) as [accs|] eqn:Ek.
  - apply wp_ret. split; [done|]. split; [done|]. left. exists accs.
    assert (H : status_chan nm c accs w) by (split; [done|by exists ch]). done.
  - apply Hnew. intros c' accs [E (ch' & Hc' & Hk')]. rewrite En in E. injection E as <-. congruence.
Qed.

Lemma wp_updated_all a w :
  wf w -> nodes_ok w -> safe (updated_all a) (fun _ w' => wf w' /\ settled w w') w.
Proof.
  intros W HB. unfold updated_all. apply wp_bind, wp_ask. apply wp_mapM_; [by split|].
  intros b w1 _ [W1 S1]. eapply wp_mono; [apply wp_updated; [done|]| |done].
  - by eapply settled_node.
  - intros ? w2 [W2 S2]. split; [done|by etrans].
Qed.

(** An account that gets a status channel is on the one of its setting, with the
    accounts that were there before it; the channel is made when there was none, with
    this account alone; the session is well-formed. *)
Theorem createStatusChannel_joins a w :
  wf w -> nodes_ok w ->
  safe (createStatusChannel a) (fun _ w' => wf w' /\
    let nm := a_channel (o_trace (w_io w)) a in
    (isStatusChannel nm = false -> w' = w) /\
    (isStatusChannel nm = true -> exists c accs, status_chan nm c (accs ++ [a]) w' /\
       (status_chan nm c accs w \/ (forall c accs, ~ status_chan nm c accs w) /\ accs = []))) w.
Proof.
  intros W HB. unfold createStatusChannel. apply wp_bind, wp_ask. set (nm := a_channel _ a).
  destruct (isStatusChannel nm) eqn:His; cbn [negb]; [|by apply wp_ret]. apply wp_bind.
  eapply wp_mono; [by apply wp_open_status_channel| |done]. intros c w1 (W1 & HB1 & Hopen).
  assert (Hs1 : exists accs, status_chan nm c accs w1 /\
    (status_chan nm c accs w \/ (forall c accs, ~ status_chan nm c accs w) /\ accs = [])).
  { destruct Hopen as [(accs & H0 & H1)|[H0 H1]]; eexists; (split; [exact H1|]); auto. }
  destruct Hs1 as (accs & Hs1 & Hwas). apply wp_bind, wp_ask, wp_bind.
  pose proof Hs1 as [_ (ch & Hc1 & Hk1)]. eapply wp_getTopic; [done|intros; congruence|]. intros t. apply wp_bind.
  eapply (wp_mono _ (fun _ w' => wf w' /\ settled w1 w') _ (fun _ _ => True)); [| |done].
  { apply wp_when; intros _; [|by split]. destruct (negb _); [by eapply wp_status_setTopic|by apply wp_setStatus]. }
  intros ? w2 [W2 S2]. apply wp_bind.
  eapply wp_mono; [eapply (wp_set_accounts nm c); [done|by eapply status_settled]| |done].
  intros ? w3 (W3 & Hs3 & _ & _ & Hn3).
  assert (HB3 : nodes_ok w3).
  { intros b u n Hn. unfold buddy_at. rewrite Hn3. by apply (settled_nodes _ _ S2 (HB1 HB) b u). }
  eapply wp_mono; [by apply wp_updated_all| |done]. intros ? w4 [W4 S4]. split; [done|]. split; [done|].
  intros _. exists c, accs. split; [by eapply status_settled|done].
Qed.
End Status.
End Status.
Import Status.

(** * At the demo session *)

(** The node of every buddy has the nick of alice; the account is on &minbif. *)
Definition demo_status : ImEnv := demo_im TypeIm None (fun _ => None) (Some 4%nat) true.
Lemma demo_nodes : @nodes_ok demo_status demo_world.
Proof. intros b t n [= <-]. exists demo_buddy. by do 4 eexists. Qed.

Lemma leaveStatusChannel_clean_witness :
  safe (@leaveStatusChannel demo_status 0) (fun _ w' => wf w' /\
    forall c accs, status_chan "&minbif" c accs demo_world -> isStatusChannel "&minbif" = true ->
      @status_left demo_status 0 "&minbif" c (remove_first 0 accs) demo_world w') demo_world.
Proof. apply (@leaveStatusChannel_clean demo_status 0 demo_world DemoWf.demo_wf demo_nodes). Defined.

Lemma createStatusChannel_joins_witness :
  safe (@createStatusChannel demo_status 1) (fun _ w' => wf w' /\
    (isStatusChannel "&minbif" = false -> w' = demo_world) /\
    (isStatusChannel "&minbif" = true -> exists c accs, status_chan "&minbif" c (accs ++ [1%nat]) w' /\
       (status_chan "&minbif" c accs demo_world
        \/ (forall c accs, ~ status_chan "&minbif" c accs demo_world) /\ accs = []))) demo_world.
Proof. apply (@createStatusChannel_joins demo_status 1 demo_world DemoWf.demo_wf demo_nodes). Defined.

(** The channel of one account: it goes with it, and comes back. *)
Definition channels_after (m : M unit) : list string :=
  match m demo_world with Ok _ w => (sorted (i_channels (w_irc w))).*1 | _ => [] end.
Example left_alone :
  channels_after (@leaveStatusChannel demo_status 0) = ["#room:jabber0"]
  /\ channels_after (@leaveStatusChannel demo_status 0;; @createStatusChannel demo_status 0)
     = ["#room:jabber0"; "&minbif"].
Proof. split; vm_compute; reflexivity. Qed.
