(* ===== verification/ImXfer.v ===== *)
(** im/ft.cpp and im/roomlist.cpp: the callbacks of libpurple about file transfers and
    about the rooms of a protocol. *)

From S2P Require Import Prelude Util Message Log World Dcc Nick Channel Registry Kinds ImLayer ImConv.
Import W Obj Names Send Chan Reg Kinds ImNick ImConv.

(** A column of a list of rooms, and the data of a room in it ([FString None] is NULL). *)
Inductive field_data := FBool (b : bool) | FInt (n : Z) | FString (s : option string).
Record room_field := RoomField { rf_label : string; rf_hidden : bool }.

(** What libpurple answers about transfers and rooms. *)
Class XferEnv := {
  x_receiving : fid -> bool;                    (* else it is sent *)
  x_completed : list event -> fid -> bool;
  x_filename : fid -> string;
  x_local_filename : list event -> fid -> string;
  x_remote_user : fid -> string;
  x_buddy : list event -> fid -> option bid;    (* purple_find_buddy *)
  x_listens : list event -> bool;               (* purple_network_listen_range *)
  x_timed_out : list event -> dcc -> bool;      (* nobody connected in time, DCCSend::updated *)
  x_dcc : bool;                                 (* file_transfers/dcc *)
  r_account : nat -> aid;                       (* of a list of rooms *)
  r_serialize : nat -> option string;           (* roomlist_room_serialize, when there is one *)
  r_name : nat -> string }.

Module ImXfer.
Section ImXfer.
Context {env : ImEnv} {xfer : XferEnv}.

Definition SNO_INFO : Z := Z.lor Log.W_INFO Log.W_SNO.
Definition SNO_ERR : Z := Z.lor Log.W_SNO Log.W_ERR.

(** ** FileTransfert *)

(** [DCCSend::updated] as [irc::IRC] sees it; the transfer itself is in Transfer.v. *)
Definition updated (t : list event) (destroy : bool) (d : dcc) : dcc :=
  let d := if destroy then Dcc (d_kind d) (d_finished d) (d_peer d) None else d in
  Dcc (d_kind d) (d_finished d || x_timed_out t d) (d_peer d) (d_ft d).
Definition update (x : fid) (destroy : bool) : M unit :=
  let! f := ask updated; updateDCC x (f destroy).

Definition destroy (x : fid) : M unit :=
  update x true;;
  let! completed := ask x_completed;
  if completed x then
    if negb (x_receiving x) then
      b_log SNO_INFO ("File " +:+ x_filename x +:+ " sent to " +:+ x_remote_user x)
    else
      let! local := ask x_local_filename;
      when (negb x_dcc) (b_log SNO_INFO ("File saved as: " +:+ local x))
  else ret tt.
Definition add_xfer (x : fid) : M unit :=
  let! buddy := ask x_buddy;
  let! n := match buddy x with Some b => getNick_buddy b | None => ret None end;
  if x_receiving x then
    b_log SNO_INFO ("Starting receiving file " +:+ x_filename x +:+ " from " +:+ x_remote_user x);;
    if negb x_dcc then ret tt
    else
      let! listens := ask x_listens;
      let! ok := createDCCSend listens x n;
      when (negb ok) (b_log SNO_ERR "Unable to listen for DCC, you'll might retrieve yourself the file.")
  else b_log SNO_INFO ("Starting sending file " +:+ x_filename x +:+ " to " +:+ x_remote_user x).
Definition update_progress (x : fid) : M unit := when x_dcc (update x false).
Definition cancel_local (x : fid) : M unit :=
  if negb (x_receiving x) then b_log SNO_ERR ("Aborted sending file " +:+ x_filename x +:+ " to " +:+ x_remote_user x)
  else b_log SNO_ERR ("Aborted receiving file " +:+ x_filename x +:+ " from " +:+ x_remote_user x).
Definition cancel_remote (x : fid) : M unit :=
  if negb (x_receiving x) then b_log SNO_ERR (x_remote_user x +:+ " aborted receiving file " +:+ x_filename x)
  else b_log SNO_ERR (x_remote_user x +:+ " aborted sending file " +:+ x_filename x).

(** ** RoomList *)

Definition set_fields (fields : list room_field) : M unit :=
  let str := foldr (fun f s => if rf_hidden f then s else rf_label f +:+ " " +:+ s) "" fields in
  reply "321" ["Channel"; str].
(** The texts of the columns, as far as there are both data and columns. *)
Fixpoint room_text (data : list field_data) (fields : list room_field) : M string :=
  match data, fields with
  | d :: data, f :: fields =>
    if rf_hidden f then room_text data fields
    else
      let! s := match d with
                | FBool b => ret (if b then "True " else "False ")
                | FInt n => ret (t2s (n mod 2 ^ 64) +:+ " ")
                | FString (Some s) => ret (s +:+ " ")
                | FString None => stuck "string(NULL)"
                end;
      let! rest := room_text data fields;
      ret (s +:+ rest)
  | _, _ => ret ""
  end.
(** [l] is the list, [connected] whether its account has a connection. *)
Definition add_room (l room : nat) (data : list field_data) (fields : list room_field) : M unit :=
  let! con := ask a_connected;
  if negb (con (r_account l)) then ret tt
  else
    let name := match r_serialize room with Some s => s | None => r_name room end in
    let! str := room_text data fields;
    let! id := ask a_id;
    reply "322" [normalizeIRCName name (id (r_account l)); str].
Definition in_progress (flag : bool) : M unit := when (negb flag) (reply "323" ["End of /LIST"]).
End ImXfer.
End ImXfer.
