(* ===== verification/XferProps.v ===== *)
(** What the callbacks about file transfers and rooms keep, with nicks that leave in
    between: the session is well-formed, the peer of every transfer is a nick of it, the
    transfers that the DCCs follow are those that libpurple has; when a transfer is
    offered; the list of rooms. *)

From S2P Require Import Prelude Util Message Log World Dcc Nick Demo Logic Channel Registry Members Closing Kinds Irc ImLayer ImConv Calm Queries Dispatch Safety Session ImSafety ImProps ImXfer.
Import W Obj Names Send Chan Reg Kinds Wf Leave Closing ImNick ImConv ImXfer ImP ImWf.

Module XferP.
Section XferP.
Context {env : ImEnv} {xfer : XferEnv}.

(** Every transfer has no peer, or a nick of the session. *)
Definition peers_live (h : heap) (l : list dcc) : Prop :=
  Forall (fun d => forall n, d_peer d = Some n -> is_Some (h_nicks h !! n)) l.
Definition xfer_ok (w : world) : Prop := wf w /\ peers_live (w_heap w) (i_dccs (w_irc w)).

Lemma xfer_ok_calm w w' : xfer_ok w -> w_heap w' = w_heap w -> w_irc w' = w_irc w -> xfer_ok w'.
Proof. intros [W H] Hh Hi. split; [by eapply wf_calm|]. by rewrite Hh, Hi. Qed.
Lemma log_calm w flags t : wf w -> calm (w_heap w) (w_irc w) (b_log flags t) any.
Proof. destruct w as [h i o]. intros W. by eapply calm_b_log. Qed.
Lemma xfer_log flags t w : xfer_ok w -> safe (b_log flags t) (fun _ => xfer_ok) w.
Proof.
  intros W. eapply calm_at; [by apply log_calm, W|]. intros [] w' _ ??. by eapply xfer_ok_calm.
Qed.
Lemma peers_purge h l p : peers_live h l -> peers_live h (List.filter p l).
Proof. unfold peers_live. rewrite !Forall_forall. intros H d Hd. apply H. apply list_elem_of_In, List.filter_In in Hd as [Hd _]. by apply list_elem_of_In. Qed.
(** The transfers of libpurple that the session follows. *)
Definition fts (w : world) : list fid := omap d_ft (i_dccs (w_irc w)).
Definition unfinished (w : world) : Prop := Forall (fun d => d_finished d = false) (i_dccs (w_irc w)).
Lemma fts_filter (p : dcc -> bool) l : omap d_ft (List.filter p l) `sublist_of` omap d_ft l.
Proof.
  induction l as [|d l IH]; [done|]. cbn. destruct (p d); cbn; destruct (d_ft d); cbn;
    [by apply sublist_skip|done|by apply sublist_cons|done].
Qed.
Lemma filter_unfinished l : Forall (fun d => d_finished d = false) l -> List.filter (fun d => negb (d_finished d)) l = l.
Proof. induction 1 as [|d l H _ IH]; [done|]. cbn. by rewrite H, IH. Qed.
Lemma fts_map (g : dcc -> dcc) l : (forall d, d_ft (g d) = d_ft d) -> omap d_ft (map g l) = omap d_ft l.
Proof. intros H. induction l as [|d l IH]; [done|]. cbn. by rewrite H, IH. Qed.
Definition without (x : fid) (l : list fid) : list fid := List.filter (fun y => negb (y =? x)%nat) l.
Lemma without_sublist x l l' : l `sublist_of` l' -> without x l `sublist_of` without x l'.
Proof.
  induction 1 as [|y l l' _ IH|y l l' _ IH]; [done|cbn..]; destruct (negb _); [by apply sublist_skip|done|by apply sublist_cons|done].
Qed.
Lemma fts_destroyed t x l :
  omap d_ft (map (fun d => if bool_decide (d_ft d = Some x) then updated t true d else d) l) = without x (omap d_ft l).
Proof.
  induction l as [|d l IH]; [done|]. cbn. case_bool_decide as E.
  - rewrite E. cbn. by rewrite Nat.eqb_refl.
  - destruct (d_ft d) as [y|]; [|done]. cbn. destruct (Nat.eqb_spec y x) as [->|]; [done|]. cbn. by rewrite IH.
Qed.
(** An update: the finished transfers are purged, those of [x] are updated. *)
Lemma xfer_update x b w : xfer_ok w -> safe (update x b) (fun _ w' => xfer_ok w'
  /\ w_heap w' = w_heap w /\ i_users (w_irc w') = i_users (w_irc w) /\ i_user (w_irc w') = i_user (w_irc w)
  /\ i_dccs (w_irc w') = map (fun d => if bool_decide (d_ft d = Some x) then updated (o_trace (w_io w)) b d else d)
                             (List.filter (fun d => negb (d_finished d)) (i_dccs (w_irc w)))) w.
Proof.
  intros [W H]. unfold update. apply wp_bind, wp_ask, wp_put. split; [|done]. split; [by eapply wf_same_tables|]. cbn.
  apply (peers_purge _ _ (fun d => negb (d_finished d))) in H. unfold peers_live in *.
  rewrite Forall_forall in *. intros d Hd n.
  apply list_elem_of_In, List.in_map_iff in Hd as (d0 & <- & Hd0%list_elem_of_In). specialize (H d0 Hd0 n).
  case_bool_decide; [|done]. unfold updated. by destruct b.
Qed.
(** The nick of the buddy a file comes from. *)
Lemma wp_peer (b : option bid) (Q : option nid -> world -> Prop) w : wf w ->
  (forall n, (forall m, n = Some m -> is_Some (h_nicks (w_heap w) !! m)) -> Q n w) ->
  safe (match b with Some b => getNick_buddy b | None => ret None end) Q w.
Proof.
  intros W HQ. destruct b as [b|].
  - apply wp_getNick_buddy; [done| |by apply HQ].
    intros n (y & ? & ? & ? & ? & Hn & _). apply HQ. intros m [= <-]. eauto.
  - apply wp_ret. by apply HQ.
Qed.
(** A file that is offered: the session gets one transfer when the file is received, DCC
    is on and libpurple listens; else its transfers stay. *)
Lemma xfer_offer x w : xfer_ok w -> safe (add_xfer x) (fun _ w' => xfer_ok w'
  /\ w_heap w' = w_heap w /\ i_users (w_irc w') = i_users (w_irc w) /\ i_user (w_irc w') = i_user (w_irc w)
  /\ if x_receiving x && x_dcc
     then (exists n, i_dccs (w_irc w') = i_dccs (w_irc w) ++ [Dcc DServer false n (Some x)])
          \/ (i_dccs (w_irc w') = i_dccs (w_irc w) /\ exists t, x_listens t = false)
     else i_dccs (w_irc w') = i_dccs (w_irc w)) w.
Proof.
  intros [W H]. assert (C : forall w', w_heap w' = w_heap w -> w_irc w' = w_irc w -> xfer_ok w').
  { intros w' ??. by apply (xfer_ok_calm w). }
  unfold add_xfer. apply wp_bind, wp_ask, wp_bind, wp_peer; [done|]. intros n Hn.
  destruct (x_receiving x).
  2: { cbn [andb]. eapply calm_at; [by apply log_calm, W|]. intros [] w' _ Hh Hi. rewrite Hi.
       split_and!; try done. apply C; [done|by rewrite Hi]. }
  eapply calm_bind_at; [done|by apply log_calm, W|]. intros [] w1 _ W1 Hh Hi.
  destruct x_dcc; cbn [negb andb]; [|apply wp_ret; rewrite Hi; auto].
  apply wp_bind, wp_ask, wp_bind. unfold createDCCSend. destruct (x_listens _) eqn:El; cbn [when].
  - apply wp_bind, wp_put, wp_ret, wp_ret. cbn. rewrite Hi. split; [|eauto 10].
    split; [eapply (wf_same_tables w1); done|]. cbn. rewrite Hi, Hh. apply Forall_app. split; [done|].
    by constructor.
  - apply wp_bind, wp_ret, wp_ret. cbn. eapply calm_at; [by apply log_calm|].
    intros [] w' _ Hh' Hi'. rewrite Hi', Hi, Hh', Hh in *. split; [apply C; congruence|eauto 10].
Qed.

(** The callbacks, and the nicks that leave in between. *)
Inductive cb := Destroy (x : fid) | Add (x : fid) | Progress (x : fid) | CancelLocal (x : fid) | CancelRemote (x : fid)
| SetFields (l : list room_field) | AddRoom (l room : nat) (data : list field_data) (fields : list room_field)
| InProgress (flag : bool) | NickLeaves (nm : string).
Definition run (c : cb) : M unit :=
  match c with
  | Destroy x => destroy x | Add x => add_xfer x | Progress x => update_progress x
  | CancelLocal x => cancel_local x | CancelRemote x => cancel_remote x
  | SetFields l => set_fields l | AddRoom l r d f => add_room l r d f | InProgress b => in_progress b
  | NickLeaves nm => removeNick nm
  end.
(** The files that are offered by DCC and that libpurple has not destroyed. *)
Definition offered (l : list fid) (c : cb) : list fid :=
  match c with
  | Add x => if x_receiving x && x_dcc then l ++ [x] else l
  | Destroy x => without x l
  | _ => l
  end.
(** libpurple listens for every transfer, and no client lets one time out. *)
Definition steady : Prop := (forall t, x_listens t = true) /\ (forall t d, x_timed_out t d = false).
(** The nick that leaves is not the user himself. *)
Definition fits (w : world) (c : cb) : Prop :=
  match c with NickLeaves nm => i_users (w_irc w) !! nm <> Some (i_user (w_irc w)) | _ => True end.
Record tracked (w0 : world) (l : list fid) (w : world) : Prop := {
  tk_ok : xfer_ok w;
  tk_sub : fts w `sublist_of` l;
  tk_all : steady -> unfinished w0 -> fts w = l /\ unfinished w;
  tk_users : i_users (w_irc w) ⊆ i_users (w_irc w0);
  tk_user : i_user (w_irc w) = i_user (w_irc w0) }.
Lemma tracked_quiet w0 l w w' : tracked w0 l w -> w_heap w' = w_heap w -> w_irc w' = w_irc w -> tracked w0 l w'.
Proof.
  intros [K S A U V] Hh Hi. split; [by eapply xfer_ok_calm| | |by rewrite Hi..]; unfold fts, unfinished; by rewrite Hi.
Qed.
Lemma tracked_log w0 l flags t w : tracked w0 l w -> safe (b_log flags t) (fun _ => tracked w0 l) w.
Proof.
  intros T. eapply calm_at; [apply log_calm, (tk_ok _ _ _ T)|]. intros [] w' _ ??. by eapply tracked_quiet.
Qed.
(** No text of a room is NULL. *)
Definition no_null (c : cb) : Prop :=
  match c with AddRoom _ _ data _ => FString None ∉ data | _ => True end.
Lemma tracked_reply w0 l code args w : tracked w0 l w -> code <> "PRIVMSG" -> safe (reply code args) (fun _ => tracked w0 l) w.
Proof. intros T Hc. apply reply_calm_at; [apply (tk_ok _ _ _ T)|done|]. intros. by eapply tracked_quiet. Qed.
Lemma wp_room_text data fields (Q : string -> world -> Prop) w :
  FString None ∉ data -> (forall s, Q s w) -> safe (room_text data fields) Q w.
Proof.
  revert fields Q. induction data as [|d data IH]; intros fields Q Hd HQ; [by apply wp_ret|].
  apply not_elem_of_cons in Hd as [Hd Hr]. destruct fields as [|f fields]; [by apply wp_ret|]. cbn [room_text].
  destruct (rf_hidden f); [by apply IH|]. apply wp_bind.
  destruct d as [b|n|[s|]]; [| | |done]; apply wp_ret, wp_bind, IH; try done; intros; by apply wp_ret.
Qed.
Lemma tracked_update w0 l x b w : tracked w0 l w ->
  safe (update x b) (fun _ => tracked w0 (if b then without x l else l)) w.
Proof.
  intros [K S A U V]. eapply wp_mono; [by apply xfer_update| |done]. intros [] w' (K' & _ & Hu & Hus & Hd).
  assert (E : fts w' = let l := omap d_ft (List.filter (fun d => negb (d_finished d)) (i_dccs (w_irc w))) in
                       if b then without x l else l).
  { unfold fts. rewrite Hd. destruct b; [apply fts_destroyed|]. apply fts_map. intros d. by case_bool_decide. }
  pose proof (fts_filter (fun d => negb (d_finished d)) (i_dccs (w_irc w))) as Hf. split; [done| | |by rewrite Hu|by rewrite Hus].
  - rewrite E. assert (Hs := transitivity Hf S). destruct b; [by apply without_sublist|done].
  - intros St Hun. destruct (A St Hun) as [Ef Hw]. split.
    + rewrite E. cbn. rewrite (filter_unfinished _ Hw). fold (fts w). by rewrite Ef.
    + unfold unfinished in *. rewrite Hd, (filter_unfinished _ Hw). rewrite Forall_forall in *. intros d Hin.
      apply list_elem_of_In, List.in_map_iff in Hin as (d0 & <- & Hin%list_elem_of_In).
      case_bool_decide; [|by apply Hw]. unfold updated. destruct b; cbn; rewrite (Hw d0 Hin); apply St.
Qed.
Lemma tracked_leaves w0 l nm w : tracked w0 l w -> fits w0 (NickLeaves nm) ->
  safe (removeNick nm) (fun _ => tracked w0 l) w.
Proof.
  intros T Hf. destruct (i_users (w_irc w) !! nm) as [n|] eqn:En.
  2: { unfold removeNick. apply wp_bind, wp_get. by rewrite En. }
  destruct T as [[W P] S A U V]. assert (Hu : n <> i_user (w_irc w)).
  { intros ->. apply Hf. cbn. rewrite <- V. by eapply lookup_weaken. }
  eapply wp_mono; [by apply (wp_removeNick_but (X := None))| |done]. intros [] w' [W' _ Hi Hn _ _ _].
  assert (E : omap d_ft (i_dccs (w_irc w')) = omap d_ft (List.filter (fun d => negb (d_finished d)) (i_dccs (w_irc w)))).
  { rewrite Hi. cbn. unfold forget_peer. apply fts_map. intros d. by case_bool_decide. }
  pose proof (fts_filter (fun d => negb (d_finished d)) (i_dccs (w_irc w))) as Hs. split; [split; [done|]| | | |].
  - rewrite Hi. cbn. unfold forget_peer, peers_live in *. rewrite Forall_forall in *. intros d Hin m Hm.
    apply list_elem_of_In, List.in_map_iff in Hin as (d0 & <- & Hin%list_elem_of_In).
    apply list_elem_of_In, List.filter_In in Hin as [Hin%list_elem_of_In _].
    case_bool_decide as Ep; [done|]. rewrite Hn by congruence. by apply (P d0).
  - unfold fts. rewrite E. by etrans.
  - intros St Hun. destruct (A St Hun) as [Ef Hw]. unfold fts, unfinished in *. rewrite E, (filter_unfinished _ Hw).
    split; [done|]. rewrite Hi. cbn. unfold forget_peer. rewrite (filter_unfinished _ Hw).
    rewrite Forall_forall in *. intros d Hin. apply list_elem_of_In, List.in_map_iff in Hin as (d0 & <- & Hin%list_elem_of_In).
    case_bool_decide; by apply (Hw d0).
  - rewrite Hi. cbn. etrans; [apply delete_subseteq|done].
  - by rewrite Hi.
Qed.
Lemma tracked_add w0 l x w : tracked w0 l w -> safe (add_xfer x) (fun _ => tracked w0 (offered l (Add x))) w.
Proof.
  intros [K S A U V]. eapply wp_mono; [by apply xfer_offer| |done]. intros [] w' (K' & _ & Hu & Hus & Hd).
  cbn [offered]. destruct (x_receiving x && x_dcc).
  - destruct Hd as [[n Hd]|[Hd [t Ht]]]; split; try (done || by rewrite ?Hu, ?Hus); unfold fts, unfinished in *; rewrite Hd.
    + rewrite omap_app. cbn. by apply sublist_app.
    + intros St Hun. destruct (A St Hun) as [Ef Hw]. rewrite omap_app. cbn. rewrite Ef. split; [done|].
      apply Forall_app. split; [done|by constructor].
    + by apply sublist_inserts_r.
    + intros [H _]. by rewrite H in Ht.
  - split; try (done || by rewrite ?Hu, ?Hus); unfold fts, unfinished in *; by rewrite Hd.
Qed.
Lemma tracked_run w0 l c w : tracked w0 l w -> no_null c -> fits w0 c ->
  safe (run c) (fun _ => tracked w0 (offered l c)) w.
Proof.
  intros T Hn Hf. destruct c; cbn [run]; try (cbn [offered]).
  - unfold destroy. apply wp_bind. eapply wp_mono; [by apply tracked_update| |done]. intros [] w' T'.
    apply wp_bind, wp_ask. destruct (x_completed _ x); [|by apply wp_ret].
    destruct (negb (x_receiving x)); [by apply tracked_log|]. apply wp_bind, wp_ask.
    apply wp_when; [intros _; by apply tracked_log|done].
  - by apply tracked_add.
  - unfold update_progress. apply wp_when; [intros _; by apply (tracked_update w0 l x false)|done].
  - unfold cancel_local. case_match; by apply tracked_log.
  - unfold cancel_remote. case_match; by apply tracked_log.
  - unfold set_fields. by apply tracked_reply.
  - unfold add_room. apply wp_bind, wp_ask. case_match; [by apply wp_ret|].
    apply wp_bind, wp_room_text; [done|]. intros s. apply wp_bind, wp_ask. by apply tracked_reply.
  - unfold in_progress. apply wp_when; [intros _; by apply tracked_reply|done].
  - by apply tracked_leaves.
Qed.
(** C10: Whatever callbacks of libpurple about file transfers and rooms come, and whatever
    nicks leave in between, the session is well-formed, the peer of a DCC is a nick that
    is there, and no DCC keeps a transfer that libpurple destroyed: those that the DCCs
    follow are, in order, among the files that were received with DCC on and not
    destroyed since, and all of them as long as libpurple listens and no client lets one
    time out. *)
Theorem transfers_tracked (l : list cb) w : xfer_ok w -> Forall no_null l -> Forall (fits w) l ->
  safe (mapM_ run l) (fun _ w' => xfer_ok w' /\ fts w' `sublist_of` foldl offered (fts w) l
    /\ (steady -> unfinished w -> fts w' = foldl offered (fts w) l)) w.
Proof.
  intros W Hl Hf. assert (T : tracked w (fts w) w) by done.
  enough (G : forall l0 w1, tracked w l0 w1 -> safe (mapM_ run l) (fun _ => tracked w (foldl offered l0 l)) w1).
  { eapply wp_mono; [by apply G| |done]. intros [] w' [K S A _ _]. split_and!; [done..|]. intros St Hun. by apply A. }
  clear T. induction l as [|c l IH]; intros l0 w1 T; [by apply wp_ret|].
  apply Forall_cons in Hl as [Hc Hl]. apply Forall_cons in Hf as [Hfc Hf].
  cbn [mapM_ foldl]. apply wp_bind. eapply wp_mono; [by apply tracked_run| |done]. intros [] w2 T2. by apply IH.
Qed.
End XferP.

(** A session whose buddy 0 sends files; libpurple listens. *)
Definition demo_xfer : XferEnv := {|
  x_receiving := fun _ => true; x_completed := fun _ _ => true; x_filename := fun _ => "a.txt";
  x_local_filename := fun _ _ => "/tmp/a.txt"; x_remote_user := fun _ => "alice"; x_buddy := fun _ _ => Some 0%nat;
  x_listens := fun _ => true; x_timed_out := fun _ _ => false; x_dcc := true;
  r_account := fun _ => 0%nat; r_serialize := fun _ => None; r_name := fun _ => "#rooms" |}.
Definition demo_cbs : list cb :=
  [Add 3; Progress 3; Add 4; SetFields [RoomField "Users" false]; NickLeaves "alice"; Destroy 3;
   AddRoom 0 0 [FInt 12; FString (Some "talk")] [RoomField "Users" false; RoomField "Topic" false]; InProgress false].
Lemma demo_ok : xfer_ok demo_world.
Proof. split; [exact DemoWf.demo_wf|]. by apply Forall_nil. Qed.
Lemma transfers_tracked_witness :
  @steady demo_xfer /\ @foldl _ _ (@offered demo_xfer) (fts demo_world) demo_cbs = [4%nat] /\
  safe (mapM_ (@run demo_chat demo_xfer) demo_cbs)
    (fun _ w' => xfer_ok w' /\ fts w' `sublist_of` foldl (@offered demo_xfer) (fts demo_world) demo_cbs
       /\ (@steady demo_xfer -> unfinished demo_world -> fts w' = foldl (@offered demo_xfer) (fts demo_world) demo_cbs)) demo_world.
Proof.
  split; [done|]. split; [reflexivity|].
  apply (@transfers_tracked demo_chat demo_xfer demo_cbs demo_world demo_ok).
  - repeat (apply Forall_cons; split; [cbn; try done|]); [|by apply Forall_nil].
    intros [?|[?|H]%elem_of_cons]%elem_of_cons; [done|done|]. by apply not_elem_of_nil in H.
  - repeat (apply Forall_cons; split; [cbn; try done|]). by apply Forall_nil.
Defined.
(** The transfer that [Add] leaves; the texts of the rooms. *)
Example offered_to_alice :
  match @run demo_chat demo_xfer (Add 3) demo_world with
  | Ok _ w => i_dccs (w_irc w) = [Dcc DServer false (Some 4%nat) (Some 3%nat)]
  | _ => False
  end.
Proof. vm_compute. reflexivity. Qed.
Example room_row :
  match @room_text [FInt 12; FBool true; FString (Some "talk"); FInt 3]
          [RoomField "Users" false; RoomField "Open" true; RoomField "Topic" false] demo_world with
  | Ok s _ => s = "12 talk "
  | _ => False
  end.
Proof. vm_compute. reflexivity. Qed.
(** A row whose text column is NULL. *)
Example room_null :
  match @room_text [FString None] [RoomField "Topic" false] demo_world with UB _ => True | _ => False end.
Proof. exact I. Qed.
End XferP.
