(* ===== verification/Defects.v ===== *)
(** What the program does not do right, shown by running it on the sample
    session: exceptions nobody catches and pointers left behind. *)

From S2P Require Import Prelude Util Message Log World Dcc Nick Demo Logic Channel Registry Members Kinds Irc Cmds CmdsChannels CmdsAccounts Dispatch Session.
Import W Obj Names Send Chan Reg Kinds Irc Cmds CmdsC CmdsA Dispatch.

#[local] Existing Instance demo.

(** The sample session whose socket is closed by the other side at the next write. *)
Definition demo_closed : world := on_io (up_o_writes (fun _ => [WClosed])) demo_world.
(** The sample session before the server of its account is known. *)
Definition demo_serverless : world := on_irc (up_i_servers (fun _ => ∅)) demo_world.

(** [IRC::renameNick] registers the nick in its server a second time, and
    [IRC::removeNick] takes one of the two entries out: after SVSNICK and the
    removal of the buddy, MAP reads the freed nick. *)
Theorem svsnick_dangling :
  (exec_line "SVSNICK alice carol";; removeNick "carol";; exec_line "MAP") demo_world
  = UB "dangling Nick".
Proof. vm_compute. reflexivity. Qed.

(** [Nick::join] adds the nick to the channel before it tells the members; when
    a write throws, the nick does not know the channel, and the end of the session
    reads the freed nick from the channel. *)
Theorem join_lost_member :
  match join 4%nat 7%nat 0 demo_closed with
  | Exc (SockError _) w => irc_delete w = UB "dangling Nick"
  | _ => False
  end.
Proof. vm_compute. reflexivity. Qed.

(** [MalformedMessage] leaves [IRC::readIO], which only catches [SockError]: two
    targets and a text with a space are enough, or a WHOIS of a word with a space. *)
Theorem malformed_uncaught :
  Forall (fun line => match readIO (inl line) demo_world with
                      | Exc MalformedMessage _ => True | _ => False end)
    ["PRIVMSG alice,bob :hello you"; "WHOIS :a b"].
Proof.
  apply Forall_cons; split; [vm_compute; exact I|].
  apply Forall_cons; split; [vm_compute; exact I|]. apply Forall_nil_2.
Qed.

(** ADMIN with a blank value for a number shows an integer no one initialised,
    and MAP dereferences the NULL server of a connected account without nicks. *)
Theorem unchecked_values :
  exec_line "ADMIN send_delay : " demo_world = UB "uninitialised"
  /\ exec_line "MAP" demo_serverless = UB "NULL server".
Proof. vm_compute. split; reflexivity. Qed.
