(* ===== verification/AuthSession.v ===== *)
(** A session above the authentication: what [Auth] answers to it is the end of
    [Auth::validate] and [Auth::generate]. *)

From S2P Require Import Prelude Util Message Log World Dcc Effects Auth Nick Demo Logic Channel Registry Members Kinds Irc Calm Safety Session.
Import W Obj Names Send Chan Reg Irc Wf.

Section AuthSession.
Context {env : Env} (aenv : list event -> Auth.AuthEnv).

(** The answers of the session come from the mechanisms, which find the system as
    it is when they are called. *)
Definition auth_modelled : Prop :=
  forall t u p,
    (forall a, @Auth.validated (aenv t) u p = Some a -> auth_result (t ++ [ImCall (AuthValidate u p)]) = a)
    /\ (forall a, @Auth.generated (aenv t) u p = Some a -> auth_result (t ++ [ImCall (AuthGenerate u p)]) = a).
(** A call without a defined end has no answer: none of them happens. *)
Definition pam_users_ok : Prop := forall t u, @Auth.pam_user_ok (aenv t) u.

Lemma modelled_generate_ok : auth_modelled -> pam_users_ok -> generate_ok.
Proof.
  intros H Hp t u p E. destruct (H t u p) as [_ Hg].
  destruct (@Auth.generated_makes (aenv t) u p (Hp t u)) as (r & Er & Hr & _).
  by rewrite (Hg _ Er) in E.
Qed.

End AuthSession.

Lemma demo_auth_modelled : @auth_modelled demo (fun _ => demo_auth).
Proof.
  intros t u p. split; intros a; cbn; unfold demo_auth_result; rewrite last_snoc; by intros ->.
Qed.
