(* ===== verification/Transfer.v ===== *)
(** irc/dcc.{h,cpp}: the DCC transfers between the server and the client of the
    user, as state machines driven by libpurple's callbacks.  The text of a request
    and its parser are in Dcc.v. *)

From S2P Require Import Prelude Util Message Dcc Log Effects.

Module Transfer.
Import Eff.
#[local] Open Scope eff_scope.

(** The calls to the system and to libpurple. *)
Inductive ev :=
| Listen (min max : Z) | ListenCancel
| InputAdd (fd : Z) | InputRemove
| Close (fd : Z)
| SendTo (fd : Z) (s : string) (n : Z)    (* the block given, and what send returned *)
| FOpen (path : string) | FClose | FRead (n : nat) | FFlush
| FWrite (s : string)
| WriteAck (fd : Z) (bytes : list Z)
| Privmsg (sender : string) (text : string)
| CallbackRun | CallbackDelete
| Logged (flags : Z) (text : string).

Inductive exn := DCCListenError | DCCGetError.
(** What read answers. *)
Inductive received := Bytes (s : string) | Again | Closed.

(** What the system answers after the past events. *)
Class TransferEnv := {
  port_range : Z * Z;
  dcc_own_ip : string;
  my_ip : list ev -> string;
  inet_aton : string -> option Z;         (* ntohl of the address *)
  listen_range : list ev -> bool;
  port_from_fd : Z -> Z;
  strerror : list ev -> string;
  time : list ev -> Z;
  accept : list ev -> Z;
  send : list ev -> Z -> string -> Z;     (* bytes taken, or -1 *)
  local_file : list ev -> option string;  (* the file libpurple writes *)
  eof_sticky : bool;                      (* fread at the end of a file that grows *)
  fopen_w : list ev -> bool;
  socket : list ev -> Z;
  connect : list ev -> bool;
  fwrite : list ev -> string -> Z;
  write : list ev -> Z }.

(** The callback the descriptor of a server is watched with. *)
Inductive watch := Connected | DccRead.
#[export] Instance watch_eq : EqDecision watch.
Proof. solve_decision. Defined.
Inductive kind := SEND | CHAT.
(** [DCCServer] with the members of [DCCSend]; [fp] is the position in the file and
    the end-of-file indicator. *)
Record dcc := Dcc_ {
  d_kind : kind; d_filename : string; d_total_size : Z; d_start_time : Z; d_sender : option string;
  d_listen_data : bool; d_watcher : option watch; d_fd : Z; d_port : Z; d_finished : bool;
  d_ft : bool; d_local_filename : string; d_bytes_sent : Z; d_fp : option (nat * bool); d_rxqueue : list Z }.
Record st := St { tr : list ev; obj : dcc }.
Definition M (A : Type) : Type := Eff.M st exn A.
Definition emit (e : ev) : M unit := put (fun s => St (tr s ++ [e]) (obj s)).
Definition ask {A} (f : list ev -> A) : M A := get (fun s => f (tr s)).
Definition this {A} (f : dcc -> A) : M A := get (fun s => f (obj s)).
Definition up (f : dcc -> dcc) : M unit := put (fun s => St (tr s) (f (obj s))).

Definition set_sender n d := Dcc_ (d_kind d) (d_filename d) (d_total_size d) (d_start_time d) n (d_listen_data d) (d_watcher d) (d_fd d) (d_port d) (d_finished d) (d_ft d) (d_local_filename d) (d_bytes_sent d) (d_fp d) (d_rxqueue d).
Definition set_conn l w fd d := Dcc_ (d_kind d) (d_filename d) (d_total_size d) (d_start_time d) (d_sender d) l w fd (d_port d) (d_finished d) (d_ft d) (d_local_filename d) (d_bytes_sent d) (d_fp d) (d_rxqueue d).
Definition set_port p d := Dcc_ (d_kind d) (d_filename d) (d_total_size d) (d_start_time d) (d_sender d) (d_listen_data d) (d_watcher d) (d_fd d) p (d_finished d) (d_ft d) (d_local_filename d) (d_bytes_sent d) (d_fp d) (d_rxqueue d).
Definition set_finished b d := Dcc_ (d_kind d) (d_filename d) (d_total_size d) (d_start_time d) (d_sender d) (d_listen_data d) (d_watcher d) (d_fd d) (d_port d) b (d_ft d) (d_local_filename d) (d_bytes_sent d) (d_fp d) (d_rxqueue d).
Definition set_ft b d := Dcc_ (d_kind d) (d_filename d) (d_total_size d) (d_start_time d) (d_sender d) (d_listen_data d) (d_watcher d) (d_fd d) (d_port d) (d_finished d) b (d_local_filename d) (d_bytes_sent d) (d_fp d) (d_rxqueue d).
Definition set_fp n f d := Dcc_ (d_kind d) (d_filename d) (d_total_size d) (d_start_time d) (d_sender d) (d_listen_data d) (d_watcher d) (d_fd d) (d_port d) (d_finished d) (d_ft d) (d_local_filename d) n f (d_rxqueue d).
Definition set_rxqueue q d := Dcc_ (d_kind d) (d_filename d) (d_total_size d) (d_start_time d) (d_sender d) (d_listen_data d) (d_watcher d) (d_fd d) (d_port d) (d_finished d) (d_ft d) (d_local_filename d) (d_bytes_sent d) (d_fp d) q.

Definition TIMEOUT : Z := 5 * 60.
Definition type_name (k : kind) : string := match k with SEND => "SEND" | CHAT => "CHAT" end.

Section Transfer.
Context {env : TransferEnv}.

(** ** DCCServer *)

(** [DCCServer::deinit]. *)
Definition server_deinit : M unit :=
  eff! d := this id;
  when (0 <=? d_fd d) (emit (Close (d_fd d)));;
  when (bool_decide (d_watcher d <> None)) (emit InputRemove);;
  when (d_listen_data d) (emit ListenCancel);;
  up (fun d => set_finished true (set_conn false None (-1) d)).
(** The virtual one.  [DCCSend] forgets its queue and not its length, which nothing
    reads once the descriptor is not watched. *)
Definition deinit : M unit :=
  server_deinit;;
  eff! d := this id;
  match d_kind d with
  | SEND =>
    when (bool_decide (d_fp d <> None)) (emit FClose);;
    up (fun d => set_rxqueue [] (set_fp (d_bytes_sent d) None d))
  | CHAT => ret tt
  end.
(** The constructors: the object, then the listening. *)
Definition create (k : kind) (filename : string) (total_size : Z) (sender : option string)
    (local_filename : string) : M unit :=
  eff! now := ask time;
  up (fun _ => Dcc_ k filename total_size now sender false None (-1) 0 false true local_filename 0 None []);;
  emit (Listen port_range.1 port_range.2);;
  eff! listening := ask listen_range;
  if negb listening then throw DCCListenError
  else up (fun d => set_conn true (d_watcher d) (d_fd d) d).

(** [fread] of [n] bytes at [pos] of a file that holds [f]: what it gives and the
    indicator.  C makes the indicator final; older C libraries look again. *)
Definition fread (f : string) (pos : nat) (eof : bool) (n : nat) : string * bool :=
  if eof && eof_sticky then ("", true)
  else (substr pos n f, bool_decide (slen (substr pos n f) < n)%nat).
(** [send], whose result is not looked at. *)
Definition send_to (fd : Z) (buf : string) : M unit :=
  eff! n := ask send;
  emit (SendTo fd buf (n fd buf)).
(** [DCCSend::dcc_send]. *)
Definition dcc_send : M unit :=
  eff! d := this id;
  if d_finished d || d_listen_data d || (d_fd d <? 0) then ret tt
  else
    eff! ready :=
      (match d_fp d with
       | Some _ => ret true
       | None =>
         emit (FOpen (d_local_filename d));;
         eff! f := ask local_file;
         match f with
         | None => ret false
         | Some _ => up (set_fp (d_bytes_sent d) (Some (0%nat, false)));; ret true
         end
       end);
    if negb ready then ret tt
    else
      eff! d := this id;
      eff! f := ask local_file;
      let pos := (default (0%nat, false) (d_fp d)).1 in
      let '(buf, eof) := fread (default "" f) pos (default (0%nat, false) (d_fp d)).2 512 in
      emit (FRead (slen buf));;
      when (negb (sempty buf)) (send_to (d_fd d) buf);;
      up (set_fp (d_bytes_sent d + Z.of_nat (slen buf)) (Some ((pos + slen buf)%nat, eof))).

(** [updated(destroy)]: the transfer made progress, or its object goes. *)
Definition updated (destroy : bool) : M unit :=
  eff! d := this id;
  eff! now := ask time;
  let late := ((d_fd d <? 0) || d_listen_data d) && (d_start_time d + TIMEOUT <? now) in
  match d_kind d with
  | SEND =>
    when destroy (up (set_ft false));;
    if late then deinit else dcc_send
  | CHAT => when late deinit
  end.

(** The address the user is told. *)
Definition bind_address (t : list ev) : string :=
  if String.eqb dcc_own_ip " " then my_ip t else dcc_own_ip.
(** [DCCServer::listen_cb(sock)]: libpurple listens; the request goes to the user. *)
Definition listen_cb (sock : Z) : M unit :=
  eff! bind_addr := ask bind_address;
  up (fun d => set_port (port_from_fd sock) (set_conn false (d_watcher d) sock d));;
  match inet_aton bind_addr with
  | None =>
    emit (Logged Log.W_ERR ("Unable to parse this IP address: [" +:+ bind_addr +:+ "]: Unable to send DCC request."));;
    deinit
  | Some addr =>
    emit (InputAdd sock);;
    up (fun d => set_conn false (Some Connected) (d_fd d) d);;
    eff! d := this id;
    emit (Privmsg (default "some.one" (d_sender d))
            (Dcc.request_text (type_name (d_kind d)) (d_filename d) addr (d_port d) (d_total_size d)))
  end.
(** [DCCServer::connected]: the client of the user connects. *)
Definition connected : M unit :=
  eff! conn := ask accept;
  if conn =? 0 then emit (Logged Log.W_ERR "DCC connection failed");; deinit
  else
    emit InputRemove;;
    eff! d := this id;
    emit (Close (d_fd d));;
    emit (InputAdd conn);;
    up (set_conn (d_listen_data d) (Some DccRead) conn);;
    updated false.

(** The bytes of a buffer, and four of them in the order of the network. *)
Fixpoint bytes (s : string) : list Z :=
  match s with EmptyString => [] | String c s => code c :: bytes s end.
Definition be32 (a b c d : Z) : Z := ((a * 256 + b) * 256 + c) * 256 + d.
(** The loop on the acknowledgements: what stays in the queue, and whether one of
    them ends the transfer. *)
Fixpoint rx_loop (total : Z) (q : list Z) : list Z * bool :=
  match q with
  | a :: b :: c :: d :: q' => if total <=? be32 a b c d then (q', true) else rx_loop total q'
  | _ => (q, false)
  end.
(** [dcc_read]: what read answered comes from the client. *)
Definition dcc_read (r : received) : M unit :=
  eff! d := this id;
  match d_kind d with
  | CHAT => ret tt
  | SEND =>
    match r with
    | Again => ret tt
    | Closed => up (fun d => set_conn (d_listen_data d) (d_watcher d) (-1) d);; deinit
    | Bytes buffer =>
      let '(q, done) := rx_loop (d_total_size d) (d_rxqueue d ++ bytes buffer) in
      up (set_rxqueue q);;
      if (done : bool) then deinit else dcc_send
    end
  end.
(** [DCCChat::dcc_send]. *)
Definition chat_send (buf : string) : M unit :=
  eff! d := this id;
  if d_finished d || d_listen_data d || (d_fd d <? 0) then ret tt
  else send_to (d_fd d) buf.
(** [setPeer]: the user that sends left, or changed. *)
Definition setPeer (n : option string) : M unit := up (set_sender n).

(** What runs a method of a transfer: libpurple, a callback that is registered, or
    the session ([IRC::updateDCC], [IRC::removeNick]). *)
Inductive callback :=
| LISTENED (sock : Z) | CONNECTED | READ (r : received)
| UPDATED (destroy : bool) | PEER (n : option string).
Definition fire (c : callback) : M unit :=
  eff! d := this id;
  match c with
  | LISTENED sock => when (d_listen_data d) (listen_cb sock)
  | CONNECTED => when (bool_decide (d_watcher d = Some Connected)) connected
  | READ r => when (bool_decide (d_watcher d = Some DccRead)) (dcc_read r)
  | UPDATED destroy => updated destroy
  | PEER n => setPeer n
  end.
Definition life (cs : list callback) : M unit := mapM_ fire cs.
End Transfer.
End Transfer.

Module Get.
Import Eff Transfer.
#[local] Open Scope eff_scope.

(** [DCCGet]: [callback != NULL]; [from] is a nick of the session. *)
Record dcc_get := Get_ {
  g_from : option nat; g_callback : bool; g_finished : bool; g_sock : Z; g_watcher : bool;
  g_fp : bool; g_bytes_received : Z; g_total_size : Z }.
Record gst := GSt { gtr : list ev; gobj : dcc_get }.
Definition GM (A : Type) : Type := Eff.M gst exn A.
Definition gemit (e : ev) : GM unit := put (fun s => GSt (gtr s ++ [e]) (gobj s)).
Definition gask {A} (f : list ev -> A) : GM A := get (fun s => f (gtr s)).
Definition gthis : GM dcc_get := get gobj.
Definition gput (d : dcc_get) : GM unit := put (fun s => GSt (gtr s) d).

Section Get.
Context {env : TransferEnv}.

Definition gask_error (text : string) : GM unit :=
  eff! e := gask strerror; gemit (Logged Log.W_ERR (text +:+ e)).
Definition get_deinit : GM unit :=
  eff! d := gthis;
  when (0 <=? g_sock d) (gemit (Close (g_sock d)));;
  when (g_watcher d) (gemit InputRemove);;
  when (g_fp d) (gemit FClose);;
  when (g_callback d) (gemit CallbackDelete);;
  gput (Get_ (g_from d) false true (-1) false false (g_bytes_received d) (g_total_size d)).
(** The constructor; what an exception leaves open stays open. *)
Definition get_create (from : nat) (filename : string) (size : Z) : GM unit :=
  gput (Get_ (Some from) true false (-1) false false 0 size);;
  gemit (FOpen filename);;
  eff! opened := gask fopen_w;
  if negb opened
  then gemit (Logged Log.W_ERR ("Unable to create local file: " +:+ filename));; throw DCCGetError
  else
    eff! sock := gask socket;
    gput (Get_ (Some from) true false sock false true 0 size);;
    eff! ok := gask connect;
    if negb ok
    then gask_error "Unable to receive file: ";; gemit CallbackDelete;; throw DCCGetError
    else gemit (InputAdd sock);; gput (Get_ (Some from) true false sock true true 0 size).

(** [unsigned long l = htonl(n)], 8 bytes in memory: the four of the network order
    and four zeros. *)
Definition ack_bytes (n : Z) : list Z :=
  let w := n mod 2 ^ 32 in
  [w / 2 ^ 24 mod 256; w / 2 ^ 16 mod 256; w / 2 ^ 8 mod 256; w mod 256; 0; 0; 0; 0].
(** [DCCGet::dcc_read]. *)
Definition get_read (r : received) : GM unit :=
  match r with
  | Again => ret tt
  | Closed =>
    eff! d := gthis;
    gput (Get_ (g_from d) (g_callback d) (g_finished d) (-1) (g_watcher d) (g_fp d) (g_bytes_received d) (g_total_size d));;
    get_deinit
  | Bytes buffer =>
    eff! n := gask fwrite;
    gemit (FWrite (stake (Z.to_nat (n buffer)) buffer));;
    if n buffer <? Z.of_nat (slen buffer)
    then gask_error "Unable to write received data: ";; get_deinit
    else
      eff! d := gthis;
      let got := g_bytes_received d + Z.of_nat (slen buffer) in
      gput (Get_ (g_from d) (g_callback d) (g_finished d) (g_sock d) (g_watcher d) (g_fp d) got (g_total_size d));;
      if negb (g_total_size d <=? got) then ret tt
      else
        gemit (WriteAck (g_sock d) (ack_bytes got));;
        eff! result := gask write;
        when (negb (result =? 8)) (gemit (Logged Log.W_WARNING "Unable to send DCC ack"));;
        when (g_callback d) (gemit FFlush;; gemit CallbackRun);;
        get_deinit
  end.
(** [setPeer]: the user left when there is none. *)
Definition get_setPeer (n : option nat) : GM unit :=
  eff! d := gthis;
  gput (Get_ n (g_callback d) (g_finished d) (g_sock d) (g_watcher d) (g_fp d) (g_bytes_received d) (g_total_size d));;
  match n with
  | Some _ => if negb (g_callback d) then crash "callback->setObj of NULL" else ret tt
  | None => get_deinit
  end.
End Get.
End Get.
