(* ===== verification/TransferProps.v ===== *)
(** What the transfers of Transfer.v send, in order and whole, and what they write. *)

From S2P Require Import Prelude Util Message Dcc Log Effects Transfer.
Import Eff Transfer Get.

(** * What a trace holds *)

(** The blocks given to send, and what the kernel took of them, one after the other. *)
Definition given_by (e : ev) : string := match e with SendTo _ s _ => s | _ => "" end.
Definition sent_by (e : ev) : string := match e with SendTo _ s n => stake (Z.to_nat n) s | _ => "" end.
Definition along (f : ev -> string) (t : list ev) : string := foldr (fun e r => f e +:+ r) "" t.
Definition given : list ev -> string := along given_by.
Definition sent : list ev -> string := along sent_by.
Definition to_fd (fd : Z) (e : ev) : bool := match e with SendTo f _ _ => f =? fd | _ => false end.
Definition sent_to (fd : Z) (t : list ev) : string := sent (filter (to_fd fd) t).
(** The kernel took the whole block. *)
Definition whole (e : ev) : Prop := match e with SendTo _ s n => (slen s <= Z.to_nat n)%nat | _ => True end.

#[global] Arguments along : simpl never.
Lemma along_app f t u : along f (t ++ u) = along f t +:+ along f u.
Proof. unfold along. induction t as [|e t IH]; [done|]. cbn. by rewrite IH, app_assoc_s. Qed.
Lemma along_snoc f t e : along f (t ++ [e]) = along f t +:+ f e.
Proof. rewrite along_app. unfold along at 2. cbn. by rewrite app_nil_s. Qed.
Lemma along_other f t e :
  (forall e, ~ (exists fd s n, e = SendTo fd s n) -> f e = "") ->
  ~ (exists fd s n, e = SendTo fd s n) -> along f (t ++ [e]) = along f t.
Proof. intros Hf He. by rewrite along_snoc, Hf, app_nil_s. Qed.
Lemma given_other t e : ~ (exists fd s n, e = SendTo fd s n) -> given (t ++ [e]) = given t.
Proof. apply along_other. intros []; try done. intros []. by eexists _, _, _. Qed.
Lemma stake_all_le n s : (slen s <= n)%nat -> stake n s = s.
Proof. revert s. induction n as [|n IH]; intros [|c s] H; cbn in *; try done; [lia|]. rewrite IH; [done|lia]. Qed.
Lemma app_inj_len s t s' t' : s +:+ t = s' +:+ t' -> slen s = slen s' -> s = s' /\ t = t'.
Proof.
  intros H E. split.
  - apply (f_equal (stake (slen s))) in H. by rewrite stake_app, E, stake_app in H.
  - apply (f_equal (sdrop (slen s))) in H. by rewrite sdrop_app_s, E, sdrop_app_s in H.
Qed.
(** All that was given went exactly when each block was taken whole. *)
Lemma sent_given t : sent t = given t <-> Forall whole t.
Proof.
  assert (Hle : forall e, (slen (sent_by e) <= slen (given_by e))%nat).
  { intros []; cbn [sent_by given_by]; try lia. rewrite slen_stake. lia. }
  assert (He : forall e, sent_by e = given_by e <-> whole e).
  { intros e. unfold sent_by, given_by, whole. destruct e; try done. split; intros H.
    - apply (f_equal slen) in H. rewrite slen_stake in H. lia.
    - apply stake_all_le. lia. }
  assert (Ht : forall t, (slen (sent t) <= slen (given t))%nat).
  { intros u. unfold sent, given, along. induction u as [|e u IH]; [done|]. cbn. rewrite !slen_app.
    specialize (Hle e). lia. }
  induction t as [|e t IH]; [by split|]. rewrite Forall_cons, <- He, <- IH. clear IH.
  change (sent (e :: t)) with (sent_by e +:+ sent t). change (given (e :: t)) with (given_by e +:+ given t).
  split; [|by intros [-> ->]]. intros H. specialize (Hle e). specialize (Ht t).
  apply (app_inj_len _ _ _ _ H). apply (f_equal slen) in H. rewrite !slen_app in H. lia.
Qed.

Section Send.
Context {env : TransferEnv}.
(** The file libpurple writes only grows. *)
Definition growing : Prop :=
  forall t e c, local_file t = Some c -> exists x, local_file (t ++ [e]) = Some (c +:+ x).
Context (Hgrow : growing).

(** [got t] is what has been taken from the file, and [P] what holds of the object
    that makes a block count once in it. *)
Definition armed (d : dcc) : Prop := d_listen_data d = true \/ d_watcher d = Some Connected.
Definition quiet (d d' : dcc) : Prop :=
  (d_listen_data d' = true -> d_listen_data d = true)
  /\ (d_watcher d' = Some Connected -> d_watcher d = Some Connected)
  /\ (d_fd d' = d_fd d \/ d_fd d' = -1).
Context (got : list ev -> string) (P : dcc -> Prop).
Context (Hother : forall t e, ~ (exists fd s n, e = SendTo fd s n) -> got (t ++ [e]) = got t).
Context (Hblock : forall t d buf, P d -> 0 <= d_fd d ->
  got (t ++ [SendTo (d_fd d) buf (send t (d_fd d) buf)]) = got t +:+ buf).
Context (Harmed : forall d d', P d -> armed d -> P d').
Context (Hquiet : forall d d', P d -> quiet d d' -> P d').

(** What has been taken is the beginning of the file, and the position follows it. *)
Record inv (s : st) : Prop := {
  inv_P : P (obj s);
  inv_bytes : d_bytes_sent (obj s) = Z.of_nat (slen (got (tr s)));
  inv_fp : match d_fp (obj s) with
           | Some (pos, _) => Z.of_nat pos = d_bytes_sent (obj s) /\ local_file (tr s) <> None
           | None => d_finished (obj s) = true \/ got (tr s) = ""
           end;
  inv_file : got (tr s) = "" \/ exists x, local_file (tr s) = Some (got (tr s) +:+ x) }.

Lemma grows u t c : local_file t = Some c -> exists x, local_file (t ++ u) = Some (c +:+ x).
Proof.
  revert t c. induction u as [|e u IH]; intros t c H.
  - exists "". by rewrite app_nil_r, app_nil_s.
  - destruct (Hgrow t e c H) as [x Hx]. destruct (IH _ _ Hx) as [y Hy].
    exists (x +:+ y). by rewrite <- app_assoc_s, <- Hy, <- (assoc_L (++)).
Qed.
Lemma inv_emit t d e : ~ (exists fd s n, e = SendTo fd s n) -> inv (St t d) -> inv (St (t ++ [e]) d).
Proof.
  intros He [HP Hb Hp Hf]. split; cbn in *; rewrite ?(Hother _ _ He); [done..| |].
  - destruct (d_fp d) as [[pos eof]|]; [|done]. split; [apply Hp|].
    destruct Hp as [_ Hp]. destruct (local_file t) as [c|] eqn:E; [|done].
    destruct (Hgrow t e c E) as [x ->]. done.
  - destruct Hf as [Hf|[x Hf]]; [by left|right]. destruct (Hgrow t e _ Hf) as [y Hy].
    exists (x +:+ y). by rewrite Hy, app_assoc_s.
Qed.
(** A change of the object that leaves the file alone. *)
Lemma inv_obj t d d' :
  quiet d d' -> d_bytes_sent d' = d_bytes_sent d -> d_fp d' = d_fp d -> (d_finished d = true -> d_finished d' = true) ->
  inv (St t d) -> inv (St t d').
Proof.
  intros Hq H1 H2 H3 [HP Hb Hp Hf]. split; cbn in *; [by apply (Hquiet d)|by rewrite H1| |done].
  rewrite H1, H2. destruct (d_fp d) as [[]|]; [done|]. destruct Hp; auto.
Qed.
(** The file is closed. *)
Lemma inv_close t d q : d_finished d = true -> inv (St t d) ->
  inv (St t (set_rxqueue q (set_fp (d_bytes_sent d) None d))).
Proof.
  intros H [HP Hb Hp Hf]. split; cbn in *; auto.
  apply (Hquiet d); [done|]. split_and!; [done..|]. by left.
Qed.

(** One block: what fread gave goes, the position moves. *)
Lemma fread_split f pos eof n : exists y, sdrop pos f = (fread f pos eof n).1 +:+ y.
Proof.
  unfold fread. destruct (eof && eof_sticky); cbn; [by exists (sdrop pos f)|].
  exists (sdrop n (sdrop pos f)). unfold substr. by rewrite stake_drop.
Qed.
Lemma inv_block t d pos eof c buf eof' :
  d_fp d = Some (pos, eof) -> local_file t = Some c -> fread c pos eof 512 = (buf, eof') ->
  0 <= d_fd d -> inv (St t d) ->
  let t' := t ++ [FRead (slen buf)] in
  inv (St (t' ++ (if negb (sempty buf)
                  then [SendTo (d_fd d) buf (send t' (d_fd d) buf)] else []))
    (set_fp (d_bytes_sent d + Z.of_nat (slen buf)) (Some ((pos + slen buf)%nat, eof')) d)).
Proof.
  intros Hd Hc E Hfd [HP Hb Hp Hf]. cbn in HP, Hb, Hp, Hf. rewrite Hd in Hp. destruct Hp as [Hp _]. cbv zeta.
  assert (Hpos : pos = slen (got t)) by lia.
  assert (Hx : exists x, c = got t +:+ x).
  { destruct Hf as [->|[x Hx]]; [by exists c|]. exists x. congruence. }
  destruct Hx as [x ->]. destruct (fread_split (got t +:+ x) pos eof 512) as [y Hy].
  rewrite E, Hpos, sdrop_app_s in Hy. cbn in Hy. subst x.
  set (u := if negb (sempty buf) then [SendTo _ _ _] else []).
  destruct (grows ([FRead (slen buf)] ++ u) t _ Hc) as [z Hz].
  assert (Hs : got ((t ++ [FRead (slen buf)]) ++ u) = got t +:+ buf).
  { assert (Hr : got (t ++ [FRead (slen buf)]) = got t) by (apply Hother; by intros (? & ? & ? & ?)).
    unfold u. destruct buf as [|a buf]; cbn [negb sempty]; [by rewrite app_nil_r, app_nil_s|].
    by rewrite Hblock, Hr. }
  clearbody u. split; cbn [tr obj set_fp d_bytes_sent d_fp d_finished].
  all: rewrite ?Hs, <- ?(assoc_L (++)).
  - apply (Hquiet d); [done|]. split_and!; [done..|]. by left.
  - rewrite slen_app. lia.
  - split; [lia|by rewrite Hz].
  - right. exists (y +:+ z). by rewrite Hz, !app_assoc_s.
Qed.
Lemma wp_emit e (Q : unit -> st -> Prop) R s : Q tt (St (tr s ++ [e]) (obj s)) -> wp (emit e) Q R s.
Proof. done. Qed.

(** ** Each method keeps it *)

Definition keeps (m : M unit) : Prop := forall s, inv s -> wp m (fun _ => inv) (fun _ _ => False) s.

Lemma dcc_send_keeps : keeps dcc_send.
Proof.
  intros [t d] H. unfold dcc_send. apply ewp_bind, ewp_get. cbn beta.
  destruct (d_finished (id (obj (St t d))) || _ || _) eqn:Hn; [done|].
  cbn in Hn. apply orb_false_iff in Hn as [[Hfin _]%orb_false_iff Hfd]. apply Z.ltb_ge in Hfd.
  apply ewp_bind, (ewp_mono _ (fun ready s => inv s /\ 0 <= d_fd (obj s) /\ (ready = true -> d_fp (obj s) <> None))
                    _ (fun _ _ => False)); [|intros ready [t' d'] (Hi & Hfd' & Hr)|done].
  - cbn. destruct (d_fp d) as [[pos eof]|] eqn:Hfp; [by apply ewp_ret; cbn; rewrite Hfp|].
    apply ewp_bind, wp_emit. cbn.
    assert (inv (St (t ++ [FOpen (d_local_filename d)]) d)) as H1
      by by apply inv_emit; [intros (? & ? & ? & ?)|].
    apply ewp_bind, ewp_get. cbn. destruct (local_file _) as [c|] eqn:E; [|done].
    apply ewp_bind, ewp_put, ewp_ret. cbn. split; [|done]. destruct H1 as [HP Hb Hp Hf]. cbn in *.
    rewrite Hfp in Hp. destruct Hp as [Hp|Hp]; [by rewrite Hp in Hfin|].
    split; cbn; [|done| |done].
    + apply (Hquiet d); [done|]. split_and!; [done..|]. by left.
    + rewrite Hb, Hp. split; [done|by rewrite E].
  - destruct ready; cbn [negb]; [|done]. specialize (Hr eq_refl). cbn in Hr, Hfd'.
    apply ewp_bind, ewp_get. cbn. apply ewp_bind, ewp_get. cbn.
    destruct (d_fp d') as [[pos eof]|] eqn:Hfp; [|done].
    pose proof (inv_fp _ Hi) as Hp. cbn in Hp. rewrite Hfp in Hp. destruct Hp as [_ Hp].
    destruct (local_file t') as [c|] eqn:Hc; [|done]. cbn.
    destruct (fread c pos eof 512) as [buf eof'] eqn:E.
    pose proof (inv_block t' d' pos eof c buf eof' Hfp Hc E Hfd' Hi) as Hk. cbv zeta in Hk.
    apply ewp_bind, wp_emit, ewp_bind, ewp_when; intros Hb; rewrite Hb in Hk; [done|].
    apply ewp_put. cbn. by rewrite app_nil_r in Hk.
Qed.

Lemma given_keeps_emit e : ~ (exists fd s n, e = SendTo fd s n) -> keeps (emit e).
Proof. intros He [t d] H. by apply wp_emit, inv_emit. Qed.
Definition tame (f : dcc -> dcc) : Prop := forall d,
  d_bytes_sent (f d) = d_bytes_sent d /\ d_fp (f d) = d_fp d
  /\ (d_finished d = true -> d_finished (f d) = true).
Lemma keeps_up f : tame f -> (forall d, P d -> P (f d)) -> keeps (up f).
Proof.
  intros Hf HP [t d] [H0 Hb Hp Hx]. destruct (Hf d) as (H1 & H2 & H3). cbn in *.
  split; cbn; [auto|congruence| |done].
  rewrite H1, H2. destruct (d_fp d) as [[]|]; [done|]. destruct Hp; auto.
Qed.
Lemma given_keeps_when b m : keeps m -> keeps (when b m).
Proof. intros Hm s H. by apply ewp_when; [intros _; apply Hm|]. Qed.
Lemma wp_keeps m k (Q : unit -> st -> Prop) s :
  keeps m -> inv s -> (forall s', inv s' -> wp k Q (fun _ _ => False) s') -> wp (m ;; k)%eff Q (fun _ _ => False) s.
Proof.
  intros Hm H Hk. apply ewp_bind, (ewp_mono _ (fun _ => inv) _ (fun _ _ => False) _ _ (Hm s H)); [|done].
  intros [] s' H'. by apply Hk.
Qed.
Lemma keeps_seq m k : keeps m -> keeps k -> keeps (m ;; k)%eff.
Proof. intros Hm Hk s H. by apply wp_keeps; [| |intros s'; apply Hk]. Qed.
Lemma keeps_this {A} (f : dcc -> A) k : (forall a, keeps (k a)) -> keeps (eff! a := this f; k a)%eff.
Proof. intros Hk s H. apply ewp_bind, ewp_get. by apply Hk. Qed.
Lemma keeps_ask {A} (f : list ev -> A) k : (forall a, keeps (k a)) -> keeps (eff! a := ask f; k a)%eff.
Proof. intros Hk s H. apply ewp_bind, ewp_get. by apply Hk. Qed.
Lemma given_keeps_ret : keeps (ret tt).
Proof. intros s H. exact H. Qed.
#[local] Hint Resolve given_keeps_emit given_keeps_when keeps_seq keeps_this keeps_ask given_keeps_ret dcc_send_keeps : core.
#[local] Hint Extern 1 (keeps (emit _)) => apply given_keeps_emit; intros (? & ? & ? & ?); discriminate : core.
#[local] Hint Extern 1 (keeps (up _)) =>
  apply keeps_up; [intros ?; by split_and!
    |intros ? ?; eapply Hquiet; [eassumption|]; split_and!; cbn; auto; discriminate] : core.

Lemma deinit_keeps : keeps deinit.
Proof.
  intros s H. apply ewp_bind.
  apply (ewp_mono _ (fun _ s => inv s /\ d_finished (obj s) = true) _ (fun _ _ => False)); [| |done].
  - unfold server_deinit. apply ewp_bind, ewp_get. generalize (id (obj s)); intros d.
    do 3 (apply wp_keeps; [auto|exact H|clear s H; intros s H]).
    eapply (ewp_mono _ (fun _ s' => inv s' /\ d_finished (obj s') = true) _ (fun _ _ => False)); [|done..].
    split; [|done]. refine (keeps_up (fun d => set_finished true (set_conn false None (-1) d)) _ _ _ H); [intros ?; by split_and!|].
    intros d' HP. apply (Hquiet d'); [done|]. split_and!; cbn; [done..|by right].
  - clear s H. intros [] [t d] [H Hf]. apply ewp_bind, ewp_get. cbn. destruct (d_kind d); [|done].
    apply ewp_bind. eapply (ewp_mono _ (fun _ s => inv s /\ d_finished (obj s) = true) _ (fun _ _ => False)); [| |done].
    + apply ewp_when; intros _; [|done]. apply wp_emit. split; [|done].
      apply inv_emit; [by intros (? & ? & ? & ?)|done].
    + clear t d H Hf. intros [] [t d] [H Hf]. apply ewp_put. by apply inv_close.
Qed.
#[local] Hint Resolve deinit_keeps : core.
Ltac keep :=
  repeat (cbv beta zeta; match goal with
  | |- keeps (bind (this _) _) => apply keeps_this; intros ?
  | |- keeps (bind (ask _) _) => apply keeps_ask; intros ?
  | |- keeps (bind (emit _) _) => apply keeps_seq
  | |- keeps (bind (up _) _) => apply keeps_seq
  | |- keeps (bind (when _ _) _) => apply keeps_seq
  | |- keeps (when _ _) => apply given_keeps_when
  | |- keeps (let '_ := ?x in _) => destruct x
  | |- keeps (if ?x then _ else _) => destruct x
  | |- keeps (match ?x with _ => _ end) => destruct x
  end); auto.
Lemma updated_keeps b : keeps (updated b).
Proof. unfold updated. keep. Qed.
#[local] Hint Resolve updated_keeps : core.
(** Where any object will do, the object may be watched anew. *)
Lemma keeps_up_any f : (forall d, P d) -> tame f -> keeps (up f).
Proof. intros HP Hf. apply keeps_up; auto. Qed.
Lemma listen_cb_keeps sock : (forall d, P d) -> keeps (listen_cb sock).
Proof.
  intros HP. unfold listen_cb. keep; apply keeps_up_any; try done; intros ?; by split_and!.
Qed.
Lemma connected_keeps : (forall d, P d) -> keeps connected.
Proof.
  intros HP. unfold connected. keep; apply keeps_up_any; try done; intros ?; by split_and!.
Qed.
Lemma fire_keeps c : keeps (fire c).
Proof.
  intros [t d] H. apply ewp_bind, ewp_get. cbn.
  assert (HP : armed d -> forall d', P d') by (intros Ha d'; apply (Harmed d); [apply (inv_P _ H)|done]).
  destruct c as [sock| |r|b|n].
  - apply ewp_when; [|done]. intros Hl. apply listen_cb_keeps; [|done]. apply HP. by left.
  - apply ewp_when; [|done]. intros Hl%bool_decide_eq_true. apply connected_keeps; [|done].
    apply HP. by right.
  - revert H. generalize (St t d). change (keeps (when (bool_decide (d_watcher d = Some DccRead)) (dcc_read r))).
    unfold dcc_read. keep.
  - by apply updated_keeps.
  - revert H. generalize (St t d). change (keeps (setPeer n)). unfold setPeer. auto.
Qed.
Lemma life_keeps cs : keeps (life cs).
Proof. intros s H. apply ewp_mapM_; [done|]. intros c s' _. apply fire_keeps. Qed.
End Send.

(** * DCCSend *)

Section Life.
Context {env : TransferEnv}.
#[local] Open Scope eff_scope.

(** A new object has sent nothing. *)
Lemma create_inv got P k filename size sender lf t d :
  (forall d, P d) -> (forall t e, ~ (exists fd s n, e = SendTo fd s n) -> got (t ++ [e]) = got t) -> got t = "" ->
  wp (create k filename size sender lf) (fun _ => inv got P) (fun e _ => e = DCCListenError) (St t d).
Proof.
  intros HP Hother Ht. unfold create. apply ewp_bind, ewp_get. cbn. apply ewp_bind, ewp_put. cbn.
  apply ewp_bind, wp_emit, ewp_bind, ewp_get. destruct (negb _); [by apply ewp_throw|].
  apply ewp_put. split; cbn; rewrite ?Hother, ?Ht; auto; by intros (? & ? & ? & ?).
Qed.

(** C21: in the whole life of a transfer to the client, whatever the callbacks of
    libpurple, the acknowledgements and what send returns, and when the file only
    grows: the blocks given to send are in order the beginning of the file, each given
    once, and bytes_sent counts them; what went is all of that exactly when the kernel
    took each block whole, and a block it did not take is never given again. *)
Theorem sends_prefix (filename : string) (size : Z) (sender : option string) (lf : string)
    (cs : list callback) (t : list ev) (d : dcc) :
  growing -> given t = "" ->
  wp (create SEND filename size sender lf;; life cs)
    (fun _ s => d_bytes_sent (obj s) = Z.of_nat (slen (given (tr s)))
                /\ (given (tr s) = "" \/ exists rest, local_file (tr s) = Some (given (tr s) +:+ rest))
                /\ (sent (tr s) = given (tr s) <-> Forall whole (tr s)))
    (fun e _ => e = DCCListenError) (St t d).
Proof.
  intros Hg Ht. apply ewp_bind.
  apply (ewp_mono _ _ _ _ (fun e _ => e = DCCListenError) _
           (create_inv given (fun _ => True) SEND filename size sender lf t d (fun _ => I) given_other Ht)); [|done].
  intros [] s H.
  apply (ewp_mono _ (fun _ => inv given (fun _ => True)) _ (fun _ _ => False)); [| |done].
  - apply life_keeps; try done; [apply given_other|].
    intros t' d' buf _ _. apply along_snoc.
  - intros [] s' []. split_and!; [done..|apply sent_given].
Qed.

(** Once connected, a transfer only sends to its client. *)
Definition on_client (conn : Z) (d : dcc) : Prop :=
  d_listen_data d = false /\ d_watcher d <> Some Connected /\ (d_fd d = conn \/ d_fd d = -1).
Lemma on_client_armed conn d : on_client conn d -> ~ armed d.
Proof. intros (H1 & H2 & _) [H|H]; congruence. Qed.
Lemma on_client_quiet conn d d' : on_client conn d -> quiet d d' -> on_client conn d'.
Proof.
  intros (H1 & H2 & H3) (Q1 & Q2 & Q3). split_and!; [|auto|].
  - destruct (d_listen_data d'); [|done]. by rewrite Q1 in H1.
  - destruct Q3 as [->| ->]; auto.
Qed.
Lemma sent_to_snoc conn t e :
  sent_to conn (t ++ [e]) = sent_to conn t +:+ (if to_fd conn e then sent_by e else "").
Proof.
  unfold sent_to. unfold sent. rewrite filter_app, along_app. f_equal.
  unfold filter; cbn. case_decide as H; destruct (to_fd conn e); try done.
  unfold along. cbn. by rewrite app_nil_s.
Qed.

#[local] Arguments stake : simpl never.
#[local] Arguments sdrop : simpl never.
#[local] Arguments wp : simpl never.
#[local] Arguments fread : simpl never.

(** What the update in between leaves. *)
Lemma early_block sock conn b c t d :
  sock <> conn -> (forall t s, send t sock s = -1) ->
  (512 <= slen c)%nat -> (forall t, exists x, local_file t = Some (c +:+ x)) ->
  d_kind d = SEND -> d_fd d = sock -> 0 <= sock -> d_listen_data d = false -> d_finished d = false ->
  d_fp d = None -> d_bytes_sent d = 0 -> sent_to conn t = "" ->
  wp (updated b) (fun _ s => exists u,
      tr s = u /\ sent_to conn u = ""
      /\ d_kind (obj s) = SEND /\ d_fd (obj s) = sock /\ d_listen_data (obj s) = false
      /\ d_watcher (obj s) = d_watcher d /\ d_bytes_sent (obj s) = 512
      /\ exists eof, d_fp (obj s) = Some (512%nat, eof))
    (fun _ _ => False) (St t d).
Proof.
  intros Hne Hs1 Hlen Hf Hk Hfd Hs Hl Hfin Hfp Hb Ht. unfold updated.
  apply ewp_bind, ewp_get, ewp_bind, ewp_get. cbn. rewrite Hk, Hfd, Hl.
  replace (sock <? 0) with false by lia. cbn [orb andb].
  apply ewp_bind, (ewp_mono _ (fun _ s => exists f, s = St t (set_ft f d)) _ (fun _ _ => False));
    [destruct b; [by exists false|by exists (d_ft d); destruct d]| |done].
  intros [] s [f ->]. unfold dcc_send. apply ewp_bind, ewp_get. cbn. rewrite Hfin, Hl, Hfd, Hfp.
  replace (sock <? 0) with false by lia. cbn [orb].
  apply ewp_bind, ewp_bind, wp_emit, ewp_bind, ewp_get. cbn. destruct (Hf (t ++ [FOpen (d_local_filename d)])) as [x E].
  rewrite E. apply ewp_bind, ewp_put, ewp_ret. cbn.
  apply ewp_bind, ewp_get, ewp_bind, ewp_get. cbn. rewrite E. cbn.
  destruct (fread (c +:+ x) 0 false 512) as [buf eof] eqn:Er.
  assert (slen buf = 512%nat) as Hbuf.
  { injection Er as <- _. unfold substr. rewrite slen_stake, slen_drop, slen_app. lia. }
  apply ewp_bind, wp_emit, ewp_bind. rewrite Hfd. destruct buf as [|a buf]; [done|].
  apply ewp_when; [|done]. intros _. apply ewp_bind, ewp_get, wp_emit. rewrite Hs1. cbn.
  apply ewp_put. cbn. eexists. split; [done|]. rewrite !sent_to_snoc, Ht. cbn.
  replace (sock =? conn) with false by lia. cbn in Hbuf. rewrite Hbuf, Hb. split_and!; try done; by eexists.
Qed.

(** An update of the transfer between the announce of the port and the connection
    of the client takes the first 512 bytes of the file and sends them on the
    listening socket, which refuses them: the client then gets the file from byte
    512 on, and bytes_sent counts what he did not get. *)
Theorem early_update_lost (filename : string) (size : Z) (sender : option string) (lf : string)
    (sock conn : Z) (b : bool) (cs : list callback) (c : string) (d : dcc) :
  growing ->
  (forall t, listen_range t = true) -> (forall t, inet_aton (bind_address t) <> None) ->
  0 <= sock -> 0 < conn -> sock <> conn -> (forall t, accept t = conn) ->
  (forall t s, send t sock s = -1) -> (forall t s, send t conn s = Z.of_nat (slen s)) ->
  (512 <= slen c)%nat -> (forall t, exists x, local_file t = Some (c +:+ x)) ->
  wp (create SEND filename size sender lf;; life ([LISTENED sock; UPDATED b; CONNECTED] ++ cs))
    (fun _ s => d_bytes_sent (obj s) = 512 + Z.of_nat (slen (sent_to conn (tr s)))
       /\ exists rest, local_file (tr s) = Some (stake 512 c +:+ sent_to conn (tr s) +:+ rest))
    (fun _ _ => False) (St [] d).
Proof.
  intros Hg Hl Ha Hs Hc Hne Hacc Hs1 Hs2 Hlen Hf. apply ewp_bind.
  (* the object and its port *)
  unfold create. apply ewp_bind, ewp_get. cbn. apply ewp_bind, ewp_put. cbn.
  apply ewp_bind, wp_emit, ewp_bind, ewp_get. cbn. rewrite Hl. cbn. apply ewp_put. cbn.
  (* the announce *)
  unfold life. cbn [mapM_ app]. apply ewp_bind. unfold fire at 1. apply ewp_bind, ewp_get. cbn.
  unfold listen_cb. apply ewp_bind, ewp_get. cbn. apply ewp_bind, ewp_put. cbn.
  specialize (Ha [Listen port_range.1 port_range.2]).
  destruct (inet_aton _) as [addr|]; [|done].
  apply ewp_bind, wp_emit, ewp_bind, ewp_put, ewp_bind, ewp_get, wp_emit. cbn.
  (* the update *)
  apply ewp_bind. unfold fire at 1. apply ewp_bind, ewp_get. cbn.
  eapply (ewp_mono _ _ _ _ (fun _ _ => False)); [by apply (early_block sock conn b c)| |done].
  intros [] [u d'] (? & <- & Hu & Hk & Hfd & Hld & Hw & Hb & eof & Hp). cbn in *.
  (* the connection *)
  apply ewp_bind. unfold fire at 1. apply ewp_bind, ewp_get. cbn. rewrite Hw. cbn.
  apply ewp_when; [intros _|by rewrite bool_decide_true]. unfold connected.
  apply ewp_bind, ewp_get. cbn. rewrite Hacc. replace (conn =? 0) with false by lia.
  apply ewp_bind, wp_emit, ewp_bind, ewp_get, ewp_bind, wp_emit, ewp_bind, wp_emit, ewp_bind, ewp_put. cbn.
  set (got := fun t => stake 512 c +:+ sent_to conn t).
  assert (Hother : forall t e, ~ (exists fd s n, e = SendTo fd s n) -> got (t ++ [e]) = got t).
  { intros t e He. unfold got. rewrite sent_to_snoc. destruct e; cbn; try by rewrite app_nil_s.
    by destruct He; eexists _, _, _. }
  assert (Hblock : forall t d buf, on_client conn d -> 0 <= d_fd d ->
    got (t ++ [SendTo (d_fd d) buf (send t (d_fd d) buf)]) = got t +:+ buf).
  { intros t d1 buf (_ & _ & Hd) Hd'. assert (d_fd d1 = conn) as -> by lia. unfold got.
    rewrite sent_to_snoc. cbn. by rewrite Z.eqb_refl, Hs2, Nat2Z.id, stake_all, app_assoc_s. }
  eapply (ewp_mono _ (fun _ => inv got (on_client conn)) _ (fun _ _ => False)); [| |done].
  { apply (updated_keeps Hg got (on_client conn) Hother Hblock (on_client_quiet conn) false).
    assert (Hgot : got (((u ++ [InputRemove]) ++ [Close (d_fd d')]) ++ [InputAdd conn]) = stake 512 c).
    { rewrite !Hother by (by intros (? & ? & ? & ?)). unfold got. by rewrite Hu, app_nil_s. }
    destruct (Hf (((u ++ [InputRemove]) ++ [Close (d_fd d')]) ++ [InputAdd conn])) as [x Ex].
    split; cbn [tr obj d_bytes_sent d_fp set_conn]; rewrite ?Hgot, ?Hb, ?Hp, ?Ex.
    - split_and!; cbn; auto.
    - rewrite slen_stake. lia.
    - done.
    - right. exists (sdrop 512 c +:+ x). by rewrite <- app_assoc_s, stake_drop. }
  intros [] s H.
  eapply (ewp_mono _ (fun _ => inv got (on_client conn)) _ (fun _ _ => False)); [| |done].
  { refine (life_keeps Hg got (on_client conn) Hother Hblock _ (on_client_quiet conn) cs s H).
    intros d1 d2 H1 Ha1. by destruct (on_client_armed conn d1). }
  intros [] s' [_ H1 _ H2]. rewrite H1. unfold got. rewrite slen_app, slen_stake. split; [lia|].
  destruct H2 as [H2|[x ->]].
  - exfalso. apply (f_equal slen) in H2. unfold got in H2. rewrite slen_app, slen_stake in H2. change (slen "") with 0%nat in H2. lia.
  - exists x. unfold got. by rewrite app_assoc_s.
Qed.
End Life.

(** * The acknowledgements *)

(** The numbers a stream of bytes carries, four bytes each. *)
Fixpoint words (q : list Z) : list Z :=
  match q with a :: b :: c :: d :: q' => be32 a b c d :: words q' | _ => [] end.
Definition reached (total : Z) (q : list Z) : bool := existsb (fun a => total <=? a) (words q).

Lemma quad_ind (P : list Z -> Prop) :
  (forall q, (length q < 4)%nat -> P q) -> (forall a b c d q, P q -> P (a :: b :: c :: d :: q)) -> forall q, P q.
Proof.
  intros H0 H4. fix IH 1. intros [|a [|b [|c [|d q]]]]; [apply H0; cbn; lia..|apply H4, IH].
Qed.
Lemma rx_loop_reached total q : (rx_loop total q).2 = reached total q.
Proof.
  induction q as [q Hq|a b c d q IH] using quad_ind.
  - by destruct q as [|? [|? [|? [|? ?]]]]; cbn in Hq; try lia.
  - cbn. unfold reached in *. cbn. by destruct (total <=? be32 a b c d).
Qed.
Lemma rx_loop_app total q r :
  (rx_loop total q).2 = false -> rx_loop total (q ++ r) = rx_loop total ((rx_loop total q).1 ++ r).
Proof.
  induction q as [q Hq|a b c d q IH] using quad_ind.
  - by destruct q as [|? [|? [|? [|? ?]]]]; cbn in Hq; try lia.
  - cbn. by destruct (total <=? be32 a b c d).
Qed.
Lemma reached_app total q r : reached total q = true -> reached total (q ++ r) = true.
Proof.
  unfold reached. induction q as [q Hq|a b c d q IH] using quad_ind.
  - by destruct q as [|? [|? [|? [|? ?]]]]; cbn in Hq; try lia.
  - cbn. intros [->|H]%orb_true_iff; [done|]. by rewrite IH, orb_true_r.
Qed.
Lemma bytes_app s t : bytes (s +:+ t) = bytes s ++ bytes t.
Proof. induction s as [|c s IH]; [done|]. rewrite app_cons_s. cbn. by rewrite IH. Qed.

Section Acks.
Context {env : TransferEnv}.
#[local] Open Scope eff_scope.
#[local] Arguments wp : simpl never.
#[local] Arguments fread : simpl never.

(** What a block leaves alone. *)
Definition same_queue (d d' : dcc) : Prop :=
  d_kind d' = d_kind d /\ d_total_size d' = d_total_size d /\ d_watcher d' = d_watcher d
  /\ d_finished d' = d_finished d /\ d_rxqueue d' = d_rxqueue d.
Lemma dcc_send_queue s : wp dcc_send (fun _ s' => same_queue (obj s) (obj s')) (fun _ _ => False) s.
Proof.
  destruct s as [t d]. unfold dcc_send. apply ewp_bind, ewp_get. cbn. destruct (_ || _ || _); [done|].
  apply ewp_bind, (ewp_mono _ (fun _ s => same_queue d (obj s)) _ (fun _ _ => False)); [| |done].
  - destruct (d_fp d); [done|]. apply ewp_bind, wp_emit, ewp_bind, ewp_get. cbn. by destruct (local_file _).
  - intros [] [t' d'] H; cbn [negb]; [|done]. apply ewp_bind, ewp_get, ewp_bind, ewp_get. cbn.
    destruct (fread _ _ _ _) as [buf eof]. apply ewp_bind, wp_emit, ewp_bind, ewp_when; intros _; [|done].
    apply ewp_bind, ewp_get, wp_emit, ewp_put. done.
Qed.
Lemma wp_when_emit b e k (Q : unit -> st -> Prop) R t d :
  (forall t', wp k Q R (St t' d)) -> wp (when b (emit e);; k) Q R (St t d).
Proof. intros H. apply ewp_bind, ewp_when; intros _; [apply wp_emit|]; apply H. Qed.
Lemma deinit_over s :
  wp deinit (fun _ s' => d_finished (obj s') = true /\ d_watcher (obj s') = None
                         /\ d_kind (obj s') = d_kind (obj s)
                         /\ d_total_size (obj s') = d_total_size (obj s)) (fun _ _ => False) s.
Proof.
  destruct s as [t d]. unfold deinit, server_deinit. apply ewp_bind, ewp_bind, ewp_get. cbn.
  do 3 (apply wp_when_emit; clear t; intros t). apply ewp_put. cbn.
  apply ewp_bind, ewp_get. cbn. destruct (d_kind d) eqn:Hk; [|done].
  apply wp_when_emit. clear t; intros t. by apply ewp_put.
Qed.

(** The stream of the client: [q] has arrived, the transfer goes on or is over. *)
Definition ack_state (total : Z) (q : list Z) (d : dcc) : Prop :=
  d_kind d = SEND /\ d_total_size d = total /\ d_finished d = reached total q
  /\ if reached total q then d_watcher d = None
     else d_watcher d = Some DccRead /\ d_rxqueue d = (rx_loop total q).1.

Lemma read_ack total q buffer s :
  ack_state total q (obj s) ->
  wp (fire (READ (Bytes buffer))) (fun _ s' => ack_state total (q ++ bytes buffer) (obj s'))
    (fun _ _ => False) s.
Proof.
  destruct s as [t d]. intros (Hk & Ht & Hf & Hq). cbn in *. apply ewp_bind, ewp_get. cbn.
  destruct (reached total q) eqn:Hr.
  - rewrite Hq. cbn. split_and!; rewrite ?reached_app; auto.
  - destruct Hq as [Hw Hq]. rewrite Hw. cbn. apply ewp_when; [intros _|by rewrite bool_decide_true].
    unfold dcc_read. apply ewp_bind, ewp_get. cbn. rewrite Hk, Ht, Hq, <- rx_loop_app by by rewrite rx_loop_reached.
    pose proof (rx_loop_reached total (q ++ bytes buffer)) as E.
    destruct (rx_loop total (q ++ bytes buffer)) as [q' done] eqn:Eq. cbn in E. apply ewp_bind, ewp_put. cbn.
    destruct done.
    + eapply ewp_mono; [apply deinit_over| |done]. intros [] [t' d'] (H1 & H2 & H3 & H4). cbn in *.
      unfold ack_state. rewrite <- E. split_and!; congruence.
    + eapply ewp_mono; [apply dcc_send_queue| |done]. intros [] [t' d'] (H1 & H2 & H3 & H4 & H5). cbn in *.
      unfold ack_state. rewrite <- E, Eq. cbn. split_and!; congruence.
Qed.
Lemma read_acks total q cs s :
  ack_state total q (obj s) ->
  wp (life (map (fun b => READ (Bytes b)) cs))
    (fun _ s' => ack_state total (q ++ bytes (foldr String.append "" cs)) (obj s')) (fun _ _ => False) s.
Proof.
  revert q s. induction cs as [|b cs IH]; intros q s H.
  - cbn. by rewrite app_nil_r.
  - cbn. apply ewp_bind. eapply ewp_mono; [by apply read_ack| |done]. intros [] s' H'.
    rewrite bytes_app, (assoc_L (++)). by apply IH.
Qed.

(** C40: however the network cuts the acknowledgements of the client in reads, the
    transfer ends exactly when one of the 32 bits numbers of the whole stream
    reaches the size of the file, and before that the queue holds the bytes of the
    number that has not arrived completely. *)
Theorem ack_chunks (d : dcc) (t : list ev) (cs : list string) :
  d_kind d = SEND -> d_watcher d = Some DccRead -> d_finished d = false -> d_rxqueue d = [] ->
  let q := bytes (foldr String.append "" cs) in
  wp (life (map (fun b => READ (Bytes b)) cs))
    (fun _ s => d_finished (obj s) = existsb (fun a => d_total_size d <=? a) (words q)
       /\ (d_finished (obj s) = false -> d_rxqueue (obj s) = drop (4 * length (words q)) q))
    (fun _ _ => False) (St t d).
Proof.
  intros Hk Hw Hf Hq q. eapply ewp_mono; [apply (read_acks (d_total_size d) [])| |done].
  - split_and!; [done..|]. by split.
  - intros [] s (H1 & H2 & H3 & H4). cbn [app] in *. fold q in H3, H4. split; [done|].
    intros H. rewrite H3 in H. rewrite H in H4. destruct H4 as [_ ->]. revert H. generalize (d_total_size d).
    generalize q. clear. intros q total. unfold reached. induction q as [q Hl|a b c d q IH] using quad_ind.
    + by destruct q as [|? [|? [|? [|? ?]]]]; cbn in Hl; try lia.
    + cbn [words existsb rx_loop length]. intros [Ha H]%orb_false_iff. rewrite Ha, IH by done.
      by replace (4 * S (length (words q)))%nat with (S (S (S (S (4 * length (words q)))))) by lia.
Qed.

(** A file of 4 GiB or more never ends by an acknowledgement. *)
Lemma be32_bound a b c d :
  0 <= a < 256 -> 0 <= b < 256 -> 0 <= c < 256 -> 0 <= d < 256 -> 0 <= be32 a b c d < 2 ^ 32.
Proof. unfold be32. lia. Qed.
Lemma bytes_bound s : Forall (fun b => 0 <= b < 256) (bytes s).
Proof.
  induction s as [|c s IH]; cbn; constructor; [|done].
  unfold code. pose proof (nat_ascii_bounded c). lia.
Qed.
Theorem huge_never_acked (total : Z) (s : string) : 2 ^ 32 <= total -> (rx_loop total (bytes s)).2 = false.
Proof.
  intros Ht. rewrite rx_loop_reached. unfold reached. pose proof (bytes_bound s) as Hb. revert Hb.
  generalize (bytes s). intros q. induction q as [q Hl|a b c d q IH] using quad_ind; intros Hb.
  - by destruct q as [|? [|? [|? [|? ?]]]]; cbn in Hl; try lia.
  - cbn [words existsb]. rewrite !Forall_cons in Hb. destruct Hb as (Ha & Hb & Hc & Hd & Hq).
    rewrite IH by done. pose proof (be32_bound a b c d Ha Hb Hc Hd). lia.
Qed.

(** With the end of file of the C standard, a transfer whose reads met the end once
    never sends again, however the file grows: each wake-up reads nothing and
    leaves the object as it is. *)
Theorem eof_stops (d : dcc) (t : list ev) (pos : nat) :
  eof_sticky = true -> d_fp d = Some (pos, true) ->
  wp dcc_send (fun _ s => obj s = d /\ (tr s = t \/ tr s = t ++ [FRead 0])) (fun _ _ => False) (St t d).
Proof.
  intros He Hp. unfold dcc_send. apply ewp_bind, ewp_get. cbn. destruct (_ || _ || _); [by apply ewp_ret; auto|].
  rewrite Hp. apply ewp_bind, ewp_ret, ewp_bind, ewp_get, ewp_bind, ewp_get. cbn. rewrite Hp. cbn.
  unfold fread. rewrite He. cbn. apply ewp_bind, wp_emit, ewp_bind, ewp_ret, ewp_put. cbn. split; [|by right].
  rewrite Z.add_0_r, Nat.add_0_r. destruct d. cbn in *. by rewrite Hp.
Qed.
End Acks.

(** * DCCGet *)

Section Receive.
Context {env : TransferEnv}.
#[local] Open Scope eff_scope.
#[local] Arguments wp : simpl never.

(** How a transfer from the client is to end: the pieces that are written, and
    whether it is complete ([Some true]), cut by the peer ([Some false]) or goes on. *)
Fixpoint reading (total got : Z) (rs : list received) : list string * option bool :=
  match rs with
  | [] => ([], None)
  | Again :: rs => reading total got rs
  | Closed :: _ => ([], Some false)
  | Bytes s :: rs =>
    let got := got + Z.of_nat (slen s) in
    if total <=? got then ([s], Some true)
    else let '(l, o) := reading total got rs in (s :: l, o)
  end.
Definition ending (sock : Z) (n : Z) (o : option bool) : list ev :=
  match o with
  | None => []
  | Some false => [InputRemove; FClose; CallbackDelete]
  | Some true => [WriteAck sock (ack_bytes n); FFlush; CallbackRun; Close sock; InputRemove; FClose; CallbackDelete]
  end.
Definition total_len (l : list string) : Z := foldr (fun s n => Z.of_nat (slen s) + n) 0 l.
(** libpurple calls [dcc_read] while the descriptor is watched. *)
Definition watched (r : received) : GM unit :=
  eff! d := gthis; when (g_watcher d) (get_read r).

Context (Hfwrite : forall t s, fwrite t s = Z.of_nat (slen s)).
Context (Hwrite : forall t, write t = 8).

Lemma get_deinit_run f sock n total t :
  get_deinit (GSt t (Get_ f true false sock true true n total)) =
  (GSt (t ++ (if 0 <=? sock then [Close sock] else []) ++ [InputRemove; FClose; CallbackDelete])
       (Get_ f false true (-1) false false n total), Done tt).
Proof.
  unfold get_deinit, gemit, gput, gthis, bind, get, put, when, ret. cbn.
  destruct (0 <=? sock); cbn; by rewrite <- !(assoc_L (++)).
Qed.
Lemma watched_over rs t d :
  g_watcher d = false -> wp (mapM_ watched rs) (fun _ s => s = GSt t d) (fun _ _ => False) (GSt t d).
Proof.
  intros Hd. apply ewp_mapM_; [done|]. intros r s _ ->. apply ewp_bind, ewp_get. cbn. by rewrite Hd.
Qed.
Lemma reading_run from sock total rs : forall t got,
  0 <= sock ->
  let '(l, o) := reading total got rs in
  wp (mapM_ watched rs)
    (fun _ s => gtr s = t ++ map FWrite l ++ ending sock (got + total_len l) o
                /\ g_finished (gobj s) = bool_decide (o <> None))
    (fun _ _ => False) (GSt t (Get_ (Some from) true false sock true true got total)).
Proof.
  induction rs as [|[buf| |] rs IH]; intros t got Hs; cbn [reading].
  - apply ewp_ret. by rewrite app_nil_r.
  - specialize (IH (t ++ [FWrite buf]) (got + Z.of_nat (slen buf)) Hs).
    destruct (total <=? got + Z.of_nat (slen buf)) eqn:Ht;
      [|destruct (reading total (got + Z.of_nat (slen buf)) rs) as [l o]].
    + apply ewp_bind, ewp_bind, ewp_get. cbn. apply ewp_bind, ewp_get. cbn. apply ewp_bind, ewp_put. cbn.
      rewrite Hfwrite, Nat2Z.id, stake_all, Z.ltb_irrefl. cbn.
      apply ewp_bind, ewp_get, ewp_bind, ewp_put. cbn. rewrite Ht. cbn.
      apply ewp_bind, ewp_put, ewp_bind, ewp_get. rewrite Hwrite. cbn. apply ewp_bind, ewp_ret.
      apply ewp_bind, ewp_bind, ewp_put, ewp_put. cbn. unfold wp at 1. rewrite get_deinit_run.
      replace (0 <=? sock) with true by lia.
      eapply ewp_mono; [by apply watched_over| |done]. intros [] s ->. cbn.
      by rewrite Z.add_0_r, <- !(assoc_L (++)).
    + apply ewp_bind, ewp_bind, ewp_get. cbn. apply ewp_bind, ewp_get. cbn. apply ewp_bind, ewp_put. cbn.
      rewrite Hfwrite, Nat2Z.id, stake_all, Z.ltb_irrefl. cbn.
      apply ewp_bind, ewp_get, ewp_bind, ewp_put. cbn. rewrite Ht. cbn. apply ewp_ret.
      eapply ewp_mono; [exact IH| |done]. intros [] s [-> H]. split; [|done].
      cbn. by rewrite <- (assoc_L (++)), Z.add_assoc.
  - specialize (IH t got Hs). destruct (reading total got rs) as [l o]. by apply ewp_bind, ewp_bind, ewp_get.
  - apply ewp_bind, ewp_bind, ewp_get. cbn. apply ewp_bind, ewp_get, ewp_bind, ewp_put. cbn.
    unfold wp at 1. rewrite get_deinit_run. eapply ewp_mono; [by apply watched_over| |done]. by intros [] s ->.
Qed.

(** A file the client sends is written exactly, up to the read that reaches its
    size; then it is acknowledged with the number of bytes received, flushed, the
    callback runs once and after that everything is closed; a client that leaves
    before it leaves the beginning of the file and a callback that never runs (and a
    descriptor that is not closed). *)
Theorem get_complete (from : nat) (filename : string) (size : Z) (rs : list received) (d : dcc_get) :
  fopen_w [FOpen filename] = true -> connect [FOpen filename] = true -> 0 <= socket [FOpen filename] ->
  let sock := socket [FOpen filename] in
  let '(l, o) := reading size 0 rs in
  wp (get_create from filename size;; mapM_ watched rs)
    (fun _ s => gtr s = [FOpen filename; InputAdd sock] ++ map FWrite l ++ ending sock (total_len l) o
                /\ g_finished (gobj s) = bool_decide (o <> None))
    (fun _ _ => False) (GSt [] d).
Proof.
  intros Ho Hc Hs sock. pose proof (reading_run from sock size rs [FOpen filename; InputAdd sock] 0 Hs) as H.
  destruct (reading size 0 rs) as [l o]. apply ewp_bind. unfold get_create.
  apply ewp_bind, ewp_put, ewp_bind, ewp_put, ewp_bind, ewp_get. cbn. rewrite Ho. cbn.
  apply ewp_bind, ewp_get, ewp_bind, ewp_put, ewp_bind, ewp_get. cbn. rewrite Hc. cbn.
  by apply ewp_bind, ewp_put, ewp_put.
Qed.
End Receive.

(** * A transfer *)

Definition demo_file : string := Nat.iter 600 (String "a") "".
(** A peer; the socket [refuses] takes nothing. *)
Definition demo_env (refuses : Z) : TransferEnv := {|
  port_range := (1024, 65535); dcc_own_ip := " "; my_ip := fun _ => "192.168.1.1";
  inet_aton := fun _ => Some 3232235777; listen_range := fun _ => true; port_from_fd := fun fd => 5000 + fd;
  strerror := fun _ => "error"; time := fun t => Z.of_nat (length t); accept := fun _ => 8;
  send := fun _ fd s => if (fd =? refuses) && (0 <=? fd) then -1 else Z.of_nat (slen s);
  local_file := fun _ => Some demo_file; eof_sticky := true; fopen_w := fun _ => true;
  socket := fun _ => 9; connect := fun _ => true; fwrite := fun _ s => Z.of_nat (slen s); write := fun _ => 8 |}.
Definition demo_transfer : TransferEnv := demo_env 7.
Definition demo_whole : TransferEnv := demo_env (-1).
Definition demo_dcc : dcc := Dcc_ SEND "pic.png" 600 0 None false (Some DccRead) 8 5007 false true "/tmp/pic" 0 None [].
Definition demo_ack (n : nat) : received :=
  Bytes (String "000" (String "000" (String (ascii_of_nat (n / 256)) (String (ascii_of_nat (n mod 256)) "")))).
Lemma demo_growing n : @growing (demo_env n).
Proof. intros t e c H. exists "". by rewrite app_nil_s. Qed.

(** The whole life of a transfer: two blocks, two acknowledgements, the end. *)
Example demo_life :
  let '(s, r) := (@create demo_whole SEND "pic.png" 600 None "/tmp/pic";;
                  @life demo_whole [LISTENED 7; CONNECTED; READ (demo_ack 512); READ (demo_ack 600)])%eff
                   (St [] demo_dcc) in
  r = Done tt /\ sent (tr s) = demo_file /\ d_finished (obj s) = true /\ d_bytes_sent (obj s) = 600.
Proof. vm_compute. done. Qed.

Lemma sends_prefix_witness :
  wp (@create demo_transfer SEND "pic.png" 600 None "/tmp/pic";;
      @life demo_transfer [LISTENED 7; UPDATED false; CONNECTED; READ (demo_ack 512)])%eff
    (fun _ s => d_bytes_sent (obj s) = Z.of_nat (slen (given (tr s)))
       /\ (given (tr s) = "" \/ exists rest, Some demo_file = Some (given (tr s) +:+ rest))
       /\ (sent (tr s) = given (tr s) <-> Forall whole (tr s)))
    (fun e _ => e = DCCListenError) (St [] demo_dcc).
Proof. apply (@sends_prefix demo_transfer); [exact (demo_growing 7)|done]. Defined.
Lemma early_update_lost_witness :
  wp (@create demo_transfer SEND "pic.png" 600 None "/tmp/pic";;
      @life demo_transfer ([LISTENED 7; UPDATED false; CONNECTED] ++ [READ (demo_ack 88)]))%eff
    (fun _ s => d_bytes_sent (obj s) = 512 + Z.of_nat (slen (sent_to 8 (tr s)))
       /\ exists rest, Some demo_file = Some (stake 512 demo_file +:+ sent_to 8 (tr s) +:+ rest))
    (fun _ _ => False) (St [] demo_dcc).
Proof.
  apply (@early_update_lost demo_transfer "pic.png" 600 None "/tmp/pic" 7 8 false [READ (demo_ack 88)] demo_file);
    try done; [exact (demo_growing 7)|vm_compute; lia|].
  intros t. exists "". by rewrite app_nil_s.
Defined.
Lemma ack_chunks_witness :
  let q := bytes (foldr String.append "" ["abc"; "defg"; "h"]) in
  wp (@life demo_transfer (map (fun b => READ (Bytes b)) ["abc"; "defg"; "h"]))
    (fun _ s => d_finished (obj s) = existsb (fun a => 600 <=? a) (words q)
       /\ (d_finished (obj s) = false -> d_rxqueue (obj s) = drop (4 * length (words q)) q))
    (fun _ _ => False) (St [] demo_dcc).
Proof. apply (@ack_chunks demo_transfer demo_dcc); done. Defined.
Lemma get_complete_witness :
  wp (@get_create demo_transfer 1 "/tmp/icon" 5;; mapM_ (@watched demo_transfer) [Bytes "abc"; Again; Bytes "def"; Closed])%eff
    (fun _ s => gtr s = [FOpen "/tmp/icon"; InputAdd 9] ++ map FWrite ["abc"; "def"] ++ ending 9 6 (Some true)
                /\ g_finished (gobj s) = true)
    (fun _ _ => False) (GSt [] (Get_ None false false (-1) false false 0 0)).
Proof.
  apply (@get_complete demo_transfer (fun _ _ => eq_refl) (fun _ => eq_refl) 1 "/tmp/icon" 5
    [Bytes "abc"; Again; Bytes "def"; Closed]); done.
Defined.
