(* ===== verification/IconNick.v ===== *)
(** irc/buddy_icon.cpp: the nick that takes a picture sent by DCC and makes it the icon of
    every account; what becomes of the text, of the file and of the copy of its name. *)

From S2P Require Import Prelude Util Message Log World Dcc Effects Transfer Accounts.

Module IconNick.
Import Eff.
Local Open Scope eff_scope.
Inductive ev := Mkdir (path : string) | Said (flags : Z) (text : string).
(** The transfers, by their place; for each the copy of the path that its callback holds
    until it is freed; the icons (Accounts.v) and what the transfers do (Transfer.v). *)
Record st := St {
  gets : gmap nat Get.dcc_get; copies : gmap nat string; next : nat;
  icons : Icon.st; dcc_trace : list Transfer.ev; trace : list ev }.
Definition M (A : Type) : Type := Eff.M st exn A.
(** libpurple and the file system; the accounts in the order of their IDs, each with the
    formats of its protocol. *)
Class IconNickEnv := {
  purple_user_dir : string;
  opendir : list ev -> string -> bool; mkdir : list ev -> string -> bool;
  stat : list ev -> string -> option bool;        (* [Some true]: a directory *)
  g_path_get_dirname : string -> string; writable : list ev -> string -> bool;
  strerror : list ev -> string;
  accounts : list ev -> list (string * option Icon.icon_spec);
  icon_env : string -> Icon.IconEnv }.

#[local] Existing Instance W.ent_eq_dec.
Section IconNick.
Context {env : IconNickEnv} {tenv : Transfer.TransferEnv}.
Definition emit (e : ev) : M unit :=
  put (fun s => St (gets s) (copies s) (next s) (icons s) (dcc_trace s) (trace s ++ [e])).
Definition ask {A} (f : list ev -> A) : M A := get (fun s => f (trace s)).
Definition lift {A} (o : outcome A) : M A :=
  match o with Ret a => ret a | Throw e => throw e | Stuck w => crash w end.
(** A method of [Account], and one of the transfer [i]: [None] is [DCCGetError]. *)
Definition on_icons (m : Icon.M unit) : M unit := fun s =>
  let '(t, r) := m (icons s) in
  (St (gets s) (copies s) (next s) t (dcc_trace s) (trace s),
   match r with Done a => Done a | Raise e => match e with end | Crash w => Crash w end).
Definition on_get (i : nat) (d : Get.dcc_get) (m : Get.GM unit) : M (option unit) := fun s =>
  let '(g, r) := m (Get.GSt (dcc_trace s) d) in
  let made := St (<[i := Get.gobj g]> (gets s)) (copies s) (next s) (icons s) (Get.gtr g) (trace s) in
  let gone := St (base.delete i (gets s)) (copies s) (next s) (icons s) (Get.gtr g) (trace s) in
  match r with
  | Done _ => (made, Done (Some tt))
  | Raise Transfer.DCCGetError => (gone, Done None)
  | Raise Transfer.DCCListenError => (gone, Crash "uncaught")
  | Crash w => (made, Crash w)
  end.

Definition getBuddyIconPath : string := purple_user_dir +:+ "/buddy_icon/".
(** [check_write_file(path, filename)]. *)
Definition check_write_file (path filename : string) : M bool :=
  eff! there := ask opendir;
  eff! made := (if there path then ret true
                else emit (Mkdir path);; eff! ok := ask mkdir; ret (ok path));
  if negb made then ret false
  else
    let path := path +:+ "/" +:+ filename in
    eff! s := ask stat;
    match s path with
    | None => eff! w := ask writable; ret (w (g_path_get_dirname path))
    | Some is_dir => ret (negb is_dir)
    end.
(** [IM::setBuddyIcon]. *)
Definition im_setBuddyIcon (path : string) : M unit :=
  eff! alist := ask accounts;
  mapM_ (fun '(id, spec) => on_icons (@Icon.setBuddyIcon (icon_env id) spec path)) alist.
(** [IRC::createDCCGet]: the copy that was made for the callback stays when the
    constructor throws. *)
Definition createDCCGet (filename : string) (size : Z) : M unit :=
  eff! i := get next;
  put (fun s => St (gets s) (<[i := filename]> (copies s)) (S i) (icons s) (dcc_trace s) (trace s));;
  on_get i (Get.Get_ None true false (-1) false false 0 size) (Get.get_create i filename size);;
  ret tt.
(** [BuddyIcon::send], [n] being the nick itself. *)
Definition send (n : nid) (m : Msg.message W.ent) : M unit :=
  if String.eqb (Msg.cmd m) "PRIVMSG" && bool_decide (Msg.entity (Msg.receiver m) = Some (W.ENick n))
     && (0 <? Msg.countArgs m)%nat
  then
    eff! text := lift (Msg.getArg 0 m);
    eff! r := lift (Dcc.parseDCCSEND text);
    match r with
    | None => ret tt
    | Some rq =>
      let path := getBuddyIconPath in
      eff! ok := check_write_file path (Dcc.filename rq);
      if negb ok then
        eff! e := ask strerror;
        emit (Said Log.W_ERR ("Unable to write into the buddy icon directory '" +:+ path +:+ "': " +:+ e))
      else createDCCGet (path +:+ "/" +:+ Dcc.filename rq) (Dcc.size rq)
    end
  else ret tt.
(** [BuddyIcon::receivedIcon], the callback of the transfer [i]. *)
Definition receivedIcon (i : nat) : M unit :=
  eff! c := get copies;
  eff! filename := deref "use after free" (c !! i);
  im_setBuddyIcon filename;;
  emit (Said (Z.lor Log.W_SNO Log.W_INFO) "New icon set!");;
  put (fun s => St (gets s) (base.delete i (copies s)) (next s) (icons s) (dcc_trace s) (trace s)).
(** The socket of the transfer [i] is readable: the callback runs inside [dcc_read], and
    what follows it there closes the transfer only. *)
Definition ran (l : list Transfer.ev) : bool := existsb (fun e => match e with Transfer.CallbackRun => true | _ => false end) l.
Definition readable (i : nat) (r : Transfer.received) : M unit :=
  eff! gs := get gets;
  match gs !! i with
  | Some d =>
    if Get.g_watcher d then
      eff! before := get (fun s => length (dcc_trace s));
      on_get i d (Get.get_read r);;
      eff! after := get (fun s => drop before (dcc_trace s));
      when (ran after) (receivedIcon i)
    else ret tt
  | None => ret tt
  end.
End IconNick.
End IconNick.
