(* ===== verification/IconNickProps.v ===== *)
(** The nick that takes an icon: each copy of a path is freed by the callback that holds
    it, once; the file that was sent becomes the icon of every account; and the name of
    the file is not looked at. *)

From S2P Require Import Prelude Util Message Log World Dcc Effects Transfer TransferProps Accounts WrapProps IconNick.
Import Eff IconNick.
Local Open Scope eff_scope.

Module IconNickP.
(** ** A transfer *)
Section Get.
Context {tenv : Transfer.TransferEnv}.
Lemma get_create_run i filename size l d :
  exists g r, Get.get_create i filename size (Get.GSt l d) = (g, r)
    /\ ((r = Done tt /\ Get.g_callback (Get.gobj g) = true) \/ r = Raise Transfer.DCCGetError).
Proof.
  unfold Get.get_create, Get.gput, Get.gemit, Get.gask, Get.gask_error. unfold bind at 1, put at 1, bind at 1, put at 1, bind at 1, get at 1.
  cbn. destruct (Transfer.fopen_w _); cbn; [|by eexists _, _; eauto].
  destruct (Transfer.connect _); cbn; eexists _, _; (split; [reflexivity|]); auto.
Qed.
(** Reading runs the callback of a transfer that has it, and takes it away. *)
Lemma get_read_run r l d :
  exists g u, Get.get_read r (Get.GSt l d) = (g, Done tt) /\ Get.gtr g = l ++ u
    /\ (Get.g_callback (Get.gobj g) = true -> Get.g_callback d = true /\ ran u = false)
    /\ (ran u = true -> Get.g_callback d = true).
Proof.
  destruct d as [from cb fin sock w fp got total].
  unfold Get.get_read, Get.get_deinit, Get.gthis, Get.gput, Get.gemit, Get.gask, Get.gask_error, Get.gask, Get.gemit.
  unfold bind, get, put, ret, when. destruct r as [buffer| |]; cbn.
  2: { exists (Get.GSt l (Get.Get_ from cb fin sock w fp got total)), []. rewrite app_nil_r. done. }
  all: repeat first
    [ progress cbn
    | match goal with |- context [(if ?b then _ else _) _] => destruct b end
    | match goal with |- context [if ?b then _ else _] => lazymatch b with context [if _ then _ else _] => fail | _ => destruct b end end ].
  all: eexists _, _; split; [reflexivity|]; cbn; split; [rewrite <- ?app_assoc; first [reflexivity|symmetry; apply app_nil_r]|done].
Qed.
End Get.

(** ** The nick *)
Section Nick.
Context {env : IconNickEnv} {tenv : Transfer.TransferEnv}.
(** Each transfer that has its callback has the copy of its path. *)
Record inv (s : st) : Prop := {
  held : forall i d, gets s !! i = Some d -> Get.g_callback d = true -> is_Some (copies s !! i);
  below : forall i, is_Some (gets s !! i) \/ is_Some (copies s !! i) -> (i < next s)%nat }.
(** An image that GLib cannot read when there is no place for a temporary file. *)
Definition readable_icons : Prop :=
  forall id err filename, @Icon.open_tmp (icon_env id) = inr err ->
    @Icon.have_imlib (icon_env id) && @Icon.loads (icon_env id) filename = true ->
    forall t, exists len, @Icon.contents (icon_env id) t filename = inl len.
Context (Hread : readable_icons).

(** Steps that leave the transfers and the copies. *)
Definition same (s s' : st) : Prop := gets s' = gets s /\ copies s' = copies s /\ next s' = next s /\ dcc_trace s' = dcc_trace s.
Lemma same_inv s s' : inv s -> same s s' -> inv s'.
Proof. intros [H1 H2] (Hg & Hc & Hn & _). split; rewrite Hg, ?Hc, ?Hn; eauto. Qed.
Lemma said e (Q : unit -> st -> Prop) R s : (forall s', same s s' -> Q tt s') -> wp (emit e) Q R s.
Proof. intros H. by apply ewp_put, H. Qed.
Lemma got_icons id spec path s :
  wp (on_icons (@Icon.setBuddyIcon (icon_env id) spec path)) (fun _ => same s) (fun _ _ => False) s.
Proof.
  unfold wp, on_icons. destruct spec as [[[fmt|] max]|].
  - pose proof (@IconP.icon_set (icon_env id) fmt max path (icons s) (fun err => Hread id err path)) as H.
    unfold wp in H. destruct (Icon.setBuddyIcon _ _ _) as [t [a|[]|w]]; done.
  - done.
  - done.
Qed.
Lemma checked path filename s : wp (check_write_file path filename) (fun _ => same s) (fun _ _ => False) s.
Proof.
  unfold check_write_file, ask. apply ewp_bind, ewp_get, ewp_bind.
  apply (ewp_mono _ (fun _ => same s) _ (fun _ _ => False)); [| |done].
  - destruct (opendir _ _); [done|]. apply ewp_bind, said. intros s' H'. by apply ewp_bind, ewp_get, ewp_ret.
  - intros made s' H'. destruct made; cbn [negb]; [|done]. apply ewp_bind, ewp_get.
    destruct (stat _ _); [done|]. by apply ewp_bind, ewp_get, ewp_ret.
Qed.
Lemma got_get filename size s : inv s -> wp (createDCCGet filename size) (fun _ => inv) (fun _ _ => False) s.
Proof.
  intros [H1 H2]. unfold createDCCGet. apply ewp_bind, ewp_get, ewp_bind, ewp_put, ewp_bind.
  assert (Hn : gets s !! next s = None).
  { destruct (gets s !! next s) eqn:E; [|done]. specialize (H2 (next s) (or_introl (ex_intro _ _ E))). lia. }
  unfold wp at 1, on_get. cbn [dcc_trace].
  destruct (get_create_run (next s) filename size (dcc_trace s) (Get.Get_ None true false (-1) false false 0 size)) as (g & r & -> & [[-> Hg]| ->]); cbn.
  - split; cbn; intros i.
    + intros d. rewrite !lookup_insert_Some. intros [[<- _]|[Hne Hd]] Hc; [by rewrite lookup_insert_eq|].
      rewrite lookup_insert_ne by done. eauto.
    + intros Hi. destruct (decide (i = next s)) as [->|Hne]; [lia|]. rewrite !lookup_insert_ne in Hi by done. specialize (H2 i Hi). lia.
  - split; cbn; intros i.
    + intros d [Hne Hd]%lookup_delete_Some Hc. rewrite lookup_insert_ne by done. eauto.
    + intros Hi. destruct (decide (i = next s)) as [->|Hne]; [lia|].
      rewrite lookup_delete_ne, lookup_insert_ne in Hi by done. specialize (H2 i Hi). lia.
Qed.
Lemma got_icon i s : inv s -> is_Some (copies s !! i) ->
  (forall d, gets s !! i = Some d -> Get.g_callback d = false) ->
  wp (receivedIcon i) (fun _ => inv) (fun _ _ => False) s.
Proof.
  intros H [p Hp] Hd. unfold receivedIcon. apply ewp_bind, ewp_get, ewp_bind. rewrite Hp. apply ewp_ret, ewp_bind.
  apply (ewp_mono _ (fun _ => same s) _ (fun _ _ => False)); [| |done].
  - unfold im_setBuddyIcon, ask. apply ewp_bind, ewp_get, ewp_mapM_; [done|]. intros [id spec] s' _ Hs.
    eapply ewp_mono; [apply got_icons| |done]. intros [] s2 (? & ? & ? & ?). destruct Hs as (? & ? & ? & ?). unfold same. by split_and!; congruence.
  - intros [] s' Hs. apply ewp_bind, said. intros s2 Hs2. apply ewp_put.
    destruct H as [H1 H2], Hs as (Hg & Hc & Hn & _), Hs2 as (Hg2 & Hc2 & Hn2 & _). rewrite Hg2, Hg, Hc2, Hc, Hn2, Hn.
    split; cbn; intros j.
    + intros d Hj Hcb. destruct (decide (j = i)) as [->|Hne]; [by rewrite (Hd d Hj) in Hcb|]. rewrite lookup_delete_ne by done. eauto.
    + intros Hj. apply H2. destruct Hj as [?|Hj]; [by left|right]. destruct (decide (j = i)) as [->|Hne]; [by rewrite lookup_delete_eq in Hj; destruct Hj|].
      by rewrite lookup_delete_ne in Hj.
Qed.
Lemma got_bytes i r s : inv s -> wp (readable i r) (fun _ => inv) (fun _ _ => False) s.
Proof.
  intros H. unfold readable. apply ewp_bind, ewp_get. destruct (gets s !! i) as [d|] eqn:E; [|done].
  destruct (Get.g_watcher d); [|done]. apply ewp_bind, ewp_get, ewp_bind. unfold wp at 1, on_get.
  destruct (get_read_run r (dcc_trace s) d) as (g & u & -> & Ht & Hc & Hu). cbn. apply ewp_bind, ewp_get. cbn [dcc_trace].
  rewrite Ht, drop_app_length. set (s1 := St _ _ _ _ _ _).
  assert (H1 : inv s1).
  { destruct H as [H1 H2]. split; cbn; intros j.
    - intros d'. rewrite lookup_insert_Some. intros [[<- <-]|[Hne Hd]] Hcb; [by apply (H1 i d), Hc|eauto].
    - intros Hj. apply H2. destruct (decide (j = i)) as [->|Hne]; [left; by rewrite E|]. by rewrite lookup_insert_ne in Hj. }
  apply ewp_when; [|done]. intros Hr. apply got_icon; [done| |].
  - cbn. by apply (held s H i d), Hu.
  - cbn. intros d'. rewrite lookup_insert_eq. intros [= <-]. destruct (Get.g_callback (Get.gobj g)) eqn:Eg; [|done].
    destruct (Hc eq_refl) as [_ ?]. congruence.
Qed.
(** A message or bytes on the socket of a transfer; only a malformed message may throw. *)
Inductive step := Send (n : nid) (m : Msg.message W.ent) | Readable (i : nat) (r : Transfer.received).
Definition perform (x : step) : M unit := match x with Send n m => send n m | Readable i r => readable i r end.
Definition parses (x : step) : Prop :=
  match x with Send _ m => forall text w, Msg.getArg 0 m = Ret text -> Dcc.parseDCCSEND text <> Stuck w | _ => True end.
Lemma performed x s : parses x -> inv s -> wp (perform x) (fun _ => inv) (fun _ => inv) s.
Proof.
  intros Hp H. destruct x as [n m|i r]; cbn [perform]; [|by eapply ewp_mono; [apply got_bytes| |]].
  unfold send. destruct (_ && _ && _) eqn:Ec; [|done]. apply ewp_bind.
  apply andb_true_iff in Ec as [_ Hn%Nat.ltb_lt].
  destruct (Msg.getArg 0 m) as [text|e|w] eqn:Et; [|done|].
  - apply ewp_ret, ewp_bind. specialize (Hp text). destruct (Dcc.parseDCCSEND text) as [[rq|]|e|w]; [|done|done|by destruct (Hp w)].
    apply ewp_ret, ewp_bind. eapply ewp_mono; [apply checked| |done]. intros ok s1 Hs. apply (same_inv s s1 H) in Hs.
    destruct ok; cbn [negb]; [by eapply ewp_mono; [apply got_get| |]|].
    apply ewp_bind, ewp_get, said. intros s2 Hs2. by eapply same_inv.
  - unfold Msg.getArg in Et. unfold Msg.countArgs in Hn. destruct (Msg.args m); cbn in Hn, Et; [lia|done].
Qed.
(** Whatever messages the nick gets and whatever arrives on the sockets of its transfers,
    no path is used after the callback that holds it has freed it; a malformed request
    ends in an exception with nothing lost; and the transfers that still have their
    callback have its path. *)
Definition start (t : Icon.st) : st := St ∅ ∅ 0 t [] [].
Theorem icons_released (l : list step) t : Forall parses l ->
  wp (mapM_ perform l) (fun _ => inv) (fun _ => inv) (start t).
Proof.
  intros Hl. apply ewp_mapM_.
  - split; cbn; [done|]. intros i [[? ?]|[? ?]]; by rewrite ?lookup_empty in *.
  - intros x s Hx. apply performed. rewrite Forall_forall in Hl. auto.
Qed.
End Nick.

(** A user with two accounts sends a picture in two pieces: the copy of its path is freed
    and the accounts get the icon, in their order. *)
Definition demo_icons : IconNickEnv := {|
  purple_user_dir := "/users/romain"; opendir := fun _ _ => true; mkdir := fun _ _ => true;
  stat := fun _ _ => None; g_path_get_dirname := fun p => p; writable := fun _ _ => true; strerror := fun _ => "error";
  accounts := fun _ => [("jabber", Some (Icon.IconSpec (Some "gif") 0)); ("msn", Some (Icon.IconSpec None 0));
                        ("yahoo", Some (Icon.IconSpec (Some "png") 0))];
  icon_env := fun _ => IconP.env_ok |}.
Definition dcc_message (text : string) : Msg.message W.ent :=
  Msg.Message "PRIVMSG" Msg.se_empty (Msg.SE (Some (W.ENick 3%nat)) "") [text].
Definition sent (name : string) : step := Send 3 (dcc_message (Dcc.request_text "SEND" name 3232235777 5000 6)).
Definition played (l : list step) : st * out exn unit :=
  (mapM_ (@perform demo_icons demo_transfer) l) (start (Icon.St Icon.Null [])).
Definition icon_files (s : st) : list string :=
  omap (fun e => match e with Icon.IconSet f _ => Some f | _ => None end) (Icon.trace (icons s)).
Definition opened (s : st) : list string :=
  omap (fun e => match e with Transfer.FOpen f => Some f | _ => None end) (dcc_trace s).
Lemma icons_released_witness : wp (mapM_ (@perform demo_icons demo_transfer)
  [sent "me.png"; Readable 0 (Transfer.Bytes "abc"); Readable 0 (Transfer.Bytes "def")])
  (fun _ => inv) (fun _ => inv) (start (Icon.St Icon.Null [])).
Proof.
  apply (@icons_released demo_icons demo_transfer); [by intros id err f|].
  repeat constructor. cbn. intros text w [= <-]. vm_compute. discriminate.
Defined.
Example icon_of_all :
  let r := played [sent "me.png"; Readable 0 (Transfer.Bytes "abc"); Readable 0 (Transfer.Bytes "def")] in
  r.2 = Done tt /\ icon_files r.1 = ["/tmp/x"; "/users/romain/buddy_icon//me.png"]
  /\ opened r.1 = ["/users/romain/buddy_icon//me.png"] /\ map_to_list (copies r.1) = [].
Proof. vm_compute. done. Qed.
(** The name of the file is not looked at: it may lead to the file of another user, which
    is opened, and emptied, before anything arrives. *)
Example name_escapes :
  opened (played [sent "../../bob/accounts.xml"]).1 = ["/users/romain/buddy_icon//../../bob/accounts.xml"].
Proof. vm_compute. done. Qed.
End IconNickP.
