(* ===== verification/Ipc.v ===== *)
(** server_poll/daemon_fork.{h,cpp}: the master process, which accepts the clients
    and forks, and the socket between it and each of its children. *)

From S2P Require Import Prelude Util Message Log World Effects.

Module Ipc.
Import Eff.
#[local] Open Scope eff_scope.

(** The messages of the sockets: it is forbidden to set a sender or a receiver. *)
Definition message : Type := Msg.message Empty_set.
Definition no_entity (e : Empty_set) : string := match e with end.
Definition format (m : message) : string := Msg.format no_entity no_entity m.
Definition ipc (c : string) (l : list string) : message := Msg.Message c Msg.se_empty Msg.se_empty l.

(** [child_t].  A child is named by its descriptor, as [ipc_read] finds it in
    [childs]; [wf] says that two of them have not the same. *)
Record child := Child { c_fd : Z; c_username : string }.
Inductive cb := NewClient | IpcRead.
(** The kernel's side of a socket: what is there to read, whether the peer closed. *)
Record queue := Queue { q_in : string; q_eof : bool }.

Inductive ev :=
| Logged (flags : Z) (text : string)
| WriteFd (fd : Z) (s : string)          (* the bytes that went *)
| CloseFd (fd : Z)
| Forked (pid : Z)
| Listening (fd : Z)
| NewIRC (fd : Z)                        (* new irc::IRC(this, ...) *)
| UserSend (m : message)                 (* irc->getUser()->send *)
| IrcQuit (reason : string)              (* irc->quit *)
| IrcRehash
| StopTimer                              (* g_timeout_add(0, stopServer_cb) *)
| AppQuit | Exit | Cout (text : string).

Inductive exn := MalformedMessage | SockError (reason : string) | ServerPollError
| Exited.                                  (* exit(), not an exception *)

(** What the system calls answer, after the past events. *)
Class IpcEnv := {
  accept : list ev -> Z;
  socketpair : list ev -> option (Z * Z);
  fork : list ev -> Z;
  write_result : list ev -> string -> Z;
  sock_error : list ev -> option string;      (* a write to the client throws *)
  irc_error : list ev -> option string;       (* SockWrapper::Builder or IRC::IRC throws *)
  conf_found : bool; conf_maxcon : Z; conf_background : bool; chdir_ok : bool;
  addrinfo : option nat;                      (* getaddrinfo: how many addresses *)
  socket : list ev -> Z;
  bind_listen : list ev -> bool }.

(** The process: [irc != NULL], and its callbacks. *)
Record proc := Proc {
  irc : bool; maxcon : Z; sock : Z; read_cb : option cb; childs : list child;
  inq : gmap Z queue; tr : list ev }.

Definition M (A : Type) : Type := Eff.M proc exn A.
Definition up_irc b p := Proc b (maxcon p) (sock p) (read_cb p) (childs p) (inq p) (tr p).
Definition up_sock z p := Proc (irc p) (maxcon p) z (read_cb p) (childs p) (inq p) (tr p).
Definition up_read_cb c p := Proc (irc p) (maxcon p) (sock p) c (childs p) (inq p) (tr p).
Definition up_childs f p := Proc (irc p) (maxcon p) (sock p) (read_cb p) (f (childs p)) (inq p) (tr p).
Definition up_inq f p := Proc (irc p) (maxcon p) (sock p) (read_cb p) (childs p) (f (inq p)) (tr p).
Definition up_tr f p := Proc (irc p) (maxcon p) (sock p) (read_cb p) (childs p) (inq p) (f (tr p)).
Definition emit (e : ev) : M unit := put (up_tr (fun t => t ++ [e])).
Definition lift {A} (o : outcome A) : M A :=
  match o with
  | Ret a => ret a
  | Throw Prelude.MalformedMessage => throw MalformedMessage
  | Throw (Prelude.SockError r) => throw (SockError r)
  | Stuck w => crash w
  end.

Section Ipc.
Context {ienv : IpcEnv}.
Definition ask {A} (f : list ev -> A) : M A := get (fun p => f (tr p)).

(** ** System calls *)

Definition close (fd : Z) : M unit := put (up_inq (delete fd));; emit (CloseFd fd).
(** The result of write: nothing goes to a descriptor that is not a socket, or
    whose peer closed. *)
Definition write (fd : Z) (s : string) : M Z :=
  eff! q := get (fun p => inq p !! fd);
  match q with
  | Some (Queue _ false) =>
    eff! r := ask write_result;
    let n := r s in
    (if 0 <? n then emit (WriteFd fd (stake (Z.to_nat n) s)) else ret tt);; ret n
  | _ => ret (-1)
  end.
(** recv: the bytes, nothing for now, or the end (0, or another error). *)
Inductive received := Bytes (s : string) | Again | End_.
Definition recv (fd : Z) (n : nat) (peek : bool) : M received :=
  eff! q := get (fun p => inq p !! fd);
  match q with
  | None => ret End_
  | Some (Queue s eof) =>
    if sempty s then ret (if eof then End_ else Again)
    else
      (if peek then ret tt else put (up_inq (insert fd (Queue (sdrop n s) eof))));;
      ret (Bytes (stake n s))
  end.

(** ** The session of the process *)

(** What writes to the client: it may throw. *)
Definition to_client (e : ev) : M unit :=
  emit e;;
  eff! r := ask sock_error;
  match r with Some reason => throw (SockError reason) | None => ret tt end.
(** [b_log[flags] << text], which also writes to the client in a child. *)
Definition b_log (flags : Z) (text : string) : M unit :=
  eff! i := get irc;
  if (i : bool) then to_client (Logged flags text) else emit (Logged flags text).
Definition kill : M unit := emit StopTimer.
Definition irc_quit (reason : string) : M unit := to_client (IrcQuit reason);; kill.
Definition irc_rehash : M unit :=
  emit IrcRehash;; b_log (Z.lor Log.W_INFO Log.W_SNO) "Server configuration rehashed.".
Definition stopServer_cb : M bool := put (up_irc false);; emit AppQuit;; ret false.

(** [ServerPoll::log]. *)
Definition log (level : Z) (msg : string) : M unit :=
  let cmd := if Log.hasb level Log.W_DEBUG then "PRIVMSG" else "NOTICE" in
  eff! i := get irc;
  if (i : bool) then
    mapM_ (fun line => eff! m := lift (Msg.addArg line (Msg.mk cmd)); to_client (UserSend m))
          (Tok.tokens (String "010" (String "013" "")) msg)
  else when (negb (Log.hasb level Log.W_SNO)) (emit (Cout msg)).

(** ** Sending *)

Definition ipc_write (fd : Z) (m : message) : M bool :=
  let msg := format m in
  eff! n := write fd msg;
  if n <=? 0 then b_log Log.W_ERR "Error while sending: ";; ret false else ret true.
Definition ipc_master_send (c : child) (m : message) : M bool := ipc_write (c_fd c) m.
Fixpoint broadcast_loop (l : list child) (m : message) (butone : option Z) (r : bool) : M bool :=
  match l with
  | [] => ret r
  | c :: l =>
    if bool_decide (butone = Some (c_fd c)) then broadcast_loop l m butone r
    else
      eff! sent := ipc_master_send c m;
      broadcast_loop l m butone (if (sent : bool) then true else r)
  end.
Definition ipc_master_broadcast (m : message) (butone : option Z) : M bool :=
  eff! l := get childs; broadcast_loop l m butone false.
Definition ipc_child_send (m : message) : M bool :=
  eff! s := get sock; if s <? 0 then ret false else ipc_write s m.
Definition ipc_send (m : message) : M bool :=
  eff! i := get irc; if (i : bool) then ipc_child_send m else ipc_master_broadcast m None.
Definition rehash : M unit :=
  eff! i := get irc;
  if (i : bool) then irc_rehash
  else eff! _r := ipc_master_broadcast (ipc "REHASH" []) None; ret tt.

(** ** The commands of the sockets; [c] is the child, None for the master *)

Definition getArg (n : nat) (m : message) : M string := lift (Msg.getArg n m).
Definition m_oper (c : option Z) (m : message) : M unit :=
  (match c with Some fd => eff! _r := ipc_master_broadcast m (Some fd); ret tt | None => ret tt end);;
  eff! nick := getArg 0 m;
  b_log (Z.lor Log.W_SNO Log.W_INFO) (nick +:+ " is now an IRC Operator!").
Definition m_wallops (c : option Z) (m : message) : M unit :=
  match c with
  | Some _ => eff! _r := ipc_master_broadcast m None; ret tt
  | None =>
    eff! i := get irc;
    if (i : bool) then
      eff! nick := getArg 0 m;
      eff! text := getArg 1 m;
      eff! w := lift (Msg.addArg text (Msg.setSenderName nick (Msg.mk "WALLOPS")));
      to_client (UserSend w)
    else ret tt
  end.
Definition m_rehash (c : option Z) (m : message) : M unit := rehash.
Definition m_die (c : option Z) (m : message) : M unit :=
  (match c with Some _ => eff! _r := ipc_master_broadcast m None; ret tt | None => ret tt end);;
  eff! nick := getArg 0 m;
  eff! reason := getArg 1 m;
  b_log (Z.lor Log.W_SNO Log.W_INFO) ("Shutdown requested by " +:+ nick +:+ ": " +:+ reason);;
  eff! i := get irc;
  if (i : bool) then irc_quit ("Shutdown requested by " +:+ nick) else emit AppQuit.
Definition another_location : string := "You are logged from another location.".
(** [!strcasecmp(a, b)]. *)
Definition same_name (a b : string) : bool := String.eqb (Case.strlower a) (Case.strlower b).
Fixpoint user_loop (fd : Z) (username : string) (l : list child) : M unit :=
  match l with
  | [] => ret tt
  | c :: l =>
    (if negb (c_fd c =? fd) && same_name (c_username c) username then
       eff! m := lift (Msg.addArg username (Msg.mk "DIE"));
       eff! m := lift (Msg.addArg another_location m);
       eff! _r := ipc_master_send c m; ret tt
     else ret tt);;
    user_loop fd username l
  end.
Definition set_username (fd : Z) (u : string) (l : list child) : list child :=
  map (fun c => if c_fd c =? fd then Child fd u else c) l.
Definition m_user (c : option Z) (m : message) : M unit :=
  match c with
  | None => ret tt
  | Some fd =>
    eff! u := getArg 0 m;
    put (up_childs (set_username fd u));;
    eff! l := get childs;
    user_loop fd u l
  end.

Definition ipc_cmds : list (string * nat) :=
  [("WALLOPS", 2); ("REHASH", 0); ("DIE", 2); ("OPER", 1); ("USER", 1)]%nat.
Definition handler (cmd : string) : option Z -> message -> M unit :=
  if String.eqb cmd "WALLOPS" then m_wallops
  else if String.eqb cmd "REHASH" then m_rehash
  else if String.eqb cmd "DIE" then m_die
  else if String.eqb cmd "OPER" then m_oper
  else m_user.

(** ** Reading *)

(** The other side left. *)
Definition left_ (c : option Z) : M unit :=
  match c with
  | Some fd =>
    b_log Log.W_INFO "IPC: a child left: ";;
    put (up_childs (List.filter (fun x => negb (c_fd x =? fd))));;
    close fd
  | None =>
    b_log (Z.lor Log.W_INFO Log.W_SNO) "IPC: master left: ";;
    put (up_read_cb None);;
    eff! s := get sock;
    close s;;
    put (up_sock (-1))
  end.
(** [strstr(buf, eol)], up to the first NUL. *)
Fixpoint find_eol (s : string) : option nat :=
  match s with
  | EmptyString => None
  | String c s' =>
    if Ascii.eqb c "000" then None
    else if String.prefix Msg.crlf s then Some 0%nat
    else S <$> find_eol s'
  end.
Definition BUF : nat := 512.
Definition ipc_handle (c : option Z) (buf : string) : M bool :=
  eff! m := lift (Msg.parse buf);
  match List.find (fun row => String.eqb (Msg.cmd m) row.1) ipc_cmds with
  | None => b_log Log.W_WARNING ("Received unknown command from IPC: " +:+ buf);; ret true
  | Some (cmd, min_args) =>
    if (Msg.countArgs m <? min_args)%nat
    then b_log Log.W_WARNING ("Received malformated command from IPC: " +:+ buf);; ret true
    else handler cmd c m;; ret true
  end.
(** [ipc_read(data)]: [data] is a child of the process, or NULL for the master;
    the answer is whether the descriptor is still watched. *)
Definition ipc_read (data : option Z) : M bool :=
  eff! s := get sock;
  eff! l := get childs;
  (match data with
   | Some c => when (negb (bool_decide (c ∈ map c_fd l))) (crash "dangling child_t")
   | None => ret tt
   end);;
  let fd := default s data in
  eff! r := recv fd (BUF - 1) true;
  match r with
  | Again => ret true
  | End_ => left_ data;; ret false
  | Bytes buf =>
    match find_eol buf with
    | None => ret true
    | Some eol =>
      eff! r := recv fd (eol + 2) false;
      match r with
      | Bytes line => if (slen line =? eol + 2)%nat then ipc_handle data (stake eol line) else ret false
      | _ => ret false
      end
    end
  end.

(** ** New clients *)

(** The text is sent with its final NUL. *)
Definition too_much : string :=
  "ERROR :Closing Link: Too much connections on server" +:+ Msg.crlf +:+ String "000" "".
Definition close_childs : M unit :=
  eff! l := get childs;
  mapM_ (fun c => close (c_fd c)) l;;
  put (up_childs (fun _ => [])).
(** The process created by fork. *)
Definition new_child (new_socket : Z) (fds : Z * Z) : M unit :=
  eff! s := get sock;
  close s;;
  put (up_sock (-1));;
  put (up_read_cb None);;
  (if 0 <=? fds.2 then
     put (up_sock fds.2);;
     put (up_read_cb (Some IpcRead));;
     close fds.1;;
     close_childs
   else ret tt);;
  eff! e := ask irc_error;
  match e with
  | Some reason => b_log Log.W_ERR ("Unable to start the IRC daemon: " +:+ reason);; emit AppQuit
  | None => emit (NewIRC new_socket);; put (up_irc true)
  end.
Definition new_client_cb : M bool :=
  eff! new_socket := ask accept;
  if new_socket <? 0
  then b_log Log.W_WARNING "Could not accept new connection: ";; ret true
  else
    eff! max := get maxcon;
    eff! l := get childs;
    if (0 <? max) && (max <=? Z.of_nat (length l))
    then emit (WriteFd new_socket too_much);; close new_socket;; ret true
    else
      eff! sp := ask socketpair;
      eff! fds :=
        (match sp with
         | None => b_log Log.W_WARNING "Unable to create IPC socket for client: ";; ret (-1, -1)
         | Some (a, b) =>
           put (up_inq (fun q => insert a (Queue "" false) (insert b (Queue "" false) q)));;
           ret (a, b)
         end);
      eff! pid := ask fork;
      emit (Forked pid);;
      if pid <? 0 then
        b_log Log.W_ERR "Unable to fork while receiving a new connection: ";;
        close new_socket;; ret true
      else if 0 <? pid then
        b_log Log.W_INFO ("Creating new process with pid " +:+ t2s pid);;
        close new_socket;;
        (if 0 <=? fds.1 then
           put (up_childs (fun l => l ++ [Child fds.1 ""]));;
           close fds.2
         else ret tt);;
        ret true
      else new_child new_socket fds;; ret true.

(** ** Construction and destruction *)

Fixpoint bind_loop (n : nat) : M unit :=
  match n with
  | O => ret tt
  | S n =>
    eff! s := get sock;
    if negb (s <? 0) then ret tt
    else
      eff! s := ask socket;
      put (up_sock s);;
      (if s <? 0 then ret tt
       else eff! ok := ask bind_listen;
            if (ok : bool) then ret tt else close s;; put (up_sock (-1)));;
      bind_loop n
  end.
Definition daemonize : M unit :=
  eff! r := ask fork;
  emit (Forked r);;
  if r <? 0 then b_log Log.W_ERR "Unable to start in background: ";; throw ServerPollError
  else
    (if 0 <? r then emit Exit;; throw Exited else ret tt);;
    put (up_inq (fun _ => ∅));;
    if chdir_ok then ret tt
    else b_log Log.W_ERR "Unable to change directory: ";; throw ServerPollError.
Definition create_body : M unit :=
  if negb conf_found
  then b_log Log.W_ERR "Missing section irc/daemon";; throw ServerPollError
  else
    put (fun p => Proc (irc p) conf_maxcon (sock p) (read_cb p) (childs p) (inq p) (tr p));;
    when conf_background daemonize;;
    match addrinfo with
    | None => b_log Log.W_ERR "Could not parse address ";; throw ServerPollError
    | Some n =>
      bind_loop n;;
      eff! s := get sock;
      if s <? 0 then b_log Log.W_ERR "Unable to listen on ";; throw ServerPollError
      else put (up_read_cb (Some NewClient));; emit (Listening s)
    end.
Definition create : M unit :=
  put (fun p => Proc false (maxcon p) (-1) None [] (inq p) (tr p));; create_body.
Definition destroy : M unit :=
  put (up_read_cb None);;
  eff! s := get sock;
  (if 0 <=? s then close s else ret tt);;
  put (up_irc false);;
  close_childs.

(** ** What the process keeps *)

(** The descriptors of the children differ, are open and are not the socket of the
    process; there are no more children than the configuration says. *)
Definition wf (p : proc) : Prop :=
  NoDup (map c_fd (childs p))
  /\ (forall fd, fd ∈ map c_fd (childs p) -> 0 <= fd /\ fd <> sock p /\ is_Some (inq p !! fd))
  /\ (0 < maxcon p -> Z.of_nat (length (childs p)) <= maxcon p).

(** [p] has the children, the limit and the descriptors of [p0]. *)
Definition kin (p0 p : proc) : Prop :=
  map c_fd (childs p) = map c_fd (childs p0) /\ maxcon p = maxcon p0 /\ sock p = sock p0
  /\ (forall fd, is_Some (inq p0 !! fd) -> is_Some (inq p !! fd)).
Definition stays (p0 : proc) {A} (m : M A) : Prop :=
  forall p, kin p0 p -> wp m (fun _ => kin p0) (fun _ => kin p0) p.

Lemma kin_refl p : kin p p.
Proof. done. Qed.
Lemma kin_wf p0 p : wf p0 -> kin p0 p -> wf p.
Proof.
  intros (H1 & H2 & H3) (K1 & K2 & K4 & K3). unfold wf. rewrite K1, K2, K4. split_and!; [done| |].
  { intros fd Hfd. destruct (H2 fd Hfd) as (? & ? & ?). auto. }
  apply (f_equal length) in K1. rewrite !length_map in K1. by rewrite K1.
Qed.

Lemma stays_ret p0 {A} (a : A) : stays p0 (ret a).
Proof. by intros p H. Qed.
Lemma stays_throw p0 {A} e : stays p0 (throw e : M A).
Proof. by intros p H. Qed.
Lemma stays_get p0 {A} (f : proc -> A) : stays p0 (get f).
Proof. by intros p H. Qed.
Lemma stays_bind p0 {A B} (m : M A) (k : A -> M B) :
  stays p0 m -> (forall a, stays p0 (k a)) -> stays p0 (bind m k).
Proof.
  intros Hm Hk p Hp. apply ewp_bind. eapply ewp_mono; [by apply Hm| |done]. intros a p' Hp'. by apply Hk.
Qed.
Lemma stays_emit p0 e : stays p0 (emit e).
Proof. intros p H. by apply ewp_put. Qed.
Lemma stays_if p0 {A} (b : bool) (m1 m2 : M A) : stays p0 m1 -> stays p0 m2 -> stays p0 (if b then m1 else m2).
Proof. by destruct b. Qed.
Lemma stays_when p0 b m : stays p0 m -> stays p0 (when b m).
Proof. destruct b; [done|]. intros _. apply stays_ret. Qed.
Lemma stays_insert p0 fd q : stays p0 (put (up_inq (insert fd q))).
Proof.
  intros p (H1 & H2 & H4 & H3). apply ewp_put. split_and!; [done..|]. intros x Hx. cbn.
  destruct (decide (x = fd)) as [->|]; [rewrite lookup_insert_eq; eauto|rewrite lookup_insert_ne; eauto].
Qed.
Lemma stays_mapM_ p0 {A} (f : A -> M unit) l : (forall a, stays p0 (f a)) -> stays p0 (mapM_ f l).
Proof. intros H. induction l; [apply stays_ret|]. cbn. by apply stays_bind. Qed.
End Ipc.
Create HintDb stays discriminated.
#[export] Hint Resolve stays_ret stays_throw stays_get stays_emit stays_when stays_insert : stays.
#[export] Hint Extern 5 (stays _ (if _ then _ else _)) => apply stays_if : stays.
#[export] Hint Extern 4 (stays _ (bind _ _)) => apply stays_bind; [|intros ?] : stays.

Section Stays.
Context {ienv : IpcEnv} (p0 : proc).
#[local] Abbreviation stays := (stays p0).

Lemma stays_ask {A} (f : list ev -> A) : stays (ask f).
Proof. apply stays_get. Qed.
#[local] Hint Resolve stays_ask : stays.
Lemma stays_to_client e : stays (to_client e).
Proof. unfold to_client. eauto with stays. do 2 (apply stays_bind; [eauto with stays|intros ?]). destruct a0; eauto with stays. Qed.
#[local] Hint Resolve stays_to_client : stays.
Lemma stays_b_log f t : stays (b_log f t).
Proof. unfold b_log. eauto 6 with stays. Qed.
#[local] Hint Resolve stays_b_log : stays.
Lemma stays_write fd s : stays (write fd s).
Proof.
  unfold write. apply stays_bind; [apply stays_get|]. intros [[q []]|]; eauto 8 with stays.
Qed.
#[local] Hint Resolve stays_write : stays.
Lemma stays_recv fd n b : stays (recv fd n b).
Proof.
  unfold recv. apply stays_bind; [apply stays_get|]. intros [[q e]|]; eauto 8 with stays.
Qed.
Lemma stays_ipc_write fd m : stays (ipc_write fd m).
Proof. unfold ipc_write. eauto 8 with stays. Qed.
#[local] Hint Resolve stays_ipc_write stays_recv : stays.
Lemma stays_broadcast m b : stays (ipc_master_broadcast m b).
Proof.
  unfold ipc_master_broadcast. apply stays_bind; [apply stays_get|]. intros l. generalize false.
  induction l as [|c l IH]; intros r; cbn [broadcast_loop]; [apply stays_ret|].
  unfold ipc_master_send. destruct (bool_decide _); [done|]. apply stays_bind; eauto with stays.
Qed.
#[local] Hint Resolve stays_broadcast : stays.
Lemma stays_getArg n m : (n < Msg.countArgs m)%nat -> stays (getArg n m).
Proof.
  intros H. unfold getArg, Msg.getArg. destruct (Msg.args m !! n) eqn:E; [apply stays_ret|].
  apply lookup_ge_None_1 in E. unfold Msg.countArgs in H. lia.
Qed.
Lemma stays_lift_ret {A} (o : outcome A) a : o = Ret a -> stays (lift o).
Proof. intros ->. apply stays_ret. Qed.
Lemma stays_addArg s m : stays (lift (Msg.addArg s m) : M message).
Proof. unfold Msg.addArg. destruct (Msg.back_has_space _); [apply stays_throw|apply stays_ret]. Qed.
#[local] Hint Resolve stays_addArg : stays.
Lemma stays_user_loop fd u l : stays (user_loop fd u l).
Proof.
  induction l as [|c l IH]; cbn [user_loop]; [apply stays_ret|]. unfold ipc_master_send.
  apply stays_bind; [|done]. eauto 10 with stays.
Qed.
Lemma stays_set_username fd u : stays (put (up_childs (set_username fd u))).
Proof.
  intros p (H1 & H2 & H4 & H3). apply ewp_put. split_and!; [|done..]. cbn. rewrite <- H1.
  unfold set_username. rewrite map_map. apply map_ext. intros c. by destruct (Z.eqb_spec (c_fd c) fd).
Qed.
#[local] Hint Resolve stays_user_loop stays_set_username : stays.

Lemma stays_handler cmd min_args c m :
  In (cmd, min_args) ipc_cmds -> (min_args <= Msg.countArgs m)%nat -> stays (handler cmd c m).
Proof.
  intros Hin Hn. unfold ipc_cmds in Hin. cbn in Hin.
  repeat (destruct Hin as [[= <- <-]|Hin]); try done; cbv [handler String.eqb Ascii.eqb Bool.eqb];
    pose proof (stays_getArg 0 m) as G0; pose proof (stays_getArg 1 m) as G1.
  - unfold m_wallops. destruct c; [eauto with stays|]. apply stays_bind; [apply stays_get|].
    intros []; [|apply stays_ret]. apply stays_bind; [apply G0; lia|]. intros nick.
    apply stays_bind; [apply G1; lia|]. intros text. eauto with stays.
  - unfold m_rehash, rehash, irc_rehash. eauto 8 with stays.
  - unfold m_die, irc_quit, kill. apply stays_bind; [destruct c; eauto with stays|]. intros _.
    apply stays_bind; [apply G0; lia|]. intros nick.
    apply stays_bind; [apply G1; lia|]. eauto 8 with stays.
  - unfold m_oper. apply stays_bind; [destruct c; eauto with stays|]. intros _.
    apply stays_bind; [apply G0; lia|]. eauto with stays.
  - unfold m_user. destruct c; [|apply stays_ret]. apply stays_bind; [apply G0; lia|].
    eauto 8 with stays.
Qed.
Lemma stays_ipc_handle c buf : stays (ipc_handle c buf).
Proof.
  unfold ipc_handle. apply stays_bind.
  { destruct (Message.parse_ret (E := Empty_set) buf) as [m Hm]. by eapply stays_lift_ret. }
  intros m. destruct (List.find _ _) as [[cmd n]|] eqn:E; [|eauto with stays].
  apply List.find_some in E as [E _]. destruct (Nat.ltb_spec (Msg.countArgs m) n); [eauto with stays|].
  apply stays_bind; [by eapply stays_handler|]. intros _. apply stays_ret.
Qed.

(** ** The invariant of the process *)

(** [m] keeps [wf], however it ends, and it ends. *)
Definition safe {A} (m : M A) (p : proc) : Prop := wp m (fun _ => wf) (fun _ => wf) p.
End Stays.

(** A computation in front keeps the process as it is. *)
Lemma safe_bind {A B} (m : M A) (k : A -> M B) p :
  wf p -> stays p m -> (forall a p', wf p' -> kin p p' -> safe (k a) p') -> safe (bind m k) p.
Proof.
  intros W H Hk. apply ewp_bind. eapply ewp_mono; [apply H, kin_refl| |].
  - intros a p' K. apply Hk; [by eapply kin_wf|done].
  - intros e p' K. by eapply kin_wf.
Qed.
Lemma wf_close fd p :
  wf p -> fd ∉ map c_fd (childs p) -> wf (up_inq (delete fd) p).
Proof.
  intros (H1 & H2 & H3) Hfd. split_and!; [done| |done]. intros x Hx. cbn.
  rewrite lookup_delete_ne by (by intros ->). by apply H2.
Qed.
Lemma wf_emit e p : wf p -> wf (up_tr (fun t => t ++ [e]) p).
Proof. done. Qed.
Lemma safe_close fd p : wf p -> fd ∉ map c_fd (childs p) -> safe (close fd) p.
Proof. intros. apply ewp_bind, ewp_put, ewp_put, wf_emit. by apply wf_close. Qed.
Lemma map_filter_fd fd l :
  map c_fd (List.filter (fun x => negb (c_fd x =? fd)) l)
  = List.filter (fun z => negb (z =? fd)) (map c_fd l).
Proof. induction l as [|c l IH]; [done|]. cbn. destruct (_ =? _); cbn; by rewrite ?IH. Qed.
Lemma length_filter_le {A} (f : A -> bool) l : (length (List.filter f l) <= length l)%nat.
Proof. induction l as [|a l IH]; cbn; [done|]. destruct (f a); cbn; lia. Qed.
Lemma wf_without fd p :
  wf p -> wf (up_childs (List.filter (fun x => negb (c_fd x =? fd))) p).
Proof.
  intros (H1 & H2 & H3). unfold wf. cbn. rewrite map_filter_fd. split_and!.
  - apply NoDup_ListNoDup, List.NoDup_filter. by apply NoDup_ListNoDup.
  - intros x [Hx _]%list_elem_of_In%filter_In. by apply H2, list_elem_of_In.
  - intros Hm. pose proof (length_filter_le (fun x => negb (c_fd x =? fd)) (childs p)).
    specialize (H3 Hm). lia.
Qed.

Section Invariant.
Context {ienv : IpcEnv}.
#[local] Hint Resolve stays_b_log stays_ask : stays.

Lemma safe_left c p : wf p -> safe (left_ c) p.
Proof.
  intros W. unfold left_. destruct c as [fd|].
  - apply safe_bind; [done|eauto with stays|]. intros _ p1 W1 _. apply ewp_bind, ewp_put.
    apply safe_close; [by apply wf_without|]. cbn. rewrite map_filter_fd.
    intros [_ H]%list_elem_of_In%filter_In. by rewrite Z.eqb_refl in H.
  - apply safe_bind; [done|eauto with stays|]. intros _ p1 W1 _. apply ewp_bind, ewp_put, ewp_bind, ewp_get.
    assert (Hs : sock p1 ∉ map c_fd (childs p1)) by (intros H; by apply W1 in H as (_ & ? & _)).
    cbn [sock up_read_cb]. apply ewp_bind. eapply ewp_mono; [by apply (safe_close (sock p1) (up_read_cb None p1))| |done].
    intros [] p2 W2. apply ewp_put. destruct W2 as (H1 & H2 & H3). split_and!; [done| |done].
    intros x Hx. destruct (H2 x Hx) as (? & _ & ?). cbn. split_and!; [done|lia|done].
Qed.
(** The descriptors the program watches. *)
Definition watched (data : option Z) (p : proc) : Prop :=
  match data with Some fd => fd ∈ map c_fd (childs p) | None => True end.
Lemma safe_ipc_read data p : wf p -> watched data p -> safe (ipc_read data) p.
Proof.
  intros W Hd. unfold ipc_read. apply ewp_bind, ewp_get, ewp_bind, ewp_get, ewp_bind.
  assert (Hc : wp (match data with
     | Some c => when (negb (bool_decide (c ∈ map c_fd (childs p)))) (crash "dangling child_t")
     | None => (ret tt : M unit) end) (fun _ p' => p' = p) (fun _ => wf) p).
  { destruct data as [c|]; [|done]. cbn in Hd. by rewrite bool_decide_true. }
  eapply ewp_mono; [exact Hc| |done]. intros [] ? ->.
  apply safe_bind; [done|apply stays_recv|]. intros r p1 W1 _. destruct r as [buf| |].
  - destruct (find_eol buf) as [eol|]; [|done].
    apply safe_bind; [done|apply stays_recv|]. intros r p2 W2 _. destruct r as [line| |]; try done.
    destruct (_ =? _)%nat; [|done].
    eapply ewp_mono; [apply (stays_ipc_handle p2), kin_refl| |]; intros; by eapply kin_wf.
  - done.
  - apply ewp_bind. eapply ewp_mono; [by apply safe_left|done|done].
Qed.

(** What the kernel gives is new. *)
Definition fresh_fds (p : proc) : Prop :=
  inq p !! accept (tr p) = None
  /\ forall a b, socketpair (tr p) = Some (a, b) ->
       0 <= a /\ 0 <= b /\ a <> b /\ a <> sock p /\ accept (tr p) <> a
       /\ inq p !! a = None /\ inq p !! b = None.

Lemma wf_childless p : childs p = [] -> wf p.
Proof. intros H. unfold wf. rewrite H. split_and!; [constructor|by intros ? ?%not_elem_of_nil|cbn; lia]. Qed.
Lemma wp_close_childs p : wp close_childs (fun _ p' => childs p' = []) (fun _ => wf) p.
Proof.
  apply ewp_bind, ewp_get, ewp_bind. eapply ewp_mono; [apply (ewp_mapM_ _ _ (fun _ => True) (fun _ => wf)); [done|]| |].
  - intros c p1 _ _. by apply ewp_bind, ewp_put, ewp_put.
  - intros [] p1 _. by apply ewp_put.
  - done.
Qed.
Lemma sock_not_child p : wf p -> sock p ∉ map c_fd (childs p).
Proof. intros (_ & H & _) Hs. by apply H in Hs as (_ & ? & _). Qed.
Lemma wf_no_sock p : wf p -> wf (up_sock (-1) p).
Proof.
  intros (H1 & H2 & H3). split_and!; [done| |done]. intros x Hx. cbn.
  destruct (H2 x Hx) as (? & _ & ?). split_and!; [done|lia|done].
Qed.

Lemma safe_new_child s fds p : wf p -> safe (new_child s fds) p.
Proof.
  intros W. unfold new_child. apply ewp_bind, ewp_get, ewp_bind.
  eapply ewp_mono; [by apply safe_close, sock_not_child| |done]. intros [] p1 W1.
  apply ewp_bind, ewp_put, ewp_bind, ewp_put. apply wf_no_sock in W1.
  set (p2 := up_read_cb None _). assert (W2 : wf p2) by done. clearbody p2. apply ewp_bind.
  eapply (ewp_mono _ (fun _ => wf) _ (fun _ => wf)); [| |done].
  - destruct (0 <=? fds.2); [|done]. apply ewp_bind, ewp_put, ewp_bind, ewp_put, ewp_bind, ewp_bind, ewp_put, ewp_put.
    eapply ewp_mono; [apply wp_close_childs| |done]. intros [] p3. apply wf_childless.
  - intros [] p3 W3. apply ewp_bind, ewp_get. destruct (irc_error _).
    + apply safe_bind; [done|apply stays_b_log|]. intros _ p4 W4 _. by apply ewp_put, wf_emit.
    + by apply ewp_bind, ewp_put, ewp_put.
Qed.

(** After socketpair: the two ends are open, if there are two. *)
Definition paired (fds : Z * Z) (p0 p : proc) : Prop :=
  kin p0 p /\ (0 <= fds.1 -> (fds.1 ∉ map c_fd (childs p0)) /\ fds.1 <> sock p0
    /\ fds.1 <> accept (tr p0) /\ fds.2 <> fds.1 /\ (fds.2 ∉ map c_fd (childs p0)) /\ is_Some (inq p !! fds.1)).
Lemma paired_stays fds p0 p {A} (m : M A) :
  paired fds p0 p -> stays p m -> wf p0 -> wp m (fun _ => paired fds p0) (fun _ => wf) p.
Proof.
  intros [K F] H W. eapply ewp_mono; [apply H, kin_refl| |].
  - intros a p' (K1 & K2 & K3 & K4). destruct K as (L1 & L2 & L3 & L4). split.
    + split_and!; [congruence..|auto].
    + intros Hf. destruct (F Hf) as (? & ? & ? & ? & ? & ?). split_and!; auto.
  - intros e p' K'. eapply kin_wf; [|exact K']. by eapply kin_wf.
Qed.
Lemma wf_add fds p0 p :
  wf p0 -> paired fds p0 p -> 0 <= fds.1 ->
  (0 < maxcon p0 -> Z.of_nat (length (childs p0)) < maxcon p0) ->
  wf (up_childs (fun l => l ++ [Child fds.1 ""]) p).
Proof.
  intros W [K F] Hf Hroom. destruct (F Hf) as (F1 & F2 & F3 & F4 & F5 & F6).
  destruct (kin_wf _ _ W K) as (H1 & H2 & H3). destruct K as (K1 & K2 & K3 & K4).
  unfold wf. cbn. rewrite map_app, length_app. cbn. split_and!.
  - apply NoDup_app. split_and!; [done| |apply NoDup_singleton].
    intros x Hx ->%list_elem_of_singleton. by rewrite K1 in Hx.
  - intros x [Hx| ->%list_elem_of_singleton]%elem_of_app; [by apply H2|].
    split_and!; [done|by rewrite K3|done].
  - rewrite K2. intros Hm. specialize (Hroom Hm). apply (f_equal length) in K1.
    rewrite !length_map in K1. rewrite K1. lia.
Qed.
Lemma safe_new_client p : wf p -> fresh_fds p -> safe new_client_cb p.
Proof.
  intros W [F0 F2]. unfold new_client_cb.
  assert (N : forall x, inq p !! x = None -> x ∉ map c_fd (childs p)).
  { intros x Hx Hin. destruct W as (_ & W & _). destruct (W x Hin) as (_ & _ & []). congruence. }
  assert (F1 := N _ F0). apply ewp_bind, ewp_get.
  destruct (_ <? 0); [apply safe_bind; [done|apply stays_b_log|done]|].
  apply ewp_bind, ewp_get, ewp_bind, ewp_get. destruct (_ && _) eqn:Hroom.
  { apply ewp_bind, ewp_put, ewp_bind. by (eapply ewp_mono; [apply safe_close; [by apply wf_emit|done]|done|]). }
  apply ewp_bind, ewp_get, ewp_bind.
  eapply (ewp_mono _ (fun fds => paired fds p) _ (fun _ => wf)); [| |done].
  { destruct (socketpair (tr p)) as [[a b]|] eqn:E.
    - apply ewp_bind, ewp_put, ewp_ret. destruct (F2 a b eq_refl) as (? & ? & ? & ? & ? & Ha & Hb).
      split.
      + split_and!; [done..|]. intros x Hx. cbn. destruct (decide (x = a)) as [->|].
        { rewrite lookup_insert_eq. eauto. }
        rewrite lookup_insert_ne by done. destruct (decide (x = b)) as [->|];
          [rewrite lookup_insert_eq; eauto|by rewrite lookup_insert_ne].
      + intros _. cbn. split_and!; auto. rewrite lookup_insert_eq. eauto.
    - apply ewp_bind. eapply ewp_mono; [apply stays_b_log, kin_refl| |]; intros x p' K; cbn.
      + split; [done|]. cbn. lia.
      + by eapply kin_wf. }
  intros fds p1 P1. apply ewp_bind, ewp_get, ewp_bind, ewp_put. set (pid := fork (tr p1)).
  set (p2 := up_tr _ p1). assert (P2 : paired fds p p2) by done. clearbody p2. clear P1.
  destruct (pid <? 0).
  { apply ewp_bind. eapply ewp_mono; [by (eapply paired_stays; [|apply stays_b_log|])| |done].
    intros _ p3 [K3 _]. apply ewp_bind. eapply ewp_mono; [apply safe_close; [by eapply kin_wf|]|done|done].
    destruct K3 as (-> & _). done. }
  destruct (0 <? pid).
  2:{ apply ewp_bind. eapply ewp_mono; [apply safe_new_child; destruct P2; by eapply kin_wf|done|done]. }
  apply ewp_bind. eapply ewp_mono; [by (eapply paired_stays; [|apply stays_b_log|])| |done].
  intros ? p3 P3. apply ewp_bind, ewp_bind, ewp_put, ewp_put.
  set (p4 := up_tr _ _). assert (W4 : wf p4).
  { destruct P3 as [K3 _]. apply wf_emit, wf_close; [by eapply kin_wf|]. by destruct K3 as (-> & _). }
  assert (P4 : 0 <= fds.1 -> paired fds p p4).
  { intros Hf. destruct P3 as [(K1 & K2 & K3 & K4) F]. destruct (F Hf) as (? & ? & ? & ? & ? & ?). split.
    - split_and!; [done..|]. intros x Hx. cbn. rewrite lookup_delete_ne; [auto|].
      intros <-. destruct Hx as [q Hq]. by rewrite F0 in Hq.
    - intros _. split_and!; auto. cbn. rewrite lookup_delete_ne; auto. }
  apply ewp_bind. destruct (Z.leb_spec 0 fds.1) as [Hf|]; [|by do 2 apply ewp_ret].
  destruct (P4 Hf) as [K4 F]. destruct (F Hf) as (_ & _ & _ & G4 & G5 & _).
  apply ewp_bind, ewp_put. eapply ewp_mono; [apply safe_close| |done].
  - eapply (wf_add _ p); [done|by apply P4|done|]. intros Hm. apply andb_false_iff in Hroom as [?|?]; lia.
  - destruct K4 as (K & _). cbn in K |- *. rewrite map_app, K. intros [?|?%list_elem_of_singleton]%elem_of_app; done.
  - done.
Qed.
End Invariant.
End Ipc.
