(* ===== verification/IpcSystem.v ===== *)
(** The master of daemon_fork.cpp and its children as a system of processes: the
    bytes one writes are what the other reads.  It refines an abstract system whose
    queues hold messages. *)

From S2P Require Import Prelude Util Message Log World Effects Ipc.

Module Sys.
Import Eff Ipc.
#[local] Open Scope eff_scope.

(** ** The system *)

(** The master, and the children by the descriptor the master has for them. *)
Record sys := Sys { master : proc; kids : gmap Z proc }.

Inductive label :=
| New (conn fd kfd pid : Z)     (* a client; socketpair gives fd and kfd, fork pid *)
| Send (fd : Z) (m : message)   (* the session of a child calls ipc_send *)
| MasterRead (fd : Z)           (* the callback of a child's socket, in the master *)
| KidRead (fd : Z)              (* the callback of the master's socket, in a child *)
| ExitKid (fd : Z).             (* the process of a child ends *)

(** What was written to [fd] on the way. *)
Fixpoint writes (t : list ev) (fd : Z) : string :=
  match t with
  | [] => ""
  | WriteFd x s :: t => (if x =? fd then s else "") +:+ writes t fd
  | _ :: t => writes t fd
  end.
Definition news (p p' : proc) : list ev := drop (length (tr p)) (tr p').
Definition receive (fd : Z) (s : string) (p : proc) : proc :=
  up_inq (alter (fun q => Queue (q_in q +:+ s) (q_eof q)) fd) p.
Definition hangup (fd : Z) (p : proc) : proc :=
  up_inq (alter (fun q => Queue (q_in q) true) fd) p.
Definition run {A} (m : M A) (p : proc) : option proc :=
  match m p with (p', Done _) => Some p' | _ => None end.
Definition forked (t : list ev) : bool := existsb (fun e => match e with Forked _ => true | _ => false end) t.

Section Sys.
Context {ienv : IpcEnv}.

(** The answers of the kernel to one call of [new_client_cb]. *)
Definition kernel (conn fd kfd pid : Z) : IpcEnv := {|
  accept := fun _ => conn; socketpair := fun _ => Some (fd, kfd); fork := fun _ => pid;
  write_result := write_result; sock_error := sock_error; irc_error := irc_error;
  conf_found := conf_found; conf_maxcon := conf_maxcon; conf_background := conf_background;
  chdir_ok := chdir_ok; addrinfo := addrinfo; socket := socket; bind_listen := bind_listen |}.

Definition deliver (p p' : proc) (ks : gmap Z proc) : gmap Z proc :=
  map_imap (fun fd k => Some (receive (sock k) (writes (news p p') fd) k)) ks.

Definition step (l : label) (s : sys) : option sys :=
  match l with
  | New conn fd kfd pid =>
    p ← run (new_client_cb (ienv := kernel conn fd kfd pid)) (master s);
    k ← run (new_client_cb (ienv := kernel conn fd kfd 0)) (master s);
    Some (Sys p (if forked (news (master s) p) then <[fd := k]> (kids s) else kids s))
  | Send fd m =>
    k ← kids s !! fd;
    k' ← run (ipc_send m) k;
    Some (Sys (receive fd (writes (news k k') (sock k)) (master s)) (<[fd := k']> (kids s)))
  | MasterRead fd =>
    if bool_decide (fd ∈ map c_fd (childs (master s))) then
      p ← run (ipc_read (Some fd)) (master s);
      Some (Sys p (deliver (master s) p (kids s)))
    else None
  | KidRead fd =>
    k ← kids s !! fd;
    k' ← run (ipc_read None) k;
    Some (Sys (receive fd (writes (news k k') (sock k)) (master s)) (<[fd := k']> (kids s)))
  | ExitKid fd =>
    _ ← kids s !! fd;
    Some (Sys (hangup fd (master s)) (delete fd (kids s)))
  end.
Fixpoint steps (ls : list label) (s : sys) : option sys :=
  match ls with [] => Some s | l :: ls => s' ← step l s; steps ls s' end.
(** The master before the first client, listening on [lfd]. *)
Definition init (lfd : Z) : sys :=
  Sys (Proc false conf_maxcon lfd (Some NewClient) [] ∅ [Listening lfd]) ∅.
End Sys.

(** ** The abstract system *)

(** A child: the name the master knows, the messages on the way to the master and
    back, those it handled, whether its process ended, and how many WALLOPS the
    master had passed on when it came. *)
Record akid := AK {
  k_user : string; k_up : list message; k_down : list message; k_got : list message;
  k_gone : bool; k_from : nat }.
Record abs := Abs { a_kids : gmap Z akid; a_hist : list message }.

Definition push (m : message) (k : akid) : akid :=
  if k_gone k then k else AK (k_user k) (k_up k) (k_down k ++ [m]) (k_got k) false (k_from k).
Definition to (P : Z -> akid -> bool) (m : message) (a : gmap Z akid) : gmap Z akid :=
  map_imap (fun fd k => Some (if P fd k then push m k else k)) a.
Definition die_of (u : string) : message := ipc "DIE" [u; another_location].
Definition arg0 (m : message) : string := default "" (Msg.args m !! 0%nat).

(** The message of the child [fd] is passed on: what goes, to whom, and the name the
    master notes. *)
Definition is_cmd (c : string) (m : message) : bool := String.eqb (Msg.cmd m) c.
Definition routed (m : message) : message :=
  if is_cmd "USER" m then die_of (arg0 m) else if is_cmd "REHASH" m then ipc "REHASH" [] else m.
Definition goes_to (fd : Z) (m : message) (x : Z) (user : string) : bool :=
  if is_cmd "USER" m then negb (x =? fd) && same_name user (arg0 m)
  else if is_cmd "OPER" m then negb (x =? fd) else true.
Definition named (fd : Z) (m : message) (ks : gmap Z akid) : gmap Z akid :=
  if is_cmd "USER" m
  then alter (fun k => AK (arg0 m) (k_up k) (k_down k) (k_got k) (k_gone k) (k_from k)) fd ks else ks.
Definition route (fd : Z) (m : message) (ks : gmap Z akid) : gmap Z akid :=
  to (fun x k => goes_to fd m x (k_user k)) (routed m) (named fd m ks).
Definition is_wallops (m : message) : bool := is_cmd "WALLOPS" m.

(** What the sockets carry: a line that fits in the buffer, parsed as it was, of a
    known command. *)
Definition plain (s : string) : bool :=
  sall (fun c => negb (Ascii.eqb c "000") && negb (Ascii.eqb c "013")) s.
Definition line (m : message) : string := Msg.format_line no_entity no_entity m.
Definition fits (m : message) : bool :=
  Wire.sendable m && plain (line m) && (slen (line m) <=? 509)%nat
  && match List.find (fun row => String.eqb (Msg.cmd m) row.1) ipc_cmds with
     | Some (_, n) => (n <=? Msg.countArgs m)%nat
     | None => false
     end.
Definition carried (m : message) : bool :=
  fits m && (negb (is_cmd "USER" m) || fits (die_of (arg0 m))).

Section Abs.
Context {ienv : IpcEnv} (lfd : Z).
(** What the kernel gives for a new client is new. *)
Definition unused (a : abs) (x : Z) : bool :=
  (0 <=? x) && negb (x =? lfd) && bool_decide (a_kids a !! x = None).
Definition valid_new (conn fd kfd pid : Z) (a : abs) : bool :=
  unused a conn && unused a fd && unused a kfd && negb (fd =? kfd) && negb (conn =? fd)
  && negb (conn =? kfd) && (0 <? pid).
Definition a_step (l : label) (a : abs) : option abs :=
  match l with
  | New conn fd kfd pid =>
    if negb (valid_new conn fd kfd pid a) then None
    else
      if (0 <? conf_maxcon) && (conf_maxcon <=? Z.of_nat (size (a_kids a))) then Some a
      else Some (Abs (<[fd := AK "" [] [] [] false (length (a_hist a))]> (a_kids a)) (a_hist a))
  | Send fd m =>
    k ← a_kids a !! fd;
    if k_gone k || negb (carried m) then None
    else Some (Abs (<[fd := AK (k_user k) (k_up k ++ [m]) (k_down k) (k_got k) false (k_from k)]> (a_kids a)) (a_hist a))
  | MasterRead fd =>
    k ← a_kids a !! fd;
    match k_up k with
    | [] => Some (if k_gone k then Abs (delete fd (a_kids a)) (a_hist a) else a)
    | m :: up =>
      Some (Abs (route fd m (<[fd := AK (k_user k) up (k_down k) (k_got k) (k_gone k) (k_from k)]> (a_kids a)))
                (if is_wallops m then a_hist a ++ [m] else a_hist a))
    end
  | KidRead fd =>
    k ← a_kids a !! fd;
    if k_gone k then None
    else match k_down k with
    | [] => Some a
    | m :: down =>
      Some (Abs (<[fd := AK (k_user k) (k_up k) down (k_got k ++ [m]) false (k_from k)]> (a_kids a)) (a_hist a))
    end
  | ExitKid fd =>
    k ← a_kids a !! fd;
    if k_gone k then None
    else Some (Abs (<[fd := AK (k_user k) (k_up k) (k_down k) (k_got k) true (k_from k)]> (a_kids a)) (a_hist a))
  end.
Fixpoint a_steps (ls : list label) (a : abs) : option abs :=
  match ls with [] => Some a | l :: ls => a' ← a_step l a; a_steps ls a' end.
End Abs.
Definition a_init : abs := Abs ∅ [].
End Sys.
