(* ===== verification/IpcRefine.v ===== *)
(** The system of processes of daemon_fork.cpp refines the one whose queues hold
    messages: the framing of the lines, the broadcasts and the names. *)

From S2P Require Import Prelude Util Message Log World Effects Ipc IpcSystem.

Module Refine.
Import Eff Ipc Sys.
#[local] Open Scope eff_scope.

(** ** Framing *)

Lemma prefix_crlf_plain c s : Ascii.eqb c "013" = false -> String.prefix Msg.crlf (String c s) = false.
Proof.
  intros H. unfold Msg.crlf. cbn [String.prefix]. destruct (ascii_dec "013" c) as [<-|]; [|done].
  by rewrite Ascii.eqb_refl in H.
Qed.
Lemma find_eol_line s t : plain s = true -> find_eol (s +:+ Msg.crlf +:+ t) = Some (slen s).
Proof.
  induction s as [|c s IH]; [intros _; rewrite app_nil_l_s; by destruct t|]. unfold plain in *. cbn [sall slen].
  intros [[H0 H13]%andb_true_iff Hs]%andb_true_iff. apply negb_true_iff in H0, H13.
  rewrite app_cons_s. cbn [find_eol]. rewrite H0, prefix_crlf_plain by done. by rewrite IH.
Qed.
Lemma format_split m : format m = line m +:+ Msg.crlf.
Proof. done. Qed.
Definition wire (l : list message) : string := foldr (fun m s => format m +:+ s) "" l.
Lemma wire_app l1 l2 : wire (l1 ++ l2) = wire l1 +:+ wire l2.
Proof. unfold wire. induction l1 as [|m l IH]; [done|]. cbn [foldr app]. by rewrite IH, app_assoc_s. Qed.

Section Refine.
Context {ienv : IpcEnv}.

(** Reading from a descriptor which holds a line of a message. *)
Lemma ipc_read_line data fd m rest eof p :
  fd = default (sock p) data -> (forall c, data = Some c -> c ∈ map c_fd (childs p)) ->
  inq p !! fd = Some (Queue (format m +:+ rest) eof) -> fits m = true ->
  ipc_read data p = bind (handler (Msg.cmd m) data m) (fun _ => ret true)
                      (up_inq (insert fd (Queue rest eof)) p).
Proof.
  intros -> Hd Hq Hf. unfold fits in Hf. apply andb_true_iff in Hf as [[[Hs Hp]%andb_true_iff Hl]%andb_true_iff Hc].
  apply Nat.leb_le in Hl. unfold ipc_read. unfold bind at 1, get at 1. unfold bind at 1, get at 1.
  assert (Hg : (match data with
     | Some c => when (negb (bool_decide (c ∈ map c_fd (childs p)))) (crash "dangling child_t")
     | None => (ret tt : M unit) end) p = (p, Done tt)).
  { destruct data as [c|]; [|done]. by rewrite bool_decide_true by by apply Hd. }
  unfold bind at 1. rewrite Hg. unfold bind at 1.
  unfold recv at 1. unfold bind at 1, get at 1. rewrite Hq.
  assert (Hne : sempty (format m +:+ rest) = false).
  { rewrite format_split, !app_assoc_s. by destruct (line m). }
  rewrite Hne. cbn [bind ret]. unfold bind at 1, ret.
  replace (BUF - 1)%nat with (slen (line m) + (2 + (509 - slen (line m))))%nat by (unfold BUF; lia).
  rewrite format_split, app_assoc_s, stake_app_r. 
  change (stake (2 + ?n) (Msg.crlf +:+ rest)) with (Msg.crlf +:+ stake n rest).
  rewrite find_eol_line by done. unfold bind at 1, recv, bind at 1, get. rewrite Hq, Hne.
  unfold bind at 1, put, ret. rewrite format_split, app_assoc_s, stake_app_r.
  assert (Hd2 : sdrop (slen (line m) + 2) (line m +:+ Msg.crlf +:+ rest) = rest).
  { by rewrite sdrop_add, sdrop_app_s. }
  rewrite Hd2. change (stake 2 (Msg.crlf +:+ rest)) with Msg.crlf.
  rewrite slen_app, Nat.eqb_refl. rewrite <- (Nat.add_0_r (slen (line m))) at 1.
  rewrite stake_app_r. change (stake 0 Msg.crlf) with "". rewrite app_nil_s.
  unfold ipc_handle, bind at 1. unfold line at 1. rewrite parse_format_line by done. cbn [lift].
  unfold ret at 1. destruct (List.find _ ipc_cmds) as [[cmd n]|] eqn:E; [|done].
  apply List.find_some in E as [_ E]. apply String.eqb_eq in E. cbn in E. subst cmd.
  apply Nat.leb_le in Hc. destruct (Nat.ltb_spec (Msg.countArgs m) n); [lia|]. done.
Qed.
Lemma ipc_read_empty data fd eof p :
  fd = default (sock p) data -> (forall c, data = Some c -> c ∈ map c_fd (childs p)) ->
  inq p !! fd = Some (Queue "" eof) ->
  ipc_read data p = if eof then bind (left_ data) (fun _ => ret false) p else (p, Done true).
Proof.
  intros -> Hd Hq. unfold ipc_read. unfold bind at 1, get at 1. unfold bind at 1, get at 1.
  assert (Hg : (match data with
     | Some c => when (negb (bool_decide (c ∈ map c_fd (childs p)))) (crash "dangling child_t")
     | None => (ret tt : M unit) end) p = (p, Done tt)).
  { destruct data as [c|]; [|done]. by rewrite bool_decide_true by by apply Hd. }
  unfold bind at 1. rewrite Hg. unfold bind at 1.
  unfold recv at 1. unfold bind at 1, get at 1. rewrite Hq. by destruct eof.
Qed.

(** ** What a computation adds to the trace *)

Definition and_tr (t : list ev) (p : proc) : proc := up_tr (fun x => x ++ t) p.
Definition runs {A} (m : M A) (p : proc) (a : A) (t : list ev) : Prop := m p = (and_tr t p, Done a).
Lemma and_tr_nil p : and_tr [] p = p.
Proof. destruct p. unfold and_tr, up_tr. cbn. by rewrite app_nil_r. Qed.
Lemma and_tr_app t1 t2 p : and_tr t2 (and_tr t1 p) = and_tr (t1 ++ t2) p.
Proof. unfold and_tr, up_tr. cbn. by rewrite app_assoc. Qed.
Lemma runs_ret {A} (a : A) p : runs (ret a) p a [].
Proof. unfold runs. by rewrite and_tr_nil. Qed.
Lemma runs_get {A} (f : proc -> A) p : runs (get f) p (f p) [].
Proof. unfold runs. by rewrite and_tr_nil. Qed.
Lemma runs_emit e p : runs (emit e) p tt [e].
Proof. done. Qed.
Lemma runs_bind {A B} (m : M A) (k : A -> M B) p a b t1 t2 :
  runs m p a t1 -> runs (k a) (and_tr t1 p) b t2 -> runs (bind m k) p b (t1 ++ t2).
Proof. unfold runs, bind. intros -> ->. by rewrite and_tr_app. Qed.
Lemma runs_bind_ret {A B} (m : M A) (k : A -> M B) p a b t :
  runs m p a t -> k a = ret b -> runs (bind m k) p b t.
Proof. intros H E. rewrite <- (app_nil_r t). eapply runs_bind; [done|]. rewrite E. apply runs_ret. Qed.

(** What the user sees. *)
Definition visible (t : list ev) : list ev :=
  List.filter (fun e => match e with UserSend _ | IrcQuit _ | IrcRehash => true | _ => false end) t.
Lemma visible_app t1 t2 : visible (t1 ++ t2) = visible t1 ++ visible t2.
Proof. apply List.filter_app. Qed.
Lemma writes_app t1 t2 x : writes (t1 ++ t2) x = writes t1 x +:+ writes t2 x.
Proof.
  induction t1 as [|e t1 IH]; [done|]. cbn [app writes]. destruct e; try done. by rewrite IH, app_assoc_s.
Qed.
Definition opened (p : proc) (fd : Z) : bool :=
  match inq p !! fd with Some (Queue _ false) => true | _ => false end.

(** The environment: a write goes through or the peer is gone, the client reads. *)
Context (Hwhole : forall t s, write_result t s = Z.of_nat (slen s)).
Context (Hsock : forall t, sock_error t = None).

Lemma runs_to_client e p : runs (to_client e) p tt [e].
Proof.
  unfold to_client. eapply (runs_bind _ _ _ _ _ [e] []); [apply runs_emit|].
  eapply runs_bind_ret; [apply runs_get|]. by rewrite Hsock.
Qed.
Lemma runs_b_log f s p : runs (b_log f s) p tt [Logged f s].
Proof.
  unfold b_log. eapply (runs_bind _ _ _ _ _ []); [apply runs_get|]. rewrite and_tr_nil.
  destruct (irc p); [apply runs_to_client|apply runs_emit].
Qed.
Lemma slen_format m : (0 < slen (format m))%nat.
Proof. rewrite format_split, slen_app. cbn. lia. Qed.

(** [t] writes [m] to the descriptors of [l] that satisfy [P], if the other side is
    there, and nothing else. *)
Record sends (l : list child) (P : child -> bool) (m : message) (p : proc) (t : list ev) : Prop := {
  sends_in : forall c, c ∈ l -> writes t (c_fd c) = if P c && opened p (c_fd c) then format m else "";
  sends_out : forall x, x ∉ map c_fd l -> writes t x = "";
  sends_visible : visible t = [] }.

Lemma runs_ipc_write fd m p : exists b t, runs (ipc_write fd m) p b t /\ visible t = []
  /\ forall x, writes t x = if (x =? fd) && opened p fd then format m else "".
Proof.
  unfold ipc_write, write, opened. destruct (inq p !! fd) as [[q []]|] eqn:E.
  1,3: exists false, [Logged Log.W_ERR "Error while sending: "]; split_and!; [|done|];
    [|intros x; by rewrite andb_false_r];
    eapply (runs_bind _ _ _ _ _ [] [_]);
      [eapply (runs_bind _ _ _ _ _ [] []); [apply runs_get|rewrite E; apply runs_ret]|];
    cbn [Z.leb]; eapply runs_bind_ret; [apply runs_b_log|done].
  exists true, [WriteFd fd (format m)]. split_and!; [|done|].
  2:{ intros x. cbn. rewrite app_nil_s, andb_true_r. by rewrite Z.eqb_sym. }
  pose proof (slen_format m) as Hl.
  eapply (runs_bind _ _ _ _ _ [_] []).
  - eapply (runs_bind _ _ _ _ _ [] [_]); [apply runs_get|]. rewrite E.
    eapply (runs_bind _ _ _ _ _ [] [_]); [apply runs_get|]. rewrite Hwhole.
    destruct (Z.ltb_spec 0 (Z.of_nat (slen (format m)))); [|lia].
    eapply runs_bind_ret; [|done]. rewrite Nat2Z.id, stake_all. apply runs_emit.
  - destruct (Z.leb_spec (Z.of_nat (slen (format m))) 0); [lia|]. apply runs_ret.
Qed.
Lemma sends_none P m p : sends [] P m p [].
Proof. split; [by intros c ?%not_elem_of_nil|done|done]. Qed.
Lemma sends_cons c l P m p t1 t2 :
  (c_fd c ∉ map c_fd l) -> sends l P m p t2 -> visible t1 = [] ->
  (forall x, writes t1 x = if (x =? c_fd c) && (P c && opened p (c_fd c)) then format m else "") ->
  sends (c :: l) P m p (t1 ++ t2).
Proof.
  intros Hc [H1 H2 H3] Hv Hw. split.
  - intros c' [->|Hin]%elem_of_cons; rewrite writes_app, Hw.
    + rewrite Z.eqb_refl, H2 by done. cbn. by rewrite app_nil_s.
    + destruct (Z.eqb_spec (c_fd c') (c_fd c)) as [E|]; [|by rewrite H1].
      destruct Hc. rewrite <- E. apply list_elem_of_In, in_map. by apply list_elem_of_In.
  - cbn. intros x [Hx Hin]%not_elem_of_cons. rewrite writes_app, Hw, H2 by done.
    by destruct (Z.eqb_spec x (c_fd c)).
  - by rewrite visible_app, Hv, H3.
Qed.
Lemma sends_trace l P m p t0 t : sends l P m (and_tr t0 p) t -> sends l P m p t.
Proof. by intros [H1 H2 H3]. Qed.

Lemma runs_broadcast_loop l m butone r p :
  NoDup (map c_fd l) -> exists b t, runs (broadcast_loop l m butone r) p b t
    /\ sends l (fun c => negb (bool_decide (butone = Some (c_fd c)))) m p t.
Proof.
  revert r p. induction l as [|c l IH]; intros r p Hl; cbn [broadcast_loop].
  { exists r, []. split; [apply runs_ret|apply sends_none]. }
  apply NoDup_cons in Hl as [Hc Hl]. destruct (bool_decide (butone = Some (c_fd c))) eqn:E.
  - destruct (IH r p Hl) as (b & t & Hr & Hs). exists b, t. split; [done|].
    apply (sends_cons c l _ m p [] t); [done..|]. intros x. rewrite E. cbn. by rewrite andb_false_r.
  - destruct (runs_ipc_write (c_fd c) m p) as (b0 & t0 & Hr0 & Hv & Hw).
    destruct (IH (if b0 then true else r) (and_tr t0 p) Hl) as (b & t & Hr & Hs).
    exists b, (t0 ++ t). split; [by eapply runs_bind|].
    apply sends_cons; [done|by eapply sends_trace|done|]. intros x. by rewrite Hw, E.
Qed.
Lemma runs_broadcast m butone p :
  NoDup (map c_fd (childs p)) -> exists b t, runs (ipc_master_broadcast m butone) p b t
    /\ sends (childs p) (fun c => negb (bool_decide (butone = Some (c_fd c)))) m p t.
Proof.
  intros H. destruct (runs_broadcast_loop (childs p) m butone false p H) as (b & t & Hr & Hs).
  exists b, t. split; [|done]. eapply (runs_bind _ _ _ _ _ []); [apply runs_get|]. by rewrite and_tr_nil.
Qed.
Lemma runs_user_loop fd u l p :
  NoDup (map c_fd l) -> has_char " " u = false -> exists t, runs (user_loop fd u l) p tt t
    /\ sends l (fun c => negb (c_fd c =? fd) && same_name (c_username c) u) (die_of u) p t.
Proof.
  intros Hl Hu. revert p. induction l as [|c l IH]; intros p; cbn [user_loop].
  { exists []. split; [apply runs_ret|apply sends_none]. }
  apply NoDup_cons in Hl as [Hc Hl]. destruct (negb _ && same_name _ _) eqn:E.
  - destruct (runs_ipc_write (c_fd c) (die_of u) p) as (b0 & t0 & Hr0 & Hv & Hw).
    destruct (IH Hl (and_tr t0 p)) as (t & Hr & Hs). exists (t0 ++ t). split.
    + eapply runs_bind; [|done]. unfold Msg.addArg, Msg.back_has_space. cbn [Msg.args Msg.mk last lift].
      eapply (runs_bind _ _ _ _ _ []); [apply runs_ret|]. rewrite and_tr_nil.
      cbn [Msg.with_args Msg.args app last]. rewrite Hu. cbn [lift].
      eapply (runs_bind _ _ _ _ _ []); [apply runs_ret|]. rewrite and_tr_nil.
      eapply runs_bind_ret; [exact Hr0|done].
    + apply sends_cons; [done|by eapply sends_trace|done|]. intros x. by rewrite Hw, E.
  - destruct (IH Hl p) as (t & Hr & Hs). exists t. split.
    + eapply (runs_bind _ _ _ _ _ []); [apply runs_ret|]. by rewrite and_tr_nil.
    + apply (sends_cons c l _ _ p [] t); [done..|]. intros x. rewrite E. cbn. by rewrite andb_false_r.
Qed.

(** ** The handlers in the master *)

Lemma fits_cmd m : fits m = true -> exists n, In (Msg.cmd m, n) ipc_cmds /\ (n <= Msg.countArgs m)%nat.
Proof.
  intros [_ H]%andb_true_iff. destruct (List.find _ _) as [[c n]|] eqn:E; [|done].
  apply List.find_some in E as [Hin E]. apply String.eqb_eq in E. cbn in E. subst c.
  exists n. split; [done|]. by apply Nat.leb_le.
Qed.
Lemma runs_getArg n m p : (n < Msg.countArgs m)%nat -> exists a, runs (getArg n m) p a [] /\ Msg.args m !! n = Some a.
Proof.
  intros H. unfold getArg, Msg.getArg. destruct (Msg.args m !! n) as [a|] eqn:E.
  - exists a. split; [apply runs_ret|done].
  - apply lookup_ge_None_1 in E. unfold Msg.countArgs in H. lia.
Qed.
Lemma fits_die u : fits (die_of u) = true -> has_char " " u = false.
Proof.
  unfold fits, Wire.sendable, die_of. cbn [Msg.cmd Msg.args ipc]. intros H.
  destruct (has_char " " u) eqn:E; [|done].
  replace (Wire.wire_args [u; another_location]) with false in H; [by rewrite !andb_false_r in H|].
  cbn [Wire.wire_args]. unfold Wire.wire_word. by rewrite E, andb_false_r.
Qed.
(** The names the master notes. *)
Definition noted (fd : Z) (m : message) (p : proc) : proc :=
  if is_cmd "USER" m then up_childs (set_username fd (arg0 m)) p else p.
Definition targets (fd : Z) (m : message) (c : child) : bool := goes_to fd m (c_fd c) (c_username c).

Lemma sends_ext l P P' m p t : (forall c, P c = P' c) -> sends l P m p t -> sends l P' m p t.
Proof. intros E [H1 H2 H3]. split; [|done..]. intros c Hc. by rewrite <- E, H1. Qed.
Lemma sends_snoc l P m p t t' :
  sends l P m p t -> visible t' = [] -> (forall x, writes t' x = "") -> sends l P m p (t ++ t').
Proof.
  intros [H1 H2 H3] Hv Hw. split.
  - intros c Hc. by rewrite writes_app, Hw, app_nil_s, H1.
  - intros x Hx. by rewrite writes_app, Hw, app_nil_s, H2.
  - by rewrite visible_app, H3, Hv.
Qed.
Lemma runs_seq {A} (m : M A) (k : M unit) p a t1 t2 :
  runs m p a t1 -> runs k (and_tr t1 p) tt t2 -> runs (bind (bind m (fun _ => ret tt)) (fun _ => k)) p tt (t1 ++ t2).
Proof. intros H1 H2. eapply runs_bind; [by eapply runs_bind_ret|done]. Qed.

Lemma master_handler fd m p :
  irc p = false -> NoDup (map c_fd (childs p)) -> carried m = true ->
  exists t, handler (Msg.cmd m) (Some fd) m p = (and_tr t (noted fd m p), Done tt)
    /\ sends (childs (noted fd m p)) (targets fd m) (routed m) p t.
Proof.
  intros Hi Hn [Hf Hu]%andb_true_iff. destruct (fits_cmd m Hf) as (n & Hin & Hargs).
  unfold noted, targets, goes_to, routed, is_cmd in *. 
  destruct (runs_broadcast m None p Hn) as (b & t & Hr & Hs).
  unfold ipc_cmds in Hin. cbn in Hin.
  repeat (destruct Hin as [[= Hc <-]|Hin]); try done; rewrite <- Hc in Hu |- *;
    cbv [handler String.eqb Ascii.eqb Bool.eqb] in Hu |- *.
  - exists t. split; [by eapply runs_bind_ret|]. by eapply sends_ext; [|exact Hs].
  - destruct (runs_broadcast (ipc "REHASH" []) None p Hn) as (b' & t' & Hr' & Hs').
    exists t'. split; [|by eapply sends_ext; [|exact Hs']]. unfold m_rehash, rehash.
    eapply (runs_bind _ _ _ _ _ []); [apply runs_get|]. rewrite and_tr_nil, Hi. by eapply runs_bind_ret.
  - destruct (runs_getArg 0 m (and_tr t p)) as (nick & Ha & _); [lia|].
    destruct (runs_getArg 1 m (and_tr t p)) as (reason & Hb & _); [lia|].
    eexists (t ++ [Logged _ _; AppQuit]). split; [|apply sends_snoc; [by eapply sends_ext; [|exact Hs]|done..]].
    unfold m_die. eapply runs_seq; [done|]. eapply (runs_bind _ _ _ _ _ []); [exact Ha|]. rewrite and_tr_nil.
    eapply (runs_bind _ _ _ _ _ []); [exact Hb|]. rewrite and_tr_nil.
    eapply (runs_bind _ _ _ _ _ [_] [_]); [apply runs_b_log|].
    eapply (runs_bind _ _ _ _ _ [] [_]); [apply runs_get|]. rewrite and_tr_nil. cbn [irc and_tr up_tr]. rewrite Hi.
    apply runs_emit.
  - destruct (runs_broadcast m (Some fd) p Hn) as (b' & t' & Hr' & Hs').
    destruct (runs_getArg 0 m (and_tr t' p)) as (nick & Ha & _); [lia|].
    eexists (t' ++ [Logged _ _]). split; [|apply sends_snoc; [|done..]].
    + unfold m_oper. eapply runs_seq; [done|]. eapply (runs_bind _ _ _ _ _ []); [exact Ha|]. rewrite and_tr_nil.
      apply runs_b_log.
    + eapply sends_ext; [|exact Hs']. intros c. cbn. f_equal. destruct (Z.eqb_spec (c_fd c) fd) as [->|].
      * by rewrite bool_decide_true.
      * by rewrite bool_decide_false by congruence.
  - destruct (runs_getArg 0 m p) as (u & Ha & Eu); [lia|]. unfold arg0 in *. rewrite Eu in *. cbn [default] in *.
    set (p1 := up_childs (set_username fd u) p).
    assert (Hn1 : NoDup (map c_fd (childs p1))).
    { cbn. unfold set_username. rewrite map_map. erewrite map_ext; [exact Hn|].
      intros c. by destruct (c_fd c =? fd) eqn:E; [apply Z.eqb_eq in E|]. }
    destruct (runs_user_loop fd u (childs p1) p1 Hn1 (fits_die _ Hu)) as (t' & Hr' & Hs').
    exists t'. split; [|by destruct Hs'; split].
    unfold m_user, bind at 1. rewrite Ha, and_tr_nil. exact Hr'.
Qed.

(** ** The handlers in a child *)

Definition arg1 (m : message) : string := default "" (Msg.args m !! 1%nat).
(** What the user of a child sees of a message. *)
Definition shown (m : message) : list ev :=
  if is_cmd "WALLOPS" m
  then [UserSend (Msg.Message "WALLOPS" (Msg.SE None (arg0 m)) Msg.se_empty [arg1 m])]
  else if is_cmd "REHASH" m then [IrcRehash]
  else if is_cmd "DIE" m then [IrcQuit ("Shutdown requested by " +:+ arg0 m)] else [].

Lemma kid_handler m p :
  irc p = true -> fits m = true ->
  exists t, handler (Msg.cmd m) None m p = (and_tr t p, Done tt) /\ visible t = shown m
    /\ forall x, writes t x = "".
Proof.
  intros Hi Hf. destruct (fits_cmd m Hf) as (n & Hin & Hargs). unfold shown, is_cmd.
  unfold ipc_cmds in Hin. cbn in Hin.
  repeat (destruct Hin as [[= Hc <-]|Hin]); try done; rewrite <- Hc;
    cbv [handler String.eqb Ascii.eqb Bool.eqb].
  - destruct (runs_getArg 0 m p) as (a & Ha & Ea); [lia|]. destruct (runs_getArg 1 m p) as (b & Hb & Eb); [lia|].
    unfold arg0, arg1. rewrite Ea, Eb. cbn [default].
    eexists [UserSend _]. split; [|done]. unfold m_wallops.
    eapply (runs_bind _ _ _ _ _ [] [_]); [apply runs_get|]. rewrite and_tr_nil, Hi.
    eapply (runs_bind _ _ _ _ _ [] [_]); [exact Ha|]. rewrite and_tr_nil.
    eapply (runs_bind _ _ _ _ _ [] [_]); [exact Hb|]. rewrite and_tr_nil.
    eapply (runs_bind _ _ _ _ _ [] [_]); [apply runs_ret|]. rewrite and_tr_nil. apply runs_to_client.
  - eexists [IrcRehash; Logged _ _]. split; [|done]. unfold m_rehash, rehash, irc_rehash.
    eapply (runs_bind _ _ _ _ _ [] [_; _]); [apply runs_get|]. rewrite and_tr_nil, Hi.
    eapply (runs_bind _ _ _ _ _ [_] [_]); [apply runs_emit|apply runs_b_log].
  - destruct (runs_getArg 0 m p) as (a & Ha & Ea); [lia|]. destruct (runs_getArg 1 m p) as (b & Hb & Eb); [lia|].
    unfold arg0. rewrite Ea. cbn [default].
    eexists [Logged _ _; IrcQuit _; StopTimer]. split; [|done]. unfold m_die.
    eapply (runs_bind _ _ _ _ _ [] [_; _; _]); [apply runs_ret|]. rewrite and_tr_nil.
    eapply (runs_bind _ _ _ _ _ [] [_; _; _]); [exact Ha|]. rewrite and_tr_nil.
    eapply (runs_bind _ _ _ _ _ [] [_; _; _]); [exact Hb|]. rewrite and_tr_nil.
    eapply (runs_bind _ _ _ _ _ [_] [_; _]); [apply runs_b_log|].
    eapply (runs_bind _ _ _ _ _ [] [_; _]); [apply runs_get|]. rewrite and_tr_nil. cbn [irc and_tr up_tr]. rewrite Hi.
    eapply (runs_bind _ _ _ _ _ [_] [_]); [apply runs_to_client|apply runs_emit].
  - destruct (runs_getArg 0 m p) as (a & Ha & Ea); [lia|].
    eexists [Logged _ _]. split; [|done]. unfold m_oper.
    eapply (runs_bind _ _ _ _ _ [] [_]); [apply runs_ret|]. rewrite and_tr_nil.
    eapply (runs_bind _ _ _ _ _ [] [_]); [exact Ha|]. rewrite and_tr_nil. apply runs_b_log.
  - exists []. split; [by apply runs_ret|done].
Qed.
End Refine.
End Refine.
