(* ===== verification/IpcSim.v ===== *)
(** The simulation: a step of the abstract system is a step of the processes. *)

From S2P Require Import Prelude Util Message Log World Effects Ipc IpcSystem IpcRefine.

Module Sim.
Import Eff Ipc Sys Refine.
#[local] Open Scope eff_scope.

Section Sim.
Context {ienv : IpcEnv} (lfd : Z).
Context (Hwhole : forall t s, write_result t s = Z.of_nat (slen s)).
Context (Hsock : forall t, sock_error t = None) (Hirc : forall t, irc_error t = None).

(** ** The relation *)

Record kid_ok (k : akid) (p : proc) : Prop := {
  ko_irc : irc p = true;
  ko_sock : 0 <= sock p;
  ko_in : inq p !! sock p = Some (Queue (wire (k_down k)) false);
  ko_shown : visible (tr p) = flat_map shown (k_got k) }.
Record R (s : sys) (a : gmap Z akid) : Prop := {
  r_irc : irc (master s) = false;
  r_visible : visible (tr (master s)) = [];
  r_max : maxcon (master s) = conf_maxcon;
  r_sock : sock (master s) = lfd;
  r_nodup : NoDup (map c_fd (childs (master s)));
  r_dom : forall fd, fd ∈ map c_fd (childs (master s)) <-> is_Some (a !! fd);
  r_user : forall c, c ∈ childs (master s) -> k_user <$> a !! c_fd c = Some (c_username c);
  r_inq : forall fd, inq (master s) !! fd = (fun k => Queue (wire (k_up k)) (k_gone k)) <$> a !! fd;
  r_kids : forall fd, match a !! fd with
    | Some k => if k_gone k then kids s !! fd = None
                else exists p, kids s !! fd = Some p /\ kid_ok k p
    | None => kids s !! fd = None
    end;
  r_msgs : forall fd k, a !! fd = Some k ->
    Forall (fun m => carried m = true) (k_up k) /\ Forall (fun m => fits m = true) (k_down k) }.

Lemma r_alive s a fd k : R s a -> a !! fd = Some k -> k_gone k = false ->
  exists p, kids s !! fd = Some p /\ kid_ok k p.
Proof. intros H E Hg. pose proof (r_kids _ _ H fd) as K. by rewrite E, Hg in K. Qed.

(** Another record for the child [fd], and the same ones otherwise. *)
Lemma R_put fd k k' s s' a :
  R s a -> a !! fd = Some k ->
  irc (master s') = false -> visible (tr (master s')) = [] -> maxcon (master s') = maxcon (master s) -> sock (master s') = sock (master s) ->
  map c_fd (childs (master s')) = map c_fd (childs (master s)) ->
  (forall c, c ∈ childs (master s') -> c_fd c <> fd -> c ∈ childs (master s)) ->
  (forall c, c ∈ childs (master s') -> c_fd c = fd -> c_username c = k_user k') ->
  inq (master s') !! fd = Some (Queue (wire (k_up k')) (k_gone k')) ->
  (forall x, x <> fd -> inq (master s') !! x = inq (master s) !! x /\ kids s' !! x = kids s !! x) ->
  (if k_gone k' then kids s' !! fd = None else exists p, kids s' !! fd = Some p /\ kid_ok k' p) ->
  Forall (fun m => carried m = true) (k_up k') -> Forall (fun m => fits m = true) (k_down k') ->
  R s' (<[fd := k']> a).
Proof.
  intros H Hk H1 H0 H2 H3 H4 H5 H6 H7 H8 H9 H10 H11. destruct H as [R1 R0 R2 R3 R4 R5 R6 R7 R8 R9]. split.
  - done.
  - done.
  - congruence.
  - congruence.
  - by rewrite H4.
  - intros x. rewrite H4, R5. destruct (decide (x = fd)) as [->|].
    + rewrite lookup_insert_eq, Hk. split; eauto.
    + by rewrite lookup_insert_ne.
  - intros c Hc. destruct (decide (c_fd c = fd)) as [E|].
    + rewrite E, lookup_insert_eq. cbn. by rewrite (H6 c Hc E).
    + rewrite lookup_insert_ne by done. apply R6. by apply H5.
  - intros x. destruct (decide (x = fd)) as [->|].
    + by rewrite lookup_insert_eq.
    + rewrite lookup_insert_ne by done. destruct (H8 x) as [-> _]; [done|]. apply R7.
  - intros x. destruct (decide (x = fd)) as [->|].
    + by rewrite lookup_insert_eq.
    + rewrite lookup_insert_ne by done. destruct (H8 x) as [_ ->]; [done|]. apply R8.
  - intros x k0. destruct (decide (x = fd)) as [->|].
    + rewrite lookup_insert_eq. by intros [= <-].
    + rewrite lookup_insert_ne by done. apply R9.
Qed.
Lemma R_same_user s a fd k : R s a -> a !! fd = Some k -> forall c, c ∈ childs (master s) -> c_fd c = fd -> c_username c = k_user k.
Proof.
  intros H Hk c Hc E. pose proof (r_user _ _ H c Hc) as U. rewrite E, Hk in U. by injection U.
Qed.
Lemma R_watched s a fd k : R s a -> a !! fd = Some k -> fd ∈ map c_fd (childs (master s)).
Proof. intros H E. apply (r_dom _ _ H). by exists k. Qed.

(** ** Send *)

Lemma news_and p t : news p (and_tr t p) = t.
Proof. unfold news, and_tr. cbn. by rewrite drop_app_length. Qed.
Lemma sim_send fd m k s a :
  R s a -> a !! fd = Some k -> k_gone k = false -> carried m = true ->
  exists s', step (Send fd m) s = Some s'
    /\ R s' (<[fd := AK (k_user k) (k_up k ++ [m]) (k_down k) (k_got k) false (k_from k)]> a).
Proof.
  intros H Hk Hg Hc. destruct (r_alive _ _ _ _ H Hk Hg) as (p & Hp & K). destruct K as [K1 K2 K3 K4].
  destruct (runs_ipc_write Hwhole Hsock (sock p) m p) as (b & t & Hr & Hv & Hw).
  assert (E : ipc_send m p = (and_tr t p, Done b)).
  { unfold ipc_send. eapply (runs_bind _ _ _ _ _ []); [apply runs_get|]. rewrite and_tr_nil, K1.
    unfold ipc_child_send. eapply (runs_bind _ _ _ _ _ []); [apply runs_get|]. rewrite and_tr_nil.
    destruct (Z.ltb_spec (sock p) 0); [lia|]. exact Hr. }
  cbn [step]. rewrite Hp. cbn [mbind option_bind]. unfold run. rewrite E. eexists. split; [reflexivity|].
  rewrite news_and, Hw, Z.eqb_refl. unfold opened. rewrite K3. cbn [andb].
  eapply (R_put fd k); [exact H|exact Hk|..]; cbn [master kids receive up_inq childs maxcon sock irc k_gone k_up k_down k_user].
  - apply H.
  - apply H.
  - done.
  - done.
  - done.
  - done.
  - exact (R_same_user s a fd k H Hk).
  - cbn. rewrite lookup_alter_eq, (r_inq _ _ H), Hk. cbn. by rewrite Hg, wire_app; cbn; rewrite app_nil_s.
  - intros x Hx. cbn. by rewrite lookup_alter_ne, lookup_insert_ne.
  - eexists. rewrite lookup_insert_eq. split; [done|]. split; [done..|]. cbn. by rewrite visible_app, Hv, app_nil_r.
  - apply Forall_app. split; [by eapply r_msgs|]. by constructor.
  - by eapply r_msgs.
Qed.

(** ** Reading in a child *)

Lemma fits_carried m : carried m = true -> fits m = true.
Proof. by intros [? _]%andb_true_iff. Qed.
Lemma news_self p : news p p = [].
Proof. unfold news. by rewrite drop_all. Qed.
Lemma sim_kid_read fd k s a :
  R s a -> a !! fd = Some k -> k_gone k = false ->
  exists s', step (KidRead fd) s = Some s' /\
    R s' (match k_down k with
          | [] => a
          | m :: down => <[fd := AK (k_user k) (k_up k) down (k_got k ++ [m]) false (k_from k)]> a
          end).
Proof.
  intros H Hk Hg. destruct (r_alive _ _ _ _ H Hk Hg) as (p & Hp & K). destruct K as [K1 K2 K3 K4].
  destruct (r_msgs _ _ H fd k Hk) as [Hup Hdown].
  cbn [step]. rewrite Hp. cbn [mbind option_bind]. unfold run.
  destruct (k_down k) as [|m down] eqn:Ed.
  - rewrite (ipc_read_empty None (sock p) false) by done. cbn [mbind option_bind].
    eexists. split; [reflexivity|]. rewrite news_self. rewrite <- (insert_id a fd k Hk).
    eapply (R_put fd k); [exact H|exact Hk|..]; try done; try apply H.
    + exact (R_same_user s a fd k H Hk).
    + cbn. rewrite lookup_alter_eq, (r_inq _ _ H), Hk. cbn. by rewrite app_nil_s.
    + intros x Hx. cbn. by rewrite lookup_alter_ne, lookup_insert_ne.
    + rewrite Hg. exists p. cbn. rewrite lookup_insert_eq. split; [done|]. split; try done. by rewrite Ed.
    + by rewrite Ed.
  - inversion Hdown as [|? ? Hm Hrest]; subst.
    rewrite (ipc_read_line None (sock p) m (wire down) false) by done.
    destruct (kid_handler Hsock m (up_inq (insert (sock p) (Queue (wire down) false)) p) K1 Hm)
      as (t & Ht & Hv & Hw).
    unfold bind at 1. rewrite Ht. cbn [mbind option_bind]. eexists. split; [reflexivity|].
    change (news p _) with (news p (and_tr t p)). rewrite news_and, Hw.
    eapply (R_put fd k); [exact H|exact Hk|..]; try done; try apply H.
    + exact (R_same_user s a fd k H Hk).
    + cbn. rewrite lookup_alter_eq, (r_inq _ _ H), Hk. cbn. by rewrite app_nil_s, Hg.
    + intros x Hx. cbn. by rewrite lookup_alter_ne, lookup_insert_ne.
    + eexists. cbn. rewrite lookup_insert_eq. split; [reflexivity|]. split; cbn; [done..| |].
      * by rewrite lookup_insert_eq.
      * by rewrite visible_app, Hv, K4, flat_map_app; cbn; rewrite app_nil_r.
Qed.
Lemma sim_exit fd k s a :
  R s a -> a !! fd = Some k -> k_gone k = false ->
  exists s', step (ExitKid fd) s = Some s' /\
    R s' (<[fd := AK (k_user k) (k_up k) (k_down k) (k_got k) true (k_from k)]> a).
Proof.
  intros H Hk Hg. destruct (r_alive _ _ _ _ H Hk Hg) as (p & Hp & K).
  destruct (r_msgs _ _ H fd k Hk) as [Hup Hdown].
  cbn [step]. rewrite Hp. cbn [mbind option_bind]. eexists. split; [reflexivity|].
  eapply (R_put fd k); [exact H|exact Hk|..]; try done; try apply H.
  - exact (R_same_user s a fd k H Hk).
  - cbn. rewrite lookup_alter_eq, (r_inq _ _ H), Hk. done.
  - intros x Hx. cbn. by rewrite lookup_alter_ne, lookup_delete_ne.
  - cbn. by rewrite lookup_delete_eq.
Qed.

(** ** What the master writes *)

Lemma R_deliver p0 p ks a t (P : Z -> akid -> bool) m :
  R (Sys p ks) a -> tr p0 = tr p -> visible t = [] -> fits m = true ->
  (forall x k, a !! x = Some k -> k_gone k = false -> writes t x = if P x k then format m else "") ->
  R (Sys (and_tr t p) (deliver p0 (and_tr t p) ks)) (to P m a).
Proof.
  intros H Htr Hv Hm Hw. destruct H as [R1 R0 R2 R3 R4 R5 R6 R7 R8 R9].
  assert (Hn : news p0 (and_tr t p) = t).
  { unfold news. rewrite Htr. apply news_and. }
  assert (Ha : forall x, to P m a !! x = (fun k => if P x k then push m k else k) <$> a !! x).
  { intros x. unfold to. rewrite map_lookup_imap. by destruct (a !! x) as [k|] eqn:E; rewrite ?E. }
  assert (Hk : forall x k, k_user (if P x k then push m k else k) = k_user k
    /\ k_up (if P x k then push m k else k) = k_up k /\ k_gone (if P x k then push m k else k) = k_gone k
    /\ k_got (if P x k then push m k else k) = k_got k).
  { intros x k. unfold push. destruct (P x k); [|done]. by destruct (k_gone k) eqn:E. }
  split; cbn [master kids] in *; try done.
  - cbn. by rewrite visible_app, R0.
  - intros x. rewrite R5, Ha. rewrite fmap_is_Some. done.
  - intros c Hc. rewrite Ha, <- (R6 c Hc). destruct (a !! c_fd c) as [k|]; [|done]. cbn. f_equal. apply Hk.
  - intros x. rewrite Ha. cbn [inq and_tr up_tr]. rewrite R7. destruct (a !! x) as [k|]; [|done]. cbn.
    destruct (Hk x k) as (_ & -> & -> & _). done.
  - intros x. rewrite Ha. unfold deliver. rewrite map_lookup_imap, Hn. specialize (R8 x).
    destruct (a !! x) as [k|] eqn:Ex; cbn; [|by rewrite R8].
    destruct (Hk x k) as (_ & _ & -> & Hgot). destruct (k_gone k) eqn:Eg; [by rewrite R8|].
    destruct R8 as (q & -> & [K1 K2 K3 K4]). cbn. eexists. split; [reflexivity|]. split; cbn; [done..| |].
    + rewrite lookup_alter_eq, K3. cbn. rewrite (Hw x k Ex Eg). unfold push. rewrite Eg.
      destruct (P x k); cbn; [by rewrite wire_app; cbn; rewrite app_nil_s|by rewrite app_nil_s].
    + by rewrite Hgot.
  - intros x k Ex. rewrite Ha in Ex. revert Ex. intros (k0 & E & ->)%fmap_Some. destruct (R9 x k0 E) as [H1 H2].
    destruct (Hk x k0) as (_ & -> & _). split; [done|]. unfold push. destruct (P x k0); [|done].
    destruct (k_gone k0); [done|]. cbn. apply Forall_app. split; [done|]. by constructor.
Qed.
Lemma to_nobody m a : to (fun _ _ => false) m a = a.
Proof. apply map_eq. intros x. unfold to. rewrite map_lookup_imap. by destruct (a !! x). Qed.
Lemma R_quiet p0 p ks a t :
  R (Sys p ks) a -> tr p0 = tr p -> visible t = [] ->
  (forall x, is_Some (a !! x) -> writes t x = "") ->
  R (Sys (and_tr t p) (deliver p0 (and_tr t p) ks)) a.
Proof.
  intros H Ht Hv Hw. rewrite <- (to_nobody (ipc "REHASH" []) a).
  apply R_deliver; [done..|]. intros x k E _. by apply Hw; exists k.
Qed.

(** ** Reading in the master *)

Lemma set_username_fd fd u l : map c_fd (set_username fd u l) = map c_fd l.
Proof.
  unfold set_username. rewrite map_map. apply map_ext. intros c.
  by destruct (c_fd c =? fd) eqn:E; [apply Z.eqb_eq in E|].
Qed.
Lemma elem_of_set_username fd u l c :
  c ∈ set_username fd u l ->
  (c_fd c <> fd -> c ∈ l) /\ (c_fd c = fd -> c_username c = u).
Proof.
  unfold set_username. intros (c0 & E & Hin)%list_elem_of_In%in_map_iff. apply list_elem_of_In in Hin.
  destruct (Z.eqb_spec (c_fd c0) fd) as [E0|E0]; subst c; cbn; [done|]. by split.
Qed.
Lemma alter_as_insert (f : akid -> akid) (fd : Z) k (a : gmap Z akid) : a !! fd = Some k -> alter f fd a = <[fd := f k]> a.
Proof.
  intros E. apply map_eq. intros x. destruct (decide (x = fd)) as [->|].
  - by rewrite lookup_alter_eq, lookup_insert_eq, E.
  - by rewrite lookup_alter_ne, lookup_insert_ne.
Qed.
Lemma R_noted fd m k p ks a :
  R (Sys p ks) a -> a !! fd = Some k -> R (Sys (noted fd m p) ks) (named fd m a).
Proof.
  intros H Hk. unfold noted, named. destruct (is_cmd "USER" m); [|done].
  rewrite (alter_as_insert _ _ _ _ Hk). destruct (r_msgs _ _ H fd k Hk) as [Hup Hdown].
  pose proof (r_kids _ _ H fd) as Hks. rewrite Hk in Hks.
  eapply (R_put fd k); [exact H|exact Hk|..]; cbn; try done; try apply H.
  - apply set_username_fd.
  - intros c Hc. by apply elem_of_set_username in Hc as [? _].
  - intros c Hc. by apply elem_of_set_username in Hc as [_ ?].
  - pose proof (r_inq _ _ H fd) as E. by rewrite Hk in E.
  - cbn in Hks. destruct (k_gone k); [done|]. destruct Hks as (q & Hq & [K1 K2 K3 K4]).
    by exists q.
Qed.
Lemma fits_routed m : carried m = true -> fits (routed m) = true.
Proof.
  unfold carried, routed. intros [Hf Hu]%andb_true_iff.
  destruct (is_cmd "USER" m); [done|]. destruct (is_cmd "REHASH" m); [by vm_compute|done].
Qed.
Lemma writes_to_child P m p t ks a l :
  sends l P m p t -> R (Sys p ks) a -> l = childs p ->
  forall x k, a !! x = Some k -> k_gone k = false ->
    exists c, c ∈ l /\ c_fd c = x /\ c_username c = k_user k
      /\ writes t x = if P c then format m else "".
Proof.
  intros [Hs _ _] H -> x k Hk Hg. assert (Hin : x ∈ map c_fd (childs p)) by (apply (r_dom _ _ H); eauto).
  apply list_elem_of_In, in_map_iff in Hin as (c & <- & Hin). apply list_elem_of_In in Hin.
  exists c. split_and!; [done..| |].
  - by eapply (R_same_user _ _ _ _ H).
  - rewrite (Hs c Hin). pose proof (r_inq _ _ H (c_fd c)) as E. rewrite Hk in E. unfold opened.
    cbn in E. rewrite E, Hg. by rewrite andb_true_r.
Qed.
Lemma opened_noted fd m p x : opened (noted fd m p) x = opened p x.
Proof. unfold noted. by destruct (is_cmd _ _). Qed.
Lemma sends_noted l P m' fd m p t : sends l P m' p t -> sends l P m' (noted fd m p) t.
Proof. intros [H1 H2 H3]. split; [|done..]. intros c Hc. by rewrite opened_noted, H1. Qed.

Lemma sim_master_message fd k m up s a :
  R s a -> a !! fd = Some k -> k_up k = m :: up ->
  exists s', step (MasterRead fd) s = Some s' /\
    R s' (route fd m (<[fd := AK (k_user k) up (k_down k) (k_got k) (k_gone k) (k_from k)]> a)).
Proof.
  intros H Hk Eu. destruct (r_msgs _ _ H fd k Hk) as [Hup Hdown]. rewrite Eu in Hup.
  inversion Hup as [|? ? Hm Hrest]; subst.
  set (k1 := AK _ up _ _ _ _). set (a1 := <[fd := k1]> a).
  set (p1 := up_inq (insert fd (Queue (wire up) (k_gone k))) (master s)).
  assert (R1 : R (Sys p1 (kids s)) a1).
  { eapply (R_put fd k); [exact H|exact Hk|..]; cbn; try done; try apply H.
    - exact (R_same_user s a fd k H Hk).
    - by rewrite lookup_insert_eq.
    - intros x Hx. by rewrite lookup_insert_ne.
    - pose proof (r_kids _ _ H fd) as Hks. rewrite Hk in Hks. destruct (k_gone k); [done|].
      destruct Hks as (q & Hq & [K1 K2 K3 K4]). by exists q. }
  assert (Hk1 : a1 !! fd = Some k1) by apply lookup_insert_eq.
  destruct (master_handler Hwhole Hsock fd m p1) as (t & Ht & Hs); [apply R1|apply R1|done|].
  assert (Hw := R_watched _ _ _ _ H Hk).
  cbn [step]. rewrite bool_decide_true by done. unfold run.
  rewrite (ipc_read_line (Some fd) fd m (wire up) (k_gone k));
    [|done|by intros c [= <-]| |by apply fits_carried].
  2:{ rewrite (r_inq _ _ H), Hk. cbn. by rewrite Eu. }
  fold p1. unfold bind at 1. rewrite Ht. cbn [mbind option_bind ret]. eexists. split; [reflexivity|].
  assert (R2 := R_noted fd m k1 p1 (kids s) a1 R1 Hk1).
  unfold route. apply R_deliver; [exact R2|unfold noted; by destruct (is_cmd "USER" m)|apply Hs|by apply fits_routed|].
  intros x kx Hx Hg. apply (sends_noted _ _ _ fd m) in Hs.
  destruct (writes_to_child _ _ _ _ _ _ _ Hs R2 eq_refl x kx Hx Hg) as (c & Hc & <- & Huser & ->).
  unfold targets. by rewrite Huser.
Qed.
Lemma R_delete fd k s a :
  R s a -> a !! fd = Some k -> k_gone k = true ->
  R (Sys (up_inq (delete fd) (up_childs (List.filter (fun x => negb (c_fd x =? fd))) (master s))) (kids s))
    (delete fd a).
Proof.
  intros H Hk Hg. pose proof (r_kids _ _ H fd) as Hks. rewrite Hk, Hg in Hks.
  destruct H as [R1 R0 R2 R3 R4 R5 R6 R7 R8 R9]. split; cbn; try done.
  - rewrite map_filter_fd. by apply NoDup_ListNoDup, List.NoDup_filter, NoDup_ListNoDup.
  - intros x. rewrite map_filter_fd, list_elem_of_In, filter_In, <- list_elem_of_In, R5.
    destruct (Z.eqb_spec x fd) as [->|]; cbn.
    + rewrite lookup_delete_eq. split; [by intros [_ ?]|by intros []].
    + rewrite lookup_delete_ne by done. tauto.
  - intros c [Hc E]%list_elem_of_In%filter_In. apply list_elem_of_In in Hc.
    destruct (Z.eqb_spec (c_fd c) fd); [done|]. rewrite lookup_delete_ne by done. by apply R6.
  - intros x. destruct (decide (x = fd)) as [->|].
    + by rewrite !lookup_delete_eq.
    + by rewrite !lookup_delete_ne.
  - intros x. destruct (decide (x = fd)) as [->|].
    + by rewrite lookup_delete_eq.
    + rewrite lookup_delete_ne by done. apply R8.
  - intros x kx. destruct (decide (x = fd)) as [->|].
    + by rewrite lookup_delete_eq.
    + rewrite lookup_delete_ne by done. apply R9.
Qed.
Lemma sim_master_nothing fd k s a :
  R s a -> a !! fd = Some k -> k_up k = [] ->
  exists s', step (MasterRead fd) s = Some s' /\ R s' (if k_gone k then delete fd a else a).
Proof.
  intros H Hk Eu. assert (Hw := R_watched _ _ _ _ H Hk). cbn [step]. rewrite bool_decide_true by done.
  unfold run. rewrite (ipc_read_empty (Some fd) fd (k_gone k)); [|done|by intros c [= <-]|].
  2:{ rewrite (r_inq _ _ H), Hk. cbn. by rewrite Eu. }
  destruct (k_gone k) eqn:Eg.
  - unfold left_, bind at 1, bind at 1. rewrite (runs_b_log Hsock). cbn [mbind option_bind]. unfold close, bind, put, emit.
    eexists. split; [reflexivity|].
    set (p := up_inq (delete fd) (up_childs (List.filter (fun x => negb (c_fd x =? fd))) (master s))).
    match goal with |- R (Sys ?q _) _ => replace q with (and_tr [Logged Log.W_INFO "IPC: a child left: "; CloseFd fd] p) end.
    2:{ unfold and_tr, up_tr. cbn. by rewrite <- app_assoc. }
    apply R_quiet; [by eapply R_delete|done..].
  - cbn [mbind option_bind]. eexists. split; [reflexivity|].
    rewrite <- (and_tr_nil (master s)) at 3. rewrite <- (and_tr_nil (master s)) at 1.
    apply R_quiet; [by destruct s|done..].
Qed.

(** ** A new client *)

Definition full (p : proc) : bool := (0 <? maxcon p) && (maxcon p <=? Z.of_nat (length (childs p))).
Definition with_child (conn fd kfd : Z) (p : proc) : proc :=
  up_inq (fun q => delete kfd (delete conn (insert fd (Queue "" false) (insert kfd (Queue "" false) q))))
    (up_childs (fun l => l ++ [Child fd ""]) p).
Lemma b_log_master (e : IpcEnv) f t p : irc p = false -> b_log (ienv := e) f t p = (and_tr [Logged f t] p, Done tt).
Proof. intros H. unfold b_log, bind, get. by rewrite H. Qed.

Lemma new_client_full conn fd kfd pid p :
  0 <= conn -> full p = true ->
  new_client_cb (ienv := kernel conn fd kfd pid) p
  = (and_tr [WriteFd conn too_much; CloseFd conn] (up_inq (delete conn) p), Done true).
Proof.
  intros Hc Hf. unfold new_client_cb, ask, bind at 1, get at 1. cbn [accept kernel].
  destruct (Z.ltb_spec conn 0); [lia|]. unfold bind at 1, get at 1. unfold bind at 1, get at 1.
  unfold full in Hf. rewrite Hf. unfold bind, close, emit, put, bind, ret, and_tr, up_tr, up_inq. cbn.
  by rewrite <- app_assoc.
Qed.
Lemma new_client_parent conn fd kfd pid p :
  irc p = false -> 0 <= conn -> 0 <= fd -> 0 < pid -> full p = false ->
  new_client_cb (ienv := kernel conn fd kfd pid) p
  = (and_tr [Forked pid; Logged Log.W_INFO ("Creating new process with pid " +:+ t2s pid);
             CloseFd conn; CloseFd kfd] (with_child conn fd kfd p), Done true).
Proof.
  intros Hi Hc Hf Hp Hfull. unfold new_client_cb, ask, bind at 1, get at 1. cbn [accept kernel].
  destruct (Z.ltb_spec conn 0); [lia|]. unfold bind at 1, get at 1. unfold bind at 1, get at 1.
  unfold full in Hfull. rewrite Hfull. unfold bind at 1, get at 1. cbn [socketpair kernel].
  unfold bind at 1, bind at 1, put at 1, ret at 1. unfold bind at 1, get at 1. cbn [fork kernel].
  unfold bind at 1, emit at 1, put at 1. destruct (Z.ltb_spec pid 0); [lia|]. destruct (Z.ltb_spec 0 pid); [|lia].
  unfold bind at 1. rewrite b_log_master by done. unfold bind at 1, close at 1, bind at 1, put at 1, emit at 1, put at 1.
  cbn [fst snd]. destruct (Z.leb_spec 0 fd); [|lia].
  unfold bind, put, close, bind, put, emit, put, ret, and_tr, with_child, up_tr, up_inq, up_childs. cbn.
  by rewrite <- !app_assoc.
Qed.
Lemma mapM_close l p :
  exists p', mapM_ (fun c => close (c_fd c)) l p = (p', Done tt) /\ irc p' = irc p /\ sock p' = sock p
    /\ visible (tr p') = visible (tr p)
    /\ forall x, (x ∉ map c_fd l) -> inq p' !! x = inq p !! x.
Proof.
  revert p. induction l as [|c l IH]; intros p; cbn [mapM_].
  - by exists p.
  - unfold bind at 1, close at 1, bind at 1, put at 1, emit at 1, put at 1.
    destruct (IH (up_tr (fun t => t ++ [CloseFd (c_fd c)]) (up_inq (delete (c_fd c)) p))) as (p' & -> & Hi & Hs & Hv & Hq).
    exists p'. split_and!; [done..| |].
    + rewrite Hv. cbn. by rewrite visible_app, app_nil_r.
    + cbn. intros x [Hx Hl]%not_elem_of_cons. rewrite Hq by done. cbn. by rewrite lookup_delete_ne.
Qed.
Lemma new_client_kid conn fd kfd p :
  irc p = false -> 0 <= conn -> 0 <= kfd -> full p = false ->
  kfd <> sock p -> kfd <> fd -> (kfd ∉ map c_fd (childs p)) -> visible (tr p) = [] ->
  exists p', new_client_cb (ienv := kernel conn fd kfd 0) p = (p', Done true)
    /\ kid_ok (AK "" [] [] [] false 0) p'.
Proof.
  intros Hi Hc Hk Hfull Hs Hf Hl Hv. unfold new_client_cb, ask, bind at 1, get at 1. cbn [accept kernel].
  destruct (Z.ltb_spec conn 0); [lia|]. unfold bind at 1, get at 1. unfold bind at 1, get at 1.
  unfold full in Hfull. rewrite Hfull. unfold bind at 1, get at 1. cbn [socketpair kernel].
  unfold bind at 1, bind at 1, put at 1, ret at 1. unfold bind at 1, get at 1. cbn [fork kernel].
  unfold bind at 1, emit at 1, put at 1. cbn [Z.ltb Z.compare].
  unfold bind at 1, new_child, bind at 1, get at 1. unfold bind at 1, close at 1, bind at 1, put at 1, emit at 1, put at 1.
  unfold bind at 1, put at 1. unfold bind at 1, put at 1. unfold bind at 1. cbn [fst snd].
  destruct (Z.leb_spec 0 kfd); [|lia]. unfold bind at 1, put at 1. unfold bind at 1, put at 1.
  unfold bind at 1, close at 1, bind at 1, put at 1, emit at 1, put at 1.
  unfold close_childs at 1, bind at 1, get at 1. unfold bind at 1.
  match goal with |- context [mapM_ _ ?l ?q] =>
    destruct (mapM_close l q) as (p1 & -> & Hi1 & Hs1 & Hv1 & Hq1) end.
  unfold put at 1. unfold bind at 1, ask, get at 1. cbn [irc_error kernel]. rewrite Hirc.
  unfold bind at 1, emit at 1, put at 1. unfold put at 1, ret at 1. eexists. split; [reflexivity|].
  split; cbn.
  - done.
  - by rewrite Hs1.
  - rewrite Hs1. cbn. rewrite Hq1 by done. cbn. rewrite lookup_delete_ne by done.
    rewrite lookup_delete_ne by done. rewrite lookup_insert_ne by done. by rewrite lookup_insert_eq.
  - rewrite visible_app, Hv1. cbn. by rewrite !visible_app, Hv.
Qed.

Lemma size_childs s a : R s a -> size a = length (childs (master s)).
Proof.
  intros H. rewrite <- (length_map c_fd), <- size_dom, <- (size_list_to_set (C := gset Z)) by apply H.
  f_equal. apply set_eq. intros x. rewrite elem_of_dom, elem_of_list_to_set. symmetry. apply H.
Qed.
Lemma unused_spec a x : unused lfd a x = true -> 0 <= x /\ x <> lfd /\ a_kids a !! x = None.
Proof.
  unfold unused. rewrite !andb_true_iff, negb_true_iff. intros [[H1 H2] H3].
  apply bool_decide_eq_true in H3. split_and!; [lia|lia|done].
Qed.
Lemma valid_new_spec conn fd kfd pid a :
  valid_new lfd conn fd kfd pid a = true ->
  (0 <= conn /\ conn <> lfd /\ a_kids a !! conn = None) /\ (0 <= fd /\ fd <> lfd /\ a_kids a !! fd = None)
  /\ (0 <= kfd /\ kfd <> lfd /\ a_kids a !! kfd = None) /\ fd <> kfd /\ conn <> fd /\ conn <> kfd /\ 0 < pid.
Proof.
  unfold valid_new. rewrite !andb_true_iff, !negb_true_iff.
  intros [[[[[[H1%unused_spec H2%unused_spec] H3%unused_spec] H4] H5] H6] H7].
  split_and!; try apply H1; try apply H2; try apply H3; lia.
Qed.
Lemma R_add conn fd kfd p kp n ks a :
  R (Sys p ks) a -> kid_ok (AK "" [] [] [] false 0) kp ->
  a !! fd = None -> a !! conn = None -> a !! kfd = None -> fd <> conn -> fd <> kfd ->
  R (Sys (with_child conn fd kfd p) (<[fd := kp]> ks)) (<[fd := AK "" [] [] [] false n]> a).
Proof.
  intros H [K1 K2 K3 K4] Hf Hc Hk N1 N2. pose proof (r_dom _ _ H fd) as D. cbn in D. rewrite Hf in D.
  destruct H as [R1 R0 R2 R3 R4 R5 R6 R7 R8 R9]. cbn in *. split; cbn; try done.
  - rewrite map_app. apply NoDup_app. split_and!; [done| |apply NoDup_singleton].
    intros x Hx ->%list_elem_of_singleton. by apply D in Hx as [].
  - intros x. rewrite map_app, elem_of_app, R5. cbn. rewrite list_elem_of_singleton.
    destruct (decide (x = fd)) as [->|]; [rewrite lookup_insert_eq|rewrite lookup_insert_ne by done].
    + split; [by eexists|by right].
    + split; [by intros [|]|by left].
  - intros c [Hin| ->%list_elem_of_singleton]%elem_of_app; [|by rewrite lookup_insert_eq].
    rewrite lookup_insert_ne; [by apply R6|]. intros ->. destruct (proj1 D) as []; [|done].
    apply list_elem_of_In, in_map. by apply list_elem_of_In.
  - intros x. destruct (decide (x = fd)) as [->|Hx].
    { by rewrite !lookup_delete_ne, !lookup_insert_eq. }
    rewrite (lookup_insert_ne a) by done. rewrite <- R7.
    destruct (decide (x = kfd)) as [->|]; [by rewrite lookup_delete_eq, R7, Hk|].
    rewrite lookup_delete_ne by done.
    destruct (decide (x = conn)) as [->|]; [by rewrite lookup_delete_eq, R7, Hc|].
    by rewrite lookup_delete_ne, !lookup_insert_ne.
  - intros x. destruct (decide (x = fd)) as [->|].
    + rewrite lookup_insert_eq. cbn. exists kp. by rewrite lookup_insert_eq.
    + rewrite !lookup_insert_ne by done. apply R8.
  - intros x kx. destruct (decide (x = fd)) as [->|].
    + rewrite lookup_insert_eq. intros [= <-]. by split.
    + rewrite lookup_insert_ne by done. apply R9.
Qed.
Lemma R_and_tr p ks a t : R (Sys p ks) a -> visible t = [] -> R (Sys (and_tr t p) ks) a.
Proof. intros [] Hv. split; cbn in *; try done. rewrite visible_app. by rewrite r_visible0. Qed.
Lemma sim_new conn fd kfd pid s a a' :
  R s (a_kids a) -> a_step lfd (New conn fd kfd pid) a = Some a' ->
  exists s', step (New conn fd kfd pid) s = Some s' /\ R s' (a_kids a').
Proof.
  intros H. cbn [a_step]. destruct (valid_new _ _ _ _ _ _) eqn:V; [|done]. cbn [negb].
  destruct (valid_new_spec _ _ _ _ _ V) as ((C1 & C2 & C3) & (F1 & F2 & F3) & (K1 & K2 & K3) & N1 & N2 & N3 & Hp).
  destruct s as [p ks]. pose proof (size_childs _ _ H) as Hsz. cbn [master] in Hsz. rewrite Hsz.
  assert (Hmax := r_max _ _ H). cbn [master] in Hmax. rewrite <- Hmax.
  assert (Hirc0 := r_irc _ _ H). assert (Hsk := r_sock _ _ H). assert (Hvis := r_visible _ _ H).
  cbn [master] in Hirc0, Hsk, Hvis. cbn [step master]. unfold run. fold (full p).
  destruct (full p) eqn:Hfull.
  - intros [= <-]. rewrite !new_client_full by done. cbn [mbind option_bind]. eexists. split; [reflexivity|].
    assert (Ed : up_inq (delete conn) p = p).
    { destruct p. unfold up_inq. cbn. f_equal. apply delete_id. pose proof (r_inq _ _ H conn) as E.
      cbn in E. by rewrite E, C3. }
    rewrite Ed, news_and. cbn [forked existsb]. by apply R_and_tr.
  - intros [= <-]. rewrite (new_client_parent conn fd kfd pid p Hirc0 C1 F1 Hp Hfull).
    destruct (new_client_kid conn fd kfd p) as (kp & -> & Hkp); try done.
    { congruence. }
    { intros Hin. apply (r_dom _ _ H) in Hin as [x Hx]. by rewrite K3 in Hx. }
    cbn [mbind option_bind]. eexists. split; [reflexivity|].
    set (t := Forked pid :: _). change (news p (and_tr t (with_child conn fd kfd p))) with (news p (and_tr t p)).
    rewrite news_and. cbn [forked existsb orb t]. cbn [a_kids kids]. subst t. apply R_and_tr; [|done].
    apply R_add; try done.
Qed.

(** ** The simulation *)

Lemma sim_step l s a a' :
  R s (a_kids a) -> a_step lfd l a = Some a' -> exists s', step l s = Some s' /\ R s' (a_kids a').
Proof.
  intros H. destruct l as [conn fd kfd pid|fd m|fd|fd|fd].
  - by apply sim_new.
  - cbn [a_step]. destruct (a_kids a !! fd) as [k|] eqn:Hk; [|done]. cbn [mbind option_bind].
    destruct (k_gone k) eqn:Hg; [done|]. destruct (carried m) eqn:Hc; [|done]. intros [= <-].
    by eapply sim_send.
  - cbn [a_step]. destruct (a_kids a !! fd) as [k|] eqn:Hk; [|done]. cbn [mbind option_bind].
    destruct (k_up k) as [|m up] eqn:Eu; intros [= <-].
    + destruct (sim_master_nothing fd k s (a_kids a) H Hk Eu) as (s' & Hs & HR). exists s'. split; [done|].
      by destruct (k_gone k).
    + by eapply sim_master_message.
  - cbn [a_step]. destruct (a_kids a !! fd) as [k|] eqn:Hk; [|done]. cbn [mbind option_bind].
    destruct (k_gone k) eqn:Hg; [done|].
    destruct (sim_kid_read fd k s (a_kids a) H Hk Hg) as (s' & Hs & HR).
    intros E. exists s'. split; [done|]. destruct (k_down k); by injection E as <-.
  - cbn [a_step]. destruct (a_kids a !! fd) as [k|] eqn:Hk; [|done]. cbn [mbind option_bind].
    destruct (k_gone k) eqn:Hg; [done|]. intros [= <-]. by eapply sim_exit.
Qed.
Lemma sim_steps ls s a a' :
  R s (a_kids a) -> a_steps lfd ls a = Some a' -> exists s', steps ls s = Some s' /\ R s' (a_kids a').
Proof.
  revert s a. induction ls as [|l ls IH]; intros s a H; cbn [a_steps steps].
  - intros [= <-]. by exists s.
  - destruct (a_step lfd l a) as [a1|] eqn:E; [|done]. cbn [mbind option_bind].
    destruct (sim_step l s a a1 H E) as (s1 & -> & H1). cbn [mbind option_bind]. by apply IH.
Qed.
Lemma R_init : R (init lfd) (a_kids a_init).
Proof.
  split; cbn; try done.
  - constructor.
  - intros fd. rewrite lookup_empty. split; [by intros ?%not_elem_of_nil|by intros []].
  - by intros c ?%not_elem_of_nil.
Qed.
End Sim.
End Sim.
