(* ===== verification/IpcSpec.v ===== *)
(** What the daemon of daemon_fork.cpp promises: the number of children, the order
    of the broadcasts, one session for a user, and where the sockets get stuck. *)

From S2P Require Import Prelude Util Message Log World Effects Ipc IpcSystem IpcRefine IpcSim.
Import Eff Ipc Sys Refine Sim.

(** ** Invariants of the abstract system *)

Definition box (k : akid) : list message := k_got k ++ k_down k.
Definition told (k : akid) : bool := existsb (is_cmd "DIE") (box k).
(** Of two sessions with the same name one was told to leave. *)
Definition one_each (a : gmap Z akid) : Prop :=
  forall i j ki kj, i <> j -> a !! i = Some ki -> a !! j = Some kj ->
    k_gone ki = false -> k_gone kj = false -> k_user ki <> "" ->
    same_name (k_user ki) (k_user kj) = true -> told ki || told kj = true.
(** Every child gets the WALLOPS passed on since it came, in that order. *)
Definition in_order (h : list message) (k : akid) : Prop :=
  (k_from k <= length h)%nat /\ (k_gone k = false -> List.filter is_wallops (box k) = drop (k_from k) h).
Record inv (a : abs) : Prop := {
  inv_one : one_each (a_kids a);
  inv_order : forall i k, a_kids a !! i = Some k -> in_order (a_hist a) k }.

Lemma box_push m k : k_gone k = false -> box (push m k) = box k ++ [m].
Proof. intros E. unfold push, box. rewrite E. cbn. by rewrite app_assoc. Qed.
Lemma told_app k l : existsb (is_cmd "DIE") (box k ++ l) = told k || existsb (is_cmd "DIE") l.
Proof. apply existsb_app. Qed.
Lemma same_name_sym a b : same_name a b = same_name b a.
Proof. apply String.eqb_sym. Qed.

(** A child after the routing of a message. *)
Definition name_of (fd : Z) (m : message) (x : Z) (k : akid) : akid :=
  if is_cmd "USER" m && (x =? fd) then AK (arg0 m) (k_up k) (k_down k) (k_got k) (k_gone k) (k_from k) else k.
Definition after_route (fd : Z) (m : message) (x : Z) (k : akid) : akid :=
  let k := name_of fd m x k in if goes_to fd m x (k_user k) then push (routed m) k else k.
Lemma route_lookup fd m a x : route fd m a !! x = after_route fd m x <$> a !! x.
Proof.
  unfold route, to, named, after_route, name_of. rewrite map_lookup_imap. destruct (is_cmd "USER" m); cbn [andb].
  - destruct (Z.eqb_spec x fd) as [->|].
    + rewrite lookup_alter_eq. by destruct (a !! fd).
    + rewrite lookup_alter_ne by done. by destruct (a !! x).
  - by destruct (a !! x).
Qed.
Lemma after_route_gone fd m x k : k_gone (after_route fd m x k) = k_gone k.
Proof.
  unfold after_route, name_of, push. repeat case_match; cbn in *; congruence.
Qed.
Lemma after_route_from fd m x k : k_from (after_route fd m x k) = k_from k.
Proof. unfold after_route, name_of, push. repeat case_match; cbn in *; congruence. Qed.
Lemma after_route_user fd m x k : k_user (after_route fd m x k) = k_user (name_of fd m x k).
Proof. unfold after_route, push. repeat case_match; cbn in *; congruence. Qed.
Lemma name_of_box fd m x k : box (name_of fd m x k) = box k /\ k_gone (name_of fd m x k) = k_gone k.
Proof. unfold name_of. by destruct (_ && _). Qed.
Lemma after_route_box fd m x k :
  k_gone k = false ->
  box (after_route fd m x k)
  = box k ++ (if goes_to fd m x (k_user (name_of fd m x k)) then [routed m] else []).
Proof.
  intros Hg. destruct (name_of_box fd m x k) as [E1 E2]. unfold after_route. destruct (goes_to _ _ _ _).
  - by rewrite box_push, E1 by congruence.
  - by rewrite app_nil_r.
Qed.
Lemma told_after_route fd m x k : k_gone k = false -> told k = true -> told (after_route fd m x k) = true.
Proof. intros Hg Ht. unfold told. rewrite after_route_box by done. by rewrite told_app, Ht. Qed.

Lemma one_each_route fd m a : one_each a -> one_each (route fd m a).
Proof.
  intros H i j ki kj Hij. rewrite !route_lookup. intros (k1 & E1 & ->)%fmap_Some (k2 & E2 & ->)%fmap_Some.
  rewrite !after_route_gone, !after_route_user. intros G1 G2 Hne Hs.
  destruct (is_cmd "USER" m) eqn:Em.
  2:{ unfold name_of in *. rewrite Em in *. cbn [andb] in *.
      destruct (orb_true_elim _ _ (H i j k1 k2 Hij E1 E2 G1 G2 Hne Hs)) as [T|T];
        [by rewrite told_after_route|by rewrite (told_after_route _ _ j k2), orb_true_r]. }
  assert (New : forall x k, x <> fd -> k_gone k = false -> same_name (k_user k) (arg0 m) = true ->
                  told (after_route fd m x k) = true).
  { intros x k Hx Hg Hsame. unfold told. rewrite after_route_box, told_app by done. unfold name_of, goes_to, routed.
    rewrite Em. rewrite (proj2 (Z.eqb_neq x fd)) by done. cbn [andb negb]. rewrite Hsame. apply orb_true_r. }
  unfold name_of in Hne, Hs. rewrite Em in Hne, Hs. cbn [andb] in Hne, Hs.
  destruct (Z.eqb_spec i fd) as [->|Hi]; destruct (Z.eqb_spec j fd) as [->|Hj]; [done|..]; cbn in Hne, Hs.
  - rewrite (New j k2); [apply orb_true_r|done|done|]. by rewrite same_name_sym.
  - by rewrite (New i k1).
  - destruct (orb_true_elim _ _ (H i j k1 k2 Hij E1 E2 G1 G2 Hne Hs)) as [T|T];
      [by rewrite told_after_route|by rewrite (told_after_route _ _ j k2), orb_true_r].
Qed.
Lemma is_cmd_other c c' m : is_cmd c m = true -> c <> c' -> is_cmd c' m = false.
Proof. unfold is_cmd. intros ->%String.eqb_eq. by intros ?%String.eqb_neq. Qed.
Lemma in_order_route fd m x h k :
  in_order h k -> in_order (if is_wallops m then h ++ [m] else h) (after_route fd m x k).
Proof.
  intros [H1 H2]. split.
  - rewrite after_route_from. destruct (is_wallops m); [rewrite length_app|]; lia.
  - rewrite after_route_gone, after_route_from. intros Hg. rewrite after_route_box, List.filter_app, H2 by done.
    unfold is_wallops. destruct (is_cmd "WALLOPS" m) eqn:Ew.
    + unfold goes_to, routed. rewrite (is_cmd_other "WALLOPS" "USER"), (is_cmd_other "WALLOPS" "OPER"),
        (is_cmd_other "WALLOPS" "REHASH") by done.
      cbn [List.filter]. rewrite Ew. rewrite skipn_app.
      by replace (k_from k - length h)%nat with 0%nat by lia.
    + assert (Hr : is_cmd "WALLOPS" (routed m) = false).
      { unfold routed. destruct (is_cmd "USER" m); [done|]. by destruct (is_cmd "REHASH" m). }
      destruct (goes_to _ _ _ _); cbn; by rewrite ?Hr, app_nil_r.
Qed.

(** Another record for a child which hears no less. *)
Lemma inv_put i k k' a :
  inv a -> a_kids a !! i = Some k -> k_user k' = k_user k -> k_from k' = k_from k ->
  (k_gone k' = false -> k_gone k = false /\ box k' = box k) ->
  inv (Abs (<[i := k']> (a_kids a)) (a_hist a)).
Proof.
  intros [H1 H2] Hk Hu Hf Hb. split; cbn.
  - intros x y kx ky Hxy. destruct (decide (x = i)) as [->|Hx]; [rewrite lookup_insert_eq|rewrite lookup_insert_ne by done];
      (destruct (decide (y = i)) as [->|Hy]; [rewrite lookup_insert_eq|rewrite lookup_insert_ne by done]); try done.
    + intros [= <-] Ey G1 G2. destruct (Hb G1) as [G0 Eb]. unfold told at 1. rewrite Hu, Eb.
      exact (H1 i y k ky Hxy Hk Ey G0 G2).
    + intros Ex [= <-] G1 G2. destruct (Hb G2) as [G0 Eb]. unfold told at 2. rewrite Hu, Eb.
      exact (H1 x i kx k Hxy Ex Hk G1 G0).
    + by eapply H1.
  - intros x kx. destruct (decide (x = i)) as [->|Hx]; [rewrite lookup_insert_eq|rewrite lookup_insert_ne by done; apply H2].
    intros [= <-]. destruct (H2 i k Hk) as [L1 L2]. split; [by rewrite Hf|]. intros G. destruct (Hb G) as [G0 ->].
    rewrite Hf. by apply L2.
Qed.
Section Inv.
Context {ienv : IpcEnv} (lfd : Z).
Lemma inv_step l a a' : inv a -> a_step lfd l a = Some a' -> inv a'.
Proof.
  intros H. destruct l as [conn fd kfd pid|fd m|fd|fd|fd]; cbn [a_step].
  - destruct (valid_new _ _ _ _ _ _); [|done]. cbn [negb]. destruct (_ && _); [by intros [= <-]|].
    intros [= <-]. destruct H as [H1 H2]. split; cbn.
    + intros x y kx ky Hxy. destruct (decide (x = fd)) as [->|Hx]; [rewrite lookup_insert_eq; by intros [= <-]|].
      rewrite lookup_insert_ne by done. destruct (decide (y = fd)) as [->|Hy]; [rewrite lookup_insert_eq|rewrite lookup_insert_ne by done].
      * intros _ [= <-] _ _ Hne Hs. apply String.eqb_eq in Hs. cbn in Hs.
        destruct (k_user kx) as [|c u]; [done|]. by cbn in Hs.
      * by apply H1.
    + intros x kx. destruct (decide (x = fd)) as [->|]; [rewrite lookup_insert_eq|rewrite lookup_insert_ne by done; apply H2].
      intros [= <-]. split; [done|]. cbn. intros _. by rewrite drop_all.
  - destruct (a_kids a !! fd) as [k|] eqn:Hk; [|done]. cbn [mbind option_bind].
    destruct (k_gone k) eqn:Hg; [done|]. destruct (carried m); [|done]. intros [= <-]. by eapply inv_put.
  - destruct (a_kids a !! fd) as [k|] eqn:Hk; [|done]. cbn [mbind option_bind].
    destruct (k_up k) as [|m up]; intros [= <-].
    + destruct (k_gone k); [|done]. destruct H as [H1 H2]. split; cbn.
      * intros x y kx ky Hxy (_ & Ex)%lookup_delete_Some (_ & Ey)%lookup_delete_Some. by eapply H1.
      * intros x kx (_ & Ex)%lookup_delete_Some. by apply (H2 x).
    + set (k1 := AK _ up _ _ _ _).
      assert (I : inv (Abs (<[fd := k1]> (a_kids a)) (a_hist a))) by (by eapply inv_put).
      destruct I as [I1 I2]. split; cbn in *; [by apply one_each_route|].
      intros x kx. rewrite route_lookup. intros (k0 & E & ->)%fmap_Some. apply in_order_route. by eapply I2.
  - destruct (a_kids a !! fd) as [k|] eqn:Hk; [|done]. cbn [mbind option_bind].
    destruct (k_gone k) eqn:Hg; [done|]. destruct (k_down k) as [|m down] eqn:Ed; [by intros [= <-]|].
    intros [= <-]. eapply inv_put; [done|done|done|done|]. intros _. split; [done|].
    unfold box. cbn. by rewrite Ed, <- app_assoc.
  - destruct (a_kids a !! fd) as [k|] eqn:Hk; [|done]. cbn [mbind option_bind].
    destruct (k_gone k) eqn:Hg; [done|]. intros [= <-]. by eapply inv_put.
Qed.
Lemma inv_steps ls a a' : inv a -> a_steps lfd ls a = Some a' -> inv a'.
Proof.
  revert a. induction ls as [|l ls IH]; intros a H; cbn [a_steps]; [by intros [= <-]|].
  destruct (a_step lfd l a) as [a1|] eqn:E; [|done]. cbn [mbind option_bind]. apply IH. by eapply inv_step.
Qed.
Lemma inv_init : inv a_init.
Proof. split; cbn; intros ?; by intros. Qed.
End Inv.

(** ** Draining the queues *)

Definition is_read (l : label) : bool := match l with MasterRead _ | KidRead _ => true | _ => false end.

Section Drain.
Context {ienv : IpcEnv} (lfd : Z).

Lemma a_steps_app ls1 ls2 a : a_steps lfd (ls1 ++ ls2) a = a' ← a_steps lfd ls1 a; a_steps lfd ls2 a'.
Proof.
  revert a. induction ls1 as [|l ls1 IH]; intros a; cbn [app a_steps]; [done|].
  destruct (a_step lfd l a) as [a1|]; [|done]. cbn [mbind option_bind]. by rewrite IH.
Qed.
Lemma after_route_up fd m x k : k_up (after_route fd m x k) = k_up k.
Proof. unfold after_route, name_of, push. repeat case_match; cbn in *; congruence. Qed.

(** [f] of every child but [fd] stays. *)
Definition others {B} (f : akid -> B) (fd : Z) (a a' : abs) : Prop :=
  forall x, x <> fd -> f <$> a_kids a' !! x = f <$> a_kids a !! x.
Definition all_same {B} (f : akid -> B) (a a' : abs) : Prop :=
  forall x, f <$> a_kids a' !! x = f <$> a_kids a !! x.

Lemma drain_up fd k a :
  a_kids a !! fd = Some k ->
  exists a', a_steps lfd (repeat (MasterRead fd) (length (k_up k))) a = Some a'
    /\ all_same k_gone a a' /\ others k_up fd a a' /\ k_up <$> a_kids a' !! fd = Some [].
Proof.
  remember (k_up k) as up eqn:Eu. revert k a Eu. induction up as [|m up IH]; intros k a Eu Hk; cbn [length repeat a_steps].
  - exists a. split_and!; [done..|]. by rewrite Hk; cbn; rewrite <- Eu.
  - cbn [a_step]. rewrite Hk. cbn [mbind option_bind]. rewrite <- Eu. cbn [mbind option_bind].
    set (k1 := AK _ up _ _ _ _). set (ks := <[fd := k1]> (a_kids a)).
    destruct (IH (after_route fd m fd k1) (Abs (route fd m ks) (if is_wallops m then a_hist a ++ [m] else a_hist a)))
      as (a' & -> & H1 & H2 & H3).
    + by rewrite after_route_up.
    + cbn. rewrite route_lookup. unfold ks. by rewrite lookup_insert_eq.
    + assert (L : forall {B} (f : akid -> B), (forall x k, f (after_route fd m x k) = f k) ->
         forall x, f <$> route fd m ks !! x = f <$> ks !! x).
      { intros B f Hf x. rewrite route_lookup. destruct (ks !! x); [|done]. cbn. by rewrite Hf. }
      exists a'. split_and!; [done| | |done].
      * intros x. rewrite H1. cbn [a_kids]. rewrite (L _ k_gone) by apply after_route_gone. unfold ks.
        destruct (decide (x = fd)) as [->|]; [by rewrite lookup_insert_eq, Hk|by rewrite lookup_insert_ne].
      * intros x Hx. rewrite (H2 x Hx). cbn [a_kids]. rewrite (L _ k_up) by apply after_route_up. unfold ks.
        by rewrite lookup_insert_ne.
Qed.
Lemma drain_down fd k a :
  a_kids a !! fd = Some k -> k_gone k = false ->
  exists a', a_steps lfd (repeat (KidRead fd) (length (k_down k))) a = Some a'
    /\ all_same k_gone a a' /\ all_same k_up a a' /\ others k_down fd a a'
    /\ k_down <$> a_kids a' !! fd = Some [].
Proof.
  remember (k_down k) as down eqn:Ed. revert k a Ed.
  induction down as [|m down IH]; intros k a Ed Hk Hg; cbn [length repeat a_steps].
  - exists a. split_and!; [done..|]. by rewrite Hk; cbn; rewrite <- Ed.
  - cbn [a_step]. rewrite Hk. cbn [mbind option_bind]. rewrite Hg, <- Ed. cbn [mbind option_bind].
    set (k1 := AK _ _ down _ _ _). destruct (IH k1 (Abs (<[fd := k1]> (a_kids a)) (a_hist a)))
      as (a' & -> & H1 & H2 & H3 & H4); [done|apply lookup_insert_eq|done|].
    exists a'. split_and!; [done| | | |done]; intros x; [rewrite H1|rewrite H2|intros Hx; rewrite (H3 x Hx)]; cbn [a_kids];
      (destruct (decide (x = fd)) as [->|]; [rewrite lookup_insert_eq, ?Hk|by rewrite lookup_insert_ne]); cbn; congruence.
Qed.

(** The queues of the children of [l]. *)
Lemma drain_ups (l : list Z) a :
  exists ls a', Forall (fun x => is_read x = true) ls /\ a_steps lfd ls a = Some a' /\ all_same k_gone a a'
    /\ (forall x k, a_kids a' !! x = Some k -> x ∈ l \/ k_up <$> a_kids a !! x = Some [] -> k_up k = []).
Proof.
  induction l as [|fd l IH] in a |- *.
  - exists [], a. split_and!; [constructor|done|done|]. intros x k Hx [?%not_elem_of_nil|E]; [done|].
    rewrite Hx in E. by injection E.
  - destruct (a_kids a !! fd) as [k|] eqn:Hk.
    + destruct (drain_up fd k a Hk) as (a1 & S1 & G1 & O1 & U1).
      destruct (IH a1) as (ls & a' & F & S & G & U). exists (repeat (MasterRead fd) (length (k_up k)) ++ ls), a'.
      split_and!.
      * apply Forall_app. split; [|done]. apply Forall_forall. by intros x ->%list_elem_of_In%repeat_spec.
      * rewrite a_steps_app, S1. cbn. done.
      * intros x. by rewrite G, G1.
      * intros x kx Hx Hor. apply (U x kx Hx). destruct (decide (x = fd)) as [->|Hn]; [by right|].
        rewrite (O1 x Hn). destruct Hor as [[?|?]%elem_of_cons|E]; tauto.
    + destruct (IH a) as (ls & a' & F & S & G & U). exists ls, a'. split_and!; [done..|].
      intros x kx Hx Hor. apply (U x kx Hx). destruct (decide (x = fd)) as [->|Hn].
      * pose proof (G fd) as E. by rewrite Hk, Hx in E.
      * destruct Hor as [[?|?]%elem_of_cons|E]; tauto.
Qed.
Lemma drain_downs (l : list Z) a :
  exists ls a', Forall (fun x => is_read x = true) ls /\ a_steps lfd ls a = Some a' /\ all_same k_up a a'
    /\ (forall x k, a_kids a' !! x = Some k -> k_gone k = false ->
         x ∈ l \/ k_down <$> a_kids a !! x = Some [] -> k_down k = []).
Proof.
  cut (exists ls a', Forall (fun x => is_read x = true) ls /\ a_steps lfd ls a = Some a' /\ all_same k_up a a'
    /\ all_same k_gone a a' /\ (forall x k, a_kids a' !! x = Some k -> k_gone k = false ->
         x ∈ l \/ k_down <$> a_kids a !! x = Some [] -> k_down k = [])).
  { intros (ls & a' & H1 & H2 & H3 & _ & H4). by exists ls, a'. }
  induction l as [|fd l IH] in a |- *.
  - exists [], a. split_and!; [constructor|done..|]. intros x k Hx _ [?%not_elem_of_nil|E]; [done|].
    rewrite Hx in E. by injection E.
  - destruct (a_kids a !! fd) as [k|] eqn:Hk; [destruct (k_gone k) eqn:Hg|].
    2:{ destruct (drain_down fd k a Hk Hg) as (a1 & S1 & G1 & U1 & O1 & D1).
      destruct (IH a1) as (ls & a' & F & S & U & G & D). exists (repeat (KidRead fd) (length (k_down k)) ++ ls), a'.
      split_and!.
      * apply Forall_app. split; [|done]. apply Forall_forall. by intros x ->%list_elem_of_In%repeat_spec.
      * rewrite a_steps_app, S1. cbn. done.
      * intros x. by rewrite U, U1.
      * intros x. by rewrite G, G1.
      * intros x kx Hx Hgx Hor. apply (D x kx Hx Hgx). destruct (decide (x = fd)) as [->|Hn]; [by right|].
        rewrite (O1 x Hn). destruct Hor as [[?|?]%elem_of_cons|E]; tauto. }
    all: destruct (IH a) as (ls & a' & F & S & U & G & D); exists ls, a'; split_and!; [done..|];
      intros x kx Hx Hgx Hor; apply (D x kx Hx Hgx); (destruct (decide (x = fd)) as [->|Hn];
        [pose proof (G fd) as E; rewrite Hk, Hx in E; cbn in E; congruence
        |destruct Hor as [[?|?]%elem_of_cons|E]; tauto]).
Qed.

(** Nothing is on the way. *)
Definition quiet (a : abs) : Prop :=
  forall x k, a_kids a !! x = Some k -> k_up k = [] /\ (k_gone k = false -> k_down k = []).
Lemma drain a :
  exists ls a', Forall (fun x => is_read x = true) ls /\ a_steps lfd ls a = Some a' /\ quiet a'.
Proof.
  destruct (drain_ups (map_to_list (a_kids a)).*1 a) as (l1 & a1 & F1 & S1 & G1 & U1).
  destruct (drain_downs (map_to_list (a_kids a1)).*1 a1) as (l2 & a2 & F2 & S2 & U2 & D2).
  assert (K : forall (ks : gmap Z akid) x k, ks !! x = Some k -> x ∈ (map_to_list ks).*1).
  { intros ks x k E. apply list_elem_of_fmap. exists (x, k). split; [done|]. by apply elem_of_map_to_list. }
  exists (l1 ++ l2), a2. split_and!; [by apply Forall_app|by rewrite a_steps_app, S1|].
  assert (Same : forall x k, a_kids a2 !! x = Some k -> exists k1, a_kids a1 !! x = Some k1 /\ k_up k1 = k_up k).
  { intros x k Hx. pose proof (U2 x) as E. rewrite Hx in E. cbn in E.
    destruct (a_kids a1 !! x) as [k1|]; [|done]. exists k1. split; [done|]. by injection E. }
  intros x k Hx. destruct (Same x k Hx) as (k1 & Hx1 & E1). split.
  - rewrite <- E1. apply (U1 x k1 Hx1). left. pose proof (G1 x) as E. rewrite Hx1 in E. cbn in E.
    destruct (a_kids a !! x) as [k0|] eqn:E0; [|done]. by eapply K.
  - intros Hg. apply (D2 x k Hx Hg). left. by eapply K.
Qed.
End Drain.

(** ** What the master read *)

(** The messages of a run in the order in which the master reads them: each child sends
    its own in its order, and one is read at a time. *)
Definition waiting (q : gmap Z (list message)) (fd : Z) : list message := default [] (q !! fd).
Fixpoint read_by_master (ls : list label) (q : gmap Z (list message)) : list message :=
  match ls with
  | [] => []
  | Send fd m :: ls => read_by_master ls (<[fd := waiting q fd ++ [m]]> q)
  | MasterRead fd :: ls =>
    match waiting q fd with
    | [] => read_by_master ls q
    | m :: l => m :: read_by_master ls (<[fd := l]> q)
    end
  | _ :: ls => read_by_master ls q
  end.
Definition wallops_read (ls : list label) : list message := List.filter is_wallops (read_by_master ls ∅).

Section MasterReads.
Context {ienv : IpcEnv} (lfd : Z).
Definition agrees (q : gmap Z (list message)) (a : abs) : Prop :=
  forall x, waiting q x = default [] (k_up <$> a_kids a !! x).
Lemma waiting_insert q fd l x : waiting (<[fd := l]> q) x = if bool_decide (x = fd) then l else waiting q x.
Proof.
  unfold waiting. case_bool_decide as H; [subst; by rewrite lookup_insert_eq|by rewrite lookup_insert_ne].
Qed.
Lemma agrees_put q a fd k k' h : agrees q a -> a_kids a !! fd = Some k ->
  agrees (<[fd := k_up k']> q) (Abs (<[fd := k']> (a_kids a)) h).
Proof.
  intros H Hk x. rewrite waiting_insert. cbn. case_bool_decide as E; [subst; by rewrite lookup_insert_eq|].
  rewrite lookup_insert_ne by done. apply H.
Qed.
Lemma agrees_same q a fd k k' h : agrees q a -> a_kids a !! fd = Some k -> k_up k' = k_up k ->
  agrees q (Abs (<[fd := k']> (a_kids a)) h).
Proof.
  intros H Hk E x. cbn. destruct (decide (x = fd)) as [->|Hx]; [rewrite lookup_insert_eq|by rewrite lookup_insert_ne].
  rewrite H, Hk. cbn. by rewrite E.
Qed.
Lemma hist_reads ls q a a' : agrees q a -> a_steps lfd ls a = Some a' ->
  a_hist a' = a_hist a ++ List.filter is_wallops (read_by_master ls q).
Proof.
  revert q a. induction ls as [|l ls IH]; intros q a H; cbn [a_steps read_by_master].
  { intros [= <-]. by rewrite app_nil_r. }
  destruct (a_step lfd l a) as [a1|] eqn:E; [|done]. cbn [mbind option_bind].
  destruct l as [conn fd kfd pid|fd m|fd|fd|fd]; cbn [a_step] in E.
  - destruct (valid_new _ _ _ _ _ _) eqn:V; [|done]. cbn [negb] in E. destruct (_ && _).
    { injection E as <-. by apply IH. }
    injection E as <-. apply (IH q (Abs _ (a_hist a))). intros x. cbn.
    destruct (decide (x = fd)) as [->|]; [rewrite lookup_insert_eq|by rewrite lookup_insert_ne].
    rewrite H. destruct (a_kids a !! fd) as [k|] eqn:Hk; [|done]. exfalso. unfold valid_new, unused in V.
    rewrite Hk, (bool_decide_false (Some k = None)), !andb_false_r in V by done. by cbn in V.
  - destruct (a_kids a !! fd) as [k|] eqn:Hk; [|done]. cbn [mbind option_bind] in E.
    destruct (k_gone k || _); [done|]. injection E as <-. apply (IH _ (Abs _ (a_hist a))).
    rewrite H, Hk. cbn. by apply (agrees_put q a fd k (AK _ (k_up k ++ [m]) _ _ _ _)).
  - destruct (a_kids a !! fd) as [k|] eqn:Hk; [|done]. cbn [mbind option_bind] in E. rewrite H, Hk. cbn.
    destruct (k_up k) as [|m up] eqn:Eu; injection E as <-.
    + destruct (k_gone k); [|by apply IH]. apply (IH q (Abs _ (a_hist a))). intros x. cbn.
      destruct (decide (x = fd)) as [->|]; [rewrite lookup_delete_eq|by rewrite lookup_delete_ne].
      rewrite H, Hk. cbn. by rewrite Eu.
    + set (k1 := AK _ up _ _ _ _). set (a1 := Abs _ _). intros Hs. cbn [List.filter].
      assert (G : agrees (<[fd := up]> q) a1).
      { intros x. cbn. rewrite route_lookup. pose proof (agrees_put q a fd k k1 [] H Hk x) as G. cbn in G.
        rewrite G. destruct (_ !! x); [|done]. cbn. by rewrite after_route_up. }
      rewrite (IH _ _ G Hs). cbn [a_hist a1]. destruct (is_wallops m); [by rewrite <- app_assoc|done].
  - destruct (a_kids a !! fd) as [k|] eqn:Hk; [|done]. cbn [mbind option_bind] in E.
    destruct (k_gone k); [done|]. destruct (k_down k); injection E as <-; [by apply IH|].
    apply (IH q (Abs _ (a_hist a))). by eapply agrees_same.
  - destruct (a_kids a !! fd) as [k|] eqn:Hk; [|done]. cbn [mbind option_bind] in E.
    destruct (k_gone k); [done|]. injection E as <-. apply (IH q (Abs _ (a_hist a))). by eapply agrees_same.
Qed.
Lemma hist_read ls a : a_steps lfd ls a_init = Some a -> a_hist a = wallops_read ls.
Proof. intros H. apply (hist_reads ls ∅ a_init); [|done]. intros x. unfold waiting. by rewrite lookup_empty. Qed.

(** A child was made by one of the labels. *)
Lemma step_from l a a' x k' : a_step lfd l a = Some a' -> a_kids a' !! x = Some k' ->
  (exists k, a_kids a !! x = Some k /\ k_from k' = k_from k)
  \/ exists conn kfd pid, l = New conn x kfd pid /\ k_from k' = length (a_hist a).
Proof.
  assert (Put : forall (ks : gmap Z akid) fd k k1, ks !! fd = Some k -> k_from k1 = k_from k -> <[fd := k1]> ks !! x = Some k' ->
    exists k, ks !! x = Some k /\ k_from k' = k_from k).
  { intros ks fd k k1 Hk Hf. destruct (decide (x = fd)) as [->|]; [rewrite lookup_insert_eq; intros [= <-]; eauto|].
    rewrite lookup_insert_ne by done. eauto. }
  destruct l as [conn fd kfd pid|fd m|fd|fd|fd]; cbn [a_step].
  - destruct (valid_new _ _ _ _ _ _); [|done]. cbn [negb]. destruct (_ && _); intros [= <-]; [by eauto|]. cbn.
    destruct (decide (x = fd)) as [->|]; [rewrite lookup_insert_eq; intros [= <-]; right; by eexists _, _, _|].
    rewrite lookup_insert_ne by done. eauto.
  - destruct (a_kids a !! fd) as [k|] eqn:Hk; [|done]. cbn [mbind option_bind]. destruct (k_gone k || _); [done|].
    intros [= <-] Hx. left. by refine (Put _ _ _ _ Hk _ Hx).
  - destruct (a_kids a !! fd) as [k|] eqn:Hk; [|done]. cbn [mbind option_bind].
    destruct (k_up k) as [|m up]; intros [= <-] Hx; left.
    + destruct (k_gone k); [|by eauto]. cbn in Hx. apply lookup_delete_Some in Hx as [_ Hx]. eauto.
    + cbn in Hx. rewrite route_lookup in Hx. apply fmap_Some in Hx as (k0 & Hx & ->). rewrite after_route_from.
      destruct (decide (x = fd)) as [->|]; [rewrite lookup_insert_eq in Hx; injection Hx as <-; eauto|].
      rewrite lookup_insert_ne in Hx by done. eauto.
  - destruct (a_kids a !! fd) as [k|] eqn:Hk; [|done]. cbn [mbind option_bind].
    destruct (k_gone k); [done|]. destruct (k_down k); intros [= <-] Hx; left; [by eauto|by refine (Put _ _ _ _ Hk _ Hx)].
  - destruct (a_kids a !! fd) as [k|] eqn:Hk; [|done]. cbn [mbind option_bind].
    destruct (k_gone k); [done|]. intros [= <-] Hx. left. by refine (Put _ _ _ _ Hk _ Hx).
Qed.
Lemma kid_came ls a x k : a_steps lfd ls a_init = Some a -> a_kids a !! x = Some k ->
  exists before conn kfd pid after, ls = before ++ New conn x kfd pid :: after
    /\ k_from k = length (wallops_read before).
Proof.
  revert a k. induction ls as [|l ls IH] using rev_ind; intros a k; [intros [= <-] Hx; cbn in Hx; by rewrite lookup_empty in Hx|].
  rewrite a_steps_app. destruct (a_steps lfd ls a_init) as [a1|] eqn:E; [|done]. cbn [mbind option_bind a_steps].
  destruct (a_step lfd l a1) as [a2|] eqn:E2; [|done]. cbn [mbind option_bind]. intros [= <-] Hx.
  destruct (step_from _ _ _ _ _ E2 Hx) as [(k1 & Hk1 & ->)|(conn & kfd & pid & -> & ->)].
  - destruct (IH a1 k1 eq_refl Hk1) as (b & c & f & p & r & -> & ->). exists b, c, f, p, (r ++ [l]).
    by rewrite <- app_assoc.
  - exists ls, conn, kfd, pid, []. split; [done|]. by rewrite (hist_read ls a1 E).
Qed.
End MasterReads.

(** ** The promises *)

Definition is_send (e : ev) : bool := match e with UserSend _ => true | _ => false end.
Lemma sends_visible_filter t : List.filter is_send t = List.filter is_send (visible t).
Proof. induction t as [|e t IH]; [done|]. destruct e; cbn; by rewrite ?IH. Qed.
Lemma shown_sends l : List.filter is_send (flat_map shown l) = flat_map shown (List.filter is_wallops l).
Proof.
  induction l as [|m l IH]; [done|]. cbn [flat_map List.filter]. rewrite List.filter_app, IH. unfold is_wallops.
  destruct (is_cmd "WALLOPS" m) eqn:E; unfold shown at 1; rewrite E; cbn [flat_map].
  - unfold shown at 2. by rewrite E.
  - destruct (is_cmd "REHASH" m); [done|]. by destruct (is_cmd "DIE" m).
Qed.
Lemma shown_told l : existsb (is_cmd "DIE") l = true -> exists reason, In (IrcQuit reason) (flat_map shown l).
Proof.
  intros (m & Hin & Hm)%existsb_exists. eexists. apply in_flat_map. exists m. split; [done|].
  unfold shown. rewrite (is_cmd_other "DIE" "WALLOPS"), (is_cmd_other "DIE" "REHASH"), Hm by done. by left.
Qed.
Lemma in_visible e t : In e (visible t) -> In e t.
Proof. unfold visible. by intros [? _]%filter_In. Qed.

Section Promises.
Context {ienv : IpcEnv} (lfd : Z).
Context (Hwhole : forall t s, write_result t s = Z.of_nat (slen s)).
Context (Hsock : forall t, sock_error t = None) (Hirc : forall t, irc_error t = None).

Lemma ipc_simulated ls a :
  a_steps lfd ls a_init = Some a -> exists s, steps ls (init lfd) = Some s /\ R lfd s (a_kids a).
Proof. apply sim_steps; [done..|]. apply R_init. Qed.
Lemma reached_inv ls a : a_steps lfd ls a_init = Some a -> inv a.
Proof. apply inv_steps, inv_init. Qed.

(** C4: the processes and the bytes on their sockets do what the abstract system
    says, whose queues hold messages: for every run of it there is the run of the
    processes with the same labels, after which the master knows the same children
    and names, every socket holds the lines of the messages on the way, in order,
    and every user saw exactly the messages his process handled.  Supposed: a write
    to an open socket goes through whole, the clients read, a session can start;
    the messages are [carried], they fit in the buffer of 512 bytes. *)
Theorem ipc_refines (ls : list label) (a : abs) :
  a_steps lfd ls a_init = Some a -> exists s, steps ls (init lfd) = Some s /\ R lfd s (a_kids a).
Proof. apply ipc_simulated. Qed.

(** C5: one session for a user: from whatever the daemon did, it is enough that
    the processes read what is on the way; then of two living children which gave
    the same name, in any case, one was told to quit. *)
Theorem single_session (ls : list label) (a : abs) :
  a_steps lfd ls a_init = Some a ->
  exists ls' s, Forall (fun l => is_read l = true) ls' /\ steps (ls ++ ls') (init lfd) = Some s
    /\ forall c c' p p', c ∈ childs (master s) -> c' ∈ childs (master s) -> c_fd c <> c_fd c' ->
         kids s !! c_fd c = Some p -> kids s !! c_fd c' = Some p' ->
         c_username c <> "" -> same_name (c_username c) (c_username c') = true ->
         exists reason, In (IrcQuit reason) (tr p) \/ In (IrcQuit reason) (tr p').
Proof.
  intros Ha. destruct (drain lfd a) as (ls' & a' & F & S & Q).
  assert (Ha' : a_steps lfd (ls ++ ls') a_init = Some a') by (rewrite a_steps_app, Ha; done).
  destruct (ipc_simulated _ _ Ha') as (s & Hs & HR). exists ls', s. split_and!; [done..|].
  intros c c' p p' Hc Hc' Hn Hp Hp' Hu Hsame.
  assert (Kid : forall c p, c ∈ childs (master s) -> kids s !! c_fd c = Some p ->
    exists k, a_kids a' !! c_fd c = Some k /\ k_user k = c_username c /\ k_gone k = false
      /\ (told k = true -> exists reason, In (IrcQuit reason) (tr p))).
  { intros c0 p0 Hc0 Hp0. pose proof (r_user _ _ _ HR c0 Hc0) as U. pose proof (r_kids _ _ _ HR (c_fd c0)) as K.
    destruct (a_kids a' !! c_fd c0) as [k|] eqn:Ek; [|done]. injection U as U. exists k.
    destruct (k_gone k) eqn:Eg; [congruence|]. destruct K as (q & Hq & [_ _ _ K]).
    split_and!; [done..|]. intros Ht. destruct (Q _ _ Ek) as [_ Qd]. specialize (Qd Eg).
    unfold told, box in Ht. rewrite Qd, app_nil_r in Ht. apply shown_told in Ht as [reason Hin].
    exists reason. apply in_visible. assert (q = p0) as -> by congruence. by rewrite K. }
  destruct (Kid c p Hc Hp) as (k & Ek & Uk & Gk & Tk).
  destruct (Kid c' p' Hc' Hp') as (k' & Ek' & Uk' & Gk' & Tk').
  rewrite <- Uk in Hu, Hsame. rewrite <- Uk' in Hsame.
  destruct (orb_true_elim _ _ (inv_one _ (reached_inv _ _ Ha') _ _ k k' Hn Ek Ek' Gk Gk' Hu Hsame)) as [T|T].
  - destruct (Tk T) as [reason ?]. exists reason. by left.
  - destruct (Tk' T) as [reason ?]. exists reason. by right.
Qed.

(** C34: the users see the WALLOPS in one order, the order in which the master read
    them, whichever process sent them: what a user was sent so far and what is on the
    way to him are together, in order, all those the master read since his process
    came. *)
Theorem wallops_order (ls : list label) (a : abs) :
  a_steps lfd ls a_init = Some a ->
  exists s, steps ls (init lfd) = Some s /\ R lfd s (a_kids a)
    /\ forall fd p, kids s !! fd = Some p ->
      exists k before conn kfd pid after,
        a_kids a !! fd = Some k /\ ls = before ++ New conn fd kfd pid :: after
        /\ List.filter is_send (tr p) ++ flat_map shown (List.filter is_wallops (k_down k))
           = flat_map shown (drop (length (wallops_read before)) (wallops_read ls)).
Proof.
  intros Ha. destruct (ipc_simulated _ _ Ha) as (s & Hs & HR). exists s. split; [done|]. split; [done|].
  intros fd p Hp. pose proof (r_kids _ _ _ HR fd) as K.
  destruct (a_kids a !! fd) as [k|] eqn:Ek; [|congruence]. destruct (k_gone k) eqn:Eg; [congruence|].
  destruct K as (q & Hq & [_ _ _ K]). assert (q = p) as -> by congruence.
  destruct (kid_came lfd ls a fd k Ha Ek) as (before & conn & kfd & pid & after & Hls & Hfrom).
  exists k, before, conn, kfd, pid, after. split; [done|]. split; [done|].
  destruct (inv_order _ (reached_inv _ _ Ha) fd k Ek) as [_ O]. specialize (O Eg).
  rewrite (hist_read lfd ls a Ha), Hfrom in O.
  rewrite <- O, sends_visible_filter, K, shown_sends. unfold box. by rewrite List.filter_app, flat_map_app.
Qed.

(** A line that does not fit blocks the socket for good: without an end of
    line in the first 511 bytes nothing is read, whatever comes after them. *)
Theorem line_stuck (data : option Z) (s s' : string) (p : proc) :
  watched data p -> (511 <= slen s)%nat -> find_eol (stake 511 s) = None ->
  inq p !! default (sock p) data = Some (Queue (s +:+ s') false) ->
  ipc_read data p = (p, Done true).
Proof.
  intros Hd Hl He Hq. unfold ipc_read. unfold bind at 1, get at 1. unfold bind at 1, get at 1.
  assert (Hg : (match data with
     | Some c => when (negb (bool_decide (c ∈ map c_fd (childs p)))) (crash "dangling child_t")
     | None => (ret tt : M unit) end) p = (p, Done tt)).
  { destruct data as [c|]; [|done]. by rewrite bool_decide_true. }
  unfold bind at 1. rewrite Hg. unfold bind at 1, recv at 1, bind at 1, get at 1. rewrite Hq.
  assert (Hne : sempty (s +:+ s') = false) by (destruct s; [cbn in Hl; lia|done]).
  assert (Hst : stake (BUF - 1) (s +:+ s') = stake 511 s).
  { change (BUF - 1)%nat with 511%nat. clear -Hl. revert s Hl. generalize 511%nat. intros n.
    induction n as [|n IH]; intros [|c s] Hl; try done; cbn [slen] in Hl; [lia|].
    rewrite app_cons_s. cbn. f_equal. apply IH. lia. }
  rewrite Hne. unfold bind at 1, ret at 1, ret at 1. by rewrite Hst, He.
Qed.
End Promises.

(** ** The life of a process *)

Section Life.
Context {ienv : IpcEnv}.
Inductive life : proc -> Prop :=
| life_start p p' : inq p = ∅ -> create p = (p', Done tt) -> life p'
| life_client p : life p -> read_cb p = Some NewClient -> fresh_fds p -> life (new_client_cb p).1
| life_read data p : life p -> watched data p -> life (ipc_read data p).1
| life_send m p : life p -> life (ipc_send m p).1
| life_input fd q q' p : life p -> inq p !! fd = Some q -> life (up_inq (insert fd q') p).

Lemma wf_result {A} (m : M A) p : safe m p -> wf (m p).1.
Proof. unfold safe, wp. by destruct (m p) as [p' []]. Qed.

Definition childless {A} (m : M A) : Prop :=
  forall p, childs p = [] -> wp m (fun _ p' => childs p' = []) (fun _ p' => childs p' = []) p.
Lemma childless_bind {A B} (m : M A) (k : A -> M B) :
  childless m -> (forall a, childless (k a)) -> childless (bind m k).
Proof.
  intros Hm Hk p Hp. apply ewp_bind. eapply ewp_mono; [by apply Hm| |done]. intros a p' Hp'. by apply Hk.
Qed.
Lemma childless_stays {A} (m : M A) : (forall p0, stays p0 m) -> childless m.
Proof.
  intros H p Hp. eapply ewp_mono; [apply (H p), kin_refl| |]; intros ? p' (K & _); rewrite Hp in K;
    by destruct (childs p').
Qed.
Lemma childless_put f : (forall p, childs (f p) = childs p) -> childless (put f).
Proof. intros H p Hp. apply ewp_put. by rewrite H. Qed.
#[local] Hint Resolve childless_bind childless_put stays_get stays_b_log stays_emit stays_ret stays_throw stays_ask : core.
#[local] Hint Extern 3 (childless _) => apply childless_stays; intros ? : core.
#[local] Hint Extern 2 (childless (if ?b then _ else _)) => destruct b : core.
#[local] Hint Extern 1 (childless (bind _ _)) => apply childless_bind; [|intros ?] : core.
Lemma childless_close fd : childless (close fd).
Proof. unfold close. eauto. Qed.
#[local] Hint Resolve childless_close : core.
Lemma childless_bind_loop n : childless (bind_loop n).
Proof. induction n as [|n IH]; cbn [bind_loop]; [auto|]. auto 12. Qed.
Lemma childless_daemonize : childless daemonize.
Proof. unfold daemonize. auto 12. Qed.
#[local] Hint Resolve childless_bind_loop childless_daemonize : core.
Lemma childless_create_body : childless create_body.
Proof.
  unfold create_body. destruct (negb conf_found); [auto|]. apply childless_bind; [auto|]. intros _.
  apply childless_bind; [destruct conf_background; cbn [when]; auto|]. intros _. destruct addrinfo; auto 8.
Qed.
Lemma create_childless p p' : create p = (p', Done tt) -> childs p' = [].
Proof.
  set (p1 := Proc false (maxcon p) (-1) None [] (inq p) (tr p)).
  change (create p) with (create_body p1). pose proof (childless_create_body p1 eq_refl) as H.
  intros E. unfold wp in H. by rewrite E in H.
Qed.
Lemma stays_ipc_send p0 m : stays p0 (ipc_send m).
Proof.
  unfold ipc_send. apply stays_bind; [apply stays_get|]. intros []; [|apply stays_broadcast].
  unfold ipc_child_send. apply stays_bind; [apply stays_get|]. intros x.
  apply stays_if; [apply stays_ret|apply stays_ipc_write].
Qed.
Lemma life_wf p : life p -> wf p.
Proof.
  induction 1 as [p p' _ E|p _ W _ F|data p _ W D|m p _ W|fd q q' p _ W _].
  - by eapply wf_childless, create_childless.
  - by apply wf_result, safe_new_client.
  - by apply wf_result, safe_ipc_read.
  - apply wf_result. eapply ewp_mono; [apply stays_ipc_send, kin_refl| |]; intros; by eapply kin_wf.
  - eapply kin_wf; [exact W|]. by apply (stays_insert p fd q' p).
Qed.

(** The processes that were made, and the children that are listed. *)
Definition births (t : list ev) : Z :=
  Z.of_nat (length (List.filter (fun e => match e with Forked pid => 0 <? pid | _ => false end) t)).
Definition listed (p : proc) : Z := Z.of_nat (length (childs p)).
Lemma births_snoc t e : births (t ++ [e]) = births t + births [e].
Proof. unfold births. rewrite List.filter_app, length_app. lia. Qed.
Definition tally (n l : Z) (p : proc) : Prop := births (tr p) = n /\ listed p = l.
Lemma tally_b_log n l f x p : tally n l p -> wp (b_log f x) (fun _ => tally n l) (fun _ => tally n l) p.
Proof.
  intros [H1 H2]. assert (E : tally n l (up_tr (fun t => t ++ [Logged f x]) p)).
  { split; [|done]. cbn. rewrite births_snoc, H1. unfold births. cbn. lia. }
  unfold b_log. apply ewp_bind, ewp_get. destruct (irc p); [|by apply ewp_put].
  apply ewp_bind, ewp_put, ewp_bind, ewp_get. destruct (sock_error _); [by apply ewp_throw|by apply ewp_ret].
Qed.
Lemma tally_close n l fd p : tally n l p -> wp (close fd) (fun _ => tally n l) (fun _ => tally n l) p.
Proof.
  intros [H1 H2]. apply ewp_bind, ewp_put, ewp_put. split; [|done]. cbn. rewrite births_snoc, H1. unfold births. cbn. lia.
Qed.
(** When as many as [maxcon] are listed no process is made. *)
Lemma full_refuses p :
  0 < maxcon p <= listed p ->
  wp new_client_cb (fun _ => tally (births (tr p)) (listed p)) (fun _ => tally (births (tr p)) (listed p)) p.
Proof.
  intros Hm. unfold new_client_cb. apply ewp_bind, ewp_get. destruct (_ <? 0).
  { apply ewp_bind. eapply ewp_mono; [by apply tally_b_log| |done]. intros [] p' H. by apply ewp_ret. }
  apply ewp_bind, ewp_get, ewp_bind, ewp_get. unfold listed in Hm.
  destruct (_ && _) eqn:E; [|apply andb_false_iff in E as [E%Z.ltb_ge|E%Z.leb_gt]; cbn in E; lia].
  apply ewp_bind, ewp_put, ewp_bind. eapply ewp_mono; [apply (tally_close (births (tr p)) (listed p))| |done]; [|intros [] p' H; by apply ewp_ret].
  split; [|done]. cbn. rewrite births_snoc. unfold births at 2. cbn. lia.
Qed.
(** As long as the kernel gives socket pairs, each process that is made is listed. *)
Lemma fork_listed p a b :
  socketpair (tr p) = Some (a, b) -> 0 <= a -> fork (tr p) <> 0 ->
  let even p' := births (tr p') - births (tr p) = listed p' - listed p in
  wp new_client_cb (fun _ => even) (fun _ _ => True) p.
Proof.
  intros Hs Ha Hf even. set (n := births (tr p)). set (l := listed p).
  assert (Hev : forall p', tally n l p' -> even p') by (intros p' [H1 H2]; unfold even; fold n l; lia).
  assert (Start : tally n l p) by done.
  assert (True_ : forall A (m : M A) (Q : A -> proc -> Prop) (R : exn -> proc -> Prop) p', wp m Q R p' -> wp m Q (fun _ _ => True) p').
  { intros A m Q R p' H. by eapply ewp_mono. }
  unfold new_client_cb. apply ewp_bind, ewp_get. destruct (_ <? 0).
  { apply ewp_bind. eapply ewp_mono; [by apply (tally_b_log n l)| |done]. intros [] p' H. by apply ewp_ret, Hev. }
  apply ewp_bind, ewp_get, ewp_bind, ewp_get. destruct (_ && _).
  { apply ewp_bind, ewp_put, ewp_bind. eapply ewp_mono; [apply (tally_close n l)| |done]; [|intros [] p' H; by apply ewp_ret, Hev].
    split; [|done]. cbn. rewrite births_snoc. unfold births at 2. cbn. lia. }
  apply ewp_bind, ewp_get, ewp_bind. rewrite Hs. apply ewp_bind, ewp_put, ewp_ret, ewp_bind, ewp_get, ewp_bind, ewp_put. cbn.
  assert (B : births (tr p ++ [Forked (fork (tr p))]) = n + if 0 <? fork (tr p) then 1 else 0).
  { rewrite births_snoc. unfold n, births at 2. cbn. by destruct (0 <? fork (tr p)). }
  destruct (Z.ltb_spec (fork (tr p)) 0) as [Hneg|Hpos].
  - rewrite (proj2 (Z.ltb_ge 0 (fork (tr p)))), Z.add_0_r in B by lia.
    apply ewp_bind. eapply ewp_mono; [by apply (tally_b_log n l)| |done]. intros [] p1 H1. apply ewp_bind.
    eapply ewp_mono; [by apply (tally_close n l)| |done]. intros [] p2 H2. by apply ewp_ret, Hev.
  - rewrite (proj2 (Z.ltb_lt 0 (fork (tr p)))) in B |- * by lia.
    apply ewp_bind. eapply ewp_mono; [by apply (tally_b_log (n + 1) l)| |done]. intros [] p1 H1. apply ewp_bind.
    eapply ewp_mono; [by apply (tally_close (n + 1) l)| |done]. intros [] p2 [H2 H3]. cbn.
    rewrite (proj2 (Z.leb_le 0 a) Ha). apply ewp_bind, ewp_bind, ewp_put.
    eapply ewp_mono; [apply (tally_close (n + 1) (l + 1))| |done].
    + split; [done|]. unfold listed in *. cbn. rewrite length_app. cbn. lia.
    + intros [] p3 [H4 H5]. apply ewp_ret. unfold even. fold n l. lia.
Qed.

(** C32: through the life of the process, whatever its sockets receive and the
    clients do: the children that are listed have different descriptors and are at most
    [maxcon] if it is positive; when they are that many, a client is refused and no
    process is made; a process that is made is listed as long as socketpair gives a pair
    (one made without is not, and is not counted); and reading from any watched socket
    has a defined end. *)
Theorem daemon_bounded (p : proc) :
  life p ->
  NoDup (map c_fd (childs p)) /\ (0 < maxcon p -> listed p <= maxcon p)
  /\ (0 < maxcon p <= listed p -> births (tr (new_client_cb p).1) = births (tr p))
  /\ (forall a b, socketpair (tr p) = Some (a, b) -> 0 <= a -> fork (tr p) <> 0 ->
       match new_client_cb p with
       | (p', Done _) => births (tr p') - births (tr p) = listed p' - listed p
       | _ => True
       end)
  /\ forall data why, watched data p -> (ipc_read data p).2 <> Crash why.
Proof.
  intros L. destruct (life_wf p L) as (H1 & H2 & H3). split_and!; [done|done|..].
  - intros Hm. pose proof (full_refuses p Hm) as H. unfold wp in H. by destruct (new_client_cb p) as [p' []]; cbn; [destruct H..|].
  - intros a b Hs Ha Hf. pose proof (fork_listed p a b Hs Ha Hf) as H. unfold wp in H.
    by destruct (new_client_cb p) as [p' []].
  - intros data why Hd E. pose proof (safe_ipc_read data p (life_wf p L) Hd) as S. unfold safe, wp in S.
    destruct (ipc_read data p) as [p' []]; cbn in E; try done.
Qed.
End Life.

(** ** The promises at a concrete run *)

Definition demo_ipc : IpcEnv := {|
  accept := fun _ => 10; socketpair := fun _ => Some (4, 5); fork := fun _ => 100;
  write_result := fun _ s => Z.of_nat (slen s); sock_error := fun _ => None; irc_error := fun _ => None;
  conf_found := true; conf_maxcon := 2; conf_background := false; chdir_ok := true;
  addrinfo := Some 1%nat; socket := fun _ => 3; bind_listen := fun _ => true |}.
(** The same user connects twice, and a third client is refused. *)
Definition demo_run : list label :=
  [New 10 4 5 100; Send 4 (ipc "USER" ["romain"]); MasterRead 4; New 11 6 7 101;
   Send 4 (ipc "WALLOPS" ["romain"; "hello all"]); Send 6 (ipc "USER" ["Romain"]);
   MasterRead 4; MasterRead 6; KidRead 6; New 12 8 9 102].
Definition demo_abs : abs := default a_init (@a_steps demo_ipc 3 demo_run a_init).
Lemma demo_abs_steps : @a_steps demo_ipc 3 demo_run a_init = Some demo_abs.
Proof. vm_compute. reflexivity. Qed.

Lemma ipc_refines_witness :
  exists s, @steps demo_ipc demo_run (@init demo_ipc 3) = Some s /\ @R demo_ipc 3 s (a_kids demo_abs).
Proof. apply (@ipc_refines demo_ipc 3 (fun _ _ => eq_refl) (fun _ => eq_refl) (fun _ => eq_refl)). exact demo_abs_steps. Defined.
Lemma single_session_witness :
  exists ls' s, Forall (fun l => is_read l = true) ls' /\ @steps demo_ipc (demo_run ++ ls') (@init demo_ipc 3) = Some s
    /\ forall c c' p p', c ∈ childs (master s) -> c' ∈ childs (master s) -> c_fd c <> c_fd c' ->
         kids s !! c_fd c = Some p -> kids s !! c_fd c' = Some p' ->
         c_username c <> "" -> same_name (c_username c) (c_username c') = true ->
         exists reason, In (IrcQuit reason) (tr p) \/ In (IrcQuit reason) (tr p').
Proof.
  apply (@single_session demo_ipc 3 (fun _ _ => eq_refl) (fun _ => eq_refl) (fun _ => eq_refl) demo_run demo_abs).
  exact demo_abs_steps.
Defined.
Lemma wallops_order_witness :
  exists s, @steps demo_ipc demo_run (@init demo_ipc 3) = Some s /\ @R demo_ipc 3 s (a_kids demo_abs)
    /\ forall fd p, kids s !! fd = Some p ->
      exists k before conn kfd pid after,
        a_kids demo_abs !! fd = Some k /\ demo_run = before ++ New conn fd kfd pid :: after
        /\ List.filter is_send (tr p) ++ flat_map shown (List.filter is_wallops (k_down k))
           = flat_map shown (drop (length (wallops_read before)) (wallops_read demo_run)).
Proof.
  apply (@wallops_order demo_ipc 3 (fun _ _ => eq_refl) (fun _ => eq_refl) (fun _ => eq_refl) demo_run demo_abs).
  exact demo_abs_steps.
Defined.

(** A WALLOPS a client can send, with its nickname in front. *)
Definition long_line : string := format (ipc "WALLOPS" ["romain"; String.concat "" (repeat "aaaaaaaaa " 50)]).
Definition demo_master : proc :=
  Proc false 2 3 (Some NewClient) [Child 4 "romain"] {[4 := Queue (long_line +:+ format (ipc "REHASH" [])) false]} [].
Lemma line_stuck_witness : @ipc_read demo_ipc (Some 4) demo_master = (demo_master, Done true).
Proof.
  apply (@line_stuck demo_ipc (Some 4) long_line (format (ipc "REHASH" [])) demo_master).
  - left.
  - apply Nat.leb_le. vm_compute. reflexivity.
  - vm_compute. reflexivity.
  - reflexivity.
Defined.
Definition demo_listening : proc := (@create demo_ipc (Proc false 0 0 None [] ∅ [])).1.
(** The daemon with a client, whose process is listed. *)
Definition demo_serving : proc := (@new_client_cb demo_ipc demo_listening).1.
Lemma demo_serving_life : @life demo_ipc demo_serving.
Proof.
  apply life_client; [|vm_compute; reflexivity|].
  - apply (life_start (Proc false 0 0 None [] ∅ [])); [reflexivity|]. vm_compute. reflexivity.
  - split; [vm_compute; reflexivity|]. intros a b [= <- <-]. by vm_compute.
Qed.
Lemma daemon_bounded_witness :
  listed demo_serving = 1 /\ maxcon demo_serving = 2
  /\ NoDup (map c_fd (childs demo_serving)) /\ (0 < maxcon demo_serving -> listed demo_serving <= maxcon demo_serving)
  /\ (0 < maxcon demo_serving <= listed demo_serving ->
       births (tr (@new_client_cb demo_ipc demo_serving).1) = births (tr demo_serving))
  /\ (forall a b, @socketpair demo_ipc (tr demo_serving) = Some (a, b) -> 0 <= a -> @fork demo_ipc (tr demo_serving) <> 0 ->
       match @new_client_cb demo_ipc demo_serving with
       | (p', Done _) => births (tr p') - births (tr demo_serving) = listed p' - listed demo_serving
       | _ => True
       end)
  /\ forall data why, watched data demo_serving -> (@ipc_read demo_ipc data demo_serving).2 <> Crash why.
Proof.
  split; [vm_compute; reflexivity|]. split; [vm_compute; reflexivity|].
  apply (@daemon_bounded demo_ipc demo_serving demo_serving_life).
Defined.
