(* ===== verification/Config.v ===== *)
(** core/config.{h,cpp}: the sections and items of the configuration, and the
    reading of its file.  core/minbif.cpp declares the ones of the program. *)

From S2P Require Import Prelude Util Dcc Effects.

Module Config.
Import Eff.
#[local] Open Scope eff_scope.

Definition INT_MAX : Z := 2 ^ 31 - 1.
Definition INT_MIN : Z := - 2 ^ 31.

Inductive section_t := NORMAL | MULTIPLE | OPTIONAL.
#[export] Instance section_t_eq_dec : EqDecision section_t.
Proof. solve_decision. Defined.

(** The classes of items with their members; [None] is a member no one set. *)
Inductive value :=
| VString (v : string)
| VInt (v : option Z) (min max : Z)
| VRange (value_min value_max : option Z) (min max : Z)
| VBool (v : option bool).
Record item := Item {
  it_label : string; it_description : string; it_def : string; it_found : bool; it_value : value }.
(** A section; its subsections and its parent are named by numbers, and its items
    and subsections are sorted by their labels, as in the maps of the code. *)
Record section := Section {
  sc_name : string; sc_label : string; sc_description : string; sc_type : section_t;
  sc_items : list (string * item); sc_sections : list (string * nat); sc_parent : option nat;
  sc_copy : bool; sc_name_item : option string; sc_found : bool }.
Record config := Cfg {
  cf_path : string; cf_loaded : bool; cf_sections : list (string * nat); cf_line_count : Z;
  cf_heap : gmap nat section; cf_next : nat; cf_stderr : list string }.
Definition empty_config : config := Cfg "" false [] 0 ∅ 0 [].

Inductive exn := error_exc (reason : string).
Definition M (A : Type) : Type := Eff.M config exn A.

(** ** Items *)

Definition clone_value (v : value) : value :=
  match v with
  | VString _ => VString ""
  | VInt _ min max => VInt None min max
  | VRange _ _ min max => VRange None None min max
  | VBool _ => VBool None
  end.
Definition Clone (i : item) : item :=
  Item (it_label i) (it_description i) (it_def i) false (clone_value (it_value i)).
Definition set_item_found (f : bool) (i : item) : item :=
  Item (it_label i) (it_description i) (it_def i) f (it_value i).
Definition set_item_value (v : value) (i : item) : item :=
  Item (it_label i) (it_description i) (it_def i) (it_found i) v.

(** [std::istringstream(s) >> old]: an empty text leaves the variable. *)
Definition read_int (s : string) (old : option Z) : option Z :=
  match Num.s2t_signed 32 s with Some v => Some v | None => old end.
(** The loop of [ConfigItem_intrange::SetValue]: the digits before and after the
    separator. *)
Fixpoint range_split (s : string) (on_min : bool) (min_s max_s : string) : option (string * string) :=
  match s with
  | EmptyString => Some (min_s, max_s)
  | String c s =>
    if isdigit c then
      if on_min then range_split s on_min (min_s +:+ String c "") max_s
      else range_split s on_min min_s (max_s +:+ String c "")
    else if on_min && (Ascii.eqb c ":" || Ascii.eqb c "-") then range_split s false min_s max_s
    else None
  end.
(** [SetValue]: the value afterwards and the answer; [None] is the comparison of a
    member no one set. *)
Definition SetValue (s : string) (v : value) : option (value * bool) :=
  match v with
  | VString _ => Some (VString s, true)
  | VInt old min max =>
    if negb (sall isdigit s) then Some (v, false)
    else match read_int s old with
         | Some z => Some (VInt (Some z) min max, (min <=? z) && (z <=? max))
         | None => None
         end
  | VRange old_min old_max min max =>
    match range_split s true "" "" with
    | None => Some (v, false)
    | Some (min_s, max_s) =>
      let a := read_int min_s old_min in
      let b := read_int max_s old_max in
      match a, b with
      | Some a, Some b => Some (VRange (Some a) (Some b) min max, (min <=? a) && (a <=? b) && (b <=? max))
      | Some a, None => if min <=? a then None else Some (VRange (Some a) None min max, false)
      | None, _ => None
      end
    end
  | VBool _ =>
    if String.eqb s "true" || String.eqb s "on" || String.eqb s "yes" then Some (VBool (Some true), true)
    else if String.eqb s "false" || String.eqb s "off" || String.eqb s "no" then Some (VBool (Some false), true)
    else Some (v, false)
  end.
(** [ValueType]: the stream of an integer keeps the minimum in front of the maximum. *)
Definition ValueType (v : value) : string :=
  match v with
  | VString _ => "string"
  | VInt _ min max =>
    if min =? INT_MIN then "integer"
    else "integer (between " +:+ t2s min +:+ " and " +:+ t2s min +:+ t2s max +:+ ")"
  | VRange _ _ min max => "integer range (between " +:+ t2s min +:+ " and " +:+ t2s max +:+ ")"
  | VBool _ => "boolean ('true' or 'false')"
  end.
(** The getters; [None] is the read of a member no one set. *)
Definition String_ (v : value) : option string :=
  match v with
  | VString s => Some s
  | VInt z _ _ => t2s <$> z
  | VRange a b _ _ => a ← a; b ← b; Some (t2s a +:+ "-" +:+ t2s b)
  | VBool b => (fun b : bool => if b then "true" else "false") <$> b
  end.
Definition Integer (v : value) : option Z :=
  match v with
  | VString _ => Some 0
  | VInt z _ _ => z
  | VRange _ _ _ _ => None
  | VBool b => Z.b2z <$> b
  end.
Definition Boolean (v : value) : option bool :=
  match v with VBool b => b | _ => Some false end.
Definition MinInteger (v : value) : option Z := match v with VRange a _ _ _ => a | _ => Some 0 end.
Definition MaxInteger (v : value) : option Z := match v with VRange _ b _ _ => b | _ => Some 0 end.

(** ** Maps *)

(** [std::map]: the items by their labels. *)
Fixpoint map_find {A} (k : string) (l : list (string * A)) : option A :=
  match l with [] => None | (k', a) :: l => if String.eqb k' k then Some a else map_find k l end.
Fixpoint map_set {A} (k : string) (a : A) (l : list (string * A)) : list (string * A) :=
  match l with
  | [] => [(k, a)]
  | (k', a') :: l =>
    match String.compare k k' with
    | Lt => (k, a) :: (k', a') :: l
    | Eq => (k, a) :: l
    | Gt => (k', a') :: map_set k a l
    end
  end.
(** [std::multimap::insert]: after the entries with the same key. *)
Fixpoint multimap_insert {A} (k : string) (a : A) (l : list (string * A)) : list (string * A) :=
  match l with
  | [] => [(k, a)]
  | (k', a') :: l =>
    match String.compare k k' with
    | Lt => (k, a) :: (k', a') :: l
    | _ => (k', a') :: multimap_insert k a l
    end
  end.

(** ** Sections *)

Definition with_name n s := Section n (sc_label s) (sc_description s) (sc_type s) (sc_items s) (sc_sections s) (sc_parent s) (sc_copy s) (sc_name_item s) (sc_found s).
Definition with_items l s := Section (sc_name s) (sc_label s) (sc_description s) (sc_type s) l (sc_sections s) (sc_parent s) (sc_copy s) (sc_name_item s) (sc_found s).
Definition with_sections l s := Section (sc_name s) (sc_label s) (sc_description s) (sc_type s) (sc_items s) l (sc_parent s) (sc_copy s) (sc_name_item s) (sc_found s).
Definition with_copy b s := Section (sc_name s) (sc_label s) (sc_description s) (sc_type s) (sc_items s) (sc_sections s) (sc_parent s) b (sc_name_item s) (sc_found s).
Definition with_name_item n s := Section (sc_name s) (sc_label s) (sc_description s) (sc_type s) (sc_items s) (sc_sections s) (sc_parent s) (sc_copy s) n (sc_found s).
Definition with_found b s := Section (sc_name s) (sc_label s) (sc_description s) (sc_type s) (sc_items s) (sc_sections s) (sc_parent s) (sc_copy s) (sc_name_item s) b.

Definition up_path p c := Cfg p (cf_loaded c) (cf_sections c) (cf_line_count c) (cf_heap c) (cf_next c) (cf_stderr c).
Definition up_loaded b c := Cfg (cf_path c) b (cf_sections c) (cf_line_count c) (cf_heap c) (cf_next c) (cf_stderr c).
Definition up_sections f c := Cfg (cf_path c) (cf_loaded c) (f (cf_sections c)) (cf_line_count c) (cf_heap c) (cf_next c) (cf_stderr c).
Definition up_line_count n c := Cfg (cf_path c) (cf_loaded c) (cf_sections c) n (cf_heap c) (cf_next c) (cf_stderr c).
Definition up_heap f c := Cfg (cf_path c) (cf_loaded c) (cf_sections c) (cf_line_count c) (f (cf_heap c)) (cf_next c) (cf_stderr c).
Definition up_stderr f c := Cfg (cf_path c) (cf_loaded c) (cf_sections c) (cf_line_count c) (cf_heap c) (cf_next c) (f (cf_stderr c)).
(** [new]: the numbers grow, so a section has a smaller one than its subsections. *)
Definition alloc (s : section) : M nat := fun c =>
  (Cfg (cf_path c) (cf_loaded c) (cf_sections c) (cf_line_count c) (<[cf_next c := s]> (cf_heap c))
       (S (cf_next c)) (cf_stderr c), Done (cf_next c)).
Definition get_section (p : nat) : M section :=
  eff! o := get (fun c => cf_heap c !! p); deref "dangling ConfigSection" o.
Definition put_section (p : nat) (s : section) : M unit := put (up_heap (insert p s)).
Definition up_section (p : nat) (f : section -> section) : M unit :=
  eff! s := get_section p; put_section p (f s).

(** [IsOptional]; a section that can be copied is optional. *)
Definition IsMultiple (s : section) : bool := bool_decide (sc_type s = MULTIPLE).
Definition IsOptional (s : section) : bool := bool_decide (sc_type s = OPTIONAL) || IsMultiple s.

(** What holds sections: the configuration ([None]) or a section. *)
Definition subsections (o : option nat) : M (list (string * nat)) :=
  match o with None => get cf_sections | Some p => eff! s := get_section p; ret (sc_sections s) end.
Definition up_subsections (o : option nat) (f : list (string * nat) -> list (string * nat)) : M unit :=
  match o with
  | None => put (up_sections f)
  | Some p => up_section p (fun s => with_sections (f (sc_sections s)) s)
  end.
Fixpoint find_section (label : string) (q : section -> bool) (l : list (string * nat)) : M (option nat) :=
  match l with
  | [] => ret None
  | (k, p) :: l =>
    if String.eqb k label then
      eff! s := get_section p;
      if q s then ret (Some p) else find_section label q l
    else find_section label q l
  end.
Definition GetSection (o : option nat) (label : string) : M (option nat) :=
  eff! l := subsections o; find_section label (fun s => negb (sc_copy s)) l.
Definition GetSection_named (o : option nat) (label name : string) : M (option nat) :=
  eff! l := subsections o;
  find_section label (fun s => String.eqb (sc_label s) label && IsMultiple s && String.eqb (sc_name s) name) l.
Fixpoint clones (label : string) (l : list (string * nat)) : M (list nat) :=
  match l with
  | [] => ret []
  | (k, p) :: l =>
    if String.eqb k label then
      eff! s := get_section p;
      eff! r := clones label l;
      ret (if String.eqb (sc_label s) label && IsMultiple s && sc_copy s then p :: r else r)
    else clones label l
  end.
Definition GetSectionClones (o : option nat) (label : string) : M (list nat) :=
  eff! l := subsections o; clones label l.
(** [MyConfig]'s own. *)
Definition MyConfig_GetSection : string -> M (option nat) := GetSection None.
Definition MyConfig_GetSection_named : string -> string -> M (option nat) := GetSection_named None.
Definition MyConfig_GetSectionClones : string -> M (list nat) := GetSectionClones None.

Definition add_section (o : option nat) (p : nat) : M unit :=
  eff! s := get_section p; up_subsections o (multimap_insert (sc_label s) p).
Definition new_section (label description : string) (type : section_t) (parent : option nat) : M nat :=
  alloc (Section "" label description type [] [] parent false None false).
Fixpoint has_label (label : string) (l : list (string * nat)) : M bool :=
  match l with
  | [] => ret false
  | (_, p) :: l => eff! s := get_section p; if String.eqb (sc_label s) label then ret true else has_label label l
  end.
Definition AddSection (o : nat) (label description : string) (type : section_t) : M nat :=
  eff! l := subsections (Some o);
  eff! used := has_label label l;
  eff! s := get_section o;
  if (used : bool)
  then throw (error_exc ("Section " +:+ label +:+ " has a name already used in section " +:+ sc_label s))
  else eff! p := new_section label description type (Some o); add_section (Some o) p;; ret p.
Definition MyConfig_AddSection (label description : string) (type : section_t) : M nat :=
  eff! loaded := get cf_loaded;
  if (loaded : bool) then throw (error_exc "Configuration is already loaded !")
  else
    eff! l := subsections None;
    eff! used := has_label label l;
    if (used : bool) then throw (error_exc ("Section " +:+ label +:+ " has a name already used"))
    else eff! p := new_section label description type None; add_section None p;; ret p.
Definition GetItem (p : nat) (label : string) : M (option item) :=
  eff! s := get_section p; ret (map_find label (sc_items s)).
(** [AddItem] of an item just made; the NULL entry a failure leaves in the map is
    not kept: nothing of the program catches the exception. *)
Definition AddItem (p : nat) (i : item) (is_name : bool) : M unit :=
  eff! s := get_section p;
  match map_find (it_label i) (sc_items s) with
  | Some _ => throw (error_exc ("There is already an item in " +:+ sc_label s))
  | None =>
    if is_name && bool_decide (sc_name_item s <> None)
    then throw (error_exc "I want to add an 'is_name' item, but I have already one !")
    else
      put_section p (with_items (map_set (it_label i) i (sc_items s)) s);;
      when is_name (up_section p (with_name_item (Some (it_label i))))
  end.
Definition up_item (p : nat) (label : string) (f : item -> item) : M unit :=
  up_section p (fun s =>
    with_items (map (fun '(k, i) => if String.eqb k label then (k, f i) else (k, i)) (sc_items s)) s).

(** [ConfigSection(ConfigSection&)]: the name stays empty, and the copies of the
    subsections keep the parent of the original ones. *)
Fixpoint copy_section (fuel : nat) (p : nat) : M nat :=
  match fuel with
  | O => crash "fuel"
  | S fuel =>
    eff! cs := get_section p;
    eff! c := alloc (Section "" (sc_label cs) (sc_description cs) (sc_type cs)
                       (map (fun '(k, i) => (it_label i, Clone i)) (sc_items cs)) [] (sc_parent cs)
                       (sc_copy cs) (sc_name_item cs) (sc_found cs));
    mapM_ (fun '(_, q) => eff! c' := copy_section fuel q; add_section (Some c) c') (sc_sections cs);;
    ret c
  end.
(** The destructor. *)
Fixpoint delete_section (fuel : nat) (p : nat) : M unit :=
  match fuel with
  | O => crash "fuel"
  | S fuel =>
    eff! s := get_section p;
    mapM_ (fun '(_, q) => delete_section fuel q) (sc_sections s);;
    put (up_heap (delete p))
  end.

(** [Clean]: the copies go, nothing is found any more. *)
Fixpoint clean_section (fuel : nat) (p : nat) : M unit :=
  match fuel with
  | O => crash "fuel"
  | S fuel =>
    eff! s := get_section p;
    mapM_ (fun '(k, q) =>
      eff! t := get_section q;
      if sc_copy t
      then delete_section fuel q;;
           up_section p (fun s => with_sections (List.filter (fun '(_, x) => negb (x =? q)%nat) (sc_sections s)) s)
      else up_section q (with_found false);; clean_section fuel q) (sc_sections s);;
    up_section p (fun s => with_items (map (fun '(k, i) => (k, set_item_found false i)) (sc_items s)) s)
  end.
Definition Clean : M unit :=
  eff! n := get cf_next;
  eff! l := get cf_sections;
  mapM_ (fun '(k, q) =>
    eff! t := get_section q;
    if sc_copy t
    then delete_section n q;; put (up_sections (List.filter (fun '(_, x) => negb (x =? q)%nat)))
    else up_section q (with_found false);; clean_section n q) l.

(** ** Errors *)

(** The macro [Error], which also sets the variable [error]. *)
Definition Error (x : string) : M unit :=
  put (fun c => up_stderr (fun e => e ++ [cf_path c +:+ ":" +:+ t2s (cf_line_count c) +:+ ": " +:+ x]) c).
Definition begin_ (s : section) : string :=
  "in «" +:+ sc_label s +:+ (if sempty (sc_name s) then "" else "(" +:+ sc_name s +:+ ")") +:+ "»: ".

(** [SetValue] of an item of a section. *)
Definition SetValue_item (p : nat) (i : item) (v : string) : M bool :=
  match SetValue v (it_value i) with
  | None => crash "uninitialised"
  | Some (x, ok) => up_item p (it_label i) (set_item_value x);; ret ok
  end.
(** The loop of [FindEmpty] on the items: the answer is [error]. *)
Fixpoint empty_items (p : nat) (l : list (string * item)) (error : bool) : M bool :=
  match l with
  | [] => ret error
  | (_, i) :: l =>
    if it_found i then empty_items p l error
    else
      eff! bad := (if sempty (it_def i) then ret true
                   else eff! ok := SetValue_item p i (it_def i); ret (negb ok));
      eff! s := get_section p;
      if bad && sc_found s
      then Error (begin_ s +:+ "missing item '" +:+ it_label i +:+ "' (" +:+ it_description i +:+ ")");;
           empty_items p l true
      else empty_items p l error
  end.
(** The loop on the sections: what a nested [FindEmpty] answers is not used. *)
Fixpoint empty_sections (find : nat -> M bool) (begin : string) (l : list (string * nat)) (error : bool) : M bool :=
  match l with
  | [] => ret error
  | (_, q) :: l =>
    eff! t := get_section q;
    if negb (sc_found t) && negb (IsOptional t)
    then Error (begin +:+ "missing section '" +:+ sc_label t +:+ "' (" +:+ sc_description t +:+ ")");;
         empty_sections find begin l true
    else eff! _r := find q; empty_sections find begin l error
  end.
Fixpoint find_empty (fuel : nat) (p : nat) : M bool :=
  match fuel with
  | O => crash "fuel"
  | S fuel =>
    eff! s := get_section p;
    if IsMultiple s && negb (sc_copy s) then ret true
    else
      eff! error := empty_items p (sc_items s) false;
      empty_sections (find_empty fuel) (begin_ s) (sc_sections s) error
  end.
Definition FindEmpty : M bool :=
  eff! n := get cf_next;
  eff! l := get cf_sections;
  empty_sections (find_empty n) "in global porty: " l false.

(** ** Reading the file *)

(** [ligne = ptr] after the spaces and tabs, up to the first NUL of the line. *)
Fixpoint c_str (s : string) : string :=
  match s with
  | EmptyString => EmptyString
  | String c s => if Ascii.eqb c "000" then EmptyString else String c (c_str s)
  end.
Definition TAB : ascii := "009".
Fixpoint skip (cs : list ascii) (s : string) : string :=
  match s with
  | EmptyString => EmptyString
  | String c s' => if existsb (Ascii.eqb c) cs then skip cs s' else s
  end.

(** A line with an equal sign, in the section [p]: the answer is [error]. *)
Definition load_item (p : nat) (ligne : string) (error : bool) : M bool :=
  let '(label, ligne) := Tok.stringtok ligne " " in
  eff! item := GetItem p label;
  match item with
  | None => Error ("Unknown item '" +:+ label +:+ "'");; ret true
  | Some i =>
    let value := skip [" "; "="; TAB]%char ligne in
    if sempty value then Error "There isn't any value";; ret true
    else
      eff! s := get_section p;
      eff! other :=
        (if bool_decide (sc_name_item s = Some label) then
           eff! o := GetSection_named (sc_parent s) (sc_label s) value;
           match o with
           | Some q =>
             eff! t := get_section q;
             Error ("There is already a section named '" +:+ value +:+ "' ('" +:+ sc_label t +:+ "')");;
             ret true
           | None => up_section p (with_name value);; ret false
           end
         else ret false);
      if (other : bool) then ret true
      else
        up_item p label (set_item_found true);;
        eff! ok := SetValue_item p i value;
        if (ok : bool) then ret error
        else
          Error ("'" +:+ value +:+ "' is an incorrect value for '" +:+ it_label i
                 +:+ "' item (type of value is " +:+ ValueType (it_value i) +:+ ")");;
          ret true
  end.
(** A line that opens a section. *)
Definition load_open (o : option nat) (ligne : string) (error : bool) : M (option nat * bool) :=
  let '(tab, _) := Tok.stringtok ligne " " in
  eff! r := GetSection o tab;
  match r with
  | None => Error ("Unknown section '" +:+ tab +:+ "'");; ret (None, true)
  | Some p =>
    up_section p (with_found true);;
    eff! s := get_section p;
    if IsMultiple s then
      eff! n := get cf_next;
      eff! c := copy_section n p;
      up_section c (with_copy true);;
      add_section (sc_parent s) c;;
      ret (Some c, error)
    else ret (Some p, error)
  end.
(** One turn of the loop of [Load]: the current section and [error]. *)
Definition load_line (ligne : string) (st : option nat * bool) : M (option nat * bool) :=
  eff! n := get cf_line_count;
  put (up_line_count (n + 1));;
  let '(section, error) := st in
  let ligne := skip [" "; TAB]%char (c_str ligne) in
  if sempty ligne || existsb (Ascii.eqb (shead ligne)) ["#"; "013"; "010"]%char then ret st
  else if has_char "=" ligne then
    match section with
    | None => Error "We aren't in a section !";; ret (None, true)
    | Some p => eff! error := load_item p ligne error; ret (Some p, error)
    end
  else if Ascii.eqb (shead ligne) "}" then
    match section with
    | None => Error "a '}' out of a section !?";; ret (None, true)
    | Some p =>
      eff! s := get_section p;
      if sc_copy s && sempty (sc_name s)
      then Error ("Section '" +:+ sc_label s +:+ "' hasn't a name");; ret (sc_parent s, true)
      else ret (sc_parent s, error)
    end
  else load_open section ligne error.
Fixpoint load_lines (l : list string) (st : option nat * bool) : M (option nat * bool) :=
  match l with [] => ret st | x :: l => eff! st := load_line x st; load_lines l st end.

(** [Load]; [read_file] gives the lines of a file. *)
Definition load (read_file : string -> option (list string)) (path : string) : M bool :=
  when (negb (sempty path)) (put (up_path path));;
  eff! path := get cf_path;
  if sempty path then throw (error_exc "Filename is empty")
  else match read_file path with
  | None => put (up_stderr (fun e => e ++ [path +:+ ": File not found"]));; ret false
  | Some lines =>
    Clean;;
    put (up_line_count 0);;
    eff! st := load_lines lines (None, false);
    eff! error :=
      (match st.1 with
       | None => ret st.2
       | Some p => eff! s := get_section p; Error (begin_ s +:+ "'}' not found to close section !");; ret true
       end);
    eff! missing := FindEmpty;
    let error := error || missing in
    when (negb error) (put (up_loaded true));;
    ret (negb error)
  end.

(** core/minbif.cpp: the configuration of the program. *)
Definition str_item (label description def : string) : item := Item label description def false (VString "").
Definition int_item (label description : string) (min max : Z) (def : string) : item :=
  Item label description def false (VInt None min max).
Definition intrange_item (label description : string) (min max : Z) (def : string) : item :=
  Item label description def false (VRange None None min max).
Definition bool_item (label description def : string) : item := Item label description def false (VBool None).

Section Minbif.
Context (have_pam have_tls : bool).
Definition add_items (p : nat) (l : list item) : M unit := mapM_ (fun i => AddItem p i false) l.
Definition add_server_block_common_params (p : nat) : M unit :=
  AddItem p (str_item "security" "none/tls/starttls/starttls-mandatory" "none") false;;
  when have_tls
    (eff! sub := AddSection p "tls" "TLS information" OPTIONAL;
     add_items sub
       [str_item "trust_file" "CA certificate file for TLS" " ";
        str_item "crl_file" "CA certificate file for TLS" " ";
        str_item "cert_file" "Server certificate file for TLS" "";
        str_item "key_file" "Server key file for TLS" "";
        str_item "priority" "Priority list for ciphers, exchange methods, macs and compression methods" "NORMAL"]).
Definition minbif_conf : M unit :=
  eff! path := MyConfig_AddSection "path" "Path information" NORMAL;
  add_items path [str_item "users" "Users directory" ""; str_item "motd" "Path to motd" " "];;
  eff! irc := MyConfig_AddSection "irc" "Server information" NORMAL;
  add_items irc
    [str_item "hostname" "Server hostname" " "; str_item "password" "Global server password" " ";
     int_item "type" "Type of daemon" 0 2 "0"; int_item "ping" "Ping frequence (s)" 0 65535 "60";
     str_item "buddy_icons_url" "URL to display in /WHOIS to get a buddy icon" " "];;
  eff! inetd := AddSection irc "inetd" "Inetd information" OPTIONAL;
  add_server_block_common_params inetd;;
  eff! daemon := AddSection irc "daemon" "Daemon information" OPTIONAL;
  AddItem daemon (str_item "bind" "IP address to listen on" "") false;;
  AddItem daemon (int_item "port" "Port to listen on" 1 65535 "") true;;
  AddItem daemon (bool_item "background" "Start minbif in background" "true") false;;
  AddItem daemon (int_item "maxcon" "Maximum simultaneous connections" 0 65535 "0") false;;
  add_server_block_common_params daemon;;
  eff! oper := AddSection irc "oper" "Define an IRC operator" MULTIPLE;
  AddItem oper (str_item "login" "Nickname of IRC operator" "") true;;
  AddItem oper (str_item "password" "IRC operator password" "") false;;
  AddItem oper (str_item "email" "IRC operator email address" "*@*") false;;
  eff! aaa := MyConfig_AddSection "aaa" "Authentication, Authorization and Accounting" OPTIONAL;
  AddItem aaa (bool_item "use_local" "Use local database to authenticate users" "true") false;;
  when have_pam
    (add_items aaa
       [bool_item "use_pam" "Use PAM mechanisms to authenticate/authorize users" "false";
        bool_item "pam_setuid" "Child process setuid with the pam user (needs root and pam auth)" "false"]);;
  AddItem aaa (bool_item "use_connection" "Use connection information to authenticate/authorize users" "false") false;;
  eff! ft := MyConfig_AddSection "file_transfers" "File transfers parameters" OPTIONAL;
  add_items ft
    [bool_item "enabled" "Enable file transfers" "true"; bool_item "dcc" "Send files to IRC user with DCC" "true";
     str_item "dcc_own_ip" "Force minbif to always send DCC requests from a particular IP address" " ";
     intrange_item "port_range" "Port range to listen on for DCC" 1024 65535 "1024-65535"];;
  eff! log := MyConfig_AddSection "logging" "Log information" NORMAL;
  add_items log
    [str_item "level" "Logging level" ""; bool_item "to_syslog" "Log error and warnings to syslog" "";
     bool_item "conv_logs" "Enable conversation logging" "false"].
End Minbif.

(** [conf.GetSection(a)->...->GetItem(label)]: the value of an item. *)
Definition lookup_item (path : list string) (label : string) : M (option value) :=
  eff! o := (fix go (o : option nat) (l : list string) : M (option nat) :=
    match l with
    | [] => ret o
    | x :: l => eff! q := GetSection o x; match q with None => crash "NULL section" | Some _ => go q l end
    end) None path;
  match o with
  | None => crash "NULL section"
  | Some p => eff! i := GetItem p label; ret (it_value <$> i)
  end.
End Config.
