(* ===== verification/ConfigProofs.v ===== *)
(** What the reading of the configuration keeps: the tree of the sections, and the
    types and bounds of the values. *)

From S2P Require Import Prelude Util Dcc Effects Config.

Module ConfigWf.
Import Eff Config.
#[local] Open Scope eff_scope.

(** The only undefined behaviour: the comparison of a bound no one set. *)
Definition unset (w : string) : Prop := w = "uninitialised".
Abbreviation ok m Q c := (wpc unset m Q (fun _ _ => False) c).

(** ** The tree *)

Definition subs (c : config) (o : option nat) : option (list (string * nat)) :=
  match o with None => Some (cf_sections c) | Some p => sc_sections <$> cf_heap c !! p end.
(** An entry of the sections of [o]. *)
Definition entry (c : config) (o : option nat) (x : string * nat) : Prop :=
  exists t, cf_heap c !! x.2 = Some t /\ sc_label t = x.1 /\ sc_parent t = o.
Record node (c : config) (p : nat) (s : section) : Prop := {
  node_next : (p < cf_next c)%nat;
  node_leaf : sc_type s = MULTIPLE \/ sc_copy s = true -> sc_sections s = [];
  node_parent : forall q, sc_parent s = Some q ->
    (q < p)%nat /\ exists t, cf_heap c !! q = Some t /\ sc_copy t = false /\ sc_type t <> MULTIPLE;
  node_items : NoDup (sc_items s).*1;
  node_labels : forall x, x ∈ sc_items s -> it_label x.2 = x.1 }.
(** The sections a section holds have it for parent, each once; those that are
    copied hold none. *)
Record wf (c : config) : Prop := {
  wf_nodup : forall o l, subs c o = Some l -> NoDup l.*2;
  wf_subs : forall o l x, subs c o = Some l -> x ∈ l -> entry c o x;
  wf_node : forall p s, cf_heap c !! p = Some s -> node c p s }.

(** The types and bounds. *)
Definition typed (v : value) : Prop :=
  match v with
  | VString _ => True
  | VInt z min max => exists n, z = Some n /\ min <= n <= max
  | VRange a b min max => exists n m, a = Some n /\ b = Some m /\ min <= n <= m /\ m <= max
  | VBool b => exists x, b = Some x
  end.
Definition item_ok (i : item) : Prop := it_found i = true -> typed (it_value i).
Definition typed_config (c : config) : Prop :=
  forall p s x, cf_heap c !! p = Some s -> x ∈ sc_items s -> item_ok x.2.

Lemma SetValue_typed s v x : SetValue s v = Some (x, true) -> typed x.
Proof.
  destruct v as [v|old min max|o1 o2 min max|b]; cbn [SetValue].
  - by intros [= <-].
  - destruct (negb _); [done|]. destruct (read_int s old) as [z|]; [|done]. intros [= <- H]. exists z. split; [done|lia].
  - destruct (range_split _ _ _ _) as [[a b]|]; [|done].
    destruct (read_int a o1) as [n|], (read_int b o2) as [m|]; try done.
    + intros [= <- H]. exists n, m. split_and!; try done; lia.
    + by destruct (min <=? n).
  - destruct (_ || _); [intros [= <-]; by exists true|]. destruct (_ || _); [intros [= <-]; by exists false|done].
Qed.

(** ** Steps *)

Lemma ok_get_section p s (Q : section -> config -> Prop) c :
  cf_heap c !! p = Some s -> Q s c -> ok (get_section p) Q c.
Proof. intros E H. apply wpc_bind, wpc_get. by rewrite E. Qed.
Lemma ok_up_section p f s (Q : unit -> config -> Prop) c :
  cf_heap c !! p = Some s -> Q tt (up_heap (insert p (f s)) c) -> ok (up_section p f) Q c.
Proof. intros E H. apply wpc_bind. eapply ok_get_section; [done|]. by apply wpc_put. Qed.
Lemma ok_subsections o l (Q : list (string * nat) -> config -> Prop) c :
  subs c o = Some l -> Q l c -> ok (subsections o) Q c.
Proof.
  destruct o as [p|]; cbn.
  - intros (s & E & ->)%fmap_Some H. apply wpc_bind. eapply ok_get_section; [done|]. by apply wpc_ret.
  - intros [= <-] H. exact H.
Qed.

(** A section with the same place in the tree. *)
Record alike (s s' : section) : Prop := {
  al_label : sc_label s' = sc_label s; al_type : sc_type s' = sc_type s;
  al_sections : sc_sections s' = sc_sections s; al_parent : sc_parent s' = sc_parent s;
  al_copy : sc_copy s' = sc_copy s; al_keys : (sc_items s').*1 = (sc_items s).*1;
  al_labels : forall x, x ∈ sc_items s' -> it_label x.2 = x.1 }.
Lemma wf_put p s s' c : wf c -> cf_heap c !! p = Some s -> alike s s' -> wf (up_heap (insert p s') c).
Proof.
  intros [W1 W2 W3] E [A1 A2 A3 A4 A5 A6 A7].
  assert (Hs : forall o, subs (up_heap (insert p s') c) o = subs c o).
  { intros [q|]; [|done]. cbn. destruct (decide (q = p)) as [->|].
    - by rewrite lookup_insert_eq, E; cbn; rewrite A3.
    - by rewrite lookup_insert_ne. }
  assert (Hl : forall q t, cf_heap c !! q = Some t -> exists t', cf_heap (up_heap (insert p s') c) !! q = Some t'
            /\ sc_label t' = sc_label t /\ sc_parent t' = sc_parent t /\ sc_copy t' = sc_copy t
            /\ sc_type t' = sc_type t).
  { intros q t Et. cbn. destruct (decide (q = p)) as [->|].
    - rewrite lookup_insert_eq. exists s'. assert (t = s) as -> by congruence. done.
    - rewrite lookup_insert_ne by done. by exists t. }
  assert (Hn : forall q t, node c q t -> forall t', sc_type t' = sc_type t -> sc_copy t' = sc_copy t ->
     sc_sections t' = sc_sections t -> sc_parent t' = sc_parent t -> (sc_items t').*1 = (sc_items t).*1 ->
     (forall x, x ∈ sc_items t' -> it_label x.2 = x.1) -> node (up_heap (insert p s') c) q t').
  { intros q t [N1 N2 N3 N4 N5] t' T1 T2 T3 T4 T5 T6. split; try done.
    - by rewrite T1, T2, T3.
    - rewrite T4. intros r Er. destruct (N3 r Er) as (? & u & Eu & Hu). split; [done|].
      destruct (Hl r u Eu) as (u' & ? & _ & _ & Hc & Ht). exists u'.
      split; [done|]. by rewrite Hc, Ht.
    - by rewrite T5. }
  split.
  - intros o l. rewrite Hs. apply W1.
  - intros o l x. rewrite Hs. intros Ho Hx. destruct (W2 o l x Ho Hx) as (t & Et & L & P).
    destruct (Hl _ t Et) as (t' & ? & ? & ? & _ & _). exists t'. split_and!; [done|congruence|congruence].
  - intros q t. cbn. destruct (decide (q = p)) as [->|].
    + rewrite lookup_insert_eq. intros [= <-]. by eapply Hn; [apply W3|..].
    + rewrite lookup_insert_ne by done. intros Et. pose proof (W3 q t Et) as N. by apply (Hn q t N), N.
Qed.
Lemma alike_refl s : (forall x, x ∈ sc_items s -> it_label x.2 = x.1) -> alike s s.
Proof. done. Qed.
Lemma wf_alike p s s' c :
  wf c -> cf_heap c !! p = Some s -> sc_label s' = sc_label s -> sc_type s' = sc_type s ->
  sc_sections s' = sc_sections s -> sc_parent s' = sc_parent s -> sc_copy s' = sc_copy s ->
  sc_items s' = sc_items s -> wf (up_heap (insert p s') c).
Proof.
  intros W E H1 H2 H3 H4 H5 H6. eapply wf_put; [done|done|]. split; rewrite ?H6; try done.
  by eapply (wf_node _ W).
Qed.
Lemma typed_put p s' c :
  typed_config c -> (forall x, x ∈ sc_items s' -> item_ok x.2) -> typed_config (up_heap (insert p s') c).
Proof.
  intros T H q t x. cbn. destruct (decide (q = p)) as [->|].
  - rewrite lookup_insert_eq. intros [= <-]. apply H.
  - rewrite lookup_insert_ne by done. apply T.
Qed.

(** ** Finding sections *)

(** The section found is an entry with its label which passes the test. *)
Lemma ok_find_section label q l o c :
  (forall x, x ∈ l -> entry c o x) ->
  ok (find_section label q l) (fun r c' => c' = c /\
     forall p, r = Some p -> exists s, cf_heap c !! p = Some s /\ sc_parent s = o /\ sc_label s = label /\ q s = true) c.
Proof.
  induction l as [|[k p] l IH]; intros Hl; cbn [find_section]; [by apply wpc_ret|].
  assert (Hl' : forall x, x ∈ l -> entry c o x) by (intros x Hx; apply Hl; by right).
  destruct (String.eqb_spec k label) as [->|]; [|by apply IH].
  destruct (Hl (label, p)) as (s & E & L & P); [left|]. apply wpc_bind. eapply ok_get_section; [done|].
  destruct (q s) eqn:Eq; [|by apply IH]. apply wpc_ret. split; [done|]. intros p' [= <-]. by exists s.
Qed.
Definition there (o : option nat) (c : config) : Prop := forall p, o = Some p -> is_Some (cf_heap c !! p).
Lemma subs_there o c : there o c -> exists l, subs c o = Some l.
Proof. destruct o as [p|]; [|by eexists]. intros H. destruct (H p eq_refl) as [s E]. exists (sc_sections s). cbn. by rewrite E. Qed.
Lemma ok_GetSection_by q label o c :
  wf c -> there o c ->
  ok (bind (subsections o) (find_section label q)) (fun r c' => c' = c /\
     forall p, r = Some p -> exists s, cf_heap c !! p = Some s /\ sc_parent s = o /\ sc_label s = label /\ q s = true) c.
Proof.
  intros W T. destruct (subs_there _ _ T) as [l El]. apply wpc_bind. eapply ok_subsections; [done|].
  apply ok_find_section. intros x Hx. by eapply (wf_subs _ W).
Qed.

(** ** Adding and removing copies *)

Definition put_subs (o : option nat) (f : list (string * nat) -> list (string * nat)) (c : config) : config :=
  match o with
  | None => up_sections f c
  | Some p => up_heap (alter (fun s => with_sections (f (sc_sections s)) s) p) c
  end.
Lemma subs_put o f c l : subs c o = Some l -> subs (put_subs o f c) o = Some (f l).
Proof.
  destruct o as [p|]; cbn.
  - intros (s & E & ->)%fmap_Some. by rewrite lookup_alter_eq, E.
  - by intros [= <-].
Qed.
Lemma subs_put_other o o' f c : o <> o' -> subs (put_subs o f c) o' = subs c o'.
Proof.
  destruct o as [p|], o' as [q|]; cbn; try done. intros N. by rewrite lookup_alter_ne by congruence.
Qed.
Lemma put_subs_heap o f c q t :
  cf_heap (put_subs o f c) !! q = Some t ->
  exists s, cf_heap c !! q = Some s /\ sc_label t = sc_label s /\ sc_type t = sc_type s /\ sc_parent t = sc_parent s
    /\ sc_copy t = sc_copy s /\ sc_items t = sc_items s
    /\ sc_sections t = if decide (o = Some q) then f (sc_sections s) else sc_sections s.
Proof.
  destruct o as [p|]; cbn; [|intros E; by exists t].
  destruct (decide (q = p)) as [->|N].
  - rewrite lookup_alter_eq. intros (s & E & ->)%fmap_Some. exists s. by rewrite decide_True.
  - rewrite lookup_alter_ne by done. intros E. exists t. rewrite decide_False by congruence. done.
Qed.
Lemma put_subs_back o f c q s :
  cf_heap c !! q = Some s -> exists t, cf_heap (put_subs o f c) !! q = Some t /\ sc_label t = sc_label s
    /\ sc_parent t = sc_parent s /\ sc_copy t = sc_copy s /\ sc_type t = sc_type s.
Proof.
  intros E. destruct o as [p|]; cbn; [|by exists s].
  destruct (decide (q = p)) as [->|N].
  - rewrite lookup_alter_eq, E. by eexists.
  - rewrite lookup_alter_ne by done. by exists s.
Qed.
Lemma put_subs_next o f c : cf_next (put_subs o f c) = cf_next c.
Proof. by destruct o. Qed.

Definition unlink (q : nat) (l : list (string * nat)) : list (string * nat) :=
  List.filter (fun '(_, x) => negb (x =? q)%nat) l.
Lemma elem_of_unlink q l x : x ∈ unlink q l <-> x ∈ l /\ x.2 <> q.
Proof.
  unfold unlink. rewrite list_elem_of_In, filter_In, <- list_elem_of_In. destruct x as [k p]; cbn.
  by rewrite negb_true_iff, Nat.eqb_neq.
Qed.
Lemma unlink_nodup q l : NoDup l.*2 -> NoDup (unlink q l).*2.
Proof.
  induction l as [|[k p] l IH]; [done|]. cbn. intros [H1 H2]%NoDup_cons. destruct (p =? q)%nat; cbn; [by apply IH|].
  apply NoDup_cons. split; [|by apply IH]. intros ([k' p'] & E & Hin)%list_elem_of_fmap. cbn in E. subst p'.
  apply H1. apply list_elem_of_fmap. exists (k', p). split; [done|]. by apply elem_of_unlink in Hin as [? _].
Qed.
(** A copy goes. *)
Definition drop_copy (o : option nat) (q : nat) (c : config) : config := put_subs o (unlink q) (up_heap (delete q) c).
Lemma drop_copy_heap o q c r t :
  cf_heap (drop_copy o q c) !! r = Some t -> r <> q.
Proof.
  intros (s & E & _)%put_subs_heap ->. cbn in E. by rewrite lookup_delete_eq in E.
Qed.
Lemma wf_drop_copy o q t c :
  wf c -> cf_heap c !! q = Some t -> sc_copy t = true -> sc_parent t = o -> wf (drop_copy o q c).
Proof.
  intros [W1 W2 W3] E Hc Hp.
  assert (Live : forall r s, r <> q -> cf_heap c !! r = Some s -> exists s', cf_heap (drop_copy o q c) !! r = Some s'
     /\ sc_label s' = sc_label s /\ sc_parent s' = sc_parent s /\ sc_copy s' = sc_copy s /\ sc_type s' = sc_type s).
  { intros r s N Er. apply put_subs_back. cbn. by rewrite lookup_delete_ne. }
  assert (Subs : forall o' l, subs (drop_copy o q c) o' = Some l -> exists l0, subs c o' = Some l0
     /\ l = if decide (o' = o) then unlink q l0 else l0).
  { intros o' l. destruct (decide (o' = o)) as [->|N].
    - destruct o as [p|]; cbn; [|by intros [= <-]; eexists].
      destruct (decide (p = q)) as [->|Nq].
      + rewrite lookup_alter_eq, lookup_delete_eq. done.
      + rewrite lookup_alter_eq, lookup_delete_ne by done. intros (s & (s0 & Es & ->)%fmap_Some & ->)%fmap_Some.
        exists (sc_sections s0). by rewrite Es.
    - unfold drop_copy. rewrite subs_put_other by done. destruct o' as [p|]; cbn; [|by intros [= <-]; eexists].
      destruct (decide (p = q)) as [->|Nq]; [by rewrite lookup_delete_eq|].
      rewrite lookup_delete_ne by done. intros H. by exists l. }
  split.
  - intros o' l (l0 & H0 & ->)%Subs. destruct (decide _); [apply unlink_nodup|]; by eapply W1.
  - intros o' l x (l0 & H0 & ->)%Subs Hx.
    assert (x ∈ l0 /\ x.2 <> q) as [Hx0 Nq].
    { destruct (decide (o' = o)) as [->|N]; [by apply elem_of_unlink|]. split; [done|]. intros Eq.
      destruct (W2 o' l0 x H0 Hx) as (u & Eu & _ & Pu). rewrite Eq in Eu. congruence. }
    destruct (W2 o' l0 x H0 Hx0) as (u & Eu & Lu & Pu). destruct (Live _ u Nq Eu) as (u' & ? & ? & ? & _).
    exists u'. split_and!; [done|congruence|congruence].
  - intros r s Er. pose proof (drop_copy_heap _ _ _ _ _ Er) as Nq.
    destruct (put_subs_heap _ _ _ _ _ Er) as (s0 & E0 & H1 & H2 & H3 & H4 & H5 & H6). cbn in E0.
    rewrite lookup_delete_ne in E0 by done. destruct (W3 r s0 E0) as [N1 N2 N3 N4 N5].
    split.
    + unfold drop_copy. by rewrite put_subs_next.
    + rewrite H2, H4, H6. intros Hl. rewrite (N2 Hl). by destruct (decide _).
    + rewrite H3. intros u Hu. destruct (N3 u Hu) as (? & v & Ev & Cv & Tv). split; [done|].
      destruct (Live u v) as (v' & ? & _ & _ & Hcv & Htv); [intros ->; congruence|done|]. exists v'.
      split; [done|]. by rewrite Hcv, Htv.
    + by rewrite H5.
    + by rewrite H5.
Qed.

Lemma elem_of_multimap_insert {A} k (a : A) l x : x ∈ multimap_insert k a l <-> x = (k, a) \/ x ∈ l.
Proof.
  induction l as [|[k' a'] l IH]; cbn.
  - rewrite list_elem_of_singleton. split; [by left|]. intros [->|?%not_elem_of_nil]; done.
  - destruct (String.compare k k'); rewrite ?elem_of_cons, ?IH; tauto.
Qed.
Lemma multimap_insert_nodup k (a : nat) l : NoDup l.*2 -> (a ∉ l.*2) -> NoDup (multimap_insert k a l).*2.
Proof.
  induction l as [|[k' a'] l IH]; cbn; [intros _ _; apply NoDup_singleton|].
  intros [H1 H2]%NoDup_cons [H3 H4]%not_elem_of_cons.
  destruct (String.compare k k'); cbn; apply NoDup_cons.
  - split; [|by apply IH]. intros ([k1 a1] & E & Hin)%list_elem_of_fmap. cbn in E. subst a1.
    apply elem_of_multimap_insert in Hin as [[= _ ->]|Hin]; [done|]. apply H1, list_elem_of_fmap. by exists (k1, a').
  - split; [by apply not_elem_of_cons|by apply NoDup_cons].
  - split; [|by apply IH]. intros ([k1 a1] & E & Hin)%list_elem_of_fmap. cbn in E. subst a1.
    apply elem_of_multimap_insert in Hin as [[= _ ->]|Hin]; [done|]. apply H1, list_elem_of_fmap. by exists (k1, a').
Qed.
(** A copy comes. *)
Definition with_copy_of (s : section) : section :=
  Section "" (sc_label s) (sc_description s) (sc_type s) (map (fun '(k, i) => (it_label i, Clone i)) (sc_items s))
    [] (sc_parent s) true (sc_name_item s) (sc_found s).
Definition grown (s : section) (c : config) : config :=
  Cfg (cf_path c) (cf_loaded c) (cf_sections c) (cf_line_count c) (<[cf_next c := s]> (cf_heap c))
      (S (cf_next c)) (cf_stderr c).
Definition add_copy (s : section) (c : config) : config :=
  put_subs (sc_parent s) (multimap_insert (sc_label s) (cf_next c)) (grown (with_copy_of s) c).
Lemma clone_keys (l : list (string * item)) :
  (forall x, x ∈ l -> it_label x.2 = x.1) ->
  (map (fun '(k, i) => (it_label i, Clone i)) l).*1 = (l : list (string * item)).*1.
Proof.
  induction l as [|[k i] l IH]; intros H; [done|]. cbn. f_equal.
  - by apply (H (k, i)); left.
  - apply IH. intros x Hx. apply H. by right.
Qed.
Lemma in_clone (l : list (string * item)) x : x ∈ map (fun '(k, i) => (it_label i, Clone i)) l -> it_label x.2 = x.1 /\ it_found x.2 = false.
Proof. intros ([k i] & <- & _)%list_elem_of_In%in_map_iff. done. Qed.
Lemma wf_add_copy p s c :
  wf c -> cf_heap c !! p = Some s -> sc_type s = MULTIPLE -> sc_copy s = false -> wf (add_copy s c).
Proof.
  intros [W1 W2 W3] E Hm Hns. set (n := cf_next c).
  assert (Fresh : cf_heap c !! n = None).
  { destruct (cf_heap c !! n) as [t|] eqn:En; [|done]. pose proof (node_next _ _ _ (W3 n t En)). unfold n in *. lia. }
  assert (Hg : forall r t, cf_heap c !! r = Some t -> cf_heap (grown (with_copy_of s) c) !! r = Some t).
  { intros r t Er. cbn. rewrite lookup_insert_ne; [done|]. intros <-. unfold n in Fresh. congruence. }
  assert (Live : forall r t, cf_heap c !! r = Some t -> exists t', cf_heap (add_copy s c) !! r = Some t'
     /\ sc_label t' = sc_label t /\ sc_parent t' = sc_parent t /\ sc_copy t' = sc_copy t /\ sc_type t' = sc_type t).
  { intros r t Er. by apply put_subs_back, Hg. }
  assert (Par : forall q, sc_parent s = Some q -> q <> n).
  { intros q Hq. destruct (node_parent _ _ _ (W3 p s E) q Hq) as (? & t & Et & _). intros ->. congruence. }
  assert (Subs : forall o l, subs (add_copy s c) o = Some l -> (o = Some n /\ l = []) \/ exists l0, subs c o = Some l0
     /\ l = if decide (o = sc_parent s) then multimap_insert (sc_label s) n l0 else l0).
  { intros o l Ho. destruct (decide (o = sc_parent s)) as [->|N].
    - right. destruct (subs_there (sc_parent s) c) as [l0 H0].
      { intros q Hq. destruct (node_parent _ _ _ (W3 p s E) q Hq) as (? & t & Et & _). by eexists. }
      exists l0. split; [done|]. unfold add_copy in Ho. rewrite (subs_put _ _ _ l0) in Ho; [by injection Ho|].
      destruct (sc_parent s) as [q|] eqn:Eq; cbn in *; [|done]. rewrite lookup_insert_ne by (by apply not_eq_sym, Par). done.
    - unfold add_copy in Ho. rewrite subs_put_other in Ho by done. destruct o as [q|]; cbn in Ho; [|right; by exists l].
      destruct (decide (q = n)) as [->|Nq].
      + left. rewrite lookup_insert_eq in Ho. injection Ho as <-. done.
      + right. rewrite lookup_insert_ne in Ho by done. by exists l. }
  assert (Nin : forall o l, subs c o = Some l -> n ∉ l.*2).
  { intros o l Ho (x & Ex & Hx)%list_elem_of_fmap. destruct (W2 o l x Ho Hx) as (t & Et & _). congruence. }
  assert (New : cf_heap (add_copy s c) !! n = Some (with_copy_of s)).
  { unfold add_copy, put_subs. destruct (sc_parent s) as [q|] eqn:Eq; cbn; [rewrite lookup_alter_ne by (by apply Par)|];
      apply lookup_insert_eq. }
  split.
  - intros o l [[-> ->]|(l0 & H0 & ->)]%Subs; [constructor|].
    destruct (decide _); [apply multimap_insert_nodup; [|by eapply Nin]|]; by eapply W1.
  - intros o l x [[-> ->]|(l0 & H0 & ->)]%Subs Hx; [by apply not_elem_of_nil in Hx|].
    assert ((x = (sc_label s, n) /\ o = sc_parent s) \/ x ∈ l0) as [[-> ->]|Hx0].
    { destruct (decide (o = sc_parent s)) as [->|]; [|by right].
      apply elem_of_multimap_insert in Hx as [->|Hx]; [by left|by right]. }
    + by exists (with_copy_of s).
    + destruct (W2 o l0 x H0 Hx0) as (t & Et & Lt & Pt). destruct (Live _ t Et) as (t' & ? & ? & ? & _).
      exists t'. split_and!; [done|congruence|congruence].
  - intros r t Er. destruct (decide (r = n)) as [->|N].
    + assert (t = with_copy_of s) as -> by congruence. destruct (W3 p s E) as [N1 N2 N3 N4 N5]. split.
      * unfold add_copy. rewrite put_subs_next. unfold n. cbn. lia.
      * done.
      * cbn. intros q Hq. destruct (N3 q Hq) as (? & u & Eu & Cu & Tu). split; [unfold n; lia|].
        destruct (Live q u Eu) as (u' & ? & _ & _ & Hc & Ht). exists u'. split; [done|]. by rewrite Hc, Ht.
      * cbn. by rewrite clone_keys.
      * cbn. intros x Hx. by apply in_clone in Hx as [? _].
    + destruct (put_subs_heap _ _ _ _ _ Er) as (t0 & E0 & H1 & H2 & H3 & H4 & H5 & H6). cbn in E0.
      rewrite lookup_insert_ne in E0 by done. destruct (W3 r t0 E0) as [N1 N2 N3 N4 N5]. split.
      * unfold add_copy. rewrite put_subs_next. cbn. lia.
      * rewrite H2, H4, H6. intros Hl. rewrite decide_False; [by apply N2|]. intros Hr.
        destruct (node_parent _ _ _ (W3 p s E) r Hr) as (_ & u & Eu & Cu & Tu).
        assert (u = t0) as -> by congruence. by destruct Hl; congruence.
      * rewrite H3. intros u Hu. destruct (N3 u Hu) as (? & v & Ev & Cv & Tv). split; [done|].
        destruct (Live u v Ev) as (v' & ? & _ & _ & Hc & Ht). exists v'. split; [done|]. by rewrite Hc, Ht.
      * by rewrite H5.
      * by rewrite H5.
Qed.

Lemma typed_drop_copy o q c : typed_config c -> typed_config (drop_copy o q c).
Proof.
  intros T r t x (s & E & _ & _ & _ & _ & Hi & _)%put_subs_heap. cbn in E. rewrite Hi.
  apply lookup_delete_Some in E as [_ E]. by eapply T.
Qed.
Lemma typed_add_copy s c : typed_config c -> typed_config (add_copy s c).
Proof.
  intros T r t x (s0 & E & _ & _ & _ & _ & Hi & _)%put_subs_heap. cbn in E. rewrite Hi.
  destruct (decide (r = cf_next c)) as [->|N].
  - rewrite lookup_insert_eq in E. injection E as <-. intros Hx. apply in_clone in Hx as [_ F].
    intros F'. congruence.
  - rewrite lookup_insert_ne in E by done. by eapply T.
Qed.

(** ** Clean *)

Lemma ok_delete_leaf fuel q t c :
  cf_heap c !! q = Some t -> sc_sections t = [] ->
  ok (delete_section (S fuel) q) (fun _ c' => c' = up_heap (delete q) c) c.
Proof.
  intros E Hl. cbn [delete_section]. apply wpc_bind. eapply ok_get_section; [done|]. rewrite Hl.
  apply wpc_bind. cbn. done.
Qed.
(** What the cleaning of the sections of [o] leaves. *)
Definition kept (o : option nat) (c c' : config) : Prop :=
  match o with
  | None => True
  | Some p => cf_sections c' = cf_sections c /\ (forall r, (r < p)%nat -> cf_heap c' !! r = cf_heap c !! r)
      /\ is_Some (cf_heap c' !! p)
  end.
Record cleaned (o : option nat) (c c' : config) : Prop := {
  cl_wf : wf c'; cl_typed : typed_config c -> typed_config c';
  cl_next : cf_next c' = cf_next c; cl_kept : kept o c c' }.
Lemma cleaned_trans o c1 c2 c3 : cleaned o c1 c2 -> cleaned o c2 c3 -> cleaned o c1 c3.
Proof.
  intros [A1 A2 A3 A4] [B1 B2 B3 B4]. split; [done|auto|congruence|]. destruct o as [p|]; [|done].
  destruct A4 as (A4 & A5 & A6), B4 as (B4 & B5 & B6). split_and!; [congruence| |done].
  intros r Hr. by rewrite B5, A5.
Qed.
Definition removal (o : option nat) (q : nat) : M unit :=
  match o with
  | None => put (up_sections (unlink q))
  | Some p => up_section p (fun s => with_sections (unlink q (sc_sections s)) s)
  end.
Definition clean_step (fuel n : nat) (o : option nat) (x : string * nat) : M unit :=
  let '(k, q) := x in
  eff! t := get_section q;
  if sc_copy t then delete_section n q;; removal o q
  else up_section q (with_found false);; clean_section fuel q.
Lemma alter_put f p s c :
  cf_heap c !! p = Some s -> up_heap (insert p (f s)) c = up_heap (alter f p) c.
Proof.
  intros E. unfold up_heap. f_equal. apply map_eq. intros x. destruct (decide (x = p)) as [->|].
  - by rewrite lookup_insert_eq, lookup_alter_eq, E.
  - by rewrite lookup_insert_ne, lookup_alter_ne.
Qed.
Lemma child_above c o q t : wf c -> cf_heap c !! q = Some t -> sc_parent t = o -> forall p, o = Some p -> (p < q)%nat.
Proof. intros W E Hp p ->. by apply (node_parent _ _ _ (wf_node _ W q t E)). Qed.

Definition cleans (fuel : nat) : Prop := forall p s c,
  wf c -> cf_heap c !! p = Some s -> (cf_next c <= fuel + p)%nat ->
  ok (clean_section fuel p) (fun _ c' => cleaned (Some p) c c') c.
Lemma ok_clean_step fuel n o lo x c :
  cleans fuel -> wf c -> there o c -> subs c o = Some lo -> x ∈ lo -> (cf_next c <= fuel + x.2)%nat -> (0 < n)%nat ->
  ok (clean_step fuel n o x) (fun _ c' => cleaned o c c' /\
    exists lo', subs c' o = Some lo' /\ forall y, y ∈ lo -> y.2 <> x.2 -> y ∈ lo') c.
Proof.
  intros F W Th Hs Hx Hn Hpos. destruct x as [k q]. cbn [clean_step snd] in *.
  destruct (wf_subs _ W o lo (k, q) Hs Hx) as (t & E & L & P). cbn in E. cbn [snd] in *.
  pose proof (child_above _ _ _ _ W E P) as Above. apply wpc_bind. eapply ok_get_section; [done|].
  destruct (sc_copy t) eqn:Ec.
  - apply wpc_bind. destruct n as [|n]; [lia|].
    eapply wpc_mono; [eapply ok_delete_leaf; [done|]| |done].
    { apply (node_leaf _ _ _ (wf_node _ W q t E)). by right. }
    intros [] c1 ->. assert (H : ok (removal o q) (fun _ c' => c' = drop_copy o q c) (up_heap (delete q) c)).
    { destruct o as [p|]; [|done]. destruct (Th p eq_refl) as [s Es].
      assert (p <> q) by (specialize (Above p eq_refl); lia).
      eapply (ok_up_section p _ s); [cbn; by rewrite lookup_delete_ne|].
      rewrite (alter_put (fun s => with_sections (unlink q (sc_sections s)) s));
        [done|cbn; by rewrite lookup_delete_ne]. }
    eapply wpc_mono; [exact H| |done]. intros [] c2 ->. split.
    + split; [by eapply wf_drop_copy|apply typed_drop_copy|exact (put_subs_next o (unlink q) (up_heap (delete q) c))|].
      destruct o as [p|]; [|done]. specialize (Above p eq_refl). cbn. split_and!; [done| |].
      * intros r Hr. by rewrite lookup_alter_ne, lookup_delete_ne by lia.
      * destruct (Th p eq_refl) as [s Es]. rewrite lookup_alter_eq, lookup_delete_ne by lia. rewrite Es. by eexists.
    + exists (unlink q lo). split.
      * apply subs_put. destruct o as [p|]; [|done]. specialize (Above p eq_refl). cbn in *.
        by rewrite lookup_delete_ne by lia.
      * intros y Hy Nq. by apply elem_of_unlink.
  - apply wpc_bind. eapply ok_up_section; [done|]. set (c1 := up_heap _ c).
    assert (W1 : wf c1) by (by eapply wf_alike).
    assert (E1 : cf_heap c1 !! q = Some (with_found false t)) by apply lookup_insert_eq.
    eapply wpc_mono; [apply (F q _ c1 W1 E1); exact Hn| |done].
    intros [] c2 [B1 B2 B3 (B4 & B5 & B6)].
    assert (Low : forall p, o = Some p -> forall r, (r <= p)%nat -> cf_heap c2 !! r = cf_heap c !! r).
    { intros p Hp r Hr. specialize (Above p Hp). rewrite B5 by lia. cbn. by rewrite lookup_insert_ne by lia. }
    split.
    + split; [done| |done|].
      * intros T. apply B2. apply typed_put; [done|]. intros y. by apply (T q t).
      * destruct o as [p|]; [|done]. split_and!; [done|intros r Hr; apply (Low p eq_refl); lia|].
        rewrite (Low p eq_refl) by lia. by apply Th.
    + exists lo. split; [|done]. destruct o as [p|]; cbn in *; [by rewrite (Low p eq_refl) by lia|congruence].
Qed.
Lemma ok_clean_loop fuel n o l lo c :
  cleans fuel -> wf c -> there o c -> subs c o = Some lo -> (forall x, x ∈ l -> x ∈ lo) -> NoDup l.*2 ->
  (forall p, o = Some p -> (cf_next c <= fuel + S p)%nat) -> (o = None -> (cf_next c <= fuel)%nat) -> (0 < n)%nat ->
  ok (mapM_ (clean_step fuel n o) l) (fun _ c' => cleaned o c c') c.
Proof.
  intros F. revert lo c. induction l as [|x l IH]; intros lo c W Th Hs Hl Hd Hp Hn Hpos; cbn [mapM_].
  - apply wpc_ret. split; try done. destruct o as [p|]; [|done]. split_and!; [done..|]. by apply Th.
  - apply NoDup_cons in Hd as [Hd1 Hd2].
    assert (Hx : x ∈ lo) by (apply Hl; left). destruct (wf_subs _ W o lo x Hs Hx) as (t & E & _ & P).
    apply wpc_bind. eapply wpc_mono; [apply (ok_clean_step fuel n o lo x c); try done| |done].
    { destruct o as [p|]; [specialize (Hp p eq_refl); pose proof (child_above _ _ _ _ W E P p eq_refl); lia|].
      specialize (Hn eq_refl). lia. }
    intros [] c1 [C1 (lo1 & Hs1 & Hin)]. eapply wpc_mono; [apply (IH lo1 c1); try done| |done].
    + apply C1.
    + intros p ->. apply C1.
    + intros y Hy. apply Hin; [apply Hl; by right|]. intros Eq. apply Hd1. apply list_elem_of_fmap. by exists y.
    + intros p Eo. rewrite (cl_next _ _ _ C1). by apply Hp.
    + intros Eo. rewrite (cl_next _ _ _ C1). by apply Hn.
    + intros [] c2 C2. by eapply cleaned_trans.
Qed.
Lemma not_found_keys (l : list (string * item)) : (map (fun '(k, i) => (k, set_item_found false i)) l).*1 = l.*1.
Proof. induction l as [|[k i] l IH]; [done|]. cbn. by f_equal. Qed.
Lemma ok_clean_section fuel : cleans fuel.
Proof.
  induction fuel as [|fuel IH]; intros p s c W E Hn.
  { pose proof (node_next _ _ _ (wf_node _ W p s E)). lia. }
  cbn [clean_section]. apply wpc_bind. eapply ok_get_section; [done|]. apply wpc_bind.
  pose proof (node_next _ _ _ (wf_node _ W p s E)) as Hpn.
  assert (Hfuel : fuel = 0%nat -> sc_sections s = []).
  { intros ->. destruct (sc_sections s) as [|[k q] l] eqn:Es; [done|].
    destruct (wf_subs _ W (Some p) (sc_sections s) (k, q)) as (t & Et & _ & Pt);
      [cbn; by rewrite E|rewrite Es; left|]. cbn in Et.
    pose proof (child_above _ _ _ _ W Et Pt p eq_refl). pose proof (node_next _ _ _ (wf_node _ W q t Et)). lia. }
  eapply (wpc_mono _ _ (fun _ c' => cleaned (Some p) c c') _ (fun _ _ => False)); [| |done].
  - destruct fuel as [|fuel].
    + rewrite Hfuel by done. apply wpc_ret. split; done.
    + change (ok (mapM_ (clean_step (S fuel) (S fuel) (Some p)) (sc_sections s)) (fun _ c' => cleaned (Some p) c c') c).
      eapply (ok_clean_loop (S fuel) (S fuel) (Some p) (sc_sections s) (sc_sections s)); try done.
      * intros q [= <-]. by eexists.
      * cbn. by rewrite E.
      * apply (wf_nodup _ W (Some p)). cbn. by rewrite E.
      * intros q [= <-]. lia.
      * lia.
  - intros [] c1 C1. destruct (cl_kept _ _ _ C1) as (K1 & K2 & [s1 E1]). eapply ok_up_section; [done|].
    pose proof (wf_node _ (cl_wf _ _ _ C1) p s1 E1) as N.
    assert (Hi : forall x, x ∈ map (fun '(k, i) => (k, set_item_found false i)) (sc_items s1) ->
               it_label x.2 = x.1 /\ it_found x.2 = false).
    { intros x ([k i] & <- & Hin)%list_elem_of_In%in_map_iff. split; [|done]. apply list_elem_of_In in Hin.
      by apply (node_labels _ _ _ N (k, i)). }
    split.
    + eapply wf_put; [apply C1|done|]. split; cbn; try done; [apply not_found_keys|]. intros x Hx. by apply Hi.
    + intros T. apply typed_put; [by apply C1|]. intros x Hx F. cbn in Hx. apply Hi in Hx as [_ ?]. congruence.
    + apply C1.
    + cbn. split_and!; [done|intros r Hr; rewrite lookup_insert_ne by lia; auto|]. rewrite lookup_insert_eq. by eexists.
Qed.
Lemma ok_Clean c : wf c -> ok Clean (fun _ c' => wf c' /\ (typed_config c -> typed_config c')) c.
Proof.
  intros W. unfold Clean. apply wpc_bind, wpc_get, wpc_bind, wpc_get.
  change (ok (mapM_ (clean_step (cf_next c) (cf_next c) None) (cf_sections c))
    (fun _ c' => wf c' /\ (typed_config c -> typed_config c')) c).
  destruct (cf_sections c) as [|x l] eqn:El; [by apply wpc_ret|]. rewrite <- El.
  eapply wpc_mono; [eapply (ok_clean_loop (cf_next c) (cf_next c) None (cf_sections c) (cf_sections c)); try done| |done].
  - apply ok_clean_section.
  - by apply (wf_nodup _ W None).
  - destruct (wf_subs _ W None (cf_sections c) x) as (t & Et & _); [done|rewrite El; left|].
    pose proof (node_next _ _ _ (wf_node _ W _ t Et)). lia.
  - by intros [] c' [].
Qed.

(** ** Reading *)

Lemma wf_ext c c' :
  cf_heap c' = cf_heap c -> cf_sections c' = cf_sections c -> cf_next c' = cf_next c -> wf c -> wf c'.
Proof.
  intros E1 E2 E3 [W1 W2 W3].
  assert (Hs : forall o, subs c' o = subs c o) by (intros [p|]; cbn; congruence).
  split.
  - intros o l. rewrite Hs. apply W1.
  - intros o l x. rewrite Hs. unfold entry. rewrite E1. apply W2.
  - intros p s. rewrite E1. intros E. destruct (W3 p s E). split; rewrite ?E1, ?E3; done.
Qed.
(** [error] is what [Load] knows: without an error the values are typed. *)
Definition inv (error : bool) (c : config) : Prop := wf c /\ (error = false -> typed_config c).
Lemma inv_true e c : inv e c -> inv true c.
Proof. by intros [W _]. Qed.
Lemma ok_Error x e o c :
  inv e c -> there o c -> ok (Error x) (fun _ c' => inv e c' /\ there o c') c.
Proof. intros [W T] Th. apply wpc_put. split; [|done]. split; [|done]. by eapply wf_ext; [..|exact W]. Qed.
Lemma ok_up_subsections o f (Q : unit -> config -> Prop) c :
  there o c -> Q tt (put_subs o f c) -> ok (up_subsections o f) Q c.
Proof.
  destruct o as [p|]; [|done]. intros Th H. destruct (Th p eq_refl) as [s E].
  eapply ok_up_section; [done|]. by rewrite (alter_put (fun s => with_sections (f (sc_sections s)) s)).
Qed.
Lemma there_put p s o c : there o c -> there o (up_heap (insert p s) c).
Proof.
  intros Th q Hq. cbn. destruct (decide (q = p)) as [->|]; [rewrite lookup_insert_eq; by eexists|].
  rewrite lookup_insert_ne by done. by apply Th.
Qed.
Lemma inv_alike e p s s' c :
  inv e c -> cf_heap c !! p = Some s -> sc_label s' = sc_label s -> sc_type s' = sc_type s ->
  sc_sections s' = sc_sections s -> sc_parent s' = sc_parent s -> sc_copy s' = sc_copy s ->
  sc_items s' = sc_items s -> inv e (up_heap (insert p s') c).
Proof.
  intros [W T] E ? ? ? ? ? Hi. split; [by eapply wf_alike|]. intros He. apply typed_put; [by apply T|].
  intros x. rewrite Hi. by apply (T He p s).
Qed.

Lemma ok_copy s p n (Q : nat -> config -> Prop) c :
  wf c -> cf_heap c !! p = Some s -> sc_type s = MULTIPLE -> sc_copy s = false -> (0 < n)%nat ->
  Q (cf_next c) (add_copy s c) ->
  ok (eff! k := copy_section n p; up_section k (with_copy true);; add_section (sc_parent s) k;; ret k) Q c.
Proof.
  intros W E Hm Hc Hn HQ. destruct n as [|n]; [lia|]. cbn [copy_section].
  apply wpc_bind, wpc_bind. eapply ok_get_section; [done|]. apply wpc_bind. unfold alloc, wpc at 1.
  rewrite (node_leaf _ _ _ (wf_node _ W p s E)) by by left. apply wpc_bind, wpc_ret, wpc_ret, wpc_bind.
  set (c1 := Cfg _ _ _ _ _ _ _). set (leaf := Section _ _ _ _ _ _ _ _ _ _) in c1.
  eapply (ok_up_section _ _ leaf); [apply lookup_insert_eq|]. apply wpc_bind.
  assert (E1 : up_heap (insert (cf_next c) (with_copy true leaf)) c1 = grown (with_copy_of s) c).
  { unfold up_heap, grown, c1. cbn. by rewrite insert_insert_eq. }
  rewrite E1. unfold add_section. apply wpc_bind. eapply ok_get_section; [apply lookup_insert_eq|].
  apply ok_up_subsections; [|by apply wpc_ret]. intros q Hq.
  destruct (node_parent _ _ _ (wf_node _ W p s E) q Hq) as (Hlt & t & Et & _).
  pose proof (node_next _ _ _ (wf_node _ W p s E)). cbn. rewrite lookup_insert_ne by lia. by eexists.
Qed.
Definition opened (r : option nat * bool) (c : config) : Prop := inv r.2 c /\ there r.1 c.
Lemma ok_load_open o ligne e c :
  inv e c -> there o c -> ok (load_open o ligne e) opened c.
Proof.
  intros I Th. assert (W : wf c) by apply I. unfold load_open. destruct (Tok.stringtok ligne " ") as [tab rest].
  apply wpc_bind. eapply wpc_mono; [by apply (ok_GetSection_by (fun s => negb (sc_copy s)))| |done].
  intros [p|] c' [-> H].
  2:{ apply wpc_bind. eapply wpc_mono; [apply (ok_Error _ true None); [by eapply inv_true|done]| |done].
      intros [] c1 [I1 _]. by apply wpc_ret. }
  destruct (H p eq_refl) as (s & E & Ps & _ & Hc%negb_true_iff). clear H.
  apply wpc_bind. eapply ok_up_section; [done|]. set (s1 := with_found true s). set (c1 := up_heap _ c).
  assert (I1 : inv e c1) by by eapply inv_alike.
  assert (E1 : cf_heap c1 !! p = Some s1) by apply lookup_insert_eq.
  apply wpc_bind. eapply ok_get_section; [done|]. destruct (IsMultiple s1) eqn:Em.
  2:{ apply wpc_ret. split; [done|]. intros q [= <-]. by exists s1. }
  apply bool_decide_eq_true in Em. apply wpc_bind, wpc_get.
  pose proof (node_next _ _ _ (wf_node _ (proj1 I1) p s1 E1)) as Hn.
  assert (K : ok (eff! k := copy_section (cf_next c1) p; up_section k (with_copy true);; add_section (sc_parent s1) k;; ret k)
    (fun k c' => inv e c' /\ is_Some (cf_heap c' !! k)) c1).
  { apply (ok_copy s1); [apply I1|done|done|done|lia|]. split.
    - split; [by eapply wf_add_copy; [apply I1|..]|]. intros He. by apply typed_add_copy, I1.
    - unfold add_copy. destruct (put_subs_back (sc_parent s1) (multimap_insert (sc_label s1) (cf_next c1))
        (grown (with_copy_of s1) c1) (cf_next c1) (with_copy_of s1)) as (t & Et & _); [apply lookup_insert_eq|]. by eexists. }
  unfold wpc, bind, ret in K |- *. destruct (copy_section _ _ _) as [c2 [k|x|w]]; try done.
  destruct (up_section _ _ _) as [c3 [[]|x|w]]; try done. destruct (add_section _ _ _) as [c4 [[]|x|w]]; try done.
  destruct K as [I4 S4]. split; [done|]. by intros q [= <-].
Qed.

(** ** Items *)

Definition upd (label : string) (f : item -> item) (l : list (string * item)) : list (string * item) :=
  map (fun '(k, i) => if String.eqb k label then (k, f i) else (k, i)) l.
Lemma upd_keys label f l : (upd label f l).*1 = l.*1.
Proof. unfold upd. induction l as [|[k i] l IH]; [done|]. cbn. destruct (String.eqb k label); cbn; by f_equal. Qed.
Lemma in_upd label f l x :
  x ∈ upd label f l -> exists i, (x.1, i) ∈ l /\ x.2 = if String.eqb x.1 label then f i else i.
Proof.
  unfold upd. intros ([k i] & E & Hin)%list_elem_of_In%in_map_iff. apply list_elem_of_In in Hin. exists i.
  destruct (String.eqb k label) eqn:Ek; subst x; cbn; by rewrite Ek.
Qed.
Lemma alike_upd label f s :
  (forall x, x ∈ sc_items s -> it_label x.2 = x.1) -> (forall i, it_label (f i) = it_label i) ->
  alike s (with_items (upd label f (sc_items s)) s).
Proof.
  intros H Hf. split; try done; [apply upd_keys|]. intros x (i & Hi & ->)%in_upd. apply H in Hi. cbn in Hi.
  destruct (String.eqb _ _); by rewrite ?Hf.
Qed.
Lemma wf_upd p s label f c :
  wf c -> cf_heap c !! p = Some s -> (forall i, it_label (f i) = it_label i) ->
  wf (up_heap (insert p (with_items (upd label f (sc_items s)) s)) c).
Proof. intros W E Hf. eapply wf_put; [done|done|]. apply alike_upd; [|done]. apply (wf_node _ W p s E). Qed.
Lemma map_find_in {A} k (l : list (string * A)) a : map_find k l = Some a -> (k, a) ∈ l.
Proof.
  induction l as [|[k' a'] l IH]; [done|]. cbn. destruct (String.eqb_spec k' k) as [->|].
  - intros [= ->]. left.
  - intros H. right. by apply IH.
Qed.

Lemma ok_load_item p s ligne e c :
  inv e c -> cf_heap c !! p = Some s ->
  ok (load_item p ligne e) (fun e' c' => inv e' c' /\ there (Some p) c') c.
Proof.
  intros I E. assert (W : wf c) by apply I. pose proof (wf_node _ W p s E) as N.
  assert (Th : there (Some p) c) by (intros q [= <-]; by exists s).
  assert (Bad : forall x c, inv true c -> there (Some p) c ->
     ok (Error x;; ret true)%eff (fun e' c' => inv e' c' /\ there (Some p) c') c).
  { intros x c0 I0 T0. apply wpc_bind. eapply wpc_mono; [by apply (ok_Error _ true (Some p))| |done].
    intros [] c1 H1. by apply wpc_ret. }
  unfold load_item. destruct (Tok.stringtok ligne " ") as [label rest]. apply wpc_bind.
  apply wpc_bind. eapply ok_get_section; [done|]. apply wpc_ret.
  destruct (map_find label (sc_items s)) as [i|] eqn:Ei; [|apply Bad; [by eapply inv_true|done]].
  apply map_find_in in Ei. pose proof (node_labels _ _ _ N _ Ei) as Li. cbn in Li. cbv zeta.
  set (v := skip _ _). destruct (sempty v); [apply Bad; [by eapply inv_true|done]|].
  apply wpc_bind. eapply ok_get_section; [done|]. apply wpc_bind.
  apply (wpc_mono _ _ (fun other c' => if other : bool then inv true c' /\ there (Some p) c'
    else inv e c' /\ exists s', cf_heap c' !! p = Some s' /\ sc_items s' = sc_items s) _ (fun _ _ => False)); [| |done].
  { destruct (bool_decide _); [|apply wpc_ret; split; [done|by exists s]]. apply wpc_bind.
    eapply wpc_mono; [apply (ok_GetSection_by (fun t => String.eqb (sc_label t) (sc_label s) && IsMultiple t && String.eqb (sc_name t) v)); [done|]| |done].
    { intros q Hq. destruct (node_parent _ _ _ N q Hq) as (_ & t & Et & _). by eexists. }
    intros [q|] c' [-> H].
    - destruct (H q eq_refl) as (t & Et & _). apply wpc_bind. eapply ok_get_section; [done|]. apply wpc_bind.
      eapply wpc_mono; [by apply (ok_Error _ true (Some p)); [by eapply inv_true|]| |done].
      intros [] c1 H1. by apply wpc_ret.
    - apply wpc_bind. eapply ok_up_section; [done|]. apply wpc_ret. split; [by eapply inv_alike|].
      exists (with_name v s). split; [apply lookup_insert_eq|done]. }
  intros [] c1 H1; [by apply wpc_ret|]. destruct H1 as (I1 & s1 & E1 & Es1). clear I E W N Th Bad c.
  apply wpc_bind. eapply ok_up_section; [done|]. fold (upd label (set_item_found true) (sc_items s1)).
  set (s2 := with_items _ s1). set (c2 := up_heap _ c1).
  assert (W2 : wf c2) by (apply wf_upd; [apply I1|done|done]).
  assert (E2 : cf_heap c2 !! p = Some s2) by apply lookup_insert_eq.
  apply wpc_bind. unfold SetValue_item. destruct (SetValue v (it_value i)) as [[x okv]|] eqn:Ev; [|by apply wpc_crash].
  apply wpc_bind. eapply ok_up_section; [done|]. fold (upd (it_label i) (set_item_value x) (sc_items s2)).
  set (s3 := with_items _ s2). set (c3 := up_heap _ c2).
  assert (W3 : wf c3) by (apply wf_upd; [done|done|done]).
  assert (Th3 : there (Some p) c3) by (intros q [= <-]; exists s3; apply lookup_insert_eq).
  apply wpc_ret. destruct okv.
  - apply wpc_ret. split; [|done]. split; [done|]. intros He. destruct I1 as [_ T1]. specialize (T1 He).
    intros q t y. cbn. destruct (decide (q = p)) as [->|Nq].
    2:{ rewrite !lookup_insert_ne by done. apply T1. }
    rewrite lookup_insert_eq. intros [= <-]. intros (i2 & (i1 & Hi1 & E12)%in_upd & Ey)%in_upd. cbn in E12.
    rewrite Ey. destruct (String.eqb_spec y.1 (it_label i)) as [_|Ny].
    + intros _. cbn. by eapply SetValue_typed.
    + rewrite Li in Ny. rewrite E12. apply String.eqb_neq in Ny. rewrite Ny. by apply (T1 p s1 (y.1, i1)).
  - apply wpc_bind. eapply wpc_mono; [by apply (ok_Error _ true (Some p))| |done].
    intros [] c4 H4. by apply wpc_ret.
Qed.

(** ** Lines *)

Lemma inv_line_count n e c : inv e c -> inv e (up_line_count n c).
Proof. intros [W T]. split; [by eapply wf_ext; [..|exact W]|exact T]. Qed.
Lemma ok_load_line ligne st c : opened st c -> ok (load_line ligne st) opened c.
Proof.
  destruct st as [o e]. intros [I Th]. cbn in I, Th. unfold load_line.
  apply wpc_bind, wpc_get, wpc_bind, wpc_put. set (c1 := up_line_count _ c).
  assert (I1 : inv e c1) by by apply inv_line_count.
  assert (Th1 : there o c1) by done. clearbody c1. clear I Th c. cbv zeta. set (l := skip _ _).
  destruct (_ || _); [by apply wpc_ret|].
  assert (Bad : forall x o, there o c1 -> ok (Error x;; ret (o, true))%eff opened c1).
  { intros x o' To. apply wpc_bind. eapply wpc_mono; [apply (ok_Error _ true o'); [by eapply inv_true|done]| |done].
    intros [] c2 [I2 T2]. by apply wpc_ret. }
  destruct (has_char "=" l).
  { destruct o as [p|]; [|by apply Bad]. destruct (Th1 p eq_refl) as [s E]. apply wpc_bind.
    eapply wpc_mono; [by eapply ok_load_item| |done]. intros e' c2 [I2 T2]. by apply wpc_ret. }
  destruct (Ascii.eqb _ _).
  { destruct o as [p|]; [|by apply Bad]. destruct (Th1 p eq_refl) as [s E]. apply wpc_bind.
    eapply ok_get_section; [done|].
    assert (Tp : there (sc_parent s) c1).
    { intros q Hq. destruct (node_parent _ _ _ (wf_node _ (proj1 I1) p s E) q Hq) as (_ & t & Et & _). by eexists. }
    destruct (_ && _); [by apply Bad|]. by apply wpc_ret. }
  eapply wpc_mono; [by apply ok_load_open| |done]. intros r c2 H2. exact H2.
Qed.
Lemma ok_load_lines ls st c : opened st c -> ok (load_lines ls st) opened c.
Proof.
  revert st c. induction ls as [|l ls IH]; intros st c H; cbn [load_lines]; [by apply wpc_ret|].
  apply wpc_bind. eapply wpc_mono; [by apply ok_load_line| |done]. intros st' c' H'. by apply IH.
Qed.

(** ** FindEmpty *)

(** No section moves and nothing becomes found. *)
Definition same_place (s s' : section) : Prop :=
  sc_label s' = sc_label s /\ sc_parent s' = sc_parent s /\ sc_sections s' = sc_sections s
  /\ forall k, (forall i, (k, i) ∈ sc_items s -> it_found i = false) ->
       forall i, (k, i) ∈ sc_items s' -> it_found i = false.
Record settled (c c' : config) : Prop := {
  st_wf : wf c'; st_typed : typed_config c -> typed_config c'; st_next : cf_next c' = cf_next c;
  st_sections : cf_sections c' = cf_sections c;
  st_place : forall p s, cf_heap c !! p = Some s -> exists s', cf_heap c' !! p = Some s' /\ same_place s s' }.
Lemma settled_refl c : wf c -> settled c c.
Proof. intros W. split; try done. intros p s E. by exists s. Qed.
Lemma settled_trans c1 c2 c3 : settled c1 c2 -> settled c2 c3 -> settled c1 c3.
Proof.
  intros [A1 A2 A3 A4 A5] [B1 B2 B3 B4 B5]. split; [done|auto|congruence|congruence|].
  intros p s E. destruct (A5 p s E) as (s2 & E2 & P1 & P2 & P3 & P4). destruct (B5 p s2 E2) as (s3 & E3 & Q1 & Q2 & Q3 & Q4).
  exists s3. split; [done|]. split_and!; [congruence..|]. intros k Hk. apply Q4. by apply P4.
Qed.
Lemma settled_Error x c : wf c -> ok (Error x) (fun _ c' => settled c c') c.
Proof.
  intros W. apply wpc_put. split; try done; [by eapply wf_ext; [..|exact W]|]. intros p s E. by exists s.
Qed.
(** A default value goes into an item which is not found. *)
Lemma ok_default p s i v c :
  wf c -> cf_heap c !! p = Some s -> (forall j, (it_label i, j) ∈ sc_items s -> it_found j = false) ->
  ok (SetValue_item p i v) (fun _ c' => settled c c') c.
Proof.
  intros W E Hf. unfold SetValue_item. destruct (SetValue v (it_value i)) as [[x okv]|]; [|by apply wpc_crash].
  apply wpc_bind. eapply ok_up_section; [done|]. fold (upd (it_label i) (set_item_value x) (sc_items s)). apply wpc_ret.
  assert (Hu : forall y, y ∈ upd (it_label i) (set_item_value x) (sc_items s) ->
     exists j, (y.1, j) ∈ sc_items s /\ it_found y.2 = it_found j /\ (it_found j = true -> y.2 = j)).
  { intros y (j & Hj & Ey)%in_upd. exists j. rewrite Ey. destruct (String.eqb_spec y.1 (it_label i)) as [El|]; [|done].
    split_and!; [done..|]. rewrite El in Hj. rewrite (Hf j Hj). done. }
  split; try done.
  - by apply wf_upd.
  - intros T. apply typed_put; [done|]. intros y Hy F. destruct (Hu y Hy) as (j & Hj & Ef & Ey).
    rewrite Ef in F. rewrite (Ey F). by apply (T p s (y.1, j)).
  - intros q t Et. cbn. destruct (decide (q = p)) as [->|].
    + rewrite lookup_insert_eq. eexists. split; [reflexivity|]. assert (t = s) as -> by congruence.
      split_and!; [done..|]. intros k Hk j Hj. destruct (Hu (k, j) Hj) as (j0 & Hj0 & Ef & _). cbn in Ef. rewrite Ef. by eapply Hk.
    + rewrite lookup_insert_ne by done. by exists t.
Qed.
Lemma ok_empty_items p s l e c :
  wf c -> cf_heap c !! p = Some s ->
  (forall x, x ∈ l -> it_label x.2 = x.1 /\ (it_found x.2 = false -> forall j, (x.1, j) ∈ sc_items s -> it_found j = false)) ->
  ok (empty_items p l e) (fun _ c' => settled c c') c.
Proof.
  revert s e c. induction l as [|[k i] l IH]; intros s e c W E Hl; cbn [empty_items]; [by apply wpc_ret, settled_refl|].
  destruct (Hl (k, i)) as [Lk Hk]; [left|]. cbn in Lk, Hk.
  destruct (it_found i) eqn:Fi; [apply (IH s); [done..|]; intros x Hx; apply Hl; by right|].
  apply wpc_bind. apply (wpc_mono _ _ (fun _ c' => settled c c') _ (fun _ _ => False)); [| |done].
  { destruct (sempty (it_def i)); [by apply wpc_ret, settled_refl|]. apply wpc_bind.
    eapply wpc_mono; [apply (ok_default p s); [done..|]; rewrite Lk; by apply Hk| |done].
    intros b c1 S1. by apply wpc_ret. }
  intros bad c1 S1. destruct (st_place _ _ S1 p s E) as (s1 & E1 & Q1 & Q2 & Q3 & Q4).
  apply wpc_bind. eapply ok_get_section; [done|].
  assert (Next : forall e' c2, settled c1 c2 -> ok (empty_items p l e') (fun _ c' => settled c c') c2).
  { intros e' c2 S2. destruct (st_place _ _ S2 p s1 E1) as (s2 & E2 & _ & _ & _ & R4).
    eapply wpc_mono; [apply (IH s2); [apply S2|done|]| |done].
    - intros x Hx. destruct (Hl x) as [Lx Hx2]; [by right|]. split; [done|]. intros Fx. apply R4, Q4. by apply Hx2.
    - intros r c3 S3. eapply settled_trans; [exact S1|]. by eapply settled_trans. }
  destruct (_ && _); [|apply Next, settled_refl, S1].
  apply wpc_bind. eapply wpc_mono; [by apply settled_Error, S1| |done]. intros [] c2 S2. by apply Next.
Qed.
Lemma ok_empty_sections find begin o l lo e c :
  wf c -> subs c o = Some lo -> (forall x, x ∈ l -> x ∈ lo) ->
  (forall q t c', wf c' -> cf_next c' = cf_next c -> cf_heap c' !! q = Some t -> sc_parent t = o ->
     ok (find q) (fun _ c'' => settled c' c'') c') ->
  ok (empty_sections find begin l e) (fun _ c' => settled c c') c.
Proof.
  revert e c. induction l as [|[k q] l IH]; intros e c W Hs Hl Hf; cbn [empty_sections]; [by apply wpc_ret, settled_refl|].
  destruct (wf_subs _ W o lo (k, q) Hs) as (t & Et & _ & Pt); [apply Hl; left|]. cbn in Et.
  apply wpc_bind. eapply ok_get_section; [done|].
  assert (Next : forall e' c1, settled c c1 -> ok (empty_sections find begin l e') (fun _ c' => settled c c') c1).
  { intros e' c1 S1. eapply wpc_mono; [apply IH| |done].
    - apply S1.
    - destruct o as [p|]; cbn in *; [|by rewrite (st_sections _ _ S1)].
      apply fmap_Some in Hs as (s & Es & ->). destruct (st_place _ _ S1 p s Es) as (s1 & -> & _ & _ & H3 & _).
      cbn. by rewrite H3.
    - intros x Hx. apply Hl. by right.
    - intros q' t' c' W' N'. apply Hf; [done|]. by rewrite N', (st_next _ _ S1).
    - intros r c2 S2. exact (settled_trans _ _ _ S1 S2). }
  destruct (_ && _).
  - apply wpc_bind. eapply wpc_mono; [by apply settled_Error| |done]. intros [] c1 S1. by apply Next.
  - apply wpc_bind. eapply wpc_mono; [by eapply Hf| |done]. intros r c1 S1. by apply Next.
Qed.
Lemma ok_find_empty fuel p s c :
  wf c -> cf_heap c !! p = Some s -> (cf_next c <= fuel + p)%nat ->
  ok (find_empty fuel p) (fun _ c' => settled c c') c.
Proof.
  revert p s c. induction fuel as [|fuel IH]; intros p s c W E Hn.
  { pose proof (node_next _ _ _ (wf_node _ W p s E)). lia. }
  cbn [find_empty]. apply wpc_bind. eapply ok_get_section; [done|]. destruct (_ && _); [by apply wpc_ret, settled_refl|].
  apply wpc_bind. pose proof (wf_node _ W p s E) as N. eapply wpc_mono; [apply (ok_empty_items p s); [done..|]| |done].
  { intros [k i] Hx. split; [by apply (node_labels _ _ _ N (k, i))|]. cbn. intros Fi j Hj.
    assert (H : forall (l : list (string * item)) j, NoDup l.*1 -> (k, i) ∈ l -> (k, j) ∈ l -> i = j).
    { intros l j0 Hd H1 H2. apply list_elem_of_lookup in H1 as [n1 H1]. apply list_elem_of_lookup in H2 as [n2 H2].
      assert (n1 = n2) as -> by (eapply NoDup_lookup; [exact Hd|rewrite list_lookup_fmap, H1; done|by rewrite list_lookup_fmap, H2]).
      congruence. }
    by rewrite <- (H _ j (node_items _ _ _ N) Hx Hj). }
  intros e c1 S1. destruct (st_place _ _ S1 p s E) as (s1 & E1 & _ & _ & H3 & _).
  eapply wpc_mono; [apply (ok_empty_sections _ _ (Some p) (sc_sections s) (sc_sections s)); [apply S1| |done|]| |done].
  - cbn. by rewrite E1, <- H3.
  - intros q t c' W' N' Et Pt. apply (IH q t); [done..|]. rewrite N', (st_next _ _ S1).
    pose proof (child_above _ _ _ _ W' Et Pt p eq_refl). lia.
  - intros r c2 S2. exact (settled_trans _ _ _ S1 S2).
Qed.
Lemma ok_FindEmpty c : wf c -> ok FindEmpty (fun _ c' => settled c c') c.
Proof.
  intros W. unfold FindEmpty. apply wpc_bind, wpc_get, wpc_bind, wpc_get.
  apply (ok_empty_sections _ _ None (cf_sections c) (cf_sections c)); [done..|].
  intros q t c' W' N' Et Pt. apply (ok_find_empty _ q t); [done..|]. lia.
Qed.

(** ** Load *)

Lemma load_end rf path c :
  wf c -> typed_config c ->
  wpc unset (load rf path) (fun r c' => wf c' /\ (r = true -> typed_config c')) (fun _ _ => sempty path = true) c.
Proof.
  intros W T. unfold load. apply wpc_bind.
  apply (wpc_mono _ _ (fun _ c' => wf c' /\ typed_config c' /\ (sempty path = false -> cf_path c' = path)) _ (fun _ _ => False)); [| |done].
  { destruct (sempty path) eqn:Ep; cbn [negb when]; [by apply wpc_ret|]. apply wpc_put.
    split_and!; [by eapply wf_ext; [..|exact W]|exact T|done]. }
  intros [] c1 (W1 & T1 & P1). clear W T c. apply wpc_bind, wpc_get. destruct (sempty (cf_path c1)) eqn:Ep.
  { apply wpc_throw. destruct (sempty path) eqn:Ep'; [done|]. rewrite P1 in Ep by done. congruence. }
  destruct (rf _) as [lines|].
  2:{ apply wpc_bind, wpc_put, wpc_ret. split; [by eapply wf_ext; [..|exact W1]|done]. }
  eapply (wpc_mono _ _ _ _ (fun _ _ => False)); [|intros r c' H; exact H|done].
  apply wpc_bind. eapply wpc_mono; [by apply ok_Clean| |done]. intros [] c2 [W2 T2]. specialize (T2 T1).
  apply wpc_bind, wpc_put, wpc_bind.
  eapply wpc_mono; [apply ok_load_lines| |done].
  { split; [|done]. by apply inv_line_count. }
  intros [o e] c3 [I3 Th3]. cbn [fst snd] in *. apply wpc_bind.
  apply (wpc_mono _ _ (fun e' c' => inv e' c') _ (fun _ _ => False)); [| |done].
  { destruct o as [p|]; [|by apply wpc_ret]. destruct (Th3 p eq_refl) as [s E]. apply wpc_bind.
    eapply ok_get_section; [done|]. apply wpc_bind.
    eapply wpc_mono; [apply (ok_Error _ true (Some p)); [by eapply inv_true|done]| |done].
    intros [] c4 [I4 _]. by apply wpc_ret. }
  intros e' c4 [W4 T4]. apply wpc_bind. eapply wpc_mono; [by apply ok_FindEmpty| |done].
  intros missing c5 S5. apply wpc_bind.
  apply (wpc_mono _ _ (fun _ c' => wf c' /\ (typed_config c5 -> typed_config c')) _ (fun _ _ => False)); [| |done].
  { destruct (negb _); cbn [when]; [|apply wpc_ret; split; [apply S5|done]]. apply wpc_put.
    split; [by eapply wf_ext; [..|apply S5]|done]. }
  intros [] c6 [W6 T6]. apply wpc_ret. split; [done|]. intros Hr. apply T6, S5, T4.
  by destruct e'.
Qed.
End ConfigWf.
