(* ===== verification/ConfigProps.v ===== *)
(** What the reading of the configuration promises, and what it lets through. *)

From S2P Require Import Prelude Util Message Dcc Effects Config ConfigProofs.
Import Eff Config ConfigWf.
#[local] Open Scope eff_scope.

(** C20: from the declared sections, or from what an earlier reading left, [Load]
    ends whatever the file holds: no section is dangling and no fuel is missing; the
    only comparison that is not defined is that of an interval bound the text does
    not give.  The tree of sections stays well formed, and when [Load] answers true
    every item the file sets holds a value of its type within its bounds. *)
Theorem load_typed (read_file : string -> option (list string)) (path : string) (c : config) :
  wf c -> typed_config c ->
  wpc unset (load read_file path) (fun r c' => wf c' /\ (r = true -> typed_config c'))
    (fun _ _ => sempty path = true) c.
Proof. apply load_end. Qed.

(** ** A section as a text *)

Section Print.
(** A word of the file: what the reading takes as it is. *)
Definition blank (c : ascii) : bool := existsb (Ascii.eqb c) [" "; "="; TAB; "000"; "#"; "}"; "013"; "010"]%char.
Definition label_ok (l : string) : bool := negb (sempty l) && sall (fun c => negb (blank c)) l.
Definition value_ok (v : string) : bool := negb (blank (shead v)) && negb (has_char "000" v).
Definition print_item (x : string * string) : string := String TAB (x.1 +:+ " = " +:+ x.2).
Definition print_open (label : string) : string := label +:+ " {".
Definition print_section (label : string) (l : list (string * string)) : list string :=
  print_open label :: map print_item l ++ ["}"].

Lemma c_str_plain s : has_char "000" s = false -> c_str s = s.
Proof. induction s as [|c s IH]; [done|]. cbn. intros [-> Hs]%orb_false_iff. by rewrite IH. Qed.
Lemma label_ok_no c l : label_ok l = true -> blank c = true -> has_char c l = false.
Proof.
  intros [_ H]%andb_true_iff Hc. eapply sall_has_char; [exact H|]. cbv beta. by rewrite Hc.
Qed.
Lemma skip_word cs l r :
  label_ok l = true -> (forall c, existsb (Ascii.eqb c) cs = true -> blank c = true) -> skip cs (l +:+ r) = l +:+ r.
Proof.
  destruct l as [|c l]; [done|]. intros [_ [Hc _]%andb_true_iff]%andb_true_iff H. rewrite app_cons_s. cbn [skip].
  destruct (existsb _ cs) eqn:E; [|done]. apply H in E. by rewrite E in Hc.
Qed.
Lemma head_word l r c : label_ok l = true -> blank c = true -> Ascii.eqb (shead (l +:+ r)) c = false.
Proof.
  destruct l as [|x l]; [done|]. intros [_ [Hx _]%andb_true_iff]%andb_true_iff Hc. rewrite app_cons_s. cbn.
  apply Ascii.eqb_neq. intros ->. by rewrite Hc in Hx.
Qed.
Lemma value_ok_nonempty v : value_ok v = true -> sempty v = false.
Proof. by destruct v. Qed.
End Print.

Lemma map_find_upd k f l : map_find k (upd k f l) = f <$> map_find k l.
Proof.
  induction l as [|[k' i] l IH]; [done|]. cbn. destruct (String.eqb k' k) eqn:E; cbn; rewrite E; [done|]. exact IH.
Qed.
Lemma map_find_upd_other k k' f l : k <> k' -> map_find k (upd k' f l) = map_find k l.
Proof.
  intros N. induction l as [|[k2 i] l IH]; [done|]. cbn. destruct (String.eqb_spec k2 k') as [->|N2]; cbn.
  - destruct (String.eqb_spec k' k) as [->|]; [done|]. exact IH.
  - destruct (String.eqb k2 k); [done|]. exact IH.
Qed.

Section Lines.
Context (p : nat).
(** The section [p] after its item [label] was read. *)
Definition read_item (label : string) (x : value) (s : section) : section :=
  with_items (upd label (set_item_value x) (upd label (set_item_found true) (sc_items s))) s.
Definition counted (c : config) : config := up_line_count (cf_line_count c + 1) c.

Lemma bind_done {A B} (m : M A) (k : A -> M B) c c' a :
  m c = (c', Done a) -> bind m k c = k a c'.
Proof. unfold bind. by intros ->. Qed.
Lemma get_section_at q s c : cf_heap c !! q = Some s -> get_section q c = (c, Done s).
Proof. intros E. unfold get_section, bind, get. by rewrite E. Qed.
Lemma up_section_at q f s c :
  cf_heap c !! q = Some s -> up_section q f c = (up_heap (insert q (f s)) c, Done tt).
Proof. intros E. unfold up_section. by rewrite (bind_done _ _ _ _ _ (get_section_at _ _ _ E)). Qed.
Lemma counted_at s c : cf_heap c !! p = Some s -> cf_heap (counted c) !! p = Some s.
Proof. done. Qed.
Lemma load_print_item s k v i x e c :
  cf_heap c !! p = Some s -> label_ok k = true -> value_ok v = true ->
  map_find k (sc_items s) = Some i -> it_label i = k -> sc_name_item s <> Some k ->
  SetValue v (it_value i) = Some (x, true) ->
  load_line (print_item (k, v)) (Some p, e) c
  = (up_heap (insert p (read_item k x s)) (counted c), Done (Some p, e)).
Proof.
  intros E Hk Hv Hi Li Hn Hset. apply counted_at in E. unfold load_line.
  rewrite (bind_done _ _ c c (cf_line_count c)) by done. rewrite (bind_done _ _ c (counted c) tt) by done.
  assert (Hz : has_char "000" (print_item (k, v)) = false).
  { unfold print_item. cbn [has_char fst snd]. rewrite !has_char_app, (label_ok_no _ _ Hk) by done.
    unfold value_ok in Hv. apply andb_true_iff in Hv as [_ Hv]. apply negb_true_iff in Hv. by rewrite Hv. }
  rewrite c_str_plain by done. unfold print_item. cbn [fst snd].
  change (skip [" "; TAB]%char (String TAB ?s)) with (skip [" "; TAB]%char s).
  rewrite skip_word; [|done|intros c0; cbn; rewrite !orb_false_r; intros [-> | ->]%orb_true_iff; [done|by rewrite !orb_true_r]].
  assert (Hne : sempty (k +:+ " = " +:+ v) = false) by by destruct k.
  cbv zeta. rewrite Hne. cbn [orb existsb]. rewrite !head_word by done. cbn [orb].
  assert (Heq : has_char "=" (k +:+ " = " +:+ v) = true) by by rewrite has_char_app, orb_true_r.
  rewrite Heq.
  assert (Ht : Tok.stringtok (k +:+ " = " +:+ v) " " = (k, "= " +:+ v)).
  { apply (Msg.stringtok_word k ("= " +:+ v)); [by intros ->|]. by apply label_ok_no. }
  assert (Hs : skip [" "; "="; TAB]%char ("= " +:+ v) = v).
  { change (skip [" "; "="; TAB]%char ("= " +:+ v)) with (skip [" "; "="; TAB]%char v).
    destruct v as [|c0 v]; [done|]. cbn [skip]. unfold value_ok, blank in Hv. cbn [shead existsb] in Hv |- *.
    apply andb_true_iff in Hv as [Hv _]. apply negb_true_iff in Hv. rewrite !orb_false_iff in Hv.
    destruct Hv as (-> & -> & -> & _). done. }
  set (c1 := counted c) in *. set (c2 := up_heap (insert p (with_items (upd k (set_item_found true) (sc_items s)) s)) c1).
  rewrite (bind_done _ _ c1 (up_heap (insert p (read_item k x s)) c1) e); [done|].
  unfold load_item. rewrite Ht. rewrite (bind_done _ _ c1 c1 (Some i)).
  2:{ unfold GetItem. rewrite (bind_done _ _ _ _ _ (get_section_at _ _ _ E)). by rewrite Hi. }
  rewrite Hs. cbv zeta. rewrite value_ok_nonempty by done. rewrite (bind_done _ _ _ _ _ (get_section_at _ _ _ E)).
  rewrite bool_decide_false by done. rewrite (bind_done _ _ c1 c1 false) by done.
  unfold up_item at 1. rewrite (bind_done _ _ _ _ _ (up_section_at p _ s c1 E)). fold (upd k (set_item_found true) (sc_items s)). fold c2.
  assert (E2 : cf_heap c2 !! p = Some (with_items (upd k (set_item_found true) (sc_items s)) s)) by apply lookup_insert_eq.
  unfold SetValue_item. rewrite Hset. rewrite (bind_done _ _ c2 (up_heap (insert p (read_item k x s)) c1) true); [done|].
  unfold up_item. rewrite (bind_done _ _ _ _ _ (up_section_at p _ _ c2 E2)). rewrite Li. unfold ret. f_equal.
  unfold up_heap, c2. cbn. by rewrite insert_insert_eq.
Qed.
Lemma load_print_close s e c :
  cf_heap c !! p = Some s -> sc_copy s = false ->
  load_line "}" (Some p, e) c = (counted c, Done (sc_parent s, e)).
Proof.
  intros E Hc. apply counted_at in E. unfold load_line.
  rewrite (bind_done _ _ c c (cf_line_count c)) by done. rewrite (bind_done _ _ c (counted c) tt) by done.
  change (skip [" "; TAB]%char (c_str "}")) with "}". cbv zeta. cbn [sempty orb existsb shead].
  change (_ || _) with false. cbv match. change (has_char "=" "}") with false. cbv match.
  rewrite Ascii.eqb_refl. rewrite (bind_done _ _ _ _ _ (get_section_at _ _ _ E)). by rewrite Hc.
Qed.
Lemma load_print_open s o label e c :
  GetSection o label (counted c) = (counted c, Done (Some p)) -> cf_heap c !! p = Some s ->
  sc_type s <> MULTIPLE -> label_ok label = true ->
  load_line (print_open label) (o, e) c = (up_heap (insert p (with_found true s)) (counted c), Done (Some p, e)).
Proof.
  intros HG E Hm Hl. apply counted_at in E. unfold load_line.
  rewrite (bind_done _ _ c c (cf_line_count c)) by done. rewrite (bind_done _ _ c (counted c) tt) by done.
  unfold print_open. rewrite c_str_plain by (by rewrite has_char_app, (label_ok_no _ _ Hl)).
  rewrite skip_word; [|done|intros c0; cbn; rewrite !orb_false_r; intros [-> | ->]%orb_true_iff; [done|by rewrite !orb_true_r]].
  assert (Hne : sempty (label +:+ " {") = false) by by destruct label.
  cbv zeta. rewrite Hne. cbn [orb existsb]. rewrite !head_word by done. cbn [orb].
  rewrite has_char_app, (label_ok_no _ _ Hl) by done. change (has_char "=" " {") with false. cbn [orb].
  unfold load_open. assert (Ht : Tok.stringtok (label +:+ " {") " " = (label, "{")).
  { apply (Msg.stringtok_word label "{"); [by intros ->|by apply label_ok_no]. }
  rewrite Ht.
  rewrite (bind_done _ _ _ _ _ HG). rewrite (bind_done _ _ _ _ _ (up_section_at p _ s _ E)).
  rewrite (bind_done _ _ _ _ (with_found true s)) by (apply get_section_at, lookup_insert_eq).
  unfold IsMultiple. cbn [sc_type with_found]. by rewrite bool_decide_false by done.
Qed.

(** The items of [l] were read into the section [s]. *)
Definition read_all (l : list (string * string * value)) (s : section) : section :=
  fold_left (fun s '(k, _, x) => read_item k x s) l s.
Lemma load_print_items l s e c :
  cf_heap c !! p = Some s -> NoDup l.*1.*1 ->
  (forall k v x, (k, v, x) ∈ l -> label_ok k = true /\ value_ok v = true /\ sc_name_item s <> Some k
     /\ exists i, map_find k (sc_items s) = Some i /\ it_label i = k /\ SetValue v (it_value i) = Some (x, true)) ->
  exists c', load_lines (map print_item l.*1) (Some p, e) c = (c', Done (Some p, e))
    /\ cf_heap c' = <[p := read_all l s]> (cf_heap c) /\ cf_stderr c' = cf_stderr c
    /\ cf_sections c' = cf_sections c.
Proof.
  revert s c. induction l as [|[[k v] x] l IH]; intros s c E Hd Hl.
  - exists c. split_and!; [done| |done..]. cbn. by rewrite insert_id.
  - cbn in Hd. apply NoDup_cons in Hd as [Hk Hd].
    destruct (Hl k v x) as (H1 & H2 & H3 & i & H4 & H5 & H6); [left|].
    cbn [fmap list_fmap map load_lines]. rewrite (bind_done _ _ _ _ _ (load_print_item s k v i x e c E H1 H2 H4 H5 H3 H6)).
    set (c1 := up_heap _ (counted c)). destruct (IH (read_item k x s) c1) as (c' & Hc & Hh & He & Hs).
    + apply lookup_insert_eq.
    + done.
    + intros k' v' x' Hin. destruct (Hl k' v' x') as (G1 & G2 & G3 & j & G4 & G5 & G6); [by right|].
      split_and!; [done..|]. exists j. split_and!; [|done..].
      assert (k' <> k). { intros ->. apply Hk. apply list_elem_of_fmap. exists (k, v'). split; [done|].
        apply list_elem_of_fmap. by exists (k, v', x'). }
      cbn. by rewrite !map_find_upd_other.
    + exists c'. split_and!; [exact Hc| |done..]. rewrite Hh. cbn. by rewrite insert_insert_eq.
Qed.
Lemma read_all_other k l s : k ∉ l.*1.*1 -> map_find k (sc_items (read_all l s)) = map_find k (sc_items s).
Proof.
  revert s. induction l as [|[[k' v] x] l IH]; intros s; [done|]. cbn. intros [Hk Hl]%not_elem_of_cons.
  rewrite IH by done. cbn. by rewrite !map_find_upd_other.
Qed.
Lemma read_all_find k v x l s i :
  NoDup l.*1.*1 -> (k, v, x) ∈ l -> map_find k (sc_items s) = Some i ->
  map_find k (sc_items (read_all l s)) = Some (set_item_value x (set_item_found true i)).
Proof.
  revert s i. induction l as [|[[k' v'] x'] l IH]; intros s i; [by intros _ ?%not_elem_of_nil|].
  cbn. intros [Hk Hd]%NoDup_cons [[= -> -> ->]|Hin]%elem_of_cons Hi.
  - rewrite read_all_other by done. cbn. by rewrite !map_find_upd, Hi.
  - apply IH; [done|done|]. cbn. assert (k <> k').
    { intros ->. apply Hk. apply list_elem_of_fmap. exists (k', v). split; [done|]. apply list_elem_of_fmap. by exists (k', v, x). }
    by rewrite !map_find_upd_other.
Qed.
Lemma read_all_place l s :
  sc_copy (read_all l s) = sc_copy s /\ sc_parent (read_all l s) = sc_parent s.
Proof. revert s. induction l as [|[[k v] x] l IH]; intros s; [done|]. cbn. apply (IH (read_item k x s)). Qed.
End Lines.

Lemma load_lines_app l1 l2 st c : load_lines (l1 ++ l2) st c = bind (load_lines l1 st) (load_lines l2) c.
Proof.
  revert st c. induction l1 as [|x l1 IH]; intros st c; [done|]. cbn [app load_lines]. unfold bind.
  destruct (load_line x st c) as [c1 [st1|e|w]]; try done.
Qed.

(** C38: a section comes back from the text it is printed as: reading
    [label { key = value ... }], with values of the right types, leaves every key
    found with the value its text stands for, no message, and the reading where it
    was; the other items and the other sections are as before. *)
Theorem section_roundtrip (p : nat) (o : option nat) (s : section) (label : string)
    (l : list (string * string * value)) (e : bool) (c : config) :
  GetSection o label (counted c) = (counted c, Done (Some p)) -> cf_heap c !! p = Some s ->
  sc_parent s = o -> sc_copy s = false -> sc_type s <> MULTIPLE -> label_ok label = true -> NoDup l.*1.*1 ->
  (forall k v x, (k, v, x) ∈ l -> label_ok k = true /\ value_ok v = true /\ sc_name_item s <> Some k
     /\ exists i, map_find k (sc_items s) = Some i /\ it_label i = k /\ SetValue v (it_value i) = Some (x, true)) ->
  exists c' s', load_lines (print_section label l.*1) (o, e) c = (c', Done (o, e))
    /\ cf_stderr c' = cf_stderr c /\ cf_heap c' = <[p := s']> (cf_heap c) /\ sc_found s' = true
    /\ (forall k v x, (k, v, x) ∈ l -> exists i, map_find k (sc_items s') = Some i
         /\ it_found i = true /\ it_value i = x)
    /\ (forall k, (k ∉ l.*1.*1) -> map_find k (sc_items s') = map_find k (sc_items s)).
Proof.
  intros HG E Hp Hc Hm Hlab Hd Hl. unfold print_section. cbn [load_lines].
  rewrite (bind_done _ _ _ _ _ (load_print_open p s o label e c HG E Hm Hlab)).
  set (s1 := with_found true s). set (c1 := up_heap (insert p s1) (counted c)).
  destruct (load_print_items p l s1 e c1) as (c2 & H2 & Hh2 & He2 & _); [apply lookup_insert_eq|done|exact Hl|].
  rewrite load_lines_app. rewrite (bind_done _ _ _ _ _ H2). cbn [load_lines].
  destruct (read_all_place l s1) as [P1 P2].
  assert (E2 : cf_heap c2 !! p = Some (read_all l s1)) by (rewrite Hh2; apply lookup_insert_eq).
  rewrite (bind_done _ _ _ _ _ (load_print_close p _ e c2 E2 ltac:(by rewrite P1))). rewrite P2. cbn [sc_parent s1 with_found].
  rewrite Hp. exists (counted c2), (read_all l s1). split_and!; [done| | | | |].
  - exact He2.
  - change (cf_heap (counted c2)) with (cf_heap c2). rewrite Hh2. cbn. by rewrite insert_insert_eq.
  - clear. unfold s1. assert (H : sc_found (with_found true s) = true) by done. revert H. generalize (with_found true s).
    induction l as [|[[k v] x] l IH]; intros t Ht; [done|]. cbn. by apply IH.
  - intros k v x Hin. destruct (Hl k v x Hin) as (_ & _ & _ & i & Hi & _).
    rewrite (read_all_find k v x l s1 i Hd Hin Hi). by eexists.
  - intros k Hk. by rewrite read_all_other.
Qed.

(** ** The configuration of the program *)

(** [wf] and [typed_config] as tests. *)
Definition entry_b (c : config) (o : option nat) (x : string * nat) : bool :=
  match cf_heap c !! x.2 with
  | Some t => String.eqb (sc_label t) x.1 && bool_decide (sc_parent t = o)
  | None => false
  end.
Definition list_b (c : config) (o : option nat) (l : list (string * nat)) : bool :=
  bool_decide (NoDup l.*2) && forallb (entry_b c o) l.
Definition node_b (c : config) (p : nat) (s : section) : bool :=
  (p <? cf_next c)%nat
  && (negb (IsMultiple s || sc_copy s) || bool_decide (sc_sections s = []))
  && (match sc_parent s with
      | None => true
      | Some q => (q <? p)%nat && match cf_heap c !! q with
                                  | Some t => negb (sc_copy t) && negb (IsMultiple t)
                                  | None => false
                                  end
      end)
  && bool_decide (NoDup (sc_items s).*1) && forallb (fun x => String.eqb (it_label x.2) x.1) (sc_items s).
Definition wf_b (c : config) : bool :=
  list_b c None (cf_sections c)
  && forallb (fun '(p, s) => list_b c (Some p) (sc_sections s) && node_b c p s
                && forallb (fun x => negb (it_found x.2)) (sc_items s)) (map_to_list (cf_heap c)).

Lemma list_b_ok c o l : list_b c o l = true -> NoDup l.*2 /\ forall x, x ∈ l -> entry c o x.
Proof.
  intros [H1 H2]%andb_true_iff. apply bool_decide_eq_true in H1. split; [done|]. intros x Hx.
  rewrite forallb_forall in H2. specialize (H2 x (proj1 (list_elem_of_In l x) Hx)). unfold entry_b in H2.
  destruct (cf_heap c !! x.2) as [t|] eqn:E; [|done]. apply andb_true_iff in H2 as [L P].
  exists t. split_and!; [done|by apply String.eqb_eq|by apply bool_decide_eq_true in P].
Qed.
Lemma node_b_ok c p s : node_b c p s = true -> node c p s.
Proof.
  unfold node_b. intros [[[[H1 H2]%andb_true_iff H3]%andb_true_iff H4]%andb_true_iff H5]%andb_true_iff. split.
  - by apply Nat.ltb_lt.
  - intros Hl. apply orb_true_iff in H2 as [H2|H2]; [|by apply bool_decide_eq_true in H2].
    apply negb_true_iff, orb_false_iff in H2 as [H2 H2']. apply bool_decide_eq_false in H2.
    destruct Hl; congruence.
  - intros q Hq. rewrite Hq in H3. apply andb_true_iff in H3 as [H3 H3'].
    split; [by apply Nat.ltb_lt|]. destruct (cf_heap c !! q) as [t|]; [|done]. exists t. split; [done|].
    apply andb_true_iff in H3' as [H6%negb_true_iff H7%negb_true_iff]. split; [done|].
    by apply bool_decide_eq_false in H7.
  - by apply bool_decide_eq_true in H4.
  - intros x Hx. rewrite forallb_forall in H5. by apply String.eqb_eq, H5, list_elem_of_In.
Qed.
Lemma wf_b_ok c : wf_b c = true -> wf c /\ typed_config c.
Proof.
  intros [H1 H2]%andb_true_iff. rewrite forallb_forall in H2. apply list_b_ok in H1 as [R1 R2].
  assert (Hh : forall p s, cf_heap c !! p = Some s -> list_b c (Some p) (sc_sections s) = true /\ node_b c p s = true
     /\ forallb (fun x => negb (it_found x.2)) (sc_items s) = true).
  { intros p s E. specialize (H2 (p, s)). cbn in H2. rewrite !andb_true_iff in H2. apply and_assoc, H2.
    apply list_elem_of_In. by apply elem_of_map_to_list. }
  split; [split|].
  - intros [p|] l; cbn; [|by intros [= <-]]. intros (s & E & ->)%fmap_Some.
    destruct (Hh p s E) as (L & _). by apply list_b_ok in L as [? _].
  - intros [p|] l x; cbn; [|intros [= <-]; apply R2]. intros (s & E & ->)%fmap_Some.
    destruct (Hh p s E) as (L & _). apply list_b_ok in L as [_ L]. apply L.
  - intros p s E. apply node_b_ok. by apply Hh.
  - intros p s x E Hx F. destruct (Hh p s E) as (_ & _ & Hf). rewrite forallb_forall in Hf.
    specialize (Hf x (proj1 (list_elem_of_In _ x) Hx)). by rewrite F in Hf.
Qed.

Definition declared (have_pam have_tls : bool) : config := (minbif_conf have_pam have_tls empty_config).1.
Lemma declared_wf have_pam have_tls : wf (declared have_pam have_tls) /\ typed_config (declared have_pam have_tls).
Proof. apply wf_b_ok. by destruct have_pam, have_tls; vm_compute. Qed.

Definition demo_lines : list string :=
  ["# minbif"; "path {"; "  users = /var/lib/minbif/users"; "}"; "irc {"; "  type = 2"; "  daemon {";
   "    bind = 0.0.0.0"; "    port = 6667"; "    maxcon = 10"; "  }"; "  oper {"; "    login = romain";
   "    password = pupuce"; "  }"; "}"; "logging {"; "  level = ERR WARNING"; "  to_syslog = true"; "}"].
Lemma load_typed_witness :
  wpc unset (load (fun _ => Some demo_lines) "minbif.conf") (fun r c' => wf c' /\ (r = true -> typed_config c'))
    (fun _ _ => sempty "minbif.conf" = true) (declared true true).
Proof. apply load_typed; apply declared_wf. Defined.

Definition demo_section : section := default (Section "" "" "" NORMAL [] [] None false None false)
  (cf_heap (declared true true) !! 1%nat).
Definition demo_items : list (string * string * value) :=
  [("type", "2", VInt (Some 2) 0 2); ("ping", "90", VInt (Some 90) 0 65535);
   ("password", "secret word", VString "secret word")].
Lemma section_roundtrip_witness :
  exists c' s', load_lines (print_section "irc" demo_items.*1) (None, false) (declared true true) = (c', Done (None, false))
    /\ cf_stderr c' = cf_stderr (declared true true)
    /\ cf_heap c' = <[1%nat := s']> (cf_heap (declared true true)) /\ sc_found s' = true
    /\ (forall k v x, (k, v, x) ∈ demo_items -> exists i, map_find k (sc_items s') = Some i
         /\ it_found i = true /\ it_value i = x)
    /\ (forall k, (k ∉ demo_items.*1.*1) -> map_find k (sc_items s') = map_find k (sc_items demo_section)).
Proof.
  apply (section_roundtrip 1 None demo_section "irc" demo_items false (declared true true)).
  - vm_compute. reflexivity.
  - vm_compute. reflexivity.
  - vm_compute. reflexivity.
  - vm_compute. reflexivity.
  - vm_compute. discriminate.
  - reflexivity.
  - apply (bool_decide_unpack _). vm_compute. exact I.
  - intros k v x H. cbn in H.
    repeat (apply elem_of_cons in H as [[= -> -> ->]|H];
      [split; [reflexivity|split; [reflexivity|split; [vm_compute; discriminate|
         eexists; split; [vm_compute; reflexivity|split; vm_compute; reflexivity]]]]|]).
    by apply not_elem_of_nil in H.
Defined.

(** What the reading lets through.  An item without a default value which is
    missing does not make it fail: [FindEmpty] does not use the answer of the nested
    [FindEmpty], the program goes on with the flag to_syslog no one set.  An
    interval with one bound reads a bound no one set.  Of an integer the message
    about a bad value shows the minimum in front of the maximum. *)
Theorem missing_items_accepted :
  (exists c, load (fun _ => Some ["path {"; "}"; "irc {"; "}"; "logging {"; "level = ERR"; "}"]) "f" (declared true true)
             = (c, Done true)
     /\ cf_stderr c = ["f:7: in «logging»: missing item 'to_syslog' (Log error and warnings to syslog)";
                       "f:7: in «path»: missing item 'users' (Users directory)"]
     /\ (lookup_item ["logging"] "to_syslog" c).2 = Done (Some (VBool None)))
  /\ (load (fun _ => Some ["file_transfers {"; "port_range = 2000"; "}"]) "f" (declared true true)).2 = Crash "uninitialised"
  /\ ValueType (VInt None 0 2) = "integer (between 0 and 02)".
Proof.
  split; [eexists; split; [vm_compute; reflexivity|split; vm_compute; reflexivity]|].
  split; vm_compute; reflexivity.
Qed.
