(* ===== verification/Request.v ===== *)
(** im/request.{h,cpp}: the questions of libpurple, which the user answers by private
    messages to the nick [request], one after the other; and check_write_file
    (core/util.cpp). *)

From S2P Require Import Prelude Util Message Dcc Log Effects Config.

Module Request.
Import Eff.
#[local] Open Scope eff_scope.

(** ** The questions *)

Inductive ptype := INPUT | CHOICE | ACTION | FIELDS.
(** What a callback is given besides its data. *)
Inductive cbarg := Id (n : Z) | AllFields | Text (s : string) | Path (s : option string).
(** [RequestFieldTmplt] and the three [RequestFieldFields...]; a field of libpurple
    and a callback are numbers, [None] the NULL callback. *)
Inductive field_cb :=
| Tmplt (cb : option nat) (data2 : cbarg)
| FieldBoolean (f : nat) (value : bool) | FieldChoice (f : nat) (value : Z) | FieldList (f : nat).
Record field := Field { fl_label : string; fl_text : string; fl_cb : field_cb }.
Inductive class :=
| Input (default : string) (cb : option nat)                       (* RequestInput *)
| FieldsString (f : nat) (default : string) | FieldsInteger (f : nat) (default : string)
| FieldsImage (f : nat)
| RFieldList | FieldsList.
Record request := Request {
  rq_class : class; rq_type : ptype; rq_account : option nat;
  rq_title : string; rq_primary : string; rq_secondary : string;
  rq_fields : list (string * field); rq_subs : list nat }.

(** The fields of a form of libpurple. *)
Inductive pfield_type :=
| PString (default : option string) | PInteger (default : Z) | PImage
| PBoolean | PChoice (labels : list string) | PList (items : list string) | POther (type : Z).
Record pfield := PField { pf_id : nat; pf_type : pfield_type; pf_visible : bool; pf_label : option string }.
(** What libpurple calls. *)
Inductive call :=
| request_input (title primary secondary default : option string) (ok_cb : option nat) (account : option nat)
| request_action (title primary secondary : option string) (account : option nat) (actions : list (string * option nat))
| request_choice (title primary secondary : option string) (ok_cb cancel_cb : option nat) (account : option nat)
    (choices : list (string * Z))
| request_fields (title primary secondary : option string) (fields : list pfield) (ok : string) (ok_cb : option nat)
    (cancel : string) (cancel_cb : option nat) (account : option nat)
| request_file (title : option string) (filename : string) (savedialog : bool) (ok_cb cancel_cb : nat)
| request_close (r : nat)
| notify_message (title primary secondary : option string)
| notify_formatted (title primary secondary text : option string)
| notify_userinfo (who : string) (entries : list (option string * option string)).

Inductive ev :=
| Privmsg (t : string) | Whois (alias line : string) | EndOfWhois (alias : string)
| RunCallback (cb : nat) (arg : cbarg) | PurpleClose (t : ptype) (r : nat)
| SetString (f : nat) (s : string) | SetInteger (f : nat) (z : Z) | SetBoolean (f : nat) (b : bool)
| SetChoice (f : nat) (z : Z) | ClearSelected (f : nat) | AddSelected (f : nat) (s : string)
| WriteImage (f : nat) (path : string) | Unlink (path : string) | Mkdir (path : string)
| Logged (flags : Z) (text : string).
Inductive exn := SockError | RequestFieldNotFound | CacaError | CacaNotLoaded | MalformedMessage.
Inductive drawing := Drawn (s : string) | DrawError | NotLoaded.

Class RequestEnv := {
  self : nat;                                     (* the nick [request] *)
  write_error : list ev -> bool;                  (* the socket of the user *)
  account_id : list ev -> nat -> string;
  purple_closes : list ev -> nat -> bool;         (* purple_request_close calls request_close *)
  reacts : list ev -> list call;                  (* what a callback calls before it returns *)
  strip_html : string -> string;
  find_buddy : list ev -> string -> option string; (* the alias of a buddy *)
  have_caca : bool; temp_file : list ev -> string + string; draw : list ev -> drawing;
  file_transfers : bool; user_dir : string; strerror : list ev -> string;
  opendir : list ev -> string -> bool; mkdir : list ev -> string -> bool;
  stat : list ev -> string -> option bool;        (* [Some true]: a directory *)
  g_path_get_dirname : string -> string; writable : list ev -> string -> bool }.

Record st := St { tr : list ev; heap : gmap nat request; next : nat; requests : list nat }.
Definition M (A : Type) : Type := Eff.M st exn A.
Definition emit (e : ev) : M unit := put (fun s => St (tr s ++ [e]) (heap s) (next s) (requests s)).
Definition ask {A} (f : list ev -> A) : M A := get (fun s => f (tr s)).
Definition up_heap (f : gmap nat request -> gmap nat request) : M unit :=
  put (fun s => St (tr s) (f (heap s)) (next s) (requests s)).
Definition up_requests (f : list nat -> list nat) : M unit :=
  put (fun s => St (tr s) (heap s) (next s) (f (requests s))).
(** A pointer to a request; the object may be gone. *)
Definition deref (p : nat) : M request :=
  eff! h := get heap;
  match h !! p with Some r => ret r | None => crash "freed request" end.
Definition alloc (r : request) : M nat :=
  eff! p := get next;
  put (fun s => St (tr s) (<[p := r]> (heap s)) (S (next s)) (requests s));;
  ret p.
Definition with_fields l r := Request (rq_class r) (rq_type r) (rq_account r) (rq_title r) (rq_primary r) (rq_secondary r) l (rq_subs r).
Definition with_subs l r := Request (rq_class r) (rq_type r) (rq_account r) (rq_title r) (rq_primary r) (rq_secondary r) (rq_fields r) l.

(** ** Fields *)

(** [getText]: the template has a text of its own. *)
Definition getText (f : field) : string :=
  match fl_cb f with Tmplt _ _ => fl_text f | _ => fl_label f end.
(** [while(fields.find(field->getLabel()) != fields.end()) setLabel(getLabel() + "_")] *)
Fixpoint free_label (fuel : nat) (l : list (string * field)) (s : string) : option string :=
  match fuel with
  | O => None
  | S fuel =>
    match Config.map_find s l with
    | None => Some s
    | Some _ => free_label fuel l (s +:+ "_")
    end
  end.
Definition addField (f : field) (l : list (string * field)) : option (list (string * field)) :=
  s ← free_label (S (length l)) l (fl_label f);
  Some (Config.map_set s (Field s (fl_text f) (fl_cb f)) l).
Fixpoint addFields (fs : list field) (l : list (string * field)) : option (list (string * field)) :=
  match fs with [] => Some l | f :: fs => l ← addField f l; addFields fs l end.

(** [requests.erase(it)] at the first iterator on [p]. *)
Fixpoint erase (p : nat) (l : list nat) : list nat :=
  match l with [] => [] | q :: l => if (q =? p)%nat then l else q :: erase p l end.

Section Request.
Context {env : RequestEnv}.

Definition privmsg (text : string) : M unit :=
  mapM_ (fun t =>
    emit (Privmsg t);;
    eff! bad := ask write_error;
    if bad then throw SockError else ret tt)
  (Tok.tokens (String "010" (String "013" "")) text).

(** The destructors. *)
Fixpoint delete_ (fuel : nat) (p : nat) : M unit :=
  match fuel with
  | O => crash "fuel"
  | S fuel =>
    eff! r := deref p;
    mapM_ (delete_ fuel) (rq_subs r);;
    up_heap (delete p)
  end.
Definition delete_request (p : nat) : M unit :=
  eff! h := get heap; delete_ (S (size h)) p.

(** ** Display and close *)

Definition heading (r : request) : M unit :=
  eff! id := ask account_id;
  privmsg (match rq_account r with
           | Some a => "[" +:+ id a +:+ "] New request: " +:+ rq_title r
           | None => "New request: " +:+ rq_title r
           end);;
  when (negb (sempty (rq_primary r))) (privmsg (rq_primary r));;
  when (negb (sempty (rq_secondary r))) (privmsg (rq_secondary r)).
Definition input_display (r : request) (default : string) : M unit :=
  heading r;; privmsg ("Default value is: " +:+ default);; privmsg "Type answer:".
Definition list_display (r : request) : M unit :=
  heading r;;
  mapM_ (fun '(label, f) => privmsg ("- " +:+ label +:+ ": " +:+ getText f)) (rq_fields r).
(** The image, before the request is closed. *)
Definition image_show (f : nat) : M unit :=
  eff! t := ask temp_file;
  match t with
  | inr message => emit (Logged Log.W_ERR ("Unable to create a temporary file: " +:+ message))
  | inl path =>
    emit (WriteImage f path);;
    privmsg ("Image (" +:+ path +:+ ")");;
    when have_caca
      (eff! d := ask draw;
       match d with
       | DrawError => throw CacaError
       | NotLoaded => throw CacaNotLoaded
       | Drawn buf =>
         mapM_ privmsg (Tok.tokens (String "013" (String "010" "")) buf);;
         emit (Unlink path)
       end)
  end.

(** [display], the virtual [close], [closeRequest] and, between the last two,
    [purple_request_close]. *)
Fixpoint display (fuel : nat) (p : nat) : M unit :=
  match fuel with
  | O => crash "fuel"
  | S fuel =>
    eff! r := deref p;
    match rq_class r with
    | Input d _ | FieldsString _ d | FieldsInteger _ d => input_display r d
    | FieldsImage f =>
      image_show f;;
      eff! l := get requests;
      match l with [] => ret tt | q :: _ => close fuel q end
    | RFieldList | FieldsList =>
      match rq_subs r with
      | s :: _ => display fuel s
      | [] => list_display r
      end
    end
  end
with close (fuel : nat) (p : nat) : M unit :=
  match fuel with
  | O => crash "fuel"
  | S fuel =>
    eff! r := deref p;
    match rq_class r with
    | Input _ _ =>
      emit (PurpleClose (rq_type r) p);;
      eff! c := ask purple_closes; when (c p) (closeRequest fuel p)
    | RFieldList =>
      match rq_subs r with
      | s :: subs =>
        delete_request s;;
        up_heap (insert p (with_subs subs r));;
        display fuel p
      | [] =>
        emit (PurpleClose (rq_type r) p);;
        eff! c := ask purple_closes; when (c p) (closeRequest fuel p)
      end
    | FieldsString _ _ | FieldsInteger _ _ | FieldsImage _ | FieldsList => closeRequest fuel p
    end
  end
with closeRequest (fuel : nat) (p : nat) : M unit :=
  match fuel with
  | O => crash "fuel"
  | S fuel =>
    eff! l := get requests;
    if negb (bool_decide (p ∈ l)) then ret tt
    else
      let first := bool_decide (head l = Some p) in
      up_requests (erase p);;
      delete_request p;;
      when first
        (privmsg "Request closed.";;
         eff! l := get requests;
         match l with [] => ret tt | q :: _ => display fuel q end)
  end.
(** A chain of images closes itself: each one takes three calls and a request of the
    heap. *)
Definition fuel (h : gmap nat request) : nat := 4 * size h + 5.
Definition display_ (p : nat) : M unit := eff! h := get heap; display (fuel h) p.
Definition close_ (p : nat) : M unit := eff! h := get heap; close (fuel h) p.
Definition closeRequest_ (p : nat) : M unit := eff! h := get heap; closeRequest (fuel h) p.

(** ** New requests *)

Definition addRequest (p : nat) : M unit :=
  up_requests (fun l => l ++ [p]);;
  eff! l := get requests;
  if (length l =? 1)%nat then display_ p
  else
    eff! r := deref p;
    privmsg ("Hint: Received a new request (" +:+ rq_title r +:+ "). There are "
             +:+ t2s (Z.of_nat (length l) - 1) +:+ " requests in stack").

(** The label of a button: its first word in lower case. *)
Definition button_label (text : string) : string :=
  Case.strlower (Tok.stringtok text "_ ").1.
Definition with_buttons (r : request) (fs : list field) : M request :=
  match addFields fs (rq_fields r) with
  | None => crash "fuel"
  | Some l => ret (with_fields l r)
  end.
Definition text_or (a b : option string) : string :=
  match a with Some s => s | None => default "" b end.

(** One field of a form: [None] for a type that is skipped. *)
Definition form_field (account : option nat) (title primary secondary : option string) (pf : pfield) : M (option nat) :=
  let sub c l := Request c FIELDS account (text_or title primary) (default "" secondary)
                   (default "" (pf_label pf)) l [] in
  match pf_type pf with
  | PString d => eff! p := alloc (sub (FieldsString (pf_id pf) (default "" d)) []); ret (Some p)
  | PInteger d => eff! p := alloc (sub (FieldsInteger (pf_id pf) (t2s d)) []); ret (Some p)
  | PImage => eff! p := alloc (Request (FieldsImage (pf_id pf)) FIELDS account "" "" "" [] []); ret (Some p)
  | PBoolean =>
    eff! r := with_buttons (sub FieldsList [])
                [Field "true" "" (FieldBoolean (pf_id pf) true); Field "false" "" (FieldBoolean (pf_id pf) false)];
    eff! p := alloc r; ret (Some p)
  | PChoice labels =>
    eff! r := with_buttons (sub FieldsList [])
                (imap (fun i l => Field l "" (FieldChoice (pf_id pf) (Z.of_nat i))) labels);
    eff! p := alloc r; ret (Some p)
  | PList items =>
    eff! r := with_buttons (sub FieldsList []) (map (fun l => Field l "" (FieldList (pf_id pf))) items);
    eff! p := alloc r; ret (Some p)
  | POther t => emit (Logged Log.W_ERR ("Skipped a field " +:+ t2s t));; ret None
  end.
Fixpoint form_fields (account : option nat) (title primary secondary : option string) (l : list pfield) : M (list nat) :=
  match l with
  | [] => ret []
  | pf :: l =>
    if negb (pf_visible pf) then form_fields account title primary secondary l
    else
      eff! p := form_field account title primary secondary pf;
      eff! ps := form_fields account title primary secondary l;
      ret (match p with Some p => p :: ps | None => ps end)
  end.

(** ** Notifications *)

(** The texts of a notification: the first one is a title when it has one line. *)
Fixpoint notify_texts (titled : bool) (l : list (option string)) : M unit :=
  match l with
  | [] => ret tt
  | None :: l => notify_texts titled l
  | Some txt :: l =>
    if sempty txt then notify_texts titled l
    else
      (if negb titled && negb (has_char "010" txt) then privmsg (":: " +:+ txt +:+ " ::")
       else mapM_ privmsg (Tok.tokens (String "013" (String "010" "")) txt));;
      notify_texts true l
  end.
Definition user_info_line (e : string * option string) : string :=
  match e.2 with
  | Some value => e.1 +:+ ": " +:+ strip_html value
  | None => ":: " +:+ e.1 +:+ " ::"
  end.
(** [Message().addArg(alias).addArg(...)] to the user: an alias with a space is
    followed by no argument. *)
Definition user_send (alias : string) (e : ev) : M unit :=
  if Msg.back_has_space [alias] then throw MalformedMessage
  else emit e;; eff! bad := ask write_error; if bad then throw SockError else ret tt.
Definition user_info (alias : string) (entries : list (option string * option string)) : M unit :=
  mapM_ (fun '(label, value) =>
    match label with
    | None => ret tt
    | Some label =>
      mapM_ (fun line => user_send alias (Whois alias line))
        (Tok.tokens (String "013" (String "010" "")) (user_info_line (label, value)))
    end) entries;;
  user_send alias (EndOfWhois alias).

(** [check_write_file(path, filename)]. *)
Definition check_write_file (path filename : string) : M bool :=
  eff! there := ask opendir;
  eff! made := (if there path then ret true
                else emit (Mkdir path);; eff! ok := ask mkdir; ret (ok path));
  if negb made then ret false
  else
    let path := path +:+ "/" +:+ filename in
    eff! s := ask stat;
    match s path with
    | None => eff! w := ask writable; ret (w (g_path_get_dirname path))
    | Some is_dir => ret (negb is_dir)
    end.

(** ** The calls of libpurple *)

Definition request_file_ (title : option string) (filename : string) (savedialog : bool) (ok_cb cancel_cb : nat) : M unit :=
  if negb file_transfers then
    emit (Logged Log.W_ERR "File transfers are disabled on this server.");;
    emit (RunCallback cancel_cb (Path None))
  else if savedialog then
    let path := user_dir +:+ "/downloads/" in
    eff! ok := check_write_file path filename;
    if negb ok then
      eff! e := ask strerror;
      emit (Logged Log.W_ERR ("Unable to write into the download directory '" +:+ path +:+ "': " +:+ e));;
      emit (RunCallback cancel_cb (Path None))
    else emit (RunCallback ok_cb (Path (Some (path +:+ filename))))
  else
    privmsg ("Warning: something tries to ask you to open a filename (" +:+ default "" title
             +:+ "). But it is not yet implemented.");;
    emit (RunCallback cancel_cb (Path None)).
Definition request_fields_ (title primary secondary : option string) (fields : list pfield) (ok : string)
    (ok_cb : option nat) (cancel : string) (cancel_cb account : option nat) : M unit :=
  let main := Request RFieldList FIELDS account (text_or title primary)
                (match title with Some _ => text_or primary secondary | None => default "" secondary end)
                "Do you confirm?" [] [] in
  eff! p := alloc main;
  eff! subs := form_fields account title primary secondary fields;
  eff! r := with_buttons (with_subs subs main)
              [Field "ok" ok (Tmplt ok_cb AllFields); Field "cancel" cancel (Tmplt cancel_cb AllFields)];
  up_heap (insert p r);;
  addRequest p.
Definition exec (c : call) : M unit :=
  match c with
  | request_input title primary secondary d ok_cb account =>
    eff! p := alloc (Request (Input (default "" d) ok_cb) INPUT account (default "" title) (default "" primary)
                       (default "" secondary) [] []);
    addRequest p
  | request_action title primary secondary account actions =>
    eff! r := with_buttons (Request RFieldList ACTION account (default "" title) (default "" primary)
                              (default "" secondary) [] [])
                (imap (fun i '(text, cb) => Field (button_label text) text (Tmplt cb (Id (Z.of_nat i)))) actions);
    eff! p := alloc r; addRequest p
  | request_choice title primary secondary ok_cb cancel_cb account choices =>
    eff! r := with_buttons (Request RFieldList CHOICE account (default "" title) (default "" primary)
                              (default "" secondary) [] [])
                (map (fun '(text, val) => Field (button_label text) text (Tmplt ok_cb (Id val))) choices
                 ++ [Field "cancel" "Cancel" (Tmplt cancel_cb (Id 0))]);
    eff! p := alloc r; addRequest p
  | request_fields title primary secondary fields ok ok_cb cancel cancel_cb account =>
    request_fields_ title primary secondary fields ok ok_cb cancel cancel_cb account
  | request_file title filename savedialog ok_cb cancel_cb =>
    request_file_ title filename savedialog ok_cb cancel_cb
  | request_close r => closeRequest_ r
  | notify_message title primary secondary => notify_texts false [title; primary; secondary]
  | notify_formatted title primary secondary text =>
    notify_texts false [title; primary; secondary; option_map strip_html text]
  | notify_userinfo who entries =>
    eff! b := ask find_buddy;
    match b who with
    | None => emit (Logged Log.W_ERR ("Received WHOIS replies about unknown buddy " +:+ who))
    | Some alias => user_info alias entries
    end
  end.

(** ** The answers of the user *)

Definition run_callback (cb : nat) (arg : cbarg) : M unit :=
  emit (RunCallback cb arg);;
  eff! cs := ask reacts;
  mapM_ exec cs.
Definition runCallback (f : field) : M unit :=
  match fl_cb f with
  | Tmplt None _ => ret tt
  | Tmplt (Some cb) data2 => run_callback cb data2
  | FieldBoolean f v => emit (SetBoolean f v)
  | FieldChoice f v => emit (SetChoice f v)
  | FieldList g => emit (ClearSelected g);; emit (AddSelected g (fl_label f))
  end.
Fixpoint process (fuel : nat) (p : nat) (answer : string) : M unit :=
  match fuel with
  | O => crash "fuel"
  | S fuel =>
    eff! r := deref p;
    match rq_class r with
    | Input _ None => crash "NULL callback"
    | Input _ (Some cb) => run_callback cb (Text answer)
    | FieldsString f _ => emit (SetString f answer)
    | FieldsInteger f _ =>
      match Num.s2t_signed 32 answer with
      | None => crash "uninitialised"
      | Some z => emit (SetInteger f z)
      end
    | FieldsImage _ => ret tt
    | RFieldList | FieldsList =>
      match rq_subs r with
      | s :: _ => process fuel s answer
      | [] =>
        match Config.map_find answer (rq_fields r) with
        | None => throw RequestFieldNotFound
        | Some f => runCallback f
        end
      end
    end
  end.
(** [RequestNick::send]. *)
Definition send (m : @Msg.message nat) : M unit :=
  if negb (String.eqb (Msg.cmd m) "PRIVMSG" && bool_decide (Msg.entity (Msg.receiver m) = Some self)) then ret tt
  else
    match Msg.getArg 0 m with
    | Ret answer =>
      if Ascii.eqb (shead answer) "001" then ret tt
      else
        eff! l := get requests;
        match l with
        | [] => privmsg "No active question"
        | q :: _ =>
          eff! h := get heap;
          eff! valid := catch (process (S (size h)) q answer;; ret true)
            (fun e => match e with
                      | RequestFieldNotFound =>
                        Some (privmsg ("ERROR: Answer '" +:+ answer +:+ "' is not valid.");; display_ q;; ret false)
                      | _ => None
                      end);
          when valid (close_ q)
        end
    | _ => crash "assert(n < args.size())"
    end.

(** What happens to the requests: libpurple calls, the user writes. *)
Inductive step := Call (c : call) | Answer (m : @Msg.message nat).
Definition exec_step (x : step) : M unit := match x with Call c => exec c | Answer m => send m end.
End Request.
End Request.
