(* ===== verification/RequestProofs.v ===== *)
(** The requests of libpurple: whatever it calls and the user answers, every pointer
    is to a living request, each request is owned once, and none is lost. *)

From S2P Require Import Prelude Util Message Dcc Log Effects Config Request.

Module ReqWf.
Import Eff Request.

(** * Well-formed requests *)

Definition subs_of (h : gmap nat request) (p : nat) : list nat :=
  match h !! p with Some r => rq_subs r | None => [] end.
Definition owned (h : gmap nat request) (l : list nat) : list nat := l ++ (l ≫= subs_of h).
Definition top_class (c : class) : Prop :=
  match c with Input _ cb => cb <> None | RFieldList => True | _ => False end.
Definition sub_class (c : class) : Prop := match c with Input _ _ | RFieldList => False | _ => True end.

(** The requests of the queue own theirs; every request of the heap is one of
    them, once. *)
Record wf_at (h : gmap nat request) (n : nat) (l : list nat) : Prop := {
  wf_nodup : NoDup (owned h l);
  wf_alive : forall p, p ∈ owned h l <-> is_Some (h !! p);
  wf_top : forall p r, p ∈ l -> h !! p = Some r ->
    top_class (rq_class r) /\ (rq_class r <> RFieldList -> rq_subs r = []);
  wf_sub : forall p q r, p ∈ l -> q ∈ subs_of h p -> h !! q = Some r -> sub_class (rq_class r) /\ rq_subs r = [];
  wf_next : forall p, is_Some (h !! p) -> (p < n)%nat }.
Definition wf (s : st) : Prop := wf_at (heap s) (next s) (requests s).

Lemma elem_of_owned h l q : q ∈ owned h l <-> q ∈ l \/ exists p, p ∈ l /\ q ∈ subs_of h p.
Proof.
  unfold owned. rewrite elem_of_app. apply or_iff_compat_l. rewrite list_elem_of_bind. split; intros (y & H1 & H2); by exists y.
Qed.
Lemma wf_elem h n l p : wf_at h n l -> p ∈ l -> exists r, h !! p = Some r.
Proof. intros W Hp. apply (wf_alive _ _ _ W). apply elem_of_owned. by left. Qed.
Lemma wf_sub_elem h n l p q : wf_at h n l -> p ∈ l -> q ∈ subs_of h p -> exists r, h !! q = Some r.
Proof. intros W Hp Hq. apply (wf_alive _ _ _ W). apply elem_of_owned. right. by exists p. Qed.

(** The children of a request that is in the queue fit in the heap. *)
Lemma length_in_heap (l : list nat) (h : gmap nat request) :
  NoDup l -> (forall p, p ∈ l -> is_Some (h !! p)) -> (length l <= size h)%nat.
Proof.
  intros Hn Hl. rewrite <- (size_list_to_set (C:=gset nat) l Hn), <- size_dom.
  apply subseteq_size. intros p Hp%elem_of_list_to_set. apply elem_of_dom. by apply Hl.
Qed.

Lemma bind_ext_in {A B} (f g : A -> list B) l : (forall x, x ∈ l -> f x = g x) -> l ≫= f = l ≫= g.
Proof.
  induction l as [|x l IH]; intros H; [done|]. cbn. rewrite H by left. f_equal. apply IH.
  intros y Hy. apply H. by right.
Qed.
(** Adding a request at the end of the queue, with the ones it owns. *)
Lemma wf_added h n l p r h' n' :
  wf_at h n l -> p ∉ owned h l -> NoDup (p :: rq_subs r) ->
  (forall q, q ∈ rq_subs r -> h !! q = None) -> h !! p = None ->
  h' !! p = Some r ->
  (forall q, q ∈ rq_subs r -> exists r', h' !! q = Some r' /\ sub_class (rq_class r') /\ rq_subs r' = []) ->
  (forall q, q ∉ p :: rq_subs r -> h' !! q = h !! q) ->
  top_class (rq_class r) -> (rq_class r <> RFieldList -> rq_subs r = []) ->
  (n <= n')%nat -> (forall q, q ∈ p :: rq_subs r -> (q < n')%nat) ->
  wf_at h' n' (l ++ [p]).
Proof.
  intros W Hp Hnd Hfresh Hpn Hr Hsubs Hother Htop Hleaf Hn Hlt.
  assert (Hl : forall q, q ∈ owned h l -> h' !! q = h !! q).
  { intros q Hq. apply Hother. intros [->|Hq']%elem_of_cons; [by destruct Hp|].
    apply (wf_alive _ _ _ W) in Hq as [x Hx]. by rewrite (Hfresh q Hq') in Hx. }
  assert (Hs : forall q, q ∈ l -> subs_of h' q = subs_of h q).
  { intros q Hq. unfold subs_of. rewrite Hl; [done|]. apply elem_of_owned. by left. }
  assert (Hsp : subs_of h' p = rq_subs r) by (unfold subs_of; by rewrite Hr).
  assert (Ho : owned h' (l ++ [p]) ≡ₚ owned h l ++ (p :: rq_subs r)).
  { unfold owned. rewrite bind_app. cbn. rewrite Hsp, app_nil_r.
    replace (l ≫= subs_of h') with (l ≫= subs_of h); [solve_Permutation|].
    apply bind_ext_in. intros q Hq. by rewrite Hs. }
  split.
  - rewrite Ho. apply NoDup_app. split_and!; [apply W| |done].
    intros q Hq [->|Hq']%elem_of_cons; [done|].
    apply (wf_alive _ _ _ W) in Hq as [x Hx]. by rewrite (Hfresh q Hq') in Hx.
  - intros q. rewrite Ho, elem_of_app, (wf_alive _ _ _ W). split.
    + intros [Hq|[->|Hq]%elem_of_cons]; [|by rewrite Hr|].
      * rewrite Hl; [done|]. by apply (wf_alive _ _ _ W).
      * destruct (Hsubs q Hq) as (r' & -> & _). done.
    + intros Hq. destruct (decide (q ∈ p :: rq_subs r)) as [|Hq']; [by right|left]. by rewrite <- Hother.
  - intros q x [Hq| ->%list_elem_of_singleton]%elem_of_app Hx.
    + apply (wf_top _ _ _ W q); [done|]. rewrite <- Hl; [done|]. apply elem_of_owned. by left.
    + rewrite Hr in Hx. by injection Hx as <-.
  - intros q y x [Hq| ->%list_elem_of_singleton]%elem_of_app Hy Hx.
    + rewrite Hs in Hy by done. apply (wf_sub _ _ _ W q y); [done..|].
      rewrite <- Hl; [done|]. apply elem_of_owned. right. by exists q.
    + rewrite Hsp in Hy. destruct (Hsubs y Hy) as (r' & Hr' & ?). rewrite Hr' in Hx. by injection Hx as <-.
  - intros q Hq. destruct (decide (q ∈ p :: rq_subs r)) as [|Hq']; [auto|].
    rewrite Hother in Hq by done. apply (wf_next _ _ _ W) in Hq. lia.
Qed.

(** Taking a request out of the queue, with the ones it owns. *)
Lemma erase_perm p l : p ∈ l -> l ≡ₚ p :: erase p l.
Proof.
  induction l as [|q l IH]; [by intros ?%elem_of_nil|]. cbn. destruct (Nat.eqb_spec q p) as [->|Hne]; [done|].
  intros [->|Hp]%elem_of_cons; [done|]. rewrite (IH Hp) at 1. apply Permutation_swap.
Qed.
Lemma wf_remove h n l p r h' :
  wf_at h n l -> p ∈ l -> h !! p = Some r ->
  (forall q, h' !! q = if bool_decide (q ∈ p :: rq_subs r) then None else h !! q) ->
  wf_at h' n (erase p l).
Proof.
  intros W Hp Hr Hh. pose proof (erase_perm p l Hp) as Hl.
  assert (Ho : owned h l ≡ₚ (p :: rq_subs r) ++ owned h (erase p l)).
  { unfold owned. rewrite Hl at 1 2. cbn [mbind list_bind]. unfold subs_of at 1. rewrite Hr. cbn.
    solve_Permutation. }
  pose proof (wf_nodup _ _ _ W) as Hn. rewrite Ho in Hn. apply NoDup_app in Hn as (Hn1 & Hn2 & Hn3).
  assert (Hk : forall q, q ∈ owned h (erase p l) -> h' !! q = h !! q).
  { intros q Hq. rewrite Hh, bool_decide_false; [done|]. intros Hq'. by apply (Hn2 q). }
  assert (Hi : forall q, q ∈ erase p l -> q ∈ l) by (intros q Hq; rewrite Hl; by right).
  assert (Hs : forall q, q ∈ erase p l -> subs_of h' q = subs_of h q).
  { intros q Hq. unfold subs_of. rewrite Hk; [done|]. apply elem_of_owned. by left. }
  assert (Ho' : owned h' (erase p l) = owned h (erase p l)).
  { unfold owned. f_equal. apply bind_ext_in. intros q Hq. by rewrite Hs. }
  split.
  - by rewrite Ho'.
  - intros q. rewrite Ho'. split.
    + intros Hq. rewrite Hk by done. apply (wf_alive _ _ _ W). rewrite Ho. apply elem_of_app. by right.
    + rewrite Hh. case_bool_decide as Hq; [by intros []|]. intros Hq'%(wf_alive _ _ _ W).
      rewrite Ho in Hq'. by apply elem_of_app in Hq' as [].
  - intros q x Hq Hx. apply (wf_top _ _ _ W q); [auto|]. rewrite <- Hk; [done|]. apply elem_of_owned. by left.
  - intros q y x Hq Hy Hx. rewrite Hs in Hy by done. apply (wf_sub _ _ _ W q y); [auto|done|].
    rewrite <- Hk; [done|]. apply elem_of_owned. right. by exists q.
  - intros q. rewrite Hh. case_bool_decide; [by intros []|]. apply (wf_next _ _ _ W).
Qed.

(** Taking the first of the requests another one owns. *)
Lemma wf_shift h n l p r s subs h' :
  wf_at h n l -> p ∈ l -> h !! p = Some r -> rq_subs r = s :: subs ->
  (forall q, h' !! q = if bool_decide (q = p) then Some (with_subs subs r)
                       else if bool_decide (q = s) then None else h !! q) ->
  wf_at h' n l.
Proof.
  intros W Hp Hr Hsub Hh. pose proof (erase_perm p l Hp) as Hl'. set (l' := erase p l) in *. clearbody l'.
  assert (Ho : owned h l ≡ₚ s :: p :: subs ++ owned h l').
  { unfold owned. rewrite Hl' at 1 2. cbn [mbind list_bind]. unfold subs_of at 1. rewrite Hr, Hsub. cbn.
    solve_Permutation. }
  pose proof (wf_nodup _ _ _ W) as Hn. rewrite Ho in Hn.
  apply NoDup_cons in Hn as [Hns Hn]. pose proof Hn as [Hnp _]%NoDup_cons.
  assert (Hps : p <> s) by (intros ->; apply Hns; left).
  assert (Hpl : p ∉ l') by (intros H; apply Hnp, elem_of_app; right; by apply elem_of_owned; left).
  assert (Hk : forall q, q ∈ subs ++ owned h l' -> h' !! q = h !! q).
  { intros q Hq. rewrite Hh, !bool_decide_false; [done| |].
    - intros ->. apply Hns. by right.
    - intros ->. by apply Hnp. }
  assert (Hs : forall q, q ∈ l' -> subs_of h' q = subs_of h q).
  { intros q Hq. unfold subs_of. rewrite Hk; [done|]. apply elem_of_app. right. apply elem_of_owned. by left. }
  assert (Hsp : subs_of h' p = subs) by (unfold subs_of; by rewrite Hh, bool_decide_true).
  assert (Ho' : owned h' l ≡ₚ p :: subs ++ owned h l').
  { unfold owned. rewrite Hl' at 1 2. cbn [mbind list_bind]. rewrite Hsp. cbn.
    replace (l' ≫= subs_of h') with (l' ≫= subs_of h); [solve_Permutation|].
    apply bind_ext_in. intros q Hq. by rewrite Hs. }
  assert (Hsubs : forall q, q ∈ subs_of h p <-> q = s \/ q ∈ subs).
  { intros q. unfold subs_of. rewrite Hr, Hsub. apply elem_of_cons. }
  split.
  - by rewrite Ho'.
  - intros q. rewrite Ho', Hh. case_bool_decide as Hq; [subst; split; [done|intros; left]|].
    case_bool_decide as Hq'; [subst; split; [intros H; by destruct Hns|by intros []]|].
    rewrite <- (wf_alive _ _ _ W), Ho. rewrite !elem_of_cons. tauto.
  - intros q x Hq. rewrite Hh. case_bool_decide as Hqp; [|case_bool_decide; [done|by apply (wf_top _ _ _ W)]].
    subst. intros [= <-]. destruct (wf_top _ _ _ W p r Hp Hr) as [H1 H2]. split; [done|].
    cbn. intros Hc. by rewrite H2 in Hsub.
  - intros q y x Hq Hy Hx. rewrite Hl' in Hq. apply elem_of_cons in Hq as [->|Hq].
    + rewrite Hsp in Hy. rewrite Hk in Hx by (apply elem_of_app; by left).
      apply (wf_sub _ _ _ W p y); [done| |done]. apply Hsubs. by right.
    + rewrite Hs in Hy by done. apply (wf_sub _ _ _ W q y); [rewrite Hl'; by right|done|].
      rewrite <- Hk; [done|]. apply elem_of_app. right. apply elem_of_owned. right. by exists q.
  - intros q. rewrite Hh. case_bool_decide; [subst; intros _; apply (wf_next _ _ _ W); by rewrite Hr|].
    case_bool_decide; [by intros []|]. apply (wf_next _ _ _ W).
Qed.

(** * What only speaks to the user *)

Section Requests.
Context {env : RequestEnv}.
(** The undefined behaviour that is allowed. *)
Context (C : string -> Prop).

Definition same (s s' : st) : Prop := heap s' = heap s /\ next s' = next s /\ requests s' = requests s.
Definition says {A} (m : M A) : Prop :=
  forall s, wpc C m (fun _ => same s) (fun _ => same s) s.
Lemma same_refl s : same s s. Proof. done. Qed.
Lemma same_trans s1 s2 s3 : same s1 s2 -> same s2 s3 -> same s1 s3.
Proof. intros (H1 & H2 & H3) (H4 & H5 & H6). split_and!; congruence. Qed.
Lemma wf_same s s' : wf s -> same s s' -> wf s'.
Proof. unfold wf. by intros W (-> & -> & ->). Qed.

Lemma says_bind {A B} (m : M A) (k : A -> M B) : says m -> (forall a, says (k a)) -> says (bind m k).
Proof.
  intros Hm Hk s. apply wpc_bind. eapply wpc_mono; [apply Hm| |done].
  intros a s1 H1. eapply wpc_mono; [apply Hk|..]; intros ? s2 H2; by apply (same_trans _ s1).
Qed.
Lemma says_get {A} (f : st -> A) : says (get f).
Proof. intros s. by apply wpc_get. Qed.
Lemma says_emit e : says (emit e).
Proof. intros s. by apply wpc_put. Qed.
Lemma says_ret {A} (a : A) : says (ret a).
Proof. intros s. by apply wpc_ret. Qed.
Lemma says_throw {A} e : says (throw e : M A).
Proof. intros s. by apply wpc_throw. Qed.
Lemma says_when b m : says m -> says (when b m).
Proof. intros Hm s. by apply wpc_when; [intros _; apply Hm|]. Qed.
Lemma says_mapM_ {A} (f : A -> M unit) l : (forall a, says (f a)) -> says (mapM_ f l).
Proof.
  intros Hf. induction l as [|a l IH]; [apply says_ret|]. cbn [mapM_]. by apply says_bind; [|intros []].
Qed.
Ltac says :=
  repeat (cbv beta zeta; match goal with
  | |- says (get _) => apply says_get
  | |- says (ask _) => apply says_get
  | |- says (bind _ _) => apply says_bind; [|intros ?]
  | |- says (ret _) => apply says_ret
  | |- says (throw _) => apply says_throw
  | |- says (emit _) => apply says_emit
  | |- says (when _ _) => apply says_when
  | |- says (mapM_ _ _) => apply says_mapM_; intros ?
  | |- says (if ?b then _ else _) => destruct b
  | |- says (match ?x with _ => _ end) => destruct x
  | |- says (let '(_, _) := ?x in _) => destruct x
  end); auto.
Lemma says_privmsg t : says (privmsg t).
Proof. unfold privmsg. says. Qed.
#[local] Hint Resolve says_privmsg : core.
Lemma says_heading r : says (heading r).
Proof. unfold heading. says. Qed.
#[local] Hint Resolve says_heading : core.
Lemma says_input_display r d : says (input_display r d).
Proof. unfold input_display. says. Qed.
Lemma says_list_display r : says (list_display r).
Proof. unfold list_display. says. Qed.
Lemma says_image_show f : says (image_show f).
Proof. unfold image_show. says. Qed.
Lemma says_notify_texts b l : says (notify_texts b l).
Proof.
  revert b. induction l as [|[x|] l IH]; intros b; cbn [notify_texts]; says.
Qed.
Lemma says_user_info a l : says (user_info a l).
Proof. unfold user_info, user_send. says. Qed.
Lemma says_request_file a b c d e : says (request_file_ a b c d e).
Proof.
  unfold request_file_, check_write_file. says.
Qed.

(** * What closes and opens *)

Lemma wpc_says {A} (m : M unit) (k : M A) (Q : A -> st -> Prop) (R : exn -> st -> Prop) s :
  says m -> (forall s', same s s' -> wpc C k Q R s') -> (forall e s', same s s' -> R e s') ->
  wpc C (m ;; k)%eff Q R s.
Proof.
  intros Hm Hk HR. apply wpc_bind. eapply wpc_mono; [apply Hm| |exact HR]. intros [] s' H. by apply Hk.
Qed.
(** A computation that keeps the requests well formed, whatever its end. *)
Definition good {A} (m : M A) (s : st) : Prop := wpc C m (fun _ => wf) (fun _ => wf) s.
Lemma good_says {A} (m : M A) s : says m -> wf s -> good m s.
Proof. intros Hm W. eapply wpc_mono; [apply Hm|..]; intros ? s' H; by apply (wf_same s). Qed.
Lemma good_then {A} (m : M unit) (k : M A) s :
  says m -> wf s -> (forall s', same s s' -> good k s') -> good (m ;; k)%eff s.
Proof. intros Hm W Hk. apply wpc_says; [done..|]. intros e s' H. by apply (wf_same s). Qed.
Lemma good_seq {A B} (m : M A) (k : A -> M B) s :
  good m s -> (forall a s', wf s' -> good (k a) s') -> good (bind m k) s.
Proof. intros Hm Hk. apply wpc_bind. eapply wpc_mono; [exact Hm| |done]. apply Hk. Qed.

Lemma delete_leaf F p r s :
  heap s !! p = Some r -> rq_subs r = [] ->
  delete_ (S F) p s = (St (tr s) (delete p (heap s)) (next s) (requests s), Done tt).
Proof.
  intros Hr Hs. unfold deref, bind, get, put, ret, up_heap. cbn. unfold deref, bind, get, ret. cbn. by rewrite Hr, Hs.
Qed.
Lemma delete_leaves F l s :
  NoDup l -> (forall q, q ∈ l -> exists r, heap s !! q = Some r /\ rq_subs r = []) ->
  exists h, mapM_ (delete_ (S F)) l s = (St (tr s) h (next s) (requests s), Done tt)
    /\ forall q, h !! q = if bool_decide (q ∈ l) then None else heap s !! q.
Proof.
  revert s. induction l as [|p l IH]; intros s Hn Hl.
  - exists (heap s). split; [by destruct s|]. intros q. by rewrite bool_decide_false by apply not_elem_of_nil.
  - apply NoDup_cons in Hn as [Hp Hn]. destruct (Hl p ltac:(left)) as (r & Hr & Hs).
    destruct (IH (St (tr s) (delete p (heap s)) (next s) (requests s)) Hn) as (h & E & Hh).
    + intros q Hq. cbn. rewrite lookup_delete_ne by (by intros ->). apply Hl. by right.
    + exists h. cbn [mapM_]. unfold bind. rewrite (delete_leaf F p r s Hr Hs). split; [exact E|].
      intros q. rewrite Hh. cbn. destruct (decide (q = p)) as [->|Hne].
      * rewrite lookup_delete_eq. rewrite (bool_decide_true (p ∈ p :: l)) by left. by case_bool_decide.
      * rewrite lookup_delete_ne by done. rewrite (bool_decide_ext (q ∈ p :: l) (q ∈ l)); [done|].
        rewrite elem_of_cons. split; [by intros [?|?]|by right].
Qed.
(** Deleting one of the requests of the queue, or a leaf. *)
Lemma wpc_delete (Q : unit -> st -> Prop) R p r s :
  heap s !! p = Some r -> NoDup (p :: rq_subs r) ->
  (forall q, q ∈ rq_subs r -> exists r', heap s !! q = Some r' /\ rq_subs r' = []) ->
  (forall h, (forall q, h !! q = if bool_decide (q ∈ p :: rq_subs r) then None else heap s !! q) ->
             Q tt (St (tr s) h (next s) (requests s))) ->
  wpc C (delete_request p) Q R s.
Proof.
  intros Hr [Hp Hn]%NoDup_cons Hs HQ. unfold delete_request. apply wpc_bind, wpc_get.
  assert (exists n, size (heap s) = S n) as [F ->].
  { destruct (size (heap s)) eqn:E; [|by eexists]. apply map_size_empty_inv in E. by rewrite E in Hr. }
  destruct (delete_leaves F (rq_subs r) s Hn Hs) as (h & E & Hh).
  change (delete_ (S (S F)) p) with
    (bind (deref p) (fun r => bind (mapM_ (delete_ (S F)) (rq_subs r)) (fun _ => up_heap (delete p)))).
  apply wpc_bind. unfold deref. apply wpc_bind, wpc_get. rewrite Hr. apply wpc_ret.
  apply wpc_bind. unfold wpc at 1. rewrite E. apply wpc_put. apply HQ. cbn. intros q.
  destruct (decide (q = p)) as [->|Hne].
  - by rewrite lookup_delete_eq, bool_decide_true by left.
  - rewrite lookup_delete_ne, Hh by done. apply (f_equal (fun b : bool => if b then None else heap s !! q)).
    apply bool_decide_ext. rewrite elem_of_cons. split; [by right|by intros [?|?]].
Qed.
Lemma wf_owned_nodup h n l p r : wf_at h n l -> p ∈ l -> h !! p = Some r -> NoDup (p :: rq_subs r).
Proof.
  intros W Hp Hr. pose proof (wf_nodup _ _ _ W) as Hn. unfold owned in Hn.
  rewrite (erase_perm p l Hp) in Hn at 1 2. cbn [mbind list_bind] in Hn. unfold subs_of in Hn at 1. rewrite Hr in Hn.
  cbn in Hn. rewrite NoDup_cons in Hn. destruct Hn as [Hp' Hn].
  apply NoDup_app in Hn as (_ & _ & Hn). apply NoDup_app in Hn as (Hn & _ & _).
  apply NoDup_cons. split; [|done]. intros H. apply Hp'. rewrite !elem_of_app. auto.
Qed.
Lemma wf_subs_leaves h n l p r q :
  wf_at h n l -> p ∈ l -> h !! p = Some r -> q ∈ rq_subs r ->
  exists r', h !! q = Some r' /\ sub_class (rq_class r') /\ rq_subs r' = [].
Proof.
  intros W Hp Hr Hq. assert (q ∈ subs_of h p) as Hq' by (unfold subs_of; by rewrite Hr).
  destruct (wf_sub_elem h n l p q W Hp Hq') as [r' Hr']. exists r'. split; [done|].
  by apply (wf_sub _ _ _ W p q).
Qed.
Lemma wpc_deref (Q : request -> st -> Prop) R p r s :
  heap s !! p = Some r -> Q r s -> wpc C (deref p) Q R s.
Proof. intros Hr HQ. apply wpc_bind, wpc_get. by rewrite Hr. Qed.

Lemma wf_shifted h n l p r q subs h' :
  wf_at h n l -> p ∈ l -> h !! p = Some r -> rq_subs r = q :: subs ->
  (forall y, h' !! y = if bool_decide (y ∈ [q]) then None else h !! y) ->
  wf_at (<[p := with_subs subs r]> h') n l.
Proof.
  intros W Hp Hr Hs Hh. apply (wf_shift h n l p r q subs); [done..|].
  intros y. destruct (decide (y = p)) as [->|Hne]; [by rewrite lookup_insert_eq, bool_decide_true|].
  rewrite lookup_insert_ne, Hh, (bool_decide_false (y = p)) by done.
  rewrite (bool_decide_ext (y ∈ [q]) (y = q)); [done|]. by rewrite list_elem_of_singleton.
Qed.
(** [display] of the first request: a chain of images ends, each with three calls. *)
Lemma display_head k : forall F s p l r,
  wf s -> requests s = p :: l -> heap s !! p = Some r -> length (rq_subs r) = k ->
  (3 * k + 1 <= F)%nat -> good (display F p) s.
Proof.
  induction k as [|k IH]; intros F s p l r W Hl Hr Hk HF; (destruct F as [|F]; [lia|]).
  - destruct (wf_top _ _ _ W p r) as [Hc Hleaf]; [rewrite Hl; left|done|].
    cbn [display]. unfold good. apply wpc_bind, (wpc_deref _ _ _ r); [done|].
    destruct (rq_class r); try done; [apply good_says; [apply says_input_display|done]|].
    destruct (rq_subs r) as [|]; [|done]. apply good_says; [apply says_list_display|done].
  - destruct (wf_top _ _ _ W p r) as [Hc Hleaf]; [rewrite Hl; left|done|].
    cbn [display]. unfold good. apply wpc_bind, (wpc_deref _ _ _ r); [done|].
    destruct (rq_class r) eqn:Ec; try done; [by rewrite Hleaf in Hk|].
    destruct (rq_subs r) as [|q subs] eqn:Hs; [done|].
    destruct (wf_subs_leaves _ _ _ p r q W) as (x & Hx & Hxc & Hxs); [rewrite Hl; left|done|rewrite Hs; left|].
    destruct F as [|F]; [cbn in Hk; lia|]. cbn [display].
    apply wpc_bind, (wpc_deref _ _ _ x); [done|].
    destruct (rq_class x) eqn:Exc; try done.
    + apply good_says; [apply says_input_display|done].
    + apply good_says; [apply says_input_display|done].
    + apply good_then; [apply says_image_show|done|]. intros s1 (Eh & En & El).
      apply wpc_bind, wpc_get. rewrite El, Hl. destruct F as [|F]; [cbn in Hk; lia|]. cbn [close].
      apply wpc_bind, (wpc_deref _ _ _ r); [by rewrite Eh|]. rewrite Ec, Hs.
      apply wpc_bind, (wpc_delete _ _ q x); [by rewrite Eh|by rewrite Hxs; apply NoDup_singleton| |].
      * rewrite Hxs. by intros ? ?%elem_of_nil.
      * intros h Hh. rewrite Hxs, Eh in Hh. apply wpc_bind, wpc_put.
        apply (IH _ _ p l (with_subs subs r)); [|by cbn; rewrite El|by cbn; rewrite lookup_insert_eq|cbn in *; lia..].
        unfold wf. cbn. rewrite En, El, Hl. rewrite Hl in W || idtac.
        apply (wf_shifted (heap s) (next s) (p :: l) p r q subs); [by rewrite <- Hl|left|done..].
    + destruct (rq_subs x); [|done]. apply good_says; [apply says_list_display|done].
Qed.
Lemma subs_fit s p r : wf s -> p ∈ requests s -> heap s !! p = Some r -> (length (rq_subs r) < size (heap s))%nat.
Proof.
  intros W Hp Hr. apply (length_in_heap (p :: rq_subs r)).
  - by apply (wf_owned_nodup _ _ _ p r W).
  - intros q [->|Hq]%elem_of_cons; [by rewrite Hr|].
    by destruct (wf_subs_leaves _ _ _ p r q W Hp Hr Hq) as (x & -> & _).
Qed.
Lemma closeRequest_good F s p : wf s -> (3 * size (heap s) + 2 <= F)%nat -> good (closeRequest F p) s.
Proof.
  intros W HF. destruct F as [|F]; [lia|]. cbn [closeRequest].
  apply wpc_bind, wpc_get. case_bool_decide as Hp; cbn [negb]; [|by apply wpc_ret].
  destruct (wf_elem _ _ _ p W Hp) as [r Hr].
  apply wpc_bind, wpc_put, wpc_bind, (wpc_delete _ _ p r); cbn; [done|by apply (wf_owned_nodup _ _ _ p r W)| |].
  - intros q Hq. destruct (wf_subs_leaves _ _ _ p r q W Hp Hr Hq) as (x & ? & _ & ?). by exists x.
  - intros h Hh. set (s' := St (tr s) h (next s) (erase p (requests s))).
    assert (W' : wf s') by by apply (wf_remove (heap s) (next s) (requests s) p r).
    assert (Hsz : (size h <= size (heap s))%nat).
    { rewrite <- !size_dom. apply subseteq_size. intros q. rewrite !elem_of_dom, Hh.
      case_bool_decide; [by intros []|done]. }
    apply wpc_when; intros _; [|done]. apply good_then; [apply says_privmsg|done|].
    intros s1 E. pose proof (wf_same _ _ W' E) as W1. destruct E as (Eh & _ & El). apply wpc_bind, wpc_get.
    destruct (requests s1) as [|q l] eqn:E1; [by apply wpc_ret|].
    destruct (wf_elem _ _ _ q W1) as [x Hx]; [rewrite E1; left|].
    eapply (display_head _ _ _ q l x); [done|done|done|done|].
    pose proof (subs_fit s1 q x W1) as Hf. rewrite E1, Eh in Hf. specialize (Hf ltac:(left)). 
    rewrite <- Eh in Hf. specialize (Hf Hx). rewrite Eh in Hf. cbn in Hf. lia.
Qed.
Lemma close_head_good F s p l :
  wf s -> requests s = p :: l -> (3 * size (heap s) + 3 <= F)%nat -> good (close F p) s.
Proof.
  intros W Hl HF. destruct F as [|F]; [lia|]. cbn [close].
  destruct (wf_elem _ _ _ p W) as [r Hr]; [rewrite Hl; left|].
  destruct (wf_top _ _ _ W p r) as [Hc Hleaf]; [rewrite Hl; left|done|].
  assert (Hpc : forall s', same s s' -> good (eff! c := ask purple_closes; when (c p) (closeRequest F p))%eff s').
  { intros s' E. pose proof (wf_same _ _ W E) as W'. apply wpc_bind, wpc_get, wpc_when; intros _; [|done].
    apply closeRequest_good; [done|]. destruct E as (-> & _). lia. }
  apply wpc_bind, (wpc_deref _ _ _ r); [done|].
  destruct (rq_class r) eqn:Ec; try done; [apply good_then; [apply says_emit|done|exact Hpc]|].
  destruct (rq_subs r) as [|q subs] eqn:Hs; [apply good_then; [apply says_emit|done|exact Hpc]|].
  destruct (wf_subs_leaves _ _ _ p r q W) as (x & Hx & Hxc & Hxs); [rewrite Hl; left|done|rewrite Hs; left|].
  apply wpc_bind, (wpc_delete _ _ q x); [done|by rewrite Hxs; apply NoDup_singleton| |].
  { rewrite Hxs. by intros ? ?%elem_of_nil. }
  intros h Hh. rewrite Hxs in Hh. apply wpc_bind, wpc_put.
  pose proof (subs_fit s p r W) as Hf. rewrite Hl in Hf. specialize (Hf ltac:(left) Hr). rewrite Hs in Hf. cbn in Hf.
  apply (display_head (length subs) _ _ p l (with_subs subs r)); [|done|by cbn; rewrite lookup_insert_eq|done|lia].
  apply (wf_shifted (heap s) (next s) (requests s) p r q subs); [done|by rewrite Hl; left|done..].
Qed.

(** * The calls and the answers *)

Lemma display_first s p l : wf s -> requests s = p :: l -> good (display_ p) s.
Proof.
  intros W Hl. apply wpc_bind, wpc_get. destruct (wf_elem _ _ _ p W) as [r Hr]; [rewrite Hl; left|].
  apply (display_head (length (rq_subs r)) _ _ p l r); [done..|]. unfold fuel.
  pose proof (subs_fit s p r W) as Hf. rewrite Hl in Hf. specialize (Hf ltac:(left) Hr). lia.
Qed.

Definition bounded (s : st) : Prop := forall q, is_Some (heap s !! q) -> (q < next s)%nat.
Lemma addRequest_good s p : wf_at (heap s) (next s) (requests s ++ [p]) -> good (addRequest p) s.
Proof.
  intros W. unfold addRequest. apply wpc_bind, wpc_put, wpc_bind, wpc_get. cbn.
  set (s' := St (tr s) (heap s) (next s) (requests s ++ [p])). assert (W' : wf s') by done.
  destruct (Nat.eqb_spec (length (requests s ++ [p])) 1) as [H1|H1].
  - destruct (requests s) as [|q l] eqn:E; [|rewrite length_app in H1; cbn in H1; lia].
    by apply (display_first _ p []).
  - destruct (wf_elem _ _ _ p W) as [r Hr]; [apply elem_of_app; right; left|].
    apply wpc_bind, (wpc_deref _ _ _ r); [done|]. apply good_says; [apply says_privmsg|done].
Qed.
Lemma wf_fresh s q : wf s -> (next s <= q)%nat -> heap s !! q = None.
Proof.
  intros W Hq. destruct (heap s !! q) eqn:E; [|done].
  pose proof (wf_next _ _ _ W q) as H. rewrite E in H. specialize (H ltac:(done)). lia.
Qed.

(** What [addRequest] ends in, from any state whose queue is this one. *)
Definition adds (l : list nat) (Q R : st -> Prop) : Prop :=
  forall t h n p, wf_at h n (l ++ [p]) -> wpc C (addRequest p) (fun _ => Q) (fun _ => R) (St t h n l).
(** A request without others in it. *)
Lemma add_leaf Q R s r :
  wf s -> adds (requests s) Q R -> top_class (rq_class r) -> rq_subs r = [] ->
  wpc C (eff! p := alloc r; addRequest p)%eff (fun _ => Q) (fun _ => R) s.
Proof.
  intros W HQ Hc Hs. apply wpc_bind. unfold alloc. apply wpc_bind, wpc_get, wpc_bind, wpc_put, wpc_ret.
  pose proof (wf_fresh s (next s) W ltac:(lia)) as Hf.
  apply HQ. apply (wf_added (heap s) (next s) (requests s) (next s) r); rewrite ?Hs; try done.
  - by rewrite (wf_alive _ _ _ W), Hf; intros [].
  - apply NoDup_singleton.
  - by intros ? ?%elem_of_nil.
  - by rewrite lookup_insert_eq.
  - by intros ? ?%elem_of_nil.
  - intros q Hq. rewrite lookup_insert_ne; [done|]. intros E. by apply Hq, list_elem_of_singleton.
  - lia.
  - intros q ->%list_elem_of_singleton. lia.
Qed.

(** Adding a field ends. *)
Lemma map_find_keys {A} k (l : list (string * A)) : k ∈ l.*1 <-> Config.map_find k l <> None.
Proof.
  induction l as [|[k' a] l IH]; cbn; [by split; [intros ?%elem_of_nil|]|].
  rewrite elem_of_cons. destruct (String.eqb_spec k' k) as [->|Hne]; [by split; [|left]|].
  rewrite <- IH. split; [intros [?|?]; congruence|by right].
Qed.
Lemma free_label_at k l : forall fuel s, (k < fuel)%nat ->
  Config.map_find (s +:+ underscores k) l = None ->
  (forall j, (j < k)%nat -> Config.map_find (s +:+ underscores j) l <> None) ->
  free_label fuel l s = Some (s +:+ underscores k).
Proof.
  induction k as [|k IH]; intros [|fuel] s Hk Hf Ht; try lia; cbn [free_label].
  - cbn [underscores] in *. rewrite app_nil_s in *. by rewrite Hf.
  - pose proof (Ht 0%nat ltac:(lia)) as H0. cbn [underscores] in H0. rewrite app_nil_s in H0.
    destruct (Config.map_find s l); [|done]. rewrite IH, underscores_snoc; [done|lia|by rewrite underscores_snoc|].
    intros j Hj. rewrite underscores_snoc. apply Ht. lia.
Qed.
Lemma free_label_found l s :
  exists k, free_label (S (length l)) l s = Some (s +:+ underscores k)
    /\ Config.map_find (s +:+ underscores k) l = None.
Proof.
  destruct (first_free id l.*1 s ltac:(done)) as (k & Hk & Hf & Ht). rewrite length_fmap in Hk.
  assert (Hn : Config.map_find (s +:+ underscores k) l = None).
  { destruct (Config.map_find _ l) eqn:E; [|done]. destruct Hf. apply map_find_keys. unfold id. by rewrite E. }
  exists k. split; [|done]. apply free_label_at; [lia|done|]. intros j Hj. by apply map_find_keys, Ht.
Qed.
Lemma addFields_some fs : forall l, exists l', addFields fs l = Some l'.
Proof.
  induction fs as [|f fs IH]; intros l; [by exists l|]. cbn [addFields]. unfold addField.
  destruct (free_label_found l (fl_label f)) as (k & -> & _). apply IH.
Qed.
Lemma wpc_buttons (Q : request -> st -> Prop) R r fs s :
  (forall l, Q (with_fields l r) s) -> wpc C (with_buttons r fs) Q R s.
Proof. intros HQ. unfold with_buttons. destruct (addFields_some fs (rq_fields r)) as [l ->]. apply wpc_ret, HQ. Qed.

(** The questions of a form are new, and leaves. *)
Definition new_leaves (s : st) (ps : list nat) (s' : st) : Prop :=
  requests s' = requests s /\ bounded s' /\ (next s <= next s')%nat /\ NoDup ps
  /\ (forall q, q ∈ ps -> (next s <= q < next s')%nat
        /\ exists r, heap s' !! q = Some r /\ sub_class (rq_class r) /\ rq_subs r = [])
  /\ forall q, q ∉ ps -> heap s' !! q = heap s !! q.
Lemma new_leaves_nil s : bounded s -> new_leaves s [] s.
Proof. intros Hb. split_and!; [done|done|lia|apply NoDup_nil_2| |done]. by intros q ?%elem_of_nil. Qed.
Lemma alloc_leaf s r :
  bounded s -> sub_class (rq_class r) -> rq_subs r = [] ->
  wpc C (eff! p := alloc r; ret (Some p))%eff
    (fun o s' => exists p, o = Some p /\ new_leaves s [p] s') (fun _ _ => False) s.
Proof.
  intros Hb Hc Hs. unfold alloc. apply wpc_bind, wpc_bind, wpc_get, wpc_bind, wpc_put, wpc_ret, wpc_ret.
  exists (next s). split; [done|]. split_and!; cbn.
  - done.
  - intros q. destruct (decide (q = next s)) as [->|]; cbn; [lia|]. rewrite lookup_insert_ne by done.
    intros H%Hb. lia.
  - lia.
  - apply NoDup_singleton.
  - intros q ->%list_elem_of_singleton. split; [lia|]. exists r. by rewrite lookup_insert_eq.
  - intros q Hq. rewrite lookup_insert_ne; [done|]. intros E. by apply Hq, list_elem_of_singleton.
Qed.
Lemma new_leaves_trans s1 ps s2 qs s3 :
  new_leaves s1 ps s2 -> new_leaves s2 qs s3 -> new_leaves s1 (ps ++ qs) s3.
Proof.
  intros (A1 & A2 & A3 & A4 & A5 & A6) (B1 & B2 & B3 & B4 & B5 & B6).
  assert (D : forall q, q ∈ ps -> q ∉ qs).
  { intros q Hq Hq'. apply A5 in Hq as [? _]. apply B5 in Hq' as [? _]. lia. }
  split_and!; [congruence|done|lia|by apply NoDup_app| |].
  - intros q [Hq|Hq]%elem_of_app.
    + destruct (A5 q Hq) as (? & r & Hr & ? & ?). split; [lia|]. exists r. by rewrite B6 by auto.
    + destruct (B5 q Hq) as (? & ?). split; [lia|done].
  - intros q Hq. rewrite elem_of_app in Hq. rewrite B6, A6 by tauto. done.
Qed.
Lemma form_field_ok s account title primary secondary pf :
  bounded s ->
  wpc C (form_field account title primary secondary pf)
    (fun o s' => new_leaves s (match o with Some p => [p] | None => [] end) s') (fun _ _ => False) s.
Proof.
  intros Hb. assert (Hc : forall r, sub_class (rq_class r) -> rq_subs r = [] ->
    wpc C (eff! p := alloc r; ret (Some p))%eff
      (fun o s' => new_leaves s (match o with Some p => [p] | None => [] end) s') (fun _ _ => False) s).
  { intros r H1 H2. eapply wpc_mono; [by apply alloc_leaf| |done]. by intros _ s' (p & -> & H). }
  unfold form_field. destruct (pf_type pf); [by apply Hc..| | | |].
  1-3: apply wpc_bind, wpc_buttons; intros l; by apply Hc.
  apply wpc_bind, wpc_put, wpc_ret. cbn. split_and!; cbn; [done|done|lia|apply NoDup_nil_2| |done].
  by intros q ?%elem_of_nil.
Qed.
Lemma form_fields_ok account title primary secondary l : forall s,
  bounded s ->
  wpc C (form_fields account title primary secondary l) (fun ps s' => new_leaves s ps s')
    (fun _ _ => False) s.
Proof.
  induction l as [|pf l IH]; intros s Hb; cbn [form_fields].
  - by apply wpc_ret, new_leaves_nil.
  - destruct (negb (pf_visible pf)); [by apply IH|]. apply wpc_bind.
    eapply wpc_mono; [by apply form_field_ok| |done]. intros o s1 H1. apply wpc_bind.
    eapply wpc_mono; [apply IH; apply H1| |done]. intros ps s2 H2. apply wpc_ret.
    pose proof (new_leaves_trans _ _ _ _ _ H1 H2) as H. by destruct o.
Qed.

(** A form: the main question owns those of the fields. *)
Definition opened (main : request) (s : st) : st := St (tr s) (<[next s := main]> (heap s)) (S (next s)) (requests s).
Lemma opened_bounded main s : wf s -> bounded (opened main s).
Proof.
  intros W q. cbn. destruct (decide (q = next s)) as [->|]; [lia|]. rewrite lookup_insert_ne by done.
  intros Hq%(wf_next _ _ _ W). lia.
Qed.
Lemma form_wf main ps l s s2 :
  wf s -> rq_class main = RFieldList -> new_leaves (opened main s) ps s2 ->
  wf_at (<[next s := with_fields l (with_subs ps main)]> (heap s2)) (next s2) (requests s ++ [next s]).
Proof.
  intros W Hc (A1 & A2 & A3 & A4 & A5 & A6). cbn in A1, A3, A6.
  assert (Hps : forall q, q ∈ ps -> (S (next s) <= q)%nat) by (intros q Hq; by apply A5 in Hq as [[? _] _]).
  assert (Hpp : next s ∉ ps) by (intros H%Hps; lia).
  set (r := with_fields l (with_subs ps main)). assert (Hr : rq_subs r = ps) by done.
  apply (wf_added (heap s) (next s) (requests s) (next s) r); rewrite ?Hr; try done.
  - rewrite (wf_alive _ _ _ W), wf_fresh by (done || lia). by intros [].
  - by apply NoDup_cons.
  - intros q Hq. apply wf_fresh; [done|]. apply Hps in Hq. lia.
  - apply wf_fresh; [done|]. lia.
  - by rewrite lookup_insert_eq.
  - intros q Hq. rewrite lookup_insert_ne by (by intros <-). by apply A5.
  - intros q Hq. rewrite elem_of_cons in Hq. rewrite lookup_insert_ne by (intros <-; tauto).
    rewrite A6 by tauto. rewrite lookup_insert_ne by (intros <-; tauto). done.
  - change (top_class (rq_class main)). by rewrite Hc.
  - lia.
  - intros q [->|Hq]%elem_of_cons; [lia|]. apply A5 in Hq as [[_ ?] _]. done.
Qed.
Lemma request_fields_add Q R s title primary secondary fields ok ok_cb cancel cancel_cb account :
  wf s -> adds (requests s) Q R ->
  wpc C (request_fields_ title primary secondary fields ok ok_cb cancel cancel_cb account)
    (fun _ => Q) (fun _ => R) s.
Proof.
  intros W HQ. unfold request_fields_. set (main := Request RFieldList _ _ _ _ _ _ _). cbv zeta.
  apply wpc_bind. unfold alloc. apply wpc_bind, wpc_get, wpc_bind, wpc_put, wpc_ret. fold (opened main s).
  apply wpc_bind. eapply wpc_mono; [by apply form_fields_ok, opened_bounded| |done].
  intros ps s2 H. pose proof H as (A1 & _). apply wpc_bind, wpc_buttons. intros l. apply wpc_bind, wpc_put.
  rewrite A1. by apply HQ, form_wf.
Qed.
(** libpurple gives a callback to a question with a line to write. *)
Definition call_ok (c : call) : Prop := match c with request_input _ _ _ _ ok _ => ok <> None | _ => True end.
Definition is_close (c : call) : bool := match c with request_close _ => true | _ => false end.
Lemma exec_adds (Q R : st -> Prop) s c :
  wf s -> call_ok c -> is_close c = false -> (forall s', same s s' -> Q s' /\ R s') -> adds (requests s) Q R ->
  wpc C (exec c) (fun _ => Q) (fun _ => R) s.
Proof.
  intros W Hok Hc HQ HA.
  assert (Hsay : forall m : M unit, says m -> wpc C m (fun _ => Q) (fun _ => R) s).
  { intros m Hm. eapply wpc_mono; [apply Hm|intros [] s' H|intros e s' H]; by apply HQ. }
  destruct c; cbn [exec]; try done.
  - by apply add_leaf.
  - by apply wpc_bind, wpc_buttons; intros l; apply add_leaf.
  - by apply wpc_bind, wpc_buttons; intros l; apply add_leaf.
  - by apply request_fields_add.
  - apply Hsay, says_request_file.
  - apply Hsay, says_notify_texts.
  - apply Hsay, says_notify_texts.
  - apply Hsay. says. apply says_user_info.
Qed.
Lemma exec_call_good s c : wf s -> call_ok c -> good (exec c) s.
Proof.
  intros W Hok. destruct (is_close c) eqn:E.
  - destruct c; try done. apply wpc_bind, wpc_get. apply closeRequest_good; [done|]. unfold fuel. lia.
  - apply exec_adds; try done.
    + intros s' H. by split; apply (wf_same s).
    + intros t h n p W'. by apply addRequest_good.
Qed.
End Requests.

(** * What was freed stays freed *)

Section Grows.
Context {env : RequestEnv}.
Definition any (_ : string) : Prop := True.

(** New addresses only: one that was given and is free is not given again. *)
Definition grows (s s' : st) : Prop :=
  (next s <= next s')%nat /\ forall p, (p < next s)%nat -> heap s !! p = None -> heap s' !! p = None.
Lemma store_grows_refl s : grows s s.
Proof. done. Qed.
Lemma grows_trans s1 s2 s3 : grows s1 s2 -> grows s2 s3 -> grows s1 s3.
Proof. intros [H1 H2] [H3 H4]. split; [lia|]. intros p Hp E. apply H4; [lia|]. by apply H2. Qed.
Lemma grows_same s s' : same s s' -> grows s s'.
Proof. intros (Eh & En & _). split; [lia|]. by rewrite Eh. Qed.

Definition keeps {A} (m : M A) : Prop := forall s, wpc any m (fun _ => grows s) (fun _ => grows s) s.
Lemma wpc_keeps {A} (m : M A) s0 s : keeps m -> grows s0 s -> wpc any m (fun _ => grows s0) (fun _ => grows s0) s.
Proof. intros Hm H. eapply wpc_mono; [apply Hm|..]; intros ? s'; by apply grows_trans. Qed.
Lemma keeps_says {A} (m : M A) : says any m -> keeps m.
Proof. intros H s. eapply wpc_mono; [apply H|..]; intros ? s'; apply grows_same. Qed.
Lemma store_keeps_bind {A B} (m : M A) (k : A -> M B) : keeps m -> (forall a, keeps (k a)) -> keeps (bind m k).
Proof.
  intros Hm Hk s. apply wpc_bind. eapply wpc_mono; [apply Hm| |done]. intros a s1 H1. by apply wpc_keeps.
Qed.
Lemma keeps_get {A} (f : st -> A) : keeps (get f).
Proof. intros s. by apply wpc_get. Qed.
Lemma store_keeps_ret {A} (a : A) : keeps (ret a).
Proof. intros s. by apply wpc_ret. Qed.
Lemma keeps_crash {A} w : keeps (crash w : M A).
Proof. intros s. by apply wpc_crash. Qed.
Lemma store_keeps_when b m : keeps m -> keeps (when b m).
Proof. intros Hm s. by apply wpc_when; [intros _; apply Hm|]. Qed.
Lemma keeps_mapM_ {A} (f : A -> M unit) l : (forall a, keeps (f a)) -> keeps (mapM_ f l).
Proof. intros Hf. induction l as [|a l IH]; [apply store_keeps_ret|]. cbn [mapM_]. by apply store_keeps_bind; [|intros []]. Qed.
Lemma keeps_requests f : keeps (up_requests f).
Proof. intros s. by apply wpc_put. Qed.
Lemma store_keeps_emit e : keeps (emit e).
Proof. apply keeps_says, says_emit. Qed.
Lemma keeps_privmsg t : keeps (privmsg t).
Proof. apply keeps_says, says_privmsg. Qed.
Lemma keeps_delete p : keeps (up_heap (delete p)).
Proof. intros s. apply wpc_put. split; [done|]. intros q _ Hq. cbn. by apply lookup_delete_None; right. Qed.
Lemma keeps_deref p : keeps (deref p).
Proof. apply store_keeps_bind; [apply keeps_get|]. intros h. destruct (h !! p); [apply store_keeps_ret|apply keeps_crash]. Qed.
Lemma keeps_alloc r : keeps (alloc r).
Proof.
  intros s. unfold alloc. apply wpc_bind, wpc_get, wpc_bind, wpc_put, wpc_ret. split; cbn; [lia|].
  intros p Hp E. by rewrite lookup_insert_ne by lia.
Qed.
Lemma keeps_with_buttons r fs : keeps (with_buttons r fs).
Proof. unfold with_buttons. destruct (addFields _ _); [apply store_keeps_ret|apply keeps_crash]. Qed.
Ltac keeps :=
  repeat (cbv beta zeta; match goal with
  | |- keeps (get _) => apply keeps_get
  | |- keeps (ask _) => apply keeps_get
  | |- keeps (bind _ _) => apply store_keeps_bind; [|intros ?]
  | |- keeps (ret _) => apply store_keeps_ret
  | |- keeps (crash _) => apply keeps_crash
  | |- keeps (emit _) => apply store_keeps_emit
  | |- keeps (privmsg _) => apply keeps_privmsg
  | |- keeps (up_requests _) => apply keeps_requests
  | |- keeps (deref _) => apply keeps_deref
  | |- keeps (alloc _) => apply keeps_alloc
  | |- keeps (with_buttons _ _) => apply keeps_with_buttons
  | |- keeps (when _ _) => apply store_keeps_when
  | |- keeps (mapM_ _ _) => apply keeps_mapM_; intros ?
  | |- keeps (if ?b then _ else _) => destruct b
  | |- keeps (match ?x with _ => _ end) => destruct x
  end); auto.
Lemma keeps_delete_request p : keeps (delete_request p).
Proof.
  unfold delete_request. apply store_keeps_bind; [apply keeps_get|]. intros h. generalize (S (size h)). intros F.
  revert p. induction F as [|F IH]; intros p; cbn [delete_]; keeps. apply keeps_delete.
Qed.
#[local] Hint Resolve keeps_delete_request : core.
Lemma keeps_loops F :
  (forall p, keeps (display F p)) /\ (forall p, keeps (close F p)) /\ (forall p, keeps (closeRequest F p)).
Proof.
  induction F as [|F (IHd & IHc & IHr)]; [split_and!; intros p; apply keeps_crash|]. split_and!; intros p.
  - cbn [display]. keeps; apply keeps_says; auto using says_input_display, says_list_display, says_image_show.
  - cbn [close]. intros s. apply wpc_bind, wpc_bind, wpc_get. destruct (heap s !! p) as [r|] eqn:Er; [|done].
    apply wpc_ret. destruct (rq_class r); try (by apply IHr); [|].
    { revert s Er. intros s _. apply wpc_keeps; [|done]. keeps. }
    destruct (rq_subs r) as [|q subs]; [apply wpc_keeps; [|done]; keeps|].
    apply wpc_bind. eapply wpc_mono; [apply keeps_delete_request| |done]. intros [] s1 [H1 H2].
    apply wpc_bind, wpc_put. apply wpc_keeps; [done|]. split; cbn; [done|]. intros y Hy E.
    rewrite lookup_insert_ne by congruence. by apply H2.
  - cbn [closeRequest]. keeps.
Qed.
Lemma keeps_display p : keeps (display_ p).
Proof. apply store_keeps_bind; [apply keeps_get|]. intros h. apply keeps_loops. Qed.
Lemma keeps_closeRequest p : keeps (closeRequest_ p).
Proof. apply store_keeps_bind; [apply keeps_get|]. intros h. apply keeps_loops. Qed.
#[local] Hint Resolve keeps_display : core.
Lemma keeps_addRequest p : keeps (addRequest p).
Proof. unfold addRequest. keeps. Qed.
#[local] Hint Resolve keeps_addRequest : core.
Lemma keeps_form_fields account title primary secondary l :
  keeps (form_fields account title primary secondary l).
Proof. induction l as [|pf l IH]; cbn [form_fields]; unfold form_field; keeps. Qed.
Lemma keeps_request_fields title primary secondary fields ok ok_cb cancel cancel_cb account :
  keeps (request_fields_ title primary secondary fields ok ok_cb cancel cancel_cb account).
Proof.
  intros s. unfold request_fields_, alloc. cbv zeta. apply wpc_bind, wpc_bind, wpc_get, wpc_bind, wpc_put, wpc_ret.
  apply wpc_bind. eapply wpc_mono; [apply keeps_form_fields|..].
  2:{ intros e s1 [H1 H2]. cbn in H1, H2. split; [lia|]. intros q Hq E. apply H2; [lia|].
      by rewrite lookup_insert_ne by lia. }
  intros ps s1 [H1 H2]. cbn in H1, H2. unfold with_buttons. destruct (addFields _ _); [|done].
  apply wpc_bind, wpc_ret, wpc_bind, wpc_put. apply wpc_keeps; [done|]. split; cbn; [lia|]. intros q Hq E.
  rewrite lookup_insert_ne by lia. apply H2; [lia|]. by rewrite lookup_insert_ne by lia.
Qed.
Lemma keeps_exec c : keeps (exec c).
Proof.
  destruct c; cbn [exec]; keeps; try apply keeps_request_fields; try apply keeps_closeRequest;
    apply keeps_says; auto using says_request_file, says_notify_texts, says_user_info.
Qed.
End Grows.

(** * A callback inside an answer *)

Section Answers.
Context {env : RequestEnv}.
Context (C : string -> Prop).

Lemma wpc_and {A} (m : M A) (Q Q' : A -> st -> Prop) (R R' : exn -> st -> Prop) s :
  wpc C m Q R s -> wpc any m Q' R' s ->
  wpc C m (fun a s' => Q a s' /\ Q' a s') (fun e s' => R e s' /\ R' e s') s.
Proof. unfold wpc. by destruct (m s) as [s' []]. Qed.

(** While a question is answered, the others wait behind it. *)
Definition behind (q : nat) (s : st) : Prop := wf s /\ exists l, requests s = q :: l.
(** A callback closed it. *)
Definition gone (q : nat) (s : st) : Prop := wf s /\ (q < next s)%nat /\ heap s !! q = None.
Definition held (P : Prop) (q : nat) (s : st) : Prop := behind q s \/ P /\ gone q s.
Lemma behind_same q s s' : behind q s -> same s s' -> behind q s'.
Proof.
  intros [W [l Hl]] E. split; [by apply (wf_same s)|]. exists l. destruct E as (_ & _ & ->). done.
Qed.
Lemma exec_gone s q c : gone q s -> call_ok c -> wpc C (exec c) (fun _ => gone q) (fun _ => gone q) s.
Proof.
  intros (W & Hq & Hn) Hok. eapply wpc_mono; [apply wpc_and; [by apply exec_call_good|apply keeps_exec]|..];
    intros ? s' (W' & H1 & H2); (split; [done|]; split; [lia|by apply H2]).
Qed.
(** A question behind the first one closes, and nothing else moves. *)
Lemma close_behind s q p :
  behind q s -> p <> q -> wpc C (exec (request_close p)) (fun _ => behind q) (fun _ => behind q) s.
Proof.
  intros [W [l Hl]] Hne. cbn [exec]. apply wpc_bind, wpc_get. unfold fuel. rewrite Nat.add_succ_r. cbn [closeRequest].
  apply wpc_bind, wpc_get. case_bool_decide as Hp; cbn [negb]; [|apply wpc_ret; split; [done|by exists l]].
  destruct (wf_elem _ _ _ p W Hp) as [r Hr].
  rewrite bool_decide_false by (rewrite Hl; cbn; congruence).
  apply wpc_bind, wpc_put, wpc_bind, (wpc_delete _ _ _ p r); [done|by apply (wf_owned_nodup _ _ _ p r W)| |].
  - intros y Hy. destruct (wf_subs_leaves _ _ _ p r y W Hp Hr Hy) as (x & ? & _ & ?). by exists x.
  - intros h Hh. cbn [tr heap next requests] in *. apply wpc_when; [done|].
    intros _. split; [by apply (wf_remove (heap s) (next s) (requests s) p r)|]. exists (erase p l). cbn. rewrite Hl.
    cbn [erase]. by destruct (Nat.eqb_spec q p); [congruence|].
Qed.
(** The first one is freed. *)
Lemma close_first s q :
  behind q s -> wpc C (exec (request_close q)) (fun _ => gone q) (fun _ => gone q) s.
Proof.
  intros [W [l Hl]]. destruct (wf_elem _ _ _ q W) as [r Hr]; [rewrite Hl; left|].
  assert (Hq : (q < next s)%nat) by (apply (wf_next _ _ _ W); by rewrite Hr).
  assert (G : wpc any (exec (request_close q)) (fun _ s' => (q < next s')%nat /\ heap s' !! q = None)
                (fun _ s' => (q < next s')%nat /\ heap s' !! q = None) s).
  { cbn [exec]. apply wpc_bind, wpc_get. unfold fuel. rewrite Nat.add_succ_r. cbn [closeRequest].
    apply wpc_bind, wpc_get. rewrite Hl, bool_decide_true by left. cbn [negb head].
    apply wpc_bind, wpc_put, wpc_bind, (wpc_delete _ _ _ q r);
      [done|apply (wf_owned_nodup _ _ _ q r W); [rewrite Hl; left|done]| |].
    { intros y Hy. destruct (wf_subs_leaves _ _ _ q r y W) as (x & ? & _ & ?); [rewrite Hl; left|done..|]. by exists x. }
    intros h Hh. assert (h !! q = None) as Hn by (rewrite Hh, bool_decide_true; [done|left]).
    rewrite bool_decide_true by done. set (s1 := St _ _ _ _).
    eapply (wpc_mono _ _ (fun _ => grows s1) _ (fun _ => grows s1)).
    - apply wpc_keeps; [|done]. apply store_keeps_when, store_keeps_bind; [apply keeps_privmsg|]. intros _.
      apply store_keeps_bind; [apply keeps_get|]. intros [|y k]; [apply store_keeps_ret|apply keeps_loops].
    - intros _ s' [H1 H2]. cbn in H1, H2. split; [lia|by apply H2].
    - intros _ s' [H1 H2]. cbn in H1, H2. split; [lia|by apply H2]. }
  eapply wpc_mono; [apply wpc_and; [by apply (exec_call_good C s (request_close q) W)|exact G]|..];
    intros ? s' [W' H]; by split.
Qed.
Lemma exec_behind s q c :
  behind q s -> call_ok c ->
  wpc C (exec c) (fun _ => held (c = request_close q) q) (fun _ => held (c = request_close q) q) s.
Proof.
  intros B Hok. pose proof B as [W [l Hl]]. destruct (is_close c) eqn:Hc.
  - destruct c as [| | | | |p| | |]; try done. destruct (decide (p = q)) as [->|Hne].
    + eapply wpc_mono; [by apply close_first|..]; intros ? s' G; by right.
    + eapply wpc_mono; [by apply close_behind|..]; intros ? s' G; by left.
  - apply exec_adds; try done.
    + intros s' E. by split; left; apply (behind_same q s).
    + intros t h n p W'. rewrite Hl in *. unfold addRequest. apply wpc_bind, wpc_put, wpc_bind, wpc_get. cbn.
      destruct (length (l ++ [p])) eqn:E; [rewrite length_app in E; cbn in E; lia|].
      destruct (wf_elem _ _ _ p W') as [r Hr]; [apply elem_of_app; right; left|].
      apply wpc_bind, (wpc_deref _ _ _ _ r); [done|]. eapply wpc_mono; [apply says_privmsg|..];
        intros ? s' E'; left; apply (behind_same q (St t h n ((q :: l) ++ [p]))); try done; split; try done; by eexists.
Qed.
(** What libpurple calls gives a callback to a question with a line to write. *)
Definition calls_ok : Prop := forall t, Forall call_ok (reacts t).
Context (Hcalls : calls_ok) (Hunread : C "uninitialised").

(** The callback of the answer closes the question [q] that it answers. *)
Definition closes_own (q : nat) (s : st) : Prop :=
  exists cb arg, request_close q ∈ reacts (tr s ++ [RunCallback cb arg]).
Lemma held_mono (P P' : Prop) q s : (P -> P') -> held P q s -> held P' q s.
Proof. intros H [?|[? ?]]; [by left|right; auto]. Qed.
Lemma callback_behind s q cb arg :
  behind q s -> wpc C (run_callback cb arg) (fun _ => held (closes_own q s) q) (fun _ => held (closes_own q s) q) s.
Proof.
  intros B. unfold run_callback. apply wpc_bind, wpc_put, wpc_bind, wpc_get. cbn.
  apply wpc_mapM_; [left; by apply (behind_same q s)|]. intros c s' Hc H.
  pose proof (proj1 (Forall_forall _ _) (Hcalls (tr s ++ [RunCallback cb arg])) c Hc) as Hok.
  destruct H as [B'|[HP G]].
  - eapply wpc_mono; [by apply exec_behind|..]; intros ? s2; apply held_mono; intros ->; by exists cb, arg.
  - eapply wpc_mono; [by apply exec_gone|..]; intros ? s2 ?; by right.
Qed.
Lemma process_behind F s q r answer :
  behind q s -> heap s !! q = Some r -> (1 < F)%nat ->
  wpc C (process F q answer) (fun _ => held (closes_own q s) q) (fun _ => held (closes_own q s) q) s.
Proof.
  intros B Hr HF. pose proof B as [W [l Hl]]. destruct F as [|F]; [lia|]. cbn [process].
  destruct (wf_top _ _ _ W q r) as [Hc Hleaf]; [rewrite Hl; left|done|]. set (I := held (closes_own q s) q).
  assert (HI : I s) by by left.
  assert (Hsay : forall m : M unit, says C m -> wpc C m (fun _ => I) (fun _ => I) s).
  { intros m Hm. eapply wpc_mono; [apply Hm|..]; intros ? s' ?; left; by apply (behind_same q s). }
  assert (Hbutton : forall f, wpc C (runCallback f) (fun _ => I) (fun _ => I) s).
  { intros f. unfold runCallback. destruct (fl_cb f) as [[cb|] x| | |]; [by apply callback_behind|..];
      apply Hsay; auto using says_ret, says_emit. apply says_bind; auto using says_emit. }
  assert (Hlist : forall fs, wpc C (match Config.map_find answer fs with
                                         | None => throw RequestFieldNotFound
                                         | Some f => runCallback f
                                         end) (fun _ => I) (fun _ => I) s).
  { intros fs. by destruct (Config.map_find answer fs). }
  apply wpc_bind, (wpc_deref _ _ _ _ r); [done|].
  destruct (rq_class r) as [d [cb|]| | | | |] eqn:Ec; try done; [by apply callback_behind|].
  destruct (rq_subs r) as [|p subs] eqn:Hs; [apply Hlist|].
  destruct (wf_subs_leaves _ _ _ q r p W) as (x & Hx & Hxc & Hxs); [rewrite Hl; left|done|rewrite Hs; left|].
  destruct F as [|F]; [lia|]. cbn [process]. apply wpc_bind, (wpc_deref _ _ _ _ x); [done|].
  destruct (rq_class x) eqn:Ex; try done; try (apply Hsay; auto using says_emit, says_ret; fail).
  - destruct (Num.s2t_signed 32 answer); [apply Hsay, says_emit|exact Hunread].
  - rewrite Hxs. apply Hlist.
Qed.
(** Only the question a callback closed is reached after it was freed. *)
Lemma send_good s (m : @Msg.message nat) :
  wf s -> Msg.args m <> [] -> (forall q l, requests s = q :: l -> closes_own q s -> C "freed request") ->
  good C (send m) s.
Proof.
  intros W Hm HC. unfold send. destruct (negb _); [by apply wpc_ret|].
  unfold Msg.getArg. destruct (Msg.args m) as [|answer args]; [done|]. cbn.
  destruct (Ascii.eqb _ _); [by apply wpc_ret|]. apply wpc_bind, wpc_get.
  destruct (requests s) as [|q l] eqn:Hl; [apply good_says; [apply says_privmsg|done]|].
  destruct (wf_elem _ _ _ q W) as [r Hr]; [rewrite Hl; left|].
  assert (B : behind q s) by (split; [done|by exists l]).
  assert (Hgone : forall A (k : request -> M A) Q R s', closes_own q s -> heap s' !! q = None ->
    wpc C (bind (deref q) k) Q R s').
  { intros A k Q R s' HP Hn. apply wpc_bind, wpc_bind, wpc_get. rewrite Hn. by apply wpc_crash, (HC q l). }
  apply wpc_bind, wpc_get, wpc_bind.
  apply wpc_catch, wpc_bind. eapply wpc_mono; [apply (process_behind (S (size (heap s))) s q r answer); [done|done|]|..].
  - assert (size (heap s) <> 0%nat); [|lia]. intros E. apply map_size_empty_inv in E. by rewrite E in Hr.
  - intros [] s1 H1. apply wpc_ret. apply wpc_when; intros _; [|by destruct H1 as [[]|[_ []]]].
    apply wpc_bind, wpc_get. destruct H1 as [[W1 [l1 H1]]|[HP (W1 & _ & Hn)]].
    + apply (close_head_good _ _ _ _ l1); [done|done|]. unfold fuel. lia.
    + unfold fuel. rewrite Nat.add_succ_r. by apply Hgone.
  - intros e s1 H1. assert (W1 : wf s1) by by destruct H1 as [[]|[_ []]].
    destruct e; try assumption. apply wpc_says; [apply says_privmsg| |].
    + intros s2 E2. apply wpc_bind. destruct H1 as [B1|[HP (_ & _ & Hn)]].
      * pose proof (behind_same _ _ _ B1 E2) as [W2 [l2 H2]].
        eapply wpc_mono; [by apply (display_first C s2 q l2)| |done]. intros [] s3 W3. by apply wpc_ret, wpc_ret.
      * apply wpc_bind, wpc_get. unfold fuel. rewrite Nat.add_succ_r. destruct E2 as (Eh & _ & _).
        apply Hgone; [done|by rewrite Eh].
    + intros _ s2 E2. by apply (wf_same s1).
Qed.
End Answers.
End ReqWf.
