(* ===== verification/RequestProps.v ===== *)
(** What the requests promise: no pointer to a freed question, and a form that gets
    the answers of the user in the order of its fields. *)

From S2P Require Import Prelude Util Message Dcc Log Effects Config Request RequestProofs.
Import Eff Request ReqWf.

(** * Any sequence of calls and answers *)

Section Safe.
Context {env : RequestEnv}.

(** The steps one after the other; an exception ends its step.  After a crash: the
    step, and the state before it. *)
Fixpoint run (l : list step) (s : st) : st + st * step * string :=
  match l with
  | [] => inl s
  | x :: l =>
    match exec_step x s with
    | (s, Done _) | (s, Raise _) => run l s
    | (_, Crash w) => inr (s, x, w)
    end
  end.
Definition s_init : st := St [] ∅ 0 [].
Definition step_ok (x : step) : Prop := match x with Call c => call_ok c | Answer m => Msg.args m <> [] end.

Lemma wf_init : wf s_init.
Proof.
  split; cbn.
  - apply NoDup_nil_2.
  - intros p. rewrite lookup_empty. split; [by intros ?%elem_of_nil|by intros []].
  - by intros p r ?%elem_of_nil.
  - by intros p q r ?%elem_of_nil.
  - intros p. rewrite lookup_empty. by intros [].
Qed.
(** How a step ends badly: an integer field got a blank answer; or the callback of the
    question that was answered closed it, and [RequestNick::send] closes it again. *)
Definition bad_end (s : st) (x : step) (why : string) : Prop :=
  why = "uninitialised"
  \/ why = "freed request" /\ exists m q l, x = Answer m /\ requests s = q :: l /\ closes_own q s.
Lemma step_good x s : calls_ok -> step_ok x -> wf s -> good (bad_end s x) (exec_step x) s.
Proof.
  intros Hp Hx W. destruct x as [c|m]; [by apply exec_call_good|]. apply send_good; [done|by left|done..|].
  intros q l Hl Hq. right. split; [done|]. by exists m, q, l.
Qed.

(** C7: whatever libpurple calls, inside the callbacks too, and the user answers:
    every pointer the questions are reached by is to a living one, the chains of images
    end, every question has one owner and none is lost, also after an exception.  A step
    has undefined behaviour in two cases only: a number is read from a blank answer, or
    the callback of an answer closed the very question it answers, which
    [RequestNick::send] then closes.  libpurple gives a callback to each input, and a
    PRIVMSG has an argument. *)
Theorem requests_safe (l : list step) :
  calls_ok -> Forall step_ok l ->
  match run l s_init with inl s => wf s | inr (s, x, why) => wf s /\ x ∈ l /\ bad_end s x why end.
Proof.
  intros Hp. generalize wf_init. generalize s_init. induction l as [|x l IH]; intros s W Hl; [done|].
  apply Forall_cons in Hl as [Hx Hl]. cbn [run].
  pose proof (step_good x s Hp Hx W) as G. unfold good, wpc in G.
  assert (Next : forall s', wf s' ->
    match run l s' with inl s => wf s | inr (s, y, why) => wf s /\ y ∈ x :: l /\ bad_end s y why end).
  { intros s' W'. specialize (IH s' W' Hl). destruct (run l s') as [|[[s1 y] why]]; [done|].
    destruct IH as (? & ? & ?). split_and!; [done|by right|done]. }
  destruct (exec_step x s) as [s' [[]|e|why]]; [by apply Next..|]. split_and!; [done|left|done].
Qed.
End Safe.

(** * A form *)

(** What reaches libpurple. *)
Definition reaches (e : ev) : bool :=
  match e with
  | SetString _ _ | SetInteger _ _ | SetBoolean _ _ | SetChoice _ _ | ClearSelected _ | AddSelected _ _
  | RunCallback _ _ => true
  | _ => false
  end.
Definition told (t : list ev) : list ev := filter (fun e => reaches e) t.
Lemma told_trace_app t u : told (t ++ u) = told t ++ told u.
Proof. apply filter_app. Qed.

(** The button an answer presses among labels, which are made different. *)
Definition labels_of (pf : pfield) : list field :=
  match pf_type pf with
  | PBoolean => [Field "true" "" (FieldBoolean (pf_id pf) true); Field "false" "" (FieldBoolean (pf_id pf) false)]
  | PChoice labels => imap (fun i l => Field l "" (FieldChoice (pf_id pf) (Z.of_nat i))) labels
  | PList items => map (fun l => Field l "" (FieldList (pf_id pf))) items
  | _ => []
  end.
(** What pressing a button is for libpurple. *)
Definition pressed (fs : list field) (a : string) : option (list ev) :=
  l ← addFields fs [];
  f ← Config.map_find a l;
  Some (match fl_cb f with
        | FieldBoolean g v => [SetBoolean g v]
        | FieldChoice g v => [SetChoice g v]
        | FieldList g => [ClearSelected g; AddSelected g (fl_label f)]
        | Tmplt _ _ => []
        end).
(** What an answer to a field is for libpurple; [None] when it is not one. *)
Definition meaning (pf : pfield) (a : string) : option (list ev) :=
  match pf_type pf with
  | PString _ => Some [SetString (pf_id pf) a]
  | PInteger _ => z ← Num.s2t_signed 32 a; Some [SetInteger (pf_id pf) z]
  | PBoolean | PChoice _ | PList _ => pressed (labels_of pf) a
  | PImage | POther _ => None
  end.

(** The buttons of a field set it. *)
Definition sets (f : field) : Prop := match fl_cb f with Tmplt _ _ => False | _ => True end.
Lemma map_set_forall {A} (P : A -> Prop) k a (l : list (string * A)) :
  P a -> Forall (fun x => P x.2) l -> Forall (fun x => P x.2) (Config.map_set k a l).
Proof.
  intros Ha Hl. induction Hl as [|[k1 a1] l H1 Hl IH]; cbn; [by constructor|].
  destruct (String.compare k k1); by repeat constructor.
Qed.
Lemma map_find_forall {A} (P : A -> Prop) k a (l : list (string * A)) :
  Forall (fun x => P x.2) l -> Config.map_find k l = Some a -> P a.
Proof.
  intros Hl. induction Hl as [|[k1 a1] l H1 Hl IH]; cbn; [done|]. destruct (String.eqb k1 k); [by intros [= <-]|done].
Qed.
Lemma addFields_sets fs : forall l l',
  Forall sets fs -> Forall (fun x => sets x.2) l -> addFields fs l = Some l' -> Forall (fun x => sets x.2) l'.
Proof.
  induction fs as [|f fs IH]; intros l l' Hfs Hl; cbn [addFields]; [by intros [= <-]|].
  apply Forall_cons in Hfs as [Hf Hfs]. unfold addField. destruct (free_label _ _ _) as [k|]; [|done]. cbn.
  apply IH; [done|]. by apply map_set_forall.
Qed.
Lemma labels_set pf : Forall sets (labels_of pf).
Proof.
  unfold labels_of. destruct (pf_type pf); try done; [by repeat constructor|..]; apply Forall_forall; intros f.
  - intros (i & l & -> & _)%elem_of_lookup_imap. done.
  - intros (l & -> & _)%list_elem_of_fmap. done.
Qed.
Section Form.
Context {env : RequestEnv}.
(** The socket works, libpurple closes what it is asked to and its callbacks return. *)
Context (Hwrite : forall t, write_error t = false).
Context (Hclose : forall t p, purple_closes t p = true).
Context (Hreact : forall t, reacts t = []).

Definition never (why : string) : Prop := False.
(** What neither touches the questions nor reaches libpurple. *)
Definition calm (s s' : st) : Prop := same s s' /\ told (tr s') = told (tr s).
Definition mute {A} (m : M A) : Prop := forall s, wpc never m (fun _ => calm s) (fun _ _ => False) s.
Lemma calm_refl s : calm s s. Proof. done. Qed.
Lemma calm_trans s1 s2 s3 : calm s1 s2 -> calm s2 s3 -> calm s1 s3.
Proof. intros [H1 E1] [H2 E2]. split; [by apply (same_trans _ s2)|congruence]. Qed.
Lemma mute_bind {A B} (m : M A) (k : A -> M B) : mute m -> (forall a, mute (k a)) -> mute (bind m k).
Proof.
  intros Hm Hk s. apply wpc_bind. eapply wpc_mono; [apply Hm| |done].
  intros a s1 H1. eapply wpc_mono; [apply Hk| |done]. intros ? s2 H2. by apply (calm_trans _ s1).
Qed.
Lemma mute_emit e : reaches e = false -> mute (emit e).
Proof.
  intros He s. apply wpc_put. split; [done|]. cbn. rewrite told_trace_app. unfold told at 2, filter. cbn. rewrite He.
  apply app_nil_r.
Qed.
Lemma mute_mapM_ {A} (f : A -> M unit) l : (forall a, mute (f a)) -> mute (mapM_ f l).
Proof.
  intros Hf. induction l as [|a l IH]; intros s; [by apply wpc_ret|]. cbn [mapM_]. by apply mute_bind; [|intros []].
Qed.
Lemma mute_privmsg t : mute (privmsg t).
Proof.
  apply mute_mapM_. intros x. apply mute_bind; [by apply mute_emit|]. intros [] s. apply wpc_bind, wpc_get.
  rewrite Hwrite. by apply wpc_ret.
Qed.
Lemma mute_when b m : mute m -> mute (when b m).
Proof. intros Hm s. by apply wpc_when; [intros _; apply Hm|]. Qed.
Lemma mute_heading r : mute (heading r).
Proof.
  apply mute_bind; [intros s; by apply wpc_get|intros ids]. apply mute_bind; [apply mute_privmsg|intros []].
  apply mute_bind; [apply mute_when, mute_privmsg|intros []]. apply mute_when, mute_privmsg.
Qed.
Lemma mute_input_display r d : mute (input_display r d).
Proof.
  apply mute_bind; [apply mute_heading|intros []]. apply mute_bind; [apply mute_privmsg|intros []].
  apply mute_privmsg.
Qed.
Lemma mute_list_display r : mute (list_display r).
Proof. apply mute_bind; [apply mute_heading|intros []]. apply mute_mapM_. intros [x f]. apply mute_privmsg. Qed.

(** The question of a field. *)
Definition leaf_for (pf : pfield) (x : request) : Prop :=
  match pf_type pf with
  | PString _ => exists d, rq_class x = FieldsString (pf_id pf) d
  | PInteger _ => exists d, rq_class x = FieldsInteger (pf_id pf) d
  | PBoolean | PChoice _ | PList _ => rq_class x = FieldsList /\ addFields (labels_of pf) [] = Some (rq_fields x)
  | PImage | POther _ => False
  end.
Definition leaves_for (s : st) (pfs : list pfield) (ps : list nat) : Prop :=
  Forall2 (fun pf p => exists x, heap s !! p = Some x /\ leaf_for pf x) pfs ps.
Definition askable (pf : pfield) : Prop := match pf_type pf with PImage | POther _ => False | _ => True end.

Lemma alloc_for s pf r :
  bounded s -> sub_class (rq_class r) -> rq_subs r = [] -> leaf_for pf r ->
  wpc never (eff! p := alloc r; ret (Some p))%eff
    (fun o s' => exists p, o = Some p /\ new_leaves s [p] s' /\ calm s (St (tr s') (heap s) (next s) (requests s))
                 /\ leaves_for s' [pf] [p]) (fun _ _ => False) s.
Proof.
  intros Hb Hc Hs Hl. pose proof (alloc_leaf never s r Hb Hc Hs) as H. revert H.
  unfold alloc, wpc, bind, get, put, ret. cbn. intros (p & [= <-] & H). exists (next s).
  split; [done|]. split; [exact H|]. split; [done|].
  apply Forall2_cons_2; [|done]. exists r. cbn. by rewrite lookup_insert_eq.
Qed.
Lemma form_field_for s account title primary secondary pf :
  bounded s -> askable pf ->
  wpc never (form_field account title primary secondary pf)
    (fun o s' => exists p, o = Some p /\ new_leaves s [p] s' /\ calm s (St (tr s') (heap s) (next s) (requests s))
                 /\ leaves_for s' [pf] [p]) (fun _ _ => False) s.
Proof.
  intros Hb Ha. unfold form_field, askable in *.
  destruct (pf_type pf) eqn:E; try done;
    [apply alloc_for; try done; unfold leaf_for; rewrite E; by eexists..| | |].
  all: apply wpc_bind; unfold with_buttons; cbn [rq_fields];
    match goal with |- context [addFields ?fs []] => destruct (addFields_some fs []) as [l El] end;
    rewrite El; apply wpc_ret; apply alloc_for; try done; unfold leaf_for, labels_of; rewrite E; by split.
Qed.
Lemma form_fields_for account title primary secondary l : forall s,
  bounded s -> Forall askable (filter (fun pf => pf_visible pf) l) ->
  wpc never (form_fields account title primary secondary l)
    (fun ps s' => new_leaves s ps s' /\ calm s (St (tr s') (heap s) (next s) (requests s))
                  /\ leaves_for s' (filter (fun pf => pf_visible pf) l) ps) (fun _ _ => False) s.
Proof.
  induction l as [|pf l IH]; intros s Hb Ha; cbn [form_fields].
  - apply wpc_ret. split; [by apply new_leaves_nil|]. split; [done|constructor].
  - rewrite filter_cons in Ha |- *. destruct (pf_visible pf); cbn [negb]; cbn in Ha |- *; [|by apply IH].
    apply Forall_cons in Ha as [Hpf Ha]. apply wpc_bind.
    eapply wpc_mono; [by apply form_field_for| |done]. intros o s1 (p & -> & H1 & C1 & L1).
    apply wpc_bind. eapply wpc_mono; [apply IH; [apply H1|done]| |done]. intros ps s2 (H2 & C2 & L2). apply wpc_ret.
    split; [by apply (new_leaves_trans s [p] s1)|]. split.
    + split; [done|]. cbn [tr]. destruct C1 as [_ C1], C2 as [_ C2]. cbn [tr] in C1, C2. congruence.
    + apply Forall2_cons_2; [|done]. apply Forall2_cons_1 in L1 as [(x & Hx & Hlx) _]. exists x. split; [|done].
      destruct H2 as (_ & _ & _ & _ & B5 & B6). rewrite B6; [done|]. intros Hq%B5.
      destruct H1 as (_ & _ & _ & _ & A5 & _). destruct (A5 p ltac:(left)) as [? _]. destruct Hq as [? _]. lia.
Qed.

(** The form is the only question, [pfs] are left to ask. *)
Record form_state (p : nat) (main : request) (pfs : list pfield) (qs : list nat) (s : st) : Prop := {
  f_wf : wf s;
  f_queue : requests s = [p];
  f_main : heap s !! p = Some (with_subs qs main);
  f_leaves : leaves_for s pfs qs }.
Lemma leaves_same s s' pfs qs :
  leaves_for s pfs qs -> (forall q, q ∈ qs -> heap s' !! q = heap s !! q) -> leaves_for s' pfs qs.
Proof.
  intros H. induction H as [|pf q pfs qs (x & Hx & Hl) H IH]; intros Hq; constructor.
  - exists x. by rewrite Hq by left.
  - apply IH. intros q' Hq'. apply Hq. by right.
Qed.
Lemma form_calm p main pfs qs s s' : form_state p main pfs qs s -> same s s' -> form_state p main pfs qs s'.
Proof.
  intros [W Hq Hm Hl] E. pose proof (wf_same _ _ W E) as W'. destruct E as (Eh & _ & El).
  split; [done|congruence|congruence|]. apply (leaves_same s); [done|]. intros q _. by rewrite Eh.
Qed.
Lemma leaf_display F x pf q s :
  heap s !! q = Some x -> leaf_for pf x -> rq_subs x = [] ->
  wpc never (display (S F) q) (fun _ => calm s) (fun _ _ => False) s.
Proof.
  intros Hx Hl Hs. cbn [display]. apply wpc_bind, (wpc_deref never _ _ q x); [done|]. unfold leaf_for in Hl.
  destruct (pf_type pf); try done; [destruct Hl as [d ->]; apply mute_input_display..| | |];
    destruct Hl as [-> _]; rewrite Hs; apply mute_list_display.
Qed.
Lemma form_display F p main pfs qs s :
  rq_class main = RFieldList -> form_state p main pfs qs s ->
  wpc never (display (S (S F)) p) (fun _ => calm s) (fun _ _ => False) s.
Proof.
  intros Hc [W Hq Hm Hl]. cbn [display]. apply wpc_bind, (wpc_deref never _ _ p (with_subs qs main)); [done|].
  cbn [rq_class with_subs rq_subs]. rewrite Hc. destruct qs as [|q qs]; [apply mute_list_display|].
  apply Forall2_cons_inv_r in Hl as (pf & pfs' & (x & Hx & Hlx) & _ & ->).
  apply (leaf_display _ x pf); [done..|]. apply (wf_sub _ _ _ W p q); [rewrite Hq; left| |done].
  unfold subs_of. rewrite Hm. left.
Qed.

Definition pm (a : string) : @Msg.message nat := Msg.Message "PRIVMSG" Msg.se_empty (Msg.SE (Some self) "") [a].
Definition speaks (a : string) : bool := negb (Ascii.eqb (shead a) "001").

Lemma press_button a pf fs es s :
  addFields (labels_of pf) [] = Some fs -> pressed (labels_of pf) a = Some es ->
  wpc never (match Config.map_find a fs with None => throw RequestFieldNotFound | Some f => runCallback f end)
    (fun _ s' => same s s' /\ told (tr s') = told (tr s) ++ es) (fun _ _ => False) s.
Proof.
  intros Hl Hm. pose proof (addFields_sets _ _ _ (labels_set pf) (Forall_nil_2 _) Hl) as Hset.
  unfold pressed in Hm. rewrite Hl in Hm. cbn in Hm. destruct (Config.map_find a fs) as [f|] eqn:Ef; [|done].
  pose proof (map_find_forall _ _ _ _ Hset Ef) as Hf. injection Hm as <-. unfold runCallback, sets in *.
  destruct (fl_cb f); [done|..].
  1-2: apply wpc_put; split; [done|]; apply told_trace_app.
  apply wpc_bind, wpc_put, wpc_put. split; [done|]. cbn. by rewrite !told_trace_app, <- (assoc_L (++)).
Qed.
(** The answer to the first question that is left. *)
Lemma leaf_process F pf x q a es s :
  heap s !! q = Some x -> leaf_for pf x -> rq_subs x = [] -> meaning pf a = Some es ->
  wpc never (process (S F) q a) (fun _ s' => same s s' /\ told (tr s') = told (tr s) ++ es) (fun _ _ => False) s.
Proof.
  intros Hx Hl Hs Hm. cbn [process]. apply wpc_bind, (wpc_deref never _ _ q x); [done|].
  unfold leaf_for, meaning in *.
  destruct (pf_type pf) as [d|d| | |labels|items|t]; try done.
  - destruct Hl as [d' ->]. injection Hm as <-. apply wpc_put. split; [done|]. apply told_trace_app.
  - destruct Hl as [d' ->]. destruct (Num.s2t_signed 32 a); [|done]. injection Hm as <-.
    apply wpc_put. split; [done|]. apply told_trace_app.
  - destruct Hl as [-> Hl]. rewrite Hs. by apply (press_button a pf).
  - destruct Hl as [-> Hl]. rewrite Hs. by apply (press_button a pf).
  - destruct Hl as [-> Hl]. rewrite Hs. by apply (press_button a pf).
Qed.
Lemma size_S (h : gmap nat request) p r : h !! p = Some r -> exists n, size h = S n.
Proof.
  intros H. destruct (size h) eqn:E; [|by eexists]. apply map_size_empty_inv in E. by rewrite E in H.
Qed.
(** [send] of an answer that is valid: it is processed, then the question closes. *)
Lemma send_answer p main qs a s (Q : unit -> st -> Prop) :
  heap s !! p = Some (with_subs qs main) -> requests s = [p] -> rq_class main = RFieldList -> speaks a = true ->
  wpc never (match qs with
             | q :: _ => process (size (heap s)) q a
             | [] => match Config.map_find a (rq_fields main) with None => throw RequestFieldNotFound | Some f => runCallback f end
             end) (fun _ => wpc never (close_ p) Q (fun _ _ => False)) (fun _ _ => False) s ->
  wpc never (send (pm a)) Q (fun _ _ => False) s.
Proof.
  intros Hm Hq Hc Ha H. unfold send. cbn [Msg.cmd Msg.receiver Msg.entity Msg.getArg Msg.args pm].
  rewrite bool_decide_true by done. cbn. unfold speaks in Ha. apply negb_true_iff in Ha. rewrite Ha.
  apply wpc_bind, wpc_get. rewrite Hq. apply wpc_bind, wpc_get, wpc_bind, wpc_catch, wpc_bind. cbn [process].
  apply wpc_bind, (wpc_deref never _ _ p (with_subs qs main)); [done|]. cbn [rq_class with_subs rq_subs rq_fields].
  rewrite Hc. eapply wpc_mono; [exact H| |done]. intros [] s' H'. by apply wpc_ret.
Qed.
Lemma answer_field p main pf pfs q qs a es s :
  rq_class main = RFieldList -> form_state p main (pf :: pfs) (q :: qs) s -> meaning pf a = Some es -> speaks a = true ->
  wpc never (send (pm a)) (fun _ s' => form_state p main pfs qs s' /\ told (tr s') = told (tr s) ++ es)
    (fun _ _ => False) s.
Proof.
  intros Hc [W Hq Hm Hl] Hes Ha. apply (send_answer p main (q :: qs)); [done..|].
  apply Forall2_cons_1 in Hl as [(x & Hx & Hlx) Hl].
  assert (Hp : p ∈ requests s) by (rewrite Hq; left).
  destruct (wf_subs_leaves _ _ _ p _ q W Hp Hm ltac:(left)) as (x' & Hx' & Hxc & Hxs).
  assert (x' = x) as -> by congruence. destruct (size_S _ _ _ Hm) as [n En]. rewrite En.
  eapply wpc_mono; [by apply (leaf_process _ pf x)| |done]. intros [] s1 [(Eh & En1 & El) Et].
  apply wpc_bind, wpc_get. unfold fuel. rewrite Eh, En. replace (4 * S n + 5)%nat with (S (S (S (4 * n + 6)))) by lia.
  cbn [close]. apply wpc_bind, (wpc_deref never _ _ p (with_subs (q :: qs) main)); [by rewrite Eh|].
  cbn [rq_class with_subs rq_subs rq_fields]. rewrite Hc.
  apply wpc_bind, (wpc_delete never _ _ q x); [by rewrite Eh|by rewrite Hxs; apply NoDup_singleton| |].
  { rewrite Hxs. by intros ? ?%elem_of_nil. }
  intros h Hh. rewrite Hxs, Eh in Hh. apply wpc_bind, wpc_put. cbn [tr heap next requests].
  set (s2 := St _ _ _ _).
  assert (F : form_state p main pfs qs s2).
  { split.
    - unfold wf. cbn. rewrite En1, El. by apply (wf_shifted (heap s) _ _ p _ q qs).
    - cbn. by rewrite El.
    - cbn. by rewrite lookup_insert_eq.
    - pose proof (wf_owned_nodup _ _ _ p _ W Hp Hm) as [Hpn [Hqn _]%NoDup_cons]%NoDup_cons. cbn in Hpn, Hqn.
      apply (leaves_same s); [done|]. intros y Hy. cbn. rewrite lookup_insert_ne by (intros <-; by apply Hpn; right).
      rewrite Hh, bool_decide_false; [done|]. by intros ->%list_elem_of_singleton. }
  eapply wpc_mono; [by apply (form_display (4 * n + 6) p main pfs qs s2)| |done].
  intros [] s3 [E3 T3]. split; [by apply (form_calm p main pfs qs s2)|]. by rewrite T3.
Qed.
(** The confirmation, after which the form is closed. *)
Definition confirmed (cb : option nat) : list ev := match cb with Some c => [RunCallback c AllFields] | None => [] end.
Lemma answer_ok p main cb text s :
  rq_class main = RFieldList -> form_state p main [] [] s ->
  Config.map_find "ok" (rq_fields main) = Some (Field "ok" text (Tmplt cb AllFields)) ->
  wpc never (send (pm "ok")) (fun _ s' => told (tr s') = told (tr s) ++ confirmed cb /\ requests s' = [] /\ heap s' = ∅)
    (fun _ _ => False) s.
Proof.
  intros Hc [W Hq Hm _] Hf. apply (send_answer p main []); [done..|]. rewrite Hf.
  apply (wpc_mono never _ (fun _ s1 => same s s1 /\ told (tr s1) = told (tr s) ++ confirmed cb) _ (fun _ _ => False));
    [| |done].
  { unfold runCallback. cbn [fl_cb]. destruct cb as [c|]; [|by apply wpc_ret; rewrite app_nil_r].
    apply wpc_bind, wpc_put, wpc_bind, wpc_get. rewrite Hreact. apply wpc_ret. split; [done|]. apply told_trace_app. }
  intros [] s1 [E T1]. pose proof E as (Eh & _ & El). apply wpc_bind, wpc_get. unfold fuel. rewrite Eh.
  replace (4 * size (heap s) + 5)%nat with (S (S (4 * size (heap s) + 3))) by lia. cbn [close].
  apply wpc_bind, (wpc_deref never _ _ p (with_subs [] main)); [by rewrite Eh|].
  cbn [rq_class with_subs rq_subs rq_type]. rewrite Hc. apply wpc_bind, wpc_put, wpc_bind, wpc_get. rewrite Hclose.
  apply wpc_when; [intros _|done]. cbn [closeRequest]. apply wpc_bind, wpc_get. cbn [requests]. rewrite El, Hq.
  rewrite bool_decide_true by left. cbn [negb]. apply wpc_bind, wpc_put. cbn [tr heap next requests erase].
  rewrite Nat.eqb_refl.
  apply wpc_bind, (wpc_delete never _ _ p (with_subs [] main)); cbn; [by rewrite Eh|apply NoDup_singleton|by intros ? ?%elem_of_nil|].
  intros h Hh. rewrite bool_decide_true by done. apply wpc_when; [intros _|done].
  set (s2 := St _ _ _ _). apply wpc_bind. eapply wpc_mono; [apply (mute_privmsg "Request closed." s2)| |done].
  intros [] s3 [(E3h & _ & E3l) T3]. apply wpc_bind, wpc_get. rewrite E3l. apply wpc_ret. split_and!; [|done|].
  - rewrite T3. cbn [tr s2]. rewrite told_trace_app, T1. apply app_nil_r.
  - rewrite E3h. apply map_eq. intros k. cbn. rewrite Hh, lookup_empty. case_bool_decide as Hk; [done|].
    rewrite Eh. destruct (heap s !! k) eqn:Ek; [|done]. exfalso. apply Hk.
    assert (k ∈ owned (heap s) (requests s)) as Hko by (apply (wf_alive _ _ _ W); by rewrite Ek).
    rewrite Hq in Hko. apply elem_of_owned in Hko as [Hko|(y & ->%list_elem_of_singleton & Hy)]; [done|].
    unfold subs_of in Hy. rewrite Hm in Hy. by apply elem_of_nil in Hy.
Qed.

Lemma run_step x l s Q : wpc never (exec_step x) Q (fun _ _ => False) s -> exists s', run (x :: l) s = run l s' /\ Q tt s'.
Proof. unfold wpc. cbn [run]. destruct (exec_step x s) as [s' [[]|e|w]]; [|done..]. intros H. by exists s'. Qed.
Lemma answer_fields p main l : forall pfs qs answers ess s,
  rq_class main = RFieldList -> form_state p main pfs qs s ->
  Forall3 (fun pf a es => meaning pf a = Some es /\ speaks a = true) pfs answers ess ->
  exists s', run (map (fun a => Answer (pm a)) answers ++ l) s = run l s'
    /\ form_state p main [] [] s' /\ told (tr s') = told (tr s) ++ concat ess.
Proof.
  intros pfs qs answers ess s Hc F H. revert qs s F. induction H as [|pf a es pfs answers ess [Hm Ha] H IH]; intros qs s F.
  - exists s. split; [done|]. pose proof (f_leaves _ _ _ _ _ F) as Hl. apply Forall2_nil_inv_l in Hl as ->.
    split; [done|]. by rewrite app_nil_r.
  - pose proof (f_leaves _ _ _ _ _ F) as Hl. apply Forall2_cons_inv_l in Hl as (q & qs' & _ & _ & ->).
    destruct (run_step (Answer (pm a)) (map (fun a => Answer (pm a)) answers ++ l) s _
                (answer_field p main pf pfs q qs' a es s Hc F Hm Ha)) as (s1 & E1 & F1 & T1).
    destruct (IH qs' s1 F1) as (s2 & E2 & F2 & T2). exists s2. cbn [map app]. rewrite E1, E2.
    split; [done|]. split; [done|]. rewrite T2, T1. cbn. by rewrite <- (assoc_L (++)).
Qed.
Definition visible (fields : list pfield) : list pfield := filter (fun pf => pf_visible pf) fields.
Lemma ask_form title primary secondary fields ok ok_cb cancel cancel_cb account s :
  wf s -> requests s = [] -> Forall askable (visible fields) ->
  wpc never (exec (request_fields title primary secondary fields ok ok_cb cancel cancel_cb account))
    (fun _ s' => exists p main qs, rq_class main = RFieldList
       /\ Config.map_find "ok" (rq_fields main) = Some (Field "ok" ok (Tmplt ok_cb AllFields))
       /\ form_state p main (visible fields) qs s' /\ told (tr s') = told (tr s)) (fun _ _ => False) s.
Proof.
  intros W Hq Ha. cbn [exec].
  unfold request_fields_. set (main := Request RFieldList _ _ _ _ _ _ _). cbv zeta.
  apply wpc_bind. unfold alloc. apply wpc_bind, wpc_get, wpc_bind, wpc_put, wpc_ret. fold (opened main s).
  apply wpc_bind. eapply wpc_mono; [by apply form_fields_for; [apply opened_bounded|]| |done].
  intros ps s2 (H & [_ T2] & Hl). pose proof H as (A1 & _ & _ & _ & A5 & _). cbn [tr opened] in T2. cbn in A1.
  apply wpc_bind. unfold with_buttons. set (bs := addFields _ _).
  assert (exists l, bs = Some l /\ Config.map_find "ok" l = Some (Field "ok" ok (Tmplt ok_cb AllFields)))
    as (l & -> & Hok) by (eexists; split; reflexivity).
  apply wpc_ret, wpc_bind, wpc_put, wpc_bind, wpc_put, wpc_bind, wpc_get. cbn [tr heap next requests].
  rewrite A1, Hq. cbn [app length Nat.eqb].
  pose proof (form_wf main ps l s s2 W eq_refl H) as W3. rewrite Hq in W3. cbn [app] in W3.
  set (s3 := St _ _ _ _). assert (F : form_state (next s) (with_fields l main) (visible fields) ps s3).
  { split; [done|done|cbn; by rewrite lookup_insert_eq|]. apply (leaves_same s2); [done|].
    intros q Hq'. cbn. rewrite lookup_insert_ne; [done|]. intros <-. apply A5 in Hq' as [[? _] _]. cbn in *. lia. }
  apply wpc_bind, wpc_get. unfold fuel. replace (4 * size (heap s3) + 5)%nat with (S (S (4 * size (heap s3) + 3))) by lia.
  eapply wpc_mono; [by apply (form_display _ (next s) (with_fields l main) (visible fields) ps)| |done].
  intros [] s4 [E4 T4]. exists (next s), (with_fields l main), ps. split; [done|]. split; [done|].
  split; [by apply (form_calm _ _ _ _ s3)|]. by rewrite T4.
Qed.

(** C35: a form is answered field by field: when the queue is empty, the socket works
    and the callbacks just return, the answers the user writes to the visible fields,
    one after the other, each a valid one, then "ok", set the fields of libpurple in
    order to what the answers mean, run the callback of the form once, and leave no
    question. *)
Theorem form_answered (title primary secondary : option string) (fields : list pfield) (ok : string)
    (ok_cb : option nat) (cancel : string) (cancel_cb account : option nat) (answers : list string)
    (ess : list (list ev)) (s : st) :
  wf s -> requests s = [] ->
  Forall3 (fun pf a es => meaning pf a = Some es /\ speaks a = true) (visible fields) answers ess ->
  exists s',
    run (Call (request_fields title primary secondary fields ok ok_cb cancel cancel_cb account)
         :: map (fun a => Answer (pm a)) answers ++ [Answer (pm "ok")]) s = inl s'
    /\ told (tr s') = told (tr s) ++ concat ess ++ confirmed ok_cb
    /\ requests s' = [] /\ heap s' = ∅.
Proof.
  intros W Hq H3.
  assert (Ha : Forall askable (visible fields)).
  { clear -H3. induction H3 as [|pf a es l k k' [Hm _] H IH]; constructor; [|done].
    unfold askable, meaning in *. by destruct (pf_type pf). }
  destruct (run_step (Call (request_fields title primary secondary fields ok ok_cb cancel cancel_cb account))
              (map (fun a => Answer (pm a)) answers ++ [Answer (pm "ok")]) s _
              (ask_form title primary secondary fields ok ok_cb cancel cancel_cb account s W Hq Ha))
    as (s1 & E1 & p & main & qs & Hc & Hok & F1 & T1).
  destruct (answer_fields p main [Answer (pm "ok")] (visible fields) qs answers ess s1 Hc F1 H3) as (s2 & E2 & F2 & T2).
  destruct (run_step (Answer (pm "ok")) [] s2 _ (answer_ok p main ok_cb ok s2 Hc F2 Hok)) as (s3 & E3 & T3 & Q3 & H4).
  exists s3. rewrite E1, E2, E3. split; [done|]. split; [|done]. by rewrite T3, T2, T1, <- (assoc_L (++)).
Qed.
End Form.

(** * A session with questions *)

Definition demo_requests (reaction : list call) : RequestEnv := {|
  self := 7; write_error := fun _ => false; account_id := fun _ _ => "icq0"; purple_closes := fun _ _ => true;
  reacts := fun _ => reaction; strip_html := fun s => s; find_buddy := fun _ _ => Some "alice"; have_caca := true;
  temp_file := fun _ => inl "/tmp/minbif_request_1.img"; draw := fun _ => Drawn "image"; file_transfers := true;
  user_dir := "/var/lib/minbif/romain"; strerror := fun _ => "error"; opendir := fun _ _ => true; mkdir := fun _ _ => true;
  stat := fun _ _ => None; g_path_get_dirname := fun s => s; writable := fun _ _ => true |}.
Definition demo_form : list pfield :=
  [PField 1 (PString (Some "bob")) true (Some "Name"); PField 2 PBoolean false None;
   PField 3 (PInteger 18) true (Some "Age"); PField 4 (PChoice ["red"; "blue"]) true (Some "Color")].
Definition demo_call : call := request_fields (Some "Register") None None demo_form "OK" (Some 5%nat) "Cancel" None (Some 0%nat).
Definition demo_more : call := request_input (Some "Password") None None None (Some 6%nat) None.
Definition demo_image : call :=
  request_fields (Some "Captcha") None None [PField 8 PImage true None; PField 9 (PString None) true (Some "Text")]
    "OK" (Some 10%nat) "Cancel" None None.

Definition demo_alias : RequestEnv := {|
  self := 7; write_error := fun _ => false; account_id := fun _ _ => "icq0"; purple_closes := fun _ _ => true;
  reacts := fun _ => []; strip_html := fun s => s; find_buddy := fun _ _ => Some "Alice Liddell"; have_caca := true;
  temp_file := fun _ => inr "error"; draw := fun _ => NotLoaded; file_transfers := true;
  user_dir := "/"; strerror := fun _ => "error"; opendir := fun _ _ => true; mkdir := fun _ _ => true;
  stat := fun _ _ => None; g_path_get_dirname := fun s => s; writable := fun _ _ => true |}.

(** A callback that asks something more, and a form with an image behind. *)
Lemma requests_safe_witness :
  match @run (demo_requests [demo_more; request_close 4])
          [Call demo_call; Call demo_image; Answer (@pm (demo_requests []) "me"); Answer (@pm (demo_requests []) "20");
           Answer (@pm (demo_requests []) "green"); Answer (@pm (demo_requests []) "blue");
           Answer (@pm (demo_requests []) "ok"); Answer (@pm (demo_requests []) "secret")] s_init with
  | inl s => wf s
  | inr (s, x, why) => wf s /\ x ∈ [Call demo_call; Call demo_image; Answer (@pm (demo_requests []) "me");
      Answer (@pm (demo_requests []) "20"); Answer (@pm (demo_requests []) "green");
      Answer (@pm (demo_requests []) "blue"); Answer (@pm (demo_requests []) "ok");
      Answer (@pm (demo_requests []) "secret")] /\ @bad_end (demo_requests [demo_more; request_close 4]) s x why
  end.
Proof.
  apply (@requests_safe (demo_requests [demo_more; request_close 4])).
  - intros t. by repeat constructor.
  - by repeat constructor.
Defined.
Lemma form_answered_witness :
  exists s', @run (demo_requests [])
    (Call demo_call :: map (fun a => Answer (@pm (demo_requests []) a)) ["me"; "20"; "blue"]
     ++ [Answer (@pm (demo_requests []) "ok")]) s_init = inl s'
    /\ told (tr s') = [] ++ concat [[SetString 1 "me"]; [SetInteger 3 20]; [SetChoice 4 1]] ++ [RunCallback 5 AllFields]
    /\ requests s' = [] /\ heap s' = ∅.
Proof.
  apply (@form_answered (demo_requests []) (fun _ => eq_refl) (fun _ _ => eq_refl) (fun _ => eq_refl)
    (Some "Register") None None demo_form "OK" (Some 5%nat) "Cancel" None (Some 0%nat) ["me"; "20"; "blue"]
    [[SetString 1 "me"]; [SetInteger 3 20]; [SetChoice 4 1]] s_init);
    [exact wf_init|done|by repeat constructor].
Defined.

(** A callback that closes its question leaves [RequestNick::send] with a pointer to
    a freed one. *)
Example closing_callback :
  match @run (demo_requests [request_close 0]) [Call demo_more; Answer (@pm (demo_requests []) "secret")] s_init with
  | inr (_, _, why) => why = "freed request"
  | inl _ => False
  end.
Proof. vm_compute. done. Qed.
(** Of two equal entries of a list the second one is selected by another text. *)
Example selected_text :
  exists s, @run (demo_requests [])
    [Call (request_fields None None None [PField 1 (PList ["a"; "a"]) true None] "OK" None "Cancel" None None);
     Answer (@pm (demo_requests []) "a_")] s_init = inl s
    /\ told (tr s) = [ClearSelected 1; AddSelected 1 "a_"].
Proof. eexists. split; [vm_compute; reflexivity|vm_compute; done]. Qed.
(** The information about a buddy whose alias has a space ends in an exception in the
    middle of libpurple. *)
Example alias_with_space (s : st) :
  exec_step (env := demo_alias) (Call (notify_userinfo "alice" [(Some "Age", Some "20")])) s = (s, Raise MalformedMessage).
Proof. destruct s. done. Qed.
(** The name of a file that is received is not looked at: it may lead out of the
    directory of downloads. *)
Example path_out_of_downloads :
  exists s, @run (demo_requests []) [Call (request_file None "../../bob/accounts.xml" true 1 2)] s_init = inl s
    /\ last (tr s) = Some (RunCallback 1 (Path (Some "/var/lib/minbif/romain/downloads/../../bob/accounts.xml"))).
Proof. eexists. split; [vm_compute; reflexivity|vm_compute; done]. Qed.
